(* ===== verification/_CoqProject ===== *)
-Q . S2P
Prelude.v
Machine.v
Registers.v
Printf.v
MathUtils.v
Console.v
Crt0.v
Bitmap.v
Memory.v
PhysAlloc.v
SampleTree.v
Fdt.v
FdtRo.v
FdtCheck.v
FdtTree.v
FdtLookup.v
FdtPath.v
FdtWrite.v
FdtSw.v
FdtRw.v
FdtImage.v
FdtBuild.v
FdtFinish.v
FdtRead.v
FdtRoundtrip.v
FdtEdit.v
FdtNode.v
FdtEncode.v
FdtChildren.v
FdtPack.v
FdtTreeEdit.v
FdtPositions.v
FdtInplace.v
FdtKept.v
FdtNop.v
FdtOverlay.v
FdtParse.v
FdtMerge.v
FdtFragments.v
FdtPhandles.v
FdtRefs.v
FdtConflicts.v
FdtFixups.v
FdtGetPath.v
FdtSymbols.v
FdtApply.v
Devices.v
DetectMemory.v
FindDevices.v
Interrupts.v
Timer.v
ContextSwitch.v
KMain.v
Boot.v
BootEnds.v
