(* ===== verification/Prelude.v ===== *)
(** * A 32-bit RISC-V kernel and its device-tree library

    This library verifies the C code of a bare-metal kernel for RV32IMAC (src/src)
    and of the copy of libfdt that it links (src/libfdt).  The model is a shallow
    embedding: every C function becomes a function of Rocq with the name it has in
    the source, translated statement by statement, error returns included.  All
    functions are executable; the examples run them.

    ** The program

    One hart boots: [kmain] (boot/kmain.c) parks every other hart, masks interrupts,
    checks the extensions in misa, sets up the trap handler, checks the device tree
    that it is passed, finds the CLINT in it, reads the RAM regions from it, starts
    the page allocator, finds the power controller, and enters supervisor mode at
    [test].  What the parts share are byte memory, the control and status registers
    and a few static variables:

    - libfdt reads the tree in memory; [check_device_tree] runs its full check once,
      and init_devices.c, mem/memory.c, riscv/clint and drivers search it later;
    - [detect_memory] fills the table of RAM regions, which mem/phys_alloc.c turns
      into a bitmap of pages (klibc/bitmap.c) that it places behind the kernel image;
    - every failed assertion and panic prints through klibc/printf.c on the UART and
      parks the hart in [halt].

    ** The files

    Prelude (this file): C integers as [Z] with explicit wrap-around ([u32], [s32],
      [u64]), the result type [res] of fallible code ([Ok], [Fault] for a trapping
      access or undefined behaviour, [NoFuel]), bounded [loop]s with their rules, bit
      and list lemmas, and the hint database [kernel].
    Machine: byte memory ([mem], a [gmap] from addresses to bytes), the state of a hart
      with the kernel's statics ([kstate]), the class [Platform] of what build, linker
      script and board fix, and the state-and-outcome monad [K] with its logic
      ([runs], [ends]).
    Registers: the bit-field unions of interrupts.h, page_tables.h and uart.h.
    Printf: klibc/printf.c, against an output function as in the source.
    MathUtils: klibc/math_utils.c, klibc/bitwise_utils.c.
    Console: drivers/uart.c, [halt], [KERNEL_PANIC] and [DEBUG_ASSERT] (which does
      nothing when [ndebug] is set).
    Crt0: the C runtime of boot/crt0.c; word-wise [strlen], [memcpy], [memset], ...
    Bitmap: klibc/bitmap.c, and the class [SlotAllocator] that it offers its client.
    Memory: the region table of mem/memory.c and its readers.
    PhysAlloc: mem/phys_alloc.c, a client of [SlotAllocator].
    SampleTree: a concrete device tree and the string literals, for the examples.
    Fdt: fdt.c, fdt.h, libfdt_internal.h: header checks, bounds-checked pointers, the
      tag stream, [fdt_next_node].
    FdtRo: fdt_ro.c: strings, properties, names, paths, phandles, searches.
    FdtCheck: fdt_check.c, fdt_addresses.c, fdt_strerror.c.
    FdtTree: the specification of a tree ([dnode], [subs_at], [block_at]) and the walk.
    FdtLookup: the lookups of fdt_ro.c stated on that tree.
    FdtPath: its paths, aliases and phandles, and the class [Descends] of what a walk
      along a path needs of its steps.
    FdtWrite, FdtSw, FdtRw: fdt_wip.c, fdt_sw.c, fdt_rw.c with fdt_empty_tree.c, in the
      monad [W] that passes memory.
    FdtImage: regions of bytes, words and headers under stores.
    FdtBuild: the specification of sequential writing ([builder], [build_step]) and the
      proof that fdt_sw.c refines it.
    FdtFinish, FdtRead, FdtRoundtrip: [fdt_finish]; [image], a complete tree as bytes,
      and its readers; reading back what was built.
    FdtEdit, FdtNode, FdtEncode: replacing parts of an image; [node_at], a node with
      what is around it ([frame]s) in an image; laying any tree out as bytes.
    FdtChildren, FdtPositions: the loops over children, and the lookups of fdt_ro.c in
      terms of positions ([holds]).
    FdtPack, FdtTreeEdit, FdtInplace: the proofs about the edits of fdt_rw.c,
      fdt_empty_tree.c and fdt_wip.c.
    FdtKept, FdtNop: an image part of which is overwritten; blanking a node or a property
      with FDT_NOPs, and what a reader of such a block sees.
    FdtOverlay: fdt_overlay.c.  FdtMerge, FdtFragments: merging nodes and fragments.
      What happens to phandles first: FdtPhandles renumbers them, FdtRefs follows with
      the references that __local_fixups__ lists, FdtParse and FdtFixups resolve those
      of __fixups__, FdtConflicts takes over the phandles of the base.
    FdtGetPath: [fdt_get_path], which adjusts the path in the buffer as it walks; the class
      [PathBuffer] of what it needs of the buffer, which may lie in a value of the tree.
    FdtSymbols: the symbols, with the paths of their targets in front.
    FdtApply: [fdt_overlay_apply] as a whole.
    Devices: init_devices.c, the device-tree side of mem/memory.c, riscv/clint/clint.c,
      [init_uart] and drivers/power.c.
    DetectMemory: [parse_reg] and [detect_memory] stated on the tree.
    FindDevices: lists of strings, [fdt_node_offset_by_compatible] on the tree, and what
      [discover_clint] and [init_uart] find by it.
    Interrupts: riscv/interrupts/interrupts.c with its cause and source tables,
      riscv/switch_to_supervisor.c, and the privileged architecture that they rely on
      ([mret], traps, delegation).
    Timer: riscv/timer.c.
    ContextSwitch: riscv/context_switch.
    KMain: boot/kmain.c and riscv/extension_check.c.
    Boot: the boot from end to end: what a board must bring for [kmain] to get through,
      the state that it leaves there, and where it stops otherwise.
    BootEnds: every loop on the way of [kmain] ends ([ending] for code on memory, [lasts]
      for code in [K]), and with that the outcomes of the boot.

    State corresponds to the code as follows.  A [static] variable is a field of
    [kstate] of its own name; a pointer is the address it holds, 0 when it is null; a
    function that stores through an [int *] argument also returns what it stored; the
    memory of libfdt, the page bitmap and the literals is [k_mem], so aliasing is that
    of the program; a store to a device appends an event to [k_trace], newest first.
    String literals that C passes as pointers lie where [rodata] says.

    ** The theorems

    - Boot.  [kmain_boots]: on a [board] that brings what the kernel needs, hart 0 reaches
      [test] in supervisor mode with the devices found, memory registered and the page
      allocator ready ([set_up]); [kmain_stops]: where something is missing ([refused]),
      it is parked with interrupts masked.  [kmain_outcomes]: for a null pointer and for
      every tree of version 16 or later, well-formed or not ([checkable]), the boot ends:
      unless an access to memory faults, hart 0 enters supervisor mode at [test] with
      interrupts off, or is parked in [halt]; it never returns.  [kmain_boots_sample] runs
      it on the sample tree.
    - Device trees, reading.  [fdt_check_full_parses]: the check terminates on
      whatever is [checkable], stays inside the tree, and accepts exactly the trees that
      the grammar [block_at] parses.  On an accepted tree the walk is the preorder
      ([fdt_next_node_preorder]), and lookups of properties, subnodes, parents, nodes
      by value or phandle, and paths give what the tree says ([FdtLookup], [FdtPath]);
      [fdt_get_path_spec] is the way back, from a node to its path.
    - Device trees, the kernel's use: [parse_reg_spec], [detect_memory_spec] (the table
      holds the regions of the memory nodes in order), [check_device_tree_spec].
    - Device trees, writing.  [fdt_sw_refines]: any sequence of calls of fdt_sw.c
      with property names of at most 47 characters refines [build_step]; [fdt_finish_spec]; [fdt_sw_roundtrip]: what has been
      built is accepted by the check and reads back.
    - Device trees, editing.  Every edit of fdt_rw.c is the edit of the tree as a value,
      or fails for want of space and leaves the tree as it was; the theorems say how
      much space is enough ([fdt_setprop_spec], [fdt_delprop_spec],
      [fdt_add_subnode_spec], [fdt_del_node_spec], [fdt_set_name_spec],
      [fdt_appendprop_spec], [fdt_mem_rsv_edits]); [fdt_open_into_spec] and
      [fdt_pack_spec] move a tree and keep it; [fdt_setprop_inplace_spec] changes a value
      where it lies; [fdt_nop_node_spec] and [fdt_nop_property_spec] blank a part, and
      readers see the tree without it.
    - Device trees, overlays.  [overlay_apply_node_merges]: one node is merged into
      another as [merge_node] says; [overlay_merge_spec]: so are the fragments, each at
      its target; [overlay_adjust_local_phandles_spec]: phandles are renumbered;
      [overlay_update_local_references_spec]: so are the references to them;
      [overlay_fixup_phandles_spec]: references into the base are resolved;
      [overlay_symbol_update_spec]: symbols become symbols of the base;
      [fdt_overlay_apply_spec]: all of it, one function on trees;
      [fdt_overlay_apply_magic]: for every overlay, an error leaves no tree that could be
      taken for a good one.
    - Memory.  The bitmap's operations on every branch, its client interface and that it
      hands out slots in order; the page allocator's invariant, that pages are distinct
      and outside the kernel and the bitmap; where its arithmetic fails.
    - Output.  [vsnprintf] terminates on all formats, never writes past its buffer, and
      prints numbers that read back.
    - Traps and time: masking, set-up, the switch to supervisor mode and what it leaves
      undelegated, [timer_sleep], the context switch.

    ** Bounds and fuel

    Loops that are not structural run on fuel.  A loop over the tags of a tree gets
    [tree_fuel], two more than the tree's [totalsize]: every tag advances by at least
    four bytes, and [fdt_next_tag] refuses to leave the tree.  A scan for a NUL gets
    [scan_fuel], two more than the number of mapped bytes: a longer scan would have
    left memory and faulted.  The format loop gets the length of the format.  In each
    case the theorems conclude [Ok], or exclude [NoFuel], so the fuel is proved to be
    enough; [strrchr_diverges] shows a loop of the source that no fuel is enough for.

    ** Not modelled, or not covered

    - Trees of the versions 2 to 15.  The checks and [fdt_get_name] are modelled for them
      too, but a theorem on a whole tree asks for version 16 or later ([checkable],
      [readable_tree]): the names of older nodes go through [strrchr], which never returns
      unless the name is empty or starts with the slash it looks for.
    - Where nothing is said of where the root lies, it may follow FDT_NOPs and properties,
      which the check accepts; paths and the interpretation of "reg" ask for a root at
      offset 0.

    - The specification of [fdt_overlay_apply] asks of an overlay what a compiler ensures:
      that __fixups__ and __local_fixups__ point into the values they name ([fixable]),
      that every target-path is an absolute path that ends in a NUL ([path_ok]), and where
      it has symbols, that no node has an empty name or one with a slash, that no symbol has
      the name of a phandle, and that both trees have at most 2^29 bytes ([symbols_fine]).
    - boot/entry.S sets the stack pointer and jumps to [kmain]; the model has no stack.
    - printf's floating point and [long long], the Zbb branch of
      [count_trailing_zeroes], the RV64 branches of timer.c and
      switch_to_supervisor.c: switched off by printf.h and by the compiler flags.
    - drivers/soc.c, drivers/bus.h and mem/vmalloc.c, which are empty or declare what
      is not written yet.
    - The timing of interrupts: a trap is a step that [Interrupts] takes explicitly, no
      trap arrives in the middle of another function.
    - [__builtin_memmove], which [memmove] calls, is taken at its documented effect.
    - Tests and build files; their choices (RV32, [NDEBUG] unset by default, the
      addresses of the kernel image) are the fields of [Platform]. *)
From Stdlib Require Import ZArith Lia Ascii.
From Stdlib Require String.
Export String.StringSyntax.
From stdpp Require Import base list gmap numbers option.

#[local] Open Scope Z_scope.
#[global] Set Default Proof Using "Type".

(* ------------------------------------------------------------------ *)
(** * Machine integers *)

(** Unsigned C integers of width [w] are the [Z] in [0, 2^w); conversion to
    such a type is reduction modulo [2^w]. *)
Definition wrap (w x : Z) : Z := x mod 2 ^ w.
Definition u8 (x : Z) : Z := wrap 8 x.
Definition u16 (x : Z) : Z := wrap 16 x.
Definition u32 (x : Z) : Z := wrap 32 x.
Definition u64 (x : Z) : Z := wrap 64 x.

(** Two's complement reading of the low 32 bits: conversion to [int] or [long]. *)
Definition s32 (x : Z) : Z := if u32 x <? 2 ^ 31 then u32 x else u32 x - 2 ^ 32.

Definition UINT_MAX : Z := 2 ^ 32 - 1.
Definition INT_MAX : Z := 2 ^ 31 - 1.

Definition is_u8 (x : Z) : Prop := 0 <= x < 2 ^ 8.
Definition is_u32 (x : Z) : Prop := 0 <= x < 2 ^ 32.
Definition is_s32 (x : Z) : Prop := - 2 ^ 31 <= x < 2 ^ 31.

(* ------------------------------------------------------------------ *)
(** * Results of code that touches memory *)

(** [Fault]: an access outside mapped memory (or a misaligned word access);
    [NoFuel]: the bound given to a loop was reached. *)
Inductive res (A : Type) : Type :=
| Ok (a : A)
| Fault
| NoFuel.
Arguments Ok {A} a.
Arguments Fault {A}.
Arguments NoFuel {A}.

#[export] Instance res_eq_dec {A} `{EqDecision A} : EqDecision (res A).
Proof. solve_decision. Defined.

#[export] Instance res_ret : MRet res := fun A a => Ok a.
#[export] Instance res_bind : MBind res := fun A B f m =>
  match m with
  | Ok a => f a
  | Fault => Fault
  | NoFuel => NoFuel
  end.

Definition res_of_option {A} (o : option A) : res A :=
  match o with Some a => Ok a | None => Fault end.

(** A C loop: [body] either continues with a new loop state or leaves the
    loop with a value. *)
Fixpoint loop {S A : Type} (fuel : nat) (body : S → res (S + A)) (s : S) : res A :=
  match fuel with
  | O => NoFuel
  | Datatypes.S fuel' =>
      r ← body s;
      match r with
      | inl s' => loop fuel' body s'
      | inr a => Ok a
      end
  end.

Definition b2z (b : bool) : Z := if b then 1 else 0.

(** Bit-fields: the [w] bits of a word from bit [lo] on. gcc for RISC-V allocates
    the fields of a struct from the least significant bit. *)
Definition bits (x lo w : Z) : Z := Z.land (Z.shiftr x lo) (Z.ones w).
Definition set_bits (x lo w v : Z) : Z :=
  Z.lor (Z.ldiff x (Z.shiftl (Z.ones w) lo)) (Z.shiftl (Z.land v (Z.ones w)) lo).

(* ------------------------------------------------------------------ *)
(** * C strings *)

Definition char_code (a : ascii) : Z := Z.of_N (N_of_ascii a).

(** The bytes of a string literal, without and with its terminating NUL. *)
Definition chars (s : String.string) : list Z := map char_code (String.list_ascii_of_string s).
Definition cstr (s : String.string) : list Z := chars s ++ [0].
Arguments chars s%_string_scope.
Arguments cstr s%_string_scope.

(** The longest prefix of bytes with a property, and the rest. *)
Fixpoint span (f : Z → bool) (l : list Z) : list Z * list Z :=
  match l with
  | [] => ([], [])
  | c :: r => if f c then let '(a, b) := span f r in (c :: a, b) else ([], l)
  end.

(** What is in front of the first [ch], and behind it. *)
Definition split_at (ch : Z) (v : list Z) : option (list Z * list Z) :=
  let '(a, b) := span (λ c, negb (c =? ch)) v in match b with [] => None | _ :: r => Some (a, r) end.

(* ------------------------------------------------------------------ *)
(** * Lemmas on machine integers *)

Create HintDb kernel.
Create Rewrite HintDb kernel.

Lemma wrap_range w x : 0 <= w → 0 <= wrap w x < 2 ^ w.
Proof. intros. unfold wrap. apply Z.mod_pos_bound. apply Z.pow_pos_nonneg; lia. Qed.

Lemma u32_range x : is_u32 (u32 x).
Proof. apply wrap_range; lia. Qed.

Lemma u8_range x : is_u8 (u8 x).
Proof. apply wrap_range; lia. Qed.

Lemma u32_small x : is_u32 x → u32 x = x.
Proof. intros. unfold u32, wrap. by apply Z.mod_small. Qed.

Lemma u8_small x : is_u8 x → u8 x = x.
Proof. intros. unfold u8, wrap. by apply Z.mod_small. Qed.

Lemma u32_u32 x : u32 (u32 x) = u32 x.
Proof. apply u32_small, u32_range. Qed.

Lemma s32_small x : is_s32 x → s32 x = x.
Proof.
  unfold is_s32, s32, u32, wrap. intros H.
  destruct (Z.ltb_spec (x mod 2 ^ 32) (2 ^ 31)); Z.div_mod_to_equations; lia.
Qed.

Lemma s32_range x : is_s32 (s32 x).
Proof.
  pose proof (u32_range x) as H. unfold is_s32, is_u32, s32 in *.
  destruct (Z.ltb_spec (u32 x) (2 ^ 31)); lia.
Qed.

Lemma u32_s32 x : u32 (s32 x) = u32 x.
Proof.
  unfold s32. destruct (Z.ltb_spec (u32 x) (2 ^ 31)); [apply u32_u32|].
  unfold u32, wrap. Z.div_mod_to_equations; lia.
Qed.

Lemma u32_add_l x y : u32 (u32 x + y) = u32 (x + y).
Proof. unfold u32, wrap. by rewrite Zplus_mod_idemp_l. Qed.

Lemma u32_add_r x y : u32 (x + u32 y) = u32 (x + y).
Proof. unfold u32, wrap. by rewrite Zplus_mod_idemp_r. Qed.

Lemma s32_u32 x : s32 (u32 x) = s32 x.
Proof. unfold s32. by rewrite u32_u32. Qed.

Lemma s32_add_l x y : s32 (s32 x + y) = s32 (x + y).
Proof.
  rewrite <- (s32_u32 (s32 x + y)), <- u32_add_l, u32_s32, u32_add_l. apply s32_u32.
Qed.

(** A sum of two words wraps at most once. *)
Lemma u32_wrap_once x :
  0 <= x < 2 ^ 33 → (x < 2 ^ 32 ∧ u32 x = x) ∨ (2 ^ 32 <= x ∧ u32 x = x - 2 ^ 32).
Proof.
  intros. destruct (Z_lt_le_dec x (2 ^ 32)); [left|right]; (split; [done|]).
  - apply u32_small. unfold is_u32. lia.
  - replace x with (x - 2 ^ 32 + 1 * 2 ^ 32) at 1 by lia. unfold u32, wrap.
    rewrite Z_mod_plus_full. apply Z.mod_small. lia.
Qed.

#[export] Hint Resolve u32_range u8_range s32_range : kernel.
#[export] Hint Rewrite u32_u32 u32_s32 u32_add_l u32_add_r : kernel.

(** [range_lia] unfolds the range predicates and calls [lia] with the bounds of
    [u32], [u8] and [s32] terms in scope. *)
Ltac pose_range t lem :=
  lazymatch goal with
  | H : t |- _ => fail
  | |- _ => pose proof lem
  end.
Ltac pose_ranges :=
  repeat match goal with
  | |- context [u32 ?x] => pose_range (is_u32 (u32 x)) (u32_range x)
  | H : context [u32 ?x] |- _ => pose_range (is_u32 (u32 x)) (u32_range x)
  | |- context [u8 ?x] => pose_range (is_u8 (u8 x)) (u8_range x)
  | H : context [u8 ?x] |- _ => pose_range (is_u8 (u8 x)) (u8_range x)
  | |- context [s32 ?x] => pose_range (is_s32 (s32 x)) (s32_range x)
  | H : context [s32 ?x] |- _ => pose_range (is_s32 (s32 x)) (s32_range x)
  end.
Ltac range_lia :=
  pose_ranges; unfold is_u32, is_u8, is_s32, UINT_MAX, INT_MAX in *; lia.

(* ------------------------------------------------------------------ *)
(** * Bits *)

Lemma testbit_u32 x i : 0 <= i → Z.testbit (u32 x) i = (i <? 32) && Z.testbit x i.
Proof.
  intros. unfold u32, wrap. destruct (Z.ltb_spec i 32).
  - by rewrite Z.mod_pow2_bits_low by lia.
  - by rewrite Z.mod_pow2_bits_high by lia.
Qed.

Lemma testbit_high_u32 x i : is_u32 x → 32 <= i → Z.testbit x i = false.
Proof.
  intros Hx Hi. rewrite <- (u32_small x Hx), testbit_u32 by lia.
  by destruct (Z.ltb_spec i 32); [lia|].
Qed.

Lemma testbit_one k i : 0 <= k → 0 <= i → Z.testbit (Z.shiftl 1 k) i = (i =? k).
Proof.
  intros. rewrite Z.shiftl_1_l. destruct (Z.eqb_spec i k) as [->|].
  - by apply Z.pow2_bits_true.
  - by apply Z.pow2_bits_false.
Qed.

Lemma shiftl_one_u32 k : 0 <= k < 32 → is_u32 (Z.shiftl 1 k).
Proof.
  intros. rewrite Z.shiftl_1_l. split; [apply Z.pow_nonneg; lia|].
  apply Z.pow_lt_mono_r; lia.
Qed.

Lemma lor_u32 x y : is_u32 x → is_u32 y → is_u32 (Z.lor x y).
Proof.
  intros Hx Hy. rewrite <- (u32_small x Hx), <- (u32_small y Hy).
  enough (Z.lor (u32 x) (u32 y) = u32 (Z.lor (u32 x) (u32 y))) as ->
    by apply u32_range.
  apply Z.bits_inj'. intros i Hi.
  rewrite testbit_u32, !Z.lor_spec, !testbit_u32 by done.
  by destruct (i <? 32).
Qed.

Lemma land_u32_l x y : is_u32 x → is_u32 (Z.land x y).
Proof.
  intros Hx. rewrite <- (u32_small x Hx).
  enough (Z.land (u32 x) y = u32 (Z.land (u32 x) y)) as -> by apply u32_range.
  apply Z.bits_inj'. intros i Hi.
  rewrite testbit_u32, !Z.land_spec, !testbit_u32 by done.
  by destruct (i <? 32).
Qed.

(** Two words with the same 32 bits are equal. *)
Lemma u32_bits_inj x y :
  is_u32 x → is_u32 y →
  (∀ i, 0 <= i < 32 → Z.testbit x i = Z.testbit y i) → x = y.
Proof.
  intros Hx Hy H. apply Z.bits_inj'. intros i Hi.
  destruct (Z_lt_le_dec i 32); [apply H; lia|].
  by rewrite !testbit_high_u32 by done.
Qed.

Lemma word_max_bits x :
  is_u32 x → (∀ i, 0 <= i < 32 → Z.testbit x i = true) → x = UINT_MAX.
Proof.
  intros Hx H. apply u32_bits_inj; [done|unfold is_u32, UINT_MAX; lia|].
  intros i Hi. rewrite H by done. change UINT_MAX with (Z.ones 32).
  by rewrite Z.ones_spec_low by lia.
Qed.

Lemma testbit_word_max i : 0 <= i < 32 → Z.testbit UINT_MAX i = true.
Proof. intros. change UINT_MAX with (Z.ones 32). by rewrite Z.ones_spec_low by lia. Qed.

#[export] Hint Resolve shiftl_one_u32 lor_u32 land_u32_l : kernel.

Lemma testbit_ones w i : 0 <= w → 0 <= i → Z.testbit (Z.ones w) i = (i <? w).
Proof.
  intros. destruct (Z.ltb_spec i w).
  - by apply Z.ones_spec_low.
  - by apply Z.ones_spec_high.
Qed.

Lemma testbit_bits x lo w i :
  0 <= lo → 0 <= w → 0 <= i → Z.testbit (bits x lo w) i = (i <? w) && Z.testbit x (lo + i).
Proof.
  intros. unfold bits. rewrite Z.land_spec, Z.shiftr_spec, testbit_ones by lia.
  rewrite andb_comm. do 2 f_equal. lia.
Qed.

Lemma testbit_set_bits x lo w v i :
  0 <= lo → 0 <= w → 0 <= i →
  Z.testbit (set_bits x lo w v) i =
  if (lo <=? i) && (i <? lo + w) then Z.testbit v (i - lo) else Z.testbit x i.
Proof.
  intros. unfold set_bits.
  rewrite Z.lor_spec, Z.ldiff_spec, !Z.shiftl_spec by lia.
  destruct (Z.leb_spec lo i); cbn [andb].
  - rewrite Z.land_spec, !testbit_ones by lia.
    destruct (Z.ltb_spec i (lo + w)), (Z.ltb_spec (i - lo) w); try lia; simpl.
    + by rewrite andb_false_r, andb_true_r.
    + by rewrite andb_false_r, orb_false_r, andb_true_r.
  - rewrite !(Z.testbit_neg_r _ (i - lo)) by lia. simpl.
    by rewrite andb_true_r, orb_false_r.
Qed.

(** Writing a field and reading it back; other fields are untouched. *)
Lemma bits_set_bits x lo w v :
  0 <= lo → 0 <= w → 0 <= v < 2 ^ w → bits (set_bits x lo w v) lo w = v.
Proof.
  intros. apply Z.bits_inj'. intros i Hi.
  rewrite testbit_bits, testbit_set_bits by lia.
  destruct (Z.leb_spec lo (lo + i)); [|lia].
  destruct (Z.ltb_spec i w), (Z.ltb_spec (lo + i) (lo + w)); try lia; simpl.
  - f_equal. lia.
  - symmetry. rewrite <- (Z.mod_small v (2 ^ w)) by done.
    by apply Z.mod_pow2_bits_high.
Qed.

Lemma bits_set_bits_other x lo w v lo' w' :
  0 <= lo → 0 <= w → 0 <= lo' → 0 <= w' → lo + w <= lo' ∨ lo' + w' <= lo →
  bits (set_bits x lo w v) lo' w' = bits x lo' w'.
Proof.
  intros. apply Z.bits_inj'. intros i Hi.
  rewrite !testbit_bits, testbit_set_bits by lia.
  destruct (Z.ltb_spec i w'); [|done]. cbn [andb].
  destruct (Z.leb_spec lo (lo' + i)), (Z.ltb_spec (lo' + i) (lo + w)); simpl; try done; lia.
Qed.

Lemma set_bits_u32 x lo w v :
  is_u32 x → 0 <= lo → 0 <= w → lo + w <= 32 → is_u32 (set_bits x lo w v).
Proof.
  intros Hx ???.
  enough (set_bits x lo w v = u32 (set_bits x lo w v)) as -> by apply u32_range.
  apply Z.bits_inj'. intros i Hi. rewrite testbit_u32 by done.
  destruct (Z.ltb_spec i 32); [done|]. rewrite testbit_set_bits by lia.
  destruct (Z.leb_spec lo i), (Z.ltb_spec i (lo + w)); simpl; try lia;
    by apply testbit_high_u32.
Qed.

Lemma ldiff_even x : Z.even x = true → Z.ldiff x 1 = x.
Proof.
  intros He. apply Z.bits_inj'. intros i Hi. rewrite Z.ldiff_spec.
  destruct (decide (i = 0)) as [->|].
  - rewrite Z.bit0_odd, <- Z.negb_even, He. done.
  - change 1 with (Z.ones 1). rewrite testbit_ones by lia.
    destruct (Z.ltb_spec i 1); [lia|]. by rewrite andb_true_r.
Qed.

(** Clearing the low [k] bits of a word rounds it down to a multiple of [2^k]. *)
Lemma land_align k x :
  0 <= k <= 32 → is_u32 x → Z.land x (u32 (Z.shiftl UINT_MAX k)) = 2 ^ k * (x / 2 ^ k).
Proof.
  intros Hk Hx. rewrite (Z.mul_comm (2 ^ k)).
  rewrite <- Z.shiftr_div_pow2, <- Z.shiftl_mul_pow2 by lia.
  apply Z.bits_inj'. intros i Hi. rewrite Z.land_spec, Z.shiftl_spec by lia.
  rewrite testbit_u32, Z.shiftl_spec by lia. change UINT_MAX with (Z.ones 32).
  destruct (Z_lt_le_dec i k).
  - rewrite !(Z.testbit_neg_r _ (i - k)) by lia. by rewrite !andb_false_r.
  - rewrite testbit_ones, Z.shiftr_spec by lia. replace (i - k + k) with i by lia.
    destruct (Z.ltb_spec i 32), (Z.ltb_spec (i - k) 32); try lia; cbn [andb].
    + by rewrite andb_true_r.
    + by rewrite testbit_high_u32.
    + by rewrite testbit_high_u32.
Qed.

(* ------------------------------------------------------------------ *)
(** * Program logic of [res] *)

(** [yields m Q]: [m] returns normally, with a value that satisfies [Q]. *)
Definition yields {A} (m : res A) (Q : A → Prop) : Prop :=
  match m with Ok a => Q a | _ => False end.

Lemma yields_ok {A} (a : A) (Q : A → Prop) : Q a → yields (Ok a) Q.
Proof. done. Qed.

Lemma yields_bind {A B} (m : res A) (f : A → res B) (P : A → Prop) (Q : B → Prop) :
  yields m P → (∀ a, P a → yields (f a) Q) → yields (m ≫= f) Q.
Proof. destruct m; simpl; naive_solver. Qed.

Lemma yields_mono {A} (m : res A) (P Q : A → Prop) :
  yields m P → (∀ a, P a → Q a) → yields m Q.
Proof. destruct m; simpl; naive_solver. Qed.

Lemma yields_eq {A} (m : res A) (a : A) : yields m (eq a) ↔ m = Ok a.
Proof. destruct m; simpl; naive_solver. Qed.

Lemma bind_ok {A B} (m : res A) (f : A → res B) (b : B) :
  (m ≫= f) = Ok b → ∃ a, m = Ok a ∧ f a = Ok b.
Proof. destruct m; simpl; intros; try done. eauto. Qed.

(** A loop with an invariant and a decreasing measure leaves with its
    postcondition, provided the fuel exceeds the measure. *)
Lemma loop_yields {S A} (Inv : S → Prop) (mu : S → nat) (Q : A → Prop) body fuel s :
  (∀ s, Inv s →
    yields (body s) (λ r, match r with
                          | inl s' => Inv s' ∧ (mu s' < mu s)%nat
                          | inr a => Q a end)) →
  Inv s → (mu s < fuel)%nat → yields (loop fuel body s) Q.
Proof.
  intros Hbody. revert s. induction fuel as [|fuel IH]; intros s HI Hf; [lia|].
  simpl. eapply yields_bind; [by apply Hbody|].
  intros [s'|a] Hr; simpl in Hr; [|done]. destruct Hr as [HI' Hm].
  apply IH; [done|lia].
Qed.

(** More fuel does not change a result. *)
Lemma loop_fuel_mono {S A} body fuel fuel' (s : S) (a : A) :
  loop fuel body s = Ok a → (fuel <= fuel')%nat → loop fuel' body s = Ok a.
Proof.
  revert fuel' s. induction fuel as [|fuel IH]; intros fuel' s; [done|].
  destruct fuel' as [|fuel']; [lia|]. simpl.
  destruct (body s) as [[s'|a']| |]; simpl; try done.
  intros. apply IH; [done|lia].
Qed.

(** A round that continues can be skipped. *)
Lemma loop_continue {S A} fuel body (s s' : S) (a : A) :
  loop fuel body s = Ok a → body s = Ok (inl s') → loop fuel body s' = Ok a.
Proof.
  destruct fuel as [|fuel]; [done|]. intros Hl Hb. cbn [loop] in Hl. rewrite Hb in Hl.
  by eapply loop_fuel_mono; [exact Hl|lia].
Qed.

Lemma loop_leave {S A} fuel body (s : S) (a b : A) :
  loop fuel body s = Ok a → body s = Ok (inr b) → a = b.
Proof. destruct fuel; [done|]. intros Hl Hb. cbn [loop] in Hl. rewrite Hb in Hl. cbn in Hl. congruence. Qed.

Lemma loop_det {S A} body fuel fuel' (s : S) (a b : A) :
  loop fuel body s = Ok a → loop fuel' body s = Ok b → a = b.
Proof.
  intros Ha Hb. apply (loop_fuel_mono _ _ (fuel + fuel')) in Ha, Hb; [|lia..]. congruence.
Qed.

(** Two bodies that agree on the states of a run give the same result. *)
Lemma loop_agree {S A} (f g : S → res (S + A)) (Inv : S → Prop) fuel s a :
  (∀ s k, Inv s → loop k f s = Ok a → g s = f s ∧ ∀ s', f s = Ok (inl s') → Inv s') →
  Inv s → loop fuel f s = Ok a → loop fuel g s = Ok a.
Proof.
  intros Hfg. revert s. induction fuel as [|fuel IH]; intros s HI Hl; [done|].
  destruct (Hfg s _ HI Hl) as [He Hn]. cbn [loop] in *. rewrite He.
  destruct (f s) as [[s'|b]| |]; cbn [mbind res_bind] in *; try done. apply IH; [by apply Hn|done].
Qed.

(* ------------------------------------------------------------------ *)
(** * Lists indexed by [Z] *)

Lemma lookup_seqZ_small (n i : Z) : 0 <= i < n → seqZ 0 n !! Z.to_nat i = Some i.
Proof. intros. apply lookup_seqZ. lia. Qed.

Lemma list_insert_lookup {A} (l : list A) (i j : nat) (x : A) :
  (i < length l)%nat →
  <[i := x]> l !! j = if decide (i = j) then Some x else l !! j.
Proof.
  intros. case_decide as E; [subst; by apply list_lookup_insert_eq|].
  by apply list_lookup_insert_ne.
Qed.

Lemma Forall_insert_lt {A} (P : A → Prop) (l : list A) i x :
  Forall P l → P x → Forall P (<[i := x]> l).
Proof. intros. by apply Forall_insert. Qed.

#[export] Hint Resolve Forall_insert_lt : kernel.

(* ------------------------------------------------------------------ *)
(** * Lists split at an element *)

Lemma span_spec f l :
  l = (span f l).1 ++ (span f l).2 ∧ Forall (λ c, f c = true) (span f l).1 ∧
  match (span f l).2 with [] => True | c :: _ => f c = false end.
Proof.
  induction l as [|c l (E & H1 & H2)]; [done|]. cbn [span]. destruct (f c) eqn:Ef; [|by split_and!].
  destruct (span f l) as [a b]. cbn [fst snd] in *. split_and!; [by rewrite E|by constructor|done].
Qed.

Lemma split_at_spec ch v :
  match split_at ch v with
  | Some (a, r) => v = a ++ ch :: r ∧ Forall (λ c, c ≠ ch) a
  | None => Forall (λ c, c ≠ ch) v
  end.
Proof.
  unfold split_at. destruct (span_spec (λ c, negb (c =? ch)) v) as (E & H1 & H2). destruct (span _ v) as [a b]. cbn [fst snd] in *.
  assert (Forall (λ c, c ≠ ch) a) as Ha by (clear -H1; induction H1; constructor; [lia|done]).
  destruct b as [|c r]; [by rewrite E, app_nil_r|]. split; [|done]. rewrite E. f_equal. f_equal. lia.
Qed.

Lemma split_at_app ch a r : Forall (λ c, c ≠ ch) a → split_at ch (a ++ ch :: r) = Some (a, r).
Proof.
  unfold split_at. induction 1 as [|c a Hc _ IH]; cbn [app span]; [by rewrite Z.eqb_refl|]. destruct (Z.eqb_spec c ch); [done|].
  cbn [negb]. destruct (span _ (a ++ ch :: r)) as [a' [|x r']]; [done|]. by injection IH as -> ->.
Qed.
