(* ===== verification/Machine.v ===== *)
(** The machine the kernel runs on and the statics of the kernel: byte memory
    with word accesses, control and status registers, memory-mapped devices,
    and the monad [K] in which the C functions with effects are written. *)
From S2P Require Import Prelude.
From stdpp Require Import base list gmap functions.
From Stdlib Require Import ZArith Lia Ascii.
From Stdlib Require String.
#[local] Open Scope Z_scope.

(* ------------------------------------------------------------------ *)
(** * Byte memory *)

(** Physical RAM: a finite map from addresses to bytes; an address that is not
    in the map is not backed by memory. *)
Abbreviation mem := (gmap Z Z).

Definition load8 (m : mem) (a : Z) : res Z := res_of_option (m !! a).

Definition store8 (m : mem) (a v : Z) : res mem :=
  match m !! a with
  | Some _ => Ok (<[a := u8 v]> m)
  | None => Fault
  end.

(** Byte [i] of a word, in little-endian order. *)
Definition byte_of (v i : Z) : Z := Z.land (Z.shiftr v (8 * i)) 255.

(** [lw]: a little-endian word; a misaligned access traps. *)
Definition load32 (m : mem) (a : Z) : res Z :=
  if a mod 4 =? 0 then
    b0 ← load8 m a; b1 ← load8 m (a + 1); b2 ← load8 m (a + 2); b3 ← load8 m (a + 3);
    Ok (b0 + Z.shiftl b1 8 + Z.shiftl b2 16 + Z.shiftl b3 24)
  else Fault.

(** [sw]. *)
Definition store32 (m : mem) (a v : Z) : res mem :=
  if a mod 4 =? 0 then
    m ← store8 m a (byte_of v 0); m ← store8 m (a + 1) (byte_of v 1);
    m ← store8 m (a + 2) (byte_of v 2); store8 m (a + 3) (byte_of v 3)
  else Fault.

(** Memory with [n] zeroed cells from [a] on added to it. *)
Definition map_zeros (a n : Z) (m : mem) : mem :=
  foldr (fun i m => <[a + i := 0]> m) m (seqZ 0 n).

(** Memory with the bytes [bs] stored from [a] on. *)
Fixpoint map_bytes (a : Z) (bs : list Z) (m : mem) : mem :=
  match bs with
  | [] => m
  | b :: bs' => <[a := b]> (map_bytes (a + 1) bs' m)
  end.

(* ------------------------------------------------------------------ *)
(** * Registers, devices and statics *)

Inductive csr : Type :=
| mstatus | misa | mtvec | stvec | mepc | medeleg | mideleg | mie | mip
| mcause | mtval | satp | scause | sepc | stval | sstatus | mhartid
| pmpcfg0 | pmpaddr0 | pmpaddr1.

#[export] Instance csr_eq_dec : EqDecision csr.
Proof. solve_decision. Defined.

Inductive riscv_privileges : Type :=
| RISCV_PRIV_LVL_USER
| RISCV_PRIV_LVL_SUPERVISOR
| RISCV_PRIV_LVL_MACHINE.

#[export] Instance priv_eq_dec : EqDecision riscv_privileges.
Proof. solve_decision. Defined.

(** The values of the enumeration. *)
Definition privilege_code (p : riscv_privileges) : Z :=
  match p with
  | RISCV_PRIV_LVL_USER => 0
  | RISCV_PRIV_LVL_SUPERVISOR => 1
  | RISCV_PRIV_LVL_MACHINE => 3
  end.

(** What the outside world can see: stores to device registers and the fences
    and jumps that leave no trace in a register. *)
Inductive event : Type :=
| Mmio8 (addr val : Z)
| Mmio32 (addr val : Z)
| SfenceVma
| CsrWrite (r : csr) (val : Z).

Record ram_descriptor := RamDescriptor {
  physicaddr : Z;
  space_size : Z;
}.

Record bitmap := Bitmap {
  slots_size : Z;
  free_slots_count : Z;
  last_freed : Z;
  slots_ptr : Z;
}.

Record riscv_timer := RiscvTimer {
  mtime : Z;
  mtimecmp : Z;
}.

(** The functions the pointers [shutdown] and [reboot] can hold. *)
Inductive power_fn : Type := syscon_shutdown_fn | syscon_reboot_fn.

#[export] Instance ram_descriptor_eq_dec : EqDecision ram_descriptor.
Proof. solve_decision. Defined.
#[export] Instance bitmap_eq_dec : EqDecision bitmap.
Proof. solve_decision. Defined.
#[export] Instance riscv_timer_eq_dec : EqDecision riscv_timer.
Proof. solve_decision. Defined.
#[export] Instance power_fn_eq_dec : EqDecision power_fn.
Proof. solve_decision. Defined.

(** What the build, the linker script and the board fix. [rodata] gives the
    address of a string literal; [hw_clint] is where the board has its CLINT. *)
Class Platform := {
  ndebug : bool;
  kernel_physical_start : Z;
  kernel_physical_end : Z;
  m_mode_handle_addr : Z;
  s_mode_handle_addr : Z;
  test_addr : Z;
  hw_clint : Z;
  rodata : String.string → Z;
}.

Arguments rodata {_} _%_string_scope.

(** The state of one hart: memory, registers, device registers and the static
    variables of the kernel. [k_trace] has the newest event first. [k_elapse]
    lists how far the real-time counter advances before each of the next reads
    of it. *)
Record kstate := KState {
  k_mem : mem;
  k_csr : csr → Z;
  k_mode : riscv_privileges;
  k_pc : Z;
  k_trace : list event;
  k_time : Z;
  k_elapse : list Z;
  k_timecmp : Z;
  ram_regions : list ram_descriptor;
  ram_regions_index : Z;
  physical_bitmap_ : bitmap;
  clint_addr : Z;
  present_timer : riscv_timer;
  shutdown_ptr : option power_fn;
  reboot_ptr : option power_fn;
  uart_base : Z;
}.

Definition set_mem (m : mem) (s : kstate) : kstate :=
  let 'KState _ a b c d e f g h i j k l n o p := s in
  KState m a b c d e f g h i j k l n o p.
Definition set_csrs (x : csr → Z) (s : kstate) : kstate :=
  let 'KState m _ b c d e f g h i j k l n o p := s in
  KState m x b c d e f g h i j k l n o p.
Definition set_mode_pc (x : riscv_privileges) (y : Z) (s : kstate) : kstate :=
  let 'KState m a _ _ d e f g h i j k l n o p := s in
  KState m a x y d e f g h i j k l n o p.
Definition add_event (x : event) (s : kstate) : kstate :=
  let 'KState m a b c d e f g h i j k l n o p := s in
  KState m a b c (x :: d) e f g h i j k l n o p.
Definition set_clock (t : Z) (x : list Z) (s : kstate) : kstate :=
  let 'KState m a b c d _ _ g h i j k l n o p := s in
  KState m a b c d t x g h i j k l n o p.
Definition set_timecmp (x : Z) (s : kstate) : kstate :=
  let 'KState m a b c d e f _ h i j k l n o p := s in
  KState m a b c d e f x h i j k l n o p.
Definition set_regions (x : list ram_descriptor) (y : Z) (s : kstate) : kstate :=
  let 'KState m a b c d e f g _ _ j k l n o p := s in
  KState m a b c d e f g x y j k l n o p.
Definition set_bitmap (x : bitmap) (s : kstate) : kstate :=
  let 'KState m a b c d e f g h i _ k l n o p := s in
  KState m a b c d e f g h i x k l n o p.
Definition set_clint_addr (x : Z) (s : kstate) : kstate :=
  let 'KState m a b c d e f g h i j _ l n o p := s in
  KState m a b c d e f g h i j x l n o p.
Definition set_timer (x : riscv_timer) (s : kstate) : kstate :=
  let 'KState m a b c d e f g h i j k _ n o p := s in
  KState m a b c d e f g h i j k x n o p.
Definition set_power (x y : option power_fn) (s : kstate) : kstate :=
  let 'KState m a b c d e f g h i j k l _ _ p := s in
  KState m a b c d e f g h i j k l x y p.
Definition set_uart_base (x : Z) (s : kstate) : kstate :=
  let 'KState m a b c d e f g h i j k l n o _ := s in
  KState m a b c d e f g h i j k l n o x.

(* ------------------------------------------------------------------ *)
(** * The kernel monad *)

(** How a computation of the kernel ends: it returns; the hart is parked in the
    [wfi] loop of [halt]; [mret] or a trap has
    passed control to another mode or to a handler; a memory access or jump
    faulted; control reached [__builtin_unreachable]; a loop bound ran out. *)
Inductive outcome (A : Type) : Type :=
| Ret (a : A) (s : kstate)
| Halted (s : kstate)
| Entered (s : kstate)
| Faulted (s : kstate)
| Unreachable (s : kstate)
| OutOfFuel.
Arguments Ret {A} a s.
Arguments Halted {A} s.
Arguments Entered {A} s.
Arguments Faulted {A} s.
Arguments Unreachable {A} s.
Arguments OutOfFuel {A}.

(** The state in which a computation ended. *)
Definition final {A} (d : kstate) (o : outcome A) : kstate :=
  match o with
  | Ret _ s | Halted s | Entered s | Faulted s | Unreachable s => s
  | OutOfFuel => d
  end.

Definition K (A : Type) : Type := kstate → outcome A.

#[export] Instance K_ret : MRet K := fun A a s => Ret a s.
#[export] Instance K_bind : MBind K := fun A B f m s =>
  match m s with
  | Ret a s' => f a s'
  | Halted s' => Halted s'
  | Entered s' => Entered s'
  | Faulted s' => Faulted s'
  | Unreachable s' => Unreachable s'
  | OutOfFuel => OutOfFuel
  end.

Definition gets {A} (f : kstate → A) : K A := fun s => Ret (f s) s.
Definition modify (f : kstate → kstate) : K unit := fun s => Ret tt (f s).
Definition fault {A} : K A := fun s => Faulted s.
Definition unreachable {A} : K A := fun s => Unreachable s.

Definition lift {A} (r : res A) : K A := fun s =>
  match r with
  | Ok a => Ret a s
  | Fault => Faulted s
  | NoFuel => OutOfFuel
  end.

(** Code that only reads memory, and code that also writes it. *)
Definition reading {A} (f : mem → res A) : K A := fun s => lift (f (k_mem s)) s.
Definition writing {A} (f : mem → res (A * mem)) : K A := fun s =>
  match f (k_mem s) with
  | Ok (a, m) => Ret a (set_mem m s)
  | Fault => Faulted s
  | NoFuel => OutOfFuel
  end.

Definition when (b : bool) (k : K unit) : K unit := if b then k else mret tt.

(** [READ_CSR] and [WRITE_CSR]. *)
Definition READ_CSR (r : csr) : K Z := gets (fun s => k_csr s r).
Definition WRITE_CSR (r : csr) (val : Z) : K unit :=
  modify (fun s => add_event (CsrWrite r (u32 val))
                     (set_csrs (fun r' => if decide (r' = r) then u32 val else k_csr s r') s)).

Definition mmio_write8 (a v : Z) : K unit := modify (add_event (Mmio8 a (u8 v))).
Definition mmio_write32 (a v : Z) : K unit := modify (add_event (Mmio32 a (u32 v))).

(* ------------------------------------------------------------------ *)
(** * Program logic of [K] *)

(** [runs k s Q]: [k] started in [s] returns, with a value and a state that
    satisfy [Q]. *)
Definition runs {A} (k : K A) (s : kstate) (Q : A → kstate → Prop) : Prop :=
  match k s with Ret a s' => Q a s' | _ => False end.

(** [ends k s QR QH]: [k] returns in [QR] or parks the hart in [QH]. *)
Definition ends {A} (k : K A) (s : kstate)
    (QR : A → kstate → Prop) (QH : kstate → Prop) : Prop :=
  match k s with Ret a s' => QR a s' | Halted s' => QH s' | _ => False end.

Lemma bind_ret {A B} (k : K A) (f : A → K B) s a s' :
  k s = Ret a s' → (k ≫= f) s = f a s'.
Proof. intros E. unfold mbind, K_bind. by rewrite E. Qed.

Lemma bind_gets {A B} (g : kstate → A) (f : A → K B) s : (gets g ≫= f) s = f (g s) s.
Proof. done. Qed.

Lemma bind_modify {B} g (f : unit → K B) s : (modify g ≫= f) s = f tt (g s).
Proof. done. Qed.

Lemma bind_ends {A B} (k : K A) (f : A → K B) s s' :
  k s = Halted s' → (k ≫= f) s = Halted s'.
Proof. intros E. unfold mbind, K_bind. by rewrite E. Qed.

Lemma bind_inv {A B} (k : K A) (f : A → K B) s b s' :
  (k ≫= f) s = Ret b s' → ∃ a s1, k s = Ret a s1 ∧ f a s1 = Ret b s'.
Proof. unfold mbind, K_bind. destruct (k s); naive_solver. Qed.

Lemma runs_ret {A} (a : A) s (Q : A → kstate → Prop) : Q a s → runs (mret a) s Q.
Proof. done. Qed.

Lemma runs_bind {A B} (k : K A) (f : A → K B) s (P : A → kstate → Prop) (Q : B → kstate → Prop) :
  runs k s P → (∀ a s', P a s' → runs (f a) s' Q) → runs (k ≫= f) s Q.
Proof. unfold runs, mbind, K_bind. destruct (k s); naive_solver. Qed.

Lemma runs_mono {A} (k : K A) s (P Q : A → kstate → Prop) :
  runs k s P → (∀ a s', P a s' → Q a s') → runs k s Q.
Proof. unfold runs. destruct (k s); naive_solver. Qed.

Lemma runs_gets {A} (f : kstate → A) s (Q : A → kstate → Prop) :
  Q (f s) s → runs (gets f) s Q.
Proof. done. Qed.

Lemma runs_modify f s (Q : unit → kstate → Prop) : Q tt (f s) → runs (modify f) s Q.
Proof. done. Qed.

Lemma runs_reading {A} (f : mem → res A) s (P : A → Prop) (Q : A → kstate → Prop) :
  yields (f (k_mem s)) P → (∀ a, P a → Q a s) → runs (reading f) s Q.
Proof. unfold runs, reading, lift. destruct (f (k_mem s)); simpl; naive_solver. Qed.

Lemma runs_writing {A} (f : mem → res (A * mem)) s (P : A * mem → Prop) (Q : A → kstate → Prop) :
  yields (f (k_mem s)) P →
  (∀ a m, P (a, m) → Q a (set_mem m s)) → runs (writing f) s Q.
Proof. unfold runs, writing. destruct (f (k_mem s)) as [[? ?]| |]; simpl; naive_solver. Qed.

Lemma ends_bind {A B} (k : K A) (f : A → K B) s
    (P : A → kstate → Prop) (Q : B → kstate → Prop) (H : kstate → Prop) :
  ends k s P H → (∀ a s', P a s' → ends (f a) s' Q H) → ends (k ≫= f) s Q H.
Proof. unfold ends, mbind, K_bind. destruct (k s); naive_solver. Qed.

Lemma runs_ends {A} (k : K A) s (Q : A → kstate → Prop) H : runs k s Q → ends k s Q H.
Proof. unfold runs, ends. destruct (k s); naive_solver. Qed.

(* ------------------------------------------------------------------ *)
(** * Memory lemmas *)

(** Every cell of memory holds a byte. *)
Definition mem_bytes (m : mem) : Prop := map_Forall (fun _ b => is_u8 b) m.

(** The [n] cells from [a] on are backed by memory. *)
Definition mapped (m : mem) (a n : Z) : Prop := ∀ x, a <= x < a + n → is_Some (m !! x).

(** Two memories agree outside the [n] cells from [a] on. *)
Definition same_outside (a n : Z) (m m' : mem) : Prop :=
  ∀ x, ¬ (a <= x < a + n) → m' !! x = m !! x.

Lemma byte_of_div v i : 0 <= i → byte_of v i = (v / 2 ^ (8 * i)) mod 256.
Proof.
  intros. unfold byte_of. rewrite Z.shiftr_div_pow2 by lia.
  change 255 with (Z.ones 8). by rewrite Z.land_ones by lia.
Qed.

Lemma byte_of_range v i : is_u8 (byte_of v i).
Proof.
  unfold byte_of. change 255 with (Z.ones 8). rewrite Z.land_ones by lia.
  apply Z.mod_pos_bound; lia.
Qed.

Lemma u8_byte_of v i : u8 (byte_of v i) = byte_of v i.
Proof. apply u8_small, byte_of_range. Qed.

Lemma combine_bytes v :
  is_u32 v →
  byte_of v 0 + Z.shiftl (byte_of v 1) 8 + Z.shiftl (byte_of v 2) 16
    + Z.shiftl (byte_of v 3) 24 = v.
Proof.
  intros Hv. rewrite !byte_of_div, !Z.shiftl_mul_pow2 by lia. unfold is_u32 in Hv.
  change (2 ^ (8 * 0)) with 1; change (2 ^ (8 * 1)) with 256.
  change (2 ^ (8 * 2)) with 65536; change (2 ^ (8 * 3)) with 16777216.
  Z.div_mod_to_equations; lia.
Qed.

Lemma same_outside_refl a n m : same_outside a n m m.
Proof. by intros x _. Qed.

Lemma same_outside_trans a n m1 m2 m3 :
  same_outside a n m1 m2 → same_outside a n m2 m3 → same_outside a n m1 m3.
Proof. intros H1 H2 x Hx. by rewrite H2, H1. Qed.

Lemma same_outside_weaken a n a' n' m m' :
  same_outside a n m m' → a' <= a → a + n <= a' + n' → same_outside a' n' m m'.
Proof. intros H ?? x Hx. apply H. lia. Qed.

Lemma store8_ok m a v : is_Some (m !! a) → store8 m a v = Ok (<[a := u8 v]> m).
Proof. intros [b Hb]. unfold store8. by rewrite Hb. Qed.

Lemma load8_ok m a b : m !! a = Some b → load8 m a = Ok b.
Proof. intros H. unfold load8. by rewrite H. Qed.

(** What a word store does to every cell. *)
Lemma store32_spec m a v :
  a mod 4 = 0 → mapped m a 4 →
  ∃ m', store32 m a v = Ok m' ∧ same_outside a 4 m m' ∧
    (∀ i, 0 <= i < 4 → m' !! (a + i) = Some (byte_of v i)).
Proof.
  intros Ha Hm. unfold store32. rewrite Ha. simpl (0 =? 0). cbv iota.
  rewrite (store8_ok m a) by (apply Hm; lia). simpl.
  rewrite store8_ok by (rewrite lookup_insert_ne by lia; apply Hm; lia). simpl.
  rewrite store8_ok by (rewrite !lookup_insert_ne by lia; apply Hm; lia). simpl.
  rewrite store8_ok by (rewrite !lookup_insert_ne by lia; apply Hm; lia).
  eexists; split; [done|]. rewrite !u8_byte_of. split.
  - intros x Hx. by rewrite !lookup_insert_ne by lia.
  - intros i Hi. rewrite !lookup_insert.
    assert (i = 0 ∨ i = 1 ∨ i = 2 ∨ i = 3) as [->|[->|[->| ->]]] by lia;
      repeat case_decide; try lia; done.
Qed.

Lemma load32_of_bytes m a v :
  a mod 4 = 0 → is_u32 v →
  (∀ i, 0 <= i < 4 → m !! (a + i) = Some (byte_of v i)) → load32 m a = Ok v.
Proof.
  intros Ha Hv Hb. unfold load32. rewrite Ha. simpl (0 =? 0). cbv iota.
  rewrite (load8_ok m a (byte_of v 0)) by (rewrite <- (Hb 0) by lia; f_equal; lia).
  rewrite (load8_ok _ _ _ (Hb 1 ltac:(lia))), (load8_ok _ _ _ (Hb 2 ltac:(lia))),
    (load8_ok _ _ _ (Hb 3 ltac:(lia))).
  simpl. by rewrite combine_bytes.
Qed.

(** A load only depends on the four cells it reads. *)
Lemma load32_ext m m' a :
  (∀ x, a <= x < a + 4 → m' !! x = m !! x) → load32 m' a = load32 m a.
Proof.
  intros H. unfold load32, load8.
  by rewrite !H by lia.
Qed.

Lemma load32_same_outside m m' a b n :
  same_outside b n m m' → a + 4 <= b ∨ b + n <= a → load32 m' a = load32 m a.
Proof. intros H Hd. apply load32_ext. intros x Hx. apply H. lia. Qed.

Lemma load32_mapped m a v : load32 m a = Ok v → a mod 4 = 0 ∧ mapped m a 4.
Proof.
  unfold load32. destruct (Z.eqb_spec (a mod 4) 0); [|done]. intros H. split; [done|].
  unfold load8 in H. intros x Hx.
  destruct (m !! a) eqn:E0; [|done]. simpl in H.
  destruct (m !! (a + 1)) eqn:E1; [|done]. simpl in H.
  destruct (m !! (a + 2)) eqn:E2; [|done]. simpl in H.
  destruct (m !! (a + 3)) eqn:E3; [|done].
  assert (x = a ∨ x = a + 1 ∨ x = a + 2 ∨ x = a + 3) as [->|[->|[->| ->]]] by lia;
    rewrite ?E0, ?E1, ?E2, ?E3; by eexists.
Qed.

Lemma same_outside_mapped a n m m' b k :
  same_outside a n m m' → mapped m' a n → mapped m b k → mapped m' b k.
Proof.
  intros Hs Hm Hb x Hx. destruct (decide (a <= x < a + n)) as [Hin|Hout].
  - by apply Hm.
  - rewrite Hs by done. by apply Hb.
Qed.

Lemma store32_full m a v :
  a mod 4 = 0 → mapped m a 4 → is_u32 v →
  ∃ m', store32 m a v = Ok m' ∧ same_outside a 4 m m' ∧ load32 m' a = Ok v ∧
    (∀ b k, mapped m b k → mapped m' b k).
Proof.
  intros Ha Hm Hv. destruct (store32_spec m a v Ha Hm) as (m' & He & Hs & Hb).
  exists m'. split_and!; [done..|by apply load32_of_bytes|].
  intros b k Hbk. apply (same_outside_mapped a 4 m); [done| |done].
  intros x Hx. replace x with (a + (x - a)) by lia. rewrite Hb by lia. by eexists.
Qed.

(** The cells of a loaded word are its bytes. *)
Lemma byte_of_combine b0 b1 b2 b3 :
  is_u8 b0 → is_u8 b1 → is_u8 b2 → is_u8 b3 →
  let w := b0 + Z.shiftl b1 8 + Z.shiftl b2 16 + Z.shiftl b3 24 in
  is_u32 w ∧ byte_of w 0 = b0 ∧ byte_of w 1 = b1 ∧ byte_of w 2 = b2 ∧ byte_of w 3 = b3.
Proof.
  unfold is_u8, is_u32. cbv zeta. intros. rewrite !Z.shiftl_mul_pow2 by lia.
  split; [lia|]. rewrite !byte_of_div by lia.
  change (2 ^ (8 * 0)) with 1; change (2 ^ (8 * 1)) with 256.
  change (2 ^ (8 * 2)) with 65536; change (2 ^ (8 * 3)) with 16777216.
  change (2 ^ 8) with 256 in *; change (2 ^ 16) with 65536; change (2 ^ 24) with 16777216.
  split_and!; Z.div_mod_to_equations; lia.
Qed.

Lemma load32_bytes m a w :
  mem_bytes m → load32 m a = Ok w →
  is_u32 w ∧ ∀ i, 0 <= i < 4 → m !! (a + i) = Some (byte_of w i).
Proof.
  intros Hm Hl. unfold load32 in Hl. destruct (a mod 4 =? 0); [|done].
  unfold load8 in Hl.
  destruct (m !! a) as [b0|] eqn:E0; [|done]. simpl in Hl.
  destruct (m !! (a + 1)) as [b1|] eqn:E1; [|done]. simpl in Hl.
  destruct (m !! (a + 2)) as [b2|] eqn:E2; [|done]. simpl in Hl.
  destruct (m !! (a + 3)) as [b3|] eqn:E3; [|done]. injection Hl as <-.
  destruct (byte_of_combine b0 b1 b2 b3) as (Hw & H0 & H1 & H2 & H3);
    try (by eapply Hm); split; [done|].
  intros i Hi. assert (i = 0 ∨ i = 1 ∨ i = 2 ∨ i = 3) as [->|[->|[->| ->]]] by lia.
  - by rewrite Z.add_0_r, H0.
  - by rewrite H1.
  - by rewrite H2.
  - by rewrite H3.
Qed.

Lemma load32_total m a :
  mem_bytes m → a mod 4 = 0 → mapped m a 4 → ∃ w, load32 m a = Ok w ∧ is_u32 w.
Proof.
  intros Hb Ha Hm.
  assert (∃ w, load32 m a = Ok w) as [w Hw].
  { unfold load32, load8. rewrite Ha. simpl (0 =? 0). cbv iota.
    destruct (Hm a ltac:(lia)) as [? ->], (Hm (a + 1) ltac:(lia)) as [? ->],
      (Hm (a + 2) ltac:(lia)) as [? ->], (Hm (a + 3) ltac:(lia)) as [? ->].
    by eexists. }
  exists w. split; [done|]. by destruct (load32_bytes m a w).
Qed.

Lemma store8_bytes m a v m' : mem_bytes m → store8 m a v = Ok m' → mem_bytes m'.
Proof.
  unfold store8. destruct (m !! a); [|done]. intros Hm [= <-].
  apply map_Forall_insert_2; [apply u8_range|done].
Qed.

Lemma store32_bytes m a v m' : mem_bytes m → store32 m a v = Ok m' → mem_bytes m'.
Proof.
  unfold store32. destruct (a mod 4 =? 0); [|done]. intros Hm H.
  apply bind_ok in H as (m1 & H1 & H). apply bind_ok in H as (m2 & H2 & H).
  apply bind_ok in H as (m3 & H3 & H). eauto using store8_bytes.
Qed.

Lemma map_zeros_lookup a n m x :
  map_zeros a n m !! x = if decide (a <= x < a + n) then Some 0 else m !! x.
Proof.
  unfold map_zeros.
  assert (∀ k l, foldr (fun i m => <[a + i := 0]> m) m (seqZ k l) !! x =
    if decide (a + k <= x < a + k + l) then Some 0 else m !! x) as H.
  { intros k l. destruct (Z_lt_le_dec l 0) as [Hl|Hl].
    { rewrite seqZ_nil by lia. simpl. by rewrite decide_False by lia. }
    revert k. pattern l. apply natlike_ind; [| |done].
    - intros k. rewrite seqZ_nil by lia. simpl. by rewrite decide_False by lia.
    - intros l' Hl' IH k. rewrite seqZ_cons by lia. cbn [foldr].
      replace (Z.pred (Z.succ l')) with l' by lia.
      rewrite lookup_insert, IH. repeat case_decide; try lia; done. }
  rewrite H. by replace (a + 0) with a by lia.
Qed.

Lemma map_zeros_mapped a n m : mapped (map_zeros a n m) a n.
Proof. intros x Hx. rewrite map_zeros_lookup, decide_True by lia. by eexists. Qed.

Lemma map_zeros_bytes a n m : mem_bytes m → mem_bytes (map_zeros a n m).
Proof.
  intros Hm x b. rewrite map_zeros_lookup. case_decide; [|apply Hm].
  intros [= <-]. unfold is_u8. lia.
Qed.

Lemma map_bytes_lookup a bs m x :
  map_bytes a bs m !! x =
  if decide (a <= x < a + Z.of_nat (length bs)) then bs !! Z.to_nat (x - a) else m !! x.
Proof.
  revert a. induction bs as [|b bs IH]; intros a; cbn [map_bytes].
  - by rewrite decide_False by (simpl; lia).
  - rewrite length_cons, lookup_insert, IH. repeat case_decide; try lia; try done.
    + replace (x - a) with 0 by lia. done.
    + replace (Z.to_nat (x - a)) with (S (Z.to_nat (x - (a + 1)))) by lia. done.
Qed.

Lemma map_bytes_mapped a bs m : mapped (map_bytes a bs m) a (Z.of_nat (length bs)).
Proof.
  intros x Hx. rewrite map_bytes_lookup, decide_True by lia.
  apply lookup_lt_is_Some. lia.
Qed.

Lemma map_bytes_bytes a bs m : Forall is_u8 bs → mem_bytes m → mem_bytes (map_bytes a bs m).
Proof.
  intros Hbs Hm x b. rewrite map_bytes_lookup. case_decide; [|apply Hm].
  intros Hb. by apply (Forall_lookup_1 _ _ _ _ Hbs Hb).
Qed.

Lemma mem_bytes_empty : mem_bytes ∅.
Proof. by intros x b. Qed.

#[export] Hint Resolve same_outside_refl byte_of_range map_zeros_mapped
  map_zeros_bytes map_bytes_bytes map_bytes_mapped mem_bytes_empty store8_bytes store32_bytes : kernel.

(* ------------------------------------------------------------------ *)
(** * A concrete platform and state, for the examples *)

(** A debug build of a kernel of [0x6000] bytes at [0x80000000] on the QEMU virt
    board; string literals lie at 0 (nothing in the examples reads them). *)
Definition qemu_virt : Platform := {|
  ndebug := false;
  kernel_physical_start := 0x80000000;
  kernel_physical_end := 0x80006000;
  m_mode_handle_addr := 0x80000400;
  s_mode_handle_addr := 0x80000500;
  test_addr := 0x80000600;
  hw_clint := 0x2000000;
  rodata := fun _ => 0
|}.

(** The statics as they are at boot, the registers cleared, memory [m]. *)
Definition boot_state (m : mem) : kstate :=
  KState m (fun _ => 0) RISCV_PRIV_LVL_MACHINE 0x80000000 [] 0 [] 0
    (replicate 16 (RamDescriptor 0 0)) 0 (Bitmap 0 0 0 0) 0 (RiscvTimer 0 0)
    None None 0x10000000.
