(* ===== verification/Registers.v ===== *)
(** The bit-field unions of the headers: mstatus and the trap vector
    (src/riscv/interrupts/interrupts.h), page-table entries and satp
    (src/riscv/pmp/page_tables.h), the UART registers (src/drivers/uart.h).  A
    layout lists the names and widths of the fields from the least significant
    bit; padding has the empty name. *)
From S2P Require Import Prelude Machine.
From stdpp Require Import base list.
From Stdlib Require Import ZArith Lia.
From Stdlib Require String.
#[local] Open Scope Z_scope.

Definition layout : Type := list (String.string * Z).

(** Where a field starts and how wide it is. *)
Fixpoint field_from (lo : Z) (l : layout) (name : String.string) : option (Z * Z) :=
  match l with
  | [] => None
  | (n, w) :: l' => if String.eqb n name then Some (lo, w) else field_from (lo + w) l' name
  end.
Definition field (l : layout) (name : String.string) : option (Z * Z) := field_from 0 l name.

Definition get_field (l : layout) (name : String.string) (raw : Z) : Z :=
  match field l name with Some (lo, w) => bits raw lo w | None => 0 end.

Definition put_field (l : layout) (name : String.string) (v raw : Z) : Z :=
  match field l name with Some (lo, w) => set_bits raw lo w v | None => raw end.

Arguments field l name%_string_scope.
Arguments get_field l name%_string_scope raw.
Arguments put_field l name%_string_scope v raw.

Definition width (l : layout) : Z := foldr (fun f n => f.2 + n) 0 l.

#[local] Open Scope string_scope.

Definition mstatus_32 : layout :=
  [("", 1); ("supervisor_interrupt_enable", 1); ("", 1); ("machine_interrupt_enable", 1);
   ("user_prev_interrupt_enable", 1); ("supervisor_prev_interrupt_enable", 1); ("", 1);
   ("machine_prev_interrupt_enable", 1); ("supervisor_prev_privilege", 1);
   ("vector_state", 2); ("machine_prev_privilege", 2); ("floating_point_state", 2);
   ("extension_state", 2); ("modify_privilege", 1); ("supervisor_user_memory_access", 1);
   ("make_exec_readable", 1); ("trap_virtual_memory", 1); ("timeout_wfi_instr", 1);
   ("trap_sret", 1)].

(** [union riscv_trap_vector]: the two mode bits under the base address. *)
Definition riscv_trap_vector : layout := [("mode", 2); ("", 30)].
Definition MTVEC_MODE_DIRECT : Z := 0.
Definition MTVEC_MODE_VECTORED : Z := 1.

Definition rv32_page_table_entry : layout :=
  [("present", 1); ("readable", 1); ("writable", 1); ("executable", 1);
   ("user_accessible", 1); ("global", 1); ("accessed", 1); ("dirty", 1);
   ("reserved_for_kernel", 2); ("physical_page_number_1", 10);
   ("physical_page_number_2", 12)].

Definition satp32 : layout := [("table_root_ppn", 22); ("asid", 9); ("mode", 1)].
Definition RISCV_SATP_BARE : Z := 0.
Definition RISCV_SATP_SV32 : Z := 1.
Definition RISCV_SATP_SV39 : Z := 8.
Definition RISCV_SATP_SV48 : Z := 9.
Definition RISCV_SATP_SV57 : Z := 10.

Definition uart_line_control_reg : layout :=
  [("char_bit", 2); ("stop_bits", 1); ("parity_enable", 1); ("even_parity_select", 1);
   ("stick_parity", 1); ("break_control", 1); ("divisor_latch_access", 1)].

Definition uart_line_status_reg : layout :=
  [("data_ready", 1); ("overrun_error", 1); ("parity_error", 1); ("framing_error", 1);
   ("transmitter_ready", 1); ("transmitter_empty", 1)].

Definition uart_interrupt_enable_reg : layout :=
  [("intrp_received_data_available", 1); ("intrp_transmitter_holding_is_empty", 1);
   ("intrp_reciver_line_status", 1); ("intr_modem_status", 1)].

(** [enum uart_registers]. *)
Inductive uart_registers : Type :=
| UART_RECEIVER_BUFF | UART_TRANSMITTER_HOLDING | UART_INTERRUPT_ENABLE
| UART_INTERRUPT_ID | UART_FIFO_CONTROL | UART_LINE_CONTROL | UART_MODEM_CONTROL
| UART_LINE_STATUS | UART_MODEM_STATUS | UART_SCRATCH | UART_DIVISOR_LATCH.

Definition uart_register_offset (r : uart_registers) : Z :=
  match r with
  | UART_RECEIVER_BUFF => 0 | UART_TRANSMITTER_HOLDING => 1 | UART_INTERRUPT_ENABLE => 2
  | UART_INTERRUPT_ID => 3 | UART_FIFO_CONTROL => 4 | UART_LINE_CONTROL => 5
  | UART_MODEM_CONTROL => 6 | UART_LINE_STATUS => 7 | UART_MODEM_STATUS => 8
  | UART_SCRATCH => 9 | UART_DIVISOR_LATCH => 10
  end.

#[local] Close Scope string_scope.

(* ------------------------------------------------------------------ *)
(** * Lemmas *)

Definition wf_layout (l : layout) : Prop := Forall (fun f => 0 <= f.2) l.

Lemma width_nonneg l : wf_layout l → 0 <= width l.
Proof. induction 1 as [|[? ?] l Hw Hwf IH]; simpl in *; lia. Qed.

Lemma field_from_bounds lo l name p :
  0 <= lo → wf_layout l → field_from lo l name = Some p →
  lo <= p.1 ∧ 0 <= p.2 ∧ p.1 + p.2 <= lo + width l.
Proof.
  intros Hlo Hwf. revert lo Hlo. induction Hwf as [|[n w] l Hw Hwf IH]; intros lo Hlo; [done|].
  simpl in *. pose proof (width_nonneg l Hwf) as Hn. destruct (String.eqb n name).
  - intros [= <-]. simpl. lia.
  - intros H%IH; [|lia]. lia.
Qed.

(** Two fields with different names do not overlap. *)
Lemma field_from_disjoint lo l n1 n2 p1 p2 :
  0 <= lo → wf_layout l → n1 ≠ n2 →
  field_from lo l n1 = Some p1 → field_from lo l n2 = Some p2 →
  p1.1 + p1.2 <= p2.1 ∨ p2.1 + p2.2 <= p1.1.
Proof.
  intros Hlo Hwf Hne. revert lo Hlo.
  induction Hwf as [|[n w] l Hw Hwf IH]; intros lo Hlo; [done|]. simpl in *.
  destruct (String.eqb_spec n n1) as [E1|], (String.eqb_spec n n2) as [E2|]; [congruence|..].
  - intros [= <-] H%field_from_bounds; [simpl; lia|lia|done].
  - intros H%field_from_bounds; [|lia|done]. intros [= <-]. simpl. lia.
  - apply IH. lia.
Qed.

Lemma field_bounds l name lo w :
  wf_layout l → field l name = Some (lo, w) → 0 <= lo ∧ 0 <= w ∧ lo + w <= width l.
Proof.
  intros Hwf H. apply (field_from_bounds 0) in H; [|lia|done]. simpl in H. lia.
Qed.

Lemma put_field_u32 l name v raw :
  wf_layout l → width l <= 32 → is_u32 raw → is_u32 (put_field l name v raw).
Proof.
  intros Hwf Hw Hr. unfold put_field. destruct (field l name) as [[lo w]|] eqn:E; [|done].
  apply field_bounds in E; [|done]. apply set_bits_u32; [done|lia..].
Qed.

(** Bits outside a field keep their value. *)
Lemma put_field_testbit l name v raw lo w i :
  wf_layout l → field l name = Some (lo, w) → 0 <= i →
  Z.testbit (put_field l name v raw) i =
  if (lo <=? i) && (i <? lo + w) then Z.testbit v (i - lo) else Z.testbit raw i.
Proof.
  intros Hwf E Hi. unfold put_field. rewrite E. apply field_bounds in E; [|done].
  apply testbit_set_bits; lia.
Qed.

(** Reading a field after writing one. *)
Lemma get_put_field l name name' v raw lo w :
  wf_layout l → field l name = Some (lo, w) → 0 <= v < 2 ^ w →
  get_field l name' (put_field l name v raw) =
  if String.eqb name' name then v else get_field l name' raw.
Proof.
  intros Hwf E Hv. unfold get_field, put_field.
  destruct (String.eqb_spec name' name) as [->|Hne]; rewrite E.
  - apply field_bounds in E; [|done]. apply bits_set_bits; lia.
  - destruct (field l name') as [[lo' w']|] eqn:E'; [|done].
    pose proof (field_from_disjoint 0 l name' name _ _ ltac:(lia) Hwf Hne E' E) as Hd.
    apply field_bounds in E; [|done]. apply field_bounds in E'; [|done].
    simpl in Hd. apply bits_set_bits_other; lia.
Qed.

Ltac wf_layout := repeat (apply Forall_cons; split; [simpl; lia|]); apply Forall_nil; done.

Lemma mstatus_32_wf : wf_layout mstatus_32.
Proof. wf_layout. Qed.

Lemma mstatus_32_u32 name v raw : is_u32 raw → is_u32 (put_field mstatus_32 name v raw).
Proof. apply put_field_u32; [apply mstatus_32_wf|by vm_compute]. Qed.
#[export] Hint Resolve mstatus_32_wf put_field_u32 mstatus_32_u32 : kernel.

(* ------------------------------------------------------------------ *)
(** * Properties *)

(** The bit-field unions behave as structs: a field reads back the value last
    written to it, writing it changes no other named field, and no write leaves
    the word of the union. *)
Theorem bit_fields_are_fields l name name' v raw lo w :
  wf_layout l → width l <= 32 → is_u32 raw →
  field l name = Some (lo, w) → 0 <= v < 2 ^ w → name' ≠ name →
  get_field l name (put_field l name v raw) = v ∧
  get_field l name' (put_field l name v raw) = get_field l name' raw ∧
  is_u32 (put_field l name v raw).
Proof.
  intros Hwf Hw Hr E Hv Hne.
  rewrite !(get_put_field l name _ v raw lo w) by done. rewrite String.eqb_refl.
  apply String.eqb_neq in Hne. rewrite Hne. split_and!; [done..|by apply put_field_u32].
Qed.

#[local] Open Scope string_scope.
Lemma bit_fields_are_fields_witness :
  field mstatus_32 "machine_prev_privilege" = Some (11, 2) ∧
  get_field mstatus_32 "machine_prev_privilege"
    (put_field mstatus_32 "machine_prev_privilege" 1 6152) = 1.
Proof.
  split; [reflexivity|].
  apply (bit_fields_are_fields mstatus_32 "machine_prev_privilege" "trap_sret" 1 6152 11 2);
    [wf_layout|vm_compute; congruence|unfold is_u32; lia|reflexivity|lia|congruence].
Defined.
