(* ===== verification/Printf.v ===== *)
(** src/klibc/printf.c as the kernel compiles it: printf.h disables floats,
    exponents and [long long].  The formatter is written against an output
    function, as in the source; format strings and string arguments are byte
    lists that end with their NUL, so that reading past the NUL is a [Fault]. *)
From S2P Require Import Prelude Machine.
From stdpp Require Import base list gmap.
From Stdlib Require Import ZArith Lia Ascii.
From Stdlib Require String.
#[local] Open Scope Z_scope.

Definition PRINTF_NTOA_BUFFER_SIZE : Z := 32.

Definition FLAGS_ZEROPAD : Z := Z.shiftl 1 0.
Definition FLAGS_LEFT : Z := Z.shiftl 1 1.
Definition FLAGS_PLUS : Z := Z.shiftl 1 2.
Definition FLAGS_SPACE : Z := Z.shiftl 1 3.
Definition FLAGS_HASH : Z := Z.shiftl 1 4.
Definition FLAGS_UPPERCASE : Z := Z.shiftl 1 5.
Definition FLAGS_CHAR : Z := Z.shiftl 1 6.
Definition FLAGS_SHORT : Z := Z.shiftl 1 7.
Definition FLAGS_LONG : Z := Z.shiftl 1 8.
Definition FLAGS_LONG_LONG : Z := Z.shiftl 1 9.
Definition FLAGS_PRECISION : Z := Z.shiftl 1 10.

(** [flags & f] as a condition, [flags |= f] and [flags &= ~f]. *)
Definition has (flags f : Z) : bool := negb (Z.land flags f =? 0).
Definition set_flag (flags f : Z) : Z := Z.lor flags f.
Definition clear_flag (flags f : Z) : Z := Z.ldiff flags f.

(** One variadic argument: a 32-bit word, or a pointer to a string. *)
Inductive varg : Type :=
| VWord (w : Z)
| VStr (s : list Z).

Definition va_word (va : list varg) : res (Z * list varg) :=
  match va with VWord w :: va' => Ok (u32 w, va') | _ => Fault end.
Definition va_str (va : list varg) : res (list Z * list varg) :=
  match va with VStr s :: va' => Ok (s, va') | _ => Fault end.

(** [*p]. *)
Definition peek (p : list Z) : res Z :=
  match p with c :: _ => Ok c | [] => Fault end.

(** [C "x"] is the code of a character constant, as a numeral. *)
Notation "'C' a" :=
  (ltac:(let v := eval vm_compute in (char_code a%char) in exact v))
  (at level 10, a at level 9, only parsing).

Fixpoint strnlen_s (str : list Z) (maxsize : Z) : res Z :=
  match str with
  | [] => Fault
  | c :: s =>
      if (c =? 0) || (maxsize =? 0) then Ok 0
      else n ← strnlen_s s (maxsize - 1); Ok (u32 (n + 1))
  end.

Definition is_digit (c : Z) : bool := (C "0" <=? c) && (c <=? C "9").

Fixpoint atoi_from (str : list Z) (i : Z) : res (Z * list Z) :=
  match str with
  | [] => Fault
  | c :: s => if is_digit c then atoi_from s (u32 (i * 10 + (c - C "0"))) else Ok (i, str)
  end.
Definition atoi (str : list Z) : res (Z * list Z) := atoi_from str 0.

(* ------------------------------------------------------------------ *)
(** * The fields of a conversion specification *)

Definition flag_of_char (c : Z) : option Z :=
  if c =? C "0" then Some FLAGS_ZEROPAD
  else if c =? C "-" then Some FLAGS_LEFT
  else if c =? C "+" then Some FLAGS_PLUS
  else if c =? C " " then Some FLAGS_SPACE
  else if c =? C "#" then Some FLAGS_HASH
  else None.

Fixpoint parse_flags (fmt : list Z) (flags : Z) : res (Z * list Z) :=
  match fmt with
  | [] => Fault
  | c :: f =>
      match flag_of_char c with
      | Some b => parse_flags f (set_flag flags b)
      | None => Ok (flags, fmt)
      end
  end.

Definition parse_width (flags : Z) (fmt : list Z) (va : list varg) :
    res (Z * Z * list Z * list varg) :=
  c ← peek fmt;
  if is_digit c then '(w, f) ← atoi fmt; Ok (flags, w, f, va)
  else if c =? C "*" then
    '(w, va) ← va_word va;
    if s32 w <? 0 then Ok (set_flag flags FLAGS_LEFT, u32 (- s32 w), tl fmt, va)
    else Ok (flags, u32 (s32 w), tl fmt, va)
  else Ok (flags, 0, fmt, va).

Definition parse_precision (flags : Z) (fmt : list Z) (va : list varg) :
    res (Z * Z * list Z * list varg) :=
  c ← peek fmt;
  if c =? C "." then
    let flags := set_flag flags FLAGS_PRECISION in
    let fmt := tl fmt in
    c ← peek fmt;
    if is_digit c then '(p, f) ← atoi fmt; Ok (flags, p, f, va)
    else if c =? C "*" then
      '(w, va) ← va_word va;
      Ok (flags, (if 0 <? s32 w then u32 (s32 w) else 0), tl fmt, va)
    else Ok (flags, 0, fmt, va)
  else Ok (flags, 0, fmt, va).

(** On rv32, [size_t] and [ptrdiff_t] have the size of [long], [intmax_t] has not. *)
Definition parse_length (flags : Z) (fmt : list Z) : res (Z * list Z) :=
  c ← peek fmt;
  if c =? C "l" then
    c' ← peek (tl fmt);
    if c' =? C "l" then
      Ok (set_flag (set_flag flags FLAGS_LONG) FLAGS_LONG_LONG, tl (tl fmt))
    else Ok (set_flag flags FLAGS_LONG, tl fmt)
  else if c =? C "h" then
    c' ← peek (tl fmt);
    if c' =? C "h" then
      Ok (set_flag (set_flag flags FLAGS_SHORT) FLAGS_CHAR, tl (tl fmt))
    else Ok (set_flag flags FLAGS_SHORT, tl fmt)
  else if c =? C "t" then Ok (set_flag flags FLAGS_LONG, tl fmt)
  else if c =? C "j" then Ok (set_flag flags FLAGS_LONG_LONG, tl fmt)
  else if c =? C "z" then Ok (set_flag flags FLAGS_LONG, tl fmt)
  else Ok (flags, fmt).

(* ------------------------------------------------------------------ *)
(** * Number conversion *)

Definition digit_char (flags digit : Z) : Z :=
  if digit <? 10 then C "0" + digit
  else (if has flags FLAGS_UPPERCASE then C "A" else C "a") + digit - 10.

(** The [do ... while] of [_ntoa_long]: [buf] holds the characters written so
    far, [fuel] the room left in the 32-byte buffer. *)
Fixpoint ntoa_digits (fuel : nat) (flags value base : Z) (buf : list Z) : list Z :=
  match fuel with
  | O => buf
  | S fuel' =>
      let buf := buf ++ [digit_char flags (value mod base)] in
      let value := value / base in
      if value =? 0 then buf else ntoa_digits fuel' flags value base buf
  end.

Definition len (buf : list Z) : Z := Z.of_nat (length buf).
Definition room (buf : list Z) : bool := len buf <? PRINTF_NTOA_BUFFER_SIZE.

(** [while ((len < lim) && (len < PRINTF_NTOA_BUFFER_SIZE)) buf[len++] = '0'];
    one step per free byte of the buffer is enough. *)
Fixpoint pad_zeros (fuel : nat) (lim : Z) (buf : list Z) : list Z :=
  match fuel with
  | O => buf
  | S fuel' =>
      if (len buf <? lim) && room buf then pad_zeros fuel' lim (buf ++ [C "0"]) else buf
  end.

Definition push (buf : list Z) (c : Z) : list Z := if room buf then buf ++ [c] else buf.
Definition drop_last (buf : list Z) : list Z := take (length buf - 1) buf.

(** The "handle hash" block of [_ntoa_format]. *)
Definition ntoa_hash (buf : list Z) (base prec width flags : Z) : list Z :=
  if has flags FLAGS_HASH then
    let buf :=
      if negb (has flags FLAGS_PRECISION) && negb (len buf =? 0)
         && ((len buf =? prec) || (len buf =? width)) then
        let buf := drop_last buf in
        if negb (len buf =? 0) && (base =? 16) then drop_last buf else buf
      else buf in
    let buf :=
      if (base =? 16) && negb (has flags FLAGS_UPPERCASE) && room buf then buf ++ [C "x"]
      else if (base =? 16) && has flags FLAGS_UPPERCASE && room buf then buf ++ [C "X"]
      else if (base =? 2) && room buf then buf ++ [C "b"]
      else buf in
    push buf (C "0")
  else buf.

(** The sign block of [_ntoa_format]. *)
Definition ntoa_sign (buf : list Z) (negative : bool) (flags : Z) : list Z :=
  if room buf then
    if negative then buf ++ [C "-"]
    else if has flags FLAGS_PLUS then buf ++ [C "+"]
    else if has flags FLAGS_SPACE then buf ++ [C " "]
    else buf
  else buf.

(** The "pad leading zeros" block: the new [width] and the padded buffer. *)
Definition ntoa_pad (buf : list Z) (negative : bool) (prec width flags : Z) : Z * list Z :=
  if has flags FLAGS_LEFT then (width, buf)
  else
    let width :=
      if negb (width =? 0) && has flags FLAGS_ZEROPAD
         && (negative || has flags (Z.lor FLAGS_PLUS FLAGS_SPACE))
      then width - 1 else width in
    let buf := pad_zeros 32 prec buf in
    (width, if has flags FLAGS_ZEROPAD then pad_zeros 32 width buf else buf).

Section output.
Context {X : Type}.

(** [out_fct_type] with its [buffer] argument as the state it writes to. *)
Definition out_fct_type := Z → Z → Z → X → res X.
Variable out : out_fct_type.
Variable maxlen : Z.

(** [n] rounds of [out(' ', buffer, idx++, maxlen)]. *)
Fixpoint out_spaces (n : nat) (idx : Z) (x : X) : res (Z * X) :=
  match n with
  | O => Ok (idx, x)
  | S n' => x ← out (C " ") idx maxlen x; out_spaces n' (u32 (idx + 1)) x
  end.

(** [while (len) out(buf[--len], buffer, idx++, maxlen)]. *)
Fixpoint out_reversed (rbuf : list Z) (idx : Z) (x : X) : res (Z * X) :=
  match rbuf with
  | [] => Ok (idx, x)
  | c :: r => x ← out c idx maxlen x; out_reversed r (u32 (idx + 1)) x
  end.

Definition out_rev (buf : list Z) (width flags idx : Z) (x : X) : res (Z * X) :=
  let start_idx := idx in
  '(idx, x) ← (if negb (has flags FLAGS_LEFT) && negb (has flags FLAGS_ZEROPAD)
               then out_spaces (Z.to_nat (width - len buf)) idx x
               else Ok (idx, x));
  '(idx, x) ← out_reversed (rev buf) idx x;
  if has flags FLAGS_LEFT
  then out_spaces (Z.to_nat (width - u32 (idx - start_idx))) idx x
  else Ok (idx, x).

Definition ntoa_format (buf : list Z) (negative : bool) (base prec width flags idx : Z)
    (x : X) : res (Z * X) :=
  let '(width, buf) := ntoa_pad buf negative prec width flags in
  let buf := ntoa_hash buf base prec width flags in
  let buf := ntoa_sign buf negative flags in
  out_rev buf width flags idx x.

Definition ntoa_long (value : Z) (negative : bool) (base prec width flags idx : Z)
    (x : X) : res (Z * X) :=
  let flags := if value =? 0 then clear_flag flags FLAGS_HASH else flags in
  let buf :=
    if negb (has flags FLAGS_PRECISION) || negb (value =? 0)
    then ntoa_digits 32 flags value base [] else [] in
  ntoa_format buf negative base prec width flags idx x.

(** The integer conversions [d i u x X o b]. *)
Definition base_of (c : Z) : Z :=
  if (c =? C "x") || (c =? C "X") then 16
  else if c =? C "o" then 8
  else if c =? C "b" then 2
  else 10.

Definition is_signed (c : Z) : bool := (c =? C "i") || (c =? C "d").

Definition int_flags (c flags : Z) : Z :=
  let flags := if base_of c =? 10 then clear_flag flags FLAGS_HASH else flags in
  let flags := if c =? C "X" then set_flag flags FLAGS_UPPERCASE else flags in
  let flags :=
    if is_signed c then flags else clear_flag flags (Z.lor FLAGS_PLUS FLAGS_SPACE) in
  if has flags FLAGS_PRECISION then clear_flag flags FLAGS_ZEROPAD else flags.

(** [char] is unsigned on RISC-V. *)
Definition int_value (flags w : Z) : Z :=
  if has flags FLAGS_LONG then s32 w
  else if has flags FLAGS_CHAR then u8 w
  else if has flags FLAGS_SHORT then
    (if u16 w <? 2 ^ 15 then u16 w else u16 w - 2 ^ 16)
  else s32 w.

Definition uint_value (flags w : Z) : Z :=
  if has flags FLAGS_LONG then u32 w
  else if has flags FLAGS_CHAR then u8 w
  else if has flags FLAGS_SHORT then u16 w
  else u32 w.

(** With [long long] disabled, a [ll] or [j] conversion prints nothing and
    takes no argument. *)
Definition conv_int (c flags width precision : Z) (va : list varg) (idx : Z) (x : X) :
    res (Z * X * list varg) :=
  let flags := int_flags c flags in
  if has flags FLAGS_LONG_LONG then Ok (idx, x, va)
  else
    '(w, va) ← va_word va;
    '(idx, x) ←
      (if is_signed c then
         let value := int_value flags w in
         ntoa_long (u32 (if 0 <? value then value else 0 - value)) (value <? 0)
           (base_of c) precision width flags idx x
       else
         ntoa_long (uint_value flags w) false (base_of c) precision width flags idx x);
    Ok (idx, x, va).

Definition conv_char (flags width : Z) (va : list varg) (idx : Z) (x : X) :
    res (Z * X * list varg) :=
  let pad := Z.to_nat (width - 1) in
  '(idx, x) ← (if has flags FLAGS_LEFT then Ok (idx, x) else out_spaces pad idx x);
  '(w, va) ← va_word va;
  x ← out (u8 w) idx maxlen x;
  let idx := u32 (idx + 1) in
  '(idx, x) ← (if has flags FLAGS_LEFT then out_spaces pad idx x else Ok (idx, x));
  Ok (idx, x, va).

(** The "string output" loop: up to the NUL, or [precision] characters. *)
Fixpoint out_string (p : list Z) (flags precision idx : Z) (x : X) : res (Z * X) :=
  match p with
  | [] => Fault
  | c :: p' =>
      if negb (c =? 0) && (negb (has flags FLAGS_PRECISION) || negb (precision =? 0)) then
        x ← out c idx maxlen x; out_string p' flags (precision - 1) (u32 (idx + 1)) x
      else Ok (idx, x)
  end.

Definition conv_string (flags width precision : Z) (va : list varg) (idx : Z) (x : X) :
    res (Z * X * list varg) :=
  '(p, va) ← va_str va;
  l ← strnlen_s p (if precision =? 0 then UINT_MAX else precision);
  let l := if has flags FLAGS_PRECISION then (if l <? precision then l else precision) else l in
  let pad := Z.to_nat (width - l) in
  '(idx, x) ← (if has flags FLAGS_LEFT then Ok (idx, x) else out_spaces pad idx x);
  '(idx, x) ← out_string p flags precision idx x;
  '(idx, x) ← (if has flags FLAGS_LEFT then out_spaces pad idx x else Ok (idx, x));
  Ok (idx, x, va).

Definition conv_pointer (flags precision : Z) (va : list varg) (idx : Z) (x : X) :
    res (Z * X * list varg) :=
  let flags := set_flag flags (Z.lor FLAGS_ZEROPAD FLAGS_UPPERCASE) in
  '(w, va) ← va_word va;
  '(idx, x) ← ntoa_long w false 16 precision 8 flags idx x;
  Ok (idx, x, va).

Definition is_int_conv (c : Z) : bool :=
  (c =? C "d") || (c =? C "i") || (c =? C "u") || (c =? C "x") || (c =? C "X")
  || (c =? C "o") || (c =? C "b").

(** The "evaluate specifier" switch. *)
Definition specifier (flags width precision : Z) (fmt : list Z) (va : list varg) (idx : Z)
    (x : X) : res (Z * X * list varg * list Z) :=
  c ← peek fmt;
  if is_int_conv c then
    '(r, va) ← conv_int c flags width precision va idx x; Ok (r, va, tl fmt)
  else if c =? C "c" then
    '(r, va) ← conv_char flags width va idx x; Ok (r, va, tl fmt)
  else if c =? C "s" then
    '(r, va) ← conv_string flags width precision va idx x; Ok (r, va, tl fmt)
  else if c =? C "p" then
    '(r, va) ← conv_pointer flags precision va idx x; Ok (r, va, tl fmt)
  else if c =? C "%" then
    x ← out (C "%") idx maxlen x; Ok (u32 (idx + 1), x, va, tl fmt)
  else
    x ← out c idx maxlen x; Ok (u32 (idx + 1), x, va, tl fmt).

(** Everything between one ['%'] and the character after its specifier. *)
Definition directive (fmt : list Z) (va : list varg) (idx : Z) (x : X) :
    res (Z * X * list varg * list Z) :=
  '(flags, f) ← parse_flags fmt 0;
  '(flags, width, f, va) ← parse_width flags f va;
  '(flags, precision, f, va) ← parse_precision flags f va;
  '(flags, f) ← parse_length flags f;
  specifier flags width precision f va idx x.

Fixpoint vsnprintf_loop (fuel : nat) (fmt : list Z) (va : list varg) (idx : Z) (x : X) :
    res (Z * X) :=
  match fuel with
  | O => NoFuel
  | S fuel' =>
      c ← peek fmt;
      if c =? 0 then Ok (idx, x)
      else if negb (c =? C "%") then
        x ← out c idx maxlen x; vsnprintf_loop fuel' (tl fmt) va (u32 (idx + 1)) x
      else
        '(idx, x, va, f) ← directive (tl fmt) va idx x;
        vsnprintf_loop fuel' f va idx x
  end.

(** Each round consumes a character of the format, hence the fuel. *)
Definition vsnprintf (fmt : list Z) (va : list varg) (x : X) : res (Z * X) :=
  '(idx, x) ← vsnprintf_loop (S (length fmt)) fmt va 0 x;
  x ← out 0 (if idx <? maxlen then idx else u32 (maxlen - 1)) maxlen x;
  Ok (s32 idx, x).

End output.
Arguments out_fct_type X : clear implicits.

(** The output functions over memory; [buffer] is the address of the buffer. *)
Definition out_buffer (buffer : Z) : out_fct_type mem := fun c idx maxlen m =>
  if idx <? maxlen then store8 m (u32 (buffer + idx)) c else Ok m.

Definition out_null {X} : out_fct_type X := fun _ _ _ x => Ok x.

Definition vsnprintf_buffer (buffer count : Z) (fmt : list Z) (va : list varg) (m : mem) :
    res (Z * mem) :=
  if buffer =? 0 then vsnprintf out_null count fmt va m
  else vsnprintf (out_buffer buffer) count fmt va m.

Definition snprintf_ := vsnprintf_buffer.
Definition vsnprintf_ := vsnprintf_buffer.
Definition sprintf_ (buffer : Z) (fmt : list Z) (va : list varg) (m : mem) : res (Z * mem) :=
  vsnprintf_buffer buffer UINT_MAX fmt va m.

(** [_out_fct] calls back a function of one character; it skips NULs. *)
Definition out_fct {X} (f : Z → X → res X) : out_fct_type X := fun c _ _ x =>
  if c =? 0 then Ok x else f c x.

Definition fctprintf {X} (f : Z → X → res X) (fmt : list Z) (va : list varg) (x : X) :
    res (Z * X) :=
  vsnprintf (out_fct f) UINT_MAX fmt va x.

(* ------------------------------------------------------------------ *)
(** * Reference semantics *)

(** The characters a call produces, whatever the output function is: the
    formatter run with an output function that collects them. *)
Definition collect : out_fct_type (list Z) := fun c _ _ l => Ok (l ++ [c]).

Definition format_chars (fmt : list Z) (va : list varg) : res (list Z) :=
  '(_, cs) ← vsnprintf_loop collect 0 (S (length fmt)) fmt va 0 []; Ok cs.

(** Handing a list of characters to an output function, one after the other. *)
Fixpoint write_all {X} (out : out_fct_type X) (maxlen : Z) (cs : list Z) (idx : Z) (x : X) :
    res (Z * X) :=
  match cs with
  | [] => Ok (idx, x)
  | c :: cs' => x ← out c idx maxlen x; write_all out maxlen cs' (u32 (idx + 1)) x
  end.

(** The number a digit string denotes, most significant digit first. *)
Definition digit_value (c : Z) : option Z :=
  if (C "0" <=? c) && (c <=? C "9") then Some (c - C "0")
  else if (C "a" <=? c) && (c <=? C "z") then Some (c - C "a" + 10)
  else if (C "A" <=? c) && (c <=? C "Z") then Some (c - C "A" + 10)
  else None.

Definition number_of (base : Z) (cs : list Z) : option Z :=
  foldl (fun acc c => n ← acc; d ← digit_value c; Some (n * base + d)) (Some 0) cs.

(** A signed number: an optional minus sign and digits. *)
Definition signed_number_of (base : Z) (cs : list Z) : option Z :=
  match cs with
  | 45 :: ds => n ← number_of base ds; Some (- n)
  | _ => number_of base cs
  end.

(* ------------------------------------------------------------------ *)
(** * Independence of the output function *)

Lemma write_all_app {X} (out : out_fct_type X) maxlen a b idx x :
  write_all out maxlen (a ++ b) idx x =
  ('(i, x') ← write_all out maxlen a idx x; write_all out maxlen b i x').
Proof.
  revert idx x. induction a as [|c a IH]; intros; simpl; [done|].
  destruct (out c idx maxlen x); simpl; [apply IH|done..].
Qed.

Lemma write_all_idx {X} (out : out_fct_type X) maxlen cs idx x i x' :
  is_u32 idx → write_all out maxlen cs idx x = Ok (i, x') →
  i = u32 (idx + Z.of_nat (length cs)).
Proof.
  revert idx x. induction cs as [|c cs IH]; intros idx x Hi; simpl.
  - intros [= <- _]. rewrite Z.add_0_r. by rewrite u32_small.
  - destruct (out c idx maxlen x); simpl; [|done..]. intros H.
    apply IH in H; [|auto with kernel]. subst. rewrite u32_add_l. f_equal. lia.
Qed.

(** The same for any start index, as a distance. *)
Lemma write_all_dist {X} (out : out_fct_type X) maxlen cs idx x i x' :
  write_all out maxlen cs idx x = Ok (i, x') →
  u32 (i - idx) = u32 (Z.of_nat (length cs)).
Proof.
  revert idx x. induction cs as [|c cs IH]; intros idx x; simpl.
  - intros [= <- _]. by rewrite Z.sub_diag.
  - destruct (out c idx maxlen x); simpl; [|done..]. intros H%IH.
    rewrite Nat2Z.inj_succ. unfold Z.succ. rewrite <- u32_add_l, <- H, u32_add_l.
    rewrite <- (u32_add_l (i - u32 (idx + 1))), <- Z.add_opp_r.
    unfold u32, wrap. Z.div_mod_to_equations; lia.
Qed.

Lemma write_all_collect cs maxlen idx l :
  ∃ i, write_all collect maxlen cs idx l = Ok (i, l ++ cs).
Proof.
  revert idx l. induction cs as [|c cs IH]; intros; simpl.
  - exists idx. by rewrite app_nil_r.
  - destruct (IH (u32 (idx + 1)) (l ++ [c])) as [i Hi]. exists i.
    by rewrite Hi, <- app_assoc.
Qed.

Lemma out_spaces_write {X} (out : out_fct_type X) maxlen n idx x :
  out_spaces out maxlen n idx x = write_all out maxlen (replicate n (C " ")) idx x.
Proof.
  revert idx x. induction n as [|n IH]; intros; simpl; [done|].
  destruct (out _ idx maxlen x); simpl; [apply IH|done..].
Qed.

Lemma out_reversed_write {X} (out : out_fct_type X) maxlen r idx x :
  out_reversed out maxlen r idx x = write_all out maxlen r idx x.
Proof.
  revert idx x. induction r as [|c r IH]; intros; simpl; [done|].
  destruct (out _ idx maxlen x); simpl; [apply IH|done..].
Qed.

(** [emits g cs e]: with every output function, [g] hands it [cs] and then
    returns with [e]. *)
Definition emits {E} (g : ∀ X, out_fct_type X → Z → Z → X → res (Z * X * E))
    (cs : list Z) (e : E) : Prop :=
  ∀ X out maxlen idx x, g X out maxlen idx x = (r ← write_all out maxlen cs idx x; Ok (r, e)).

(** [g] either emits or fails whatever the output function does. *)
Definition natural {E} (g : ∀ X, out_fct_type X → Z → Z → X → res (Z * X * E)) : Prop :=
  (∃ cs e, emits g cs e) ∨ (∀ idx l r, g (list Z) collect 0 idx l ≠ Ok r).

Ltac write_cases :=
  repeat match goal with
  | |- context [write_all ?o ?m ?cs ?i ?x] =>
      destruct (write_all o m cs i x) as [[? ?]| |] eqn:?; simpl; [|done..]
  end.

Definition rev_chars (buf : list Z) (width flags : Z) : list Z :=
  (if negb (has flags FLAGS_LEFT) && negb (has flags FLAGS_ZEROPAD)
   then replicate (Z.to_nat (width - len buf)) (C " ") else [])
  ++ rev buf
  ++ (if has flags FLAGS_LEFT then replicate (Z.to_nat (width - len buf)) (C " ") else []).

Lemma out_rev_write {X} (out : out_fct_type X) maxlen buf width flags idx x :
  len buf < 2 ^ 32 →
  out_rev out maxlen buf width flags idx x =
  write_all out maxlen (rev_chars buf width flags) idx x.
Proof.
  intros Hlen. unfold out_rev, rev_chars. rewrite out_spaces_write.
  assert (u32 (len buf) = len buf) as Hu by (apply u32_small; unfold is_u32, len in *; lia).
  destruct (has flags FLAGS_LEFT); simpl.
  - rewrite write_all_app, out_reversed_write.
    destruct (write_all out maxlen (rev buf) idx x) as [[i x']| |] eqn:E; simpl; [|done..].
    apply write_all_dist in E. rewrite length_rev in E. rewrite out_spaces_write, E.
    fold (len buf). by rewrite Hu.
  - rewrite app_nil_r. destruct (negb (has flags FLAGS_ZEROPAD)); simpl.
    + rewrite write_all_app. write_cases. rewrite out_reversed_write. by write_cases.
    + rewrite out_reversed_write. by write_cases.
Qed.

(** The buffer of [_ntoa_long] never holds more than its 32 bytes. *)
Definition fits (buf : list Z) : Prop := len buf <= PRINTF_NTOA_BUFFER_SIZE.

Lemma len_snoc buf c : len (buf ++ [c]) = len buf + 1.
Proof. unfold len. rewrite length_app. simpl. lia. Qed.

Lemma fits_snoc buf c : room buf = true → fits (buf ++ [c]).
Proof.
  unfold room, fits. rewrite len_snoc, Z.ltb_lt. lia.
Qed.

Lemma ntoa_digits_len fuel flags value base buf :
  len (ntoa_digits fuel flags value base buf) <= len buf + Z.of_nat fuel.
Proof.
  revert value buf. induction fuel as [|fuel IH]; intros; simpl; [lia|].
  case_match; [rewrite len_snoc; lia|]. etrans; [apply IH|]. rewrite len_snoc. lia.
Qed.

Lemma pad_zeros_fits fuel lim buf : fits buf → fits (pad_zeros fuel lim buf).
Proof.
  revert buf. induction fuel as [|fuel IH]; intros buf Hb; simpl; [done|].
  destruct (len buf <? lim); simpl; [|done].
  destruct (room buf) eqn:Hr; [|done]. apply IH. by apply fits_snoc.
Qed.

Lemma drop_last_fits buf : fits buf → fits (drop_last buf).
Proof. unfold fits, drop_last, len. rewrite length_take. lia. Qed.

Lemma push_fits buf c : fits buf → fits (push buf c).
Proof. unfold push. destruct (room buf) eqn:?; [by intros; apply fits_snoc|done]. Qed.

#[export] Hint Resolve drop_last_fits push_fits pad_zeros_fits fits_snoc : kernel.

Lemma ntoa_hash_fits buf base prec width flags :
  fits buf → fits (ntoa_hash buf base prec width flags).
Proof.
  intros Hb. unfold ntoa_hash. destruct (has flags FLAGS_HASH); [|done].
  cbv zeta. apply push_fits.
  match goal with |- fits (if _ && _ && room ?b then _ else _) => set (b0 := b) end.
  assert (fits b0) as Hfb by (unfold b0; repeat case_match; auto with kernel).
  clearbody b0.
  destruct (base =? 16), (has flags FLAGS_UPPERCASE), (base =? 2), (room b0) eqn:?;
    simpl; auto with kernel.
Qed.

Lemma ntoa_sign_fits buf negative flags : fits buf → fits (ntoa_sign buf negative flags).
Proof. intros. unfold ntoa_sign. destruct (room buf) eqn:?; repeat case_match; auto with kernel. Qed.

Lemma ntoa_pad_fits buf negative prec width flags :
  fits buf → fits (ntoa_pad buf negative prec width flags).2.
Proof.
  intros. unfold ntoa_pad. destruct (has flags FLAGS_LEFT); [done|]. cbv zeta. cbn [snd].
  destruct (has flags FLAGS_ZEROPAD); auto with kernel.
Qed.

#[local] Arguments ntoa_digits : simpl never.
#[local] Arguments pad_zeros : simpl never.

(** The characters of one integer conversion. *)
Definition ntoa_chars (value : Z) (negative : bool) (base prec width flags : Z) : list Z :=
  let flags := if value =? 0 then clear_flag flags FLAGS_HASH else flags in
  let buf :=
    if negb (has flags FLAGS_PRECISION) || negb (value =? 0)
    then ntoa_digits 32 flags value base [] else [] in
  let '(width, buf) := ntoa_pad buf negative prec width flags in
  rev_chars (ntoa_sign (ntoa_hash buf base prec width flags) negative flags) width flags.

Lemma ntoa_long_write {X} (out : out_fct_type X) maxlen value negative base prec width flags idx x :
  ntoa_long out maxlen value negative base prec width flags idx x =
  write_all out maxlen (ntoa_chars value negative base prec width flags) idx x.
Proof.
  unfold ntoa_long, ntoa_chars, ntoa_format.
  set (fl := if value =? 0 then _ else _). set (buf := if _ || _ then _ else _).
  assert (fits buf) as Hb.
  { unfold buf. case_match; [|unfold fits, len, PRINTF_NTOA_BUFFER_SIZE; simpl; lia].
    pose proof (ntoa_digits_len 32 fl value base []) as Hl.
    unfold fits, PRINTF_NTOA_BUFFER_SIZE. change (len []) with 0 in Hl. lia. }
  pose proof (ntoa_pad_fits buf negative prec width fl Hb) as Hp.
  destruct (ntoa_pad buf negative prec width fl) as [w b]. simpl in Hp.
  apply out_rev_write.
  assert (fits (ntoa_sign (ntoa_hash b base prec w fl) negative fl)) as Hf
    by auto using ntoa_sign_fits, ntoa_hash_fits.
  unfold fits, PRINTF_NTOA_BUFFER_SIZE in Hf. lia.
Qed.

(** The characters of a string conversion, without padding. *)
Fixpoint string_chars (p : list Z) (flags precision : Z) : res (list Z) :=
  match p with
  | [] => Fault
  | c :: p' =>
      if negb (c =? 0) && (negb (has flags FLAGS_PRECISION) || negb (precision =? 0)) then
        cs ← string_chars p' flags (precision - 1); Ok (c :: cs)
      else Ok []
  end.

Lemma out_string_write {X} (out : out_fct_type X) maxlen p flags precision idx x cs :
  string_chars p flags precision = Ok cs →
  out_string out maxlen p flags precision idx x = write_all out maxlen cs idx x.
Proof.
  revert precision idx x cs. induction p as [|c p IH]; intros precision idx x cs; simpl; [done|].
  case_match; [|by intros [= <-]].
  destruct (string_chars p flags (precision - 1)) as [cs'| |] eqn:E; simpl; [|done..].
  intros [= <-]. simpl. destruct (out c idx maxlen x); simpl; [|done..]. by apply IH.
Qed.

Lemma out_string_fails p flags precision idx l r :
  (∀ cs, string_chars p flags precision ≠ Ok cs) →
  out_string collect 0 p flags precision idx l ≠ Ok r.
Proof.
  revert precision idx l. induction p as [|c p IH]; intros precision idx l; simpl; [done|].
  case_match; intros Hn; [|by destruct (Hn [])].
  apply IH. intros cs E. apply (Hn (c :: cs)). by rewrite E.
Qed.

Lemma emits_natural {E} g cs (e : E) : emits g cs e → natural g.
Proof. intros. left. eauto. Qed.

Definition conv_int_chars (c flags width precision w : Z) : list Z :=
  let flags := int_flags c flags in
  if is_signed c then
    let value := int_value flags w in
    ntoa_chars (u32 (if 0 <? value then value else 0 - value)) (value <? 0)
      (base_of c) precision width flags
  else ntoa_chars (uint_value flags w) false (base_of c) precision width flags.

Lemma conv_int_natural c flags width precision va :
  natural (fun X out maxlen => conv_int out maxlen c flags width precision va).
Proof.
  unfold conv_int. destruct (has (int_flags c flags) FLAGS_LONG_LONG).
  { apply (emits_natural _ [] va). by intros X out maxlen idx x. }
  destruct (va_word va) as [[w va']| |]; [|by right..].
  apply (emits_natural _ (conv_int_chars c flags width precision w) va').
  intros X out maxlen idx x. simpl. unfold conv_int_chars.
  destruct (is_signed c); rewrite ntoa_long_write; by write_cases.
Qed.

Lemma conv_char_natural flags width va :
  natural (fun X out maxlen => conv_char out maxlen flags width va).
Proof.
  unfold conv_char. set (pad := Z.to_nat (width - 1)).
  destruct (va_word va) as [[w va']| |] eqn:E.
  - apply (emits_natural _
      ((if has flags FLAGS_LEFT then [] else replicate pad (C " ")) ++ [u8 w] ++
       (if has flags FLAGS_LEFT then replicate pad (C " ") else [])) va').
    intros X out maxlen idx x. rewrite !write_all_app.
    destruct (has flags FLAGS_LEFT); simpl; rewrite ?out_spaces_write; write_cases;
      (destruct (out (u8 w) _ maxlen _); simpl; [|done..]);
      rewrite ?out_spaces_write; by write_cases.
  - right. intros idx l r. case_match; simpl; [done|].
    rewrite out_spaces_write. by write_cases.
  - right. intros idx l r. case_match; simpl; [done|].
    rewrite out_spaces_write. by write_cases.
Qed.

Lemma conv_string_natural flags width precision va :
  natural (fun X out maxlen => conv_string out maxlen flags width precision va).
Proof.
  unfold conv_string. destruct (va_str va) as [[p va']| |]; [|by right..]. simpl.
  destruct (strnlen_s p _) as [l| |]; [|by right..]. simpl.
  set (pad := Z.to_nat _).
  assert (Hfail : (∀ cs, string_chars p flags precision ≠ Ok cs) → ∀ idx l0 r,
    ('(i, x) ← (if has flags FLAGS_LEFT then Ok (idx, l0)
                else out_spaces collect 0 pad idx l0);
     '(i, x) ← out_string collect 0 p flags precision i x;
     '(i, x) ← (if has flags FLAGS_LEFT then out_spaces collect 0 pad i x else Ok (i, x));
     Ok (i, x, va')) ≠ Ok r).
  { intros Hs idx l0 r. destruct (has flags FLAGS_LEFT); simpl;
      rewrite ?out_spaces_write; write_cases;
      (destruct (out_string _ _ _ _ _ _ _) eqn:Eo; simpl; [|done..]);
      exfalso; by eapply out_string_fails. }
  destruct (string_chars p flags precision) as [cs| |] eqn:E.
  - apply (emits_natural _
      ((if has flags FLAGS_LEFT then [] else replicate pad (C " ")) ++ cs ++
       (if has flags FLAGS_LEFT then replicate pad (C " ") else [])) va').
    intros X out maxlen idx x.
    destruct (has flags FLAGS_LEFT); simpl;
      rewrite ?app_nil_r, ?write_all_app, ?out_spaces_write; write_cases;
      rewrite (out_string_write _ _ _ _ _ _ _ _ E); write_cases;
      rewrite ?out_spaces_write; by write_cases.
  - right. intros idx l0 r. by apply Hfail.
  - right. intros idx l0 r. by apply Hfail.
Qed.

Lemma conv_pointer_natural flags precision va :
  natural (fun X out maxlen => conv_pointer out maxlen flags precision va).
Proof.
  unfold conv_pointer. destruct (va_word va) as [[w va']| |]; [|by right..].
  apply (emits_natural _
    (ntoa_chars w false 16 precision 8
       (set_flag flags (Z.lor FLAGS_ZEROPAD FLAGS_UPPERCASE))) va').
  intros X out maxlen idx x. simpl. rewrite ntoa_long_write. by write_cases.
Qed.

(** A whole directive: what it hands to the output function, the arguments it
    leaves and the rest of the format do not depend on the output function. *)
Definition directive_emits (fmt : list Z) (va : list varg) (cs : list Z)
    (va' : list varg) (f' : list Z) : Prop :=
  ∀ X (out : out_fct_type X) maxlen idx x,
    directive out maxlen fmt va idx x = (r ← write_all out maxlen cs idx x; Ok (r, va', f')).

Lemma specifier_natural flags width precision fmt va :
  (∃ cs va' f', ∀ X (out : out_fct_type X) maxlen idx x,
     specifier out maxlen flags width precision fmt va idx x =
     (r ← write_all out maxlen cs idx x; Ok (r, va', f')))
  ∨ (∀ idx l r, specifier collect 0 flags width precision fmt va idx l ≠ Ok r).
Proof.
  unfold specifier. destruct (peek fmt) as [c| |]; [|by right..]. simpl.
  assert (Hlift : ∀ g : ∀ X, out_fct_type X → Z → Z → X → res (Z * X * list varg),
    natural g →
    (∃ cs va' f', ∀ X (out : out_fct_type X) maxlen idx x,
       ('(r, va0) ← g X out maxlen idx x; Ok (r, va0, tl fmt)) =
       (r ← write_all out maxlen cs idx x; Ok (r, va', f')))
    ∨ (∀ idx l r, ('(r, va0) ← g (list Z) collect 0 idx l; Ok (r, va0, tl fmt)) ≠ Ok r)).
  { intros g [(cs & va' & Hg)|Hg].
    - left. exists cs, va', (tl fmt). intros X out maxlen idx x. rewrite Hg. by write_cases.
    - right. intros idx l r.
      destruct (g (list Z) collect 0 idx l) as [[? ?]| |] eqn:E; [|done..].
      by destruct (Hg idx l (p, l0)). }
  assert (Hput : ∀ d, ∃ cs va' f', ∀ X (out : out_fct_type X) maxlen idx x,
    (x ← out d idx maxlen x; Ok (u32 (idx + 1), x, va, tl fmt)) =
    (r ← write_all out maxlen cs idx x; Ok (r, va', f'))).
  { intros d. exists [d], va, (tl fmt). intros X out maxlen idx x. simpl.
    by destruct (out d idx maxlen x). }
  destruct (is_int_conv c);
    [apply (Hlift (fun X out maxlen => conv_int out maxlen c flags width precision va)),
       conv_int_natural|].
  destruct (c =? C "c");
    [apply (Hlift (fun X out maxlen => conv_char out maxlen flags width va)),
       conv_char_natural|].
  destruct (c =? C "s");
    [apply (Hlift (fun X out maxlen => conv_string out maxlen flags width precision va)),
       conv_string_natural|].
  destruct (c =? C "p");
    [apply (Hlift (fun X out maxlen => conv_pointer out maxlen flags precision va)),
       conv_pointer_natural|].
  destruct (c =? C "%"); left; apply Hput.
Qed.

Lemma directive_natural fmt va :
  (∃ cs va' f', directive_emits fmt va cs va' f')
  ∨ (∀ idx l r, directive collect 0 fmt va idx l ≠ Ok r).
Proof.
  unfold directive_emits, directive.
  destruct (parse_flags fmt 0) as [[fl f]| |]; [|by right..]. simpl.
  destruct (parse_width fl f va) as [[[[fl1 w] f1] va1]| |]; [|by right..]. simpl.
  destruct (parse_precision fl1 f1 va1) as [[[[fl2 pr] f2] va2]| |]; [|by right..]. simpl.
  destruct (parse_length fl2 f2) as [[fl3 f3]| |]; [|by right..]. simpl.
  apply specifier_natural.
Qed.

Lemma loop_natural fuel fmt va i0 l0 i1 l1 :
  vsnprintf_loop collect 0 fuel fmt va i0 l0 = Ok (i1, l1) →
  ∃ cs, l1 = l0 ++ cs ∧ ∀ X (out : out_fct_type X) maxlen idx x,
    vsnprintf_loop out maxlen fuel fmt va idx x = write_all out maxlen cs idx x.
Proof.
  revert fmt va i0 l0. induction fuel as [|fuel IH]; intros fmt va i0 l0; [done|].
  simpl. destruct (peek fmt) as [c| |]; [|done..]. simpl.
  destruct (c =? 0) eqn:E0; [intros [= -> ->]; exists []; by rewrite app_nil_r|].
  destruct (c =? 37) eqn:E1; simpl.
  - destruct (directive_natural (tl fmt) va) as [(cs & va' & f' & Hd)|Hd].
    + rewrite Hd. destruct (write_all_collect cs 0 i0 l0) as [i' Hw]. rewrite Hw. simpl.
      intros (cs' & -> & Hl)%IH. exists (cs ++ cs').
      split; [by rewrite app_assoc|]. intros X out maxlen idx x. rewrite Hd, write_all_app.
      by write_cases.
    + destruct (directive collect 0 (tl fmt) va i0 l0) as [[[[? ?] ?] ?]| |] eqn:E; [|done..].
      by apply Hd in E.
  - intros (cs & -> & Hl)%IH. exists (c :: cs). split; [by rewrite <- app_assoc|].
    intros X out maxlen idx x. simpl. by destruct (out c idx maxlen x); simpl.
Qed.

Lemma format_chars_write fmt va cs X (out : out_fct_type X) maxlen idx x :
  format_chars fmt va = Ok cs →
  vsnprintf_loop out maxlen (S (length fmt)) fmt va idx x = write_all out maxlen cs idx x.
Proof.
  unfold format_chars.
  destruct (vsnprintf_loop collect _ _ _ _ _ _) as [[i l]| |] eqn:E; [|done..].
  intros [= <-]. apply loop_natural in E as (cs & -> & Hl). apply Hl.
Qed.

(* ------------------------------------------------------------------ *)
(** * Buffer output *)

(** What writing characters through [out_buffer] does to every cell. *)
Lemma write_all_buffer b count cs idx m :
  0 <= idx → idx + Z.of_nat (length cs) < 2 ^ 32 → 0 <= b → b + count <= 2 ^ 32 →
  mapped m b count →
  ∃ m', write_all (out_buffer b) count cs idx m = Ok (idx + Z.of_nat (length cs), m') ∧
    mapped m' b count ∧
    ∀ x, m' !! x =
      if decide (b + idx <= x < b + Z.min count (idx + Z.of_nat (length cs)))
      then u8 <$> cs !! Z.to_nat (x - b - idx) else m !! x.
Proof.
  revert idx m. induction cs as [|c cs IH]; intros idx m Hi Hl Hb Hc Hm.
  - exists m. cbn [write_all length Z.of_nat]. rewrite Z.add_0_r. split_and!; [done..|].
    intros x. by rewrite decide_False by lia.
  - cbn [write_all]. rewrite length_cons, Nat2Z.inj_succ in *.
    assert (u32 (idx + 1) = idx + 1) as Hu by (apply u32_small; unfold is_u32; lia).
    rewrite Hu.
    change (out_buffer b c idx count m) with
      (if idx <? count then store8 m (u32 (b + idx)) c else Ok m). destruct (Z.ltb_spec idx count) as [Hlt|Hge].
    + rewrite u32_small by (unfold is_u32; lia).
      rewrite store8_ok by (apply Hm; lia). cbn [mbind res_bind].
      destruct (IH (idx + 1) (<[b + idx := u8 c]> m)) as (m' & He & Hm' & Hx);
        [lia..| |].
      { intros x Hx. rewrite lookup_insert. case_decide; [by eexists|by apply Hm]. }
      exists m'. rewrite He. split_and!; [f_equal; f_equal; lia|done|].
      intros x. rewrite Hx. rewrite lookup_insert.
      repeat case_decide; try lia; try done.
      * replace (Z.to_nat (x - b - idx)) with (S (Z.to_nat (x - b - (idx + 1)))) by lia. done.
      * subst x. replace (b + idx - b - idx) with 0 by lia. done.
    + cbn [mbind res_bind].
      destruct (IH (idx + 1) m) as (m' & He & Hm' & Hx); [lia..|done|].
      exists m'. rewrite He. split_and!; [f_equal; f_equal; lia|done|].
      intros x. rewrite Hx. repeat case_decide; try lia; done.
Qed.

(** The whole of [vsnprintf] on a buffer. *)
Lemma vsnprintf_buffer_ok b count fmt va cs m :
  format_chars fmt va = Ok cs → Z.of_nat (length cs) < 2 ^ 31 →
  0 <= b → 0 <= count → b + count <= 2 ^ 32 → mapped m b count →
  ∃ m', vsnprintf (out_buffer b) count fmt va m = Ok (Z.of_nat (length cs), m') ∧
    ∀ x, m' !! x =
      if decide (b <= x < b + count ∧ x <= b + Z.of_nat (length cs))
      then if decide (x = b + Z.min (Z.of_nat (length cs)) (count - 1)) then Some 0
           else u8 <$> cs !! Z.to_nat (x - b)
      else m !! x.
Proof.
  intros Hf Hn Hb Hc Hbc Hm. set (n := Z.of_nat (length cs)) in *.
  unfold vsnprintf. rewrite (format_chars_write fmt va cs) by done.
  destruct (write_all_buffer b count cs 0 m) as (m1 & He & Hm1 & Hx); [lia..|done|].
  fold n in He, Hx. rewrite He. cbn [mbind res_bind]. rewrite Z.add_0_l.
  assert (s32 n = n) as Hs by (apply s32_small; unfold is_s32; lia). rewrite Hs.
  unfold out_buffer. destruct (decide (count = 0)) as [->|Hpos].
  - destruct (Z.ltb_spec n 0); [lia|]. change (u32 (0 - 1) <? 0) with false. cbv iota.
    exists m1. split; [done|]. intros x. rewrite Hx. by rewrite !decide_False by lia.
  - set (e := Z.min n (count - 1)).
    assert ((if n <? count then n else u32 (count - 1)) = e) as ->.
    { destruct (Z.ltb_spec n count); [lia|]. rewrite u32_small by (unfold is_u32; lia). lia. }
    destruct (Z.ltb_spec e count); [|lia].
    rewrite u32_small by (unfold is_u32; lia). rewrite store8_ok by (apply Hm1; lia).
    eexists; split; [done|]. intros x. rewrite lookup_insert.
    destruct (decide (b + e = x)) as [<-|Hne].
    + by rewrite decide_True, decide_True by lia.
    + rewrite Hx. repeat case_decide; try lia; try done. do 2 f_equal. lia.
Qed.

(* ------------------------------------------------------------------ *)
(** * Termination *)

Lemma parse_flags_shorter fmt fl fl' f : parse_flags fmt fl = Ok (fl', f) → (length f <= length fmt)%nat.
Proof.
  revert fl. induction fmt as [|c fmt IH]; intros fl; simpl; [done|].
  destruct (flag_of_char c); [intros H%IH; simpl; lia|by intros [= <- <-]].
Qed.

Lemma atoi_shorter str i w f : atoi_from str i = Ok (w, f) → (length f <= length str)%nat.
Proof.
  revert i. induction str as [|c str IH]; intros i; simpl; [done|].
  destruct (is_digit c); [intros H%IH; simpl; lia|by intros [= <- <-]].
Qed.

Lemma tl_shorter {A} (l : list A) : (length (tl l) <= length l)%nat.
Proof. destruct l; simpl; lia. Qed.

Ltac inv_ok :=
  repeat match goal with
  | H : (_ ≫= _) = Ok _ |- _ => apply bind_ok in H as (? & ? & H)
  | H : (let '(_, _) := ?p in _) = Ok _ |- _ => destruct p
  | H : (if ?b then _ else _) = Ok _ |- _ => destruct b eqn:?
  | H : Ok _ = Ok _ |- _ => injection H as H; subst
  | H : (_, _) = (_, _) |- _ => injection H as H; subst
  end.

Lemma parse_width_shorter fl fmt va fl' w f va' :
  parse_width fl fmt va = Ok (fl', w, f, va') → (length f <= length fmt)%nat.
Proof.
  unfold parse_width. intros H. inv_ok; simplify_eq; auto using tl_shorter.
  by eapply atoi_shorter.
Qed.

Lemma parse_precision_shorter fl fmt va fl' w f va' :
  parse_precision fl fmt va = Ok (fl', w, f, va') → (length f <= length fmt)%nat.
Proof.
  unfold parse_precision. intros H. pose proof (tl_shorter fmt). pose proof (tl_shorter (tl fmt)).
  inv_ok; simplify_eq; try lia.
  match goal with Ha : atoi _ = Ok _ |- _ => apply atoi_shorter in Ha end. lia.
Qed.

Lemma parse_length_shorter fl fmt fl' f :
  parse_length fl fmt = Ok (fl', f) → (length f <= length fmt)%nat.
Proof.
  unfold parse_length. intros H. pose proof (tl_shorter fmt). pose proof (tl_shorter (tl fmt)).
  inv_ok; simplify_eq; lia.
Qed.

Lemma specifier_shorter {X} (out : out_fct_type X) maxlen fl w pr fmt va idx x r va' f :
  specifier out maxlen fl w pr fmt va idx x = Ok (r, va', f) → (length f < length fmt)%nat.
Proof.
  unfold specifier. destruct fmt as [|c fmt]; [done|]. simpl. intros H.
  inv_ok; simplify_eq; lia.
Qed.

Lemma directive_shorter {X} (out : out_fct_type X) maxlen fmt va idx x r va' f :
  directive out maxlen fmt va idx x = Ok (r, va', f) → (length f < length fmt)%nat.
Proof.
  unfold directive. intros H. inv_ok.
  repeat match goal with
  | Ha : parse_flags _ _ = Ok _ |- _ => apply parse_flags_shorter in Ha
  | Ha : parse_width _ _ _ = Ok _ |- _ => apply parse_width_shorter in Ha
  | Ha : parse_precision _ _ _ = Ok _ |- _ => apply parse_precision_shorter in Ha
  | Ha : parse_length _ _ = Ok _ |- _ => apply parse_length_shorter in Ha
  | Ha : specifier _ _ _ _ _ _ _ _ _ = Ok _ |- _ => apply specifier_shorter in Ha
  end. lia.
Qed.

Lemma bind_nofuel {A B} (m : res A) (f : A → res B) :
  m ≠ NoFuel → (∀ a, m = Ok a → f a ≠ NoFuel) → (m ≫= f) ≠ NoFuel.
Proof. destruct m; simpl; naive_solver. Qed.

(** An output function that does not diverge. *)
Definition terminating {X} (out : out_fct_type X) : Prop :=
  ∀ c idx maxlen x, out c idx maxlen x ≠ NoFuel.

Create HintDb terminates.

Section termination.
Context {X : Type} (out : out_fct_type X) (maxlen : Z) (Hout : terminating out).

Lemma write_all_terminates cs idx x : write_all out maxlen cs idx x ≠ NoFuel.
Proof using Hout.
  revert idx x. induction cs as [|c cs IH]; intros; simpl; [done|].
  apply bind_nofuel; auto.
Qed.

Lemma out_spaces_terminates n idx x : out_spaces out maxlen n idx x ≠ NoFuel.
Proof using Hout. rewrite out_spaces_write. apply write_all_terminates. Qed.

Lemma strnlen_s_terminates p n : strnlen_s p n ≠ NoFuel.
Proof.
  revert n. induction p as [|c p IH]; intros n; simpl; [done|].
  case_match; [done|]. by apply bind_nofuel.
Qed.

Lemma atoi_terminates p i : atoi_from p i ≠ NoFuel.
Proof. revert i. induction p as [|c p IH]; intros i; simpl; [done|]. by case_match. Qed.

Lemma parse_flags_terminates p fl : parse_flags p fl ≠ NoFuel.
Proof. revert fl. induction p as [|c p IH]; intros fl; simpl; [done|]. by case_match. Qed.

Lemma out_string_terminates p fl pr idx x : out_string out maxlen p fl pr idx x ≠ NoFuel.
Proof using Hout.
  revert pr idx x. induction p as [|c p IH]; intros; simpl; [done|].
  case_match; [|done]. apply bind_nofuel; auto.
Qed.

Lemma ntoa_long_terminates v neg b pr w fl idx x :
  ntoa_long out maxlen v neg b pr w fl idx x ≠ NoFuel.
Proof using Hout. rewrite ntoa_long_write. apply write_all_terminates. Qed.

Lemma peek_terminates p : peek p ≠ NoFuel.
Proof. by destruct p. Qed.
Lemma va_word_terminates va : va_word va ≠ NoFuel.
Proof. by destruct va as [|[|] ?]. Qed.
Lemma va_str_terminates va : va_str va ≠ NoFuel.
Proof. by destruct va as [|[|] ?]. Qed.

Hint Resolve out_spaces_terminates strnlen_s_terminates atoi_terminates
  parse_flags_terminates out_string_terminates ntoa_long_terminates peek_terminates
  va_word_terminates va_str_terminates : terminates.

(** Walks through a chain of binds and conditionals. *)
Ltac terminates :=
  repeat match goal with
  | |- (_ ≫= _) ≠ NoFuel => apply bind_nofuel; [eauto with terminates|]
  | |- (if ?b then _ else _) ≠ NoFuel => destruct b
  | |- (let '(_, _) := ?p in _) ≠ NoFuel => destruct p
  | |- ∀ _, _ = Ok _ → _ => intros ? _
  | |- Ok _ ≠ NoFuel => discriminate
  | |- Fault ≠ NoFuel => discriminate
  | |- _ => progress cbn beta iota zeta
  end; eauto with terminates.

Lemma specifier_terminates fl w pr fmt va idx x :
  specifier out maxlen fl w pr fmt va idx x ≠ NoFuel.
Proof using Hout.
  unfold specifier.
  apply bind_nofuel; [apply peek_terminates|]. intros c _.
  destruct (is_int_conv c); [|repeat (case_match; try done)];
    (apply bind_nofuel; [|terminates]); unfold conv_int, conv_char, conv_string, conv_pointer;
    terminates; try (by apply Hout).
  all: apply bind_nofuel; terminates.
Qed.

Lemma directive_terminates fmt va idx x : directive out maxlen fmt va idx x ≠ NoFuel.
Proof using Hout.
  unfold directive, parse_width, parse_precision, parse_length, atoi.
  terminates; try apply specifier_terminates.
Qed.
End termination.

Lemma loop_terminates {X} (out : out_fct_type X) maxlen fuel fmt va idx x :
  terminating out → (length fmt < fuel)%nat →
  vsnprintf_loop out maxlen fuel fmt va idx x ≠ NoFuel.
Proof.
  intros Hout. revert fmt va idx x. induction fuel as [|fuel IH]; intros fmt va idx x Hf; [lia|].
  destruct fmt as [|c fmt]; [done|]. simpl in Hf |- *.
  destruct (c =? 0); [done|]. destruct (c =? 37); simpl.
  - apply bind_nofuel; [by apply directive_terminates|].
    intros [[[i x'] va'] f] Hd%directive_shorter. apply IH. lia.
  - apply bind_nofuel; [apply Hout|]. intros x' _. apply IH. lia.
Qed.

(* ------------------------------------------------------------------ *)
(** * Digits *)

Lemma ntoa_digits_app fuel fl v base buf :
  ntoa_digits fuel fl v base buf = buf ++ ntoa_digits fuel fl v base [].
Proof.
  revert v buf. induction fuel as [|fuel IH]; intros v buf; unfold ntoa_digits; fold ntoa_digits.
  - by rewrite app_nil_r.
  - case_match; [done|]. rewrite IH, (IH _ ([] ++ _)). by rewrite <- app_assoc.
Qed.

Lemma ntoa_digits_step fuel fl v base :
  ntoa_digits (S fuel) fl v base [] =
  digit_char fl (v mod base) ::
    (if v / base =? 0 then [] else ntoa_digits fuel fl (v / base) base []).
Proof.
  change (ntoa_digits (S fuel) fl v base []) with
    (if v / base =? 0 then [digit_char fl (v mod base)]
     else ntoa_digits fuel fl (v / base) base [digit_char fl (v mod base)]).
  case_match; [done|]. by rewrite ntoa_digits_app.
Qed.

(** [k] base-[base] digits are enough for a number below [base^k]. *)
Lemma ntoa_digits_short fuel fl v base k :
  2 <= base → 0 <= v < base ^ Z.of_nat k → (0 < k)%nat →
  len (ntoa_digits fuel fl v base []) <= Z.of_nat k.
Proof.
  intros Hbase. revert v k. induction fuel as [|fuel IH]; intros v k Hv Hk.
  - unfold ntoa_digits, len. simpl. lia.
  - rewrite ntoa_digits_step. unfold len. rewrite length_cons.
    case_match; [simpl; lia|].
    destruct k as [|k]; [lia|].
    rewrite Nat2Z.inj_succ, Z.pow_succ_r in Hv by lia.
    assert (0 <= v / base < base ^ Z.of_nat k) as Hq.
    { split; [apply Z.div_pos; lia|]. apply Z.div_lt_upper_bound; lia. }
    assert (0 < k)%nat as Hk'.
    { destruct k; [|lia]. simpl in Hq. lia. }
    specialize (IH _ _ Hq Hk'). unfold len in IH. lia.
Qed.

Lemma digit_value_char fl d : 0 <= d < 36 → digit_value (digit_char fl d) = Some d.
Proof.
  intros Hd. unfold digit_char, digit_value.
  destruct (Z.ltb_spec d 10).
  - destruct (Z.leb_spec 48 (48 + d)), (Z.leb_spec (48 + d) 57); try lia. simpl. f_equal; lia.
  - destruct (has fl FLAGS_UPPERCASE).
    + destruct (Z.leb_spec 48 (65 + d - 10)), (Z.leb_spec (65 + d - 10) 57),
        (Z.leb_spec 97 (65 + d - 10)), (Z.leb_spec (65 + d - 10) 122),
        (Z.leb_spec 65 (65 + d - 10)), (Z.leb_spec (65 + d - 10) 90); try lia.
      simpl. f_equal; lia.
    + destruct (Z.leb_spec 48 (97 + d - 10)), (Z.leb_spec (97 + d - 10) 57),
        (Z.leb_spec 97 (97 + d - 10)), (Z.leb_spec (97 + d - 10) 122); try lia.
      simpl. f_equal; lia.
Qed.

Lemma number_of_snoc base cs c :
  number_of base (cs ++ [c]) =
  (n ← number_of base cs; d ← digit_value c; Some (n * base + d)).
Proof. unfold number_of. by rewrite foldl_app. Qed.

(** The digits [_ntoa_long] leaves in its buffer, reversed, denote the value. *)
Lemma ntoa_digits_value fuel fl v base :
  2 <= base <= 36 → 0 <= v < base ^ Z.of_nat fuel → (0 < fuel)%nat →
  number_of base (rev (ntoa_digits fuel fl v base [])) = Some v.
Proof.
  intros Hbase. revert v. induction fuel as [|fuel IH]; intros v Hv Hf; [lia|].
  rewrite ntoa_digits_step. cbn [rev]. rewrite number_of_snoc.
  rewrite digit_value_char by (pose proof (Z.mod_pos_bound v base); lia).
  pose proof (Z.div_mod v base ltac:(lia)) as Hdm.
  destruct (Z.eqb_spec (v / base) 0) as [E|E]; [simpl; f_equal; lia|].
  rewrite Nat2Z.inj_succ, Z.pow_succ_r in Hv by lia.
  assert (0 <= v / base < base ^ Z.of_nat fuel) as Hq.
  { split; [apply Z.div_pos; lia|]. apply Z.div_lt_upper_bound; lia. }
  rewrite IH; [simpl; f_equal; lia|done|]. destruct fuel; [simpl in Hq; lia|lia].
Qed.

(** The first character of a number is a digit, not a sign. *)
Lemma signed_number_of_digits base cs v :
  number_of base cs = Some v → signed_number_of base cs = Some v.
Proof.
  intros H. destruct cs as [|c cs]; [done|].
  destruct (decide (c = 45)) as [->|Hc].
  - exfalso. revert H. unfold number_of. cbn [foldl]. simpl (digit_value 45).
    assert (∀ l, foldl (fun acc c => n ← acc; d ← digit_value c; Some (n * base + d)) None l = None)
      as Hn by (induction l as [|? ? IHl]; [done|]; simpl; apply IHl).
    simpl. by rewrite Hn.
  - unfold signed_number_of. repeat (case_match; try done).
Qed.

(** With no flags, width or precision, only the digits and the sign are written. *)
Lemma ntoa_chars_plain v neg base fl :
  fl = 0 ∨ fl = FLAGS_UPPERCASE → 2 <= base → 0 <= v < 2 ^ 32 →
  (neg = true → len (ntoa_digits 32 fl v base []) < 32) →
  ntoa_chars v neg base 0 0 fl =
  (if neg then [C "-"] else []) ++ rev (ntoa_digits 32 fl v base []).
Proof.
  intros Hfl Hbase Hv Hneg. unfold ntoa_chars.
  assert ((if v =? 0 then clear_flag fl FLAGS_HASH else fl) = fl) as ->
    by (destruct Hfl as [-> | ->]; by case_match).
  assert (has fl FLAGS_PRECISION = false ∧ has fl FLAGS_LEFT = false ∧
    has fl FLAGS_ZEROPAD = false ∧ has fl FLAGS_HASH = false ∧ has fl FLAGS_PLUS = false ∧
    has fl FLAGS_SPACE = false) as (H1 & H2 & H3 & H4 & H5 & H6)
    by (destruct Hfl as [-> | ->]; by vm_compute).
  rewrite H1. cbn [negb orb]. set (ds := ntoa_digits 32 fl v base []) in *.
  unfold ntoa_pad. rewrite H2, H3. cbn [andb negb Z.eqb].
  assert (pad_zeros 32 0 ds = ds) as ->.
  { unfold pad_zeros. destruct (Z.ltb_spec (len ds) 0); [unfold len in *; lia|done]. }
  unfold ntoa_hash, ntoa_sign, rev_chars. rewrite H4, H5, H6, H2, H3. cbn [negb andb].
  assert (∀ l, replicate (Z.to_nat (0 - len l)) 32 = []) as Hrep.
  { intros l. unfold len. by replace (Z.to_nat (0 - Z.of_nat (length l))) with 0%nat by lia. }
  rewrite Hrep, app_nil_r. cbn [app].
  destruct neg.
  - unfold room, PRINTF_NTOA_BUFFER_SIZE. destruct (Z.ltb_spec (len ds) 32); [|specialize (Hneg eq_refl); lia].
    rewrite rev_app_distr. done.
  - by destruct (room ds).
Qed.

Lemma int_conv_cases c : is_int_conv c = true →
  c = C "d" ∨ c = C "i" ∨ c = C "u" ∨ c = C "x" ∨ c = C "X" ∨ c = C "o" ∨ c = C "b".
Proof. unfold is_int_conv. rewrite !orb_true_iff, !Z.eqb_eq. tauto. Qed.

(** An integer conversion without options. *)
Lemma format_int_chars c w :
  is_int_conv c = true →
  format_chars [C "%"; c; 0] [VWord w] = Ok (conv_int_chars c 0 0 0 (u32 w)).
Proof.
  intros Hc. unfold format_chars. cbn [length vsnprintf_loop peek mbind res_bind tl].
  change (37 =? 0) with false. change (negb (37 =? 37)) with false. cbv iota.
  assert (directive collect 0 [c; 0] [VWord w] 0 [] =
    (r ← write_all collect 0 (conv_int_chars c 0 0 0 (u32 w)) 0 []; Ok (r, [], [0]))) as ->.
  { destruct (int_conv_cases c Hc) as [->|[->|[->|[->|[->|[->| ->]]]]]];
      unfold directive;
      cbn -[ntoa_long write_all conv_int_chars s32 u32];
      unfold conv_int; cbn -[ntoa_long write_all conv_int_chars s32 u32];
      rewrite ntoa_long_write; unfold conv_int_chars; cbn -[write_all ntoa_chars s32 u32];
      by write_cases. }
  destruct (write_all_collect (conv_int_chars c 0 0 0 (u32 w)) 0 0 []) as [i ->]. done.
Qed.

(* ------------------------------------------------------------------ *)
(** * Formats that are certain to succeed *)

(** The formats the kernel itself uses: text, integer conversions, [%p] and [%s]
    without options, with arguments of the right kinds. *)
Fixpoint simple_format (fmt : list Z) (va : list varg) : bool :=
  match fmt with
  | [] => false
  | c :: f =>
      if c =? 0 then true
      else if negb (c =? C "%") then simple_format f va
      else
        match f with
        | [] => false
        | d :: f' =>
            if is_int_conv d then
              match va with VWord _ :: va' => simple_format f' va' | _ => false end
            else if d =? C "s" then
              match va with
              | VStr p :: va' => existsb (Z.eqb 0) p && simple_format f' va'
              | _ => false
              end
            else if d =? C "p" then
              match va with VWord _ :: va' => simple_format f' va' | _ => false end
            else false
        end
  end.

Lemma strnlen_s_ok p maxsize : existsb (Z.eqb 0) p = true → ∃ n, strnlen_s p maxsize = Ok n.
Proof.
  revert maxsize. induction p as [|c p IH]; intros maxsize; [done|].
  cbn [existsb strnlen_s]. rewrite (Z.eqb_sym 0 c). destruct (c =? 0); simpl; [eauto|]. intros H.
  destruct (maxsize =? 0); [eauto|]. destruct (IH (maxsize - 1) H) as [n ->]. simpl. eauto.
Qed.

Lemma string_chars_ok p precision :
  existsb (Z.eqb 0) p = true → ∃ cs, string_chars p 0 precision = Ok cs.
Proof.
  revert precision. induction p as [|c p IH]; intros precision; [done|].
  cbn [existsb string_chars]. rewrite (Z.eqb_sym 0 c). destruct (c =? 0); simpl; [eauto|]. intros H.
  destruct (IH (precision - 1) H) as [cs ->]. simpl. eauto.
Qed.

Lemma directive_int c f w va idx l :
  is_int_conv c = true →
  ∃ i l', directive collect 0 (c :: f) (VWord w :: va) idx l = Ok (i, l', va, f).
Proof.
  intros Hc.
  assert (directive collect 0 (c :: f) (VWord w :: va) idx l =
    (r ← write_all collect 0 (conv_int_chars c 0 0 0 (u32 w)) idx l; Ok (r, va, f))) as ->.
  { destruct (int_conv_cases c Hc) as [->|[->|[->|[->|[->|[->| ->]]]]]];
      unfold directive;
      cbn -[ntoa_long write_all conv_int_chars s32 u32];
      unfold conv_int; cbn -[ntoa_long write_all conv_int_chars s32 u32];
      rewrite ntoa_long_write; unfold conv_int_chars; cbn -[write_all ntoa_chars s32 u32];
      by write_cases. }
  destruct (write_all_collect (conv_int_chars c 0 0 0 (u32 w)) 0 idx l) as [i ->].
  by eexists _, _.
Qed.

Lemma directive_string f p va idx l :
  existsb (Z.eqb 0) p = true →
  ∃ i l', directive collect 0 (C "s" :: f) (VStr p :: va) idx l = Ok (i, l', va, f).
Proof.
  intros Hp. unfold directive. cbn -[conv_string]. unfold conv_string.
  cbn -[out_string out_spaces strnlen_s].
  destruct (strnlen_s_ok p UINT_MAX Hp) as [n ->]. 
  change (has 0 FLAGS_LEFT) with false. change (has 0 FLAGS_PRECISION) with false.
  cbn -[out_string out_spaces]. rewrite out_spaces_write.
  destruct (write_all_collect (replicate (Z.to_nat (0 - n)) (C " ")) 0 idx l) as [i ->].
  cbn -[out_string]. destruct (string_chars_ok p 0 Hp) as [cs Hcs].
  rewrite (out_string_write _ _ _ _ _ _ _ _ Hcs).
  destruct (write_all_collect cs 0 i (l ++ replicate (Z.to_nat (0 - n)) (C " "))) as [i' ->].
  by eexists _, _.
Qed.

Lemma directive_pointer f w va idx l :
  ∃ i l', directive collect 0 (C "p" :: f) (VWord w :: va) idx l = Ok (i, l', va, f).
Proof.
  unfold directive. cbn -[ntoa_long conv_pointer]. unfold conv_pointer.
  cbn -[ntoa_long]. rewrite ntoa_long_write.
  match goal with |- context [write_all collect 0 ?cs idx l] =>
    destruct (write_all_collect cs 0 idx l) as [i ->] end.
  by eexists _, _.
Qed.

Lemma simple_loop fuel fmt va idx l :
  simple_format fmt va = true → (length fmt < fuel)%nat →
  ∃ r, vsnprintf_loop collect 0 fuel fmt va idx l = Ok r.
Proof.
  revert fmt va idx l. induction fuel as [|fuel IH]; intros fmt va idx l; [lia|].
  destruct fmt as [|c f]; [done|]. cbn [simple_format vsnprintf_loop peek mbind res_bind tl length].
  destruct (c =? 0); [by eexists|]. destruct (c =? 37); cbn [negb].
  - destruct f as [|d f']; [done|]. destruct (is_int_conv d) eqn:Ed.
    + destruct va as [|[w|] va']; [done| |done]. intros Hs Hl.
      destruct (directive_int d f' w va' idx l Ed) as (i & l' & ->). cbn [mbind res_bind].
      apply IH; [done|simpl in Hl; lia].
    + destruct (Z.eqb_spec d 115) as [->|].
      { destruct va as [|[|p] va']; [done|done|]. intros [Hp Hs]%andb_true_iff Hl.
        destruct (directive_string f' p va' idx l Hp) as (i & l' & ->). cbn [mbind res_bind].
        apply IH; [done|simpl in Hl; lia]. }
      destruct (Z.eqb_spec d 112) as [->|]; [|done].
      destruct va as [|[w|] va']; [done| |done]. intros Hs Hl.
      destruct (directive_pointer f' w va' idx l) as (i & l' & ->). cbn [mbind res_bind].
      apply IH; [done|simpl in Hl; lia].
  - intros Hs Hl. change (collect c idx 0 l) with (Ok (l ++ [c])). cbn [mbind res_bind].
    apply IH; [done|lia].
Qed.

Lemma simple_format_ok fmt va :
  simple_format fmt va = true → ∃ cs, format_chars fmt va = Ok cs.
Proof.
  intros Hs. unfold format_chars.
  destruct (simple_loop (S (length fmt)) fmt va 0 [] Hs) as [[i cs] ->]; [lia|]. by exists cs.
Qed.

(* ------------------------------------------------------------------ *)
(** * Properties *)

(** C37: [snprintf_] never stores outside [buffer, buffer + count); it stores the
    first [count - 1] characters of the output followed by a NUL (nothing at all
    when [count] is 0), and returns the length of the whole output, truncated or
    not. *)
Theorem snprintf_spec buffer count fmt va cs m :
  buffer ≠ 0 → 0 <= buffer → 0 <= count → buffer + count <= 2 ^ 32 →
  mapped m buffer count →
  format_chars fmt va = Ok cs → Z.of_nat (length cs) < 2 ^ 31 →
  ∃ m', snprintf_ buffer count fmt va m = Ok (Z.of_nat (length cs), m') ∧
    same_outside buffer count m m' ∧
    (0 < count →
     let n := Z.min (Z.of_nat (length cs)) (count - 1) in
     m' !! (buffer + n) = Some 0 ∧
     ∀ i, 0 <= i < n → m' !! (buffer + i) = u8 <$> cs !! Z.to_nat i).
Proof.
  intros Hnz Hb Hc Hbc Hm Hf Hn. unfold snprintf_, vsnprintf_buffer.
  destruct (Z.eqb_spec buffer 0); [done|].
  destruct (vsnprintf_buffer_ok buffer count fmt va cs m) as (m' & He & Hx); [done..|].
  exists m'. split_and!; [done| |].
  - intros x Hout. rewrite Hx, decide_False by lia. done.
  - intros Hpos. split.
    + rewrite Hx, decide_True, decide_True by lia. done.
    + intros i Hi. rewrite Hx, decide_True, decide_False by lia. do 2 f_equal. lia.
Qed.

(** C36: The formatter always comes to an end: with the fuel [vsnprintf] gives its
    loop (one unit per character of the format), no format, argument list or
    output function that itself terminates makes it run out. *)
Theorem vsnprintf_total {X} (out : out_fct_type X) maxlen fmt va x :
  terminating out → vsnprintf out maxlen fmt va x ≠ NoFuel.
Proof.
  intros Hout. unfold vsnprintf. apply bind_nofuel.
  - apply loop_terminates; [done|lia].
  - intros [i x'] _. apply bind_nofuel; [apply Hout|done].
Qed.

(** What a call produces does not depend on where the output goes: any output
    function receives, one by one and with consecutive indices, exactly the
    characters of [format_chars], then the terminating NUL. *)
Theorem vsnprintf_output_independent fmt va cs X (out : out_fct_type X) maxlen x :
  format_chars fmt va = Ok cs →
  vsnprintf out maxlen fmt va x =
  ('(idx, x) ← write_all out maxlen cs 0 x;
   x ← out 0 (if idx <? maxlen then idx else u32 (maxlen - 1)) maxlen x;
   Ok (s32 idx, x)).
Proof. intros H. unfold vsnprintf. by rewrite (format_chars_write fmt va cs). Qed.

(** C38: Printing an integer with any of the conversions [d i u x X o b] and
    reading the digits back in the conversion's base gives the value: the signed
    value for [d] and [i], the unsigned one for the others. The 32-byte buffer is
    large enough for every base. *)
Theorem printf_int_roundtrip c w :
  is_int_conv c = true →
  ∃ cs, format_chars [C "%"; c; 0] [VWord w] = Ok cs ∧
    (if is_signed c then signed_number_of (base_of c) cs = Some (s32 w)
     else number_of (base_of c) cs = Some (u32 w)).
Proof.
  intros Hc. rewrite format_int_chars by done. eexists; split; [done|].
  assert (2 <= base_of c <= 36) as Hb by (unfold base_of; repeat case_match; lia).
  assert (2 ^ 32 <= base_of c ^ 32) as Hp by (apply Z.pow_le_mono_l; lia).
  assert (int_flags c 0 = 0 ∨ int_flags c 0 = FLAGS_UPPERCASE) as Hfl
    by (destruct (int_conv_cases c Hc) as [->|[->|[->|[->|[->|[->| ->]]]]]]; vm_compute; auto).
  unfold conv_int_chars. set (fl := int_flags c 0) in *.
  destruct (is_signed c) eqn:Hs.
  - assert (int_value fl (u32 w) = s32 w) as ->.
    { destruct Hfl as [-> | ->]; unfold int_value; simpl;
        unfold s32; by rewrite u32_u32. }
    assert (base_of c = 10) as Hb10.
    { destruct (int_conv_cases c Hc) as [->|[->|[->|[->|[->|[->| ->]]]]]]; done. }
    rewrite Hb10 in *. pose proof (s32_range w) as Hr. unfold is_s32 in Hr.
    set (a := if 0 <? s32 w then s32 w else 0 - s32 w).
    assert (0 <= a <= 2 ^ 31) as Ha by (unfold a; case_match; lia).
    rewrite (u32_small a) by (unfold is_u32; lia).
    assert (len (ntoa_digits 32 fl a 10 []) <= 10) as Hlen
      by (apply (ntoa_digits_short 32 fl a 10 10); lia).
    rewrite ntoa_chars_plain by (done || lia).
    pose proof (ntoa_digits_value 32 fl a 10 ltac:(lia) ltac:(lia) ltac:(lia)) as Hv.
    destruct (Z.ltb_spec (s32 w) 0) as [Hneg|Hpos]; cbn [app].
    + cbn [signed_number_of]. rewrite Hv. simpl. f_equal. unfold a.
      destruct (Z.ltb_spec 0 (s32 w)); lia.
    + rewrite (signed_number_of_digits _ _ _ Hv). f_equal. unfold a.
      destruct (Z.ltb_spec 0 (s32 w)); lia.
  - assert (uint_value fl (u32 w) = u32 w) as ->.
    { destruct Hfl as [-> | ->]; unfold uint_value; simpl; apply u32_u32. }
    pose proof (u32_range w) as Hr. unfold is_u32 in Hr.
    rewrite ntoa_chars_plain by (done || lia). cbn [app].
    apply ntoa_digits_value; lia.
Qed.

(** Text without ['%'] is copied up to where the next directive starts. *)
Lemma loop_text text rest fuel va idx l :
  Forall (λ c, c ≠ 0 ∧ c ≠ C "%") text →
  ∃ idx', vsnprintf_loop collect 0 (length text + fuel) (text ++ rest) va idx l =
    vsnprintf_loop collect 0 fuel rest va idx' (l ++ text).
Proof.
  intros H. revert idx l. induction H as [|c text [H0 H1] _ IH]; intros idx l.
  - exists idx. by rewrite app_nil_r.
  - destruct (IH (u32 (idx + 1)) (l ++ [c])) as [idx' He]. exists idx'.
    cbn [length app Nat.add vsnprintf_loop peek mbind res_bind tl].
    destruct (Z.eqb_spec c 0); [done|]. destruct (Z.eqb_spec c 37); [done|].
    cbn [negb]. change (collect c idx 0 l) with (Ok (l ++ [c])). cbn [mbind res_bind]. rewrite He. by rewrite <- app_assoc.
Qed.

(** A format that ends in a lone ['%'] makes the formatter step over the
    terminating NUL and read past the end of the string. *)
Theorem printf_lone_percent_overreads text va :
  Forall (λ c, c ≠ 0 ∧ c ≠ C "%") text →
  format_chars (text ++ [C "%"; 0]) va = Fault.
Proof.
  intros H. unfold format_chars.
  replace (S (length (text ++ [37; 0]))) with (length text + 3)%nat
    by (rewrite length_app; simpl; lia).
  destruct (loop_text text [37; 0] 3 va 0 [] H) as [idx' ->]. done.
Qed.

(* ------------------------------------------------------------------ *)
(** * Concrete inputs *)

(** [snprintf_(buf, 4, "%d!", 1234)] with a buffer at 4096. *)
Lemma snprintf_spec_witness :
  ∃ m', snprintf_ 4096 4 (cstr "%d!") [VWord 1234] (map_zeros 4096 4 ∅) = Ok (5, m') ∧
    same_outside 4096 4 (map_zeros 4096 4 ∅) m' ∧ m' !! (4096 + 3) = Some 0.
Proof.
  destruct (snprintf_spec 4096 4 (cstr "%d!") [VWord 1234] (chars "1234!") (map_zeros 4096 4 ∅))
    as (m' & He & Hs & Hn); try lia; [apply map_zeros_mapped|vm_compute; reflexivity|
      vm_compute; reflexivity|].
  exists m'. split_and!; [exact He|exact Hs|apply Hn; lia].
Defined.

Lemma vsnprintf_total_witness :
  vsnprintf collect 0 (cstr "%08.3x|%-5s") [VWord 255; VStr (cstr "ok")] [] ≠ NoFuel.
Proof. apply vsnprintf_total. intros c idx maxlen x. discriminate. Defined.

Lemma vsnprintf_output_independent_witness :
  vsnprintf collect UINT_MAX (cstr "a%db") [VWord 7] [] =
  ('(idx, x) ← write_all collect UINT_MAX (chars "a7b") 0 [];
   x ← collect 0 (if idx <? UINT_MAX then idx else u32 (UINT_MAX - 1)) UINT_MAX x;
   Ok (s32 idx, x)).
Proof. apply vsnprintf_output_independent. vm_compute. reflexivity. Defined.

Lemma printf_int_roundtrip_witness :
  ∃ cs, format_chars [C "%"; C "d"; 0] [VWord (-42)] = Ok cs ∧
    signed_number_of 10 cs = Some (-42).
Proof. apply (printf_int_roundtrip (C "d") (-42)). reflexivity. Defined.

Lemma printf_lone_percent_overreads_witness :
  format_chars (cstr "50%") [] = Fault.
Proof.
  apply (printf_lone_percent_overreads (chars "50") []).
  repeat constructor; discriminate.
Defined.
