(* ===== verification/MathUtils.v ===== *)
(** src/klibc/math_utils.c and src/klibc/bitwise_utils.c: division helpers,
    counting trailing zeroes and swapping the bytes of a word.  [Fault] stands for
    the operations C leaves undefined (division by zero, shifts by the width). *)
From S2P Require Import Prelude Machine.
From stdpp Require Import base list.
From Stdlib Require Import ZArith Lia.
#[local] Open Scope Z_scope.

Record div_t := DivT { quot : Z; rem : Z }.

(** [div]: signed division truncates; [LONG_MIN / -1] overflows. *)
Definition div (a b : Z) : res div_t :=
  if (b =? 0) || ((a =? - 2 ^ 31) && (b =? -1)) then Fault
  else Ok (DivT (Z.quot a b) (Z.rem a b)).

Definition udiv_and_ceil (a b : Z) : res Z :=
  if b =? 0 then Fault
  else Ok (u32 (a / b + (if a mod b =? 0 then 0 else 1))).

(** The quotient and the remainder are stored in fields of type [long]. *)
Definition udiv_py_power_of_2 (a power_of_two : Z) : res div_t :=
  if 32 <=? power_of_two then Fault
  else
    let significant_bits := u32 (Z.shiftl UINT_MAX power_of_two) in
    Ok (DivT (s32 (Z.shiftr a power_of_two))
             (s32 (Z.land a (u32 (Z.lnot significant_bits))))).

(** The portable [count_trailing_zeroes]; [fuel] counts down the 32 rounds. *)
Fixpoint ctz_from (fuel : nat) (x i : Z) : Z :=
  match fuel with
  | O => 32
  | S fuel' => if Z.land 1 (Z.shiftr x i) =? 0 then ctz_from fuel' x (i + 1) else i
  end.
Definition count_trailing_zeroes (x : Z) : Z := ctz_from 32 x 0.

Definition BYTE_MASK (byte_no : Z) : Z := u32 (Z.shiftl 255 (8 * byte_no)).

Definition byte_swap_32 (original : Z) : Z :=
  Z.lor (Z.lor (Z.lor
    (u32 (Z.shiftl (Z.land original (BYTE_MASK 0)) 24))
    (u32 (Z.shiftl (Z.land original (BYTE_MASK 1)) 8)))
    (Z.shiftr (Z.land original (BYTE_MASK 2)) 8))
    (Z.shiftr (Z.land original (BYTE_MASK 3)) 24).

(* ------------------------------------------------------------------ *)
(** * Lemmas *)

Lemma ctz_from_spec fuel x i :
  0 <= i → i + Z.of_nat fuel = 32 →
  let r := ctz_from fuel x i in
  i <= r <= 32 ∧ (∀ j, i <= j < r → Z.testbit x j = false) ∧
  (r < 32 → Z.testbit x r = true).
Proof.
  revert i. induction fuel as [|fuel IH]; intros i Hi Hf; cbn [ctz_from].
  - split_and!; intros; lia.
  - assert (Z.land 1 (Z.shiftr x i) = b2z (Z.testbit x i)) as ->.
    { rewrite Z.land_comm. change 1 with (Z.ones 1). rewrite Z.land_ones by lia.
      change (2 ^ 1) with 2. rewrite <- Z.bit0_mod, Z.shiftr_spec by lia.
      rewrite Z.add_0_l. by destruct (Z.testbit x i). }
    destruct (Z.testbit x i) eqn:E; cbn [b2z Z.eqb].
    + split_and!; intros; try lia. done.
    + destruct (IH (i + 1)) as (H1 & H2 & H3); [lia..|].
      split_and!; [lia|lia| |done]. intros j Hj.
      destruct (decide (j = i)) as [->|]; [done|]. apply H2. lia.
Qed.

(** For a word other than zero: the index of the lowest set bit. *)
Lemma ctz_lowest x :
  is_u32 x → x ≠ 0 →
  0 <= count_trailing_zeroes x < 32 ∧ Z.testbit x (count_trailing_zeroes x) = true ∧
  ∀ j, 0 <= j < count_trailing_zeroes x → Z.testbit x j = false.
Proof.
  intros Hx Hnz. destruct (ctz_from_spec 32 x 0) as (H1 & H2 & H3); [lia..|].
  fold (count_trailing_zeroes x) in *.
  destruct (decide (count_trailing_zeroes x = 32)) as [E|E].
  - exfalso. apply Hnz. apply u32_bits_inj; [done|unfold is_u32; lia|].
    intros i Hi. rewrite H2 by lia. by rewrite Z.testbit_0_l.
  - split_and!; [lia..| |done]. apply H3. lia.
Qed.

Lemma testbit_byte_mask k i :
  0 <= k <= 3 → 0 <= i → Z.testbit (BYTE_MASK k) i = (8 * k <=? i) && (i <? 8 * k + 8).
Proof.
  intros. unfold BYTE_MASK. change 255 with (Z.ones 8).
  rewrite testbit_u32, Z.shiftl_spec by lia.
  destruct (Z.leb_spec (8 * k) i); simpl.
  - rewrite testbit_ones by lia.
    destruct (Z.ltb_spec i 32), (Z.ltb_spec (i - 8 * k) 8), (Z.ltb_spec i (8 * k + 8));
      simpl; done || lia.
  - rewrite Z.testbit_neg_r by lia. apply andb_false_r.
Qed.

Lemma byte_mask_in k i :
  0 <= k <= 3 → 8 * k <= i < 8 * k + 8 → Z.testbit (BYTE_MASK k) i = true.
Proof. intros. rewrite testbit_byte_mask by lia. lia. Qed.

Lemma byte_mask_out k i :
  0 <= k <= 3 → i < 8 * k ∨ 8 * k + 8 <= i → Z.testbit (BYTE_MASK k) i = false.
Proof.
  intros. destruct (Z_lt_le_dec i 0); [by apply Z.testbit_neg_r|].
  rewrite testbit_byte_mask by lia. lia.
Qed.

Lemma byte_swap_range x : is_u32 (byte_swap_32 x).
Proof.
  unfold byte_swap_32.
  assert (∀ k, 0 <= k <= 3 → is_u32 (Z.land x (BYTE_MASK k))) as Hm.
  { intros k Hk. rewrite Z.land_comm. apply land_u32_l, u32_range. }
  assert (∀ y n, 0 <= n → is_u32 y → is_u32 (Z.shiftr y n)) as Hs.
  { intros y n Hn Hy. rewrite Z.shiftr_div_pow2 by lia. unfold is_u32 in *.
    split; [apply Z.div_pos; lia|]. apply Z.div_lt_upper_bound; [lia|]. nia. }
  repeat apply lor_u32; auto using u32_range; apply Hs; try lia; apply Hm; lia.
Qed.

(** Bit [8 * k + j] of the result is bit [8 * (3 - k) + j] of the argument. *)
Lemma testbit_byte_swap x k j :
  0 <= k <= 3 → 0 <= j < 8 →
  Z.testbit (byte_swap_32 x) (8 * k + j) = Z.testbit x (8 * (3 - k) + j).
Proof.
  intros Hk Hj. unfold byte_swap_32.
  rewrite !Z.lor_spec, !Z.shiftr_spec, !testbit_u32, !Z.shiftl_spec by lia.
  rewrite !Z.land_spec.
  assert (k = 0 ∨ k = 1 ∨ k = 2 ∨ k = 3) as [->|[->|[->| ->]]] by lia;
    repeat match goal with
    | |- context [Z.testbit (BYTE_MASK ?q) ?i] =>
        (rewrite (byte_mask_in q i) by lia) || (rewrite (byte_mask_out q i) by lia)
    | |- context [?a <? 32] => destruct (Z.ltb_spec a 32); [|lia]
    end; rewrite ?andb_false_r, ?andb_true_r, ?orb_false_r; cbn [andb orb];
    rewrite ?orb_false_r; f_equal; lia.
Qed.

(* ------------------------------------------------------------------ *)
(** * Properties *)

(** [count_trailing_zeroes] returns the index of the lowest set bit, and 32
    exactly for zero. *)
Theorem count_trailing_zeroes_spec x :
  is_u32 x →
  let r := count_trailing_zeroes x in
  (r = 32 ↔ x = 0) ∧ (∀ j, 0 <= j < r → Z.testbit x j = false) ∧
  (r < 32 → 0 <= r ∧ Z.testbit x r = true).
Proof.
  intros Hx r. destruct (ctz_from_spec 32 x 0) as (H1 & H2 & H3); [lia..|].
  fold (count_trailing_zeroes x) in H1, H2, H3. fold r in H1, H2, H3.
  split_and!; [|done|by intros; split; [lia|apply H3]].
  split.
  - intros E. apply u32_bits_inj; [done|unfold is_u32; lia|].
    intros i Hi. rewrite H2 by lia.
    by rewrite Z.testbit_0_l.
  - intros ->. done.
Qed.

(** The quotients: [udiv_and_ceil] is the ceiling of the quotient, without
    overflow for a divisor above one, and [udiv_py_power_of_2] is division by the
    power of two whenever the quotient fits the signed field. *)
Theorem division_helpers a b p :
  is_u32 a → 1 < b < 2 ^ 32 → 0 <= p < 32 → Z.shiftr a p < 2 ^ 31 →
  udiv_and_ceil a b = Ok ((a + b - 1) / b) ∧
  udiv_py_power_of_2 a p = Ok (DivT (a / 2 ^ p) (a mod 2 ^ p)).
Proof.
  intros Ha Hb Hp Hq. split.
  - unfold udiv_and_ceil. destruct (Z.eqb_spec b 0); [lia|].
    assert (a / b + (if a mod b =? 0 then 0 else 1) = (a + b - 1) / b) as ->.
    { destruct (Z.eqb_spec (a mod b) 0) as [E|E].
      - apply Z.div_unique with (b - 1); [lia|]. pose proof (Z.div_mod a b). lia.
      - apply Z.div_unique with (a mod b - 1); [|pose proof (Z.div_mod a b); lia].
        pose proof (Z.mod_pos_bound a b). lia. }
    rewrite u32_small; [done|]. unfold is_u32 in *. split; [apply Z.div_pos; lia|].
    apply Z.div_lt_upper_bound; [lia|]. nia.
  - unfold udiv_py_power_of_2. destruct (Z.leb_spec 32 p); [lia|].
    assert (0 <= Z.shiftr a p) as Hnn by (apply Z.shiftr_nonneg; unfold is_u32 in *; lia).
    rewrite s32_small by (unfold is_s32; lia). rewrite Z.shiftr_div_pow2 by lia.
    assert (Z.land a (u32 (Z.lnot (u32 (Z.shiftl UINT_MAX p)))) = a mod 2 ^ p) as ->.
    { rewrite <- Z.land_ones by lia. apply Z.bits_inj'. intros i Hi.
      rewrite !Z.land_spec, testbit_ones by lia.
      destruct (Z_lt_le_dec i 32); [|by rewrite testbit_high_u32].
      f_equal. rewrite testbit_u32, Z.lnot_spec, testbit_u32, Z.shiftl_spec by lia.
      destruct (Z.ltb_spec i 32); [|lia]. simpl.
      destruct (Z.ltb_spec i p).
      - rewrite Z.testbit_neg_r by lia. done.
      - rewrite testbit_word_max by lia. done. }
    pose proof (Z.mod_pos_bound a (2 ^ p) ltac:(apply Z.pow_pos_nonneg; lia)).
    assert (2 ^ p <= 2 ^ 31) by (apply Z.pow_le_mono_r; lia).
    rewrite s32_small by (unfold is_s32; lia). done.
Qed.

(** [byte_swap_32] reverses the four bytes of a word, and is its own inverse. *)
Theorem byte_swap_32_reverses x :
  is_u32 x →
  (∀ k, 0 <= k < 4 → byte_of (byte_swap_32 x) k = byte_of x (3 - k)) ∧
  byte_swap_32 (byte_swap_32 x) = x.
Proof.
  intros Hx. split.
  - intros k Hk. apply Z.bits_inj'. intros i Hi.
    unfold byte_of. change 255 with (Z.ones 8).
    rewrite !Z.land_spec, !Z.shiftr_spec, testbit_ones by lia.
    destruct (Z.ltb_spec i 8); [|by rewrite !andb_false_r].
    rewrite (Z.add_comm i), testbit_byte_swap by lia. do 2 f_equal. lia.
  - apply u32_bits_inj; [apply byte_swap_range|done|]. intros i Hi.
    pose proof (Z.div_mod i 8 ltac:(lia)). pose proof (Z.mod_pos_bound i 8).
    replace i with (8 * (i / 8) + i mod 8) by lia.
    assert (0 <= i / 8 <= 3) by (split; [apply Z.div_pos; lia|
      apply Z.lt_succ_r, Z.div_lt_upper_bound; lia]).
    rewrite !testbit_byte_swap by lia. f_equal. lia.
Qed.

Lemma count_trailing_zeroes_spec_witness :
  (count_trailing_zeroes 40 = 32 ↔ 40 = 0) ∧ Z.testbit 40 3 = true.
Proof.
  split; [apply (count_trailing_zeroes_spec 40); unfold is_u32; lia|reflexivity].
Defined.

Lemma division_helpers_witness :
  udiv_and_ceil 32769 32 = Ok 1025 ∧ udiv_py_power_of_2 32769 12 = Ok (DivT 8 1).
Proof. apply (division_helpers 32769 32 12); unfold is_u32; vm_compute; intuition congruence. Defined.

Lemma byte_swap_32_reverses_witness : byte_swap_32 (byte_swap_32 3490578157) = 3490578157.
Proof. apply (byte_swap_32_reverses 3490578157); unfold is_u32; lia. Defined.
