(* ===== verification/Console.v ===== *)
(** Interrupt masking (src/riscv/interrupts/interrupts.c), the UART
    (src/drivers/uart.c), [printf_] on it, and the ways the kernel stops: [halt]
    (src/riscv/halt.c), [DEBUG_ASSERT] (src/klibc/k_assert.h) and [KERNEL_PANIC]
    (src/klibc/panic.h). *)
From S2P Require Import Prelude Machine Registers Printf.
From stdpp Require Import base list gmap.
From Stdlib Require Import ZArith Lia.
From Stdlib Require String.
#[local] Open Scope Z_scope.

(** [mstatus.field = v], as a read, a change of the union and a write. *)
Definition disable_interrupts : K unit :=
  raw ← READ_CSR mstatus;
  WRITE_CSR mstatus (put_field mstatus_32 "machine_interrupt_enable" 0 raw).

Definition enable_interrupts : K unit :=
  raw ← READ_CSR mstatus;
  WRITE_CSR mip 0;;
  WRITE_CSR mstatus (put_field mstatus_32 "machine_interrupt_enable" 1 raw).

(** [halt] masks interrupts and never leaves its [wfi] loop. *)
Definition park {A} : K A := fun s => Halted s.
Definition halt {A} : K A := disable_interrupts;; park.

Definition putchar_event (c : Z) (s : kstate) : kstate :=
  add_event (Mmio8 (u32 (uart_base s + uart_register_offset UART_RECEIVER_BUFF)) (u8 c)) s.

Definition _putchar (c : Z) : K unit := modify (putchar_event c).

(** [_out_char]: the character goes to the UART unless it is NUL. *)
Definition out_char : out_fct_type kstate := fun c _ _ s =>
  if c =? 0 then Ok s else Ok (putchar_event c s).

Definition vprintf_ (fmt : list Z) (va : list varg) : K Z := fun s =>
  match vsnprintf out_char UINT_MAX fmt va s with
  | Ok (n, s') => Ret n s'
  | Fault => Faulted s
  | NoFuel => OutOfFuel
  end.
Definition printf_ (fmt : String.string) (va : list varg) : K Z := vprintf_ (cstr fmt) va.
Arguments printf_ fmt%_string_scope va.

(** [uart_print]: the characters of a string, up to its NUL. *)
Fixpoint uart_print (str : list Z) : K unit :=
  match str with
  | [] => fault
  | c :: str' => if c =? 0 then mret tt else _putchar c;; uart_print str'
  end.

Definition uart_println (str : list Z) : K unit := uart_print str;; _putchar 10.

(** The line feed that ends most messages. *)
Definition NL : String.string := String.String (Ascii.ascii_of_nat 10) String.EmptyString.
#[local] Open Scope string_scope.

Section with_platform.
Context `{Platform}.

(** [DEBUG_ASSERT]: with [NDEBUG] it is nothing; the text of the condition is
    part of the format string, as the macro has it. *)
Definition DEBUG_ASSERT (condition : bool) (text file function : String.string) (line : Z) :
    K unit :=
  if ndebug then mret tt
  else if condition then mret tt
  else
    printf_ (String.append "-----------------------------------" NL) [];;
    printf_ (String.append "[HALT] Assertion failed: " (String.append text
               (String.append " evaluates to 'false'" (String.append NL
               (String.append "at %s: in function %s, line %d" NL)))))
      [VStr (cstr file); VStr (cstr function); VWord line];;
    halt.

Definition DEBUG_ASSERT_WITH_MSG (condition : bool) (fmt : String.string) (va : list varg) :
    K unit :=
  if ndebug then mret tt
  else if condition then mret tt else printf_ fmt va;; halt.
End with_platform.

Definition KERNEL_PANIC {A} (fmt : String.string) (va : list varg) : K A :=
  printf_ "[PANIC] halting: " [];; printf_ fmt va;; _putchar 10;; halt.

#[local] Close Scope string_scope.
Arguments DEBUG_ASSERT {_} condition (text file function)%_string_scope line.
Arguments DEBUG_ASSERT_WITH_MSG {_} condition fmt%_string_scope va.
Arguments KERNEL_PANIC {A} fmt%_string_scope va.

(* ------------------------------------------------------------------ *)
(** * Lemmas *)

(** A state with more events. *)
Definition extend (t : list event) (s : kstate) : kstate :=
  let 'KState m a b c d e f g h i j k l n o p := s in
  KState m a b c (t ++ d) e f g h i j k l n o p.

Lemma extend_nil s : extend [] s = s.
Proof. by destruct s. Qed.

Lemma extend_extend t t' s : extend t (extend t' s) = extend (t ++ t') s.
Proof. destruct s. simpl. by rewrite <- app_assoc. Qed.

Lemma add_event_extend e s : add_event e s = extend [e] s.
Proof. by destruct s. Qed.

Section extend_fields.
Context (t : list event) (s : kstate).
Lemma k_mem_extend : k_mem (extend t s) = k_mem s. Proof. by destruct s. Qed.
Lemma k_csr_extend : k_csr (extend t s) = k_csr s. Proof. by destruct s. Qed.
Lemma k_mode_extend : k_mode (extend t s) = k_mode s. Proof. by destruct s. Qed.
Lemma k_pc_extend : k_pc (extend t s) = k_pc s. Proof. by destruct s. Qed.
Lemma k_trace_extend : k_trace (extend t s) = t ++ k_trace s. Proof. by destruct s. Qed.
Lemma ram_regions_extend : ram_regions (extend t s) = ram_regions s. Proof. by destruct s. Qed.
Lemma ram_regions_index_extend : ram_regions_index (extend t s) = ram_regions_index s.
Proof. by destruct s. Qed.
Lemma physical_bitmap_extend : physical_bitmap_ (extend t s) = physical_bitmap_ s.
Proof. by destruct s. Qed.
Lemma clint_addr_extend : clint_addr (extend t s) = clint_addr s. Proof. by destruct s. Qed.
Lemma present_timer_extend : present_timer (extend t s) = present_timer s.
Proof. by destruct s. Qed.
Lemma shutdown_ptr_extend : shutdown_ptr (extend t s) = shutdown_ptr s. Proof. by destruct s. Qed.
Lemma uart_base_extend : uart_base (extend t s) = uart_base s. Proof. by destruct s. Qed.
Lemma set_mem_extend m : set_mem m (extend t s) = extend t (set_mem m s).
Proof. by destruct s. Qed.
Lemma set_bitmap_extend b : set_bitmap b (extend t s) = extend t (set_bitmap b s).
Proof. by destruct s. Qed.
Lemma set_mem_set_mem m m' : set_mem m (set_mem m' s) = set_mem m s.
Proof. by destruct s. Qed.
Lemma set_bitmap_set_mem b m : set_bitmap b (set_mem m s) = set_mem m (set_bitmap b s).
Proof. by destruct s. Qed.
Lemma k_mem_set_mem m : k_mem (set_mem m s) = m. Proof. by destruct s. Qed.
Lemma k_mem_set_bitmap b : k_mem (set_bitmap b s) = k_mem s. Proof. by destruct s. Qed.
Lemma physical_bitmap_set_mem m : physical_bitmap_ (set_mem m s) = physical_bitmap_ s.
Proof. by destruct s. Qed.
Lemma physical_bitmap_set_bitmap b : physical_bitmap_ (set_bitmap b s) = b.
Proof. by destruct s. Qed.
Lemma set_regions_extend l n : set_regions l n (extend t s) = extend t (set_regions l n s).
Proof. by destruct s. Qed.
End extend_fields.

#[export] Hint Rewrite k_mem_extend k_csr_extend k_mode_extend k_pc_extend k_trace_extend
  ram_regions_extend ram_regions_index_extend physical_bitmap_extend clint_addr_extend
  present_timer_extend shutdown_ptr_extend uart_base_extend set_mem_extend
  set_bitmap_extend set_regions_extend extend_extend set_mem_set_mem set_bitmap_set_mem
  k_mem_set_mem k_mem_set_bitmap physical_bitmap_set_mem physical_bitmap_set_bitmap : kernel.

(** The characters a list of UART stores sends, as events with the newest first. *)
Definition sent (base : Z) (cs : list Z) : list event :=
  rev (map (fun c => Mmio8 (u32 base) (u8 c)) (filter (fun c => c ≠ 0) cs)).

Lemma write_all_char cs idx s :
  ∃ i, write_all out_char UINT_MAX cs idx s = Ok (i, extend (sent (uart_base s) cs) s).
Proof.
  revert idx s. induction cs as [|c cs IH]; intros idx s; simpl.
  - exists idx. unfold sent. simpl. by rewrite extend_nil.
  - change (out_char c idx UINT_MAX s) with
      (if c =? 0 then Ok s else Ok (putchar_event c s)).
    destruct (Z.eqb_spec c 0) as [->|Hc]; cbn [mbind res_bind].
    + destruct (IH (u32 (idx + 1)) s) as [i ->]. exists i. unfold sent.
      by rewrite filter_cons_False by lia.
    + destruct (IH (u32 (idx + 1)) (putchar_event c s)) as [i ->]. exists i.
      unfold putchar_event. rewrite add_event_extend. autorewrite with kernel.
      unfold sent. rewrite filter_cons_True by lia. cbn [map rev].
      by rewrite Z.add_0_r.
Qed.

(** [printf_] succeeds on a well-formed format and only adds UART stores. *)
Lemma vprintf_ok fmt va cs s :
  format_chars fmt va = Ok cs →
  ∃ n, vprintf_ fmt va s = Ret n (extend (sent (uart_base s) cs) s).
Proof.
  intros Hf. unfold vprintf_, vsnprintf. rewrite (format_chars_write fmt va cs) by done.
  destruct (write_all_char cs 0 s) as [i ->]. cbn [mbind res_bind].
  eexists. done.
Qed.

Lemma runs_printf fmt va cs s (Q : Z → kstate → Prop) :
  format_chars (cstr fmt) va = Ok cs →
  (∀ n, Q n (extend (sent (uart_base s) cs) s)) → runs (printf_ fmt va) s Q.
Proof.
  intros Hf HQ. unfold runs, printf_. destruct (vprintf_ok _ _ _ s Hf) as [n ->]. apply HQ.
Qed.

(** The kernel's own messages always format: only UART stores are added. *)
Lemma printf_simple fmt va s :
  simple_format (cstr fmt) va = true → ∃ n t, printf_ fmt va s = Ret n (extend t s).
Proof.
  intros [cs Hcs]%simple_format_ok. destruct (vprintf_ok _ _ _ s Hcs) as [n Hn].
  by exists n, (sent (uart_base s) cs).
Qed.
Arguments printf_simple fmt%_string_scope va s.

(** One such call in front of the rest. *)
Ltac step_printf :=
  match goal with
  | |- context [((printf_ ?f ?v) ≫= ?k) ?s] =>
      let n := fresh "n" in let t := fresh "t" in let E := fresh "E" in
      destruct (printf_simple f v s eq_refl) as (n & t & E);
      rewrite (bind_ret _ k _ _ _ E); clear E
  end.

(** The machine state in which [halt] parks the hart. *)
Definition mask_interrupts (s : kstate) : kstate :=
  let v := u32 (put_field mstatus_32 "machine_interrupt_enable" 0 (k_csr s mstatus)) in
  add_event (CsrWrite mstatus v)
    (set_csrs (fun r => if decide (r = mstatus) then v else k_csr s r) s).

Lemma halt_eq {A} s : @halt A s = Halted (mask_interrupts s).
Proof. done. Qed.

(** Extending the mask: printing before masking is printing after it, reordered. *)
Lemma k_csr_mask s r :
  k_csr (mask_interrupts s) r =
  if decide (r = mstatus)
  then u32 (put_field mstatus_32 "machine_interrupt_enable" 0 (k_csr s mstatus)) else k_csr s r.
Proof. by destruct s. Qed.

(** A failed assertion prints and parks the hart. *)
Lemma debug_assert_fails `{Platform} text file function line s cs :
  ndebug = false →
  format_chars (cstr (String.append "[HALT] Assertion failed: " (String.append text
    (String.append " evaluates to 'false'" (String.append NL
      (String.append "at %s: in function %s, line %d" NL))))))
    [VStr (cstr file); VStr (cstr function); VWord line] = Ok cs →
  ∃ t, DEBUG_ASSERT false text file function line s = Halted (mask_interrupts (extend t s)).
Proof.
  intros Hd Hf. unfold DEBUG_ASSERT. rewrite Hd. unfold printf_, mbind, K_bind.
  destruct (vprintf_ok (cstr (String.append "-----------------------------------" NL)) []
    (chars (String.append "-----------------------------------" NL)) s) as [n1 ->];
    [vm_compute; reflexivity|].
  destruct (vprintf_ok _ _ _
    (extend (sent (uart_base s) (chars (String.append "-----------------------------------" NL))) s) Hf)
    as [n2 ->].
  rewrite halt_eq, extend_extend. by eexists.
Qed.

Arguments debug_assert_fails {_} (text file function)%_string_scope line s cs.

Lemma debug_assert_holds `{Platform} condition text file function line s :
  ndebug = true ∨ condition = true →
  DEBUG_ASSERT condition text file function line s = Ret tt s.
Proof. intros H'. unfold DEBUG_ASSERT. destruct ndebug, condition, H'; done. Qed.

(** [KERNEL_PANIC] prints its message and parks the hart. *)
Lemma panic_halts {A} fmt va s cs :
  format_chars (cstr fmt) va = Ok cs →
  ∃ t, @KERNEL_PANIC A fmt va s = Halted (mask_interrupts (extend t s)).
Proof.
  intros Hf. unfold KERNEL_PANIC, printf_, mbind, K_bind.
  destruct (vprintf_ok (cstr "[PANIC] halting: ") [] (chars "[PANIC] halting: ") s) as [n1 ->];
    [vm_compute; reflexivity|].
  destruct (vprintf_ok _ _ _ (extend (sent (uart_base s) (chars "[PANIC] halting: ")) s) Hf)
    as [n2 ->].
  unfold _putchar, modify, putchar_event. rewrite halt_eq, add_event_extend, !extend_extend.
  by eexists.
Qed.
Arguments panic_halts {A} fmt%_string_scope va s cs.

(** The bits of the fields of mstatus that the kernel writes. *)
Lemma machine_interrupt_enable_bit raw i :
  0 <= i →
  Z.testbit (put_field mstatus_32 "machine_interrupt_enable" 0 raw) i =
  negb (i =? 3) && Z.testbit raw i.
Proof.
  intros Hi. rewrite (put_field_testbit _ _ _ _ 3 1) by (auto with kernel).
  destruct (Z.eqb_spec i 3) as [->|]; [done|].
  destruct (Z.leb_spec 3 i), (Z.ltb_spec i (3 + 1)); simpl; lia || done.
Qed.

(** A parked hart has machine interrupts masked. *)
Lemma mask_interrupts_bit s : Z.testbit (k_csr (mask_interrupts s) mstatus) 3 = false.
Proof.
  rewrite k_csr_mask, decide_True by done.
  rewrite testbit_u32 by lia. by rewrite machine_interrupt_enable_bit by lia.
Qed.

Lemma panic_simple {A} fmt va s :
  simple_format (cstr fmt) va = true →
  ∃ s', @KERNEL_PANIC A fmt va s = Halted s' ∧ Z.testbit (k_csr s' mstatus) 3 = false.
Proof.
  intros [cs Hcs]%simple_format_ok. destruct (panic_halts (A := A) fmt va s cs Hcs) as [t Ht].
  eexists. split; [done|apply mask_interrupts_bit].
Qed.
Arguments panic_simple {A} fmt%_string_scope va s.

(** A message with one string argument at its end. *)
Lemma simple_string s : existsb (Z.eqb 0) (cstr s) = true.
Proof. unfold cstr. rewrite existsb_app. cbn. apply orb_true_r. Qed.

(* ------------------------------------------------------------------ *)
(** * Quiet computations *)

(** A computation that leaves registers and mode alone while it runs, and that
    stops, if it does, only by parking the hart with interrupts masked. *)
Definition quiet {A} (k : K A) : Prop := ∀ s,
  match k s with
  | Ret _ s' => k_csr s' = k_csr s ∧ k_mode s' = k_mode s
  | Halted s' => Z.testbit (k_csr s' mstatus) 3 = false ∧ k_mode s' = k_mode s
  | Entered _ | Unreachable _ => False
  | Faulted _ | OutOfFuel => True
  end.

Lemma quiet_ret {A} (a : A) : quiet (mret a).
Proof. by intros s. Qed.

Lemma quiet_gets {A} (f : kstate → A) : quiet (gets f).
Proof. by intros s. Qed.

Lemma quiet_fault {A} : quiet (@fault A).
Proof. by intros s. Qed.

Lemma quiet_bind {A B} (k : K A) (f : A → K B) :
  quiet k → (∀ a, quiet (f a)) → quiet (k ≫= f).
Proof.
  intros Hk Hf s. specialize (Hk s). unfold mbind, K_bind.
  destruct (k s) as [a s1|s1|s1|s1|s1|]; [|done..]. destruct Hk as [Hc Hm].
  specialize (Hf a s1). destruct (f a s1); rewrite ?Hc, ?Hm in Hf; done.
Qed.

Lemma quiet_modify f :
  (∀ s, k_csr (f s) = k_csr s ∧ k_mode (f s) = k_mode s) → quiet (modify f).
Proof. intros H s. apply H. Qed.

Lemma quiet_lift {A} (r : res A) : quiet (lift r).
Proof. intros s. by destruct r. Qed.

Lemma quiet_reading {A} (f : mem → res A) : quiet (reading f).
Proof. intros s. unfold reading. by destruct (f (k_mem s)). Qed.

Lemma quiet_writing {A} (f : mem → res (A * mem)) : quiet (writing f).
Proof.
  intros s. unfold writing. destruct (f (k_mem s)) as [[a m]| |]; [|done..]. by destruct s.
Qed.

Lemma quiet_when (b : bool) k : quiet k → quiet (when b k).
Proof. intros H. unfold when. destruct b; [done|apply quiet_ret]. Qed.

Lemma quiet_vprintf fmt va cs : format_chars fmt va = Ok cs → quiet (vprintf_ fmt va).
Proof.
  intros H s. destruct (vprintf_ok fmt va cs s H) as [n ->]. by destruct s.
Qed.

Lemma quiet_simple fmt va : simple_format (cstr fmt) va = true → quiet (printf_ fmt va).
Proof. intros [cs Hcs]%simple_format_ok. by apply (quiet_vprintf _ _ cs). Qed.

Lemma quiet_putchar c : quiet (_putchar c).
Proof. apply quiet_modify. by intros []. Qed.

Lemma quiet_halt {A} : quiet (@halt A).
Proof.
  intros s. rewrite halt_eq. split; [apply mask_interrupts_bit|by destruct s].
Qed.

Lemma quiet_panic {A} fmt va :
  simple_format (cstr fmt) va = true → quiet (@KERNEL_PANIC A fmt va).
Proof.
  intros H. unfold KERNEL_PANIC. apply quiet_bind; [by apply quiet_simple|intros _].
  apply quiet_bind; [by apply quiet_simple|intros _].
  apply quiet_bind; [apply quiet_putchar|intros _]. apply quiet_halt.
Qed.

(** The message of a failing assertion formats. *)
Definition assert_formats (text file function : String.string) (line : Z) : Prop :=
  ∃ cs, format_chars (cstr (String.append "[HALT] Assertion failed: " (String.append text
    (String.append " evaluates to 'false'" (String.append NL
      (String.append "at %s: in function %s, line %d" NL))))))
    [VStr (cstr file); VStr (cstr function); VWord line] = Ok cs.
Arguments assert_formats (text file function)%_string_scope line.

Lemma quiet_assert `{Platform} condition text file function line :
  assert_formats text file function line → quiet (DEBUG_ASSERT condition text file function line).
Proof.
  intros [cs Hcs]. unfold DEBUG_ASSERT. destruct ndebug; [apply quiet_ret|].
  destruct condition; [apply quiet_ret|].
  apply quiet_bind; [by apply quiet_simple|intros _].
  apply quiet_bind; [by apply (quiet_vprintf _ _ cs)|intros _]. apply quiet_halt.
Qed.

(** Proves that composed code is quiet, from the lemmas above and the hints. *)
Create HintDb quiet.
Ltac quiet_step :=
  match goal with
  | |- quiet (mret _) => apply quiet_ret
  | |- quiet (gets _) => apply quiet_gets
  | |- quiet (lift _) => apply quiet_lift
  | |- quiet (reading _) => apply quiet_reading
  | |- quiet (writing _) => apply quiet_writing
  | |- quiet fault => apply quiet_fault
  | |- quiet (READ_CSR _) => apply quiet_gets
  | |- quiet (modify _) => apply quiet_modify; solve [by intros []]
  | |- quiet (when _ _) => apply quiet_when
  | |- quiet (printf_ _ _) => apply quiet_simple; reflexivity
  | |- quiet (KERNEL_PANIC _ _) => apply quiet_panic; reflexivity
  | |- quiet (DEBUG_ASSERT _ _ _ _ _) =>
      apply quiet_assert; eexists; vm_compute; reflexivity
  | |- quiet (if ?b then _ else _) => destruct b
  | |- quiet (let '(_, _) := ?p in _) => destruct p
  | |- quiet (match ?p with (_, _) => _ end) => destruct p
  | |- quiet _ => solve [auto with quiet]
  | |- quiet (_ ≫= _) => apply quiet_bind; [|intros ?]
  end.
Ltac quiet := repeat (cbv zeta; quiet_step).
