(* ===== verification/Crt0.v ===== *)
(** src/boot/crt0.c: the C memory and string functions the kernel brings along.
    Pointers are addresses; every function reads and writes the byte memory of
    [Machine].  Scans for a NUL get one unit of fuel per cell of memory: a longer
    scan would have met an address that is not backed by memory. *)
From S2P Require Import Prelude Machine.
From stdpp Require Import base list gmap.
From Stdlib Require Import ZArith Lia.
#[local] Open Scope Z_scope.

Definition scan_fuel (m : mem) : nat := S (S (size m)).

Fixpoint memcpy_from (n : nat) (dst src i : Z) (m : mem) : res mem :=
  match n with
  | O => Ok m
  | S n' =>
      b ← load8 m (u32 (src + i));
      m ← store8 m (u32 (dst + i)) b;
      memcpy_from n' dst src (i + 1) m
  end.
Definition memcpy (dest src n : Z) (m : mem) : res (Z * mem) :=
  m ← memcpy_from (Z.to_nat n) dest src 0 m; Ok (dest, m).

Fixpoint memset_from (n : nat) (ptr c : Z) (m : mem) : res mem :=
  match n with
  | O => Ok m
  | S n' => m ← store8 m ptr c; memset_from n' (u32 (ptr + 1)) c m
  end.
Definition memset (s c n : Z) (m : mem) : res (Z * mem) :=
  m ← memset_from (Z.to_nat n) s c m; Ok (s, m).

(** The bytes of a range, and storing a list of bytes. *)
Fixpoint read_bytes (n : nat) (a : Z) (m : mem) : res (list Z) :=
  match n with
  | O => Ok []
  | S n' => b ← load8 m a; bs ← read_bytes n' (u32 (a + 1)) m; Ok (b :: bs)
  end.
Fixpoint write_bytes (a : Z) (bs : list Z) (m : mem) : res mem :=
  match bs with
  | [] => Ok m
  | b :: bs' => m ← store8 m a b; write_bytes (u32 (a + 1)) bs' m
  end.

(** [memmove] is the compiler's: as if through a temporary array. *)
Definition memmove (dest src n : Z) (m : mem) : res (Z * mem) :=
  bs ← read_bytes (Z.to_nat n) src m; m ← write_bytes dest bs m; Ok (dest, m).

(** The result for different bytes is the difference of the two {e pointers}. *)
Fixpoint memcmp_from (n : nat) (p1 p2 : Z) (m : mem) : res Z :=
  match n with
  | O => Ok 0
  | S n' =>
      b1 ← load8 m p1; b2 ← load8 m p2;
      let p1 := u32 (p1 + 1) in let p2 := u32 (p2 + 1) in
      if negb (b1 =? b2) then Ok (s32 (p1 - p2)) else memcmp_from n' p1 p2 m
  end.
Definition memcmp (s1 s2 n : Z) (m : mem) : res Z := memcmp_from (Z.to_nat n) s1 s2 m.

Definition strcmp_body (m : mem) : Z * Z → res (Z * Z + Z) :=
  fun '(s1, s2) =>
    c1 ← load8 m s1;
    if c1 =? 0 then c2 ← load8 m s2; Ok (inr (c1 - c2))
    else
      c2 ← load8 m s2;
      if c1 =? c2 then Ok (inl (u32 (s1 + 1), u32 (s2 + 1))) else Ok (inr (c1 - c2)).

Definition strcmp (s1 s2 : Z) (m : mem) : res Z :=
  loop (scan_fuel m) (strcmp_body m) (s1, s2).

(** Neither pointer is advanced; [char] is unsigned. *)
Fixpoint strncmp_from (n : nat) (s1 s2 : Z) (m : mem) : res Z :=
  match n with
  | O => Ok 0
  | S n' =>
      c1 ← load8 m s1; c2 ← load8 m s2;
      let diff := c1 - c2 in
      if negb (diff =? 0) then Ok diff
      else if (c1 =? 0) || (c2 =? 0) then Ok 0
      else strncmp_from n' s1 s2 m
  end.
Definition strncmp (s1 s2 sz : Z) (m : mem) : res Z := strncmp_from (Z.to_nat (s32 sz)) s1 s2 m.

(** The bytes of [strlen] up to the next word boundary; [inr] is the result. *)
Definition strlen_head (s next : Z) (m : mem) : res (unit + Z) :=
  loop 5
    (fun p =>
       if p <? next then
         c ← load8 m p;
         if c =? 0 then Ok (inr (inr (p - s))) else Ok (inl (p + 1))
       else Ok (inr (inl tt)))
    s.

(** The first zero byte of a word. *)
Fixpoint zero_byte (n : nat) (chunk i : Z) : option Z :=
  match n with
  | O => None
  | S n' =>
      let mask := u32 (Z.shiftl 255 (i * 8)) in
      if Z.land chunk mask =? 0 then Some i else zero_byte n' chunk (i + 1)
  end.

Definition strlen_words (ptr length : Z) (m : mem) : res Z :=
  loop (scan_fuel m)
    (fun '(ptr, length) =>
       chunk ← load32 m ptr;
       match zero_byte 4 chunk 0 with
       | Some i => Ok (inr (u32 (length + i)))
       | None => Ok (inl (u32 (ptr + 4), u32 (length + 4)))
       end)
    (ptr, length).

Definition strlen (s : Z) (m : mem) : res Z :=
  if negb (s mod 4 =? 0) then
    let next_aligned_addr := u32 (Z.land s (Z.lnot 3) + 4) in
    r ← strlen_head s next_aligned_addr m;
    match r with
    | inr n => Ok n
    | inl _ => strlen_words next_aligned_addr (u32 (next_aligned_addr - s)) m
    end
  else strlen_words s 0 m.

(** The result when there is no NUL is [maxlen - 1]. *)
Fixpoint strnlen_from (n : nat) (s i maxlen : Z) (m : mem) : res Z :=
  match n with
  | O => Ok (u32 (maxlen - 1))
  | S n' =>
      c ← load8 m (u32 (s + i));
      if c =? 0 then Ok i else strnlen_from n' s (i + 1) maxlen m
  end.
Definition strnlen (s maxlen : Z) (m : mem) : res Z :=
  strnlen_from (Z.to_nat maxlen) s 0 maxlen m.

(** The byte is compared with [ch] as it is, not converted to [unsigned char]. *)
Fixpoint memchr_from (n : nat) (ptr ch : Z) (m : mem) : res Z :=
  match n with
  | O => Ok 0
  | S n' =>
      c ← load8 m ptr;
      if c =? ch then Ok ptr else memchr_from n' (u32 (ptr + 1)) ch m
  end.
Definition memchr (ptr ch count : Z) (m : mem) : res Z := memchr_from (Z.to_nat count) ptr ch m.

(** The loop of [strrchr] does not advance [str]. *)
Definition strrchr (fuel : nat) (str ch : Z) (m : mem) : res Z :=
  loop fuel
    (fun str =>
       c ← load8 m str;
       if c =? 0 then Ok (inr 0) else if c =? ch then Ok (inr str) else Ok (inl str))
    str.

Fixpoint word_memset_from (n : nat) (ptr num : Z) (m : mem) : res mem :=
  match n with
  | O => Ok m
  | S n' => m ← store32 m ptr num; word_memset_from n' (u32 (ptr + 4)) num m
  end.
Definition word_aligned_memset (p num count : Z) (m : mem) : res mem :=
  word_memset_from (Z.to_nat count) p num m.

(* ------------------------------------------------------------------ *)
(** * Ranges of memory *)

(** The bytes [bs] lie at [a]. *)
Definition bytes_at (m : mem) (a : Z) (bs : list Z) : Prop :=
  ∀ i b, bs !! i = Some b → m !! (a + Z.of_nat i) = Some b.

(** A NUL-terminated string with the characters [cs] lies at [a]. *)
Definition cstr_at (m : mem) (a : Z) (cs : list Z) : Prop :=
  bytes_at m a cs ∧ Forall (λ c, c ≠ 0) cs ∧ m !! (a + Z.of_nat (length cs)) = Some 0.

(** Memory comes in whole aligned words. *)
Definition word_backed (m : mem) : Prop :=
  ∀ a, is_Some (m !! a) → mapped m (4 * (a / 4)) 4.

Lemma bytes_at_cons m a b bs :
  bytes_at m a (b :: bs) ↔ m !! a = Some b ∧ bytes_at m (a + 1) bs.
Proof.
  split.
  - intros H. split; [rewrite <- (H 0%nat b) by done; f_equal; lia|].
    intros i c Hi. rewrite <- (H (S i) c) by done. f_equal. lia.
  - intros [H0 H] [|i] c Hc; simpl in Hc.
    + rewrite Z.add_0_r. congruence.
    + rewrite <- (H i c Hc). f_equal. lia.
Qed.

Lemma bytes_at_app m a xs ys :
  bytes_at m a (xs ++ ys) ↔ bytes_at m a xs ∧ bytes_at m (a + Z.of_nat (length xs)) ys.
Proof.
  revert a. induction xs as [|x xs IH]; intros a; cbn [app length].
  - rewrite Z.add_0_r. split; [|tauto]. split; [by intros [|?] ?|done].
  - rewrite !bytes_at_cons, IH. replace (a + 1 + Z.of_nat (length xs)) with (a + Z.of_nat (S (length xs))) by lia.
    tauto.
Qed.

Lemma cstr_at_cons m a c cs :
  cstr_at m a (c :: cs) ↔ m !! a = Some c ∧ c ≠ 0 ∧ cstr_at m (a + 1) cs.
Proof.
  unfold cstr_at. rewrite bytes_at_cons, Forall_cons. rewrite length_cons, Nat2Z.inj_succ.
  replace (a + Z.succ (Z.of_nat (length cs))) with (a + 1 + Z.of_nat (length cs)) by lia.
  tauto.
Qed.

Lemma cstr_at_nil m a : cstr_at m a [] ↔ m !! a = Some 0.
Proof.
  unfold cstr_at. cbn [length Z.of_nat]. rewrite Z.add_0_r.
  split; [tauto|]. intros ?. split_and!; [by intros [|?] ?|done|done].
Qed.

(** The cells of a mapped range are different keys of the memory. *)
Lemma mapped_size m a n : 0 <= n → mapped m a n → n <= Z.of_nat (size m).
Proof.
  intros Hn Hm. rewrite <- (size_dom (D := gset Z)).
  assert (list_to_set (seqZ a n) ⊆ (dom m : gset Z)) as Hsub.
  { intros x Hx. apply elem_of_list_to_set, elem_of_seqZ in Hx.
    apply elem_of_dom, Hm. lia. }
  apply subseteq_size in Hsub. rewrite size_list_to_set in Hsub by apply NoDup_seqZ.
  rewrite length_seqZ in Hsub. lia.
Qed.

Lemma cstr_at_mapped m a cs : cstr_at m a cs → mapped m a (Z.of_nat (length cs) + 1).
Proof.
  intros (Hb & _ & H0) x Hx. destruct (decide (x = a + Z.of_nat (length cs))) as [->|].
  - by eexists.
  - destruct (lookup_lt_is_Some_2 cs (Z.to_nat (x - a))) as [c Hc]; [lia|].
    specialize (Hb _ _ Hc). rewrite Z2Nat.id in Hb by lia.
    replace (a + (x - a)) with x in Hb by lia. by eexists.
Qed.

Lemma bytes_at_mapped m a bs : bytes_at m a bs → mapped m a (Z.of_nat (length bs)).
Proof.
  intros Hb x Hx. destruct (lookup_lt_is_Some_2 bs (Z.to_nat (x - a))) as [c Hc]; [lia|].
  specialize (Hb _ _ Hc). rewrite Z2Nat.id in Hb by lia.
  replace (a + (x - a)) with x in Hb by lia. by eexists.
Qed.

(* ------------------------------------------------------------------ *)
(** * Copying and filling *)

(** What [memset] leaves in every cell. *)
Lemma memset_from_spec n ptr c m :
  0 <= ptr → ptr + Z.of_nat n <= 2 ^ 32 → mapped m ptr (Z.of_nat n) →
  ∃ m', memset_from n ptr c m = Ok m' ∧
    ∀ x, m' !! x = if decide (ptr <= x < ptr + Z.of_nat n) then Some (u8 c) else m !! x.
Proof.
  revert ptr m. induction n as [|n IH]; intros ptr m Hp Hn Hm.
  - exists m. split; [done|]. intros x. by rewrite decide_False by lia.
  - cbn [memset_from]. rewrite store8_ok by (apply Hm; lia). cbn [mbind res_bind].
    destruct (decide (n = O)) as [->|Hn0].
    + eexists; split; [done|]. intros x. rewrite lookup_insert.
      repeat case_decide; try lia; done.
    + rewrite u32_small by (unfold is_u32; lia).
      destruct (IH (ptr + 1) (<[ptr := u8 c]> m)) as (m' & He & Hx); [lia..| |].
      { intros x Hx. rewrite lookup_insert. case_decide; [by eexists|]. apply Hm. lia. }
      exists m'. split; [done|]. intros x. rewrite Hx, lookup_insert.
      repeat case_decide; try lia; done.
Qed.

(** What a forward copy leaves, when the ranges do not overlap. *)
Lemma memcpy_from_spec n dst src i bs m :
  0 <= i → 0 <= dst → 0 <= src →
  length bs = n → bytes_at m (src + i) bs → mapped m (dst + i) (Z.of_nat n) →
  dst + i + Z.of_nat n <= 2 ^ 32 → src + i + Z.of_nat n <= 2 ^ 32 →
  Forall is_u8 bs →
  dst + i + Z.of_nat n <= src + i ∨ src + i + Z.of_nat n <= dst + i →
  ∃ m', memcpy_from n dst src i m = Ok m' ∧
    same_outside (dst + i) (Z.of_nat n) m m' ∧ bytes_at m' (dst + i) bs.
Proof.
  revert i bs m. induction n as [|n IH]; intros i bs m Hi Hd Hs Hl Hb Hm Hw1 Hw2 Hu Hdisj.
  - destruct bs; [|done]. exists m. split_and!; [done|apply same_outside_refl|by intros [|?]].
  - destruct bs as [|b bs]; [done|]. apply bytes_at_cons in Hb as [Hb0 Hb].
    apply Forall_cons in Hu as [Hu0 Hu]. injection Hl as Hl.
    cbn [memcpy_from]. rewrite !u32_small by (unfold is_u32; lia).
    rewrite (load8_ok _ _ _ Hb0). cbn [mbind res_bind].
    rewrite store8_ok by (apply Hm; lia). cbn [mbind res_bind]. rewrite u8_small by done.
    destruct (IH (i + 1) bs (<[dst + i := b]> m)) as (m' & He & Hso & Hat);
      try lia; try done.
    + intros k c Hk. rewrite lookup_insert_ne.
      * rewrite <- (Hb k c Hk). f_equal. lia.
      * apply lookup_lt_Some in Hk. lia.
    + intros x Hx. rewrite lookup_insert_ne by lia. apply Hm. lia.
    + exists m'. split_and!; [done| |].
      * intros x Hx. rewrite Hso by lia. by rewrite lookup_insert_ne by lia.
      * apply bytes_at_cons. split.
        { rewrite Hso by lia. apply lookup_insert_eq. }
        by replace (dst + i + 1) with (dst + (i + 1)) by lia.
Qed.

Lemma word_memset_spec n p num m :
  0 <= p → p mod 4 = 0 → p + 4 * Z.of_nat n <= 2 ^ 32 → mapped m p (4 * Z.of_nat n) →
  is_u32 num → mem_bytes m →
  ∃ m', word_memset_from n p num m = Ok m' ∧ same_outside p (4 * Z.of_nat n) m m' ∧
    mem_bytes m' ∧ (∀ b k, mapped m b k → mapped m' b k) ∧
    ∀ i, 0 <= i < Z.of_nat n → load32 m' (p + 4 * i) = Ok num.
Proof.
  revert p m. induction n as [|n IH]; intros p m Hp Ha Hw Hm Hu Hb.
  - exists m. split_and!; [done|apply same_outside_refl|done..|lia].
  - cbn [word_memset_from].
    destruct (store32_full m p num) as (m1 & He1 & Hs1 & Hl1 & Hk1); [done| |done|].
    { intros x Hx. apply Hm. lia. }
    rewrite He1. cbn [mbind res_bind].
    assert (mem_bytes m1) as Hb1 by eauto using store32_bytes.
    destruct (decide (n = O)) as [->|Hn0].
    + exists m1. split_and!; [done|by apply (same_outside_weaken p 4)|done..|].
      intros i Hi. by replace (p + 4 * i) with p by lia.
    + rewrite u32_small by (unfold is_u32; lia).
      destruct (IH (p + 4) m1) as (m2 & He2 & Hs2 & Hb2 & Hk2 & Hl2); try done; try lia.
      { rewrite Z.add_mod, Ha by lia. done. }
      { apply Hk1. intros x Hx. apply Hm. lia. }
      exists m2. split_and!; [done| |done|by auto|].
      * intros x Hx. rewrite Hs2 by lia. apply Hs1. lia.
      * intros i Hi. destruct (decide (i = 0)) as [->|].
        { rewrite Z.add_0_r. rewrite (load32_same_outside m1 m2 p _ _ Hs2) by lia. done. }
        replace (p + 4 * i) with (p + 4 + 4 * (i - 1)) by lia. apply Hl2. lia.
Qed.

(* ------------------------------------------------------------------ *)
(** * Scanning for a NUL *)

Lemma land_byte_mask w i :
  0 <= i < 4 → Z.land w (u32 (Z.shiftl 255 (i * 8))) = Z.shiftl (byte_of w i) (8 * i).
Proof.
  intros Hi. apply Z.bits_inj'. intros n Hn. unfold byte_of. change 255 with (Z.ones 8).
  rewrite Z.land_spec, testbit_u32, !Z.shiftl_spec by lia.
  destruct (Z_lt_le_dec n (8 * i)).
  - rewrite (Z.testbit_neg_r _ (n - i * 8)), (Z.testbit_neg_r _ (n - 8 * i)) by lia.
    by rewrite !andb_false_r.
  - rewrite Z.land_spec, Z.shiftr_spec, !testbit_ones by lia.
    replace (n - 8 * i + 8 * i) with n by lia. f_equal.
    destruct (Z.ltb_spec n 32), (Z.ltb_spec (n - i * 8) 8), (Z.ltb_spec (n - 8 * i) 8);
      simpl; done || lia.
Qed.

Lemma byte_mask_zero w i :
  0 <= i < 4 → (Z.land w (u32 (Z.shiftl 255 (i * 8))) =? 0) = (byte_of w i =? 0).
Proof.
  intros Hi. rewrite land_byte_mask by done. apply eq_true_iff_eq.
  rewrite !Z.eqb_eq, Z.shiftl_eq_0_iff by lia. done.
Qed.

Lemma zero_byte_spec n w i :
  0 <= i → i + Z.of_nat n = 4 →
  match zero_byte n w i with
  | Some k => i <= k < 4 ∧ byte_of w k = 0 ∧ ∀ j, i <= j < k → byte_of w j ≠ 0
  | None => ∀ j, i <= j < 4 → byte_of w j ≠ 0
  end.
Proof.
  revert i. induction n as [|n IH]; intros i Hi Hn; cbn [zero_byte]; [lia|].
  rewrite byte_mask_zero by lia. destruct (Z.eqb_spec (byte_of w i) 0) as [E|E].
  - split_and!; [lia..|done|lia].
  - specialize (IH (i + 1) ltac:(lia) ltac:(lia)).
    destruct (zero_byte n w (i + 1)) as [k|].
    + destruct IH as (H1 & H2 & H3). split_and!; [lia..|done|].
      intros j Hj. destruct (decide (j = i)) as [->|]; [done|]. apply H3. lia.
    + intros j Hj. destruct (decide (j = i)) as [->|]; [done|]. apply IH. lia.
Qed.

Section string.
Context (m : mem) (s : Z) (cs : list Z).
Hypothesis Hcs : cstr_at m s cs.
Hypothesis Hs : 0 <= s.
Let len := Z.of_nat (length cs).

Lemma cstr_char k : 0 <= k < len → ∃ c, m !! (s + k) = Some c ∧ c ≠ 0.
Proof using Hcs.
  intros Hk. destruct Hcs as (Hb & Hnz & _).
  destruct (lookup_lt_is_Some_2 cs (Z.to_nat k)) as [c Hc]; [subst len; lia|].
  exists c. rewrite <- (Hb _ _ Hc). split; [f_equal; lia|].
  by apply (Forall_lookup_1 _ _ _ _ Hnz Hc).
Qed.

Lemma cstr_nul : m !! (s + len) = Some 0.
Proof using Hcs. apply Hcs. Qed.

Lemma cstr_size : len + 1 <= Z.of_nat (size m).
Proof using Hcs.
  apply (mapped_size m s); [subst len; lia|]. by apply cstr_at_mapped.
Qed.

Context (Hbytes : mem_bytes m) (Hwords : word_backed m).

(** One word of the scan, [k] characters into the string. *)
Lemma strlen_word k :
  0 <= k <= len → (s + k) mod 4 = 0 →
  ∃ w, load32 m (s + k) = Ok w ∧
    match zero_byte 4 w 0 with
    | Some i => k + i = len
    | None => k + 4 <= len
    end.
Proof using Hcs Hbytes Hwords.
  intros Hk Ha.
  assert (mapped m (s + k) 4) as Hm.
  { replace (s + k) with (4 * ((s + k) / 4)) at 1 by (Z.div_mod_to_equations; lia).
    apply Hwords. destruct (decide (k = len)) as [->|].
    - rewrite cstr_nul. by eexists.
    - destruct (cstr_char k) as (c & -> & _); [lia|]. by eexists. }
  destruct (load32_total m (s + k) Hbytes Ha Hm) as (w & Hw & _).
  exists w. split; [done|]. destruct (load32_bytes _ _ _ Hbytes Hw) as [_ Hwb].
  pose proof (zero_byte_spec 4 w 0 ltac:(lia) ltac:(lia)) as Hz.
  assert (∀ i, 0 <= i < 4 → k + i < len → byte_of w i ≠ 0) as Hnz.
  { intros i Hi Hlt. destruct (cstr_char (k + i)) as (c & Hc & Hc0); [lia|].
    specialize (Hwb i Hi). replace (s + k + i) with (s + (k + i)) in Hwb by lia. congruence. }
  assert (∀ i, 0 <= i < 4 → k + i = len → byte_of w i = 0) as Hz0.
  { intros i Hi He. specialize (Hwb i Hi).
    replace (s + k + i) with (s + len) in Hwb by lia. rewrite cstr_nul in Hwb. congruence. }
  destruct (zero_byte 4 w 0) as [i|].
  - destruct Hz as (Hi & Hi0 & Hlt).
    destruct (Z.lt_trichotomy (k + i) len) as [H|[H|H]]; [|done|].
    + exfalso. by apply (Hnz i).
    + exfalso. apply (Hlt (len - k)); [lia|]. apply Hz0; lia.
  - destruct (Z_lt_le_dec len (k + 4)); [|done].
    exfalso. apply (Hz (len - k)); [lia|]. apply Hz0; lia.
Qed.

Lemma strlen_words_ok k :
  s + len + 4 < 2 ^ 32 → 0 <= k <= len → (s + k) mod 4 = 0 →
  strlen_words (s + k) k m = Ok len.
Proof using Hcs Hs Hbytes Hwords.
  intros Hw Hk Ha. enough (yields (strlen_words (s + k) k m) (eq len)) as H
    by (by apply yields_eq in H).
  unfold strlen_words.
  apply (loop_yields (fun p => 0 <= p.2 <= len ∧ p.1 = s + p.2 ∧ (s + p.2) mod 4 = 0)
           (fun p => Z.to_nat (len - p.2))).
  - intros [ptr l] (Hl & Hp & Hal). simpl in Hl, Hp, Hal. subst ptr.
    destruct (strlen_word l Hl Hal) as (w & -> & Hz). cbn [mbind res_bind].
    destruct (zero_byte 4 w 0) as [i|]; simpl.
    + rewrite u32_small by (unfold is_u32; lia). lia.
    + rewrite !u32_small by (unfold is_u32; lia).
      split; [|lia]. split_and!; [lia..|].
      replace (s + (l + 4)) with (s + l + 1 * 4) by lia. by rewrite Z.mod_add by lia.
  - simpl. lia.
  - pose proof cstr_size. unfold scan_fuel. simpl. lia.
Qed.

(** The bytes before the first word boundary. *)
Lemma strlen_head_ok next :
  s <= next < s + 4 →
  ∃ r, strlen_head s next m = Ok r ∧
    match r with inr n => n = len | inl _ => next - s <= len end.
Proof using Hcs Hs.
  intros Hn.
  assert (yields (strlen_head s next m)
    (fun r => match r with inr n => n = len | inl _ => next - s <= len end)) as H.
  { unfold strlen_head.
    apply (loop_yields (fun p => s <= p <= next ∧ p - s <= len) (fun p => Z.to_nat (next - p))).
    - intros p [Hp Hl]. destruct (Z.ltb_spec p next); [|simpl; lia].
      destruct (decide (p = s + len)) as [->|Hne].
      + rewrite (load8_ok _ _ _ cstr_nul). simpl. lia.
      + destruct (cstr_char (p - s)) as (c & Hc & Hc0); [lia|].
        replace (s + (p - s)) with p in Hc by lia.
        rewrite (load8_ok _ _ _ Hc). cbn [mbind res_bind].
        destruct (Z.eqb_spec c 0); [done|]. simpl. lia.
    - lia.
    - lia. }
  destruct (strlen_head s next m) as [r| |]; [|done..]. by exists r.
Qed.

Lemma strlen_ok : s + len + 4 < 2 ^ 32 → strlen s m = Ok len.
Proof using Hcs Hs Hbytes Hwords.
  intros Hw. unfold strlen. destruct (Z.eqb_spec (s mod 4) 0) as [Ha|Ha]; cbn [negb].
  - replace s with (s + 0) at 1 by lia. apply strlen_words_ok; [lia..|].
    by rewrite Z.add_0_r.
  - assert (Z.land s (Z.lnot 3) = 4 * (s / 4)) as ->.
    { rewrite <- Z.ldiff_land. change 3 with (Z.ones 2). rewrite Z.ldiff_ones_r by lia.
      rewrite Z.shiftl_mul_pow2, Z.shiftr_div_pow2 by lia. change (2 ^ 2) with 4. lia. }
    set (next := 4 * (s / 4) + 4).
    assert (s <= next < s + 4) as Hn by (subst next; Z.div_mod_to_equations; lia).
    assert (0 <= len) as Hl0 by (subst len; lia).
    rewrite (u32_small next) by (unfold is_u32; lia). cbv zeta.
    destruct (strlen_head_ok next Hn) as (r & -> & Hr). cbn [mbind res_bind].
    destruct r as [[]|n]; [|by subst].
    rewrite u32_small by (unfold is_u32; lia).
    replace next with (s + (next - s)) at 1 by lia. apply strlen_words_ok; [lia..|].
    replace (s + (next - s)) with ((s / 4 + 1) * 4) by (subst next; lia).
    apply Z.mod_mul. lia.
Qed.
End string.

(** [strcmp]: the difference of the first characters that differ, the NULs included. *)
Fixpoint compare_chars (cs1 cs2 : list Z) : Z :=
  match cs1, cs2 with
  | [], [] => 0
  | [], c2 :: _ => - c2
  | c1 :: _, [] => c1
  | c1 :: cs1', c2 :: cs2' => if c1 =? c2 then compare_chars cs1' cs2' else c1 - c2
  end.

Lemma cstr_at_head m s cs :
  cstr_at m s cs → m !! s = Some (match cs with c :: _ => c | [] => 0 end).
Proof.
  destruct cs as [|c cs]; [by rewrite cstr_at_nil|]. rewrite cstr_at_cons. tauto.
Qed.

Lemma strcmp_body_ok m s1 s2 c1 c2 :
  m !! s1 = Some c1 → m !! s2 = Some c2 →
  strcmp_body m (s1, s2) =
  Ok (if c1 =? 0 then inr (c1 - c2)
      else if c1 =? c2 then inl (u32 (s1 + 1), u32 (s2 + 1)) else inr (c1 - c2)).
Proof.
  intros H1 H2. unfold strcmp_body. rewrite (load8_ok _ _ _ H1), (load8_ok _ _ _ H2).
  cbn [mbind res_bind]. by repeat case_match.
Qed.

Lemma strcmp_loop_ok m fuel s1 s2 cs1 cs2 :
  cstr_at m s1 cs1 → cstr_at m s2 cs2 → 0 <= s1 → 0 <= s2 →
  s1 + Z.of_nat (length cs1) < 2 ^ 32 → s2 + Z.of_nat (length cs2) < 2 ^ 32 →
  (length cs1 < fuel)%nat →
  loop fuel (strcmp_body m) (s1, s2) = Ok (compare_chars cs1 cs2).
Proof.
  revert s1 s2 cs1 cs2. induction fuel as [|fuel IH];
    intros s1 s2 cs1 cs2 H1 H2 Hp1 Hp2 Hw1 Hw2 Hf; [lia|].
  cbn [loop]. rewrite (strcmp_body_ok _ _ _ _ _ (cstr_at_head _ _ _ H1)
    (cstr_at_head _ _ _ H2)). cbn [mbind res_bind].
  destruct cs1 as [|c1 cs1]; [by destruct cs2|].
  apply cstr_at_cons in H1 as (_ & Hc1 & H1).
  destruct (Z.eqb_spec c1 0); [done|]. destruct cs2 as [|c2 cs2].
  - destruct (Z.eqb_spec c1 0); [done|]. simpl. f_equal. lia.
  - apply cstr_at_cons in H2 as (_ & Hc2 & H2). simpl in Hf, Hw1, Hw2.
    cbn [compare_chars]. destruct (Z.eqb_spec c1 c2); [|done].
    rewrite !u32_small by (unfold is_u32; lia). apply IH; try done; lia.
Qed.

Lemma compare_chars_zero cs1 cs2 :
  Forall (λ c, c ≠ 0) cs1 → Forall (λ c, c ≠ 0) cs2 →
  compare_chars cs1 cs2 = 0 ↔ cs1 = cs2.
Proof.
  intros H1. revert cs2. induction H1 as [|c1 cs1 Hc1 _ IH]; intros cs2 H2;
    destruct H2 as [|c2 cs2 Hc2 H2]; simpl; [done|split; [lia|done]|split; [lia|done]|].
  destruct (Z.eqb_spec c1 c2) as [->|].
  - rewrite IH by done. split; congruence.
  - split; [lia|congruence].
Qed.

(** The result of [memcmp] on two byte lists at different addresses. *)
Lemma memcmp_from_ok m n s1 s2 b1 b2 :
  bytes_at m s1 b1 → bytes_at m s2 b2 → length b1 = n → length b2 = n →
  0 <= s1 → 0 <= s2 → s1 + Z.of_nat n < 2 ^ 32 → s2 + Z.of_nat n < 2 ^ 32 →
  memcmp_from n s1 s2 m = Ok (if decide (b1 = b2) then 0 else s32 (s1 - s2)).
Proof.
  revert s1 s2 b1 b2. induction n as [|n IH];
    intros s1 s2 b1 b2 H1 H2 Hl1 Hl2 Hp1 Hp2 Hw1 Hw2;
    destruct b1 as [|c1 b1], b2 as [|c2 b2]; try done.
  apply bytes_at_cons in H1 as [Hc1 H1]. apply bytes_at_cons in H2 as [Hc2 H2].
  injection Hl1 as Hl1. injection Hl2 as Hl2.
  cbn [memcmp_from]. rewrite (load8_ok _ _ _ Hc1), (load8_ok _ _ _ Hc2).
  cbn [mbind res_bind]. rewrite !u32_small by (unfold is_u32; lia).
  destruct (Z.eqb_spec c1 c2) as [->|Hne]; cbn [negb].
  - rewrite (IH _ _ b1 b2) by (done || lia).
    destruct (decide (b1 = b2)) as [->|Hb]; [by rewrite decide_True|].
    rewrite decide_False by congruence. do 2 f_equal. lia.
  - rewrite decide_False by congruence. do 2 f_equal. lia.
Qed.

Lemma s32_nonzero x : - 2 ^ 32 < x < 2 ^ 32 → x ≠ 0 → s32 x ≠ 0.
Proof.
  unfold s32, u32, wrap. intros Hx Hne.
  destruct (Z.ltb_spec (x mod 2 ^ 32) (2 ^ 31)); Z.div_mod_to_equations; lia.
Qed.

Lemma memcmp_ok m s1 s2 n b1 b2 :
  bytes_at m s1 b1 → bytes_at m s2 b2 →
  Z.of_nat (length b1) = n → Z.of_nat (length b2) = n →
  0 <= s1 → 0 <= s2 → s1 + n < 2 ^ 32 → s2 + n < 2 ^ 32 →
  ∃ r, memcmp s1 s2 n m = Ok r ∧ (r = 0 ↔ b1 = b2) ∧ (b1 ≠ b2 → r = s32 (s1 - s2)).
Proof.
  intros H1 H2 Hl1 Hl2 Hp1 Hp2 Hw1 Hw2. unfold memcmp.
  rewrite (memcmp_from_ok m _ s1 s2 b1 b2) by (done || lia).
  eexists; split; [done|]. case_decide as Hd; [by split|]. split; [|done].
  split; [|done]. intros Hz. exfalso. destruct (decide (s1 = s2)) as [->|Hne].
  - apply Hd. apply list_eq_same_length with (length b1); [lia|lia|].
    intros i x y Hi Hx Hy. apply H1 in Hx. apply H2 in Hy. congruence.
  - by apply (s32_nonzero (s1 - s2)) in Hz; [|lia..].
Qed.

(** What [memchr] finds. *)
Lemma memchr_split m p ch cs :
  bytes_at m p cs → 0 < p → p + Z.of_nat (length cs) < 2 ^ 32 →
  memchr p ch (Z.of_nat (length cs)) m = Ok (match split_at ch cs with Some (a, _) => p + Z.of_nat (length a) | None => 0 end).
Proof.
  unfold memchr, split_at. rewrite Nat2Z.id. revert p. induction cs as [|c cs IH]; intros p Hb Hp Ht; [done|].
  apply bytes_at_cons in Hb as [Hc Hb]. cbn [span length memchr_from] in *. rewrite (load8_ok _ _ _ Hc). cbn [mbind res_bind].
  destruct (c =? ch); cbn [negb]; [f_equal; cbn; lia|]. rewrite u32_small by (unfold is_u32; lia). rewrite IH by (done || lia).
  destruct (span _ cs) as [a [|x r]]; [done|]. f_equal. cbn [length]. lia.
Qed.

Lemma map_bytes_at a bs m : bytes_at (map_bytes a bs m) a bs.
Proof.
  intros i b Hi. pose proof (lookup_lt_Some _ _ _ Hi).
  rewrite map_bytes_lookup, decide_True by lia.
  by replace (Z.to_nat (a + Z.of_nat i - a)) with i by lia.
Qed.

Lemma word_backed_empty : word_backed ∅.
Proof. by intros x [b Hb]. Qed.

Lemma map_bytes_word_backed a bs m :
  a mod 4 = 0 → Z.of_nat (length bs) mod 4 = 0 → word_backed m → word_backed (map_bytes a bs m).
Proof.
  intros Ha Hl Hm x [b Hx]. intros y Hy. rewrite map_bytes_lookup in Hx |- *.
  destruct (decide (a <= x < a + Z.of_nat (length bs))).
  - assert (a <= y < a + Z.of_nat (length bs)) by (Z.div_mod_to_equations; lia).
    rewrite decide_True by done. apply lookup_lt_is_Some. lia.
  - case_decide; [apply lookup_lt_is_Some; lia|]. by apply (Hm x); [eexists|].
Qed.

(* ------------------------------------------------------------------ *)
(** * Properties *)

(** [strlen], which reads whole words, returns the length of the string at
    any alignment and never reads an address that is not backed by memory. *)
Theorem strlen_spec m s cs :
  cstr_at m s cs → 0 <= s → s + Z.of_nat (length cs) + 4 < 2 ^ 32 →
  mem_bytes m → word_backed m →
  strlen s m = Ok (Z.of_nat (length cs)).
Proof. intros. by apply strlen_ok. Qed.

(** [memcmp] tells equal ranges from different ones, but for different ranges
    its result is the difference of the two addresses: its sign says nothing about
    the bytes. *)
Theorem memcmp_spec m s1 s2 n b1 b2 :
  bytes_at m s1 b1 → bytes_at m s2 b2 →
  Z.of_nat (length b1) = n → Z.of_nat (length b2) = n →
  0 <= s1 → 0 <= s2 → s1 + n < 2 ^ 32 → s2 + n < 2 ^ 32 →
  ∃ r, memcmp s1 s2 n m = Ok r ∧ (r = 0 ↔ b1 = b2) ∧ (b1 ≠ b2 → r = s32 (s1 - s2)).
Proof. apply memcmp_ok. Qed.

(** [strcmp] returns the difference of the first characters in which the two
    strings differ (the NUL counting as a character), and zero exactly for equal
    strings. *)
Theorem strcmp_spec m s1 s2 cs1 cs2 :
  cstr_at m s1 cs1 → cstr_at m s2 cs2 → 0 <= s1 → 0 <= s2 →
  s1 + Z.of_nat (length cs1) < 2 ^ 32 → s2 + Z.of_nat (length cs2) < 2 ^ 32 →
  strcmp s1 s2 m = Ok (compare_chars cs1 cs2) ∧ (compare_chars cs1 cs2 = 0 ↔ cs1 = cs2).
Proof.
  intros H1 H2 ????. split.
  - unfold strcmp. apply strcmp_loop_ok; try done.
    pose proof (cstr_size m s1 cs1 H1). unfold scan_fuel. lia.
  - apply compare_chars_zero; [apply H1|apply H2].
Qed.

(** [memcpy] between ranges that do not overlap copies every byte, touches
    nothing outside the destination and returns it. *)
Theorem memcpy_spec m dest src n bs :
  bytes_at m src bs → Z.of_nat (length bs) = n → Forall is_u8 bs → mapped m dest n →
  0 <= dest → 0 <= src → dest + n <= 2 ^ 32 → src + n <= 2 ^ 32 →
  dest + n <= src ∨ src + n <= dest →
  ∃ m', memcpy dest src n m = Ok (dest, m') ∧ bytes_at m' dest bs ∧
    same_outside dest n m m'.
Proof.
  intros Hb Hl Hu Hm Hd Hs Hw1 Hw2 Hdisj. unfold memcpy.
  destruct (memcpy_from_spec (Z.to_nat n) dest src 0 bs m) as (m' & He & Hso & Hat);
    rewrite ?Z.add_0_r in *; try lia; try done; rewrite ?Z2Nat.id in * by lia; try done.
  exists m'. by rewrite He.
Qed.

(** [word_aligned_memset] fills exactly the [count] words from [p] on. *)
Theorem word_aligned_memset_spec m p num count :
  0 <= count → 0 <= p → p mod 4 = 0 → p + 4 * count <= 2 ^ 32 → mapped m p (4 * count) →
  is_u32 num → mem_bytes m →
  ∃ m', word_aligned_memset p num count m = Ok m' ∧ same_outside p (4 * count) m m' ∧
    ∀ i, 0 <= i < count → load32 m' (p + 4 * i) = Ok num.
Proof.
  intros Hc Hp Ha Hw Hm Hu Hb. unfold word_aligned_memset.
  destruct (word_memset_spec (Z.to_nat count) p num m) as (m' & He & Hs & _ & _ & Hl);
    rewrite ?Z2Nat.id in * by lia; try done. by exists m'.
Qed.

(** [strncmp] never advances its pointers, so strings that start with the same
    character compare equal whatever follows. *)
Theorem strncmp_first_char_only m s1 s2 c cs1 cs2 sz :
  cstr_at m s1 (c :: cs1) → cstr_at m s2 (c :: cs2) → strncmp s1 s2 sz m = Ok 0.
Proof.
  intros (H1 & Hc & _)%cstr_at_cons (H2 & _ & _)%cstr_at_cons. unfold strncmp.
  generalize (Z.to_nat (s32 sz)). intros n.
  induction n as [|n IH]; cbn [strncmp_from]; [done|].
  rewrite (load8_ok _ _ _ H1), (load8_ok _ _ _ H2). cbn [mbind res_bind].
  rewrite Z.sub_diag. simpl. by destruct (Z.eqb_spec c 0).
Qed.

(** [strrchr] returns at once when the string is empty or starts with the
    character, and otherwise loops forever: no number of rounds is enough. *)
Theorem strrchr_diverges m str c cs ch fuel :
  cstr_at m str (c :: cs) →
  strrchr fuel str ch m =
  match fuel with O => NoFuel | S _ => if c =? ch then Ok str else NoFuel end.
Proof.
  intros (H & Hc & _)%cstr_at_cons. unfold strrchr.
  induction fuel as [|fuel IH]; [done|]. cbn [loop]. rewrite (load8_ok _ _ _ H).
  cbn [mbind res_bind]. destruct (Z.eqb_spec c 0); [done|].
  destruct (Z.eqb_spec c ch); [done|]. cbn [mbind res_bind]. rewrite IH. by destruct fuel.
Qed.

Lemma strnlen_from_ok m n s i maxlen bs :
  bytes_at m (s + i) bs → Forall (λ c, c ≠ 0) bs → length bs = n → 0 <= s → 0 <= i →
  s + i + Z.of_nat n <= 2 ^ 32 →
  strnlen_from n s i maxlen m = Ok (u32 (maxlen - 1)).
Proof.
  revert i bs. induction n as [|n IH]; intros i bs Hb Hnz Hl Hs Hi Hw; [done|].
  destruct bs as [|b bs]; [done|]. apply bytes_at_cons in Hb as [H0 Hb].
  apply Forall_cons in Hnz as [Hnz0 Hnz]. injection Hl as Hl.
  cbn [strnlen_from]. rewrite u32_small by (unfold is_u32; lia).
  rewrite (load8_ok _ _ _ H0). cbn [mbind res_bind].
  destruct (Z.eqb_spec b 0); [done|]. apply (IH (i + 1) bs); try done; try lia.
  by replace (s + (i + 1)) with (s + i + 1) by lia.
Qed.

(** Without a NUL among the first [maxlen] bytes, [strnlen] returns
    [maxlen - 1], not [maxlen]: a caller cannot tell an unterminated string from
    one of length [maxlen - 1]. *)
Theorem strnlen_unterminated m s maxlen bs :
  bytes_at m s bs → Forall (λ c, c ≠ 0) bs → Z.of_nat (length bs) = maxlen →
  0 < maxlen → 0 <= s → s + maxlen <= 2 ^ 32 →
  strnlen s maxlen m = Ok (maxlen - 1).
Proof.
  intros Hb Hnz Hl Hpos Hs Hw. unfold strnlen.
  rewrite (strnlen_from_ok m _ s 0 maxlen bs); try done; try lia.
  - rewrite u32_small; [done|]. unfold is_u32. lia.
  - by rewrite Z.add_0_r.
Qed.

(* ------------------------------------------------------------------ *)
(** * Concrete inputs *)

(** The strings "kernel" and "kern" at 4097 and 4104. *)
Definition sample_bytes : list Z := 0 :: cstr "kernel" ++ cstr "kern" ++ [9; 9; 9].
Definition sample_mem : mem := map_bytes 4096 sample_bytes ∅.

(** [bytes_at], computed. *)
Fixpoint has_bytes (m : mem) (a : Z) (bs : list Z) : bool :=
  match bs with
  | [] => true
  | b :: bs' => bool_decide (m !! a = Some b) && has_bytes m (a + 1) bs'
  end.

Lemma has_bytes_ok m a bs : has_bytes m a bs = true → bytes_at m a bs.
Proof.
  revert a. induction bs as [|b bs IH]; intros a; cbn [has_bytes].
  - by intros _ [|?] ?.
  - rewrite andb_true_iff, bool_decide_eq_true, bytes_at_cons. intros [? ?]. auto.
Qed.

Ltac sample :=
  repeat match goal with
  | |- cstr_at _ _ _ => split; [|split]
  | |- bytes_at _ _ _ => apply has_bytes_ok; vm_compute; reflexivity
  | |- Forall _ _ => unfold is_u8; refine (bool_decide_unpack _ _); vm_compute; exact I
  | |- mapped _ _ _ =>
      unfold mapped; apply (map_bytes_mapped 4096 sample_bytes ∅)
  | |- mem_bytes sample_mem => apply map_bytes_bytes; [|apply mem_bytes_empty]
  | |- word_backed sample_mem => apply map_bytes_word_backed; [reflexivity|reflexivity|apply word_backed_empty]
  | |- _ => lia || (vm_compute; reflexivity)
  end.

Lemma strlen_spec_witness : strlen 4097 sample_mem = Ok 6.
Proof. apply (strlen_spec sample_mem 4097 (chars "kernel")); sample. Defined.

Lemma memcmp_spec_witness :
  ∃ r, memcmp 4097 4104 5 sample_mem = Ok r ∧
    (r = 0 ↔ chars "kerne" = cstr "kern") ∧ (chars "kerne" ≠ cstr "kern" → r = -7).
Proof. apply (memcmp_spec sample_mem 4097 4104 5 (chars "kerne") (cstr "kern")); sample. Defined.

Lemma strcmp_spec_witness :
  strcmp 4097 4104 sample_mem = Ok 101 ∧ (101 = 0 ↔ chars "kernel" = chars "kern").
Proof. apply (strcmp_spec sample_mem 4097 4104 (chars "kernel") (chars "kern")); sample. Defined.

Lemma memcpy_spec_witness :
  ∃ m', memcpy 4104 4097 4 sample_mem = Ok (4104, m') ∧ bytes_at m' 4104 (chars "kern") ∧
    same_outside 4104 4 sample_mem m'.
Proof.
  apply (memcpy_spec sample_mem 4104 4097 4 (chars "kern")); sample.
  intros x Hx. apply (map_bytes_mapped 4096 sample_bytes ∅). simpl. lia.
Defined.

Lemma word_aligned_memset_spec_witness :
  ∃ m', word_aligned_memset 4100 7 2 sample_mem = Ok m' ∧
    same_outside 4100 8 sample_mem m' ∧ ∀ i, 0 <= i < 2 → load32 m' (4100 + 4 * i) = Ok 7.
Proof.
  apply (word_aligned_memset_spec sample_mem 4100 7 2); unfold is_u32; sample.
  intros x Hx. apply (map_bytes_mapped 4096 sample_bytes ∅). simpl. lia.
Defined.

Lemma strncmp_first_char_only_witness : strncmp 4097 4104 6 sample_mem = Ok 0.
Proof.
  apply (strncmp_first_char_only sample_mem 4097 4104 107 (chars "ernel") (chars "ern")); sample.
Defined.

Lemma strrchr_diverges_witness : strrchr 1000 4097 108 sample_mem = NoFuel.
Proof. apply (strrchr_diverges sample_mem 4097 107 (chars "ernel") 108 1000); sample. Defined.

Lemma strnlen_unterminated_witness : strnlen 4097 6 sample_mem = Ok 5.
Proof. apply (strnlen_unterminated sample_mem 4097 6 (chars "kernel")); sample. Defined.
