(* ===== verification/Bitmap.v ===== *)
(** src/klibc/bitmap.c: the bitmap of used slots.  The structure is a record, its
    words lie in byte memory from [slots_ptr] on; slot [i] is bit [i mod 32] of
    word [i / 32].  At the end, the interface the physical allocator relies on. *)
From S2P Require Import Prelude Machine Registers Printf MathUtils Console Crt0.
From stdpp Require Import base list gmap.
From Stdlib Require Import ZArith Lia.
From Stdlib Require String.
#[local] Open Scope Z_scope.

Definition WORD_SIZE : Z := 32.
Definition WORD_MAX : Z := UINT_MAX.

(** [&map->slots_ptr[i]]. *)
Definition slot_word_addr (bm : bitmap) (i : Z) : Z := u32 (slots_ptr bm + 4 * i).

Definition bitmap_is_used (bm : bitmap) (slot_no : Z) (m : mem) : res bool :=
  w ← load32 m (slot_word_addr bm (slot_no / WORD_SIZE));
  Ok (negb (Z.land w (u32 (Z.shiftl 1 (slot_no mod WORD_SIZE))) =? 0)).

Definition _enable_bit (bm : bitmap) (index : Z) (m : mem) : res (bool * mem) :=
  let word_index := index / WORD_SIZE in
  let bit_index := index mod WORD_SIZE in
  if word_index <? slots_size bm then
    w ← load32 m (slot_word_addr bm word_index);
    m ← store32 m (slot_word_addr bm word_index) (Z.lor w (u32 (Z.shiftl 1 bit_index)));
    Ok (true, m)
  else Ok (false, m).

Section with_platform.
Context `{Platform}.

(** The structure [bitmap_init] leaves behind, given the one it is called on. *)
Definition bitmap_init (map : bitmap) (slots size : Z) : K bitmap :=
  DEBUG_ASSERT (negb (slots =? 0)) "slots != NULL" "src/klibc/bitmap.c" "bitmap_init" 28;;
  if (slots =? 0) || (size =? 0) then mret map
  else
    let map := Bitmap size (u32 (size * WORD_SIZE)) 0 slots in
    writing (fun m => m ← word_aligned_memset slots 0 size m; Ok (map, m)).

(** The loop of [bitmap_allocate_slot] from word [i] on. *)
Fixpoint allocate_from (fuel : nat) (map : bitmap) (i : Z) (m : mem) :
    res (Z * bitmap * mem) :=
  match fuel with
  | O => NoFuel
  | S fuel' =>
      if i <? slots_size map then
        w ← load32 m (slot_word_addr map i);
        if w =? WORD_MAX then allocate_from fuel' map (i + 1) m
        else
          let offset := count_trailing_zeroes (u32 (Z.lnot w)) in
          m ← store32 m (slot_word_addr map i) (Z.lor w (u32 (Z.shiftl 1 offset)));
          let map := Bitmap (slots_size map) (u32 (free_slots_count map - 1))
                       (last_freed map) (slots_ptr map) in
          Ok (s32 (WORD_SIZE * i + offset), map, m)
      else Ok (-1, map, m)
  end.

(** [None] is the null pointer. *)
Definition bitmap_allocate_slot (map : option bitmap) (m : mem) :
    res (Z * option bitmap * mem) :=
  match map with
  | None => Ok (-1, None, m)
  | Some map =>
      '(r, map, m) ← allocate_from (S (Z.to_nat (slots_size map))) map 0 m;
      Ok (r, Some map, m)
  end.

Definition bitmap_free_slot (map : bitmap) (slot : Z) : K bitmap :=
  DEBUG_ASSERT (slot <? slots_size map) "map->slots_size > slot"
    "src/klibc/bitmap.c" "bitmap_free_slot" 56;;
  let word := slot / WORD_SIZE in
  let offset := slot mod WORD_SIZE in
  writing (fun m =>
    snapshot ← load32 m (slot_word_addr map word);
    m ← store32 m (slot_word_addr map word)
          (Z.land snapshot (u32 (Z.lnot (Z.shiftl 1 offset))));
    now ← load32 m (slot_word_addr map word);
    Ok (if negb (now =? snapshot)
        then Bitmap (slots_size map) (u32 (free_slots_count map + 1))
               (last_freed map) (slots_ptr map)
        else map, m)).
End with_platform.

Fixpoint mark_from (n : nat) (bm : bitmap) (i : Z) (m : mem) : res mem :=
  match n with
  | O => Ok m
  | S n' => '(_, m) ← _enable_bit bm i m; mark_from n' bm (u32 (i + 1)) m
  end.

(** [for (i = first_slot; i < last_slot; ++i)], with [last_slot] reduced to 32 bits. *)
Definition bitmap_mark_as_used (bm : bitmap) (first_slot slots_to_mark : Z) (m : mem) :
    res mem :=
  let last_slot := u32 (first_slot + slots_to_mark) in
  mark_from (Z.to_nat (last_slot - first_slot)) bm first_slot m.

(* ------------------------------------------------------------------ *)
(** * Well-formed bitmaps *)

Definition capacity (bm : bitmap) : Z := WORD_SIZE * slots_size bm.

Definition storage (bm : bitmap) : Z := 4 * slots_size bm.

(** The words are aligned, backed by memory, and few enough for an [int] index. *)
Record bitmap_ok (bm : bitmap) (m : mem) : Prop := {
  ok_size : 0 <= slots_size bm ∧ capacity bm <= 2 ^ 31;
  ok_ptr : 0 <= slots_ptr bm ∧ slots_ptr bm mod 4 = 0 ∧
           slots_ptr bm + storage bm <= 2 ^ 32;
  ok_mapped : mapped m (slots_ptr bm) (storage bm);
  ok_bytes : mem_bytes m;
}.

(** Word [i] and slot [i] of the bitmap. *)
Definition word_at (bm : bitmap) (m : mem) (i : Z) : Z :=
  match load32 m (slots_ptr bm + 4 * i) with Ok w => w | _ => 0 end.
Definition used (bm : bitmap) (m : mem) (i : Z) : bool :=
  Z.testbit (word_at bm m (i / 32)) (i mod 32).

(** The number of slots below [n] that are free. *)
Definition free_below (bm : bitmap) (m : mem) (n : Z) : Z :=
  Z.of_nat (length (filter (fun i => used bm m i = false) (seqZ 0 n))).

(** [free_slots_count] says what its comment promises: the number of zero bits. *)
Definition count_ok (bm : bitmap) (m : mem) : Prop :=
  free_slots_count bm = free_below bm m (capacity bm).

Ltac bitmap_unfold := unfold capacity, storage, WORD_SIZE in *.

Section words.
Context (bm : bitmap) (m : mem) (Hok : bitmap_ok bm m).

Lemma slot_word_addr_ok i :
  0 <= i < slots_size bm →
  slot_word_addr bm i = slots_ptr bm + 4 * i ∧ (slots_ptr bm + 4 * i) mod 4 = 0 ∧
  mapped m (slots_ptr bm + 4 * i) 4.
Proof using Hok.
  intros Hi. destruct Hok as [Hs (Hp & Ha & Hw) Hm _]. bitmap_unfold.
  unfold slot_word_addr. rewrite u32_small by (unfold is_u32; lia).
  split_and!; [done| |].
  - rewrite (Z.mul_comm 4). by rewrite Z.mod_add by lia.
  - intros x Hx. apply Hm. lia.
Qed.

Lemma word_at_load i :
  0 <= i < slots_size bm →
  load32 m (slots_ptr bm + 4 * i) = Ok (word_at bm m i) ∧ is_u32 (word_at bm m i).
Proof using Hok.
  intros Hi. destruct (slot_word_addr_ok i Hi) as (_ & Ha & Hm).
  destruct (load32_total m _ (ok_bytes _ _ Hok) Ha Hm) as (w & Hw & Hu).
  unfold word_at. by rewrite Hw.
Qed.

(** Storing word [k]: the other words and the memory outside are untouched. *)
Lemma store_word k v :
  0 <= k < slots_size bm → is_u32 v →
  ∃ m', store32 m (slot_word_addr bm k) v = Ok m' ∧ bitmap_ok bm m' ∧
    same_outside (slots_ptr bm) (storage bm) m m' ∧
    ∀ j, 0 <= j < slots_size bm → word_at bm m' j = if decide (j = k) then v else word_at bm m j.
Proof using Hok.
  intros Hk Hv. destruct (slot_word_addr_ok k Hk) as (Hadr & Ha & Hm).
  rewrite Hadr. destruct (store32_full m _ v Ha Hm Hv) as (m' & He & Hs & Hl & Hmp).
  destruct Hok as [H1 H2 H3 H4]. exists m'. split_and!; [done| | |].
  - constructor; [done..|by apply Hmp|by eapply store32_bytes].
  - eapply same_outside_weaken; [done|bitmap_unfold; lia..].
  - intros j Hj. unfold word_at. case_decide as E; [subst; by rewrite Hl|].
    by rewrite (load32_same_outside m m' _ _ _ Hs) by lia.
Qed.
End words.

Lemma slot_split i n : 0 <= i < 32 * n → 0 <= i / 32 < n ∧ 0 <= i mod 32 < 32.
Proof. intros. Z.div_mod_to_equations; lia. Qed.

Lemma slot_eq i j : i / 32 = j / 32 → i mod 32 = j mod 32 → i = j.
Proof. intros. rewrite (Z.div_mod i 32), (Z.div_mod j 32) by lia. lia. Qed.

(** Setting one bit of one word uses exactly one more slot. *)
Lemma store_set_bit bm m i :
  bitmap_ok bm m → 0 <= i < capacity bm →
  ∃ m', store32 m (slot_word_addr bm (i / 32))
          (Z.lor (word_at bm m (i / 32)) (u32 (Z.shiftl 1 (i mod 32)))) = Ok m' ∧
    bitmap_ok bm m' ∧ same_outside (slots_ptr bm) (storage bm) m m' ∧
    ∀ j, 0 <= j < capacity bm → used bm m' j = (j =? i) || used bm m j.
Proof.
  intros Hok Hi. bitmap_unfold. destruct (slot_split i _ Hi) as [Hq Hr].
  destruct (word_at_load bm m Hok _ Hq) as [_ Hu].
  destruct (store_word bm m Hok (i / 32)
    (Z.lor (word_at bm m (i / 32)) (u32 (Z.shiftl 1 (i mod 32)))) Hq)
    as (m' & He & Hok' & Hs & Hw); [apply lor_u32; auto with kernel|].
  exists m'. split_and!; [done..|]. intros j Hj. destruct (slot_split j _ Hj) as [Hqj Hrj].
  unfold used. rewrite Hw by done. case_decide as E.
  - rewrite Z.lor_spec, testbit_u32, testbit_one by lia. rewrite E.
    destruct (Z.ltb_spec (j mod 32) 32); [|lia]. cbn [andb].
    destruct (Z.eqb_spec j i) as [->|Hne].
    + by rewrite Z.eqb_refl, orb_true_r.
    + destruct (Z.eqb_spec (j mod 32) (i mod 32)); [by destruct Hne; apply slot_eq|].
      by rewrite orb_false_r.
  - destruct (Z.eqb_spec j i) as [->|]; done.
Qed.

(** Clearing one bit. *)
Lemma store_clear_bit bm m i :
  bitmap_ok bm m → 0 <= i < capacity bm →
  let w := word_at bm m (i / 32) in
  let w' := Z.land w (u32 (Z.lnot (Z.shiftl 1 (i mod 32)))) in
  ∃ m', store32 m (slot_word_addr bm (i / 32)) w' = Ok m' ∧
    bitmap_ok bm m' ∧ same_outside (slots_ptr bm) (storage bm) m m' ∧
    load32 m' (slot_word_addr bm (i / 32)) = Ok w' ∧
    (w' = w ↔ used bm m i = false) ∧
    ∀ j, 0 <= j < capacity bm → used bm m' j = negb (j =? i) && used bm m j.
Proof.
  intros Hok Hi w w'. bitmap_unfold. destruct (slot_split i _ Hi) as [Hq Hr].
  destruct (word_at_load bm m Hok _ Hq) as [_ Hu]. fold w in Hu.
  assert (is_u32 w') as Hu' by (by apply land_u32_l).
  assert (∀ k, 0 <= k < 32 → Z.testbit w' k = negb (k =? i mod 32) && Z.testbit w k) as Hbit.
  { intros k Hk. unfold w'.
    rewrite Z.land_spec, testbit_u32, Z.lnot_spec, testbit_one by lia.
    destruct (Z.ltb_spec k 32); [|lia]. apply andb_comm. }
  destruct (store_word bm m Hok (i / 32) w' Hq Hu') as (m' & He & Hok' & Hs & Hw).
  exists m'. split_and!; [done..| | |].
  - destruct (slot_word_addr_ok bm m' Hok' _ Hq) as (-> & _).
    destruct (word_at_load bm m' Hok' _ Hq) as [-> _]. rewrite Hw by done.
    by rewrite decide_True.
  - unfold used. fold w. split.
    + intros E. rewrite <- E, Hbit by lia. by rewrite Z.eqb_refl.
    + intros E. apply u32_bits_inj; [done..|]. intros k Hk. rewrite Hbit by lia.
      destruct (Z.eqb_spec k (i mod 32)) as [->|]; [by rewrite E|done].
  - intros j Hj. destruct (slot_split j _ Hj) as [Hqj Hrj].
    unfold used. rewrite Hw by done. case_decide as E.
    + rewrite Hbit by lia. unfold w. rewrite <- E.
      destruct (Z.eqb_spec j i) as [->|Hne]; [by rewrite Z.eqb_refl|].
      destruct (Z.eqb_spec (j mod 32) (i mod 32)); [by destruct Hne; apply slot_eq|done].
    + destruct (Z.eqb_spec j i) as [->|]; done.
Qed.

(* ------------------------------------------------------------------ *)
(** * Counting free slots *)

Definition count_false (f : Z → bool) (n : Z) : Z :=
  Z.of_nat (length (filter (fun i => f i = false) (seqZ 0 n))).

Lemma count_false_succ f n :
  0 <= n → count_false f (n + 1) = count_false f n + b2z (negb (f n)).
Proof.
  intros Hn. unfold count_false. rewrite seqZ_app by lia. rewrite filter_app, length_app.
  rewrite Z.add_0_l. change (seqZ n 1) with [0 + n]. rewrite Z.add_0_l.
  rewrite filter_cons. case_decide as E; rewrite ?E; simpl; [lia|].
  destruct (f n); [simpl; lia|done].
Qed.

Lemma count_false_ind (P : Z → Prop) :
  P 0 → (∀ n, 0 <= n → P n → P (n + 1)) → ∀ n, 0 <= n → P n.
Proof. intros H0 HS. apply natlike_ind; [done|]. intros n Hn IH. by apply HS. Qed.

Lemma count_false_ext f g n :
  0 <= n → (∀ j, 0 <= j < n → f j = g j) → count_false f n = count_false g n.
Proof.
  intros Hn. pattern n. revert n Hn. apply count_false_ind; [done|].
  intros n Hn IH H. rewrite !count_false_succ by done. rewrite IH by (intros; apply H; lia).
  by rewrite H by lia.
Qed.

(** Setting or clearing one entry. *)
Lemma count_false_update f i v n :
  0 <= i < n →
  count_false (fun j => if j =? i then v else f j) n =
  count_false f n + b2z (negb v) - b2z (negb (f i)).
Proof.
  intros Hi. assert (0 <= n) as Hn by lia. revert Hi. pattern n. revert n Hn.
  apply count_false_ind; [lia|]. intros n Hn IH Hi.
  rewrite !count_false_succ by done. destruct (Z.eqb_spec n i) as [->|Hne].
  - rewrite (count_false_ext _ f i) by
      (done || (intros j Hj; destruct (Z.eqb_spec j i); [lia|done])). lia.
  - rewrite IH by lia. lia.
Qed.

Lemma count_false_all f n : 0 <= n → (∀ j, 0 <= j < n → f j = false) → count_false f n = n.
Proof.
  intros Hn. pattern n. revert n Hn. apply count_false_ind; [done|].
  intros n Hn IH H. rewrite count_false_succ, IH by (done || (intros; apply H; lia)).
  by rewrite H by lia.
Qed.

Lemma count_false_range f n : 0 <= n → 0 <= count_false f n <= n.
Proof.
  intros Hn. pattern n. revert n Hn. apply count_false_ind; [unfold count_false; simpl; lia|].
  intros n Hn IH. rewrite count_false_succ by done. destruct (f n); simpl; lia.
Qed.

Lemma count_false_pos f i n : 0 <= i < n → f i = false → 0 < count_false f n.
Proof.
  intros Hi Hf. pose proof (count_false_update f i true n Hi) as H.
  pose proof (count_false_range (fun j => if j =? i then true else f j) n ltac:(lia)).
  rewrite Hf in H. simpl in H. lia.
Qed.

Lemma free_below_count bm m n : free_below bm m n = count_false (used bm m) n.
Proof. done. Qed.

(* ------------------------------------------------------------------ *)
(** * Operations on well-formed bitmaps *)

Lemma enable_bit_ok bm m i :
  bitmap_ok bm m → 0 <= i →
  if i <? capacity bm then
    ∃ m', _enable_bit bm i m = Ok (true, m') ∧ bitmap_ok bm m' ∧
      same_outside (slots_ptr bm) (storage bm) m m' ∧
      ∀ j, 0 <= j < capacity bm → used bm m' j = (j =? i) || used bm m j
  else _enable_bit bm i m = Ok (false, m).
Proof.
  intros Hok Hi. unfold _enable_bit.
  assert ((i / WORD_SIZE <? slots_size bm) = (i <? capacity bm)) as ->.
  { bitmap_unfold. apply eq_true_iff_eq. rewrite !Z.ltb_lt.
    pose proof (Z.div_lt_upper_bound i 32 (slots_size bm)).
    pose proof (Z.mul_div_le i 32). pose proof (Z.mod_pos_bound i 32).
    pose proof (Z.div_mod i 32). lia. }
  destruct (Z.ltb_spec i (capacity bm)); [|done].
  bitmap_unfold. destruct (slot_split i (slots_size bm) ltac:(lia)) as [Hq Hr].
  destruct (word_at_load bm m Hok _ Hq) as [Hl _].
  destruct (slot_word_addr_ok bm m Hok _ Hq) as (Ha & _ & _).
  destruct (store_set_bit bm m i Hok ltac:(bitmap_unfold; lia)) as (m' & He & Hrest).
  exists m'. split; [|done]. rewrite Ha, Hl in *. cbn [mbind res_bind]. by rewrite He.
Qed.

(** Marking [n] slots from [i] on: those within the capacity become used. *)
Lemma mark_from_ok n bm i m :
  bitmap_ok bm m → 0 <= i → i + Z.of_nat n < 2 ^ 32 →
  ∃ m', mark_from n bm i m = Ok m' ∧ bitmap_ok bm m' ∧
    same_outside (slots_ptr bm) (storage bm) m m' ∧
    ∀ j, 0 <= j < capacity bm →
      used bm m' j = ((i <=? j) && (j <? i + Z.of_nat n)) || used bm m j.
Proof.
  revert i m. induction n as [|n IH]; intros i m Hok Hi Hn.
  - exists m. split_and!; [done|done|apply same_outside_refl|]. intros j Hj.
    destruct (Z.leb_spec i j), (Z.ltb_spec j (i + Z.of_nat 0)); simpl; done || lia.
  - cbn [mark_from]. pose proof (enable_bit_ok bm m i Hok Hi) as He.
    rewrite u32_small by (unfold is_u32; lia).
    destruct (Z.ltb_spec i (capacity bm)) as [Hlt|Hge].
    + destruct He as (m1 & -> & Hok1 & Hs1 & Hu1). cbn [mbind res_bind].
      destruct (IH (i + 1) m1 Hok1) as (m2 & -> & Hok2 & Hs2 & Hu2); [lia..|].
      exists m2. split_and!; [done..|by eapply same_outside_trans|].
      intros j Hj. rewrite Hu2, Hu1 by done. rewrite orb_assoc. f_equal.
      destruct (Z.leb_spec (i + 1) j), (Z.ltb_spec j (i + 1 + Z.of_nat n)), (Z.eqb_spec j i),
        (Z.leb_spec i j), (Z.ltb_spec j (i + Z.of_nat (S n))); simpl; done || lia.
    + rewrite He. cbn [mbind res_bind].
      destruct (IH (i + 1) m Hok) as (m2 & -> & Hok2 & Hs2 & Hu2); [lia..|].
      exists m2. split_and!; [done..|]. intros j Hj. rewrite Hu2 by done. f_equal.
      destruct (Z.leb_spec (i + 1) j), (Z.leb_spec i j); simpl; done || lia.
Qed.

(** The state after an allocation from a bitmap that has a free slot. *)
Definition after_allocate (bm : bitmap) : bitmap :=
  Bitmap (slots_size bm) (u32 (free_slots_count bm - 1)) (last_freed bm) (slots_ptr bm).

(** [i] is the lowest free slot. *)
Definition lowest_free (bm : bitmap) (m : mem) (i : Z) : Prop :=
  0 <= i < capacity bm ∧ used bm m i = false ∧ ∀ j, 0 <= j < i → used bm m j = true.

Definition all_used (bm : bitmap) (m : mem) : Prop :=
  ∀ j, 0 <= j < capacity bm → used bm m j = true.

Lemma ctz_not w :
  is_u32 w → w ≠ WORD_MAX →
  let o := count_trailing_zeroes (u32 (Z.lnot w)) in
  0 <= o < 32 ∧ Z.testbit w o = false ∧ ∀ j, 0 <= j < o → Z.testbit w j = true.
Proof.
  intros Hw Hne o.
  assert (∀ j, 0 <= j < 32 → Z.testbit (u32 (Z.lnot w)) j = negb (Z.testbit w j)) as Hb.
  { intros j Hj. rewrite testbit_u32, Z.lnot_spec by lia. by destruct (Z.ltb_spec j 32); [|lia]. }
  destruct (ctz_lowest (u32 (Z.lnot w))) as (H1 & H2 & H3); [auto with kernel| |].
  { intros Hz. apply Hne. apply word_max_bits; [done|]. intros i Hi.
    specialize (Hb i Hi). rewrite Hz, Z.testbit_0_l in Hb. by destruct (Z.testbit w i). }
  fold o in H1, H2, H3. rewrite Hb in H2 by done. split_and!; [lia..| |].
  - by destruct (Z.testbit w o).
  - intros j Hj. specialize (H3 j Hj). rewrite Hb in H3 by lia. by destruct (Z.testbit w j).
Qed.

Lemma allocate_from_ok fuel bm i m :
  bitmap_ok bm m → 0 <= i <= slots_size bm → (Z.to_nat (slots_size bm - i) < fuel)%nat →
  (∀ j, 0 <= j < 32 * i → used bm m j = true) →
  (∃ k m', allocate_from fuel bm i m = Ok (k, after_allocate bm, m') ∧
     lowest_free bm m k ∧ bitmap_ok bm m' ∧
     same_outside (slots_ptr bm) (storage bm) m m' ∧
     ∀ j, 0 <= j < capacity bm → used bm m' j = (j =? k) || used bm m j)
  ∨ (allocate_from fuel bm i m = Ok (-1, bm, m) ∧ all_used bm m).
Proof.
  intros Hok. revert i. induction fuel as [|fuel IH]; intros i Hi Hf Hused; [lia|].
  cbn [allocate_from]. destruct (Z.ltb_spec i (slots_size bm)) as [Hlt|Hge].
  - destruct (word_at_load bm m Hok i ltac:(lia)) as [Hl Hu].
    destruct (slot_word_addr_ok bm m Hok i ltac:(lia)) as (Ha & _ & _).
    rewrite Ha, Hl. cbn [mbind res_bind].
    assert (∀ o, 0 <= o < 32 → (32 * i + o) / 32 = i ∧ (32 * i + o) mod 32 = o) as Hsplit.
    { intros o Ho. split; Z.div_mod_to_equations; lia. }
    destruct (Z.eqb_spec (word_at bm m i) WORD_MAX) as [E|E].
    + apply IH; [lia..|]. intros j Hj.
      destruct (Z_lt_le_dec j (32 * i)); [apply Hused; lia|].
      unfold used. destruct (Hsplit (j - 32 * i)) as [Hq Hr]; [lia|].
      replace (32 * i + (j - 32 * i)) with j in Hq, Hr by lia. rewrite Hq, Hr, E.
      apply testbit_word_max. lia.
    + left. destruct (ctz_not _ Hu E) as (Ho & Hfree & Hlow).
      set (o := count_trailing_zeroes (u32 (Z.lnot (word_at bm m i)))) in *.
      destruct (Hsplit o Ho) as [Hq Hr].
      destruct (store_set_bit bm m (32 * i + o) Hok) as (m' & He & Hok' & Hs & Hu');
        [bitmap_unfold; lia|].
      rewrite Hq, Hr, Ha in He. exists (32 * i + o), m'. rewrite He. cbn [mbind res_bind].
      split_and!; [|split_and!|done..].
      * unfold WORD_SIZE. rewrite s32_small; [done|].
        destruct (ok_size _ _ Hok). bitmap_unfold. unfold is_s32. lia.
      * lia.
      * bitmap_unfold. lia.
      * unfold used. by rewrite Hq, Hr.
      * intros j Hj. destruct (Z_lt_le_dec j (32 * i)); [apply Hused; lia|].
        unfold used. destruct (Hsplit (j - 32 * i)) as [Hqj Hrj]; [lia|].
        replace (32 * i + (j - 32 * i)) with j in Hqj, Hrj by lia. rewrite Hqj, Hrj.
        apply Hlow. lia.
  - right. split; [done|]. intros j Hj. apply Hused. bitmap_unfold. lia.
Qed.

Lemma allocate_ok bm m :
  bitmap_ok bm m →
  (∃ k m', bitmap_allocate_slot (Some bm) m = Ok (k, Some (after_allocate bm), m') ∧
     lowest_free bm m k ∧ bitmap_ok bm m' ∧
     same_outside (slots_ptr bm) (storage bm) m m' ∧
     ∀ j, 0 <= j < capacity bm → used bm m' j = (j =? k) || used bm m j)
  ∨ (bitmap_allocate_slot (Some bm) m = Ok (-1, Some bm, m) ∧ all_used bm m).
Proof.
  intros Hok. destruct (ok_size _ _ Hok) as [Hs _]. unfold bitmap_allocate_slot.
  destruct (allocate_from_ok (S (Z.to_nat (slots_size bm))) bm 0 m Hok)
    as [(k & m' & He & Hrest)|[He Hall]]; [lia..| |].
  - left. exists k, m'. rewrite He. done.
  - right. rewrite He. done.
Qed.

(** Only the size and the pointer matter to the meaning of the words. *)
Lemma bitmap_ok_count bm m c :
  bitmap_ok bm m → bitmap_ok (Bitmap (slots_size bm) c (last_freed bm) (slots_ptr bm)) m.
Proof. intros []. by constructor. Qed.

Lemma count_ok_update bm m m' c k v :
  bitmap_ok bm m → count_ok bm m → 0 <= k < capacity bm →
  (∀ j, 0 <= j < capacity bm → used bm m' j = if j =? k then v else used bm m j) →
  c = u32 (free_slots_count bm + b2z (negb v) - b2z (negb (used bm m k))) →
  count_ok (Bitmap (slots_size bm) c (last_freed bm) (slots_ptr bm)) m'.
Proof.
  intros Hok Hc Hk Hu ->. unfold count_ok in *. simpl.
  change (capacity _) with (capacity bm). change (free_below _ m' (capacity bm)) with
    (count_false (used bm m') (capacity bm)).
  rewrite (count_false_ext _ _ (capacity bm) ltac:(lia) Hu), count_false_update by done.
  rewrite Hc, free_below_count. apply u32_small. destruct (ok_size _ _ Hok) as [_ Hs].
  pose proof (count_false_update (used bm m) k v (capacity bm) Hk) as He.
  pose proof (count_false_range (fun j => if j =? k then v else used bm m j) (capacity bm)
    ltac:(lia)). unfold is_u32. lia.
Qed.

Lemma after_allocate_ok bm m : bitmap_ok bm m → bitmap_ok (after_allocate bm) m.
Proof. apply bitmap_ok_count. Qed.

Lemma after_allocate_count bm m m' k :
  bitmap_ok bm m → count_ok bm m → lowest_free bm m k →
  (∀ j, 0 <= j < capacity bm → used bm m' j = (j =? k) || used bm m j) →
  count_ok (after_allocate bm) m'.
Proof.
  intros Hok Hc (Hk & Hf & _) Hu. apply (count_ok_update bm m m' _ k true); try done.
  rewrite Hf. simpl. f_equal. lia.
Qed.

Lemma mark_used_ok bm first n m :
  bitmap_ok bm m → 0 <= first → 0 <= n → first + n < 2 ^ 32 →
  ∃ m', bitmap_mark_as_used bm first n m = Ok m' ∧ bitmap_ok bm m' ∧
    same_outside (slots_ptr bm) (storage bm) m m' ∧
    ∀ j, 0 <= j < capacity bm →
      used bm m' j = ((first <=? j) && (j <? first + n)) || used bm m j.
Proof.
  intros Hok Hf Hn Hw. unfold bitmap_mark_as_used.
  rewrite u32_small by (unfold is_u32; lia).
  destruct (mark_from_ok (Z.to_nat (first + n - first)) bm first m)
    as (m' & He & Hok' & Hs & Hu); [done|lia..|].
  exists m'. split_and!; [done..|]. intros j Hj. rewrite Hu by done.
  by replace (first + Z.of_nat (Z.to_nat (first + n - first))) with (first + n) by lia.
Qed.

Section with_platform.
Context `{Platform}.

(** The structure and memory after a successful [bitmap_init]. *)
Definition blank_bitmap (slots size : Z) : bitmap := Bitmap size (u32 (size * WORD_SIZE)) 0 slots.

Lemma bitmap_init_ok old slots size s :
  0 < slots → slots mod 4 = 0 → 0 < size → 32 * size <= 2 ^ 31 → slots + 4 * size <= 2 ^ 32 →
  mapped (k_mem s) slots (4 * size) → mem_bytes (k_mem s) →
  ∃ m', bitmap_init old slots size s = Ret (blank_bitmap slots size) (set_mem m' s) ∧
    bitmap_ok (blank_bitmap slots size) m' ∧ same_outside slots (4 * size) (k_mem s) m' ∧
    count_ok (blank_bitmap slots size) m' ∧
    ∀ j, 0 <= j < 32 * size → used (blank_bitmap slots size) m' j = false.
Proof.
  intros Hp Ha Hsz Hc Hw Hm Hb.
  destruct (word_memset_spec (Z.to_nat size) slots 0 (k_mem s))
    as (m' & He & Hs & Hb' & Hk & Hl); rewrite ?Z2Nat.id in * by lia; try done; try lia.
  exists m'. assert (∀ j, 0 <= j < 32 * size → used (blank_bitmap slots size) m' j = false) as Hu.
  { intros j Hj. destruct (slot_split j size Hj) as [Hq _]. unfold used, word_at. simpl.
    rewrite Hl by done. apply Z.testbit_0_l. }
  split_and!; [| |done| |done].
  - unfold bitmap_init, DEBUG_ASSERT. destruct (Z.eqb_spec slots 0), (Z.eqb_spec size 0); try lia.
    cbn [negb orb]. unfold mbind, K_bind. destruct ndebug; cbn [mret K_ret];
      unfold writing, word_aligned_memset; rewrite He; done.
  - constructor; bitmap_unfold; cbn [slots_size slots_ptr blank_bitmap]; auto; split_and!; lia || done.
  - unfold count_ok. rewrite free_below_count. bitmap_unfold.
    cbn [slots_size free_slots_count blank_bitmap]. unfold WORD_SIZE.
    rewrite count_false_all; [|lia|exact Hu]. rewrite u32_small; [lia|]. unfold is_u32. lia.
Qed.

Lemma free_ok bm i s :
  bitmap_ok bm (k_mem s) → 0 <= i < capacity bm → ndebug = true ∨ i < slots_size bm →
  ∃ m', bitmap_free_slot bm i s =
      Ret (if used bm (k_mem s) i
           then Bitmap (slots_size bm) (u32 (free_slots_count bm + 1)) (last_freed bm) (slots_ptr bm)
           else bm) (set_mem m' s) ∧
    bitmap_ok bm m' ∧ same_outside (slots_ptr bm) (storage bm) (k_mem s) m' ∧
    ∀ j, 0 <= j < capacity bm → used bm m' j = negb (j =? i) && used bm (k_mem s) j.
Proof.
  intros Hok Hi Hd. destruct (slot_split i _ Hi) as [Hq _].
  destruct (store_clear_bit bm _ i Hok Hi) as (m' & He & Hok' & Hs & Hl & Hch & Hu).
  exists m'. split_and!; [|done..]. unfold bitmap_free_slot, DEBUG_ASSERT.
  assert (ndebug = true ∨ (i <? slots_size bm) = true) as Hd' by
    (destruct Hd; [by left|right; by apply Z.ltb_lt]).
  unfold mbind, K_bind.
  assert (∀ P Q : K unit, (if ndebug then mret tt else if i <? slots_size bm then P else Q)
    = if ndebug then mret tt else P) as Hsk.
  { intros P Q. destruct Hd' as [->| ->]; done. }
  rewrite Hsk. destruct ndebug; cbn [mret K_ret]; unfold writing, WORD_SIZE;
    destruct (slot_word_addr_ok bm _ Hok _ Hq) as (Ha & _ & _);
    destruct (word_at_load bm _ Hok _ Hq) as [Hld _];
    rewrite Ha in *; rewrite Hld; cbn [mbind res_bind]; rewrite He; cbn [mbind res_bind];
    rewrite Hl; cbn [mbind res_bind];
    (destruct (Z.eqb_spec (Z.land (word_at bm (k_mem s) (i / 32))
        (u32 (Z.lnot (Z.shiftl 1 (i mod 32))))) (word_at bm (k_mem s) (i / 32))) as [E|E];
      cbn [negb]; [by rewrite (proj1 Hch E)|destruct (used bm (k_mem s) i); [done|];
        by destruct (E (proj2 Hch eq_refl))]).
Qed.
End with_platform.

(* ------------------------------------------------------------------ *)
(** * The interface to the physical allocator *)

(** A pool of numbered slots. A client needs no more than this: an allocation
    takes some unused slot and no other, and fails only when all are taken. *)
Class SlotAllocator (A : Type) := {
  sa_inv : A → Prop;
  sa_capacity : A → Z;
  sa_used : A → Z → bool;
  sa_alloc : A → res (Z * A);
  sa_alloc_spec : ∀ a, sa_inv a →
    (∃ k a', sa_alloc a = Ok (k, a') ∧ sa_inv a' ∧ sa_capacity a' = sa_capacity a ∧
       0 <= k < sa_capacity a ∧ sa_used a k = false ∧
       ∀ j, 0 <= j < sa_capacity a → sa_used a' j = (j =? k) || sa_used a j)
    ∨ (sa_alloc a = Ok (-1, a) ∧ ∀ j, 0 <= j < sa_capacity a → sa_used a j = true);
}.

(** [n] allocations in a row, keeping every result. *)
Fixpoint alloc_many {A} `{SlotAllocator A} (n : nat) (a : A) : res (list Z * A) :=
  match n with
  | O => Ok ([], a)
  | S n' => '(k, a) ← sa_alloc a; '(ks, a) ← alloc_many n' a; Ok (k :: ks, a)
  end.

Section client.
Context {A} `{SlotAllocator A}.

(** Allocations in a row return distinct slots, none of them in use before. *)
Lemma alloc_many_ok n a :
  sa_inv a →
  ∃ ks a', alloc_many n a = Ok (ks, a') ∧ sa_inv a' ∧ sa_capacity a' = sa_capacity a ∧
    NoDup (filter (λ k, k ≠ -1) ks) ∧
    (∀ k, k ∈ ks → k ≠ -1 → 0 <= k < sa_capacity a ∧ sa_used a k = false) ∧
    ∀ j, 0 <= j < sa_capacity a → sa_used a' j = bool_decide (j ∈ ks) || sa_used a j.
Proof.
  revert a. induction n as [|n IH]; intros a Ha.
  { exists [], a. split_and!; try done; [constructor|by intros k ?%elem_of_nil]. }
  destruct (sa_alloc_spec a Ha) as [(k & a1 & He & Ha1 & Hc & Hk & Hf & Hu)|[He Hall]].
  - destruct (IH a1 Ha1) as (ks & a2 & He2 & Ha2 & Hc2 & Hnd & Hin & Hu2).
    exists (k :: ks), a2. cbn [alloc_many]. rewrite He. cbn [mbind res_bind].
    rewrite He2. cbn [mbind res_bind]. rewrite Hc in *.
    split_and!; [done..|congruence| | |].
    + rewrite filter_cons_True by lia. constructor; [|done].
      intros [Hne Hki]%list_elem_of_filter. destruct (Hin k Hki Hne) as [_ Hkf].
      rewrite Hu, Z.eqb_refl in Hkf by done. done.
    + intros k' [->|Hk']%elem_of_cons Hne; [done|].
      destruct (Hin k' Hk' Hne) as [? Hf']. split; [done|]. rewrite Hu in Hf' by done.
      by apply orb_false_iff in Hf' as [_ ?].
    + intros j Hj. rewrite Hu2, Hu by done. rewrite orb_assoc. f_equal.
      destruct (Z.eqb_spec j k) as [->|Hne].
      * rewrite orb_true_r. symmetry. apply bool_decide_eq_true_2. apply elem_of_cons. tauto.
      * rewrite orb_false_r. apply bool_decide_ext. rewrite elem_of_cons. tauto.
  - destruct (IH a Ha) as (ks & a2 & He2 & Ha2 & Hc2 & Hnd & Hin & Hu2).
    exists (-1 :: ks), a2. cbn [alloc_many]. rewrite He. cbn [mbind res_bind].
    rewrite He2. cbn [mbind res_bind]. split_and!; [done..| | |].
    + by rewrite filter_cons_False by tauto.
    + intros k' [->|Hk']%elem_of_cons Hne; [done|auto].
    + intros j Hj. rewrite Hu2 by done. f_equal. apply bool_decide_ext. rewrite elem_of_cons.
      split; [tauto|]. intros [->|?]; [lia|done].
Qed.
End client.

(** The bitmap and the memory it lies in are such a pool. *)
Definition bitmap_alloc (a : bitmap * mem) : res (Z * (bitmap * mem)) :=
  '(k, bm, m) ← bitmap_allocate_slot (Some a.1) a.2;
  Ok (k, (default a.1 bm, m)).

#[export, refine] Instance bitmap_slot_allocator : SlotAllocator (bitmap * mem) := {|
  sa_inv a := bitmap_ok a.1 a.2;
  sa_capacity a := capacity a.1;
  sa_used a := used a.1 a.2;
  sa_alloc := bitmap_alloc;
|}.
Proof.
  intros [bm m] Hok. simpl fst in *. simpl snd in *. unfold bitmap_alloc. simpl fst.
  simpl snd. destruct (allocate_ok bm m Hok) as [(k & m' & He & Hl & Hok' & _ & Hu)|[He Hall]].
  - left. exists k, (after_allocate bm, m'). rewrite He. destruct Hl as (? & ? & ?) eqn:E.
    split_and!; try done.
    + by apply after_allocate_ok.
    + lia.
    + lia.
  - right. rewrite He. done.
Defined.

Lemma bitmap_inv bm m : bitmap_ok bm m → sa_inv (bm, m).
Proof. done. Qed.

(* ------------------------------------------------------------------ *)
(** * Lemmas for the properties *)

(** The first [n] allocations from a pool whose free slots are those from [i] on. *)
Lemma alloc_many_fresh n i bm m :
  bitmap_ok bm m → 0 <= i → i + Z.of_nat n <= capacity bm →
  (∀ j, 0 <= j < capacity bm → used bm m j = (j <? i)) →
  ∃ bm' m', alloc_many n (bm, m) = Ok (seqZ i (Z.of_nat n), (bm', m')) ∧ bitmap_ok bm' m' ∧
    capacity bm' = capacity bm ∧
    ∀ j, 0 <= j < capacity bm → used bm' m' j = (j <? i + Z.of_nat n).
Proof.
  revert i bm m. induction n as [|n IH]; intros i bm m Hok Hi Hn Hu.
  { exists bm, m. split_and!; [done..|]. intros j Hj. rewrite Hu by done. f_equal. lia. }
  cbn [alloc_many sa_alloc bitmap_slot_allocator]. unfold bitmap_alloc. simpl fst. simpl snd.
  destruct (allocate_ok bm m Hok) as [(k & m1 & He & (Hk & Hkf & Hkl) & Hok1 & _ & Hu1)|[He Hall]].
  - assert (k = i) as ->.
    { rewrite Hu in Hkf by done. apply Z.ltb_ge in Hkf.
      destruct (Z_lt_le_dec i k) as [Hlt|]; [|lia].
      specialize (Hkl i ltac:(lia)). rewrite Hu in Hkl by lia. lia. }
    destruct (IH (i + 1) (after_allocate bm) m1) as (bm2 & m2 & He2 & Hok2 & Hc2 & Hu2).
    + by apply after_allocate_ok.
    + lia.
    + change (capacity (after_allocate bm)) with (capacity bm). lia.
    + intros j Hj. change (used (after_allocate bm)) with (used bm). rewrite Hu1, Hu by done.
      destruct (Z.eqb_spec j i), (Z.ltb_spec j i), (Z.ltb_spec j (i + 1)); done || lia.
    + exists bm2, m2. rewrite He. cbn [mbind res_bind default from_option id].
      rewrite He2. cbn [mbind res_bind]. split_and!; [|done..|].
      * rewrite (seqZ_cons i) by lia.
        replace (Z.pred (Z.of_nat (S n))) with (Z.of_nat n) by lia. done.
      * intros j Hj. rewrite Hu2 by done. f_equal. lia.
  - specialize (Hall i ltac:(lia)). rewrite Hu in Hall by lia. lia.
Qed.

Lemma alloc_many_full n bm m :
  bitmap_ok bm m → all_used bm m →
  alloc_many n (bm, m) = Ok (replicate n (-1), (bm, m)).
Proof.
  intros Hok Hall. induction n as [|n IH]; [done|].
  cbn [alloc_many sa_alloc bitmap_slot_allocator]. unfold bitmap_alloc. simpl fst. simpl snd.
  destruct (allocate_ok bm m Hok) as [(k & ? & _ & (Hk & Hkf & _) & _)|[He _]].
  - rewrite Hall in Hkf by done. done.
  - rewrite He. cbn [mbind res_bind default from_option id]. rewrite IH. done.
Qed.

(** Two slots of a bitmap mark differently: the counts differ. *)
Lemma free_below_lt bm bm' m m' n k :
  0 <= k < n → (∀ j, 0 <= j < n → used bm m j = true → used bm' m' j = true) →
  used bm m k = false → used bm' m' k = true → free_below bm' m' n < free_below bm m n.
Proof.
  intros Hk Hmono Hf Ht. rewrite !free_below_count.
  assert (∀ f g : Z → bool, ∀ n, 0 <= n → (∀ j, 0 <= j < n → f j = true → g j = true) →
    count_false g n <= count_false f n) as Hle.
  { intros f g n' Hn'. pattern n'. revert n' Hn'. apply count_false_ind; [done|].
    intros n' Hn' IH HH. rewrite !count_false_succ by done.
    specialize (IH ltac:(intros; apply HH; [lia|done])). specialize (HH n' ltac:(lia)).
    destruct (f n'), (g n'); simpl; lia || by specialize (HH eq_refl). }
  pose proof (count_false_update (used bm m) k true n Hk) as He. rewrite Hf in He.
  cbn [negb b2z] in He.
  enough (count_false (used bm' m') n <= count_false (λ j, if j =? k then true else used bm m j) n)
    by lia.
  apply Hle; [lia|]. intros j Hj. destruct (Z.eqb_spec j k) as [->|]; auto.
Qed.

(* ------------------------------------------------------------------ *)
(** * Properties *)

(** C29: [bitmap_allocate_slot] takes the lowest free slot: it returns its number,
    sets that bit and no other, touches no memory but the bitmap's words, and keeps
    [free_slots_count] equal to the number of zero bits. It returns -1, changing
    nothing, exactly when every slot is taken. *)
Theorem bitmap_allocate_slot_spec bm m :
  bitmap_ok bm m → count_ok bm m →
  if decide (free_slots_count bm = 0) then
    all_used bm m ∧ bitmap_allocate_slot (Some bm) m = Ok (-1, Some bm, m)
  else ∃ k m', bitmap_allocate_slot (Some bm) m = Ok (k, Some (after_allocate bm), m') ∧
    lowest_free bm m k ∧ bitmap_ok (after_allocate bm) m' ∧ count_ok (after_allocate bm) m' ∧
    same_outside (slots_ptr bm) (storage bm) m m' ∧
    ∀ j, 0 <= j < capacity bm → used (after_allocate bm) m' j = (j =? k) || used bm m j.
Proof.
  intros Hok Hc. assert (0 <= capacity bm) by (destruct (ok_size _ _ Hok); bitmap_unfold; lia).
  destruct (allocate_ok bm m Hok) as [(k & m' & He & Hl & Hok' & Hs & Hu)|[He Hall]];
    case_decide as E; rewrite Hc, free_below_count in E.
  - destruct Hl as (Hk & Hf & _). pose proof (count_false_pos _ k _ Hk Hf). lia.
  - exists k, m'. split_and!; try done; [by apply after_allocate_ok|].
    by apply (after_allocate_count bm m m' k).
  - done.
  - destruct E. rewrite (count_false_ext _ (λ _, true)) by done.
    clear -H. pattern (capacity bm). revert H. generalize (capacity bm).
    apply count_false_ind; [done|]. intros n Hn IH. by rewrite count_false_succ, IH.
Qed.

(** [bitmap_init] zeroes exactly the [size] words it is given: afterwards the
    bitmap is well formed, each of its [32 * size] slots is free and
    [free_slots_count] says so. *)
Theorem bitmap_init_spec (P : Platform) old slots size s :
  0 < slots → slots mod 4 = 0 → 0 < size → 32 * size <= 2 ^ 31 → slots + 4 * size <= 2 ^ 32 →
  mapped (k_mem s) slots (4 * size) → mem_bytes (k_mem s) →
  ∃ bm m', bitmap_init old slots size s = Ret bm (set_mem m' s) ∧
    bitmap_ok bm m' ∧ count_ok bm m' ∧ capacity bm = 32 * size ∧ slots_ptr bm = slots ∧
    same_outside slots (4 * size) (k_mem s) m' ∧
    ∀ j, 0 <= j < capacity bm → used bm m' j = false.
Proof.
  intros. destruct (bitmap_init_ok old slots size s) as (m' & ? & ? & ? & ? & ?); try done.
  by exists (blank_bitmap slots size), m'.
Qed.

(** [bitmap_mark_as_used] sets exactly the bits of the range that lie within
    the bitmap and touches no other memory; when the end of the range does not fit
    32 bits it sets nothing at all. *)
Theorem bitmap_mark_as_used_spec bm first n m :
  bitmap_ok bm m → is_u32 first → is_u32 n →
  ∃ m', bitmap_mark_as_used bm first n m = Ok m' ∧ bitmap_ok bm m' ∧
    same_outside (slots_ptr bm) (storage bm) m m' ∧
    (2 ^ 32 <= first + n → m' = m) ∧
    (first + n < 2 ^ 32 → ∀ j, 0 <= j < capacity bm →
       used bm m' j = ((first <=? j) && (j <? first + n)) || used bm m j).
Proof.
  unfold is_u32. intros Hok Hf Hn. destruct (Z_lt_le_dec (first + n) (2 ^ 32)) as [Hlt|Hge].
  - destruct (mark_used_ok bm first n m) as (m' & ? & ? & ? & ?); try done; try lia.
    exists m'. split_and!; try done. lia.
  - exists m. split_and!; try done; [|lia]. unfold bitmap_mark_as_used, u32, wrap.
    replace ((first + n) mod 2 ^ 32) with (first + n - 2 ^ 32)
      by (Z.div_mod_to_equations; lia).
    by replace (Z.to_nat (first + n - 2 ^ 32 - first)) with O by lia.
Qed.

(** [bitmap_mark_as_used] does not maintain [free_slots_count]: once it has
    marked a slot that was free, the count is no longer the number of zero bits. *)
Theorem bitmap_mark_as_used_breaks_count bm first n m k :
  bitmap_ok bm m → count_ok bm m → 0 <= first → first + n < 2 ^ 32 →
  first <= k < first + n → k < capacity bm → used bm m k = false →
  ∃ m', bitmap_mark_as_used bm first n m = Ok m' ∧ free_below bm m' (capacity bm) < free_slots_count bm.
Proof.
  intros Hok Hc Hf Hw Hk Hkc Hu.
  destruct (mark_used_ok bm first n m) as (m' & He & _ & _ & Hm); try done; try lia.
  exists m'. split; [done|]. rewrite Hc. apply (free_below_lt _ _ _ _ _ k); [lia| |done|].
  - intros j Hj Hj'. rewrite Hm, Hj' by done. apply orb_true_r.
  - rewrite Hm by lia. destruct (Z.leb_spec first k), (Z.ltb_spec k (first + n)); done || lia.
Qed.

(** C30: [bitmap_free_slot], when it gets past its assertion, clears the bit of the
    slot and no other, touches no memory but the bitmap's words and keeps
    [free_slots_count] equal to the number of zero bits, whether or not the slot
    was in use. *)
Theorem bitmap_free_slot_spec (P : Platform) bm i s :
  bitmap_ok bm (k_mem s) → count_ok bm (k_mem s) → 0 <= i < capacity bm →
  ndebug = true ∨ i < slots_size bm →
  ∃ bm' m', bitmap_free_slot bm i s = Ret bm' (set_mem m' s) ∧ bitmap_ok bm' m' ∧
    count_ok bm' m' ∧ capacity bm' = capacity bm ∧
    same_outside (slots_ptr bm) (storage bm) (k_mem s) m' ∧
    ∀ j, 0 <= j < capacity bm → used bm' m' j = negb (j =? i) && used bm (k_mem s) j.
Proof.
  intros Hok Hc Hi Hd. destruct (free_ok bm i s Hok Hi Hd) as (m' & -> & Hok' & Hs & Hu).
  assert (∀ j, 0 <= j < capacity bm →
    used bm m' j = if j =? i then false else used bm (k_mem s) j) as Hu'.
  { intros j Hj. rewrite Hu by done. by destruct (j =? i). }
  eexists _, m'. split; [done|].
  destruct (used bm (k_mem s) i) eqn:E; split_and!; try done; try by apply bitmap_ok_count.
  - apply (count_ok_update bm (k_mem s) m' _ i false); try done. rewrite E. simpl. f_equal. lia.
  - unfold count_ok. rewrite Hc, !free_below_count. apply count_false_ext; [lia|].
    intros j Hj. rewrite Hu' by done. by destruct (Z.eqb_spec j i) as [->|].
Qed.

(** In a debug build the assertion of [bitmap_free_slot] compares the slot
    number with the number of words: freeing any slot from [slots_size] on, valid or
    not, parks the hart with interrupts off and leaves the memory as it was. *)
Theorem bitmap_free_slot_halts (P : Platform) bm i s :
  ndebug = false → slots_size bm <= i →
  ∃ t, bitmap_free_slot bm i s = Halted (mask_interrupts (extend t s)).
Proof.
  intros Hd Hi. unfold bitmap_free_slot. destruct (Z.ltb_spec i (slots_size bm)); [lia|].
  edestruct (debug_assert_fails "map->slots_size > slot" "src/klibc/bitmap.c" "bitmap_free_slot"
    56 s) as [t Ht]; [done|vm_compute; reflexivity|].
  exists t. unfold mbind, K_bind. by rewrite Ht.
Qed.

(** A slot that is allocated and then freed leaves the same slots free and the
    same count as before. *)
Theorem bitmap_alloc_free_roundtrip (P : Platform) bm m k bm1 m1 s :
  bitmap_ok bm m → count_ok bm m → ndebug = true →
  bitmap_allocate_slot (Some bm) m = Ok (k, Some bm1, m1) → k ≠ -1 → k_mem s = m1 →
  ∃ m2, bitmap_free_slot bm1 k s = Ret bm (set_mem m2 s) ∧ bitmap_ok bm m2 ∧
    ∀ j, 0 <= j < capacity bm → used bm m2 j = used bm m j.
Proof.
  intros Hok Hc Hd He Hk <-.
  destruct (allocate_ok bm m Hok) as [(k' & m' & He' & Hl & Hok' & _ & Hu)|[He' _]];
    rewrite He in He'; injection He'; [|lia]. intros Hm Hbm Hkk. subst k' bm1.
  destruct Hl as (Hkr & Hkf & _). rewrite <- Hm in Hok', Hu.
  destruct (free_ok (after_allocate bm) k s) as (m2 & -> & Hok2 & _ & Hu2); try done;
    [by apply after_allocate_ok|by left|].
  change (used (after_allocate bm)) with (used bm) in *.
  rewrite Hu, Z.eqb_refl by done. cbn [orb].
  exists m2. split_and!.
  - destruct bm as [sz c lf p]. do 2 f_equal. unfold after_allocate. cbn. f_equal.
    rewrite u32_add_l. replace (c - 1 + 1) with c by lia. apply u32_small.
    unfold count_ok in Hc. cbn in Hc. rewrite Hc, free_below_count.
    pose proof (count_false_range (used (Bitmap sz c lf p) m) (capacity (Bitmap sz c lf p)) ltac:(lia)).
    destruct (ok_size _ _ Hok). unfold is_u32. lia.
  - apply (bitmap_ok_count _ _ (free_slots_count bm)) in Hok2. by destruct bm.
  - intros j Hj. rewrite Hu2, Hu by done. by destruct (Z.eqb_spec j k) as [->|].
Qed.

(** C31: A fresh bitmap hands its slots out in order: [n] allocations give
    0, 1, ..., and once all [32 * size] slots are taken every further one gives
    -1. *)
Theorem bitmap_allocates_in_order (P : Platform) old slots size s n extra :
  0 < slots → slots mod 4 = 0 → 0 < size → 32 * size <= 2 ^ 31 → slots + 4 * size <= 2 ^ 32 →
  mapped (k_mem s) slots (4 * size) → mem_bytes (k_mem s) → Z.of_nat n <= 32 * size →
  ∃ bm s1, bitmap_init old slots size s = Ret bm s1 ∧
    (∃ bm' m', alloc_many n (bm, k_mem s1) = Ok (seqZ 0 (Z.of_nat n), (bm', m')) ∧
      (Z.of_nat n = 32 * size →
       alloc_many extra (bm', m') = Ok (replicate extra (-1), (bm', m')))).
Proof.
  intros. destruct (bitmap_init_ok old slots size s) as (m1 & He & Hok & _ & _ & Hu); try done.
  exists (blank_bitmap slots size), (set_mem m1 s). split; [done|].
  destruct (alloc_many_fresh n 0 (blank_bitmap slots size) m1) as (bm' & m' & Ha & Hok' & Hc & Hu');
    try done; try lia.
  { intros j Hj. rewrite Hu by done. symmetry. apply Z.ltb_ge. lia. }
  exists bm', m'. split; [by destruct s|]. intros Hn. apply alloc_many_full; [done|].
  intros j Hj. rewrite Hu' by (by rewrite <- Hc). rewrite Hc in Hj. apply Z.ltb_lt.
  change (capacity (blank_bitmap slots size)) with (32 * size) in Hj. lia.
Qed.

(* ------------------------------------------------------------------ *)
(** * Concrete inputs *)

(** Two words at 4096, as [bitmap_init] leaves them, and a state that has them. *)
Definition sample_words : mem := map_zeros 4096 8 ∅.
Definition sample_bitmap : bitmap := blank_bitmap 4096 2.

Lemma sample_bitmap_ok : bitmap_ok sample_bitmap sample_words.
Proof.
  constructor; [by vm_compute|by vm_compute|apply map_zeros_mapped|].
  apply map_zeros_bytes, mem_bytes_empty.
Qed.

Lemma sample_count_ok : count_ok sample_bitmap sample_words.
Proof. vm_compute. reflexivity. Qed.

Ltac sample_tac :=
  lazymatch goal with |- ex _ => idtac | |- _ =>
  try first [ apply sample_bitmap_ok | apply sample_count_ok | apply map_zeros_mapped
            | apply map_zeros_bytes, mem_bytes_empty | right; reflexivity | left; reflexivity
            | (vm_compute; reflexivity) | (unfold is_u32; lia)
            | (vm_compute; intros [=]) | (vm_compute; split; done) ] end.

Lemma bitmap_allocate_slot_spec_witness :
  ∃ k m', bitmap_allocate_slot (Some sample_bitmap) sample_words =
    Ok (k, Some (after_allocate sample_bitmap), m') ∧ lowest_free sample_bitmap sample_words k.
Proof.
  destruct (bitmap_allocate_slot_spec sample_bitmap sample_words sample_bitmap_ok
    sample_count_ok) as (k & m' & ? & ? & _). by exists k, m'.
Defined.

Lemma bitmap_init_spec_witness :
  ∃ bm m', bitmap_init (H:=qemu_virt) (Bitmap 0 0 0 0) 4096 2 (boot_state sample_words) =
    Ret bm (set_mem m' (boot_state sample_words)) ∧ bitmap_ok bm m'.
Proof.
  destruct (bitmap_init_spec qemu_virt (Bitmap 0 0 0 0) 4096 2 (boot_state sample_words))
    as (bm & m' & ? & ? & _); sample_tac. by exists bm, m'.
Defined.

Lemma bitmap_mark_as_used_spec_witness :
  ∃ m', bitmap_mark_as_used sample_bitmap 30 5 sample_words = Ok m' ∧
    used sample_bitmap m' 34 = true ∧ used sample_bitmap m' 35 = false.
Proof.
  destruct (bitmap_mark_as_used_spec sample_bitmap 30 5 sample_words)
    as (m' & ? & _ & _ & _ & Hu); sample_tac.
  exists m'. split; [done|]. split; (rewrite Hu; [vm_compute; reflexivity|reflexivity|]);
    vm_compute; split; done.
Defined.

Lemma bitmap_mark_as_used_breaks_count_witness :
  ∃ m', bitmap_mark_as_used sample_bitmap 30 5 sample_words = Ok m' ∧
    free_below sample_bitmap m' 64 < 64.
Proof.
  apply (bitmap_mark_as_used_breaks_count sample_bitmap 30 5 sample_words 31); sample_tac.
Defined.

Lemma bitmap_free_slot_spec_witness :
  ∃ bm' m', bitmap_free_slot (H:=qemu_virt) sample_bitmap 1 (boot_state sample_words) =
    Ret bm' (set_mem m' (boot_state sample_words)) ∧ count_ok bm' m'.
Proof.
  destruct (bitmap_free_slot_spec qemu_virt sample_bitmap 1 (boot_state sample_words))
    as (bm & m' & ? & ? & ? & _); sample_tac. by exists bm, m'.
Defined.

Lemma bitmap_free_slot_halts_witness :
  ∃ t, bitmap_free_slot (H:=qemu_virt) sample_bitmap 2 (boot_state sample_words) =
    Halted (mask_interrupts (extend t (boot_state sample_words))).
Proof.
  apply (bitmap_free_slot_halts qemu_virt sample_bitmap 2); [reflexivity|vm_compute; intros [=]].
Defined.

(** The same platform, built with [NDEBUG]. *)
Definition qemu_virt_release : Platform := {|
  ndebug := true;
  kernel_physical_start := 0x80000000;
  kernel_physical_end := 0x80006000;
  m_mode_handle_addr := 0x80000400;
  s_mode_handle_addr := 0x80000500;
  test_addr := 0x80000600;
  hw_clint := 0x2000000;
  rodata := fun _ => 0
|}.

Lemma bitmap_alloc_free_roundtrip_witness :
  ∃ k bm1 m1 m2, bitmap_allocate_slot (Some sample_bitmap) sample_words = Ok (k, Some bm1, m1) ∧
    bitmap_free_slot (H:=qemu_virt_release) bm1 k (boot_state m1) =
      Ret sample_bitmap (set_mem m2 (boot_state m1)).
Proof.
  destruct (allocate_ok sample_bitmap sample_words sample_bitmap_ok)
    as [(k & m1 & E & (Hk & _) & _)|[_ Hall]].
  - destruct (bitmap_alloc_free_roundtrip qemu_virt_release sample_bitmap sample_words k
      (after_allocate sample_bitmap) m1 (boot_state m1)) as (m2 & Hf & _);
      [apply sample_bitmap_ok|apply sample_count_ok|reflexivity|exact E|lia|reflexivity|].
    exists k, (after_allocate sample_bitmap), m1, m2. split; [exact E|exact Hf].
  - specialize (Hall 0 ltac:(vm_compute; split; done)). vm_compute in Hall. discriminate Hall.
Defined.

Lemma bitmap_allocates_in_order_witness :
  ∃ bm s1, bitmap_init (H:=qemu_virt) (Bitmap 0 0 0 0) 4096 2 (boot_state sample_words) = Ret bm s1 ∧
    ∃ bm' m', alloc_many 64 (bm, k_mem s1) = Ok (seqZ 0 (Z.of_nat 64), (bm', m')) ∧
      alloc_many 3 (bm', m') = Ok (replicate 3 (-1), (bm', m')).
Proof.
  destruct (bitmap_allocates_in_order qemu_virt (Bitmap 0 0 0 0) 4096 2
    (boot_state sample_words) 64 3) as (bm & s1 & Hi & bm' & m' & Ha & Hx); sample_tac.
  exists bm, s1. split; [exact Hi|]. exists bm', m'. split; [exact Ha|]. apply Hx. reflexivity.
Defined.
