(* ===== verification/Memory.v ===== *)
(** src/mem/memory.c: the table of RAM regions that [detect_memory] fills in (the
    device-tree side of it is in [Devices]) and what its readers see. *)
From S2P Require Import Prelude Machine Registers Printf Console.
From stdpp Require Import base list gmap.
From Stdlib Require Import ZArith Lia.
From Stdlib Require String.
#[local] Open Scope Z_scope.

Definition MAX_MEM_REGIONS : Z := 16.

(** [ram_regions[i]]. *)
Definition region_entry (i : Z) : K ram_descriptor := fun s =>
  match ram_regions s !! Z.to_nat i with
  | Some r => Ret r s
  | None => Faulted s
  end.

Definition total_memory_regions : K Z := gets ram_regions_index.

(** The loop of [get_total_mem]; [n] is the number of entries left. *)
Fixpoint total_mem_from (n : nat) (i counter : Z) : K Z :=
  match n with
  | O => mret counter
  | S n' => r ← region_entry i; total_mem_from n' (i + 1) (u32 (counter + space_size r))
  end.
Definition get_total_mem : K Z :=
  n ← gets ram_regions_index;
  total_mem_from (Z.to_nat n) 0 0.

Section with_platform.
Context `{Platform}.

Definition pmm_get_region (index : Z) : K ram_descriptor :=
  n ← gets ram_regions_index;
  DEBUG_ASSERT (index <? n) "index < ram_regions_index" "src/mem/memory.c" "pmm_get_region" 72;;
  region_entry index.

Fixpoint log_regions (n : nat) (i : Z) : K unit :=
  match n with
  | O => mret tt
  | S n' =>
      r ← region_entry i;
      printf_ (String.append "RAM region %i: address range [0x%x, 0x%x], size = %i B" NL)
        [VWord i; VWord (physicaddr r); VWord (u32 (physicaddr r + space_size r));
         VWord (space_size r)];;
      log_regions n' (i + 1)
  end.
Definition log_detected_memory : K unit :=
  if ndebug then mret tt
  else
    printf_ (String.append "===========================" NL) [];;
    printf_ (String.append "detected RAM:" NL) [];;
    n ← gets ram_regions_index;
    log_regions (Z.to_nat n) 0;;
    printf_ (String.append "===========================" NL) [];;
    mret tt.
End with_platform.

(* ------------------------------------------------------------------ *)
(** * Quietness *)

Section quiet.
Context `{Platform}.

Lemma quiet_region_entry i : quiet (region_entry i).
Proof. intros s. unfold region_entry. by destruct (_ !! _). Qed.
#[local] Hint Resolve quiet_region_entry : quiet.

Lemma quiet_pmm_get_region i : quiet (pmm_get_region i).
Proof. unfold pmm_get_region. quiet. Qed.
#[local] Hint Resolve quiet_pmm_get_region : quiet.

Lemma quiet_log_regions n i : quiet (log_regions n i).
Proof. revert i. induction n as [|n IH]; intros i; cbn [log_regions]; quiet. Qed.
#[local] Hint Resolve quiet_log_regions : quiet.

Lemma quiet_log : quiet log_detected_memory.
Proof. unfold log_detected_memory. quiet. Qed.
#[local] Hint Resolve quiet_log : quiet.

Lemma quiet_total n i c : quiet (total_mem_from n i c).
Proof. revert i c. induction n as [|n IH]; intros i c; cbn [total_mem_from]; quiet. Qed.
#[local] Hint Resolve quiet_total : quiet.

Lemma quiet_get_total_mem : quiet get_total_mem.
Proof. unfold get_total_mem. quiet. Qed.
#[local] Hint Resolve quiet_get_total_mem : quiet.

End quiet.
#[export] Hint Resolve quiet_region_entry quiet_pmm_get_region quiet_log_regions quiet_log quiet_total quiet_get_total_mem : quiet.

(* ------------------------------------------------------------------ *)
(** * The table as a list *)

(** The regions registered so far. *)
Definition regions (s : kstate) : list ram_descriptor :=
  take (Z.to_nat (ram_regions_index s)) (ram_regions s).

(** The index stays within the table. *)
Definition regions_ok (s : kstate) : Prop :=
  0 <= ram_regions_index s <= Z.of_nat (length (ram_regions s)) ∧
  Forall (λ r, is_u32 (physicaddr r) ∧ is_u32 (space_size r)) (ram_regions s).

Definition total_size (l : list ram_descriptor) : Z := foldr (λ r c, space_size r + c) 0 l.

Lemma length_regions s :
  regions_ok s → Z.of_nat (length (regions s)) = ram_regions_index s.
Proof. intros [? _]. unfold regions. rewrite length_take. lia. Qed.

Lemma regions_lookup s i r :
  regions s !! i = Some r → region_entry (Z.of_nat i) s = Ret r s.
Proof.
  unfold regions, region_entry. intros [Hr _]%lookup_take_Some. rewrite Nat2Z.id. by rewrite Hr.
Qed.

Lemma total_regions_eq s : regions_ok s →
  total_memory_regions s = Ret (Z.of_nat (length (regions s))) s.
Proof. intros. by rewrite length_regions. Qed.

Lemma get_region_eq `{Platform} s i r :
  regions_ok s → regions s !! i = Some r → pmm_get_region (Z.of_nat i) s = Ret r s.
Proof.
  intros Hs Hr. unfold pmm_get_region. rewrite bind_gets.
  rewrite (bind_ret _ _ s tt s); [by apply regions_lookup|].
  apply debug_assert_holds. right. apply Z.ltb_lt. rewrite <- length_regions by done.
  apply lookup_lt_Some in Hr. lia.
Qed.

Lemma total_mem_from_eq l i c s :
  (∀ j r, l !! j = Some r → regions s !! (i + j)%nat = Some r) → is_u32 c →
  total_mem_from (length l) (Z.of_nat i) c s = Ret (u32 (c + total_size l)) s.
Proof.
  revert i c. induction l as [|r l IH]; intros i c Hl Hc.
  - simpl. by rewrite Z.add_0_r, u32_small.
  - cbn [length total_mem_from]. rewrite (bind_ret _ _ s r s).
    + replace (Z.of_nat i + 1) with (Z.of_nat (S i)) by lia. rewrite IH; [| |apply u32_range].
      * rewrite u32_add_l. simpl. do 2 f_equal. lia.
      * intros j r' Hj. rewrite <- (Hl (S j) r') by done. f_equal. lia.
    + apply regions_lookup. rewrite <- (Hl 0%nat r) by done. f_equal. lia.
Qed.

Lemma get_total_mem_eq s :
  regions_ok s → get_total_mem s = Ret (u32 (total_size (regions s))) s.
Proof.
  intros Hs. unfold get_total_mem. rewrite bind_gets.
  rewrite <- (length_regions s Hs), Nat2Z.id.
  change 0 with (Z.of_nat 0) at 1. rewrite (total_mem_from_eq _ 0); [done|done|].
  unfold is_u32. lia.
Qed.
