(* ===== verification/PhysAlloc.v ===== *)
(** src/mem/phys_alloc.c: the physical page allocator, a bitmap over the pages of
    all RAM regions.  The loops are proved to compute the functions [ppn_of] and
    [addr_of] of the region table; initialisation and allocation are then proved
    for the board with one region of RAM. *)
From S2P Require Import Prelude Machine Registers Printf MathUtils Console Crt0 Bitmap Memory.
From stdpp Require Import base list gmap.
From Stdlib Require Import ZArith Lia.
From Stdlib Require String.
#[local] Open Scope Z_scope.

Definition PAGE_OFFSET_BITS : Z := 12.
Definition PAGE_SIZE : Z := Z.shiftl 1 PAGE_OFFSET_BITS.
Definition PAGE_MASK : Z := u32 (Z.shiftl UINT_MAX PAGE_OFFSET_BITS).
Definition OFFSET_MASK : Z := u32 (Z.lnot PAGE_MASK).

Section with_platform.
Context `{Platform}.

Definition get_kernel_size : Z := u32 (kernel_physical_end - kernel_physical_start).

(** The loop of [physic_addr_to_ppn] from region [i] on; [n] regions are left. *)
Fixpoint ppn_from (n : nat) (i page_ptr counter : Z) : K Z :=
  match n with
  | O => mret (-1)
  | S n' =>
      r ← pmm_get_region i;
      let size := space_size r in
      r ← pmm_get_region i;
      let phys_addr := physicaddr r in
      if (phys_addr <=? page_ptr) && (page_ptr <=? u32 (phys_addr + size)) then
        let diff := u32 (page_ptr - phys_addr) in
        mret (s32 (u32 (counter + Z.shiftr diff PAGE_OFFSET_BITS)))
      else
        r ← pmm_get_region i;
        ppn_from n' (i + 1) page_ptr (u32 (counter + space_size r / PAGE_SIZE))
  end.
Definition physic_addr_to_ppn (page : Z) : K Z :=
  n ← total_memory_regions;
  ppn_from (Z.to_nat n) 0 (Z.land page (u32 (Z.lnot OFFSET_MASK))) 0.

Fixpoint page_addr_from (n : nat) (i ppn : Z) : K Z :=
  match n with
  | O => mret 0
  | S n' =>
      this ← pmm_get_region i;
      let pages_in_this_reg := Z.shiftr (space_size this) PAGE_OFFSET_BITS in
      if ppn <? pages_in_this_reg then
        r ← pmm_get_region i;
        mret (u32 (physicaddr r + u32 (Z.shiftl ppn PAGE_OFFSET_BITS)))
      else page_addr_from n' (i + 1) ppn
  end.
Definition find_physical_addr_of_page (ppn : Z) : K Z :=
  n ← total_memory_regions;
  page_addr_from (Z.to_nat n) 0 ppn.

Definition pmm_borrow_pages (page_phys_addr total_bytes : Z) : K unit :=
  ppn ← physic_addr_to_ppn page_phys_addr;
  DEBUG_ASSERT (negb (ppn =? -1)) "ppn != -1" "src/mem/phys_alloc.c" "pmm_borrow_pages" 68;;
  let pages_to_borrow :=
    u32 (total_bytes / PAGE_SIZE + (if total_bytes mod PAGE_SIZE =? 0 then 0 else 1)) in
  printf_ (String.append
    "[pmm_borrow_pages] Marking %i pages as used, starting at page no. 0x%x" NL)
    [VWord pages_to_borrow; VWord ppn];;
  bm ← gets physical_bitmap_;
  writing (fun m => m ← bitmap_mark_as_used bm (u32 ppn) pages_to_borrow m; Ok (tt, m)).

(** The loop that looks for room for the bitmap; 0 is the null pointer. *)
Fixpoint place_bitmap_from (n : nat) (i bitmap_size_in_bytes : Z) : K Z :=
  match n with
  | O => mret 0
  | S n' =>
      region ← pmm_get_region i;
      let kern_start := kernel_physical_start in
      let kern_end := kernel_physical_end in
      let region_end := u32 (physicaddr region + space_size region) in
      let next_boundary :=
        if (physicaddr region <=? kernel_physical_start) && (kern_start <? region_end)
        then kern_start else region_end in
      if bitmap_size_in_bytes <=? u32 (next_boundary - physicaddr region) then
        mret (physicaddr region)
      else if (kern_end <? region_end) &&
              (bitmap_size_in_bytes <=? u32 (region_end - kern_end)) then
        mret kern_end
      else place_bitmap_from n' (i + 1) bitmap_size_in_bytes
  end.

Definition init_phys_allocator : K unit :=
  n ← total_memory_regions;
  DEBUG_ASSERT (0 <? n) "total_memory_regions() > 0"
    "src/mem/phys_alloc.c" "init_phys_allocator" 80;;
  DEBUG_ASSERT (kernel_physical_start <? kernel_physical_end)
    "_kernel_physical_start < _kernel_physical_end"
    "src/mem/phys_alloc.c" "init_phys_allocator" 97;;
  DEBUG_ASSERT (get_kernel_size mod PAGE_SIZE =? 0) "get_kernel_size() % PAGE_SIZE == 0"
    "src/mem/phys_alloc.c" "init_phys_allocator" 98;;
  total ← get_total_mem;
  let unborrowed := s32 (total - get_kernel_size) in
  when (unborrowed <? PAGE_SIZE)
    (KERNEL_PANIC "not enough RAM available (%u bytes only)" [VWord unborrowed]);;
  total ← get_total_mem;
  let total_pages_available := Z.shiftr total PAGE_OFFSET_BITS in
  bitmap_size ← lift (udiv_and_ceil total_pages_available WORD_SIZE);
  let bitmap_size_in_bytes := u32 (bitmap_size * 4) in
  n ← total_memory_regions;
  slots_for_bitmap ← place_bitmap_from (Z.to_nat n) 0 bitmap_size_in_bytes;
  when (slots_for_bitmap =? 0)
    (KERNEL_PANIC
       "can't find continuous space for bitmap; non-continuous page bitmaps not supported yet" []);;
  old ← gets physical_bitmap_;
  bm ← bitmap_init old slots_for_bitmap bitmap_size;
  modify (set_bitmap bm);;
  pmm_borrow_pages kernel_physical_start get_kernel_size;;
  pmm_borrow_pages slots_for_bitmap bitmap_size;;
  printf_ (String.append "[OK] Initialized bitmap" NL) [];;
  mret tt.

(** The address of a page, or 0. *)
Definition pmm_allocate_page : K Z :=
  bm ← gets physical_bitmap_;
  slot ← (fun s => match bitmap_allocate_slot (Some bm) (k_mem s) with
                   | Ok (slot, bm', m) => Ret slot (set_bitmap (default bm bm') (set_mem m s))
                   | Fault => Faulted s
                   | NoFuel => OutOfFuel
                   end);
  if slot =? -1 then mret 0 else find_physical_addr_of_page (u32 slot).
End with_platform.

(* ------------------------------------------------------------------ *)
(** * Quietness *)

Section quiet.
Context `{Platform}.

Lemma quiet_ppn n i p c : quiet (ppn_from n i p c).
Proof. revert i p c. induction n as [|n IH]; intros i p c; cbn [ppn_from]; quiet. Qed.
#[local] Hint Resolve quiet_ppn : quiet.

Lemma quiet_borrow a n : quiet (pmm_borrow_pages a n).
Proof. unfold pmm_borrow_pages, physic_addr_to_ppn, total_memory_regions. quiet. Qed.
#[local] Hint Resolve quiet_borrow : quiet.

Lemma quiet_place n i b : quiet (place_bitmap_from n i b).
Proof. revert i. induction n as [|n IH]; intros i; cbn [place_bitmap_from]; quiet. Qed.
#[local] Hint Resolve quiet_place : quiet.

Lemma quiet_bitmap_init map slots size : quiet (Bitmap.bitmap_init map slots size).
Proof. unfold Bitmap.bitmap_init. quiet. Qed.
#[local] Hint Resolve quiet_bitmap_init : quiet.

Lemma quiet_init_phys_allocator : quiet init_phys_allocator.
Proof. unfold init_phys_allocator, total_memory_regions. quiet. Qed.
#[local] Hint Resolve quiet_init_phys_allocator : quiet.

End quiet.
#[export] Hint Resolve quiet_ppn quiet_borrow quiet_place quiet_bitmap_init quiet_init_phys_allocator : quiet.

(* ------------------------------------------------------------------ *)
(** * What the loops compute *)

(** Page number and page address, as functions of the table. *)
Fixpoint ppn_of (l : list ram_descriptor) (page_ptr counter : Z) : Z :=
  match l with
  | [] => -1
  | r :: l' =>
      if (physicaddr r <=? page_ptr) && (page_ptr <=? u32 (physicaddr r + space_size r))
      then s32 (u32 (counter + Z.shiftr (u32 (page_ptr - physicaddr r)) 12))
      else ppn_of l' page_ptr (u32 (counter + space_size r / 4096))
  end.

Fixpoint addr_of (l : list ram_descriptor) (ppn : Z) : Z :=
  match l with
  | [] => 0
  | r :: l' =>
      if ppn <? Z.shiftr (space_size r) 12 then u32 (physicaddr r + u32 (Z.shiftl ppn 12))
      else addr_of l' ppn
  end.

(** Where the bitmap goes. *)
Fixpoint place_of (ks ke : Z) (l : list ram_descriptor) (bytes : Z) : Z :=
  match l with
  | [] => 0
  | r :: l' =>
      let region_end := u32 (physicaddr r + space_size r) in
      let next_boundary :=
        if (physicaddr r <=? ks) && (ks <? region_end) then ks else region_end in
      if bytes <=? u32 (next_boundary - physicaddr r) then physicaddr r
      else if (ke <? region_end) && (bytes <=? u32 (region_end - ke)) then ke
      else place_of ks ke l' bytes
  end.

Section loops.
Context `{Platform} (s : kstate) (Hs : regions_ok s).

(** The suffix of the table from entry [i] on. *)
Definition suffix_at (l : list ram_descriptor) (i : nat) : Prop :=
  ∀ j r, l !! j = Some r → regions s !! (i + j)%nat = Some r.

Lemma suffix_tail r l i : suffix_at (r :: l) i → suffix_at l (S i).
Proof. intros Hl j r' Hj. rewrite <- (Hl (S j) r') by done. f_equal. lia. Qed.

Lemma suffix_head r l i : suffix_at (r :: l) i → pmm_get_region (Z.of_nat i) s = Ret r s.
Proof using Hs.
  intros Hl. apply get_region_eq; [done|]. rewrite <- (Hl 0%nat r) by done. f_equal. lia.
Qed.

Lemma ppn_from_eq l i p c :
  suffix_at l i → ppn_from (length l) (Z.of_nat i) p c s = Ret (ppn_of l p c) s.
Proof using Hs.
  revert i c. induction l as [|r l IH]; intros i c Hl; [done|].
  cbn [length ppn_from ppn_of]. pose proof (suffix_head _ _ _ Hl) as Hr.
  rewrite !(bind_ret _ _ _ _ _ Hr). cbv zeta. destruct (_ && _); [done|].
  rewrite (bind_ret _ _ _ _ _ Hr). replace (Z.of_nat i + 1) with (Z.of_nat (S i)) by lia.
  rewrite IH by (by eapply suffix_tail). done.
Qed.

Lemma page_addr_from_eq l i p :
  suffix_at l i → page_addr_from (length l) (Z.of_nat i) p s = Ret (addr_of l p) s.
Proof using Hs.
  revert i. induction l as [|r l IH]; intros i Hl; [done|].
  cbn [length page_addr_from addr_of]. pose proof (suffix_head _ _ _ Hl) as Hr.
  rewrite (bind_ret _ _ _ _ _ Hr). cbv zeta. unfold PAGE_OFFSET_BITS.
  destruct (_ <? _); [by rewrite (bind_ret _ _ _ _ _ Hr)|].
  replace (Z.of_nat i + 1) with (Z.of_nat (S i)) by lia.
  apply IH. by eapply suffix_tail.
Qed.

Lemma place_bitmap_from_eq l i b :
  suffix_at l i →
  place_bitmap_from (length l) (Z.of_nat i) b s =
    Ret (place_of kernel_physical_start kernel_physical_end l b) s.
Proof using Hs.
  revert i. induction l as [|r l IH]; intros i Hl; [done|].
  cbn [length place_bitmap_from place_of]. pose proof (suffix_head _ _ _ Hl) as Hr.
  rewrite (bind_ret _ _ _ _ _ Hr). cbv zeta. destruct (_ <=? _); [done|].
  destruct (_ && _); [done|]. replace (Z.of_nat i + 1) with (Z.of_nat (S i)) by lia.
  apply IH. by eapply suffix_tail.
Qed.

Lemma suffix_all : suffix_at (regions s) 0.
Proof. by intros j r Hj. Qed.

Lemma physic_addr_to_ppn_eq page :
  physic_addr_to_ppn page s = Ret (ppn_of (regions s) (Z.land page PAGE_MASK) 0) s.
Proof using Hs.
  unfold physic_addr_to_ppn. rewrite (bind_ret _ _ _ _ _ (total_regions_eq s Hs)), Nat2Z.id.
  change (u32 (Z.lnot OFFSET_MASK)) with PAGE_MASK. apply (ppn_from_eq _ 0), suffix_all.
Qed.

Lemma find_physical_addr_of_page_eq ppn :
  find_physical_addr_of_page ppn s = Ret (addr_of (regions s) ppn) s.
Proof using Hs.
  unfold find_physical_addr_of_page.
  rewrite (bind_ret _ _ _ _ _ (total_regions_eq s Hs)), Nat2Z.id.
  apply (page_addr_from_eq _ 0), suffix_all.
Qed.

Lemma place_bitmap_eq b :
  place_bitmap_from (length (regions s)) 0 b s =
    Ret (place_of kernel_physical_start kernel_physical_end (regions s) b) s.
Proof using Hs. apply (place_bitmap_from_eq _ 0), suffix_all. Qed.
End loops.

(* ------------------------------------------------------------------ *)
(** * One region of RAM *)

(** Rounding down to a page. *)
Lemma land_page_mask p : is_u32 p → Z.land p PAGE_MASK = 4096 * (p / 4096).
Proof.
  intros Hp. apply (land_align 12); [lia|done].
Qed.

Lemma page_aligned p : is_u32 p → p mod 4096 = 0 → Z.land p PAGE_MASK = p.
Proof. intros Hp Hm. rewrite land_page_mask by done. Z.div_mod_to_equations; lia. Qed.

(** A board whose RAM is the one region [base, base + size). *)
Record single_region (base size : Z) (s : kstate) : Prop := {
  sr_regions : regions s = [RamDescriptor base size];
  sr_ok : regions_ok s;
  sr_base : 0 < base ∧ base mod 4096 = 0;
  sr_size : 0 < size ∧ size mod 4096 = 0 ∧ base + size < 2 ^ 32;
}.

Section one_region.
Context `{Platform} (base size : Z).

Lemma ppn_single p :
  0 < base → 0 < size → base + size < 2 ^ 32 → base <= p <= base + size → 
  ppn_of [RamDescriptor base size] p 0 = (p - base) / 4096.
Proof.
  intros. cbn [ppn_of physicaddr space_size]. rewrite (u32_small (base + size)) by (unfold is_u32; lia).
  destruct (Z.leb_spec base p), (Z.leb_spec p (base + size)); try lia. cbn [andb].
  rewrite (u32_small (p - base)) by (unfold is_u32; lia). rewrite Z.shiftr_div_pow2 by lia.
  change (2 ^ 12) with 4096. rewrite Z.add_0_l.
  assert (0 <= (p - base) / 4096 < 2 ^ 20) as Hq by (Z.div_mod_to_equations; lia).
  rewrite u32_small by (unfold is_u32; lia). apply s32_small. unfold is_s32. lia.
Qed.

Lemma addr_single k :
  0 < base → 0 < size → base + size < 2 ^ 32 → 0 <= k →
  addr_of [RamDescriptor base size] k = if k <? size / 4096 then base + 4096 * k else 0.
Proof.
  intros. cbn [addr_of physicaddr space_size]. rewrite !Z.shiftr_div_pow2 by lia.
  change (2 ^ 12) with 4096. destruct (Z.ltb_spec k (size / 4096)); [|done].
  rewrite Z.shiftl_mul_pow2 by lia. change (2 ^ 12) with 4096.
  assert (k * 4096 <= size) by (Z.div_mod_to_equations; lia).
  rewrite (u32_small (k * 4096)) by (unfold is_u32; lia).
  rewrite u32_small by (unfold is_u32; lia). lia.
Qed.

(** The region table is untouched by the operations of this file. *)
Lemma single_region_frame s s' :
  ram_regions s' = ram_regions s → ram_regions_index s' = ram_regions_index s →
  single_region base size s → single_region base size s'.
Proof.
  intros H1 H2 [Hr [Hi Hf] ? ?]. split; [|split|done..]; unfold regions in *; by rewrite ?H1, ?H2.
Qed.

(** [pmm_borrow_pages]: the pages of the range become used. *)
Lemma borrow_ok s a bytes :
  single_region base size s → bitmap_ok (physical_bitmap_ s) (k_mem s) →
  base <= a <= base + size → a mod 4096 = 0 → 0 <= bytes < 2 ^ 32 →
  let first := (a - base) / 4096 in
  let n := bytes / 4096 + (if bytes mod 4096 =? 0 then 0 else 1) in
  let bm := physical_bitmap_ s in
  ∃ t m', pmm_borrow_pages a bytes s = Ret tt (extend t (set_mem m' s)) ∧ bitmap_ok bm m' ∧
    same_outside (slots_ptr bm) (storage bm) (k_mem s) m' ∧
    ∀ j, 0 <= j < capacity bm →
      used bm m' j = ((first <=? j) && (j <? first + n)) || used bm (k_mem s) j.
Proof.
  intros Hr Hok Ha Ham Hb first n bm. destruct (sr_base _ _ _ Hr), (sr_size _ _ _ Hr) as (?&?&?).
  assert (0 <= first < 2 ^ 20) as Hfirst by (unfold first; Z.div_mod_to_equations; lia).
  assert (0 <= n <= 2 ^ 20) as Hn.
  { unfold n. destruct (Z.eqb_spec (bytes mod 4096) 0); Z.div_mod_to_equations; lia. }
  unfold pmm_borrow_pages.
  rewrite (bind_ret _ _ s first s).
  2: { rewrite physic_addr_to_ppn_eq by apply Hr.
    rewrite (sr_regions _ _ _ Hr), page_aligned by (done || unfold is_u32; lia).
    by rewrite ppn_single by lia. }
  rewrite (bind_ret _ _ s tt s).
  2: { apply debug_assert_holds. right. destruct (Z.eqb_spec first (-1)); [lia|done]. }
  cbv zeta. change PAGE_SIZE with 4096. fold n. rewrite (u32_small n) by (unfold is_u32; lia).
  destruct (printf_simple (String.append
    "[pmm_borrow_pages] Marking %i pages as used, starting at page no. 0x%x" NL)
    [VWord n; VWord first] s) as (x & t & Ht); [reflexivity|].
  rewrite (bind_ret _ _ _ _ _ Ht), bind_gets. rewrite (u32_small first) by (unfold is_u32; lia).
  autorewrite with kernel. fold bm.
  destruct (mark_used_ok bm first n (k_mem s)) as (m' & He & Hok' & Hs & Hu); try done; try lia.
  exists t, m'. split_and!; [|done..]. unfold writing. autorewrite with kernel. rewrite He.
  cbn [mbind res_bind]. by rewrite set_mem_extend.
Qed.

(** [free_page s k]: page [k] of the region is not in use. *)
Definition page_used (s : kstate) (k : Z) : bool := used (physical_bitmap_ s) (k_mem s) k.

(** The invariant of the allocator. *)
Record pmm_ok (s : kstate) : Prop := {
  po_region : single_region base size s;
  po_bitmap : bitmap_ok (physical_bitmap_ s) (k_mem s);
  po_capacity : size / 4096 <= capacity (physical_bitmap_ s);
}.

(** One allocation on the pool, and the address its slot stands for. *)
Definition slot_addr (k : Z) : Z :=
  if (k =? -1) || (size / 4096 <=? k) then 0 else base + 4096 * k.

Lemma allocate_page_alloc s :
  pmm_ok s →
  ∃ k bm m, sa_alloc (physical_bitmap_ s, k_mem s) = Ok (k, (bm, m)) ∧
    pmm_allocate_page s = Ret (slot_addr k) (set_mem m (set_bitmap bm s)) ∧
    same_outside (slots_ptr (physical_bitmap_ s)) (storage (physical_bitmap_ s)) (k_mem s) m ∧
    slots_ptr bm = slots_ptr (physical_bitmap_ s) ∧ slots_size bm = slots_size (physical_bitmap_ s) ∧
    pmm_ok (set_mem m (set_bitmap bm s)).
Proof.
  intros [Hr Hok Hc]. destruct (sr_base _ _ _ Hr), (sr_size _ _ _ Hr) as (?&?&?).
  assert (∀ k bm m, 0 <= k →
    find_physical_addr_of_page (u32 k) (set_mem m (set_bitmap bm s)) =
    Ret (addr_of [RamDescriptor base size] (u32 k)) (set_mem m (set_bitmap bm s))) as Hfind.
  { intros k bm m Hk. assert (single_region base size (set_mem m (set_bitmap bm s))) as Hr'
      by (eapply single_region_frame; [..|exact Hr]; by destruct s).
    rewrite find_physical_addr_of_page_eq by apply Hr'. by rewrite (sr_regions _ _ _ Hr'). }
  cbn [sa_alloc bitmap_slot_allocator]. unfold bitmap_alloc. cbn [fst snd].
  unfold pmm_allocate_page. rewrite bind_gets.
  destruct (allocate_ok _ _ Hok) as [(k & m & He & (Hk & _) & Hok' & Hs & _)|[He _]].
  - rewrite He. cbn [mbind res_bind default from_option id].
    exists k, (after_allocate (physical_bitmap_ s)), m. split; [done|].
    destruct (ok_size _ _ Hok).
    split_and!; [|done..|].
    + unfold mbind at 1, K_bind at 1. rewrite He. cbn [default from_option id].
      rewrite set_bitmap_set_mem. destruct (Z.eqb_spec k (-1)); [lia|].
      rewrite Hfind by lia. rewrite u32_small by (unfold is_u32; lia).
      rewrite addr_single by lia. unfold slot_addr.
      destruct (Z.eqb_spec k (-1)), (Z.ltb_spec k (size / 4096)), (Z.leb_spec (size / 4096) k);
        done || lia.
    + split; [eapply single_region_frame; [..|exact Hr]; by destruct s| |].
      * autorewrite with kernel. by apply after_allocate_ok.
      * by autorewrite with kernel.
  - rewrite He. cbn [mbind res_bind default from_option id].
    exists (-1), (physical_bitmap_ s), (k_mem s). split; [done|].
    split_and!; [|apply same_outside_refl|done..|].
    + unfold mbind at 1, K_bind at 1. rewrite He. cbn [default from_option id].
      rewrite set_bitmap_set_mem. done.
    + split; [eapply single_region_frame; [..|exact Hr]; by destruct s| |];
        by autorewrite with kernel.
Qed.

(** An allocation returns 0 exactly when no page is left. *)
Lemma allocate_page_null s :
  pmm_ok s →
  ∃ p s', pmm_allocate_page s = Ret p s' ∧ pmm_ok s' ∧
    (p = 0 ↔ ∀ j, 0 <= j < size / 4096 → page_used s j = true).
Proof.
  intros Hok. destruct (allocate_page_alloc s Hok) as (k & bm & m & Ha & He & _ & _ & _ & Hok').
  exists (slot_addr k), (set_mem m (set_bitmap bm s)). split_and!; [done..|].
  destruct Hok as [Hr Hb Hc]. destruct (sr_base _ _ _ Hr).
  cbn [sa_alloc bitmap_slot_allocator] in Ha. unfold bitmap_alloc in Ha. cbn [fst snd] in Ha.
  unfold page_used, slot_addr.
  destruct (allocate_ok _ _ Hb) as [(k' & m' & He' & (Hk & Hf & Hl) & _)|[He' Hall]];
    rewrite He' in Ha; cbn [mbind res_bind] in Ha; injection Ha as <- _ _.
  - destruct (Z.eqb_spec k' (-1)); [lia|]. destruct (Z.leb_spec (size / 4096) k'); cbn [orb].
    + split; [|done]. intros _ j Hj. apply Hl. lia.
    + split; [lia|]. intros Hall. rewrite Hall in Hf by lia. done.
  - split; [|done]. intros _ j Hj. apply Hall. lia.
Qed.

(** [n] allocations in a row. *)
Fixpoint allocate_pages (n : nat) : K (list Z) :=
  match n with
  | O => mret []
  | S n' => p ← pmm_allocate_page; ps ← allocate_pages n'; mret (p :: ps)
  end.

(** They refine allocations of slots from the pool. *)
Lemma allocate_pages_alloc n s :
  pmm_ok s →
  ∃ ks bm m, alloc_many n (physical_bitmap_ s, k_mem s) = Ok (ks, (bm, m)) ∧
    allocate_pages n s = Ret (map slot_addr ks) (set_mem m (set_bitmap bm s)) ∧
    pmm_ok (set_mem m (set_bitmap bm s)).
Proof.
  revert s. induction n as [|n IH]; intros s Hok.
  - exists [], (physical_bitmap_ s), (k_mem s). split; [done|].
    assert (set_mem (k_mem s) (set_bitmap (physical_bitmap_ s) s) = s) as -> by (by destruct s).
    done.
  - destruct (allocate_page_alloc s Hok) as (k & bm & m & Ha & He & _ & _ & _ & Hok1).
    destruct (IH _ Hok1) as (ks & bm2 & m2 & Ha2 & He2 & Hok2).
    autorewrite with kernel in Ha2, He2, Hok2.
    exists (k :: ks), bm2, m2. cbn [alloc_many allocate_pages]. rewrite Ha. cbn [mbind res_bind].
    rewrite Ha2. split; [done|]. rewrite (bind_ret _ _ _ _ _ He), (bind_ret _ _ _ _ _ He2).
    assert (∀ b b' x y, set_mem x (set_bitmap b (set_mem y (set_bitmap b' s))) =
      set_mem x (set_bitmap b s)) as Hss by (intros; by destruct s).
    rewrite <- (set_bitmap_set_mem s bm m) in *. autorewrite with kernel in *.
    assert (∀ b b', set_bitmap b (set_bitmap b' s) = set_bitmap b s) as Hbb
      by (intros; by destruct s).
    rewrite Hbb in *. done.
Qed.

(** An address that is not null determines its slot. *)
Lemma slot_addr_inv k :
  0 < base → slot_addr k ≠ 0 → -1 <= k →
  0 <= k < size / 4096 ∧ slot_addr k = base + 4096 * k ∧ (slot_addr k - base) / 4096 = k.
Proof.
  unfold slot_addr. destruct (Z.eqb_spec k (-1)), (Z.leb_spec (size / 4096) k); cbn [orb]; try done.
  intros. split_and!; [lia..|]. replace (base + 4096 * k - base) with (k * 4096) by lia.
  by rewrite Z.div_mul by lia.
Qed.

Lemma slot_addrs_nodup ks :
  0 < base → Forall (λ k, -1 <= k) ks → NoDup (filter (λ k, k ≠ -1) ks) →
  NoDup (filter (λ p, p ≠ 0) (map slot_addr ks)).
Proof.
  intros Hb. induction ks as [|k ks IH]; intros Hf Hnd; [constructor|].
  apply Forall_cons in Hf as [Hk Hf]. cbn [map].
  destruct (decide (k = -1)) as [->|Hne].
  - rewrite filter_cons_False in Hnd by tauto. rewrite filter_cons_False; [auto|].
    unfold slot_addr. cbn. tauto.
  - rewrite filter_cons_True in Hnd by done. apply NoDup_cons in Hnd as [Hnin Hnd].
    destruct (decide (slot_addr k = 0)) as [E|E].
    + rewrite filter_cons_False by tauto. auto.
    + rewrite filter_cons_True by done. constructor; [|auto].
      intros [_ Hin]%list_elem_of_filter. apply list_elem_of_In, in_map_iff in Hin
        as (k' & Heq & Hin%list_elem_of_In). apply Hnin. apply list_elem_of_filter.
      rewrite Forall_forall in Hf. specialize (Hf k' Hin).
      destruct (slot_addr_inv k Hb E Hk) as (_ & _ & Hq).
      destruct (slot_addr_inv k' Hb) as (_ & _ & Hq'); [congruence|done|].
      rewrite Heq in Hq'. split; [done|]. congruence.
Qed.

(** The words of the bitmap for all pages of the region. *)
Definition bitmap_words : Z := (size / 4096 + 31) / 32.
Definition bitmap_place : Z :=
  place_of kernel_physical_start kernel_physical_end [RamDescriptor base size] (4 * bitmap_words).

(** What [init_phys_allocator] needs to succeed. *)
Record init_ready (s : kstate) : Prop := {
  ir_region : single_region base size s;
  ir_kernel : base <= kernel_physical_start < kernel_physical_end ∧
              kernel_physical_end <= base + size ∧
              kernel_physical_start mod 4096 = 0 ∧ kernel_physical_end mod 4096 = 0;
  ir_room : 4096 <= size - (kernel_physical_end - kernel_physical_start) < 2 ^ 31;
  ir_place : bitmap_place ≠ 0;
  ir_mapped : mapped (k_mem s) bitmap_place (4 * bitmap_words);
  ir_bytes : mem_bytes (k_mem s);
}.

Lemma bitmap_words_ok :
  0 < size → size mod 4096 = 0 → size < 2 ^ 32 →
  udiv_and_ceil (size / 4096) 32 = Ok bitmap_words ∧ 0 < bitmap_words <= 2 ^ 15 ∧
  size / 4096 <= 32 * bitmap_words.
Proof.
  intros. unfold udiv_and_ceil, bitmap_words. simpl (32 =? 0). cbv iota.
  assert (1 <= size / 4096 < 2 ^ 20) by (Z.div_mod_to_equations; lia).
  split_and!; [|Z.div_mod_to_equations; lia..]. f_equal.
  destruct (Z.eqb_spec ((size / 4096) mod 32) 0);
    (rewrite u32_small; [|unfold is_u32]); Z.div_mod_to_equations; lia.
Qed.

(** The bitmap lies before or after the kernel image, in the region. *)
Lemma place_cases s :
  init_ready s →
  (bitmap_place = base ∧ 4 * bitmap_words <= kernel_physical_start - base) ∨
  (bitmap_place = kernel_physical_end ∧
   4 * bitmap_words <= base + size - kernel_physical_end).
Proof.
  intros [Hr (? & ? & _) _ Hp _ _]. destruct (sr_base _ _ _ Hr), (sr_size _ _ _ Hr) as (?&?&?).
  destruct bitmap_words_ok as (_ & ? & _); [lia..|]. revert Hp. unfold bitmap_place.
  cbn [place_of physicaddr space_size]. rewrite (u32_small (base + size)) by (unfold is_u32; lia).
  destruct (Z.leb_spec base kernel_physical_start),
    (Z.ltb_spec kernel_physical_start (base + size)); try lia. cbn [andb].
  rewrite (u32_small (kernel_physical_start - base)) by (unfold is_u32; lia).
  destruct (Z.leb_spec (4 * bitmap_words) (kernel_physical_start - base)); [by left|].
  rewrite (u32_small (base + size - kernel_physical_end)) by (unfold is_u32; lia).
  destruct (Z.ltb_spec kernel_physical_end (base + size)),
    (Z.leb_spec (4 * bitmap_words) (base + size - kernel_physical_end)); cbn [andb]; try done.
  by right.
Qed.

(** The pages of a range of addresses. *)
Definition in_pages (a n k : Z) : bool :=
  ((a - base) / 4096 <=? k) && (k <? (a - base) / 4096 + n).

(** The pages [init_phys_allocator] marks: the kernel image, and as many as
    [bitmap_words] bytes take at the place of the bitmap. *)
Definition reserved (k : Z) : bool :=
  in_pages kernel_physical_start
    ((kernel_physical_end - kernel_physical_start) / 4096) k
  || in_pages bitmap_place ((bitmap_words + 4095) / 4096) k.

Lemma pages_of n :
  0 <= n → n / 4096 + (if n mod 4096 =? 0 then 0 else 1) = (n + 4095) / 4096.
Proof. intros. destruct (Z.eqb_spec (n mod 4096) 0); Z.div_mod_to_equations; lia. Qed.

Lemma init_phys_ok s :
  init_ready s →
  ∃ bm m t, init_phys_allocator s = Ret tt (extend t (set_mem m (set_bitmap bm s))) ∧
    pmm_ok (extend t (set_mem m (set_bitmap bm s))) ∧
    slots_ptr bm = bitmap_place ∧ slots_size bm = bitmap_words ∧
    same_outside bitmap_place (4 * bitmap_words) (k_mem s) m ∧
    ∀ k, 0 <= k < size / 4096 → used bm m k = reserved k.
Proof.
  intros Hi. pose proof (place_cases s Hi) as Hplace.
  destruct Hi as [Hr (Hks & Hke & Hksa & Hkea) Hroom Hp Hm Hb].
  destruct (sr_base _ _ _ Hr) as [Hbase Hbase4], (sr_size _ _ _ Hr) as (Hsize & Hsize4 & Htop).
  destruct bitmap_words_ok as (Hudiv & Hw & Hcap); [lia..|].
  pose proof (sr_ok _ _ _ Hr) as Hrok.
  set (ks := kernel_physical_start) in *. set (ke := kernel_physical_end) in *.
  assert (get_kernel_size = ke - ks) as Hksz by (apply u32_small; unfold is_u32; lia).
  assert (total_memory_regions s = Ret 1 s) as Hn
    by (rewrite total_regions_eq by done; by rewrite (sr_regions _ _ _ Hr)).
  assert (get_total_mem s = Ret size s) as Htot.
  { rewrite get_total_mem_eq by done. rewrite (sr_regions _ _ _ Hr). simpl.
    by rewrite Z.add_0_r, u32_small by (unfold is_u32; lia). }
  assert (place_bitmap_from (Z.to_nat 1) 0 (u32 (bitmap_words * 4)) s = Ret bitmap_place s) as Hpl.
  { pose proof (place_bitmap_eq s Hrok (u32 (bitmap_words * 4))) as Hpe.
    rewrite (sr_regions _ _ _ Hr) in Hpe. rewrite (u32_small (bitmap_words * 4)) in *
      by (unfold is_u32; lia). rewrite (Z.mul_comm bitmap_words 4) in *. exact Hpe. }
  assert (0 < bitmap_place ∧ bitmap_place mod 4096 = 0 ∧ bitmap_place mod 4 = 0 ∧
    base <= bitmap_place ∧ bitmap_place + 4 * bitmap_words <= base + size) as (?&?&?&?&?)
    by (destruct Hplace as [[-> ?]|[-> ?]]; split_and!; Z.div_mod_to_equations; lia).
  destruct (bitmap_init_ok (physical_bitmap_ s) bitmap_place bitmap_words s)
    as (m1 & Hinit & Hok1 & Hs1 & _ & Hfree); [lia..|done|done|].
  set (bm := blank_bitmap bitmap_place bitmap_words) in *.
  (* the two calls of pmm_borrow_pages *)
  set (s1 := set_bitmap bm (set_mem m1 s)).
  assert (single_region base size s1) as Hr1
    by (eapply single_region_frame; [..|exact Hr]; by destruct s).
  destruct (borrow_ok s1 ks (ke - ks)) as (t2 & m2 & Hb2 & Hok2 & Hs2 & Hu2);
    try done; [by destruct s|lia|lia|].
  set (s2 := extend t2 (set_mem m2 s1)) in *.
  assert (single_region base size s2) as Hr2
    by (eapply single_region_frame; [..|exact Hr]; by destruct s).
  destruct (borrow_ok s2 bitmap_place bitmap_words) as (t3 & m3 & Hb3 & Hok3 & Hs3 & Hu3);
    [done|by destruct s|lia..|].
  destruct (printf_simple (String.append "[OK] Initialized bitmap" NL) []
    (extend t3 (set_mem m3 s2))) as (x & t4 & Ht4); [reflexivity|].
  assert (extend t4 (extend t3 (set_mem m3 s2)) =
    extend (t4 ++ t3 ++ t2) (set_mem m3 (set_bitmap bm s))) as Hend.
  { unfold s2, s1. rewrite set_bitmap_set_mem. autorewrite with kernel. by rewrite <- app_assoc. }
  assert (physical_bitmap_ s1 = bm ∧ k_mem s1 = m1) as [Hbm1 Hk1] by (by destruct s).
  assert (physical_bitmap_ s2 = bm ∧ k_mem s2 = m2) as [Hbm2 Hk2] by (by destruct s).
  rewrite Hbm1, ?Hk1 in *. rewrite Hbm2, ?Hk2 in *.
  exists bm, m3, (t4 ++ t3 ++ t2). split_and!.
  - unfold init_phys_allocator.
    rewrite (bind_ret _ _ _ _ _ Hn).
    rewrite (bind_ret _ _ s tt s) by (apply debug_assert_holds; by right).
    rewrite (bind_ret _ _ s tt s)
      by (apply debug_assert_holds; right; apply Z.ltb_lt; unfold ks, ke in *; lia).
    rewrite (bind_ret _ _ s tt s).
    2: { apply debug_assert_holds. right. rewrite Hksz. change PAGE_SIZE with 4096.
      apply Z.eqb_eq. Z.div_mod_to_equations; lia. }
    rewrite (bind_ret _ _ _ _ _ Htot), Hksz. cbv zeta.
    rewrite (s32_small (size - (ke - ks))) by (unfold is_s32; lia). change PAGE_SIZE with 4096.
    destruct (Z.ltb_spec (size - (ke - ks)) 4096); [lia|]. rewrite (bind_ret _ _ s tt s) by done.
    rewrite (bind_ret _ _ _ _ _ Htot). unfold PAGE_OFFSET_BITS. rewrite Z.shiftr_div_pow2 by lia.
    change (2 ^ 12) with 4096. change WORD_SIZE with 32. rewrite Hudiv.
    rewrite (bind_ret _ _ s bitmap_words s) by done. rewrite (bind_ret _ _ _ _ _ Hn).
    rewrite (bind_ret _ _ _ _ _ Hpl).
    destruct (Z.eqb_spec bitmap_place 0); [done|]. rewrite (bind_ret _ _ s tt s) by done.
    rewrite bind_gets, (bind_ret _ _ _ _ _ Hinit). fold bm.
    rewrite (bind_ret _ _ _ tt s1) by done. fold ks.
    rewrite (bind_ret _ _ _ _ _ Hb2), (bind_ret _ _ _ _ _ Hb3), (bind_ret _ _ _ _ _ Ht4).
    by rewrite Hend.
  - split.
    + eapply single_region_frame; [..|exact Hr]; by destruct s.
    + autorewrite with kernel. done.
    + autorewrite with kernel. done.
  - done.
  - done.
  - apply (same_outside_trans _ _ _ m2); [apply (same_outside_trans _ _ _ m1)|]; done.
  - intros k Hk. change (capacity bm) with (32 * bitmap_words) in *.
    rewrite Hu3, Hu2, (Hfree k) by lia. rewrite !pages_of by lia. rewrite orb_false_r.
    unfold reserved, in_pages. fold ks ke. rewrite orb_comm. do 2 f_equal.
    replace ((ke - ks + 4095) / 4096) with ((ke - ks) / 4096); [done|].
    Z.div_mod_to_equations; lia.
Qed.
End one_region.

(* ------------------------------------------------------------------ *)
(** * Properties *)

(** Up to 128 MiB the reserved pages cover the bitmap. *)
Lemma bitmap_reserved `{Platform} base size s a :
  init_ready base size s → size <= 2 ^ 27 →
  bitmap_place base size <= a < bitmap_place base size + 4 * bitmap_words size →
  0 <= (a - base) / 4096 < size / 4096 ∧ reserved base size ((a - base) / 4096) = true.
Proof.
  intros Hi Hs Ha. pose proof (place_cases _ _ _ Hi) as Hp. destruct (ir_kernel _ _ _ Hi) as (? & ? & ? & ?).
  destruct (sr_base _ _ _ (ir_region _ _ _ Hi)), (sr_size _ _ _ (ir_region _ _ _ Hi)) as (? & ? & ?).
  assert (0 < bitmap_words size <= 1024) as Hw by (unfold bitmap_words; Z.div_mod_to_equations; lia).
  split; [destruct Hp as [[Ep ?]|[Ep ?]]; Z.div_mod_to_equations; lia|].
  unfold reserved. apply orb_true_iff. right. unfold in_pages. apply andb_true_iff. rewrite Z.leb_le, Z.ltb_lt.
  revert Hp Hw Ha. generalize (bitmap_words size) (bitmap_place base size). intros w pl Hp Hw Ha.
  replace ((w + 4095) / 4096) with 1 by (Z.div_mod_to_equations; lia). destruct Hp as [[-> ?]|[-> ?]]; Z.div_mod_to_equations; lia.
Qed.

(** C32: [init_phys_allocator] on a board with one region of RAM, page-aligned and below 4 GiB,
    with the page-aligned kernel image in it, at least a page and less than 2 GiB of it
    free, and space for the bitmap in front of the image or behind it: it succeeds, puts
    the bitmap there, writes no other memory, and leaves the allocator's invariant true
    with exactly the [reserved] pages in use: those of the kernel image, and as many as it
    counts for the bitmap.  Up to 128 MiB of RAM these are all the pages of the bitmap;
    with more it counts too few, since it takes the number of words for that of bytes. *)
Theorem init_phys_allocator_spec (P : Platform) base size s :
  init_ready base size s →
  ∃ s', init_phys_allocator s = Ret tt s' ∧ pmm_ok base size s' ∧
    slots_ptr (physical_bitmap_ s') = bitmap_place base size ∧
    same_outside (bitmap_place base size) (4 * bitmap_words size) (k_mem s) (k_mem s') ∧
    (base <= bitmap_place base size ∧
     bitmap_place base size + 4 * bitmap_words size <= base + size) ∧
    (bitmap_place base size + 4 * bitmap_words size <= kernel_physical_start ∨
     kernel_physical_end <= bitmap_place base size) ∧
    (∀ k, 0 <= k < size / 4096 → page_used s' k = reserved base size k) ∧
    (size <= 2 ^ 27 → ∀ a, bitmap_place base size <= a < bitmap_place base size + 4 * bitmap_words size →
       page_used s' ((a - base) / 4096) = true).
Proof.
  intros Hi. pose proof (place_cases _ _ _ Hi) as Hp. destruct (ir_kernel _ _ _ Hi) as (? & ? & _).
  destruct (init_phys_ok _ _ _ Hi) as (bm & m & t & He & Hok & Hptr & _ & Hs & Hu).
  eexists; split; [done|]. split; [done|]. unfold page_used. autorewrite with kernel.
  split_and!; [done..| | | |done|].
  1-3: destruct Hp as [[-> ?]|[-> ?]]; lia.
  intros Hsz a Ha. destruct (bitmap_reserved _ _ _ a Hi Hsz Ha) as [Hk Hr]. by rewrite Hu.
Qed.

(** C33: As long as the invariant holds, [pmm_allocate_page] returns the address of
    a page of the region that was free and is in use afterwards, leaves every other
    page as it was, and returns NULL exactly when no page is free. *)
Theorem pmm_allocate_page_spec (P : Platform) base size s :
  pmm_ok base size s →
  ∃ p s', pmm_allocate_page s = Ret p s' ∧ pmm_ok base size s' ∧
    (p = 0 ↔ ∀ j, 0 <= j < size / 4096 → page_used s j = true) ∧
    (p ≠ 0 → let k := (p - base) / 4096 in
       p = base + 4096 * k ∧ 0 <= k < size / 4096 ∧ page_used s k = false ∧
       ∀ j, 0 <= j < size / 4096 → page_used s' j = (j =? k) || page_used s j).
Proof.
  intros Hok. destruct (allocate_page_null base size s Hok) as (p & s' & He & Hok' & Hz).
  exists p, s'. split_and!; [done..|]. cbv zeta. intros Hp.
  destruct (allocate_page_alloc base size s Hok) as (k & bm & m & Ha & He' & _).
  rewrite He in He'. injection He' as -> ->.
  destruct (sa_alloc_spec (physical_bitmap_ s, k_mem s) (bitmap_inv _ _ (po_bitmap _ _ _ Hok)))
    as [(k' & [bm' m'] & Ha' & _ & _ & Hk & Hf & Hu)|[Ha' _]]; rewrite Ha in Ha';
    injection Ha'; intros; subst; [|unfold slot_addr in Hp; cbn in Hp; done].
  destruct (slot_addr_inv base size k') as (Hr & Hadr & Hq);
    [apply (sr_base _ _ _ (po_region _ _ _ Hok))|done|lia|].
  rewrite Hq. pose proof (po_capacity _ _ _ Hok).
  split_and!; [done|lia|lia|exact Hf|]. intros j Hj.
  unfold page_used. autorewrite with kernel. apply Hu. cbn [sa_capacity fst]. simpl. lia.
Qed.

(** C34: After initialisation, pages handed out by any number of allocations are
    distinct, page-aligned, inside the region and outside the kernel image. *)
Theorem pmm_pages_distinct (P : Platform) base size s n :
  init_ready base size s →
  ∃ s1 ps s2, init_phys_allocator s = Ret tt s1 ∧ allocate_pages n s1 = Ret ps s2 ∧
    pmm_ok base size s2 ∧ NoDup (filter (λ p, p ≠ 0) ps) ∧
    ∀ p, p ∈ ps → p ≠ 0 →
      p mod 4096 = 0 ∧ base <= p ∧ p + 4096 <= base + size ∧
      (p + 4096 <= kernel_physical_start ∨ kernel_physical_end <= p).
Proof.
  intros Hi. destruct (init_phys_ok _ _ _ Hi) as (bm & m & t & He & Hok & _ & _ & _ & Hu).
  set (s1 := extend t (set_mem m (set_bitmap bm s))) in *.
  destruct (allocate_pages_alloc base size n s1 Hok) as (ks & bm2 & m2 & Ha & Hp & Hok2).
  destruct (alloc_many_ok n (physical_bitmap_ s1, k_mem s1) (bitmap_inv _ _ (po_bitmap _ _ _ Hok)))
    as (ks' & a' & Ha' & _ & _ & Hnd & Hin & _).
  rewrite Ha in Ha'. injection Ha' as <- _.
  destruct (sr_base _ _ _ (po_region _ _ _ Hok)) as [Hb Hb4].
  assert (Forall (λ k, -1 <= k) ks) as Hge.
  { apply Forall_forall. intros k Hk. destruct (decide (k = -1)); [lia|].
    destruct (Hin k Hk) as [? _]; [done|lia]. }
  exists s1, (map (slot_addr base size) ks), (set_mem m2 (set_bitmap bm2 s1)).
  split_and!; [done..|by apply slot_addrs_nodup|].
  intros p Hpin Hpz. apply list_elem_of_In, in_map_iff in Hpin as (k & <- & Hk%list_elem_of_In).
  rewrite Forall_forall in Hge.
  destruct (slot_addr_inv base size k Hb Hpz (Hge k Hk)) as (Hkr & -> & _).
  destruct (Hin k Hk) as [_ Hf]; [lia|]. cbn [sa_used bitmap_slot_allocator fst snd] in Hf.
  unfold s1 in Hf. autorewrite with kernel in Hf. rewrite Hu in Hf by done.
  destruct (ir_kernel _ _ _ Hi) as (? & ? & ? & ?).
  unfold reserved in Hf. apply orb_false_iff in Hf as [Hf _]. unfold in_pages in Hf.
  revert Hf. destruct (Z.leb_spec ((kernel_physical_start - base) / 4096) k),
    (Z.ltb_spec k ((kernel_physical_start - base) / 4096 +
       (kernel_physical_end - kernel_physical_start) / 4096)); cbn [andb]; try done; intros _;
    split_and!; Z.div_mod_to_equations; lia.
Qed.

(** [init_phys_allocator] passes the size of the bitmap to [pmm_borrow_pages]
    in words, not bytes: with more than 1024 words (128 MiB of RAM) the second page
    of the bitmap itself is left free, and can be handed out by an allocation. *)
Theorem bitmap_storage_left_free (P : Platform) base size s :
  init_ready base size s → 1024 < bitmap_words size <= 4096 →
  ∃ s', init_phys_allocator s = Ret tt s' ∧
    let page := bitmap_place base size + 4096 in
    page < bitmap_place base size + 4 * bitmap_words size ∧
    page_used s' ((page - base) / 4096) = false.
Proof.
  intros Hi Hw. pose proof (place_cases _ _ _ Hi) as Hp.
  destruct (ir_kernel _ _ _ Hi) as (? & ? & ? & ?).
  destruct (sr_base _ _ _ (ir_region _ _ _ Hi)).
  destruct (init_phys_ok _ _ _ Hi) as (bm & m & t & He & _ & _ & _ & _ & Hu).
  eexists; split; [done|]. cbv zeta. split; [lia|].
  destruct (sr_size _ _ _ (ir_region _ _ _ Hi)) as (_ & ? & _).
  unfold page_used. autorewrite with kernel. revert Hu Hp Hw. unfold reserved, in_pages.
  generalize (bitmap_words size) (bitmap_place base size). intros w pl Hu Hp Hw.
  assert ((pl + 4096 - base) / 4096 = (pl - base) / 4096 + 1) as Hq
    by (Z.div_mod_to_equations; lia).
  rewrite Hu by (destruct Hp as [[-> ?]|[-> ?]]; Z.div_mod_to_equations; lia).
  rewrite Hq. replace ((w + 4095) / 4096) with 1 by (Z.div_mod_to_equations; lia).
  apply orb_false_iff. split; apply andb_false_iff; rewrite Z.leb_gt, Z.ltb_ge; [|lia].
  destruct Hp as [[-> ?]|[-> ?]]; Z.div_mod_to_equations; lia.
Qed.

(** With one region of RAM, page numbers and page addresses are inverse to each
    other; the address one past the end of the region is still given a page number,
    one that no page has. *)
Theorem page_number_roundtrip (P : Platform) base size s k :
  single_region base size s → 0 <= k < size / 4096 →
  find_physical_addr_of_page k s = Ret (base + 4096 * k) s ∧
  physic_addr_to_ppn (base + 4096 * k) s = Ret k s ∧
  physic_addr_to_ppn (base + size) s = Ret (size / 4096) s ∧
  find_physical_addr_of_page (size / 4096) s = Ret 0 s.
Proof.
  intros Hr Hk. destruct (sr_base _ _ _ Hr), (sr_size _ _ _ Hr) as (? & ? & ?).
  rewrite !find_physical_addr_of_page_eq, !physic_addr_to_ppn_eq by apply Hr.
  rewrite (sr_regions _ _ _ Hr), !addr_single by lia.
  assert (4096 * k < size) by (Z.div_mod_to_equations; lia).
  rewrite !page_aligned by (unfold is_u32; lia || (Z.div_mod_to_equations; lia)).
  rewrite !ppn_single by lia. rewrite Z.ltb_irrefl.
  destruct (Z.ltb_spec k (size / 4096)); [|lia].
  replace (base + 4096 * k - base) with (k * 4096) by lia. rewrite Z.div_mul by lia.
  split_and!; try done. do 2 f_equal. lia.
Qed.

(** With two regions, [find_physical_addr_of_page] does not invert
    [physic_addr_to_ppn]: it never subtracts the pages of the first region, so the
    page number of the [k]-th page of the second region is turned into the address of
    another page of that region, or into NULL. *)
Theorem second_region_addresses_wrong (P : Platform) b1 s1 b2 s2 s k :
  regions_ok s → regions s = [RamDescriptor b1 s1; RamDescriptor b2 s2] →
  0 < s1 → s1 mod 4096 = 0 → b1 + s1 < b2 → b2 mod 4096 = 0 → s2 mod 4096 = 0 →
  0 <= b1 → b2 + s2 < 2 ^ 32 → 0 <= k < s2 / 4096 →
  let ppn := s1 / 4096 + k in
  physic_addr_to_ppn (b2 + 4096 * k) s = Ret ppn s ∧
  (∃ a, find_physical_addr_of_page ppn s = Ret a s ∧ a ≠ b2 + 4096 * k ∧
     (if decide (ppn < s2 / 4096) then a = b2 + 4096 * ppn else a = 0)).
Proof.
  intros Hs Hr ? ? ? ? ? ? ? Hk ppn.
  rewrite find_physical_addr_of_page_eq, physic_addr_to_ppn_eq, Hr by done.
  assert (4096 * k + 4096 <= s2) by (Z.div_mod_to_equations; lia).
  assert (1 <= s1 / 4096) by (Z.div_mod_to_equations; lia).
  assert (4096 * ppn = s1 + 4096 * k) as Hppn by (unfold ppn; Z.div_mod_to_equations; lia).
  rewrite page_aligned by (unfold is_u32; lia || (Z.div_mod_to_equations; lia)).
  cbn [ppn_of addr_of physicaddr space_size].
  rewrite (u32_small (b1 + s1)), (u32_small (b2 + s2)) by (unfold is_u32; lia).
  destruct (Z.leb_spec (b2 + 4096 * k) (b1 + s1)); [lia|]. rewrite andb_false_r.
  destruct (Z.leb_spec b2 (b2 + 4096 * k)), (Z.leb_spec (b2 + 4096 * k) (b2 + s2)); try lia.
  cbn [andb]. rewrite !Z.shiftr_div_pow2, !Z.shiftl_mul_pow2 by lia. change (2 ^ 12) with 4096.
  replace (b2 + 4096 * k - b2) with (k * 4096) by lia.
  rewrite (u32_small (k * 4096)), Z.div_mul, Z.add_0_l by (unfold is_u32; lia).
  rewrite (u32_small (s1 / 4096)) by (unfold is_u32; Z.div_mod_to_equations; lia).
  fold ppn. split.
  - assert (ppn < 2 ^ 20) by lia. rewrite u32_small by (unfold is_u32; lia).
    by rewrite s32_small by (unfold is_s32; lia).
  - destruct (Z.ltb_spec ppn (s1 / 4096)); [lia|].
    eexists. split; [done|].
    destruct (Z.ltb_spec ppn (s2 / 4096)).
    + assert (4096 * ppn < s2) by (Z.div_mod_to_equations; lia).
      rewrite (u32_small (ppn * 4096)) by (unfold is_u32; lia).
      rewrite u32_small by (unfold is_u32; lia). rewrite decide_True by lia. lia.
    + rewrite decide_False by lia. lia.
Qed.

(** The amount of free RAM is computed in a signed [long]: from 2 GiB on it is
    negative and [init_phys_allocator] panics with "not enough RAM available". *)
Theorem init_panics_from_2GiB (P : Platform) s :
  regions_ok s → 0 < ram_regions_index s → total_size (regions s) < 2 ^ 32 →
  0 < kernel_physical_start < kernel_physical_end → kernel_physical_end < 2 ^ 32 →
  (kernel_physical_end - kernel_physical_start) mod 4096 = 0 →
  2 ^ 31 <= total_size (regions s) - (kernel_physical_end - kernel_physical_start) →
  ∃ t, init_phys_allocator s = Halted (mask_interrupts (extend t s)).
Proof.
  intros Hs Hn Htop Hks Hke Hal Hbig. unfold init_phys_allocator.
  assert (get_kernel_size = kernel_physical_end - kernel_physical_start) as Hksz
    by (apply u32_small; unfold is_u32; lia).
  pose proof (get_total_mem_eq s Hs) as Htot. rewrite u32_small in Htot by (unfold is_u32; lia).
  rewrite (bind_ret _ _ s (ram_regions_index s) s) by done.
  rewrite !(bind_ret _ _ s tt s); cycle 1.
  { apply debug_assert_holds. right. rewrite Hksz. by apply Z.eqb_eq. }
  { apply debug_assert_holds. right. apply Z.ltb_lt. lia. }
  { apply debug_assert_holds. right. by apply Z.ltb_lt. }
  rewrite (bind_ret _ _ _ _ _ Htot), Hksz. cbv zeta. change PAGE_SIZE with 4096.
  assert (s32 (total_size (regions s) - (kernel_physical_end - kernel_physical_start)) =
    total_size (regions s) - (kernel_physical_end - kernel_physical_start) - 2 ^ 32) as Hneg.
  { unfold s32. rewrite u32_small by (unfold is_u32; lia). destruct (Z.ltb_spec
      (total_size (regions s) - (kernel_physical_end - kernel_physical_start)) (2 ^ 31)); lia. }
  rewrite Hneg. destruct (Z.ltb_spec (total_size (regions s) -
    (kernel_physical_end - kernel_physical_start) - 2 ^ 32) 4096); [|lia]. cbn [when].
  destruct (simple_format_ok (cstr "not enough RAM available (%u bytes only)")
    [VWord (total_size (regions s) - (kernel_physical_end - kernel_physical_start) - 2 ^ 32)])
    as [cs Hcs]; [reflexivity|].
  destruct (panic_halts (A:=unit) "not enough RAM available (%u bytes only)" _ s cs Hcs) as [t Ht].
  exists t. by rewrite (bind_ends _ _ _ _ Ht).
Qed.

(* ------------------------------------------------------------------ *)
(** * Concrete inputs *)

(** The QEMU board with [size] bytes of RAM at 0x80000000, where the kernel starts;
    the bitmap goes behind the kernel image. *)
Definition ram_state (l : list ram_descriptor) (m : mem) : kstate :=
  set_regions (l ++ replicate (16 - length l) (RamDescriptor 0 0)) (Z.of_nat (length l))
    (boot_state m).
Definition qemu_ram (size : Z) : kstate :=
  ram_state [RamDescriptor 0x80000000 size] (map_zeros 0x80006000 (4 * bitmap_words size) ∅).

Ltac range_tac := repeat (apply Forall_cons; split; [vm_compute; repeat split; discriminate|]);
  by apply Forall_nil.

Lemma qemu_single size :
  0 < size → size mod 4096 = 0 → size < 0x80000000 → single_region 0x80000000 size (qemu_ram size).
Proof.
  intros. split; [done| |by split|split_and!; lia || done]. split; [vm_compute; split; discriminate|]. simpl.
  apply Forall_cons. split; [cbn; unfold is_u32; lia|].
  repeat (apply Forall_cons; split; [cbn; unfold is_u32; lia|]). by apply Forall_nil.
Qed.

Lemma qemu_ready size :
  bitmap_place (H:=qemu_virt) 0x80000000 size = 0x80006000 →
  0x8000 <= size → size mod 4096 = 0 → size < 0x80000000 →
  init_ready (H:=qemu_virt) 0x80000000 size (qemu_ram size).
Proof.
  intros Hp ???. split; cbn [kernel_physical_start kernel_physical_end qemu_virt]; rewrite ?Hp;
    try lia; [by apply qemu_single; lia|split_and!; lia || done|apply map_zeros_mapped|].
  apply map_zeros_bytes, mem_bytes_empty.
Qed.

Ltac qemu := apply qemu_ready; [vm_compute; reflexivity|lia|reflexivity|lia].

Lemma init_phys_allocator_spec_witness :
  ∃ s', init_phys_allocator (H:=qemu_virt) (qemu_ram 0x800000) = Ret tt s' ∧
    page_used s' 0 = true ∧ page_used s' 6 = true ∧ page_used s' 7 = false.
Proof.
  destruct (init_phys_allocator_spec qemu_virt 0x80000000 0x800000 (qemu_ram 0x800000))
    as (s' & He & _ & _ & _ & _ & _ & Hu & _); [qemu|].
  exists s'. split; [exact He|]. rewrite !Hu by (split; [lia|vm_compute; reflexivity]).
  split_and!; vm_compute; reflexivity.
Defined.

(** An allocator over one free page. *)
Definition one_page : kstate :=
  set_bitmap (blank_bitmap 4096 1)
    (ram_state [RamDescriptor 0x1000 0x1000] (map_zeros 4096 4 ∅)).

Lemma one_page_ok : pmm_ok 0x1000 0x1000 one_page.
Proof.
  split; [split; [done| |by split|by split_and!]| |vm_compute; discriminate].
  - split; [vm_compute; split; discriminate|]. simpl. range_tac.
  - constructor; [by vm_compute|by vm_compute|apply map_zeros_mapped|].
    apply map_zeros_bytes, mem_bytes_empty.
Qed.

Lemma pmm_allocate_page_spec_witness :
  ∃ p s', pmm_allocate_page (H:=qemu_virt) one_page = Ret p s' ∧
    (p = 0 ↔ ∀ j, 0 <= j < 1 → page_used one_page j = true).
Proof.
  destruct (pmm_allocate_page_spec qemu_virt 0x1000 0x1000 one_page one_page_ok)
    as (p & s' & He & _ & Hz & _).
  exists p, s'. split; [exact He|exact Hz].
Defined.

Lemma pmm_pages_distinct_witness :
  ∃ s1 ps s2, init_phys_allocator (H:=qemu_virt) (qemu_ram 0x800000) = Ret tt s1 ∧
    allocate_pages (H:=qemu_virt) 100 s1 = Ret ps s2 ∧ NoDup (filter (λ p, p ≠ 0) ps).
Proof.
  destruct (pmm_pages_distinct qemu_virt 0x80000000 0x800000 (qemu_ram 0x800000) 100)
    as (s1 & ps & s2 & H1 & H2 & _ & H3 & _); [qemu|].
  exists s1, ps, s2. split_and!; [exact H1|exact H2|exact H3].
Defined.

(** 256 MiB: 2048 words, two pages of bitmap. *)
Lemma bitmap_storage_left_free_witness :
  ∃ s', init_phys_allocator (H:=qemu_virt) (qemu_ram 0x10000000) = Ret tt s' ∧
    page_used s' 7 = false.
Proof.
  destruct (bitmap_storage_left_free qemu_virt 0x80000000 0x10000000 (qemu_ram 0x10000000))
    as (s' & He & _ & Hu); [qemu|vm_compute; split; [reflexivity|discriminate]|].
  exists s'. split; [exact He|exact Hu].
Defined.

Lemma page_number_roundtrip_witness :
  find_physical_addr_of_page (H:=qemu_virt) 5 (qemu_ram 0x800000) =
    Ret 0x80005000 (qemu_ram 0x800000) ∧
  physic_addr_to_ppn (H:=qemu_virt) 0x80800000 (qemu_ram 0x800000) =
    Ret 2048 (qemu_ram 0x800000).
Proof.
  destruct (page_number_roundtrip qemu_virt 0x80000000 0x800000 (qemu_ram 0x800000) 5)
    as (H1 & _ & H2 & _); [apply qemu_single; [lia|reflexivity|lia]|split; [lia|reflexivity]|].
  split; [exact H1|exact H2].
Defined.

(** The two regions of the comment in phys_alloc.c. *)
Definition two_regions : kstate :=
  ram_state [RamDescriptor 0x10000 0x10000; RamDescriptor 0x35000 0x10000] ∅.

Lemma second_region_addresses_wrong_witness :
  physic_addr_to_ppn (H:=qemu_virt) 0x35000 two_regions = Ret 16 two_regions ∧
  ∃ a, find_physical_addr_of_page (H:=qemu_virt) 16 two_regions = Ret a two_regions ∧ a ≠ 0x35000.
Proof.
  destruct (second_region_addresses_wrong qemu_virt 0x10000 0x10000 0x35000 0x10000 two_regions 0)
    as (H1 & a & H2 & H3 & _); try lia; try reflexivity; try (split; [lia|reflexivity]).
  - split; [vm_compute; split; discriminate|]. simpl. range_tac.
  - split; [exact H1|]. exists a. split; [exact H2|exact H3].
Defined.

Lemma init_panics_from_2GiB_witness :
  ∃ t, init_phys_allocator (H:=qemu_virt) (ram_state [RamDescriptor 0x10000000 0xC0000000] ∅) =
    Halted (mask_interrupts (extend t (ram_state [RamDescriptor 0x10000000 0xC0000000] ∅))).
Proof.
  apply (init_panics_from_2GiB qemu_virt).
  - split; [vm_compute; split; discriminate|]. simpl. range_tac.
  - vm_compute. reflexivity.
  - vm_compute. reflexivity.
  - vm_compute. split; reflexivity.
  - vm_compute. reflexivity.
  - vm_compute. reflexivity.
  - vm_compute. discriminate.
Defined.
