(* ===== verification/SampleTree.v ===== *)
(** A small device tree and the string literals of the kernel laid out in memory,
    and a platform that has them: the concrete input of the examples about device
    trees. *)
From S2P Require Import Prelude Machine.
From stdpp Require Import base list gmap.
From Stdlib Require Import ZArith Lia.
From Stdlib Require String.
#[local] Open Scope Z_scope.

Definition be32 (x : Z) : list Z := [byte_of x 3; byte_of x 2; byte_of x 1; byte_of x 0].
Definition pad4 (bs : list Z) : list Z :=
  bs ++ replicate (Z.to_nat ((- Z.of_nat (length bs)) mod 4)) 0.

Definition node_begin (name : String.string) : list Z := be32 1 ++ pad4 (cstr name).
Definition node_end : list Z := be32 2.
Definition prop_tag (nameoff : Z) (value : list Z) : list Z :=
  be32 3 ++ be32 (Z.of_nat (length value)) ++ be32 nameoff ++ pad4 value.
Arguments node_begin name%_string_scope.

(** Names of properties, with the offsets 0, 15, 27, 39 and 43. *)
Definition tree_strings : list Z :=
  cstr "#address-cells" ++ cstr "#size-cells" ++ cstr "device_type" ++ cstr "reg" ++ cstr "compatible".

(** A root with two cells for addresses and sizes, [mb] bytes of memory at
    0x80000000, a CLINT and a UART. *)
Definition tree_struct (size : Z) : list Z :=
  node_begin "" ++ prop_tag 0 (be32 2) ++ prop_tag 15 (be32 2) ++
    node_begin "memory@80000000" ++ prop_tag 27 (cstr "memory") ++
      prop_tag 39 (be32 0 ++ be32 0x80000000 ++ be32 0 ++ be32 size) ++ node_end ++
    node_begin "clint@2000000" ++ prop_tag 43 (cstr "sifive,clint0" ++ cstr "riscv,clint0") ++
      prop_tag 39 (be32 0 ++ be32 0x2000000 ++ be32 0 ++ be32 0x10000) ++ node_end ++
    node_begin "serial@10000000" ++ prop_tag 43 (cstr "ns16550a") ++
      prop_tag 39 (be32 0 ++ be32 0x10000000 ++ be32 0 ++ be32 0x100) ++ node_end ++
  node_end ++ be32 9.

(** A tree of version 17 around a structure and a strings block, with an empty
    reservation map. *)
Definition tree_blob (strct strings : list Z) : list Z :=
  let ns := Z.of_nat (length strct) in
  let nt := Z.of_nat (length strings) in
  be32 0xd00dfeed ++ be32 (56 + ns + nt) ++ be32 56 ++ be32 (56 + ns) ++ be32 40 ++
  be32 17 ++ be32 16 ++ be32 0 ++ be32 nt ++ be32 ns ++
  replicate 16 0 ++ strct ++ strings.

Definition sample_tree : list Z := tree_blob (tree_struct 0x800000) tree_strings.
Definition tree_addr : Z := 0x4000.

#[local] Open Scope string_scope.

(** The literals, one after the other from 0x1000 on. *)
Definition literals : list String.string :=
  ["phandle"; "linux,phandle"; "compatible"; "reg"; "#address-cells"; "#size-cells";
   "device_type"; "memory"; "riscv,clint0"; "ns16550a"; "/aliases"; "/__symbols__"].

#[local] Close Scope string_scope.

Fixpoint place_literal (l : list String.string) (a : Z) (s : String.string) : Z :=
  match l with
  | [] => 0
  | s' :: l' => if String.eqb s s' then a else place_literal l' (a + Z.of_nat (String.length s') + 1) s
  end.

Definition literal_bytes : list Z := concat (map cstr literals).
Definition tree_mem (tree : list Z) : mem :=
  map_bytes 0x1000 (pad4 literal_bytes) (map_bytes tree_addr (pad4 tree) ∅).

(** [qemu_virt] with the literals. *)
Definition qemu_literals : Platform := {|
  ndebug := false;
  kernel_physical_start := 0x80000000;
  kernel_physical_end := 0x80006000;
  m_mode_handle_addr := 0x80000400;
  s_mode_handle_addr := 0x80000500;
  test_addr := 0x80000600;
  hw_clint := 0x2000000;
  rodata := place_literal literals 0x1000
|}.
