(* ===== verification/Fdt.v ===== *)
(** src/libfdt/fdt.c with the accessors of libfdt.h, libfdt_env.h, fdt.h and
    libfdt_internal.h: the header of a flattened device tree and the tag stream of
    its structure block.  The tree is read from byte memory; [fdt] is its address, 0
    is the null pointer, and [FDT_ASSUME_MASK] is 0, so no check is assumed away.
    Signed offsets wrap at 32 bits. *)
From S2P Require Import Prelude Machine Crt0 SampleTree.
From stdpp Require Import base list gmap.
From Stdlib Require Import ZArith Lia.
#[local] Open Scope Z_scope.

Definition FDT_MAGIC : Z := 0xd00dfeed.
Definition FDT_SW_MAGIC : Z := u32 (Z.lnot FDT_MAGIC).
Definition FDT_TAGSIZE : Z := 4.
Definition FDT_FIRST_SUPPORTED_VERSION : Z := 2.
Definition FDT_LAST_SUPPORTED_VERSION : Z := 17.

Definition FDT_BEGIN_NODE : Z := 1.
Definition FDT_END_NODE : Z := 2.
Definition FDT_PROP : Z := 3.
Definition FDT_NOP : Z := 4.
Definition FDT_END : Z := 9.

Definition FDT_V1_SIZE : Z := 7 * 4.
Definition FDT_V2_SIZE : Z := FDT_V1_SIZE + 4.
Definition FDT_V3_SIZE : Z := FDT_V2_SIZE + 4.
Definition FDT_V16_SIZE : Z := FDT_V3_SIZE.
Definition FDT_V17_SIZE : Z := FDT_V16_SIZE + 4.

(** Error codes; the functions return their negation. *)
Definition FDT_ERR_NOTFOUND : Z := 1.
Definition FDT_ERR_EXISTS : Z := 2.
Definition FDT_ERR_NOSPACE : Z := 3.
Definition FDT_ERR_BADOFFSET : Z := 4.
Definition FDT_ERR_BADPATH : Z := 5.
Definition FDT_ERR_BADPHANDLE : Z := 6.
Definition FDT_ERR_BADSTATE : Z := 7.
Definition FDT_ERR_TRUNCATED : Z := 8.
Definition FDT_ERR_BADMAGIC : Z := 9.
Definition FDT_ERR_BADVERSION : Z := 10.
Definition FDT_ERR_BADSTRUCTURE : Z := 11.
Definition FDT_ERR_BADLAYOUT : Z := 12.
Definition FDT_ERR_INTERNAL : Z := 13.
Definition FDT_ERR_BADNCELLS : Z := 14.
Definition FDT_ERR_BADVALUE : Z := 15.
Definition FDT_ERR_BADOVERLAY : Z := 16.
Definition FDT_ERR_NOPHANDLES : Z := 17.
Definition FDT_ERR_BADFLAGS : Z := 18.
Definition FDT_ERR_ALIGNMENT : Z := 19.
Definition FDT_MAX_PHANDLE : Z := 0xfffffffe.

(** [fdt32_to_cpu]: the bytes of a big-endian word that was loaded as it is. *)
Definition fdt32_to_cpu (x : Z) : Z :=
  Z.lor (Z.lor (Z.lor (Z.shiftl (byte_of x 0) 24) (Z.shiftl (byte_of x 1) 16))
    (Z.shiftl (byte_of x 2) 8)) (byte_of x 3).

Definition FDT_ALIGN (x a : Z) : Z := Z.land (u32 (x + a - 1)) (u32 (Z.lnot (a - 1))).
Definition FDT_TAGALIGN (x : Z) : Z := FDT_ALIGN x FDT_TAGSIZE.

(** The stores of big-endian words, byte by byte. *)
Definition fdt32_st (property value : Z) (m : mem) : res mem :=
  m ← store8 m property (Z.shiftr value 24);
  m ← store8 m (u32 (property + 1)) (Z.land (Z.shiftr value 16) 0xff);
  m ← store8 m (u32 (property + 2)) (Z.land (Z.shiftr value 8) 0xff);
  store8 m (u32 (property + 3)) (Z.land value 0xff).

Definition fdt64_st (property value : Z) (m : mem) : res mem :=
  m ← store8 m property (Z.shiftr value 56);
  m ← store8 m (u32 (property + 1)) (Z.land (Z.shiftr value 48) 0xff);
  m ← store8 m (u32 (property + 2)) (Z.land (Z.shiftr value 40) 0xff);
  m ← store8 m (u32 (property + 3)) (Z.land (Z.shiftr value 32) 0xff);
  m ← store8 m (u32 (property + 4)) (Z.land (Z.shiftr value 24) 0xff);
  m ← store8 m (u32 (property + 5)) (Z.land (Z.shiftr value 16) 0xff);
  m ← store8 m (u32 (property + 6)) (Z.land (Z.shiftr value 8) 0xff);
  store8 m (u32 (property + 7)) (Z.land value 0xff).

Section read.
Context (m : mem).

Definition fdt16_ld (p : Z) : res Z :=
  b0 ← load8 m p; b1 ← load8 m (u32 (p + 1));
  Ok (Z.lor (u16 (Z.shiftl b0 8)) b1).

Definition fdt32_ld (p : Z) : res Z :=
  b0 ← load8 m p; b1 ← load8 m (u32 (p + 1));
  b2 ← load8 m (u32 (p + 2)); b3 ← load8 m (u32 (p + 3));
  Ok (Z.lor (Z.lor (Z.lor (Z.shiftl b0 24) (Z.shiftl b1 16)) (Z.shiftl b2 8)) b3).

Definition fdt64_ld (p : Z) : res Z :=
  b0 ← load8 m p; b1 ← load8 m (u32 (p + 1));
  b2 ← load8 m (u32 (p + 2)); b3 ← load8 m (u32 (p + 3));
  b4 ← load8 m (u32 (p + 4)); b5 ← load8 m (u32 (p + 5));
  b6 ← load8 m (u32 (p + 6)); b7 ← load8 m (u32 (p + 7));
  Ok (Z.lor (Z.lor (Z.lor (Z.lor (Z.lor (Z.lor (Z.lor
    (Z.shiftl b0 56) (Z.shiftl b1 48)) (Z.shiftl b2 40)) (Z.shiftl b3 32))
    (Z.shiftl b4 24)) (Z.shiftl b5 16)) (Z.shiftl b6 8)) b7).

(** [fdt32_ld_], which is [fdt32_to_cpu] of a pointer target: an aligned load, then the swap. *)
Definition fdt32_ld_ (p : Z) : res Z := x ← load32 m p; Ok (fdt32_to_cpu x).

(** [fdt64_ld_]: on this machine, the two words of an [fdt64_t]. *)
Definition fdt64_ld_ (p : Z) : res Z :=
  hi ← fdt32_ld_ p; lo ← fdt32_ld_ (u32 (p + 4)); Ok (Z.lor (Z.shiftl hi 32) lo).

Context (fdt : Z).

Definition fdt_get_header (offset : Z) : res Z := fdt32_ld (u32 (fdt + offset)).
Definition fdt_magic := fdt_get_header 0.
Definition fdt_totalsize := fdt_get_header 4.
Definition fdt_off_dt_struct := fdt_get_header 8.
Definition fdt_off_dt_strings := fdt_get_header 12.
Definition fdt_off_mem_rsvmap := fdt_get_header 16.
Definition fdt_version := fdt_get_header 20.
Definition fdt_last_comp_version := fdt_get_header 24.
Definition fdt_boot_cpuid_phys := fdt_get_header 28.
Definition fdt_size_dt_strings := fdt_get_header 32.
Definition fdt_size_dt_struct := fdt_get_header 36.

(** [||] and [&&] on conditions that read the header. *)
Definition or_else (a b : res bool) : res bool := x ← a; if x : bool then Ok true else b.
Definition and_also (a b : res bool) : res bool := x ← a; if x : bool then b else Ok false.

Definition fdt_ro_probe_ : res Z :=
  totalsize ← fdt_totalsize;
  if negb (Z.land fdt 7 =? 0) then Ok (- FDT_ERR_ALIGNMENT)
  else
    let finish := Ok (if totalsize <? INT_MAX then s32 totalsize else - FDT_ERR_TRUNCATED) in
    magic ← fdt_magic;
    if magic =? FDT_MAGIC then
      version ← fdt_version;
      if version <? FDT_FIRST_SUPPORTED_VERSION then Ok (- FDT_ERR_BADVERSION)
      else
        last ← fdt_last_comp_version;
        if FDT_LAST_SUPPORTED_VERSION <? last then Ok (- FDT_ERR_BADVERSION) else finish
    else if magic =? FDT_SW_MAGIC then
      size ← fdt_size_dt_struct;
      if size =? 0 then Ok (- FDT_ERR_BADSTATE) else finish
    else Ok (- FDT_ERR_BADMAGIC).

(** [FDT_RO_PROBE]: return the error, if there is one. *)
Definition FDT_RO_PROBE {A} (fail : Z → A) (k : res A) : res A :=
  totalsize_ ← fdt_ro_probe_;
  if totalsize_ <? 0 then Ok (fail totalsize_) else k.

Definition check_off_ (hdrsize totalsize off : Z) : bool :=
  (hdrsize <=? off) && (off <=? totalsize).

Definition check_block_ (hdrsize totalsize base size : Z) : bool :=
  if negb (check_off_ hdrsize totalsize base) then false
  else if u32 (base + size) <? base then false
  else if negb (check_off_ hdrsize totalsize (u32 (base + size))) then false
  else true.

Definition fdt_header_size_ (version : Z) : Z :=
  if version <=? 1 then FDT_V1_SIZE
  else if version <=? 2 then FDT_V2_SIZE
  else if version <=? 3 then FDT_V3_SIZE
  else if version <=? 16 then FDT_V16_SIZE
  else FDT_V17_SIZE.

Definition fdt_header_size : res Z := version ← fdt_version; Ok (fdt_header_size_ version).

(** The block checks of [fdt_check_header], once the header size is known. *)
Definition check_blocks (hdrsize : Z) : res Z :=
  bad_size ← or_else (t ← fdt_totalsize; Ok (t <? hdrsize))
                     (t ← fdt_totalsize; Ok (INT_MAX <? t));
  if bad_size : bool then Ok (- FDT_ERR_TRUNCATED)
  else
    rsv ← fdt_off_mem_rsvmap;
    if negb (rsv mod 8 =? 0) then Ok (- FDT_ERR_ALIGNMENT)
    else
      strct ← fdt_off_dt_struct;
      if negb (strct mod FDT_TAGSIZE =? 0) then Ok (- FDT_ERR_ALIGNMENT)
      else
        totalsize ← fdt_totalsize; rsv ← fdt_off_mem_rsvmap;
        if negb (check_off_ hdrsize totalsize rsv) then Ok (- FDT_ERR_TRUNCATED)
        else
          version ← fdt_version;
          good ← (if version <? 17 then
                    totalsize ← fdt_totalsize; strct ← fdt_off_dt_struct;
                    Ok (check_off_ hdrsize totalsize strct)
                  else
                    totalsize ← fdt_totalsize; strct ← fdt_off_dt_struct;
                    size ← fdt_size_dt_struct;
                    Ok (check_block_ hdrsize totalsize strct size));
          if negb good then Ok (- FDT_ERR_TRUNCATED)
          else
            totalsize ← fdt_totalsize; strings ← fdt_off_dt_strings;
            size ← fdt_size_dt_strings;
            if negb (check_block_ hdrsize totalsize strings size)
            then Ok (- FDT_ERR_TRUNCATED) else Ok 0.

Definition fdt_check_header : res Z :=
  if negb (Z.land fdt 7 =? 0) then Ok (- FDT_ERR_ALIGNMENT)
  else
    magic ← fdt_magic;
    if negb (magic =? FDT_MAGIC) then Ok (- FDT_ERR_BADMAGIC)
    else
      bad ← or_else (v ← fdt_version; Ok (v <? FDT_FIRST_SUPPORTED_VERSION))
                    (l ← fdt_last_comp_version; Ok (FDT_LAST_SUPPORTED_VERSION <? l));
      if bad : bool then Ok (- FDT_ERR_BADVERSION)
      else
        version ← fdt_version; last ← fdt_last_comp_version;
        if version <? last then Ok (- FDT_ERR_BADVERSION)
        else hdrsize ← fdt_header_size; check_blocks hdrsize.

Definition fdt_offset_ptr_ (offset : Z) : res Z :=
  strct ← fdt_off_dt_struct; Ok (u32 (fdt + strct + offset)).

Definition fdt_offset_ptr (offset len : Z) : res Z :=
  let uoffset := u32 offset in
  strct ← fdt_off_dt_struct;
  let absoffset := u32 (offset + strct) in
  if offset <? 0 then Ok 0
  else
    outside ← (if (absoffset <? uoffset) || (u32 (absoffset + len) <? absoffset) then Ok true
               else totalsize ← fdt_totalsize; Ok (totalsize <? u32 (absoffset + len)));
    if outside : bool then Ok 0
    else
      version ← fdt_version;
      beyond ← (if 0x11 <=? version then
                  if u32 (uoffset + len) <? uoffset then Ok true
                  else size ← fdt_size_dt_struct; Ok (size <? u32 (offset + len))
                else Ok false);
      if beyond : bool then Ok 0 else fdt_offset_ptr_ offset.
End read.

Section traverse.
Context (m : mem) (fdt : Z).

(** Offsets stay below [totalsize], so this many rounds are enough for every scan
    of the structure block. *)
Definition tree_fuel : nat :=
  match fdt_totalsize m fdt with Ok t => S (S (Z.to_nat t)) | _ => 1%nat end.

(** [do p = fdt_offset_ptr(fdt, offset++, 1); while (p && *p)]: the last [p] and
    the offset after it. *)
Definition skip_name (offset : Z) : res (Z * Z) :=
  loop tree_fuel
    (fun offset =>
       p ← fdt_offset_ptr m fdt offset 1;
       let offset := s32 (offset + 1) in
       if p =? 0 then Ok (inr (p, offset))
       else c ← load8 m p; Ok (if c =? 0 then inr (p, offset) else inl offset))
    offset.

(** The switch of [fdt_next_tag]: the offset after the tag's payload, or [None]
    where the code returns [FDT_END] with [FDT_ERR_BADSTRUCTURE]. *)
Definition tag_payload (tag offset : Z) : res (option Z) :=
  if tag =? FDT_BEGIN_NODE then
    '(p, offset) ← skip_name offset;
    Ok (if p =? 0 then None else Some offset)
  else if tag =? FDT_PROP then
    lenp ← fdt_offset_ptr m fdt offset 4;
    if lenp =? 0 then Ok None
    else
      len ← fdt32_ld_ m lenp;
      let sum := u32 (len + offset) in
      if (INT_MAX <=? sum) || (sum <? u32 offset) then Ok None
      else
        let offset := s32 (offset + (12 - FDT_TAGSIZE + len)) in
        version ← fdt_version m fdt;
        Ok (Some (if (version <? 0x10) && (8 <=? len) && negb (u32 (offset - len) mod 8 =? 0)
                  then s32 (offset + 4) else offset))
  else if (tag =? FDT_END) || (tag =? FDT_END_NODE) || (tag =? FDT_NOP) then Ok (Some offset)
  else Ok None.

(** The tag and the next offset. *)
Definition fdt_next_tag (startoffset : Z) : res (Z * Z) :=
  tagp ← fdt_offset_ptr m fdt startoffset FDT_TAGSIZE;
  if tagp =? 0 then Ok (FDT_END, - FDT_ERR_TRUNCATED)
  else
    tag ← fdt32_ld_ m tagp;
    payload ← tag_payload tag (s32 (startoffset + FDT_TAGSIZE));
    match payload with
    | None => Ok (FDT_END, - FDT_ERR_BADSTRUCTURE)
    | Some offset =>
        p ← fdt_offset_ptr m fdt startoffset (u32 (offset - startoffset));
        if p =? 0 then Ok (FDT_END, - FDT_ERR_BADSTRUCTURE)
        else Ok (tag, s32 (FDT_TAGALIGN offset))
    end.

Definition fdt_check_node_offset_ (offset : Z) : res Z :=
  if (offset <? 0) || negb (offset mod FDT_TAGSIZE =? 0) then Ok (- FDT_ERR_BADOFFSET)
  else
    '(tag, offset) ← fdt_next_tag offset;
    Ok (if negb (tag =? FDT_BEGIN_NODE) then - FDT_ERR_BADOFFSET else offset).

Definition fdt_check_prop_offset_ (offset : Z) : res Z :=
  if (offset <? 0) || negb (offset mod FDT_TAGSIZE =? 0) then Ok (- FDT_ERR_BADOFFSET)
  else
    '(tag, offset) ← fdt_next_tag offset;
    Ok (if negb (tag =? FDT_PROP) then - FDT_ERR_BADOFFSET else offset).

(** The loop of [fdt_next_node]; [depth] is [None] for a null pointer. *)
Definition next_node_loop (nextoffset : Z) (depth : option Z) : res (Z * option Z) :=
  loop tree_fuel
    (fun '(nextoffset, depth) =>
       let offset := nextoffset in
       '(tag, nextoffset) ← fdt_next_tag offset;
       if tag =? FDT_BEGIN_NODE then
         Ok (inr (offset, (fun d => s32 (d + 1)) <$> depth))
       else if tag =? FDT_END_NODE then
         let depth := (fun d => s32 (d - 1)) <$> depth in
         Ok (match depth with
             | Some d => if d <? 0 then inr (nextoffset, depth) else inl (nextoffset, depth)
             | None => inl (nextoffset, depth)
             end)
       else if tag =? FDT_END then
         Ok (inr (if (0 <=? nextoffset)
                     || ((nextoffset =? - FDT_ERR_TRUNCATED) && bool_decide (depth = None))
                  then - FDT_ERR_NOTFOUND else nextoffset, depth))
       else Ok (inl (nextoffset, depth)))
    (nextoffset, depth).

(** The node's offset (or an error) and the new depth. *)
Definition fdt_next_node (offset : Z) (depth : option Z) : res (Z * option Z) :=
  if 0 <=? offset then
    nextoffset ← fdt_check_node_offset_ offset;
    if nextoffset <? 0 then Ok (nextoffset, depth) else next_node_loop nextoffset depth
  else next_node_loop 0 depth.

Definition fdt_first_subnode (offset : Z) : res Z :=
  '(offset, depth) ← fdt_next_node offset (Some 0);
  Ok (if (offset <? 0) || negb (bool_decide (depth = Some 1)) then - FDT_ERR_NOTFOUND else offset).

Definition fdt_next_subnode (offset : Z) : res Z :=
  loop tree_fuel
    (fun '(offset, depth) =>
       '(offset, depth) ← fdt_next_node offset (Some depth);
       let depth := default 0 depth in
       if (offset <? 0) || (depth <? 1) then Ok (inr (- FDT_ERR_NOTFOUND))
       else if 1 <? depth then Ok (inl (offset, depth))
       else Ok (inr offset))
    (offset, 1).

(** The first occurrence of the string in the table, or the null pointer. *)
Fixpoint find_string_from (n : nat) (p s slen : Z) : res Z :=
  match n with
  | O => Ok 0
  | S n' =>
      c ← memcmp p s slen m;
      found ← (if c =? 0 then e ← load8 m (u32 (p + slen)); Ok (e =? 0) else Ok false);
      if found : bool then Ok p else find_string_from n' (u32 (p + 1)) s slen
  end.
Definition fdt_find_string_len_ (strtab tabsize s slen : Z) : res Z :=
  let last := u32 (strtab + tabsize - (slen + 1)) in
  find_string_from (Z.to_nat (last - strtab + 1)) strtab s slen.
Definition fdt_find_string_ (strtab tabsize s : Z) : res Z :=
  slen ← strlen s m; fdt_find_string_len_ strtab tabsize s slen.

(** [fdt_move]: the result code and the new memory. *)
Definition fdt_move (buf bufsize : Z) : res (Z * mem) :=
  if bufsize <? 0 then Ok (- FDT_ERR_NOSPACE, m)
  else
    FDT_RO_PROBE m fdt (fun e => (e, m))
      (t ← fdt_totalsize m fdt;
       if u32 bufsize <? t then Ok (- FDT_ERR_NOSPACE, m)
       else
         t ← fdt_totalsize m fdt;
         '(_, m') ← memmove buf fdt t m;
         Ok (0, m')).
End traverse.

(* ------------------------------------------------------------------ *)
(** * Reading big-endian words *)

Lemma shifted_byte_u32 b k : is_u8 b → 0 <= k <= 24 → is_u32 (Z.shiftl b k).
Proof.
  unfold is_u8, is_u32. intros. rewrite Z.shiftl_mul_pow2 by lia.
  assert (2 ^ k <= 2 ^ 24) by (apply Z.pow_le_mono_r; lia).
  assert (0 < 2 ^ k) by (apply Z.pow_pos_nonneg; lia). nia.
Qed.

Lemma be_word_u32 b0 b1 b2 b3 :
  is_u8 b0 → is_u8 b1 → is_u8 b2 → is_u8 b3 →
  is_u32 (Z.lor (Z.lor (Z.lor (Z.shiftl b0 24) (Z.shiftl b1 16)) (Z.shiftl b2 8)) b3).
Proof.
  intros. repeat apply lor_u32; try (apply shifted_byte_u32; done || lia).
  unfold is_u8, is_u32 in *. lia.
Qed.

Lemma fdt32_to_cpu_u32 x : is_u32 (fdt32_to_cpu x).
Proof. unfold fdt32_to_cpu. apply (be_word_u32 (byte_of x 0)); apply byte_of_range. Qed.

Lemma fdt32_ld_ok m p :
  mem_bytes m → 0 <= p → p + 4 <= 2 ^ 32 → mapped m p 4 → ∃ v, fdt32_ld m p = Ok v ∧ is_u32 v.
Proof.
  intros Hb Hp Ht Hm. unfold fdt32_ld. rewrite !u32_small by (unfold is_u32; lia).
  destruct (Hm p ltac:(lia)) as [b0 H0], (Hm (p + 1) ltac:(lia)) as [b1 H1],
    (Hm (p + 2) ltac:(lia)) as [b2 H2], (Hm (p + 3) ltac:(lia)) as [b3 H3].
  rewrite (load8_ok _ _ _ H0), (load8_ok _ _ _ H1), (load8_ok _ _ _ H2), (load8_ok _ _ _ H3).
  eexists. split; [done|]. apply be_word_u32; by eapply Hb.
Qed.

Lemma fdt32_ld__ok m p :
  mem_bytes m → p mod 4 = 0 → mapped m p 4 → ∃ v, fdt32_ld_ m p = Ok v ∧ is_u32 v.
Proof.
  intros Hb Ha Hm. destruct (load32_total m p Hb Ha Hm) as (w & Hw & _).
  unfold fdt32_ld_. rewrite Hw. eexists. split; [done|apply fdt32_to_cpu_u32].
Qed.

(* ------------------------------------------------------------------ *)
(** * A tree in memory *)

(** A word of the header. *)
Definition hdr (m : mem) (fdt offset : Z) : Z :=
  match fdt_get_header m fdt offset with Ok v => v | _ => 0 end.

(** What the read-only functions assume of memory: the header and [totalsize] bytes
    are backed.  Nothing is assumed of their contents but what
    [fdt_check_header] establishes first: a size of at most [INT_MAX] and a structure
    block that is aligned and does not overlap the header. *)
Record blob (m : mem) (fdt : Z) : Prop := {
  bl_bytes : mem_bytes m;
  bl_addr : 0 < fdt ∧ fdt mod 8 = 0;
  bl_header : mapped m fdt 40 ∧ fdt + 40 <= 2 ^ 32;
  bl_mapped : mapped m fdt (hdr m fdt 4) ∧ fdt + hdr m fdt 4 < 2 ^ 32;
  bl_size : hdr m fdt 4 <= INT_MAX;
  bl_struct : hdr m fdt 8 mod 4 = 0 ∧ FDT_V1_SIZE <= hdr m fdt 8;
}.

Lemma hdr_ok m fdt offset :
  mem_bytes m → 0 < fdt → mapped m fdt 40 → fdt + 40 <= 2 ^ 32 → 0 <= offset <= 36 →
  fdt_get_header m fdt offset = Ok (hdr m fdt offset) ∧ is_u32 (hdr m fdt offset).
Proof.
  intros Hb Hf Hm Ht Ho.
  destruct (fdt32_ld_ok m (fdt + offset) Hb) as (v & Hv & Hu); [lia|lia| |].
  { intros x Hx. apply Hm. lia. }
  unfold hdr, fdt_get_header. rewrite u32_small by (unfold is_u32; lia). by rewrite Hv.
Qed.

(** Two sums that do not come out smaller than their first operand do not wrap. *)
Lemma no_wrap a s n :
  0 <= a < 2 ^ 31 → is_u32 s → is_u32 n → a <= u32 (a + s) →
  u32 (a + s) <= u32 (u32 (a + s) + n) → u32 (a + s) = a + s ∧ u32 (a + s + n) = a + s + n.
Proof.
  unfold is_u32. intros Ha Hs Hn H1 H2.
  assert (u32 (a + s) = a + s) as E1.
  { destruct (u32_wrap_once (a + s)) as [[_ E]|[_ E]]; [lia|done|lia]. }
  pose proof (u32_range (a + s)) as Hr. unfold is_u32 in Hr.
  rewrite E1 in *. split; [done|].
  destruct (u32_wrap_once (a + s + n)) as [[_ E]|[_ E]]; [lia|done|lia].
Qed.

Section tree.
Context (m : mem) (fdt : Z) (Hbl : blob m fdt).

#[local] Abbreviation total := (hdr m fdt 4).
#[local] Abbreviation strct := (hdr m fdt 8).

Lemma header_eq offset :
  0 <= offset <= 36 →
  fdt_get_header m fdt offset = Ok (hdr m fdt offset) ∧ is_u32 (hdr m fdt offset).
Proof using Hbl. destruct Hbl as [? [] [] _ _ _]. by apply hdr_ok. Qed.

(** Reads the header fields a term asks for. *)
Ltac read_header :=
  unfold fdt_magic, fdt_totalsize, fdt_off_dt_struct, fdt_off_dt_strings, fdt_off_mem_rsvmap,
    fdt_version, fdt_last_comp_version, fdt_size_dt_strings, fdt_size_dt_struct;
  repeat match goal with
  | |- context [fdt_get_header m fdt ?o] =>
      rewrite (proj1 (header_eq o ltac:(lia))); cbn [mbind res_bind]
  end.

Lemma tree_fuel_eq : tree_fuel m fdt = S (S (Z.to_nat total)).
Proof using Hbl. unfold tree_fuel. by read_header. Qed.

(** The range of bytes [fdt_offset_ptr] accepts. *)
Definition in_range (offset len : Z) : bool :=
  (0 <=? offset) && (offset + strct + len <=? total) &&
  ((hdr m fdt 20 <? 17) || (offset + len <=? hdr m fdt 36)).

Lemma offset_ptr_eq offset len :
  is_s32 offset → is_u32 len →
  fdt_offset_ptr m fdt offset len =
  Ok (if in_range offset len then u32 (fdt + strct + offset) else 0).
Proof using Hbl.
  unfold is_s32, is_u32. intros Ho Hl. unfold fdt_offset_ptr, fdt_offset_ptr_, in_range.
  read_header.
  destruct (header_eq 4 ltac:(lia)) as [_ Ht], (header_eq 8 ltac:(lia)) as [_ Hs],
    (header_eq 20 ltac:(lia)) as [_ Hv], (header_eq 36 ltac:(lia)) as [_ Hz].
  unfold is_u32 in *. destruct (Z.ltb_spec offset 0), (Z.leb_spec 0 offset); try lia; [done|].
  rewrite (u32_small offset) by (unfold is_u32; lia). cbn [andb].
  destruct (Z.leb_spec (offset + strct + len) total) as [Hin|Hout].
  - rewrite (u32_small (offset + strct)) by (unfold is_u32; lia).
    rewrite !(u32_small (offset + strct + len)) by (unfold is_u32; lia).
    rewrite !(u32_small (offset + len)) by (unfold is_u32; lia).
    destruct (Z.ltb_spec (offset + strct) offset), (Z.ltb_spec (offset + strct + len) (offset + strct));
      try lia. cbn [orb]. read_header. destruct (Z.ltb_spec total (offset + strct + len)); [lia|].
    cbn [mbind res_bind]. read_header.
    destruct (Z.leb_spec 17 (hdr m fdt 20)), (Z.ltb_spec (hdr m fdt 20) 17); try lia;
      destruct (Z.ltb_spec (offset + len) offset); try lia; cbn [orb andb mbind res_bind].
    + read_header. destruct (Z.ltb_spec (hdr m fdt 36) (offset + len)),
        (Z.leb_spec (offset + len) (hdr m fdt 36)); done || lia.
    + done.
  - cbn [andb].
    destruct ((u32 (offset + strct) <? offset) ||
      (u32 (u32 (offset + strct) + len) <? u32 (offset + strct))) eqn:E; [done|].
    apply orb_false_iff in E as [E1 E2]. rewrite Z.ltb_ge in E1, E2.
    destruct (no_wrap offset strct len) as [E3 E4]; [lia|done..|]. read_header.
    rewrite E3, E4. by destruct (Z.ltb_spec total (offset + strct + len)); [|lia].
Qed.

(** Bytes in range can be read. *)
Lemma in_range_ok offset len :
  in_range offset len = true → 0 <= len →
  0 <= offset ∧ offset + strct + len <= total ∧ 0 <= strct ∧ is_s32 offset ∧
  u32 (fdt + strct + offset) = fdt + strct + offset ∧
  fdt + strct + offset ≠ 0 ∧ mapped m (fdt + strct + offset) len.
Proof using Hbl.
  unfold in_range. rewrite !andb_true_iff, !Z.leb_le. intros [[H1 H2] _] Hl.
  destruct (header_eq 8 ltac:(lia)) as [_ Hs]. destruct Hbl as [_ [] [] [Hm Ht] Hsz _].
  unfold is_u32, INT_MAX in *. split_and!; try lia.
  - unfold is_s32. lia.
  - apply u32_small. unfold is_u32. lia.
  - intros x Hx. apply Hm. lia.
Qed.

(* ------------------------------------------------------------------ *)
(** * The tag stream *)

(** The name of a node: a string within the structure block. *)
Lemma skip_name_ok off :
  0 <= off → strct + off <= total →
  yields (skip_name m fdt off) (λ '(p, o), p ≠ 0 →
    ∃ cs, cstr_at m (fdt + strct + off) cs ∧ o = off + Z.of_nat (length cs) + 1 ∧
      strct + o <= total).
Proof using Hbl.
  intros Ho Hs. unfold skip_name. rewrite tree_fuel_eq.
  destruct (header_eq 8 ltac:(lia)) as [_ Hst]. pose proof (bl_size _ _ Hbl) as Hsz.
  unfold is_u32, INT_MAX in *.
  apply (loop_yields
    (λ o, off <= o ∧ strct + o <= total ∧ ∃ cs, bytes_at m (fdt + strct + off) cs ∧
       Forall (λ c, c ≠ 0) cs ∧ o = off + Z.of_nat (length cs))
    (λ o, Z.to_nat (total + 1 - o))); [|split_and!; [lia|done|]; exists []|lia].
  2: { split_and!; [by intros [|?] ?|done|simpl; lia]. }
  intros o (Hoo & Hso & cs & Hcs & Hnz & Hlen).
  rewrite offset_ptr_eq by (unfold is_s32, is_u32; lia). cbn [mbind res_bind].
  destruct (in_range o 1) eqn:Hin; [|by intros []].
  destruct (in_range_ok o 1 Hin) as (_ & Hle & _ & _ & Hadr & Hnz0 & Hmap); [lia|].
  rewrite Hadr. rewrite s32_small by (unfold is_s32; lia).
  destruct (Z.eqb_spec (fdt + strct + o) 0); [done|].
  destruct (Hmap (fdt + strct + o)) as [c Hc]; [lia|]. rewrite (load8_ok _ _ _ Hc).
  assert (fdt + strct + off + Z.of_nat (length cs) = fdt + strct + o) as Hend by lia.
  cbn [mbind res_bind yields]. destruct (Z.eqb_spec c 0) as [->|Hc0].
  - intros _. exists cs. split_and!; [|lia|lia]. split_and!; [done|done|]. by rewrite Hend.
  - split; [|lia]. split_and!; [lia|lia|]. exists (cs ++ [c]). split_and!.
    + intros i b Hb. apply lookup_app_Some in Hb as [Hb|[Hi Hb]]; [by apply Hcs|].
      destruct (i - length cs)%nat eqn:E; [|done]. injection Hb as <-.
      rewrite <- Hc. f_equal. lia.
    + apply Forall_app. split; [done|]. by constructor.
    + rewrite length_app. simpl. lia.
Qed.

(** A tag the traversal understands. *)
Definition is_tag (tag : Z) : Prop :=
  tag = FDT_BEGIN_NODE ∨ tag = FDT_END_NODE ∨ tag = FDT_PROP ∨ tag = FDT_NOP ∨ tag = FDT_END.

Lemma tag_payload_ok tag off :
  0 <= off → off mod 4 = 0 → strct + off <= total → is_u32 tag →
  yields (tag_payload m fdt tag off) (λ r, ∀ o, r = Some o →
    is_tag tag ∧ ∃ o', off <= o' < 2 ^ 32 ∧ o = s32 o' ∧
    (tag = FDT_BEGIN_NODE → ∃ cs, cstr_at m (fdt + strct + off) cs ∧
       o' = off + Z.of_nat (length cs) + 1) ∧
    (tag = FDT_PROP → ∃ len, fdt32_ld_ m (fdt + strct + off) = Ok len ∧ 0 <= len ∧
       off + 8 + len <= o' ∧ (16 <= hdr m fdt 20 → o' = off + 8 + len))).
Proof using Hbl.
  intros Ho Ha Hs Ht. unfold tag_payload.
  destruct (header_eq 8 ltac:(lia)) as [_ Hst]. pose proof (bl_size _ _ Hbl) as Hsz.
  unfold is_u32, INT_MAX in *. assert (s32 off = off) as Hoff by (apply s32_small; unfold is_s32; lia).
  destruct (Z.eqb_spec tag FDT_BEGIN_NODE) as [->|Hnb].
  { eapply yields_bind; [by apply skip_name_ok|]. intros [p o] Hp. cbn [yields].
    destruct (Z.eqb_spec p 0); [done|]. intros o' [= <-]. destruct (Hp n) as (cs & Hcs & -> & Hle).
    split; [by left|]. exists (off + Z.of_nat (length cs) + 1). split_and!; [lia|lia| | |].
    - symmetry. apply s32_small. unfold is_s32. lia.
    - eauto.
    - done. }
  destruct (Z.eqb_spec tag FDT_PROP) as [->|Hnp].
  { rewrite offset_ptr_eq by (unfold is_s32, is_u32; lia). cbn [mbind res_bind].
    destruct (in_range off 4) eqn:Hin; [|done].
    destruct (in_range_ok off 4 Hin) as (_ & Hle & _ & _ & Hadr & Hnz & Hmap); [lia|].
    rewrite Hadr. destruct (Z.eqb_spec (fdt + strct + off) 0); [done|].
    destruct (fdt32_ld__ok m (fdt + strct + off)) as (len & Hld & Hlen);
      [apply Hbl| |done|].
    { destruct (bl_struct _ _ Hbl), (bl_addr _ _ Hbl). Z.div_mod_to_equations; lia. }
    rewrite Hld. cbn [mbind res_bind]. unfold is_u32 in Hlen.
    destruct ((2 ^ 31 - 1 <=? u32 (len + off)) || (u32 (len + off) <? u32 off)) eqn:E; [done|].
    apply orb_false_iff in E as [E1 E2]. rewrite Z.leb_gt in E1. rewrite Z.ltb_ge in E2.
    rewrite (u32_small off) in E2 by (unfold is_u32; lia).
    assert (len + off < 2 ^ 31 - 1) as Hsum.
    { destruct (u32_wrap_once (len + off)) as [[_ E]|[_ E]]; lia. }
    read_header. cbn [yields]. intros o [= <-]. split; [right; right; by left|].
    unfold FDT_TAGSIZE. destruct (_ && _ && _) eqn:Ev.
    - rewrite !andb_true_iff, Z.ltb_lt in Ev.
      exists (off + (12 - 4 + len) + 4). split_and!; [lia|lia|apply s32_add_l|done|].
      intros _. exists len. split_and!; [done|lia|lia|lia].
    - exists (off + (12 - 4 + len)). split_and!; [lia|lia|done|done|].
      intros _. exists len. split_and!; [done|lia|lia|lia]. }
  destruct ((tag =? FDT_END) || (tag =? FDT_END_NODE) || (tag =? FDT_NOP)) eqn:E; [|done].
  rewrite !orb_true_iff, !Z.eqb_eq in E. intros o [= <-]. split.
  - unfold is_tag. tauto.
  - exists off. split_and!; [lia|lia|done|tauto|tauto].
Qed.

Lemma tagalign_eq x : 0 <= x < 2 ^ 32 - 4 → FDT_TAGALIGN x = 4 * ((x + 3) / 4).
Proof.
  intros. unfold FDT_TAGALIGN, FDT_ALIGN, FDT_TAGSIZE. rewrite u32_small by (unfold is_u32; lia).
  replace (x + 4 - 1) with (x + 3) by lia.
  apply (land_align 2); [lia|unfold is_u32; lia].
Qed.

(** What [fdt_next_tag] found at [off]: an error, or a tag within the tree and the
    aligned offset after it. *)
Definition tag_result (off : Z) (r : Z * Z) : Prop :=
  let '(tag, next) := r in
  (next < 0 ∧ tag = FDT_END ∧ (next = - FDT_ERR_TRUNCATED ∨ next = - FDT_ERR_BADSTRUCTURE)) ∨
  (is_tag tag ∧ off + 4 <= next ∧ next mod 4 = 0 ∧ next < total ∧
   fdt32_ld_ m (fdt + strct + off) = Ok tag ∧ strct + off + 4 <= total ∧
   (tag = FDT_BEGIN_NODE → ∃ cs, cstr_at m (fdt + strct + off + 4) cs ∧
      strct + off + 4 + Z.of_nat (length cs) + 1 <= total ∧ off + 4 + Z.of_nat (length cs) + 1 <= next) ∧
   (tag = FDT_PROP → ∃ len, fdt32_ld_ m (fdt + strct + off + 4) = Ok len ∧ 0 <= len ∧
      strct + off + 12 + len <= total ∧ off + 12 + len <= next ∧
      (16 <= hdr m fdt 20 → next < off + 16 + len))).

Lemma next_tag_ok off :
  is_s32 off → 0 <= off → off mod 4 = 0 → yields (fdt_next_tag m fdt off) (tag_result off).
Proof using Hbl.
  intros Hs32 Ho Ha. unfold fdt_next_tag, FDT_TAGSIZE.
  destruct (header_eq 8 ltac:(lia)) as [_ Hst]. pose proof (bl_size _ _ Hbl) as Hsz.
  destruct (bl_struct _ _ Hbl) as [Hsa Hsl]. unfold is_u32, INT_MAX, FDT_V1_SIZE in *.
  rewrite offset_ptr_eq by (done || (unfold is_u32; lia)). cbn [mbind res_bind].
  destruct (in_range off 4) eqn:Hin; [|left; split_and!; [done|done|by left]].
  destruct (in_range_ok off 4 Hin) as (_ & Hle & _ & _ & Hadr & Hnz & Hmap); [lia|].
  rewrite Hadr. destruct (Z.eqb_spec (fdt + strct + off) 0); [done|].
  destruct (fdt32_ld__ok m (fdt + strct + off)) as (tag & Htag & Htu);
    [apply Hbl|destruct (bl_addr _ _ Hbl); Z.div_mod_to_equations; lia|done|].
  rewrite Htag, s32_small by (unfold is_s32; lia). cbn [mbind res_bind].
  eapply yields_bind; [apply (tag_payload_ok tag (off + 4)); [lia| |lia|done]|].
  { Z.div_mod_to_equations; lia. }
  intros [o|] Hr; [|left; split_and!; [done|done|by right]].
  destruct (Hr o eq_refl) as (Htg & o' & Ho' & -> & Hname & Hprop). clear Hr.
  assert (u32 (s32 o' - off) = o' - off) as Hlen.
  { replace (s32 o' - off) with (s32 o' + - off) by lia. rewrite <- u32_add_l, u32_s32.
    rewrite u32_add_l. apply u32_small. unfold is_u32. lia. }
  rewrite Hlen, offset_ptr_eq by (done || (unfold is_u32; lia)). cbn [mbind res_bind].
  destruct (in_range off (o' - off)) eqn:Hin'; [|left; split_and!; [done|done|by right]].
  destruct (in_range_ok off (o' - off) Hin') as (_ & Hle' & _ & _ & _ & _ & _); [lia|].
  rewrite Hadr. destruct (Z.eqb_spec (fdt + strct + off) 0); [done|]. right.
  rewrite (s32_small o') by (unfold is_s32; lia). rewrite tagalign_eq by lia.
  rewrite s32_small by (unfold is_s32; Z.div_mod_to_equations; lia).
  split_and!; try done; [Z.div_mod_to_equations; lia..|lia| |].
  - intros ->. destruct (Hname eq_refl) as (cs & Hcs & ->).
    replace (fdt + strct + (off + 4)) with (fdt + strct + off + 4) in Hcs by lia.
    exists cs. split_and!; [done|lia|]. Z.div_mod_to_equations; lia.
  - intros ->. destruct (Hprop eq_refl) as (len & Hld & ? & ? & Hexact). exists len.
    replace (fdt + strct + (off + 4)) with (fdt + strct + off + 4) in Hld by lia.
    split_and!; [done|done|lia|Z.div_mod_to_equations; lia|]. intros Hv16. specialize (Hexact Hv16).
    Z.div_mod_to_equations; lia.
Qed.

Definition valid_offset (off : Z) : Prop := 0 <= off ∧ off mod 4 = 0 ∧ off < 2 ^ 31.

(** The offset of a node. *)
Definition is_node (off : Z) : Prop :=
  valid_offset off ∧ ∃ next, fdt_next_tag m fdt off = Ok (FDT_BEGIN_NODE, next) ∧
    0 <= next ∧ off + 4 <= next ∧ next mod 4 = 0 ∧ next < total.

Lemma next_tag_valid off : valid_offset off → yields (fdt_next_tag m fdt off) (tag_result off).
Proof using Hbl. intros (? & ? & ?). apply next_tag_ok; [unfold is_s32; lia|done|done]. Qed.

Lemma valid_next off next :
  valid_offset off → off + 4 <= next → next mod 4 = 0 → next < total → valid_offset next.
Proof using Hbl.
  intros (? & ? & ?) ???. pose proof (bl_size _ _ Hbl). unfold INT_MAX, valid_offset in *. lia.
Qed.

Lemma is_tag_cases tag : is_tag tag → tag ≠ FDT_BEGIN_NODE → tag ≠ FDT_END_NODE → tag ≠ FDT_END →
  tag = FDT_PROP ∨ tag = FDT_NOP.
Proof. unfold is_tag. tauto. Qed.

(** The outcome of a walk to the next node that started after [off]. *)
Definition node_result (off : Z) (r : Z * option Z) : Prop :=
  let '(next, depth) := r in
  next < 0 ∨ (off < next ∧ valid_offset next ∧ next < total ∧
    ((∃ d, depth = Some d ∧ d < 0) ∨ is_node next)).

Lemma next_node_loop_ok off next depth :
  off < next → valid_offset next →
  yields (next_node_loop m fdt next depth) (node_result off).
Proof using Hbl.
  intros Hlt Hv. unfold next_node_loop. rewrite tree_fuel_eq.
  apply (loop_yields (λ '(next, _), off < next ∧ valid_offset next)
    (λ '(next, _), Z.to_nat (total - next))); [|done|destruct Hv; lia].
  intros [nx d] [Hx Hvx]. pose proof (next_tag_valid nx Hvx) as Hr.
  destruct (fdt_next_tag m fdt nx) as [[tag nx']| |] eqn:E; [|done..].
  cbn [mbind res_bind]. pose proof Hvx as (Hx0 & _). cbn [yields] in Hr. unfold tag_result in Hr.
  destruct Hr as [(Hneg & -> & Hcode)|(Htag & Hge & Hal & Htop & _)].
  { cbn. left. destruct (Z.leb_spec 0 nx'); [lia|]. cbn [orb].
    case_match; unfold FDT_ERR_NOTFOUND; lia. }
  pose proof (valid_next nx nx' Hvx Hge Hal Htop) as Hv'.
  assert (off < nx' ∧ valid_offset nx') as Hinv by (split; [lia|done]).
  assert (Z.to_nat (total - nx') < Z.to_nat (total - nx))%nat as Hmu by lia.
  destruct (Z.eqb_spec tag FDT_BEGIN_NODE) as [->|Hb].
  { cbn. right. split_and!; [done|done|lia|]. right. split; [done|].
    exists nx'. by split_and!; [|lia..]. }
  destruct (Z.eqb_spec tag FDT_END_NODE) as [->|He].
  { cbv zeta. change (FDT_END_NODE =? FDT_BEGIN_NODE) with false. cbv iota.
    destruct d as [d|]; cbn [fmap option_fmap option_map]; [|done].
    destruct (Z.ltb_spec (s32 (d - 1)) 0); [|done].
    right. split_and!; try done; [lia|]. left. by eexists. }
  destruct (Z.eqb_spec tag FDT_END) as [->|Hen]; [|done].
  cbn. left. destruct (Z.leb_spec 0 nx'); [|lia]. cbn [orb]. unfold FDT_ERR_NOTFOUND. lia.
Qed.

Lemma check_node_offset_ok off :
  is_s32 off →
  ∃ r, fdt_check_node_offset_ m fdt off = Ok r ∧
    (r < 0 ∨ (is_node off ∧ fdt_next_tag m fdt off = Ok (FDT_BEGIN_NODE, r) ∧
       off < r ∧ valid_offset r ∧ r < total)).
Proof using Hbl.
  intros Ho. unfold fdt_check_node_offset_, FDT_TAGSIZE.
  destruct (Z.ltb_spec off 0); cbn [orb]; [by eexists; split; [|left]|].
  destruct (Z.eqb_spec (off mod 4) 0) as [Ha|Ha]; cbn [negb]; [|by eexists; split; [|left]].
  assert (valid_offset off) as Hv by (unfold valid_offset, is_s32 in *; lia).
  pose proof (next_tag_valid off Hv) as Hr.
  destruct (fdt_next_tag m fdt off) as [[tag next]| |] eqn:E; [|done..].
  cbn [mbind res_bind yields] in *. unfold tag_result in Hr.
  destruct (Z.eqb_spec tag FDT_BEGIN_NODE) as [->|Hb]; cbn [negb].
  - eexists; split; [done|]. destruct Hr as [(? & ? & _)|(_ & Hge & Hal & Htop & _)]; [done|].
    right. split_and!; [|done|lia|by eapply valid_next|lia].
    split; [done|]. exists next. destruct Hv. by split_and!; [|lia..].
  - eexists; split; [done|]. by left.
Qed.

Lemma next_node_ok off depth :
  is_s32 off → yields (fdt_next_node m fdt off depth) (node_result (Z.max off (-1))).
Proof using Hbl.
  intros Ho. unfold fdt_next_node. destruct (Z.leb_spec 0 off).
  - destruct (check_node_offset_ok off Ho) as (r & -> & Hr). cbn [mbind res_bind].
    destruct (Z.ltb_spec r 0); [by left|]. destruct Hr as [|(_ & _ & Hlt & Hv & _)]; [lia|].
    rewrite Z.max_l by lia. by apply next_node_loop_ok.
  - rewrite Z.max_r by lia. apply next_node_loop_ok; [lia|]. unfold valid_offset. done.
Qed.
End tree.

(* ------------------------------------------------------------------ *)
(** * The header check *)

Lemma check_block_eq h t b s :
  is_u32 t → is_u32 b → is_u32 s →
  check_block_ h t b s = bool_decide (h <= b ∧ b + s <= t).
Proof.
  unfold is_u32, check_block_, check_off_. intros Ht Hb Hs.
  destruct (Z.leb_spec h b), (Z.leb_spec b t); cbn [andb negb];
    try (symmetry; apply bool_decide_eq_false_2; lia).
  destruct (u32_wrap_once (b + s)) as [[? ->]|[? ->]]; [lia| |].
  - destruct (Z.ltb_spec (b + s) b); [lia|].
    destruct (Z.leb_spec h (b + s)), (Z.leb_spec (b + s) t); cbn [andb negb]; symmetry;
      (apply bool_decide_eq_true_2; lia) || (apply bool_decide_eq_false_2; lia).
  - destruct (Z.ltb_spec (b + s - 2 ^ 32) b); [|lia].
    symmetry; apply bool_decide_eq_false_2; lia.
Qed.

(** A header that describes blocks within the tree. *)
Record header_ok (m : mem) (fdt : Z) : Prop := {
  ho_aligned : fdt mod 8 = 0;
  ho_magic : hdr m fdt 0 = FDT_MAGIC;
  ho_version : 2 <= hdr m fdt 20 ∧ hdr m fdt 24 <= 17 ∧ hdr m fdt 24 <= hdr m fdt 20;
  ho_size : fdt_header_size_ (hdr m fdt 20) <= hdr m fdt 4 <= INT_MAX;
  ho_rsvmap : hdr m fdt 16 mod 8 = 0 ∧
    fdt_header_size_ (hdr m fdt 20) <= hdr m fdt 16 <= hdr m fdt 4;
  ho_struct : hdr m fdt 8 mod 4 = 0 ∧ fdt_header_size_ (hdr m fdt 20) <= hdr m fdt 8 ∧
    hdr m fdt 8 + (if hdr m fdt 20 <? 17 then 0 else hdr m fdt 36) <= hdr m fdt 4;
  ho_strings : fdt_header_size_ (hdr m fdt 20) <= hdr m fdt 12 ∧
    hdr m fdt 12 + hdr m fdt 32 <= hdr m fdt 4;
}.

Lemma land_7 fdt : Z.land fdt 7 = fdt mod 8.
Proof. change 7 with (Z.ones 3). by rewrite Z.land_ones by lia. Qed.

Section header.
Context (m : mem) (fdt : Z).
Context (Hb : mem_bytes m) (Hf : 0 < fdt) (Hm : mapped m fdt 40) (Ht : fdt + 40 <= 2 ^ 32).

#[local] Abbreviation hs := (fdt_header_size_ (hdr m fdt 20)).

Ltac read_header :=
  unfold fdt_magic, fdt_totalsize, fdt_off_dt_struct, fdt_off_dt_strings, fdt_off_mem_rsvmap,
    fdt_version, fdt_last_comp_version, fdt_size_dt_strings, fdt_size_dt_struct;
  repeat match goal with
  | |- context [fdt_get_header m fdt ?o] =>
      rewrite (proj1 (hdr_ok m fdt o Hb Hf Hm Ht ltac:(lia))); cbn [mbind res_bind]
  end.
Ltac hdr_range o := pose proof (proj2 (hdr_ok m fdt o Hb Hf Hm Ht ltac:(lia))).

(** A check that fails: the result is negative and the header not well formed. *)
Ltac rejected :=
  eexists; split; [reflexivity|]; split; [done|]; split; [done|];
  intros []; unfold FDT_TAGSIZE in *; lia.

Lemma check_blocks_ok :
  fdt mod 8 = 0 → hdr m fdt 0 = FDT_MAGIC →
  2 <= hdr m fdt 20 ∧ hdr m fdt 24 <= 17 ∧ hdr m fdt 24 <= hdr m fdt 20 →
  ∃ r, check_blocks m fdt hs = Ok r ∧ r <= 0 ∧ (r = 0 ↔ header_ok m fdt).
Proof using All.
  intros Ha Hmg Hv. unfold check_blocks, or_else. read_header.
  hdr_range 4. hdr_range 8. hdr_range 12. hdr_range 16. hdr_range 32. hdr_range 36.
  destruct (Z.ltb_spec (hdr m fdt 4) hs); cbn [mbind res_bind]; [rejected|].
  destruct (Z.ltb_spec INT_MAX (hdr m fdt 4)); [rejected|].
  destruct (Z.eqb_spec (hdr m fdt 16 mod 8) 0); cbn [negb]; [|rejected].
  destruct (Z.eqb_spec (hdr m fdt 8 mod FDT_TAGSIZE) 0); cbn [negb]; [|rejected].
  unfold check_off_.
  destruct (Z.leb_spec hs (hdr m fdt 16)), (Z.leb_spec (hdr m fdt 16) (hdr m fdt 4));
    cbn [andb negb]; try rejected.
  rewrite !check_block_eq by done.
  assert ((if hdr m fdt 20 <? 17
           then Ok ((hs <=? hdr m fdt 8) && (hdr m fdt 8 <=? hdr m fdt 4))
           else Ok (bool_decide (hs <= hdr m fdt 8 ∧ hdr m fdt 8 + hdr m fdt 36 <= hdr m fdt 4))) =
    Ok (bool_decide (hs <= hdr m fdt 8 ∧
      hdr m fdt 8 + (if hdr m fdt 20 <? 17 then 0 else hdr m fdt 36) <= hdr m fdt 4))) as ->.
  { destruct (hdr m fdt 20 <? 17); [|done]. f_equal. rewrite Z.add_0_r.
    destruct (Z.leb_spec hs (hdr m fdt 8)), (Z.leb_spec (hdr m fdt 8) (hdr m fdt 4)); symmetry;
      (apply bool_decide_eq_true_2; lia) || (apply bool_decide_eq_false_2; lia). }
  cbn [mbind res_bind]. case_bool_decide as Hst; cbn [negb]; [|rejected].
  case_bool_decide as Hstr; cbn [negb]; [|rejected].
  eexists. split; [done|]. split; [done|]. split; [|done]. intros _.
  by constructor; tauto || lia.
Qed.

Lemma check_header_ok :
  ∃ r, fdt_check_header m fdt = Ok r ∧ r <= 0 ∧ (r = 0 ↔ header_ok m fdt).
Proof using All.
  unfold fdt_check_header, fdt_header_size, or_else. read_header. rewrite land_7.
  destruct (Z.eqb_spec (fdt mod 8) 0); cbn [negb]; [|rejected].
  destruct (Z.eqb_spec (hdr m fdt 0) FDT_MAGIC); cbn [negb]; [|rejected].
  unfold FDT_FIRST_SUPPORTED_VERSION, FDT_LAST_SUPPORTED_VERSION.
  destruct (Z.ltb_spec (hdr m fdt 20) 2); cbn [mbind res_bind]; [rejected|].
  destruct (Z.ltb_spec 17 (hdr m fdt 24)); cbn [mbind res_bind]; [rejected|].
  destruct (Z.ltb_spec (hdr m fdt 20) (hdr m fdt 24)); [rejected|].
  read_header. apply check_blocks_ok; [done|done|lia].
Qed.

(** A checked header whose tree is backed by memory is a [blob]. *)
Lemma header_blob :
  header_ok m fdt → mapped m fdt (hdr m fdt 4) → fdt + hdr m fdt 4 < 2 ^ 32 → blob m fdt.
Proof using All.
  intros [] ??. constructor; try done; [lia|].
  assert (FDT_V1_SIZE <= hs); [|lia].
  unfold fdt_header_size_, FDT_V17_SIZE, FDT_V16_SIZE, FDT_V3_SIZE, FDT_V2_SIZE, FDT_V1_SIZE.
  repeat case_match; lia.
Qed.
End header.

(* ------------------------------------------------------------------ *)
(** * Storing and loading big-endian words *)

(** Byte [j] put in place [i]. *)
Lemma byte_moved x i j k :
  0 <= i → 0 <= j → 0 <= k →
  Z.testbit (Z.shiftl (byte_of x j) (8 * i)) k = (k / 8 =? i) && Z.testbit x (k - 8 * i + 8 * j).
Proof.
  intros Hi Hj Hk. destruct (Z_lt_le_dec k (8 * i)) as [Hlt|Hge].
  - rewrite Z.shiftl_spec, Z.testbit_neg_r by lia.
    destruct (Z.eqb_spec (k / 8) i); [|done]. exfalso. Z.div_mod_to_equations; lia.
  - unfold byte_of. change 255 with (Z.ones 8).
    rewrite Z.shiftl_spec, Z.land_spec, Z.shiftr_spec, testbit_ones by lia.
    rewrite andb_comm. f_equal.
    destruct (Z.ltb_spec (k - 8 * i) 8), (Z.eqb_spec (k / 8) i); try done;
      exfalso; Z.div_mod_to_equations; lia.
Qed.

(** Byte [j] of a word, back in its place. *)
Lemma byte_in_place v j k :
  0 <= j → 0 <= k →
  Z.testbit (Z.shiftl (byte_of v j) (8 * j)) k = (k / 8 =? j) && Z.testbit v k.
Proof. intros. rewrite byte_moved by lia. do 2 f_equal. lia. Qed.

Lemma testbit_fdt32_to_cpu x k :
  0 <= k < 32 → Z.testbit (fdt32_to_cpu x) k = Z.testbit x (24 - 8 * (k / 8) + k mod 8).
Proof.
  intros Hk. unfold fdt32_to_cpu. fold (byte_of x 0).
  rewrite <- (Z.shiftl_0_r (byte_of x 3)), !Z.lor_spec.
  change 24 with (8 * 3) at 1; change 16 with (8 * 2); change 8 with (8 * 1) at 3;
    change 0 with (8 * 0) at 2.
  rewrite !byte_moved by lia.
  assert (k / 8 = 0 ∨ k / 8 = 1 ∨ k / 8 = 2 ∨ k / 8 = 3) as [E|[E|[E|E]]]
    by (Z.div_mod_to_equations; lia); rewrite E; cbn [Z.eqb Pos.eqb andb orb];
    rewrite ?orb_false_r; f_equal; Z.div_mod_to_equations; lia.
Qed.

Lemma fdt32_to_cpu_involutive x : is_u32 x → fdt32_to_cpu (fdt32_to_cpu x) = x.
Proof.
  intros Hx. apply u32_bits_inj; [apply fdt32_to_cpu_u32|done|]. intros k Hk.
  rewrite !testbit_fdt32_to_cpu by (Z.div_mod_to_equations; lia). f_equal.
  Z.div_mod_to_equations; lia.
Qed.

Lemma fdt32_to_cpu_zero w : is_u32 w → fdt32_to_cpu w = 0 → w = 0.
Proof.
  intros Hw H. rewrite <- (combine_bytes w Hw). unfold fdt32_to_cpu in H.
  rewrite !Z.lor_eq_0_iff, !Z.shiftl_eq_0_iff in H by lia.
  destruct H as [[[H0 H1] H2] H3]. fold (byte_of w 0) in H0.
  by rewrite H0, H1, H2, H3.
Qed.

Lemma fdt32_ld__inv m p c :
  mem_bytes m → fdt32_ld_ m p = Ok c → ∃ w, load32 m p = Ok w ∧ is_u32 w ∧ c = fdt32_to_cpu w.
Proof.
  unfold fdt32_ld_. intros Hb (w & Hw & [= <-])%bind_ok. exists w.
  split_and!; [done| |done]. by destruct (load32_bytes m p w Hb Hw).
Qed.

Lemma byte_of_top v : is_u32 v → Z.shiftr v 24 = byte_of v 3.
Proof.
  unfold is_u32. intros. rewrite byte_of_div, Z.shiftr_div_pow2 by lia.
  change (2 ^ (8 * 3)) with (2 ^ 24). symmetry. apply Z.mod_small. Z.div_mod_to_equations; lia.
Qed.

Lemma byte_of_top64 v : 0 <= v < 2 ^ 64 → Z.shiftr v 56 = byte_of v 7.
Proof.
  intros. rewrite byte_of_div, Z.shiftr_div_pow2 by lia.
  change (2 ^ (8 * 7)) with (2 ^ 56). symmetry. apply Z.mod_small. Z.div_mod_to_equations; lia.
Qed.

(** Stores of a list of bytes, one after the other. *)
Fixpoint store_bytes (p : Z) (bs : list Z) (m : mem) : res mem :=
  match bs with
  | [] => Ok m
  | b :: bs' => m ← store8 m p b; store_bytes (p + 1) bs' m
  end.

Lemma store_bytes_ok p bs m :
  mapped m p (Z.of_nat (length bs)) → Forall is_u8 bs →
  ∃ m', store_bytes p bs m = Ok m' ∧ same_outside p (Z.of_nat (length bs)) m m' ∧
    bytes_at m' p bs.
Proof.
  revert p m. induction bs as [|b bs IH]; intros p m Hm Hb.
  - exists m. split_and!; [done|apply same_outside_refl|by intros [|?] ?].
  - apply Forall_cons in Hb as [Hb Hbs]. cbn [store_bytes].
    rewrite length_cons, Nat2Z.inj_succ in *.
    rewrite store8_ok by (apply Hm; lia). rewrite (u8_small b) by done. cbn [mbind res_bind].
    destruct (IH (p + 1) (<[p := b]> m)) as (m' & -> & Hs & Hat); [|done|].
    { intros x Hx. rewrite lookup_insert_ne by lia. apply Hm. lia. }
    exists m'. split_and!; [done| |].
    + intros x Hx. rewrite Hs by lia. by rewrite lookup_insert_ne by lia.
    + apply bytes_at_cons. split; [|done]. rewrite Hs by lia. by rewrite lookup_insert_eq.
Qed.

(** The bytes of a big-endian word. *)
Definition be_bytes (n : nat) (v : Z) : list Z := map (λ i, byte_of v i) (reverse (seqZ 0 (Z.of_nat n))).

Lemma be_bytes_u8 n v : Forall is_u8 (be_bytes n v).
Proof. apply Forall_map, Forall_forall. intros. apply byte_of_range. Qed.

Lemma fdt32_st_bytes p v m :
  0 <= p → p + 4 <= 2 ^ 32 → is_u32 v → fdt32_st p v m = store_bytes p (be_bytes 4 v) m.
Proof.
  intros ???. unfold fdt32_st, be_bytes. rewrite !u32_small by (unfold is_u32; lia).
  rewrite byte_of_top by done. 
  change (reverse (seqZ 0 _)) with [3; 2; 1; 0]. cbn [map store_bytes].
  replace (p + 1 + 1) with (p + 2) by lia. replace (p + 2 + 1) with (p + 3) by lia.
  repeat (apply (f_equal (mbind (M:=res) _)) || (destruct (store8 _ _ _); cbn [mbind res_bind]; [|done..])).
  done.
Qed.

Lemma fdt64_st_bytes p v m :
  0 <= p → p + 8 <= 2 ^ 32 → 0 <= v < 2 ^ 64 → fdt64_st p v m = store_bytes p (be_bytes 8 v) m.
Proof.
  intros ???. unfold fdt64_st, be_bytes. rewrite !u32_small by (unfold is_u32; lia).
  rewrite byte_of_top64 by done.
  change (reverse (seqZ 0 _)) with [7; 6; 5; 4; 3; 2; 1; 0]. cbn [map store_bytes].
  replace (p + 1 + 1) with (p + 2) by lia. replace (p + 2 + 1) with (p + 3) by lia.
  replace (p + 3 + 1) with (p + 4) by lia. replace (p + 4 + 1) with (p + 5) by lia.
  replace (p + 5 + 1) with (p + 6) by lia. replace (p + 6 + 1) with (p + 7) by lia.
  repeat (destruct (store8 _ _ _); cbn [mbind res_bind]; [|done..]). done.
Qed.

Lemma load_be m p n v i :
  bytes_at m p (be_bytes n v) → 0 <= i < Z.of_nat n →
  load8 m (p + i) = Ok (byte_of v (Z.of_nat n - 1 - i)).
Proof.
  intros Hb Hi. apply load8_ok. replace (p + i) with (p + Z.of_nat (Z.to_nat i)) by lia.
  apply Hb. unfold be_bytes. apply list_lookup_fmap_Some.
  exists (Z.of_nat n - 1 - i). split; [done|].
  apply reverse_lookup_Some. rewrite length_seqZ. split; [|lia].
  apply lookup_seqZ. lia.
Qed.

(** A word is the [lor] of its bytes. *)
Lemma be32_value v :
  is_u32 v →
  Z.lor (Z.lor (Z.lor (Z.shiftl (byte_of v 3) 24) (Z.shiftl (byte_of v 2) 16))
    (Z.shiftl (byte_of v 1) 8)) (byte_of v 0) = v.
Proof.
  intros Hv. rewrite <- (Z.shiftl_0_r (byte_of v 0)). apply Z.bits_inj'. intros k Hk.
  change 24 with (8 * 3); change 16 with (8 * 2); change 8 with (8 * 1) at 3;
    change 0 with (8 * 0) at 2.
  rewrite !Z.lor_spec, !byte_in_place by lia.
  destruct (Z_lt_le_dec k 32); [|rewrite testbit_high_u32 by done; by rewrite !andb_false_r].
  assert (k / 8 = 0 ∨ k / 8 = 1 ∨ k / 8 = 2 ∨ k / 8 = 3) as [-> | [-> | [-> | ->]]]
    by (Z.div_mod_to_equations; lia); by destruct (Z.testbit v k).
Qed.

Lemma be64_value v :
  0 <= v < 2 ^ 64 →
  Z.lor (Z.lor (Z.lor (Z.lor (Z.lor (Z.lor (Z.lor
    (Z.shiftl (byte_of v 7) 56) (Z.shiftl (byte_of v 6) 48)) (Z.shiftl (byte_of v 5) 40))
    (Z.shiftl (byte_of v 4) 32)) (Z.shiftl (byte_of v 3) 24)) (Z.shiftl (byte_of v 2) 16))
    (Z.shiftl (byte_of v 1) 8)) (byte_of v 0) = v.
Proof.
  intros Hv. rewrite <- (Z.shiftl_0_r (byte_of v 0)). apply Z.bits_inj'. intros k Hk.
  change 56 with (8 * 7); change 48 with (8 * 6); change 40 with (8 * 5); change 32 with (8 * 4);
    change 24 with (8 * 3); change 16 with (8 * 2); change 8 with (8 * 1) at 7;
    change 0 with (8 * 0) at 2.
  rewrite !Z.lor_spec, !byte_in_place by lia.
  destruct (Z_lt_le_dec k 64) as [Hk64|Hk64].
  - assert (k / 8 = 0 ∨ k / 8 = 1 ∨ k / 8 = 2 ∨ k / 8 = 3 ∨ k / 8 = 4 ∨ k / 8 = 5 ∨ k / 8 = 6 ∨
      k / 8 = 7) as [-> | [-> | [-> | [-> | [-> | [-> | [-> | ->]]]]]]]
      by (Z.div_mod_to_equations; lia); by destruct (Z.testbit v k).
  - assert (Z.testbit v k = false) as ->; [|by rewrite !andb_false_r].
    rewrite <- (Z.mod_small v (2 ^ 64)) by done. by apply Z.mod_pow2_bits_high.
Qed.

(* ------------------------------------------------------------------ *)
(** * Properties *)

(** Big-endian words survive a store and a load, at any alignment, for both
    widths; nothing outside the word is touched. *)
Theorem fdt_words_roundtrip m p v w :
  0 <= p → p + 8 <= 2 ^ 32 → mapped m p 8 → is_u32 v → 0 <= w < 2 ^ 64 →
  (∃ m', fdt32_st p v m = Ok m' ∧ same_outside p 4 m m' ∧ fdt32_ld m' p = Ok v) ∧
  (∃ m', fdt64_st p w m = Ok m' ∧ same_outside p 8 m m' ∧ fdt64_ld m' p = Ok w).
Proof.
  intros Hp Ht Hm Hv Hw. rewrite fdt32_st_bytes, fdt64_st_bytes by (done || lia). split.
  - destruct (store_bytes_ok p (be_bytes 4 v) m) as (m' & He & Hs & Hat);
      [intros x Hx; apply Hm; simpl in Hx; lia|apply be_bytes_u8|].
    exists m'. split_and!; [done|done|]. unfold fdt32_ld.
    rewrite !u32_small by (unfold is_u32; lia).
    pose proof (load_be m' p 4 v 0 Hat ltac:(lia)) as H0. rewrite Z.add_0_r in H0.
    rewrite H0, (load_be m' p 4 v 1 Hat), (load_be m' p 4 v 2 Hat), (load_be m' p 4 v 3 Hat) by lia.
    cbn [mbind res_bind]. f_equal. by apply be32_value.
  - destruct (store_bytes_ok p (be_bytes 8 w) m) as (m' & He & Hs & Hat);
      [intros x Hx; apply Hm; simpl in Hx; lia|apply be_bytes_u8|].
    exists m'. split_and!; [done|done|]. unfold fdt64_ld.
    rewrite !u32_small by (unfold is_u32; lia).
    pose proof (load_be m' p 8 w 0 Hat ltac:(lia)) as H0. rewrite Z.add_0_r in H0.
    rewrite H0, (load_be m' p 8 w 1 Hat), (load_be m' p 8 w 2 Hat), (load_be m' p 8 w 3 Hat),
      (load_be m' p 8 w 4 Hat), (load_be m' p 8 w 5 Hat), (load_be m' p 8 w 6 Hat),
      (load_be m' p 8 w 7 Hat) by lia.
    cbn [mbind res_bind]. f_equal. by apply be64_value.
Qed.

(** [fdt_check_header] reads nothing but the 40 bytes of the header, and accepts
    exactly the headers that are aligned, have the magic number and a supported
    version, and place the reservation map, the structure block and the strings
    block between the header and the end of the tree, without overflow. *)
Theorem fdt_check_header_spec m fdt :
  mem_bytes m → 0 < fdt → mapped m fdt 40 → fdt + 40 <= 2 ^ 32 →
  ∃ r, fdt_check_header m fdt = Ok r ∧ r <= 0 ∧ (r = 0 ↔ header_ok m fdt).
Proof. apply check_header_ok. Qed.

(** In a tree backed by memory, [fdt_offset_ptr] returns a pointer exactly for
    the ranges that lie within the tree (and, from version 17 on, within the structure
    block), never overflows, and every byte of such a range can be read. *)
Theorem fdt_offset_ptr_spec m fdt offset len :
  blob m fdt → is_s32 offset → is_u32 len →
  ∃ p, fdt_offset_ptr m fdt offset len = Ok p ∧
    (p ≠ 0 ↔ in_range m fdt offset len = true) ∧
    (p ≠ 0 → p = fdt + hdr m fdt 8 + offset ∧ p + len <= fdt + hdr m fdt 4 ∧ mapped m p len).
Proof.
  intros Hbl Ho Hl. rewrite (offset_ptr_eq m fdt Hbl) by done. eexists. split; [done|].
  destruct (in_range m fdt offset len) eqn:Hin; [|done].
  destruct (in_range_ok m fdt Hbl offset len Hin) as (? & ? & ? & ? & -> & ? & ?);
    [unfold is_u32 in Hl; lia|].
  split; [done|]. intros _. split_and!; [done|lia|done].
Qed.

(** C28: [fdt_next_tag] always terminates and never reads outside the tree. It either
    reports [FDT_END] with an error code, or a tag that was found at the offset, with
    its whole payload inside the tree, and the offset of the next tag: aligned,
    strictly larger and still within the tree. *)
Theorem fdt_next_tag_spec m fdt off :
  blob m fdt → is_s32 off → 0 <= off → off mod 4 = 0 →
  ∃ tag next, fdt_next_tag m fdt off = Ok (tag, next) ∧ tag_result m fdt off (tag, next).
Proof.
  intros Hbl Ho H0 Ha. pose proof (next_tag_ok m fdt Hbl off Ho H0 Ha) as Hr.
  destruct (fdt_next_tag m fdt off) as [[tag next]| |]; [|done..]. by exists tag, next.
Qed.

(** [fdt_next_node] terminates from any offset whatsoever, on any tree backed by
    memory: it returns an error or makes progress, to an aligned offset behind the
    one it started from that is a node (or, when the depth was counted and fell below
    zero, the end of the enclosing node). *)
Theorem fdt_next_node_spec m fdt off depth :
  blob m fdt → is_s32 off →
  ∃ next depth', fdt_next_node m fdt off depth = Ok (next, depth') ∧
    (next < 0 ∨ (Z.max off (-1) < next ∧ next mod 4 = 0 ∧ next < hdr m fdt 4 ∧
       ((∃ d, depth' = Some d ∧ d < 0) ∨
        ∃ after, fdt_next_tag m fdt next = Ok (FDT_BEGIN_NODE, after) ∧ next < after))).
Proof.
  intros Hbl Ho. pose proof (next_node_ok m fdt Hbl off depth Ho) as Hr.
  destruct (fdt_next_node m fdt off depth) as [[next d]| |]; [|done..].
  exists next, d. split; [done|]. destruct Hr as [|(Hlt & (? & ? & ?) & Htop & Hn)]; [by left|].
  right. split_and!; [done..|]. destruct Hn as [|[_ (after & Ha & ? & ? & _)]]; [by left|].
  right. exists after. split; [done|lia].
Qed.

(* ------------------------------------------------------------------ *)
(** * Concrete inputs *)

Definition sample_tree_mem : mem := tree_mem sample_tree.

Lemma u8_list bs : forallb (λ b, (0 <=? b) && (b <? 256)) bs = true → Forall is_u8 bs.
Proof.
  rewrite forallb_forall, Forall_forall. intros H x Hx%list_elem_of_In.
  specialize (H x Hx). apply andb_true_iff in H as [?%Z.leb_le ?%Z.ltb_lt].
  unfold is_u8. change (2 ^ 8) with 256. lia.
Qed.

Lemma tree_mem_bytes tree : forallb (λ b, (0 <=? b) && (b <? 256)) (pad4 tree) = true → mem_bytes (tree_mem tree).
Proof.
  intros Ht. apply map_bytes_bytes; [apply u8_list; vm_compute; reflexivity|].
  apply map_bytes_bytes; [by apply u8_list|apply mem_bytes_empty].
Qed.

Lemma tree_mem_mapped tree n :
  n <= Z.of_nat (length (pad4 tree)) → mapped (tree_mem tree) tree_addr n.
Proof.
  intros Hn x Hx. unfold tree_mem. rewrite map_bytes_lookup. case_decide as Hd.
  - apply lookup_lt_is_Some. lia.
  - apply map_bytes_mapped. lia.
Qed.

Lemma sample_tree_bytes : mem_bytes sample_tree_mem.
Proof. apply tree_mem_bytes. vm_compute. reflexivity. Qed.

Lemma sample_tree_mapped n : n <= 400 → mapped sample_tree_mem tree_addr n.
Proof.
  intros. apply tree_mem_mapped. etrans; [done|]. vm_compute. discriminate.
Qed.

Lemma sample_tree_words : word_backed sample_tree_mem.
Proof.
  apply map_bytes_word_backed; [reflexivity|vm_compute; reflexivity|].
  apply map_bytes_word_backed; [reflexivity|vm_compute; reflexivity|apply word_backed_empty].
Qed.

Lemma sample_blob : blob sample_tree_mem tree_addr.
Proof.
  assert (hdr sample_tree_mem tree_addr 4 = Z.of_nat (length sample_tree)) as Hsz
    by (vm_compute; reflexivity).
  constructor.
  - apply sample_tree_bytes.
  - split; reflexivity.
  - split; [apply sample_tree_mapped; discriminate|discriminate].
  - rewrite Hsz. split; [|vm_compute; reflexivity]. apply tree_mem_mapped. vm_compute. discriminate.
  - rewrite Hsz. vm_compute. discriminate.
  - vm_compute. split; [reflexivity|discriminate].
Qed.

Lemma fdt_words_roundtrip_witness :
  ∃ m', fdt64_st 0x4001 0x0123456789abcdef sample_tree_mem = Ok m' ∧
    fdt64_ld m' 0x4001 = Ok 0x0123456789abcdef.
Proof.
  destruct (fdt_words_roundtrip sample_tree_mem 0x4001 1 0x0123456789abcdef)
    as [_ (m' & H1 & _ & H2)]; [lia|lia| |unfold is_u32; lia|lia|].
  - intros x Hx. apply (sample_tree_mapped 400); unfold tree_addr; lia.
  - exists m'. split; [exact H1|exact H2].
Defined.

Lemma fdt_check_header_spec_witness :
  ∃ r, fdt_check_header sample_tree_mem tree_addr = Ok r ∧
    (r = 0 ↔ header_ok sample_tree_mem tree_addr).
Proof.
  destruct (fdt_check_header_spec sample_tree_mem tree_addr) as (r & H1 & _ & H2);
    [apply sample_tree_bytes|reflexivity|apply sample_tree_mapped; lia|discriminate|].
  exists r. split; [exact H1|exact H2].
Defined.

Lemma fdt_offset_ptr_spec_witness :
  ∃ p, fdt_offset_ptr sample_tree_mem tree_addr 8 4 = Ok p ∧
    (p ≠ 0 ↔ in_range sample_tree_mem tree_addr 8 4 = true).
Proof.
  destruct (fdt_offset_ptr_spec sample_tree_mem tree_addr 8 4) as (p & H1 & H2 & _);
    [apply sample_blob|unfold is_s32; lia|unfold is_u32; lia|].
  exists p. split; [exact H1|exact H2].
Defined.

Lemma fdt_next_tag_spec_witness :
  ∃ tag next, fdt_next_tag sample_tree_mem tree_addr 0 = Ok (tag, next) ∧
    tag_result sample_tree_mem tree_addr 0 (tag, next).
Proof.
  apply (fdt_next_tag_spec sample_tree_mem tree_addr 0);
    [apply sample_blob|unfold is_s32; lia|lia|reflexivity].
Defined.

Lemma fdt_next_node_spec_witness :
  ∃ next depth', fdt_next_node sample_tree_mem tree_addr 0 (Some 0) = Ok (next, depth').
Proof.
  destruct (fdt_next_node_spec sample_tree_mem tree_addr 0 (Some 0)) as (n & d & H & _);
    [apply sample_blob|unfold is_s32; lia|].
  exists n, d. exact H.
Defined.
