(* ===== verification/FdtRo.v ===== *)
(** src/libfdt/fdt_ro.c: looking up strings, nodes and properties of a device tree.
    A function that also stores through a length pointer returns the pair of its
    result and that length.  The strings it searches for are addresses too;
    [Platform.rodata] places the literals. *)
From S2P Require Import Prelude Machine Crt0 Fdt.
From stdpp Require Import base list gmap.
From Stdlib Require Import ZArith Lia.
From Stdlib Require String.
#[local] Open Scope Z_scope.

Section read_only.
Context `{Platform} (m : mem) (fdt : Z).

#[local] Abbreviation fuel := (tree_fuel m fdt).

(** The checks of [fdt_get_string] on the offset: the number of bytes the string
    may take, or an error. *)
Definition string_limit (stroffset totalsize absoffset : Z) : res (Z + Z) :=
  let len := u32 (totalsize - absoffset) in
  magic ← fdt_magic m fdt;
  if magic =? FDT_MAGIC then
    if stroffset <? 0 then Ok (inr (- FDT_ERR_BADOFFSET))
    else
      version ← fdt_version m fdt;
      if 17 <=? version then
        size ← fdt_size_dt_strings m fdt;
        if size <=? stroffset then Ok (inr (- FDT_ERR_BADOFFSET))
        else Ok (inl (if u32 (size - stroffset) <? len then u32 (size - stroffset) else len))
      else Ok (inl len)
  else if magic =? FDT_SW_MAGIC then
    let sw_stroffset := u32 (- stroffset) in
    size ← fdt_size_dt_strings m fdt;
    if (0 <=? stroffset) || (size <? sw_stroffset) then Ok (inr (- FDT_ERR_BADOFFSET))
    else Ok (inl (if sw_stroffset <? len then sw_stroffset else len))
  else Ok (inr (- FDT_ERR_INTERNAL)).

(** The string and its length, or the null pointer and an error code. *)
Definition fdt_get_string (stroffset : Z) : res (Z * Z) :=
  totalsize ← fdt_ro_probe_ m fdt;
  if totalsize <? 0 then Ok (0, totalsize)
  else
    strings ← fdt_off_dt_strings m fdt;
    let absoffset := u32 (stroffset + strings) in
    if totalsize <=? absoffset then Ok (0, - FDT_ERR_BADOFFSET)
    else
      limit ← string_limit stroffset totalsize absoffset;
      match limit with
      | inr err => Ok (0, err)
      | inl len =>
          let s := u32 (fdt + absoffset) in
          n ← memchr s 0 len m;
          Ok (if n =? 0 then (0, - FDT_ERR_TRUNCATED) else (s, s32 (n - s)))
      end.

Definition fdt_string (stroffset : Z) : res Z := '(s, _) ← fdt_get_string stroffset; Ok s.

Definition fdt_string_eq_ (stroffset s len : Z) : res bool :=
  '(p, slen) ← fdt_get_string stroffset;
  if (p =? 0) || negb (slen =? len) then Ok false
  else c ← memcmp p s len m; Ok (c =? 0).

(** The reservation entry, or the null pointer. *)
Definition fdt_mem_rsv (n : Z) : res Z :=
  let offset := u32 (n * 16) in
  rsvmap ← fdt_off_mem_rsvmap m fdt;
  let absoffset := u32 (rsvmap + offset) in
  rsvmap ← fdt_off_mem_rsvmap m fdt;
  if absoffset <? rsvmap then Ok 0
  else
    totalsize ← fdt_totalsize m fdt;
    if u32 (totalsize - 16) <? absoffset then Ok 0
    else rsvmap ← fdt_off_mem_rsvmap m fdt; Ok (u32 (fdt + rsvmap + 16 * n)).

(** The result code, the address and the size. *)
Definition fdt_get_mem_rsv (n : Z) : res (Z * option (Z * Z)) :=
  FDT_RO_PROBE m fdt (fun e => (e, None))
    (re ← fdt_mem_rsv n;
     if re =? 0 then Ok (- FDT_ERR_BADOFFSET, None)
     else address ← fdt64_ld_ m re; size ← fdt64_ld_ m (u32 (re + 8)); Ok (0, Some (address, size))).

(** Every round reads another entry, so it ends within the tree or at the end of
    memory. *)
Definition fdt_num_mem_rsv : res Z :=
  FDT_RO_PROBE m fdt id
    (loop (fuel + scan_fuel m)
       (fun i =>
          re ← fdt_mem_rsv i;
          if re =? 0 then Ok (inr (- FDT_ERR_TRUNCATED))
          else size ← fdt64_ld_ m (u32 (re + 8)); Ok (if size =? 0 then inr i else inl (i + 1)))
       0).

(* ------------------------------------------------------------------ *)
(** * Properties and nodes *)

Definition nextprop_ (offset : Z) : res Z :=
  loop fuel
    (fun offset =>
       '(tag, nextoffset) ← fdt_next_tag m fdt offset;
       Ok (if tag =? FDT_END then
             inr (if 0 <=? nextoffset then - FDT_ERR_BADSTRUCTURE else nextoffset)
           else if tag =? FDT_PROP then inr offset
           else if tag =? FDT_NOP then inl nextoffset
           else inr (- FDT_ERR_NOTFOUND)))
    offset.

Definition fdt_first_property_offset (nodeoffset : Z) : res Z :=
  offset ← fdt_check_node_offset_ m fdt nodeoffset;
  if offset <? 0 then Ok offset else nextprop_ offset.

Definition fdt_next_property_offset (offset : Z) : res Z :=
  offset ← fdt_check_prop_offset_ m fdt offset;
  if offset <? 0 then Ok offset else nextprop_ offset.

(** Trees before version 16 have full paths as node names. *)
Definition fdt_get_name (nodeoffset : Z) : res (Z * Z) :=
  nh ← fdt_offset_ptr_ m fdt nodeoffset;
  err ← fdt_ro_probe_ m fdt;
  if err <? 0 then Ok (0, err)
  else
    err ← fdt_check_node_offset_ m fdt nodeoffset;
    if err <? 0 then Ok (0, err)
    else
      let nameptr := u32 (nh + 4) in
      version ← fdt_version m fdt;
      nameptr ← (if version <? 0x10 then
                   leaf ← strrchr (scan_fuel m) nameptr 47 m;
                   Ok (if leaf =? 0 then 0 else u32 (leaf + 1))
                 else Ok nameptr);
      if nameptr =? 0 then Ok (0, - FDT_ERR_BADSTRUCTURE)
      else len ← strlen nameptr m; Ok (nameptr, s32 len).

Definition fdt_nodename_eq_ (offset s len : Z) : res bool :=
  '(p, olen) ← fdt_get_name offset;
  if (p =? 0) || (olen <? len) then Ok false
  else
    c ← memcmp p s len m;
    if negb (c =? 0) then Ok false
    else
      b ← load8 m (u32 (p + len));
      if b =? 0 then Ok true
      else at_sign ← memchr s 64 len m; b ← load8 m (u32 (p + len));
           Ok ((at_sign =? 0) && (b =? 64)).

Definition fdt_get_property_by_offset_ (offset : Z) : res (Z * Z) :=
  err ← fdt_check_prop_offset_ m fdt offset;
  if err <? 0 then Ok (0, err)
  else
    prop ← fdt_offset_ptr_ m fdt offset;
    len ← fdt32_ld_ m (u32 (prop + 4));
    Ok (prop, s32 len).

Definition fdt_get_property_by_offset (offset : Z) : res (Z * Z) :=
  version ← fdt_version m fdt;
  if version <? 0x10 then Ok (0, - FDT_ERR_BADVERSION) else fdt_get_property_by_offset_ offset.

(** The property, the stored length and the stored offset. *)
Definition fdt_get_property_namelen_ (offset name namelen : Z) : res (Z * Z * Z) :=
  offset ← fdt_first_property_offset offset;
  loop fuel
    (fun offset =>
       if 0 <=? offset then
         '(prop, len) ← fdt_get_property_by_offset_ offset;
         if prop =? 0 then Ok (inr (0, - FDT_ERR_INTERNAL, 0))
         else
           nameoff ← fdt32_ld_ m (u32 (prop + 8));
           eq ← fdt_string_eq_ (s32 nameoff) name namelen;
           if eq : bool then Ok (inr (prop, len, offset))
           else offset ← fdt_next_property_offset offset; Ok (inl offset)
       else Ok (inr (0, offset, 0)))
    offset.

Definition fdt_get_property_namelen (offset name namelen : Z) : res (Z * Z) :=
  version ← fdt_version m fdt;
  if version <? 0x10 then Ok (0, - FDT_ERR_BADVERSION)
  else '(prop, len, _) ← fdt_get_property_namelen_ offset name namelen; Ok (prop, len).

Definition fdt_get_property (nodeoffset name : Z) : res (Z * Z) :=
  namelen ← strlen name m; fdt_get_property_namelen nodeoffset name (s32 namelen).

(** [prop->data], realigned for old trees. *)
Definition property_data (prop poffset : Z) : res Z :=
  version ← fdt_version m fdt;
  realign ← (if (version <? 0x10) && negb (u32 (poffset + 12) mod 8 =? 0)
             then len ← fdt32_ld_ m (u32 (prop + 4)); Ok (8 <=? len) else Ok false);
  Ok (if realign : bool then u32 (prop + 16) else u32 (prop + 12)).

Definition fdt_getprop_namelen (nodeoffset name namelen : Z) : res (Z * Z) :=
  '(prop, len, poffset) ← fdt_get_property_namelen_ nodeoffset name namelen;
  if prop =? 0 then Ok (0, len)
  else data ← property_data prop poffset; Ok (data, len).

Definition fdt_getprop (nodeoffset name : Z) : res (Z * Z) :=
  namelen ← strlen name m; fdt_getprop_namelen nodeoffset name (s32 namelen).

(** The value, its length, and the name when the name pointer is not null. *)
Definition fdt_getprop_by_offset (offset : Z) (want_name : bool) : res (Z * Z * Z) :=
  '(prop, len) ← fdt_get_property_by_offset_ offset;
  if prop =? 0 then Ok (0, len, 0)
  else
    '(ok, len, name) ←
      (if want_name then
         nameoff ← fdt32_ld_ m (u32 (prop + 8));
         '(name, namelen) ← fdt_get_string (s32 nameoff);
         Ok (if name =? 0 then (false, namelen, name) else (true, len, name))
       else Ok (true, len, 0));
    if negb ok then Ok (0, len, name)
    else data ← property_data prop offset; Ok (data, len, name).

Definition fdt_get_phandle (nodeoffset : Z) : res Z :=
  '(php, len) ← fdt_getprop nodeoffset (rodata "phandle");
  if (php =? 0) || negb (len =? 4) then
    '(php, len) ← fdt_getprop nodeoffset (rodata "linux,phandle");
    if (php =? 0) || negb (len =? 4) then Ok 0 else fdt32_ld_ m php
  else fdt32_ld_ m php.

(** The result code and the largest phandle. *)
Definition fdt_find_max_phandle : res (Z * Z) :=
  loop fuel
    (fun '(offset, max) =>
       '(offset, _) ← fdt_next_node m fdt offset None;
       if offset <? 0 then Ok (inr (if offset =? - FDT_ERR_NOTFOUND then (0, max) else (offset, 0)))
       else
         value ← fdt_get_phandle offset;
         Ok (inl (offset, if max <? value then value else max)))
    (-1, 0).

Definition fdt_generate_phandle : res (Z * Z) :=
  '(err, max) ← fdt_find_max_phandle;
  Ok (if err <? 0 then (err, 0)
      else if max =? FDT_MAX_PHANDLE then (- FDT_ERR_NOPHANDLES, 0)
      else (0, u32 (max + 1))).

Definition fdt_subnode_offset_namelen (offset name namelen : Z) : res Z :=
  FDT_RO_PROBE m fdt id
    (loop fuel
       (fun '(offset, depth) =>
          if (0 <=? offset) && (0 <=? depth) then
            found ← (if depth =? 1 then fdt_nodename_eq_ offset name namelen else Ok false);
            if found : bool then Ok (inr offset)
            else
              '(offset, depth) ← fdt_next_node m fdt offset (Some depth);
              Ok (inl (offset, default 0 depth))
          else Ok (inr (if depth <? 0 then - FDT_ERR_NOTFOUND else offset)))
       (offset, 0)).

Definition fdt_subnode_offset (parentoffset name : Z) : res Z :=
  namelen ← strlen name m; fdt_subnode_offset_namelen parentoffset name (s32 namelen).

(* ------------------------------------------------------------------ *)
(** * Paths and aliases *)

(** [while ( *p == '/') { p++; if (p == end) return offset; }]: [None] for the
    return. *)
Fixpoint skip_slashes (n : nat) (p path_end : Z) : res (option Z) :=
  match n with
  | O => Ok None
  | S n' =>
      c ← load8 m p;
      if c =? 47 then
        let p := u32 (p + 1) in
        if p =? path_end then Ok None else skip_slashes n' p path_end
      else Ok (Some p)
  end.

(** The loop over the components of a path; each round consumes a character. *)
Definition path_walk (p path_end offset : Z) : res Z :=
  loop (S (Z.to_nat (path_end - p)))
    (fun '(p, offset) =>
       if p <? path_end then
         p' ← skip_slashes (S (Z.to_nat (path_end - p))) p path_end;
         match p' with
         | None => Ok (inr offset)
         | Some p =>
             q ← memchr p 47 (path_end - p) m;
             let q := if q =? 0 then path_end else q in
             offset ← fdt_subnode_offset_namelen offset p (q - p);
             if offset <? 0 then Ok (inr offset) else Ok (inl (q, offset))
         end
       else Ok (inr offset))
    (p, offset).

(** An alias is looked up under an absolute path and must itself be one: the
    recursion is at most three calls deep. *)
Fixpoint fdt_path_offset_namelen (depth : nat) (path namelen : Z) : res Z :=
  match depth with
  | O => NoFuel
  | S depth' =>
      let path_end := u32 (path + namelen) in
      FDT_RO_PROBE m fdt id
        (if namelen <=? 0 then Ok (- FDT_ERR_BADPATH)
         else
           c ← load8 m path;
           if negb (c =? 47) then
             q ← memchr path 47 (path_end - path) m;
             let q := if q =? 0 then path_end else q in
             (* fdt_get_alias_namelen(fdt, path, q - path) *)
             alias ←
               (offset ← (aliases_len ← strlen (rodata "/aliases") m;
                          fdt_path_offset_namelen depth' (rodata "/aliases") (s32 aliases_len));
                if offset <? 0 then Ok 0
                else
                  '(alias, len) ← fdt_getprop_namelen offset path (q - path);
                  if (alias =? 0) || (len <=? 0) then Ok 0
                  else
                    last ← load8 m (u32 (alias + len - 1));
                    if negb (last =? 0) then Ok 0
                    else first ← load8 m alias; Ok (if first =? 47 then alias else 0));
             if alias =? 0 then Ok (- FDT_ERR_BADPATH)
             else
               alias_len ← strlen alias m;
               offset ← fdt_path_offset_namelen depth' alias (s32 alias_len);
               path_walk q path_end offset
           else path_walk path path_end 0)
  end.

Definition fdt_path_offset (path : Z) : res Z :=
  len ← strlen path m; fdt_path_offset_namelen 3 path (s32 len).

Definition fdt_path_getprop_namelen (path propname propnamelen : Z) : res (Z * option Z) :=
  offset ← fdt_path_offset path;
  if offset <? 0 then Ok (0, None)
  else '(p, len) ← fdt_getprop_namelen offset propname propnamelen; Ok (p, Some len).

Definition fdt_get_alias_namelen (name namelen : Z) : res Z :=
  '(alias, len) ← fdt_path_getprop_namelen (rodata "/aliases") name namelen;
  let len := default 0 len in
  if (alias =? 0) || (len <=? 0) then Ok 0
  else
    last ← load8 m (u32 (alias + len - 1));
    if negb (last =? 0) then Ok 0
    else first ← load8 m alias; Ok (if first =? 47 then alias else 0).

Definition fdt_get_alias (name : Z) : res Z :=
  len ← strlen name m; fdt_get_alias_namelen name (s32 len).

Definition fdt_get_symbol_namelen (name namelen : Z) : res Z :=
  '(p, _) ← fdt_path_getprop_namelen (rodata "/__symbols__") name namelen; Ok p.

Definition fdt_get_symbol (name : Z) : res Z :=
  len ← strlen name m; fdt_get_symbol_namelen name (s32 len).

(* ------------------------------------------------------------------ *)
(** * Parents *)

(** The result and, when the node was reached, its depth. *)
Definition fdt_supernode_atdepth_offset (nodeoffset supernodedepth : Z) : res (Z * option Z) :=
  FDT_RO_PROBE m fdt (fun e => (e, None))
    (if supernodedepth <? 0 then Ok (- FDT_ERR_NOTFOUND, None)
     else
       loop fuel
         (fun '(offset, depth, supernodeoffset) =>
            if (0 <=? offset) && (offset <=? nodeoffset) then
              let supernodeoffset := if depth =? supernodedepth then offset else supernodeoffset in
              if offset =? nodeoffset then
                Ok (inr (if depth <? supernodedepth then - FDT_ERR_NOTFOUND else supernodeoffset,
                         Some depth))
              else
                '(offset, depth') ← fdt_next_node m fdt offset (Some depth);
                Ok (inl (offset, default 0 depth', supernodeoffset))
            else
              Ok (inr (if (offset =? - FDT_ERR_NOTFOUND) || (0 <=? offset) then - FDT_ERR_BADOFFSET
                       else if offset =? - FDT_ERR_BADOFFSET then - FDT_ERR_BADSTRUCTURE
                       else offset, None)))
         (0, 0, - FDT_ERR_INTERNAL)).

Definition fdt_node_depth (nodeoffset : Z) : res Z :=
  '(err, nodedepth) ← fdt_supernode_atdepth_offset nodeoffset 0;
  Ok (if negb (err =? 0) then (if err <? 0 then err else - FDT_ERR_INTERNAL)
      else default 0 nodedepth).

Definition fdt_parent_offset (nodeoffset : Z) : res Z :=
  nodedepth ← fdt_node_depth nodeoffset;
  if nodedepth <? 0 then Ok nodedepth
  else '(r, _) ← fdt_supernode_atdepth_offset nodeoffset (nodedepth - 1); Ok r.

(* ------------------------------------------------------------------ *)
(** * Searching for a node *)

(** [for (offset = fdt_next_node(fdt, startoffset, NULL); offset >= 0; ...)]:
    [test] decides whether to return at a node. *)
Definition search_nodes (startoffset : Z) (test : Z → res (option Z)) : res Z :=
  '(offset, _) ← fdt_next_node m fdt startoffset None;
  loop fuel
    (fun offset =>
       if 0 <=? offset then
         found ← test offset;
         match found with
         | Some r => Ok (inr r)
         | None => '(offset, _) ← fdt_next_node m fdt offset None; Ok (inl offset)
         end
       else Ok (inr offset))
    offset.

Definition fdt_node_offset_by_prop_value (startoffset propname propval proplen : Z) : res Z :=
  FDT_RO_PROBE m fdt id
    (search_nodes startoffset (fun offset =>
       '(val, len) ← fdt_getprop offset propname;
       if (val =? 0) || negb (len =? proplen) then Ok None
       else c ← memcmp val propval len m; Ok (if c =? 0 then Some offset else None))).

Definition fdt_node_offset_by_phandle (phandle : Z) : res Z :=
  if (phandle =? 0) || (phandle =? UINT_MAX) then Ok (- FDT_ERR_BADPHANDLE)
  else
    FDT_RO_PROBE m fdt id
      (search_nodes (-1) (fun offset =>
         value ← fdt_get_phandle offset; Ok (if value =? phandle then Some offset else None))).

(** Every round of the string lists consumes at least one character. *)
Definition fdt_stringlist_contains (strlist listlen str : Z) : res bool :=
  len ← strlen str m;
  let len := s32 len in
  loop (S (S (Z.to_nat listlen)))
    (fun '(strlist, listlen) =>
       if len <=? listlen then
         c ← memcmp str strlist (len + 1) m;
         if c =? 0 then Ok (inr true)
         else
           p ← memchr strlist 0 listlen m;
           if p =? 0 then Ok (inr false)
           else Ok (inl (u32 (p + 1), listlen - ((p - strlist) + 1)))
       else Ok (inr false))
    (strlist, listlen).

(** The walk over a string list that count, search and get share: [visit] sees
    each string with its length including the NUL, [bad] and [fin] are the results
    for an unterminated list and for the end of the list. *)
Definition stringlist_walk {A} (list length : Z) (bad : A) (visit : Z → Z → Z → res (option A))
    (fin : Z → A) : res A :=
  let list_end := u32 (list + length) in
  loop (S (S (Z.to_nat length)))
    (fun '(list, idx) =>
       if list <? list_end then
         n ← strnlen list (list_end - list) m;
         let length := s32 (n + 1) in
         if list_end <? u32 (list + length) then Ok (inr bad)
         else
           found ← visit list length idx;
           match found with
           | Some a => Ok (inr a)
           | None => Ok (inl (u32 (list + length), idx + 1))
           end
       else Ok (inr (fin idx)))
    (list, 0).

Definition fdt_stringlist_count (nodeoffset property : Z) : res Z :=
  '(list, length) ← fdt_getprop nodeoffset property;
  if list =? 0 then Ok length
  else stringlist_walk list length (- FDT_ERR_BADVALUE) (fun _ _ _ => Ok None) id.

Definition fdt_stringlist_search (nodeoffset property string : Z) : res Z :=
  '(list, length) ← fdt_getprop nodeoffset property;
  if list =? 0 then Ok length
  else
    n ← strlen string m;
    let len := s32 (n + 1) in
    stringlist_walk list length (- FDT_ERR_BADVALUE)
      (fun list length idx =>
         if length =? len then c ← memcmp list string length m; Ok (if c =? 0 then Some idx else None)
         else Ok None)
      (fun _ => - FDT_ERR_NOTFOUND).

Definition fdt_stringlist_get (nodeoffset property idx : Z) : res (Z * Z) :=
  '(list, length) ← fdt_getprop nodeoffset property;
  if list =? 0 then Ok (0, length)
  else
    stringlist_walk list length (0, - FDT_ERR_BADVALUE)
      (fun list length i => Ok (if i =? idx then Some (list, length - 1) else None))
      (fun _ => (0, - FDT_ERR_NOTFOUND)).

(** 0 when compatible, 1 when not, or an error. *)
Definition fdt_node_check_compatible (nodeoffset compatible : Z) : res Z :=
  '(prop, len) ← fdt_getprop nodeoffset (rodata "compatible");
  if prop =? 0 then Ok len
  else b ← fdt_stringlist_contains prop len compatible; Ok (b2z (negb b)).

Definition fdt_node_offset_by_compatible (startoffset compatible : Z) : res Z :=
  FDT_RO_PROBE m fdt id
    (search_nodes startoffset (fun offset =>
       err ← fdt_node_check_compatible offset compatible;
       Ok (if (err <? 0) && negb (err =? - FDT_ERR_NOTFOUND) then Some err
           else if err =? 0 then Some offset else None))).
End read_only.

(* ------------------------------------------------------------------ *)
(** * Safety of the lookups *)

Lemma memchr_from_ok m ch n p :
  mapped m p (Z.of_nat n) → 0 < p → p + Z.of_nat n <= 2 ^ 32 →
  yields (memchr_from n p ch m) (λ r, r = 0 ∨ (p <= r < p + Z.of_nat n ∧ m !! r = Some ch ∧
    ∃ bs, bytes_at m p bs ∧ Forall (λ c, c ≠ ch) bs ∧ r = p + Z.of_nat (length bs))).
Proof.
  revert p. induction n as [|n IH]; intros p Hm Hp Ht; cbn [memchr_from]; [by left|].
  destruct (Hm p) as [c Hc]; [lia|]. rewrite (load8_ok _ _ _ Hc). cbn [mbind res_bind].
  destruct (Z.eqb_spec c ch) as [->|Hne].
  - right. split_and!; [lia|lia|done|]. exists []. split_and!; [by intros [|?] ?|done|simpl; lia].
  - destruct n as [|n'].
    { cbn. by left. }
    rewrite u32_small by (unfold is_u32; lia).
    eapply yields_mono; [apply IH|]; [intros x Hx; apply Hm; lia|lia|lia|].
    intros r [->|(Hr & Hch & bs & Hbs & Hnc & ->)]; [by left|]. right.
    split_and!; [lia|lia|done|]. exists (c :: bs). split_and!.
    + apply bytes_at_cons. done.
    + by constructor.
    + rewrite length_cons. lia.
Qed.

Section safety.
Context (m : mem) (fdt : Z) (Hbl : blob m fdt).

#[local] Abbreviation total := (hdr m fdt 4).
#[local] Abbreviation strct := (hdr m fdt 8).

Ltac read_header :=
  unfold fdt_magic, fdt_totalsize, fdt_off_dt_struct, fdt_off_dt_strings, fdt_off_mem_rsvmap,
    fdt_version, fdt_last_comp_version, fdt_size_dt_strings, fdt_size_dt_struct;
  repeat match goal with
  | |- context [fdt_get_header m fdt ?o] =>
      rewrite (proj1 (header_eq m fdt Hbl o ltac:(lia))); cbn [mbind res_bind]
  end.

Lemma ro_probe_ok :
  ∃ r, fdt_ro_probe_ m fdt = Ok r ∧ (r < 0 ∨ r = total).
Proof using Hbl.
  unfold fdt_ro_probe_. read_header. pose proof (bl_size _ _ Hbl).
  destruct (header_eq m fdt Hbl 4 ltac:(lia)) as [_ Ht]. unfold is_u32, INT_MAX in *.
  assert (∃ r, Ok (if total <? 2 ^ 31 - 1 then s32 total else - FDT_ERR_TRUNCATED) = Ok r ∧
    (r < 0 ∨ r = total)) as Hfin.
  { eexists. split; [done|]. destruct (total <? 2 ^ 31 - 1); [right|by left].
    apply s32_small. unfold is_s32. lia. }
  destruct Hfin as (r & Hfin & Hr).
  repeat case_match; rewrite ?Hfin; eexists; (split; [reflexivity|]); done || by left.
Qed.

(** A property of the structure block: its three header words can be read. *)
Lemma check_prop_offset_ok off :
  is_s32 off →
  ∃ r, fdt_check_prop_offset_ m fdt off = Ok r ∧
    (r < 0 ∨ (valid_offset off ∧ 0 <= strct ∧ off < r ∧ valid_offset r ∧ r < total ∧
       ∃ len, fdt32_ld_ m (fdt + strct + off + 4) = Ok len ∧ 0 <= len ∧
         strct + off + 12 + len <= total)).
Proof using Hbl.
  intros Ho. unfold fdt_check_prop_offset_, FDT_TAGSIZE.
  destruct (Z.ltb_spec off 0); cbn [orb]; [by eexists; split; [|left]|].
  destruct (Z.eqb_spec (off mod 4) 0) as [Ha|Ha]; cbn [negb]; [|by eexists; split; [|left]].
  assert (valid_offset off) as Hv by (unfold valid_offset, is_s32 in *; lia).
  pose proof (next_tag_valid m fdt Hbl off Hv) as Hr.
  destruct (fdt_next_tag m fdt off) as [[tag next]| |]; [|done..].
  cbn [mbind res_bind yields] in *. unfold tag_result in Hr.
  destruct (Z.eqb_spec tag FDT_PROP) as [->|Hb]; cbn [negb].
  - eexists; split; [done|]. destruct Hr as [(? & ? & _)|(_ & Hge & Hal & Htop & _ & _ & _ & Hp)]; [done|].
    right. destruct (header_eq m fdt Hbl 8 ltac:(lia)) as [_ Hs]. unfold is_u32 in Hs.
    destruct (Hp eq_refl) as (len & ? & ? & ? & _).
    split_and!; [done|lia|lia|by eapply valid_next|lia|by exists len].
  - eexists; split; [done|]. by left.
Qed.

(** Aligned words of the structure block. *)
Lemma struct_word_ok off :
  valid_offset off → strct + off + 4 <= total →
  u32 (fdt + strct + off) = fdt + strct + off ∧
  ∃ v, fdt32_ld_ m (fdt + strct + off) = Ok v ∧ is_u32 v.
Proof using Hbl.
  intros (? & ? & ?) ?. destruct (header_eq m fdt Hbl 8 ltac:(lia)) as [_ Hs].
  destruct Hbl as [Hb [] [] [Hm Ht] _ [? _]]. unfold is_u32 in Hs. split.
  - apply u32_small. unfold is_u32. lia.
  - apply fdt32_ld__ok; [done|Z.div_mod_to_equations; lia|]. intros x Hx. apply Hm. lia.
Qed.

Lemma property_by_offset_ok off :
  is_s32 off →
  ∃ p len, fdt_get_property_by_offset_ m fdt off = Ok (p, len) ∧
    ((p = 0 ∧ len < 0) ∨ (p = fdt + strct + off ∧ valid_offset off ∧ 0 <= strct ∧
       0 <= len ∧ strct + off + 12 + len <= total)).
Proof using Hbl.
  intros Ho. unfold fdt_get_property_by_offset_, fdt_offset_ptr_.
  destruct (check_prop_offset_ok off Ho) as (r & -> & Hr). cbn [mbind res_bind].
  destruct (Z.ltb_spec r 0); [eexists _, _; split; [done|by left]|].
  destruct Hr as [|(Hv & Hs & _ & _ & _ & v & Hl & Hv0 & Hle)]; [lia|]. read_header.
  destruct (struct_word_ok off Hv) as [-> _]; [lia|]. destruct (bl_addr _ _ Hbl).
  destruct (struct_word_ok (off + 4)) as [Hadr _]; [|lia|].
  { destruct Hbl as [_ _ _ _ Hsz _]. unfold valid_offset, INT_MAX in *.
    split_and!; [lia|Z.div_mod_to_equations; lia|lia]. }
  replace (fdt + strct + off + 4) with (fdt + strct + (off + 4)) in * by lia.
  rewrite Hadr, Hl. cbn [mbind res_bind]. eexists _, _. split; [done|]. right.
  pose proof (bl_size _ _ Hbl). unfold INT_MAX in *.
  pose proof Hv as (? & _). rewrite s32_small by (unfold is_s32; lia). done.
Qed.

(** A string of the tree. *)
Lemma get_string_ok stroffset :
  is_s32 stroffset →
  ∃ p len, fdt_get_string m fdt stroffset = Ok (p, len) ∧
    ((p = 0 ∧ len < 0) ∨ ∃ cs, cstr_at m p cs ∧ len = Z.of_nat (length cs) ∧ fdt <= p ∧
       p + Z.of_nat (length cs) < fdt + total).
Proof using Hbl.
  intros Ho. unfold fdt_get_string. destruct ro_probe_ok as (r & -> & Hr). cbn [mbind res_bind].
  destruct (Z.ltb_spec r 0); [eexists _, _; split; [done|by left]|].
  destruct Hr as [| ->]; [lia|]. read_header. set (abs := u32 (stroffset + hdr m fdt 12)).
  assert (0 <= abs) by (destruct (u32_range (stroffset + hdr m fdt 12)); lia). clearbody abs.
  destruct (Z.leb_spec total abs) as [|Hlt]; [eexists _, _; split; [done|by left]|].
  destruct Hbl as [_ [Hf _] _ [Hmap Htop] Hsz _]. unfold INT_MAX in Hsz.
  assert (∃ l, string_limit m fdt stroffset total abs = Ok l ∧
    match l with inl n => 0 <= n <= total - abs | inr err => err < 0 end) as (l & -> & Hl).
  { unfold string_limit. read_header. rewrite (u32_small (total - abs)) by (unfold is_u32; lia).
    pose proof (u32_range (- stroffset)). pose proof (u32_range (hdr m fdt 32 - stroffset)).
    unfold is_u32 in *.
    repeat (case_match; try (eexists; split; [done|])); simplify_eq; done || lia. }
  cbn [mbind res_bind]. destruct l as [n|err]; [|eexists _, _; split; [done|by left]].
  rewrite (u32_small (fdt + abs)) by (unfold is_u32; lia).
  pose proof (memchr_from_ok m 0 (Z.to_nat n) (fdt + abs)) as Hc.
  rewrite Z2Nat.id in Hc by lia. unfold memchr.
  destruct (memchr_from (Z.to_nat n) (fdt + abs) 0 m) as [r| |];
    [|by exfalso; apply Hc; [intros x Hx; apply Hmap; lia|lia|lia]..].
  cbn [mbind res_bind]. destruct (Z.eqb_spec r 0) as [->|Hnz]; [eexists _, _; split; [done|by left]|].
  eexists _, _. split; [done|]. right.
  destruct Hc as [|(Hr & Hz0 & bs & Hbs & Hnc & Hlen)]; [intros x Hx; apply Hmap; lia|lia|lia|done|].
  exists bs. split; [|split; [|lia]].
  - split; [done|split; [done|]]. by rewrite <- Hlen.
  - rewrite s32_small by (unfold is_s32; lia). lia.
Qed.

Lemma valid_offset_add off k :
  valid_offset off → 0 <= strct → strct + off + k <= total → 0 <= k → k mod 4 = 0 →
  valid_offset (off + k).
Proof using Hbl.
  intros (? & ? & ?) ????. pose proof (bl_size _ _ Hbl). unfold INT_MAX, valid_offset in *.
  split_and!; [lia|Z.div_mod_to_equations; lia|lia].
Qed.

(** The words of a property that was found. *)
Lemma property_word_ok off k :
  valid_offset off → 0 <= strct → strct + off + 12 <= total → k = 4 ∨ k = 8 →
  ∃ v, fdt32_ld_ m (u32 (fdt + strct + off + k)) = Ok v ∧ is_u32 v.
Proof using Hbl.
  intros Hv Hs Hle Hk. assert (valid_offset (off + k)) as Hvk
    by (apply valid_offset_add; [done|lia..|destruct Hk as [->| ->]; done]).
  destruct (struct_word_ok (off + k) Hvk) as [Hadr Hl]; [lia|].
  replace (fdt + strct + off + k) with (fdt + strct + (off + k)) by lia. by rewrite Hadr.
Qed.

Lemma property_data_ok off poffset :
  valid_offset off → 0 <= strct → strct + off + 12 <= total → fdt + total + 4 < 2 ^ 32 →
  ∃ p, property_data m fdt (fdt + strct + off) poffset = Ok p ∧ p ≠ 0.
Proof using Hbl.
  intros (? & ? & ?) ???. destruct (bl_addr _ _ Hbl).
  assert (valid_offset off) by done. unfold property_data. read_header.
  destruct (property_word_ok off 4) as (v & -> & _); try done; [by left|].
  assert (∀ b : bool, (if b then u32 (fdt + strct + off + 16) else u32 (fdt + strct + off + 12)) ≠ 0)
    as Hnz by (intros []; rewrite u32_small by (unfold is_u32; lia); lia).
  destruct (_ && _); cbn [mbind res_bind]; eexists; (split; [reflexivity|]);
    [apply Hnz|apply (Hnz false)].
Qed.

Lemma getprop_by_offset_ok off :
  is_s32 off → fdt + total + 4 < 2 ^ 32 →
  ∃ p len name, fdt_getprop_by_offset m fdt off true = Ok (p, len, name) ∧ (p = 0 → len < 0).
Proof using Hbl.
  intros Ho Htop. unfold fdt_getprop_by_offset.
  destruct (property_by_offset_ok off Ho) as (p & len & -> & Hp). cbn [mbind res_bind].
  destruct (Z.eqb_spec p 0) as [->|Hnz].
  { eexists _, _, _. split; [done|]. destruct Hp as [[_ ?]|(? & Hv & Hs & _)]; [done|].
    destruct Hv, (bl_addr _ _ Hbl). lia. }
  destruct Hp as [[? _]|(-> & Hv & Hs & Hl0 & Hle')]; [done|].
  assert (strct + off + 12 <= total) as Hle by lia.
  destruct (property_word_ok off 8) as (v & -> & _); try done; [by right|]. cbn [mbind res_bind].
  destruct (get_string_ok (s32 v)) as (nm & nl & -> & Hn); [apply s32_range|].
  cbn [mbind res_bind]. destruct (Z.eqb_spec nm 0) as [->|]; cbn [mbind res_bind negb].
  { eexists _, _, _. split; [done|]. destruct Hn as [[_ ?]|(cs & _ & _ & Hge & _)]; [done|].
    destruct (bl_addr _ _ Hbl). lia. }
  destruct (property_data_ok off off) as (d & -> & Hd); try done. by eexists _, _, _.
Qed.

Lemma get_name_ok off :
  is_s32 off → 16 <= hdr m fdt 20 → word_backed m → fdt + total + 4 < 2 ^ 32 →
  ∃ p len, fdt_get_name m fdt off = Ok (p, len) ∧
    ((p = 0 ∧ len < 0) ∨ ∃ cs, cstr_at m p cs ∧ len = Z.of_nat (length cs) ∧
       fdt < p ∧ p + Z.of_nat (length cs) < fdt + total).
Proof using Hbl.
  intros Ho Hv Hw Htop. unfold fdt_get_name, fdt_offset_ptr_. read_header.
  destruct ro_probe_ok as (r & -> & Hr). cbn [mbind res_bind].
  destruct (Z.ltb_spec r 0); [eexists _, _; split; [done|by left]|].
  destruct (check_node_offset_ok m fdt Hbl off Ho) as (r' & -> & Hn). cbn [mbind res_bind].
  destruct (Z.ltb_spec r' 0); [eexists _, _; split; [done|by left]|].
  destruct Hn as [|((Hvo & _) & Htag & _)]; [lia|].
  destruct (Z.ltb_spec (hdr m fdt 20) 16); [lia|]. cbn [mbind res_bind].
  pose proof (next_tag_valid m fdt Hbl off Hvo) as Ht. rewrite Htag in Ht. cbn [yields] in Ht.
  destruct Ht as [(? & ? & _)|(_ & _ & _ & _ & _ & Hle & Hname & _)]; [done|].
  destruct (Hname eq_refl) as (cs & Hcs & Hend & _).
  destruct (struct_word_ok off Hvo Hle) as [-> _].
  destruct Hvo as (? & _), (header_eq m fdt Hbl 8 ltac:(lia)) as [_ Hs], (bl_addr _ _ Hbl).
  unfold is_u32 in Hs. rewrite u32_small by (unfold is_u32; lia).
  destruct (Z.eqb_spec (fdt + strct + off + 4) 0) as [|Hnz]; [lia|].
  rewrite (strlen_ok m _ cs Hcs) by (apply Hbl || done || lia). cbn [mbind res_bind].
  eexists _, _. split; [done|]. right. exists cs. split; [done|split; [|lia]].
  apply s32_small. pose proof (bl_size _ _ Hbl). unfold is_s32, INT_MAX in *. lia.
Qed.

(** The reservation map ends, at a zero entry or at the end of the tree. *)
Lemma mem_rsv_ok i :
  0 <= i → 16 <= total → hdr m fdt 16 + 16 * i <= total + 16 →
  ∃ re, fdt_mem_rsv m fdt i = Ok re ∧
    (re ≠ 0 → re = fdt + hdr m fdt 16 + 16 * i ∧ hdr m fdt 16 + 16 * i + 16 <= total).
Proof using Hbl.
  intros Hi Ht Hle. unfold fdt_mem_rsv. read_header.
  destruct (header_eq m fdt Hbl 16 ltac:(lia)) as [_ Hr]. destruct Hbl as [_ [] _ [_ Htop] Hsz _].
  unfold is_u32, INT_MAX in *. rewrite (u32_small (i * 16)) by (unfold is_u32; lia).
  rewrite (u32_small (hdr m fdt 16 + i * 16)) by (unfold is_u32; lia).
  destruct (Z.ltb_spec (hdr m fdt 16 + i * 16) (hdr m fdt 16)); [lia|].
  read_header. rewrite (u32_small (total - 16)) by (unfold is_u32; lia).
  destruct (Z.ltb_spec (total - 16) (hdr m fdt 16 + i * 16)); [by eexists|].
  read_header. eexists. split; [done|]. intros _.
  rewrite u32_small by (unfold is_u32; lia). lia.
Qed.

Lemma num_mem_rsv_ok :
  16 <= total → hdr m fdt 16 mod 8 = 0 → hdr m fdt 16 <= total →
  ∃ n, fdt_num_mem_rsv m fdt = Ok n.
Proof using Hbl.
  intros Ht Ha Hr. unfold fdt_num_mem_rsv, FDT_RO_PROBE.
  destruct ro_probe_ok as (r & -> & _). cbn [mbind res_bind].
  destruct (r <? 0); [by eexists|]. rewrite tree_fuel_eq by done.
  destruct (header_eq m fdt Hbl 16 ltac:(lia)) as [_ Hrsv]. unfold is_u32 in Hrsv.
  match goal with |- ∃ n, ?l = Ok n => assert (yields l (λ _, True)) as Hy; [|destruct l; [by eexists|done..]] end.
  apply (loop_yields (λ i, 0 <= i ∧ hdr m fdt 16 + 16 * i <= total + 16)
    (λ i, Z.to_nat (total + 1 - i))); [|lia|lia].
  intros i [Hi Hle]. destruct (mem_rsv_ok i Hi Ht Hle) as (re & -> & Hre). cbn [mbind res_bind].
  destruct (Z.eqb_spec re 0); [done|]. destruct (Hre n) as [-> Hin].
  destruct Hbl as [Hb [] _ [Hmap Htop] Hsz _]. unfold INT_MAX in Hsz.
  unfold fdt64_ld_. rewrite (u32_small (fdt + hdr m fdt 16 + 16 * i + 8)) by (unfold is_u32; lia).
  rewrite u32_small by (unfold is_u32; lia).
  destruct (fdt32_ld__ok m (fdt + hdr m fdt 16 + 16 * i + 8)) as (v1 & -> & _);
    [done|Z.div_mod_to_equations; lia|intros x Hx; apply Hmap; lia|].
  destruct (fdt32_ld__ok m (fdt + hdr m fdt 16 + 16 * i + 8 + 4)) as (v2 & -> & _);
    [done|Z.div_mod_to_equations; lia|intros x Hx; apply Hmap; lia|].
  cbn [mbind res_bind yields]. destruct (_ =? 0); [done|]. split; lia.
Qed.
End safety.
