(* ===== verification/FdtCheck.v ===== *)
(** src/libfdt/fdt_check.c, fdt_addresses.c and fdt_strerror.c: the full check of a
    device tree that the kernel runs at boot, the cell counts of a node and the
    names of the error codes. *)
From S2P Require Import Prelude Machine Crt0 SampleTree Fdt FdtRo.
From stdpp Require Import base list gmap.
From Stdlib Require Import ZArith Lia.
From Stdlib Require String.
#[local] Open Scope Z_scope.

Definition FDT_MAX_NCELLS : Z := 4.

Section check.
Context `{Platform} (m : mem) (fdt : Z).

(** State of the loop of [fdt_check_full]: [nextoffset], [depth], [expect_end]. *)
Definition check_state : Type := Z * Z * bool.

(** One round: [inr] is a return. *)
Definition check_round (st : check_state) : res (check_state + Z) :=
  let '(nextoffset, depth, expect_end) := st in
  let offset := nextoffset in
  '(tag, nextoffset) ← fdt_next_tag m fdt offset;
  if nextoffset <? 0 then Ok (inr nextoffset)
  else if expect_end && negb (tag =? FDT_END) && negb (tag =? FDT_NOP)
  then Ok (inr (- FDT_ERR_BADSTRUCTURE))
  else if tag =? FDT_NOP then Ok (inl (nextoffset, depth, expect_end))
  else if tag =? FDT_END then
    Ok (inr (if negb (depth =? 0) then - FDT_ERR_BADSTRUCTURE else 0))
  else if tag =? FDT_BEGIN_NODE then
    let depth := u32 (depth + 1) in
    if INT_MAX <? depth then Ok (inr (- FDT_ERR_BADSTRUCTURE))
    else if depth =? 1 then
      '(name, len) ← fdt_get_name m fdt offset;
      if name =? 0 then Ok (inr len)
      else
        c ← load8 m name;
        if negb (c =? 0) || negb (len =? 0) then Ok (inr (- FDT_ERR_BADSTRUCTURE))
        else Ok (inl (nextoffset, depth, expect_end))
    else Ok (inl (nextoffset, depth, expect_end))
  else if tag =? FDT_END_NODE then
    if depth =? 0 then Ok (inr (- FDT_ERR_BADSTRUCTURE))
    else
      let depth := u32 (depth - 1) in
      Ok (inl (nextoffset, depth, if depth =? 0 then true else expect_end))
  else if tag =? FDT_PROP then
    '(prop, err, _) ← fdt_getprop_by_offset m fdt offset true;
    if prop =? 0 then Ok (inr err) else Ok (inl (nextoffset, depth, expect_end))
  else Ok (inr (- FDT_ERR_INTERNAL)).

Definition fdt_check_full (bufsize : Z) : res Z :=
  if bufsize <? FDT_V1_SIZE then Ok (- FDT_ERR_TRUNCATED)
  else
    hdrsize ← fdt_header_size m fdt;
    if bufsize <? hdrsize then Ok (- FDT_ERR_TRUNCATED)
    else
      err ← fdt_check_header m fdt;
      if negb (err =? 0) then Ok err
      else
        totalsize ← fdt_totalsize m fdt;
        if bufsize <? totalsize then Ok (- FDT_ERR_TRUNCATED)
        else
          num_memrsv ← fdt_num_mem_rsv m fdt;
          if num_memrsv <? 0 then Ok num_memrsv
          else loop (tree_fuel m fdt) check_round (0, 0, false).

Definition fdt_cells (nodeoffset name : Z) : res Z :=
  '(c, len) ← fdt_getprop m fdt nodeoffset name;
  if c =? 0 then Ok len
  else if negb (len =? 4) then Ok (- FDT_ERR_BADNCELLS)
  else
    val ← fdt32_ld_ m c;
    Ok (if FDT_MAX_NCELLS <? val then - FDT_ERR_BADNCELLS else s32 val).

Definition fdt_address_cells (nodeoffset : Z) : res Z :=
  val ← fdt_cells nodeoffset (rodata "#address-cells");
  Ok (if val =? 0 then - FDT_ERR_BADNCELLS
      else if val =? - FDT_ERR_NOTFOUND then 2 else val).

Definition fdt_size_cells (nodeoffset : Z) : res Z :=
  val ← fdt_cells nodeoffset (rodata "#size-cells");
  Ok (if val =? - FDT_ERR_NOTFOUND then 1 else val).
End check.

#[local] Open Scope string_scope.

(** [fdt_errtable]; entry 0 is empty. *)
Definition fdt_errtable : list (option String.string) :=
  [None; Some "FDT_ERR_NOTFOUND"; Some "FDT_ERR_EXISTS"; Some "FDT_ERR_NOSPACE";
   Some "FDT_ERR_BADOFFSET"; Some "FDT_ERR_BADPATH"; Some "FDT_ERR_BADPHANDLE";
   Some "FDT_ERR_BADSTATE"; Some "FDT_ERR_TRUNCATED"; Some "FDT_ERR_BADMAGIC";
   Some "FDT_ERR_BADVERSION"; Some "FDT_ERR_BADSTRUCTURE"; Some "FDT_ERR_BADLAYOUT";
   Some "FDT_ERR_INTERNAL"; Some "FDT_ERR_BADNCELLS"; Some "FDT_ERR_BADVALUE";
   Some "FDT_ERR_BADOVERLAY"; Some "FDT_ERR_NOPHANDLES"; Some "FDT_ERR_BADFLAGS";
   Some "FDT_ERR_ALIGNMENT"].

Definition fdt_strerror (errval : Z) : String.string :=
  if 0 <? errval then "<valid offset/length>"
  else if errval =? 0 then "<no error>"
  else if - errval <? Z.of_nat (length fdt_errtable) then
    match fdt_errtable !! Z.to_nat (- errval) with
    | Some (Some s) => s
    | _ => "<unknown error>"
    end
  else "<unknown error>".

#[local] Close Scope string_scope.

(* ------------------------------------------------------------------ *)
(** * What the full check accepts *)

Section well_formed.
Context (m : mem) (fdt : Z).

(** The root node has an empty name. *)
Definition empty_name (off : Z) : Prop :=
  ∃ name, fdt_get_name m fdt off = Ok (name, 0) ∧ name ≠ 0 ∧ load8 m name = Ok 0.

(** The property at [off] has a value and a name. *)
Definition good_property (off : Z) : Prop :=
  ∃ p len name, fdt_getprop_by_offset m fdt off true = Ok (p, len, name) ∧ p ≠ 0.

(** The tags from [off] on close the [depth] nodes that are open, and nothing but
    [FDT_NOP] comes between the end of the root node and [FDT_END]. *)
Inductive well_nested : Z → Z → bool → Prop :=
| wn_end off next closed :
    fdt_next_tag m fdt off = Ok (FDT_END, next) → 0 <= next → well_nested off 0 closed
| wn_nop off next depth closed :
    fdt_next_tag m fdt off = Ok (FDT_NOP, next) → 0 <= next →
    well_nested next depth closed → well_nested off depth closed
| wn_begin off next depth :
    fdt_next_tag m fdt off = Ok (FDT_BEGIN_NODE, next) → 0 <= next →
    (depth = 0 → empty_name off) →
    well_nested next (depth + 1) false → well_nested off depth false
| wn_end_node off next depth :
    fdt_next_tag m fdt off = Ok (FDT_END_NODE, next) → 0 <= next → 0 < depth →
    well_nested next (depth - 1) (depth =? 1) → well_nested off depth false
| wn_prop off next depth :
    fdt_next_tag m fdt off = Ok (FDT_PROP, next) → 0 <= next → good_property off →
    well_nested next depth false → well_nested off depth false.

Context (Hbl : blob m fdt) (Hv : 16 <= hdr m fdt 20) (Hw : word_backed m)
  (Htop : fdt + hdr m fdt 4 + 4 < 2 ^ 32).

(** The loop invariant; every open node has taken at least four bytes. *)
Definition check_inv (st : check_state) : Prop :=
  let '(nextoffset, depth, _) := st in
  valid_offset nextoffset ∧ 0 <= depth ∧ 4 * depth <= nextoffset.

Definition check_measure (st : check_state) : nat :=
  let '(nextoffset, _, _) := st in Z.to_nat (hdr m fdt 4 - nextoffset).

Definition nested_state (st : check_state) : Prop :=
  let '(nextoffset, depth, expect_end) := st in well_nested nextoffset depth expect_end.

(** One round keeps the invariant, makes progress and preserves what the rest of the
    stream must satisfy; a return of 0 means it is satisfied. *)
Definition round_result (st : check_state) (r : check_state + Z) : Prop :=
  match r with
  | inl st' => (check_inv st' ∧ (check_measure st' < check_measure st)%nat) ∧
               (nested_state st ↔ nested_state st')
  | inr v => v = 0 ↔ nested_state st
  end.

Lemma begin_root_ok off :
  is_s32 off →
  ∃ name len, fdt_get_name m fdt off = Ok (name, len) ∧
    ((name = 0 ∧ len < 0) ∨ (name ≠ 0 ∧ ∃ c, load8 m name = Ok c)).
Proof using Hbl Hv Hw Htop.
  intros Ho. destruct (get_name_ok m fdt Hbl off Ho Hv Hw Htop) as (p & len & He & Hp).
  exists p, len. split; [done|]. destruct Hp as [|(cs & Hcs & _ & Hge & _)]; [by left|].
  assert (p ≠ 0) as Hnz by (destruct (bl_addr _ _ Hbl); lia). right. destruct (cstr_at_mapped _ _ _ Hcs p) as [c Hc]; [lia|].
  split; [done|]. exists c. by apply load8_ok.
Qed.

(** What a stream is, by its first tag. *)
Ltac invert_stream E :=
  let Hn := fresh in
  intros Hn; inversion Hn; subst; rewrite E in *; simplify_eq; try done; try lia.

Lemma nested_error off tag next depth closed :
  fdt_next_tag m fdt off = Ok (tag, next) → next < 0 → ¬ well_nested off depth closed.
Proof. intros E Hneg. invert_stream E. Qed.

Lemma nested_end off next depth closed :
  fdt_next_tag m fdt off = Ok (FDT_END, next) → 0 <= next →
  well_nested off depth closed ↔ depth = 0.
Proof. intros E Hn. split; [invert_stream E|]. intros ->. by eapply wn_end. Qed.

Lemma nested_nop off next depth closed :
  fdt_next_tag m fdt off = Ok (FDT_NOP, next) → 0 <= next →
  well_nested off depth closed ↔ well_nested next depth closed.
Proof. intros E Hn. split; [invert_stream E|]. by apply wn_nop. Qed.

Lemma nested_begin off next depth closed :
  fdt_next_tag m fdt off = Ok (FDT_BEGIN_NODE, next) → 0 <= next →
  well_nested off depth closed ↔
  closed = false ∧ (depth = 0 → empty_name off) ∧ well_nested next (depth + 1) false.
Proof. intros E Hn. split; [invert_stream E|]. intros (-> & ? & ?). by eapply wn_begin. Qed.

Lemma nested_end_node off next depth closed :
  fdt_next_tag m fdt off = Ok (FDT_END_NODE, next) → 0 <= next →
  well_nested off depth closed ↔
  closed = false ∧ 0 < depth ∧ well_nested next (depth - 1) (depth =? 1).
Proof. intros E Hn. split; [invert_stream E|]. intros (-> & ? & ?). by eapply wn_end_node. Qed.

Lemma nested_prop off next depth closed :
  fdt_next_tag m fdt off = Ok (FDT_PROP, next) → 0 <= next →
  well_nested off depth closed ↔ closed = false ∧ good_property off ∧ well_nested next depth false.
Proof. intros E Hn. split; [invert_stream E|]. intros (-> & ? & ?). by eapply wn_prop. Qed.

(** A failed test for the empty name. *)
Lemma empty_name_not off name len c :
  fdt_get_name m fdt off = Ok (name, len) → load8 m name = Ok c ∨ name = 0 →
  name = 0 ∨ c ≠ 0 ∨ len ≠ 0 → ¬ empty_name off.
Proof.
  intros He Hc Hne (nm & Hg & Hz & Hl). rewrite He in Hg. injection Hg as -> ->.
  destruct Hc as [Hc|]; [|done]. rewrite Hl in Hc. simplify_eq. by destruct Hne as [|[|]].
Qed.

Section round.
Context (off depth next : Z).
Context (Hnx : 0 <= next) (Ho : is_s32 off) (Hd0 : 0 <= depth) (Hd : depth + 1 < INT_MAX).
Context (Hinv : ∀ d c, 0 <= d <= depth + 1 → check_inv (next, d, c) ∧
  (check_measure (next, d, c) < check_measure (off, depth, c))%nat).

(** The round continues with state [(next, d, c)]. *)
Lemma round_continues closed d c :
  0 <= d <= depth + 1 → (well_nested off depth closed ↔ well_nested next d c) →
  round_result (off, depth, closed) (inl (next, d, c)).
Proof using Hinv. intros Hr Hiff. split; [by apply (Hinv d c)|exact Hiff]. Qed.

Lemma round_fails closed v :
  v < 0 → ¬ well_nested off depth closed → round_result (off, depth, closed) (inr v).
Proof. intros Hv0 Hn. cbn. split; [lia|done]. Qed.

Ltac round E :=
  unfold check_round; rewrite E; cbn [mbind res_bind];
  destruct (Z.ltb_spec next 0); [lia|];
  rewrite ?Z.eqb_refl; cbn -[round_result yields fdt_get_name fdt_getprop_by_offset u32 INT_MAX
    Z.add Z.sub mbind res_bind].

Lemma begin_round closed :
  fdt_next_tag m fdt off = Ok (FDT_BEGIN_NODE, next) →
  yields (check_round m fdt (off, depth, closed)) (round_result (off, depth, closed)).
Proof using All.
  intros E. pose proof (nested_begin off next depth closed E Hnx) as Hiff. round E.
  destruct closed; cbn [andb].
  { apply round_fails; [done|]. rewrite Hiff. by intros [? _]. }
  unfold INT_MAX in *. rewrite u32_small by (unfold is_u32; lia).
  destruct (Z.ltb_spec (2 ^ 31 - 1) (depth + 1)); [lia|].
  destruct (Z.eqb_spec (depth + 1) 1) as [Hd1|Hd1].
  2: { apply round_continues; [lia|]. rewrite Hiff. split; [tauto|]. intros. split_and!; [done|lia|done]. }
  assert (∀ v, ¬ empty_name off → v < 0 → round_result (off, depth, false) (inr v)) as Hbad.
  { intros v Hne Hvneg. apply round_fails; [done|]. rewrite Hiff. intros (_ & Hem & _). apply Hne, Hem. lia. }
  destruct (begin_root_ok off Ho) as (name & len & He & Hn). rewrite He. cbn [mbind res_bind].
  destruct (Z.eqb_spec name 0) as [->|Hnz].
  { destruct Hn as [[_ ?]|[? _]]; [|done]. apply Hbad; [|done].
    apply (empty_name_not off 0 len 0 He); [by right|by left]. }
  destruct Hn as [[? _]|[_ [c Hc]]]; [done|]. rewrite Hc. cbn [mbind res_bind].
  destruct (Z.eqb_spec c 0) as [->|Hc0], (Z.eqb_spec len 0) as [->|Hl0]; cbn [negb orb yields].
  - apply round_continues; [lia|]. rewrite Hiff. split; [tauto|]. intros.
    split_and!; [done|by exists name|done].
  - apply Hbad; [|done]. apply (empty_name_not off name len 0 He); auto.
  - apply Hbad; [|done]. apply (empty_name_not off name 0 c He); auto.
  - apply Hbad; [|done]. apply (empty_name_not off name len c He); auto.
Qed.

Lemma end_node_round closed :
  fdt_next_tag m fdt off = Ok (FDT_END_NODE, next) →
  yields (check_round m fdt (off, depth, closed)) (round_result (off, depth, closed)).
Proof using Hnx Hd0 Hd Hinv.
  intros E. pose proof (nested_end_node off next depth closed E Hnx) as Hiff. round E.
  destruct closed; cbn [andb].
  { apply round_fails; [done|]. rewrite Hiff. by intros [? _]. }
  destruct (Z.eqb_spec depth 0) as [Hz|Hnz].
  { apply round_fails; [done|]. rewrite Hiff. lia. }
  unfold INT_MAX in *. rewrite u32_small by (unfold is_u32; lia). apply round_continues; [lia|].
  rewrite Hiff. replace (if depth - 1 =? 0 then true else false) with (depth =? 1).
  { split; [tauto|]. intros. split_and!; [done|lia|done]. }
  destruct (Z.eqb_spec depth 1), (Z.eqb_spec (depth - 1) 0); done || lia.
Qed.

Lemma prop_round closed :
  fdt_next_tag m fdt off = Ok (FDT_PROP, next) →
  yields (check_round m fdt (off, depth, closed)) (round_result (off, depth, closed)).
Proof using Hbl Htop Hnx Ho Hd0 Hinv.
  intros E. pose proof (nested_prop off next depth closed E Hnx) as Hiff. round E.
  destruct closed; cbn [andb].
  { apply round_fails; [done|]. rewrite Hiff. by intros [? _]. }
  destruct (getprop_by_offset_ok m fdt Hbl off Ho Htop) as (p & len & name & He & Hp).
  rewrite He. cbn [mbind res_bind]. destruct (Z.eqb_spec p 0) as [->|Hnz].
  - apply round_fails; [auto|]. rewrite Hiff. intros (_ & (p' & l' & n' & Hg & Hz) & _).
    rewrite He in Hg. by simplify_eq.
  - apply round_continues; [lia|]. rewrite Hiff. split; [tauto|]. intros.
    split_and!; [done|by exists p, len, name|done].
Qed.

Lemma other_round tag closed :
  fdt_next_tag m fdt off = Ok (tag, next) → tag = FDT_NOP ∨ tag = FDT_END →
  yields (check_round m fdt (off, depth, closed)) (round_result (off, depth, closed)).
Proof using Hnx Hd0 Hinv.
  intros E [-> | ->]; round E; rewrite ?andb_false_r; cbn [andb].
  - apply round_continues; [lia|]. by apply nested_nop.
  - pose proof (nested_end off next depth closed E Hnx) as Hiff.
    destruct (Z.eqb_spec depth 0) as [Hz|Hnz]; cbn [negb].
    + cbn. by rewrite Hiff.
    + apply round_fails; [done|]. by rewrite Hiff.
Qed.
End round.

Lemma check_round_ok st : check_inv st → yields (check_round m fdt st) (round_result st).
Proof using Hbl Hv Hw Htop.
  destruct st as [[off depth] closed]. intros (Hvo & Hd & Hdo).
  pose proof (next_tag_valid m fdt Hbl off Hvo) as Ht. pose proof Hvo as (? & ? & ?).
  destruct (fdt_next_tag m fdt off) as [[tag next]| |] eqn:E; [|done..].
  cbn [yields] in Ht. unfold tag_result in Ht.
  destruct Ht as [(Hneg & -> & _)|(Htag & Hge & Hal & Hlt & _)].
  { unfold check_round. rewrite E. cbn [mbind res_bind]. destruct (Z.ltb_spec next 0); [|lia].
    apply round_fails; [done|]. by eapply nested_error. }
  pose proof (valid_next m fdt Hbl off next Hvo Hge Hal Hlt) as Hvn.
  assert (is_s32 off) as Hs32 by (unfold is_s32; lia).
  assert (depth + 1 < INT_MAX) as Hdm.
  { destruct Hvn as (? & ? & ?). unfold INT_MAX. lia. }
  assert (∀ d c, 0 <= d <= depth + 1 → check_inv (next, d, c) ∧
    (check_measure (next, d, c) < check_measure (off, depth, c))%nat) as Hinv.
  { intros d c ?. split; [split_and!; [done|lia|lia]|]. cbn. lia. }
  destruct Htag as [-> | [-> | [-> | [-> | ->]]]].
  - by apply (begin_round off depth next); [lia|..].
  - by apply (end_node_round off depth next); [lia|..].
  - by apply (prop_round off depth next); [lia|..].
  - apply (other_round off depth next) with FDT_NOP; [lia|done|done|done|by left].
  - apply (other_round off depth next) with FDT_END; [lia|done|done|done|by right].
Qed.

Lemma check_loop_ok :
  ∃ r, loop (tree_fuel m fdt) (check_round m fdt) (0, 0, false) = Ok r ∧
    (r = 0 ↔ well_nested 0 0 false).
Proof using Hbl Hv Hw Htop.
  assert (yields (loop (tree_fuel m fdt) (check_round m fdt) (0, 0, false))
    (λ r, r = 0 ↔ well_nested 0 0 false)) as Hy.
  { rewrite tree_fuel_eq by done.
    apply (loop_yields (λ st, check_inv st ∧ (well_nested 0 0 false ↔ nested_state st)) check_measure).
    - intros st [Hi Hiff]. eapply yields_mono; [by apply check_round_ok|].
      intros [st'|v]; cbn.
      + intros [[Hi' Hm] Hiff']. split; [|done]. split; [done|]. by rewrite Hiff.
      + intros Hr. by rewrite Hiff.
    - split; [|done]. split_and!; [by split_and!|lia|lia].
    - cbn. lia. }
  destruct (loop _ _ _) as [r| |]; [|done..]. by exists r.
Qed.
End well_formed.

(* ------------------------------------------------------------------ *)
(** * Properties *)

(** Forty bytes of memory; if they are a good header, then the whole of a tree that node
    names are not paths in. *)
Definition checkable (m : mem) (fdt : Z) : Prop :=
  mem_bytes m ∧ word_backed m ∧ 0 < fdt ∧ mapped m fdt 40 ∧ fdt + 40 <= 2 ^ 32 ∧
  (header_ok m fdt → mapped m fdt (hdr m fdt 4) ∧ fdt + hdr m fdt 4 + 4 < 2 ^ 32 ∧ 16 <= hdr m fdt 20).

Lemma check_any_ok m fdt bufsize :
  checkable m fdt →
  ∃ r, fdt_check_full m fdt bufsize = Ok r ∧
    (r = 0 ↔ header_ok m fdt ∧ hdr m fdt 4 <= bufsize ∧
       (∃ n, fdt_num_mem_rsv m fdt = Ok n ∧ 0 <= n) ∧ well_nested m fdt 0 0 false).
Proof.
  intros (Hb & Hw & Hf & Hm & Ht & Hgood). unfold fdt_check_full.
  destruct (check_header_ok m fdt Hb Hf Hm Ht) as (e & He & Hle & Hiff).
  assert (header_ok m fdt → FDT_V1_SIZE <= fdt_header_size_ (hdr m fdt 20) <= hdr m fdt 4) as Hsz.
  { intros []. split; [|lia]. unfold fdt_header_size_, FDT_V17_SIZE, FDT_V16_SIZE, FDT_V3_SIZE,
      FDT_V2_SIZE, FDT_V1_SIZE. repeat case_match; lia. }
  destruct (Z.ltb_spec bufsize FDT_V1_SIZE).
  { eexists. split; [done|]. split; [done|]. intros (Hok & ? & _). specialize (Hsz Hok). lia. }
  unfold fdt_header_size, fdt_version.
  rewrite (proj1 (hdr_ok m fdt 20 Hb Hf Hm Ht ltac:(lia))). cbn [mbind res_bind].
  destruct (Z.ltb_spec bufsize (fdt_header_size_ (hdr m fdt 20))).
  { eexists. split; [done|]. split; [done|]. intros (Hok & ? & _). specialize (Hsz Hok). lia. }
  rewrite He. cbn [mbind res_bind]. destruct (Z.eqb_spec e 0) as [->|Hne]; cbn [negb].
  2: { eexists. split; [done|]. rewrite Hiff. split; [tauto|]. by intros (? & _). }
  pose proof (proj1 Hiff eq_refl) as Hok. destruct (Hgood Hok) as (Hmt & Htt & Hv). unfold fdt_totalsize.
  rewrite (proj1 (hdr_ok m fdt 4 Hb Hf Hm Ht ltac:(lia))). cbn [mbind res_bind].
  destruct (Z.ltb_spec bufsize (hdr m fdt 4)).
  { eexists. split; [done|]. split; [done|]. lia. }
  assert (blob m fdt) as Hbl by (apply header_blob; done || lia).
  destruct (num_mem_rsv_ok m fdt Hbl) as [n Hn]; [..|rewrite Hn; cbn [mbind res_bind]].
  1,2,3: destruct (Hsz Hok), (ho_rsvmap _ _ Hok) as [? ?]; unfold FDT_V1_SIZE in *; done || lia.
  destruct (Z.ltb_spec n 0).
  { eexists. split; [done|]. split; [lia|]. intros (_ & _ & (n' & Hn' & ?) & _).
    simplify_eq. lia. }
  destruct (check_loop_ok m fdt Hbl Hv Hw Htt) as (r & -> & Hr).
  exists r. split; [done|]. rewrite Hr. split; [|by intros (_ & _ & _ & ?)].
  intros. split_and!; [done|done|by exists n|done].
Qed.

Lemma check_full_ok m fdt bufsize :
  mem_bytes m → word_backed m → 0 < fdt → mapped m fdt 40 → fdt + 40 <= 2 ^ 32 →
  mapped m fdt (hdr m fdt 4) → fdt + hdr m fdt 4 + 4 < 2 ^ 32 → 16 <= hdr m fdt 20 →
  ∃ r, fdt_check_full m fdt bufsize = Ok r ∧
    (r = 0 ↔ header_ok m fdt ∧ hdr m fdt 4 <= bufsize ∧
       (∃ n, fdt_num_mem_rsv m fdt = Ok n ∧ 0 <= n) ∧ well_nested m fdt 0 0 false).
Proof. intros. by apply check_any_ok. Qed.

(** [fdt_check_full], which the kernel runs on the tree it is passed, terminates
    and reads no byte outside the tree whatever the tree contains, as long as its
    version is at least 16. It returns 0 exactly when the header is well formed, the
    buffer holds the whole tree, the reservation map ends, and the tags are well
    nested: one root node with an empty name, every node closed, every property with
    a value and a name inside the tree. *)
Theorem fdt_check_full_spec m fdt bufsize :
  mem_bytes m → word_backed m → 0 < fdt → mapped m fdt 40 → fdt + 40 <= 2 ^ 32 →
  mapped m fdt (hdr m fdt 4) → fdt + hdr m fdt 4 + 4 < 2 ^ 32 → 16 <= hdr m fdt 20 →
  ∃ r, fdt_check_full m fdt bufsize = Ok r ∧
    (r = 0 ↔ header_ok m fdt ∧ hdr m fdt 4 <= bufsize ∧
       (∃ n, fdt_num_mem_rsv m fdt = Ok n ∧ 0 <= n) ∧ well_nested m fdt 0 0 false).
Proof. apply check_full_ok. Qed.

Lemma fdt_check_full_spec_witness :
  ∃ r, fdt_check_full sample_tree_mem tree_addr 398 = Ok r ∧
    (r = 0 ↔ header_ok sample_tree_mem tree_addr ∧ 398 <= 398 ∧
       (∃ n, fdt_num_mem_rsv sample_tree_mem tree_addr = Ok n ∧ 0 <= n) ∧
       well_nested sample_tree_mem tree_addr 0 0 false).
Proof.
  assert (hdr sample_tree_mem tree_addr 4 = 398) as Hsz by (vm_compute; reflexivity).
  pose proof (fdt_check_full_spec sample_tree_mem tree_addr 398) as Hs.
  rewrite Hsz in Hs. apply Hs; clear Hs Hsz.
  - apply sample_tree_bytes.
  - apply sample_tree_words.
  - reflexivity.
  - apply sample_tree_mapped. lia.
  - discriminate.
  - apply sample_tree_mapped. lia.
  - reflexivity.
  - vm_compute. discriminate.
Defined.
