(* ===== verification/FdtTree.v ===== *)
(** The tree behind the tag stream: what src/libfdt/fdt.c and fdt_ro.c promise about
    a device tree that [fdt_check_full] accepts.  [dnode] is the tree; [subs_at] says
    that the structure block spells one; the theorems say that the checker accepts
    exactly such blocks, that [fdt_next_node] walks it in preorder, and that the
    lookups for subnodes, parents and properties agree with it. *)
From S2P Require Import Prelude Machine Crt0 SampleTree Fdt FdtRo FdtCheck.
From stdpp Require Import base list gmap.
From Stdlib Require Import ZArith Lia.
#[local] Open Scope Z_scope.

#[local] Set Warnings "-register-all".

(** A node: its offset, the offsets of its properties and its subnodes. *)
Inductive dnode : Type := Node (off : Z) (props : list Z) (subs : list dnode).

Definition node_off (t : dnode) : Z := let 'Node off _ _ := t in off.
Definition node_props (t : dnode) : list Z := let 'Node _ props _ := t in props.
Definition node_subs (t : dnode) : list dnode := let 'Node _ _ subs := t in subs.

(** The nodes of a tree in preorder, each with its depth. *)
Fixpoint tree_nodes (d : Z) (t : dnode) : list (dnode * Z) :=
  let 'Node off props subs := t in (t, d) :: flat_map (tree_nodes (d + 1)) subs.

(** What is left to visit inside nested nodes: [pending] holds the remaining subnodes
    of every open node, innermost first. *)
Fixpoint to_visit (pending : list (list dnode)) : list (dnode * Z) :=
  match pending with
  | [] => []
  | ts :: rest => flat_map (tree_nodes (Z.of_nat (length rest) + 1)) ts ++ to_visit rest
  end.

Section grammar.
Context (m : mem) (fdt : Z).

Definition tag_at (off tag next : Z) : Prop := fdt_next_tag m fdt off = Ok (tag, next) ∧ 0 ≤ next.

(** The properties of a node, up to its first subnode or its end. *)
Inductive props_at : Z → list Z → Prop :=
| props_end off tag next :
    tag_at off tag next → tag = FDT_BEGIN_NODE ∨ tag = FDT_END_NODE → props_at off []
| props_nop off next props : tag_at off FDT_NOP next → props_at next props → props_at off props
| props_prop off next props :
    tag_at off FDT_PROP next → good_property m fdt off → props_at next props →
    props_at off (off :: props).

(** The contents of a node from [off] on: the subnodes [ts], and [after] its end tag.
    (The checker also lets properties follow subnodes; no lookup finds those.) *)
Inductive subs_at : Z → list dnode → Z → Prop :=
| subs_end off after : tag_at off FDT_END_NODE after → subs_at off [] after
| subs_nop off next ts after :
    tag_at off FDT_NOP next → subs_at next ts after → subs_at off ts after
| subs_prop off next ts after :
    tag_at off FDT_PROP next → good_property m fdt off → subs_at next ts after →
    subs_at off ts after
| subs_node off next props ss mid ts after :
    tag_at off FDT_BEGIN_NODE next → props_at next props → subs_at next ss mid →
    subs_at mid ts after → subs_at off (Node off props ss :: ts) after.

(** The end of the structure block. *)
Inductive closing : Z → Prop :=
| closing_nop off next : tag_at off FDT_NOP next → closing next → closing off
| closing_end off next : tag_at off FDT_END next → closing off.

(** The rest of the block from inside nested nodes. *)
Inductive rest_at : Z → list (list dnode) → Prop :=
| rest_closing off : closing off → rest_at off []
| rest_open off ts after pending :
    subs_at off ts after → rest_at after pending → rest_at off (ts :: pending).

(** The whole block: at most one root, with an empty name.  (Properties in front of
    the root are accepted too.) *)
Inductive block_at : Z → option dnode → Prop :=
| block_nop off next o : tag_at off FDT_NOP next → block_at next o → block_at off o
| block_prop off next o :
    tag_at off FDT_PROP next → good_property m fdt off → block_at next o → block_at off o
| block_empty off next : tag_at off FDT_END next → block_at off None
| block_root off next props ss after :
    tag_at off FDT_BEGIN_NODE next → empty_name m fdt off → props_at next props →
    subs_at next ss after → closing after → block_at off (Some (Node off props ss)).

(* ------------------------------------------------------------------ *)
(** * The checker and the grammar *)

Lemma props_exist off ts after : subs_at off ts after → ∃ props, props_at off props.
Proof.
  induction 1 as [off after Ht|off next ts after Ht _ [ps IH]|off next ts after Ht Hg _ [ps IH]|
    off next props ss mid ts after Ht _ _ _ _ _].
  - exists []. eapply props_end; [done|by right].
  - exists ps. by eapply props_nop.
  - exists (off :: ps). by eapply props_prop.
  - exists []. eapply props_end; [done|by left].
Qed.

Lemma closing_nested off : closing off → ∀ c, well_nested m fdt off 0 c.
Proof.
  induction 1 as [off next [] _ IH|off next []]; intros c.
  - by eapply wn_nop.
  - by eapply wn_end.
Qed.

Lemma nested_closing off d c : well_nested m fdt off d c → d = 0 → c = true → closing off.
Proof.
  induction 1 as [off next c H1 H2|off next d c H1 H2 _ IH| | |]; intros Hd Hc; try done.
  - by eapply closing_end.
  - eapply closing_nop; [done|by apply IH].
Qed.

(** The contents of a node are well nested if what follows it is. *)
Lemma subs_nested off ts after :
  subs_at off ts after → ∀ d, 0 < d → well_nested m fdt after (d - 1) (d =? 1) →
  well_nested m fdt off d false.
Proof.
  induction 1 as [off after []|off next ts after [] _ IH|off next ts after [] Hg _ IH|
    off next props ss mid ts after [] _ _ IH1 _ IH2]; intros d Hd Hn.
  - by eapply wn_end_node.
  - eapply wn_nop; eauto.
  - eapply wn_prop; eauto.
  - eapply wn_begin; [done|done|lia|]. apply IH1; [lia|].
    replace (d + 1 - 1) with d by lia. destruct (Z.eqb_spec (d + 1) 1); [lia|]. by apply IH2.
Qed.

Lemma rest_nested off pending :
  rest_at off pending → pending ≠ [] → well_nested m fdt off (Z.of_nat (length pending)) false.
Proof.
  induction 1 as [|off ts after pending Hs Hr IH]; [done|]. intros _.
  rewrite length_cons, Nat2Z.inj_succ. apply (subs_nested off ts after Hs); [lia|].
  replace (Z.succ (Z.of_nat (length pending)) - 1) with (Z.of_nat (length pending)) by lia.
  destruct pending as [|ts' pending]; [inversion Hr; by apply closing_nested|].
  destruct (Z.eqb_spec (Z.succ (Z.of_nat (length (ts' :: pending)))) 1) as [E|_].
  { rewrite length_cons in E. lia. }
  by apply IH.
Qed.

(** Inside a node nothing is pending at the top. *)
Lemma rest_inside off pending :
  rest_at off pending → (0 < length pending)%nat →
  ∃ ts after rest, pending = ts :: rest ∧ subs_at off ts after ∧ rest_at after rest.
Proof. destruct 1 as [|off ts after rest Hs Hr]; simpl; [lia|]. intros _. by exists ts, after, rest. Qed.

Lemma nested_rest off d c :
  well_nested m fdt off d c → 0 < d → ∃ pending, length pending = Z.to_nat d ∧ rest_at off pending.
Proof.
  induction 1 as [|off next d c H1 H2 _ IH|off next d H1 H2 _ _ IH|off next d H1 H2 H3 Hw IH|
    off next d H1 H2 Hg _ IH]; intros Hd; [lia|..].
  - destruct (IH Hd) as (p & Hl & (ts & after & rest & -> & Hs & Hr)%rest_inside); [|lia].
    exists (ts :: rest). split; [done|]. econstructor; [|done]. by eapply subs_nop.
  - destruct IH as (p & Hl & (ts & mid & rest & -> & Hs & Hr)%rest_inside); [lia| |lia].
    apply rest_inside in Hr as (ts' & after & rest' & -> & Hs' & Hr'); [|simpl in Hl; lia].
    destruct (props_exist _ _ _ Hs) as [props Hp].
    exists ((Node off props ts :: ts') :: rest'). split; [simpl in *; lia|].
    econstructor; [|done]. by eapply subs_node.
  - destruct (Z.eq_dec d 1) as [-> |Hne].
    + exists [[]]. split; [done|]. econstructor; [by eapply subs_end|].
      apply rest_closing. by eapply (nested_closing next 0 true).
    + destruct IH as (p & Hl & Hr); [lia|]. exists ([] :: p). split; [simpl; lia|].
      econstructor; [by eapply subs_end|done].
  - destruct (IH Hd) as (p & Hl & (ts & after & rest & -> & Hs & Hr)%rest_inside); [|lia].
    exists (ts :: rest). split; [done|]. econstructor; [|done]. by eapply subs_prop.
Qed.

Lemma block_nested off o : block_at off o → well_nested m fdt off 0 false.
Proof.
  induction 1 as [off next o [] _ IH|off next o [] Hg _ IH|off next []|
    off next props ss after [] He _ Hs Hc].
  - by eapply wn_nop.
  - by eapply wn_prop.
  - by eapply wn_end.
  - eapply wn_begin; [done|done|done|]. eapply subs_nested; [done|lia|]. by apply closing_nested.
Qed.

Lemma nested_block off d c : well_nested m fdt off d c → d = 0 → c = false → ∃ o, block_at off o.
Proof.
  induction 1 as [off next c H1 H2|off next d c H1 H2 _ IH|off next d H1 H2 He Hw _|
    off next d H1 H2 H3 Hw _|off next d H1 H2 Hg _ IH]; intros Hd Hc; [|..|lia|].
  - exists None. by eapply block_empty.
  - destruct (IH Hd Hc) as [o Ho]. exists o. by eapply block_nop.
  - subst. destruct (nested_rest _ _ _ Hw) as (p & Hl & Hr); [lia|].
    apply rest_inside in Hr as (ts & after & rest & -> & Hs & Hr); [|lia].
    destruct rest; [|simpl in Hl; lia]. inversion Hr; subst.
    destruct (props_exist _ _ _ Hs) as [props Hp].
    exists (Some (Node off props ts)). eapply block_root; try done. by apply He.
  - destruct (IH Hd Hc) as [o Ho]. exists o. by eapply block_prop.
Qed.

Lemma well_nested_block : well_nested m fdt 0 0 false ↔ ∃ o, block_at 0 o.
Proof. split; [intros Hn; by eapply nested_block|]. intros [o Ho]. by eapply block_nested. Qed.
End grammar.

(* ------------------------------------------------------------------ *)
(** * Trees the checker accepts *)

Section trees.
(** A tree that can be read, and is of a version that node
    names were not paths in. *)
Definition readable_tree (m : mem) (tree : Z) : Prop :=
  mem_bytes m ∧ word_backed m ∧ 0 < tree ∧ mapped m tree 40 ∧ tree + 40 <= 2 ^ 32 ∧
  mapped m tree (hdr m tree 4) ∧ tree + hdr m tree 4 + 4 < 2 ^ 32 ∧ 16 <= hdr m tree 20.

(** The trees that the check accepts. *)
Definition valid_tree (m : mem) (tree : Z) : Prop :=
  header_ok m tree ∧ (∃ n, fdt_num_mem_rsv m tree = Ok n ∧ 0 <= n) ∧ well_nested m tree 0 0 false.

Lemma readable_checkable m tree : readable_tree m tree → checkable m tree.
Proof. by intros (? & ? & ? & ? & ? & ? & ? & ?). Qed.

(** A tree that can be checked can be read if its header is good. *)
Lemma checkable_readable m tree : checkable m tree → header_ok m tree → readable_tree m tree.
Proof. intros (? & ? & ? & ? & ? & Hgood) Hok. by destruct (Hgood Hok) as (? & ? & ?). Qed.

Lemma readable_blob m tree : readable_tree m tree → header_ok m tree → blob m tree.
Proof. intros (Hb & _ & Hf & Hm & Ht & Hmt & Htt & _) Hok. apply header_blob; done || lia. Qed.

(** The checks every lookup starts with succeed. *)
Lemma valid_probe m tree :
  readable_tree m tree → valid_tree m tree → fdt_ro_probe_ m tree = Ok (hdr m tree 4).
Proof.
  intros Hr (Hok & (n & Hn & Hn0) & _).
  destruct (ro_probe_ok m tree (readable_blob _ _ Hr Hok)) as (r & He & [Hneg | ->]); [|done].
  unfold fdt_num_mem_rsv, FDT_RO_PROBE in Hn. rewrite He in Hn. cbn [mbind res_bind] in Hn.
  destruct (Z.ltb_spec r 0); [|lia]. injection Hn as <-. unfold id in Hn0. lia.
Qed.
End trees.

(* ------------------------------------------------------------------ *)
(** * The walk over the nodes *)

Section walk.
Context (m : mem) (fdt : Z) (Hbl : blob m fdt).

#[local] Abbreviation tag_at := (tag_at m fdt).
#[local] Abbreviation nodes_from := (next_node_loop m fdt).

Lemma tag_at_valid off tag next :
  valid_offset off → tag_at off tag next → valid_offset next ∧ off + 4 <= next.
Proof using Hbl.
  intros Hv [Ht Hn]. pose proof (next_tag_valid m fdt Hbl off Hv) as Hr. rewrite Ht in Hr.
  destruct Hr as [(? & _)|(_ & Hge & Hal & Hlt & _)]; [lia|]. split; [|done].
  by eapply (valid_next m fdt Hbl off).
Qed.

Lemma tag_at_unique off tag next tag' next' :
  tag_at off tag next → tag_at off tag' next' → tag = tag' ∧ next = next'.
Proof. intros [H1 _] [H2 _]. rewrite H1 in H2. by simplify_eq. Qed.

(** The loop of [fdt_next_node], tag by tag. *)
Lemma nodes_from_total off d : valid_offset off → ∃ r, nodes_from off d = Ok r.
Proof using Hbl.
  intros Hv. pose proof (next_node_loop_ok m fdt Hbl (off - 1) off d ltac:(lia) Hv) as Hr.
  destruct (nodes_from off d) as [r| |]; [by exists r|done..].
Qed.

Lemma nodes_from_skip off tag next d :
  valid_offset off → tag_at off tag next → tag = FDT_PROP ∨ tag = FDT_NOP →
  nodes_from off d = nodes_from next d.
Proof using Hbl.
  intros Hv [Ht Hn] Htag. destruct (nodes_from_total off d Hv) as [r Hr]. rewrite Hr. symmetry.
  eapply loop_continue; [exact Hr|]. cbn beta iota zeta. rewrite Ht. by destruct Htag as [-> | ->].
Qed.

Lemma nodes_from_begin off next d :
  valid_offset off → tag_at off FDT_BEGIN_NODE next →
  nodes_from off d = Ok (off, (fun x => s32 (x + 1)) <$> d).
Proof using Hbl.
  intros Hv [Ht Hn]. destruct (nodes_from_total off d Hv) as [r Hr]. rewrite Hr. f_equal.
  eapply loop_leave; [exact Hr|]. cbn beta iota zeta. by rewrite Ht.
Qed.

Lemma nodes_from_end_node off after d :
  valid_offset off → tag_at off FDT_END_NODE after → is_s32 (d - 1) →
  nodes_from off (Some d) = if d - 1 <? 0 then Ok (after, Some (d - 1)) else nodes_from after (Some (d - 1)).
Proof using Hbl.
  intros Hv [Ht Hn] Hd. destruct (nodes_from_total off (Some d) Hv) as [r Hr]. rewrite Hr.
  assert (∀ x : _ + _, (if d - 1 <? 0 then inr (after, Some (d - 1)) else inl (after, Some (d - 1))) = x →
    match x with inr v => r = v | inl (o, d') => nodes_from o d' = Ok r end) as Hgo.
  { intros x Hx. destruct x as [[o d']|v].
    - eapply loop_continue; [exact Hr|]. cbn beta iota zeta. rewrite Ht. cbn -[s32 Z.sub].
      by rewrite s32_small, Hx.
    - eapply loop_leave; [exact Hr|]. cbn beta iota zeta. rewrite Ht. cbn -[s32 Z.sub].
      by rewrite s32_small, Hx. }
  destruct (d - 1 <? 0); [by rewrite (Hgo _ eq_refl)|]. by rewrite (Hgo _ eq_refl).
Qed.

Lemma nodes_from_end_node_none off after :
  valid_offset off → tag_at off FDT_END_NODE after → nodes_from off None = nodes_from after None.
Proof using Hbl.
  intros Hv [Ht Hn]. destruct (nodes_from_total off None Hv) as [r Hr]. rewrite Hr. symmetry.
  eapply loop_continue; [exact Hr|]. cbn beta iota zeta. by rewrite Ht.
Qed.

Lemma nodes_from_closing off : closing m fdt off → valid_offset off →
  nodes_from off None = Ok (- FDT_ERR_NOTFOUND, None).
Proof using Hbl.
  induction 1 as [off next Ht _ IH|off next [Ht Hn]]; intros Hv.
  - rewrite (nodes_from_skip off FDT_NOP next None Hv Ht) by auto. by apply IH, (tag_at_valid off FDT_NOP).
  - destruct (nodes_from_total off None Hv) as [r Hr]. rewrite Hr. f_equal.
    eapply loop_leave; [exact Hr|]. cbn beta iota zeta. rewrite Ht. cbn -[Z.leb].
    by destruct (Z.leb_spec 0 next); [|lia].
Qed.

(** The contents of a node from [off] on: the walk comes to the first subnode, or to
    the end tag. *)
Definition first_sub (off : Z) (ts : list dnode) (after : Z) : Prop :=
  match ts with
  | [] => ∃ e, valid_offset e ∧ off <= e ∧ tag_at e FDT_END_NODE after ∧
      ∀ d, nodes_from off d = nodes_from e d
  | t :: ts' => ∃ next mid, valid_offset (node_off t) ∧ off <= node_off t ∧
      tag_at (node_off t) FDT_BEGIN_NODE next ∧ props_at m fdt next (node_props t) ∧
      subs_at m fdt next (node_subs t) mid ∧ subs_at m fdt mid ts' after ∧
      ∀ d, nodes_from off d = nodes_from (node_off t) d
  end.

Lemma first_sub_skip off tag next ts after :
  valid_offset off → tag_at off tag next → tag = FDT_PROP ∨ tag = FDT_NOP →
  first_sub next ts after → first_sub off ts after.
Proof using Hbl.
  intros Hv Ht Htag. destruct (tag_at_valid off tag next Hv Ht) as [_ Hlt].
  assert (∀ d, nodes_from off d = nodes_from next d) as He by (intros; by eapply nodes_from_skip).
  destruct ts as [|t ts']; cbn.
  - intros (e & ? & ? & ? & Hd). exists e. split_and!; [done|lia|done|]. intros. by rewrite He.
  - intros (n & mid & ? & ? & ? & ? & ? & ? & Hd). exists n, mid. split_and!; try done; [lia|].
    intros. by rewrite He.
Qed.

Lemma subs_scan off ts after : subs_at m fdt off ts after → valid_offset off → first_sub off ts after.
Proof using Hbl.
  induction 1 as [off after Ht|off next ts after Ht _ IH|off next ts after Ht _ _ IH|
    off next props ss mid ts after Ht Hp Hs _ Hr _]; intros Hv.
  - exists off. by split_and!.
  - eapply first_sub_skip; [done|done|by right|]. by apply IH, (tag_at_valid off FDT_NOP).
  - eapply first_sub_skip; [done|done|by left|]. by apply IH, (tag_at_valid off FDT_PROP).
  - exists next, mid. by split_and!.
Qed.

Lemma subs_bound off ts after :
  subs_at m fdt off ts after → valid_offset off → valid_offset after ∧ off + 4 <= after.
Proof using Hbl.
  induction 1 as [off after Ht|off next ts after Ht _ IH|off next ts after Ht _ _ IH|
    off next props ss mid ts after Ht Hp Hs IH1 Hr IH2]; intros Hv;
    destruct (tag_at_valid _ _ _ Hv Ht) as [Hvn Hlt]; [done|..].
  - destruct (IH Hvn). split; [done|lia].
  - destruct (IH Hvn). split; [done|lia].
  - destruct (IH1 Hvn) as [Hvm ?], (IH2 Hvm). split; [done|lia].
Qed.

(** Every open node still has its end tag to come. *)
Lemma rest_bound off pending :
  rest_at m fdt off pending → valid_offset off → off + 4 * Z.of_nat (length pending) < 2 ^ 31.
Proof using Hbl.
  induction 1 as [off|off ts after pending Hs _ IH]; intros Hv; [destruct Hv; simpl; lia|].
  destruct (subs_bound _ _ _ Hs Hv) as [Hva ?]. specialize (IH Hva). simpl in *. lia.
Qed.

(** The walk stands at node [t] of depth [d], with the nodes [l] still to come. *)
Definition at_node (t : dnode) (d : Z) (l : list (dnode * Z)) : Prop :=
  ∃ next pending, valid_offset (node_off t) ∧ tag_at (node_off t) FDT_BEGIN_NODE next ∧
    props_at m fdt next (node_props t) ∧ rest_at m fdt next (node_subs t :: pending) ∧
    d = Z.of_nat (length pending) ∧ l = to_visit (node_subs t :: pending).

(** The next node of the walk, started inside [open] nodes; [r] is the depth count. *)
Definition walks_to (from open : Z) (l : list (dnode * Z)) : Prop :=
  match l with
  | [] =>
      nodes_from from None = Ok (- FDT_ERR_NOTFOUND, None) ∧
      ∀ r, 0 <= r < open → ∃ a, nodes_from from (Some r) = Ok (a, Some (-1)) ∧ 0 <= a
  | (t, d) :: l' =>
      nodes_from from None = Ok (node_off t, None) ∧ from <= node_off t ∧ at_node t d l' ∧
      ∀ r, 0 <= r < open →
        if decide (open <= r + d) then nodes_from from (Some r) = Ok (node_off t, Some (r + 1 + d - open))
        else ∃ a, nodes_from from (Some r) = Ok (a, Some (-1)) ∧ 0 <= a
  end.

Lemma to_visit_depth pending t d l :
  to_visit pending = (t, d) :: l → 1 <= d <= Z.of_nat (length pending).
Proof.
  induction pending as [|ts rest IH]; [done|]. cbn [to_visit length].
  destruct ts as [|[o ps ss] ts]; cbn; [intros E; specialize (IH E); lia|]. intros [= <- <- <-]. lia.
Qed.

Lemma rest_walk off pending :
  rest_at m fdt off pending → valid_offset off →
  walks_to off (Z.of_nat (length pending)) (to_visit pending).
Proof using Hbl.
  induction 1 as [off Hc|off ts after pending Hs Hrest IH]; intros Hv.
  { cbn. split; [by apply nodes_from_closing|]. intros. lia. }
  destruct (subs_bound _ _ _ Hs Hv) as [Hva Hlt]. specialize (IH Hva).
  pose proof (rest_bound off (ts :: pending) (rest_open _ _ _ _ _ _ Hs Hrest) Hv) as Hb.
  pose proof (subs_scan _ _ _ Hs Hv) as Hf. destruct Hv as (Hv0 & _). rewrite length_cons in *.
  destruct ts as [|t ts].
  - destruct Hf as (e & Hve & Hle & Ht & He). cbn [to_visit flat_map app].
    destruct (tag_at_valid _ _ _ Hve Ht) as [_ Hlt'].
    assert (∀ r, 0 <= r < Z.of_nat (S (length pending)) → nodes_from off (Some r) =
      if r - 1 <? 0 then Ok (after, Some (r - 1)) else nodes_from after (Some (r - 1))) as Hstep.
    { intros. rewrite He. apply nodes_from_end_node; [done..|]. unfold is_s32. lia. }
    assert (nodes_from off None = nodes_from after None) as Hnone
      by (rewrite He; by apply nodes_from_end_node_none).
    destruct (to_visit pending) as [|[t d] l] eqn:El; cbn [walks_to] in *.
    + destruct IH as [IHn IH]. split; [by rewrite Hnone|]. intros r Hr. rewrite Hstep by done.
      destruct (Z.ltb_spec (r - 1) 0); [|apply IH; lia]. exists after. split; [|lia].
      by replace (r - 1) with (-1) by lia.
    + destruct IH as (IHn & IHle & IHt & IH). split_and!; [by rewrite Hnone|lia|done|]. intros r Hr.
      rewrite Hstep by done. apply to_visit_depth in El.
      destruct (Z.ltb_spec (r - 1) 0).
      * rewrite decide_False by lia. exists after. split; [|lia].
        by replace (r - 1) with (-1) by lia.
      * specialize (IH (r - 1) ltac:(lia)).
        destruct (decide (Z.of_nat (length pending) <= r - 1 + d)) as [Hd|Hd];
          [rewrite decide_True by lia|by rewrite decide_False by lia].
        rewrite IH. do 3 f_equal. lia.
  - destruct t as [o ps ss]. destruct Hf as (next & mid & Hvo & Hle & Ht & Hp & Hss & Hts & He). 
    cbn [node_off node_props node_subs] in *.
    cbn [to_visit flat_map tree_nodes app walks_to]. split_and!.
    + rewrite He. by rewrite (nodes_from_begin o next).
    + done.
    + exists next, (ts :: pending). split_and!; try done.
      * econstructor; [done|]. by econstructor.
      * rewrite length_cons. lia.
      * cbn [to_visit node_subs]. rewrite <- app_assoc. do 3 f_equal. rewrite length_cons. f_equal. lia.
    + intros r Hr. rewrite decide_True by lia. cbn [node_off]. rewrite He, (nodes_from_begin o next) by done.
      cbn. rewrite s32_small by (unfold is_s32; lia). do 3 f_equal. lia.
Qed.
(** From node to node. *)
Lemma at_node_step t d l :
  at_node t d l →
  ∃ next, (∀ dep, fdt_next_node m fdt (node_off t) dep = nodes_from next dep) ∧
    walks_to next (d + 1) l ∧ node_off t < next.
Proof using Hbl.
  intros (next & pending & Hv & Ht & _ & Hr & -> & ->).
  destruct (tag_at_valid _ _ _ Hv Ht) as [Hvn Hlt]. exists next. split_and!; [|..|lia].
  - intros dep. destruct Hv as (H0 & H4 & _). destruct Ht as [Ht Hn].
    unfold fdt_next_node, fdt_check_node_offset_, FDT_TAGSIZE.
    destruct (Z.leb_spec 0 (node_off t)); [|lia]. destruct (Z.ltb_spec (node_off t) 0); [lia|].
    rewrite H4. cbn [Z.eqb negb orb]. rewrite Ht. cbn [mbind res_bind]. rewrite Z.eqb_refl. cbn [negb].
    by destruct (Z.ltb_spec next 0); [lia|].
  - pose proof (rest_walk _ _ Hr Hvn) as Hw. rewrite length_cons, Nat2Z.inj_succ in Hw. apply Hw.
Qed.

Lemma at_node_next t d u e l : at_node t d ((u, e) :: l) → at_node u e l ∧ node_off t < node_off u.
Proof using Hbl.
  intros (next & _ & (_ & Hle & Hu & _) & Hlt)%at_node_step. split; [done|lia].
Qed.

(** The nodes still to come lie further on. *)
Lemma at_node_sorted t d l :
  at_node t d l → Forall (λ ue, node_off t < node_off ue.1) l.
Proof using Hbl.
  revert t d. induction l as [|[u e] l IH]; intros t d Ht; [done|].
  apply at_node_next in Ht as [Hu Hlt]. constructor; [done|].
  eapply Forall_impl; [by apply (IH u e)|]. cbn. lia.
Qed.

(** The start of the walk. *)
Lemma block_walk off o :
  block_at m fdt off o → valid_offset off →
  match o with
  | Some root => nodes_from off None = Ok (node_off root, None) ∧ off <= node_off root ∧
      at_node root 0 (flat_map (tree_nodes 1) (node_subs root))
  | None => nodes_from off None = Ok (- FDT_ERR_NOTFOUND, None)
  end.
Proof using Hbl.
  induction 1 as [off next o Ht _ IH|off next o Ht _ _ IH|off next Ht|
    off next props ss after Ht He Hp Hs Hc]; intros Hv.
  - destruct (tag_at_valid _ _ _ Hv Ht) as [Hvn Hlt]. specialize (IH Hvn).
    rewrite (nodes_from_skip off FDT_NOP next) by auto.
    destruct o as [root|]; [|done]. destruct IH as (? & ? & ?). split_and!; [done|lia|done].
  - destruct (tag_at_valid _ _ _ Hv Ht) as [Hvn Hlt]. specialize (IH Hvn).
    rewrite (nodes_from_skip off FDT_PROP next) by auto.
    destruct o as [root|]; [|done]. destruct IH as (? & ? & ?). split_and!; [done|lia|done].
  - apply nodes_from_closing; [|done]. by eapply closing_end.
  - rewrite (nodes_from_begin off next) by done. split_and!; [done|cbn; lia|].
    exists next, []. split_and!; try done.
    + econstructor; [done|]. by apply rest_closing.
    + cbn [to_visit length node_subs]. by rewrite app_nil_r.
Qed.
End walk.

(* ------------------------------------------------------------------ *)
(** * Trees as lists of nodes *)

(** Induction with a hypothesis for every subnode. *)
Lemma dnode_all_ind (P : dnode → Prop) :
  (∀ off props subs, Forall P subs → P (Node off props subs)) → ∀ t, P t.
Proof.
  intros HP. fix IH 1. intros [off props subs]. apply HP.
  induction subs as [|t subs IHs]; [constructor|]. constructor; [apply IH|exact IHs].
Qed.

Lemma preorder_depth t d : Forall (λ ue, d <= ue.2) (tree_nodes d t).
Proof.
  revert d. induction t as [off props subs IH] using dnode_all_ind. intros d.
  cbn [tree_nodes]. constructor; [cbn; lia|]. induction IH as [|t subs Ht _ IHs]; cbn; [constructor|].
  apply Forall_app. split; [|done]. eapply Forall_impl; [apply (Ht (d + 1))|]. cbn. lia.
Qed.

Lemma preorders_depth ts d : Forall (λ ue, d <= ue.2) (flat_map (tree_nodes d) ts).
Proof.
  induction ts as [|t ts IH]; cbn; [constructor|]. apply Forall_app. split; [apply preorder_depth|done].
Qed.

(** A node's subtree is a segment of the walk. *)
Lemma preorder_segment t d u e :
  (u, e) ∈ tree_nodes d t →
  ∃ l1 l2, tree_nodes d t = l1 ++ tree_nodes e u ++ l2.
Proof.
  revert d. induction t as [off props subs IH] using dnode_all_ind. intros d.
  cbn [tree_nodes]. intros [[= -> ->]|Hin]%elem_of_cons.
  { exists [], []. cbn [app]. by rewrite app_nil_r. }
  assert (∃ l1 l2, flat_map (tree_nodes (d + 1)) subs = l1 ++ tree_nodes e u ++ l2) as (l1 & l2 & E).
  { induction IH as [|t subs Ht _ IHs]; cbn in *; [by apply elem_of_nil in Hin|].
    apply elem_of_app in Hin as [Hin|Hin].
    - destruct (Ht _ Hin) as (l1 & l2 & E). exists l1, (l2 ++ flat_map (tree_nodes (d + 1)) subs).
      rewrite E. by rewrite <- !app_assoc.
    - destruct (IHs Hin) as (l1 & l2 & E). exists (tree_nodes (d + 1) t ++ l1), l2.
      rewrite E. by rewrite <- !app_assoc. }
  exists ((Node off props subs, d) :: l1), l2. by rewrite E.
Qed.

(* ------------------------------------------------------------------ *)
(** * Properties *)

(** C7: [fdt_check_full] is a parser.  Let 40 bytes be in memory and, if they make a header
    that [fdt_check_header] accepts, the whole of the tree that it claims, with version 16
    or later; other headers may say anything.  Then the check terminates without a read
    outside the tree, and it returns 0 exactly when the header is well formed, the buffer
    holds the whole tree, the reservation map ends and the structure block spells one tree
    of named, closed nodes, the root without a name, or none.  Of good headers with version
    2 to 15 nothing is said: their node names go to [strrchr], which may never return. *)
Theorem fdt_check_full_parses m fdt bufsize :
  checkable m fdt →
  ∃ r, fdt_check_full m fdt bufsize = Ok r ∧
    (r = 0 ↔ header_ok m fdt ∧ hdr m fdt 4 <= bufsize ∧
       (∃ n, fdt_num_mem_rsv m fdt = Ok n ∧ 0 <= n) ∧ ∃ o, block_at m fdt 0 o).
Proof.
  intros Hc. destruct (check_any_ok m fdt bufsize Hc) as (r & He & Hr).
  exists r. split; [done|]. by rewrite Hr, well_nested_block.
Qed.

Lemma at_nth_from m fdt root d0 l i t d :
  blob m fdt → at_node m fdt root d0 l → ((root, d0) :: l) !! i = Some (t, d) →
  at_node m fdt t d (drop i l).
Proof.
  intros Hbl. revert root d0 l. induction i as [|i IH]; intros root d0 l Hroot; [by intros [= <- <-]|].
  destruct l as [|[u e] l]; [done|]. destruct (at_node_next m fdt Hbl _ _ _ _ _ Hroot) as [Hu _].
  by apply (IH u e l).
Qed.

(** Every node of the tree is a stop of the walk. *)
Lemma at_nth_node m fdt root i t d :
  blob m fdt → block_at m fdt 0 (Some root) → tree_nodes 0 root !! i = Some (t, d) →
  at_node m fdt t d (drop (S i) (tree_nodes 0 root)).
Proof.
  intros Hbl Hb Hi. destruct (block_walk m fdt Hbl 0 _ Hb ltac:(by unfold valid_offset)) as (_ & _ & Hroot).
  destruct root as [off props subs]. by apply (at_nth_from m fdt (Node off props subs) 0 _ i).
Qed.

Lemma at_tree_node m fdt root t d :
  blob m fdt → block_at m fdt 0 (Some root) → (t, d) ∈ tree_nodes 0 root →
  ∃ l, at_node m fdt t d l.
Proof.
  intros Hbl Hb [i Hi]%list_elem_of_lookup_1. eexists. by eapply at_nth_node.
Qed.

(** From node to node, for the [i]-th node of the tree. *)
Lemma next_node_at m fdt root i t d :
  readable_tree m fdt → valid_tree m fdt → block_at m fdt 0 (Some root) →
  tree_nodes 0 root !! i = Some (t, d) →
  (i = 0%nat → fdt_next_node m fdt (-1) None = Ok (node_off t, None)) ∧
  match tree_nodes 0 root !! S i with
  | Some (t', d') =>
      fdt_next_node m fdt (node_off t) None = Ok (node_off t', None) ∧
      fdt_next_node m fdt (node_off t) (Some d) = Ok (node_off t', Some d')
  | None =>
      fdt_next_node m fdt (node_off t) None = Ok (- FDT_ERR_NOTFOUND, None) ∧
      ∃ a, fdt_next_node m fdt (node_off t) (Some d) = Ok (a, Some (-1)) ∧ 0 <= a
  end.
Proof.
  intros Hr Hval Hb Hi. pose proof (readable_blob m fdt Hr (proj1 Hval)) as Hbl. split.
  { intros ->. destruct (block_walk m fdt Hbl 0 _ Hb ltac:(by unfold valid_offset)) as (Hs & _).
    destruct root. injection Hi as <- <-. exact Hs. }
  pose proof (at_nth_node m fdt root i t d Hbl Hb Hi) as Hat.
  assert (0 <= d) as Hd by (destruct Hat as (? & ? & _ & _ & _ & _ & -> & _); lia).
  rewrite <- (Nat.add_0_r (S i)), <- lookup_drop.
  destruct (drop (S i) (tree_nodes 0 root)) as [|[t' d'] l];
    destruct (at_node_step m fdt Hbl _ _ _ Hat) as (next & Hstep & Hw & _); rewrite !Hstep; cbn in *.
  - destruct Hw as [Hn Hw]. split; [done|]. apply Hw. lia.
  - destruct Hw as (Hn & _ & Hat' & Hw). split; [done|]. specialize (Hw d ltac:(lia)).
    assert (1 <= d') as Hd'.
    { destruct Hat as (? & pending & _ & _ & _ & _ & _ & E). symmetry in E. cbn [node_subs] in E.
      apply to_visit_depth in E. lia. }
    rewrite decide_True in Hw by lia. rewrite Hw. do 3 f_equal. lia.
Qed.

(** C8: [fdt_next_node] walks the tree in preorder: from -1 it comes to the root, from
    the [i]-th node to the next one, keeping count of the depth when asked to; behind
    the last node it reports [-FDT_ERR_NOTFOUND], or a depth below zero. *)
Theorem fdt_next_node_preorder m fdt root i t d :
  readable_tree m fdt → valid_tree m fdt → block_at m fdt 0 (Some root) →
  tree_nodes 0 root !! i = Some (t, d) →
  (i = 0%nat → fdt_next_node m fdt (-1) None = Ok (node_off t, None)) ∧
  match tree_nodes 0 root !! S i with
  | Some (t', d') =>
      fdt_next_node m fdt (node_off t) None = Ok (node_off t', None) ∧
      fdt_next_node m fdt (node_off t) (Some d) = Ok (node_off t', Some d')
  | None =>
      fdt_next_node m fdt (node_off t) None = Ok (- FDT_ERR_NOTFOUND, None) ∧
      ∃ a, fdt_next_node m fdt (node_off t) (Some d) = Ok (a, Some (-1)) ∧ 0 <= a
  end.
Proof. apply next_node_at. Qed.

(* ------------------------------------------------------------------ *)
(** * A parser, for concrete trees *)

Section parse.
Context (m : mem) (fdt : Z).

Definition has_good_property (off : Z) : bool :=
  match fdt_getprop_by_offset m fdt off true with Ok (p, _, _) => negb (p =? 0) | _ => false end.

Fixpoint parse_props (n : nat) (off : Z) : option (list Z) :=
  match n, fdt_next_tag m fdt off with
  | S n', Ok (tag, next) =>
      if next <? 0 then None
      else if tag =? FDT_NOP then parse_props n' next
      else if tag =? FDT_PROP then
        if has_good_property off then props ← parse_props n' next; Some (off :: props) else None
      else if (tag =? FDT_BEGIN_NODE) || (tag =? FDT_END_NODE) then Some []
      else None
  | _, _ => None
  end.

Fixpoint parse_subs (n : nat) (off : Z) : option (list dnode * Z) :=
  match n, fdt_next_tag m fdt off with
  | S n', Ok (tag, next) =>
      if next <? 0 then None
      else if tag =? FDT_NOP then parse_subs n' next
      else if tag =? FDT_PROP then if has_good_property off then parse_subs n' next else None
      else if tag =? FDT_END_NODE then Some ([], next)
      else if tag =? FDT_BEGIN_NODE then
        props ← parse_props n' next; '(ss, mid) ← parse_subs n' next;
        '(ts, after) ← parse_subs n' mid; Some (Node off props ss :: ts, after)
      else None
  | _, _ => None
  end.

(** A root at offset 0, and [FDT_END] behind it. *)
Definition parse_root (n : nat) : option dnode :=
  match fdt_next_tag m fdt 0, fdt_get_name m fdt 0 with
  | Ok (tag, next), Ok (name, len) =>
      if negb (tag =? FDT_BEGIN_NODE) || (next <? 0) || (name =? 0) || negb (len =? 0) then None
      else
        props ← parse_props n next; '(ss, after) ← parse_subs n next;
        match load8 m name, fdt_next_tag m fdt after with
        | Ok 0, Ok (9, last) => if last <? 0 then None else Some (Node 0 props ss)
        | _, _ => None
        end
  | _, _ => None
  end.

Lemma has_good_property_ok off : has_good_property off = true → good_property m fdt off.
Proof.
  unfold has_good_property, good_property. destruct (fdt_getprop_by_offset m fdt off true) as [[[p l] nm]| |];
    [|done..]. intros Hp. exists p, l, nm. split; [done|]. by destruct (Z.eqb_spec p 0).
Qed.

Ltac parse_step off :=
  let tag := fresh "tag" in let next := fresh "next" in let E := fresh "E" in
  destruct (fdt_next_tag m fdt off) as [[tag next]| |] eqn:E; [|done..];
  destruct (Z.ltb_spec next 0) as [|Hpos]; [done|]; assert (tag_at m fdt off tag next) by done.

Lemma parse_props_ok n off props : parse_props n off = Some props → props_at m fdt off props.
Proof.
  revert off props. induction n as [|n IH]; intros off props; [done|]. cbn [parse_props]. parse_step off.
  destruct (Z.eqb_spec tag FDT_NOP) as [->|]; [intros; eapply props_nop; eauto|].
  destruct (Z.eqb_spec tag FDT_PROP) as [->|].
  { destruct (has_good_property off) eqn:Eg; [|done]. apply has_good_property_ok in Eg.
    destruct (parse_props n next) eqn:Ep; [|done]. intros [= <-]. eapply props_prop; eauto. }
  destruct (Z.eqb_spec tag FDT_BEGIN_NODE) as [->|]; [intros [= <-]; eapply props_end; eauto|].
  destruct (Z.eqb_spec tag FDT_END_NODE) as [->|]; [intros [= <-]; eapply props_end; eauto|done].
Qed.

Lemma parse_subs_ok n off ts after : parse_subs n off = Some (ts, after) → subs_at m fdt off ts after.
Proof.
  revert off ts after. induction n as [|n IH]; intros off ts after; [done|]. cbn [parse_subs]. parse_step off.
  destruct (Z.eqb_spec tag FDT_NOP) as [->|]; [intros; eapply subs_nop; eauto|].
  destruct (Z.eqb_spec tag FDT_PROP) as [->|].
  { destruct (has_good_property off) eqn:Eg; [|done]. apply has_good_property_ok in Eg.
    intros. eapply subs_prop; eauto. }
  destruct (Z.eqb_spec tag FDT_END_NODE) as [->|]; [intros [= <- <-]; by apply subs_end|].
  destruct (Z.eqb_spec tag FDT_BEGIN_NODE) as [->|]; [|done].
  destruct (parse_props n next) as [props|] eqn:Ep; [|done]. cbn [mbind option_bind].
  destruct (parse_subs n next) as [[ss mid]|] eqn:Es; [|done]. cbn [mbind option_bind].
  destruct (parse_subs n mid) as [[ts' after']|] eqn:Et; [|done]. cbn [mbind option_bind].
  intros [= <- <-]. eapply subs_node; eauto using parse_props_ok.
Qed.

Lemma parse_root_ok n root : parse_root n = Some root → block_at m fdt 0 (Some root).
Proof.
  unfold parse_root. destruct (fdt_next_tag m fdt 0) as [[tag next]| |] eqn:E; [|done..].
  destruct (fdt_get_name m fdt 0) as [[name len]| |] eqn:En; [|done..].
  destruct (Z.eqb_spec tag FDT_BEGIN_NODE) as [->|], (Z.ltb_spec next 0), (Z.eqb_spec name 0),
    (Z.eqb_spec len 0) as [->|]; cbn [negb orb]; try done.
  destruct (parse_props n next) as [props|] eqn:Ep; [|done]. cbn [mbind option_bind].
  destruct (parse_subs n next) as [[ss after]|] eqn:Es; [|done]. cbn [mbind option_bind].
  destruct (load8 m name) as [c| |] eqn:El; [|done..]. destruct c; try done.
  destruct (fdt_next_tag m fdt after) as [[tag' last]| |] eqn:Ea; [|done..].
  destruct (decide (tag' = FDT_END)) as [->|]; [|by repeat case_match].
  cbn. destruct (Z.ltb_spec last 0); [done|]. intros [= <-].
  eapply block_root; [done|by exists name|by eapply parse_props_ok|by eapply parse_subs_ok|].
  by eapply closing_end.
Qed.
End parse.

Lemma sample_readable : readable_tree (k_mem (boot_state sample_tree_mem)) tree_addr.
Proof.
  split; [apply sample_tree_bytes|]. split; [apply sample_tree_words|].
  split; [reflexivity|]. split; [apply sample_tree_mapped; lia|]. split; [discriminate|].
  assert (hdr sample_tree_mem tree_addr 4 = 398) as Hsz by (vm_compute; reflexivity).
  change (k_mem (boot_state sample_tree_mem)) with sample_tree_mem. rewrite Hsz.
  split; [apply sample_tree_mapped; lia|]. split; [reflexivity|]. vm_compute. discriminate.
Qed.

Lemma sample_valid : valid_tree sample_tree_mem tree_addr.
Proof.
  destruct sample_readable as (Hb & Hw & Hf & Hm & Ht & Hmt & Htt & Hv).
  destruct (check_full_ok _ _ 398 Hb Hw Hf Hm Ht Hmt Htt Hv) as (r & He & Hr).
  assert (fdt_check_full sample_tree_mem tree_addr 398 = Ok 0) as E by (vm_compute; reflexivity).
  change (k_mem (boot_state sample_tree_mem)) with sample_tree_mem in *. rewrite E in He.
  injection He as <-. destruct (proj1 Hr eq_refl) as (? & _ & ? & ?). by split_and!.
Qed.

(** The sample tree: the memory, the CLINT and the UART below the root. *)
Definition sample_memory : dnode := Node 40 [60; 80] [].
Definition sample_clint : dnode := Node 112 [132; 172] [].
Definition sample_uart : dnode := Node 204 [224; 248] [].
Definition sample_root : dnode := Node 0 [8; 24] [sample_memory; sample_clint; sample_uart].

Lemma sample_block : block_at sample_tree_mem tree_addr 0 (Some sample_root).
Proof. apply (parse_root_ok _ _ 100). vm_compute. reflexivity. Qed.

Lemma sample_hdr : hdr sample_tree_mem tree_addr 4 = 398.
Proof. vm_compute. reflexivity. Qed.

Lemma fdt_check_full_parses_witness :
  checkable sample_tree_mem tree_addr ∧
  ∃ r, fdt_check_full sample_tree_mem tree_addr 398 = Ok r ∧
    (r = 0 ↔ header_ok sample_tree_mem tree_addr ∧ hdr sample_tree_mem tree_addr 4 <= 398 ∧
       (∃ n, fdt_num_mem_rsv sample_tree_mem tree_addr = Ok n ∧ 0 <= n) ∧
       ∃ o, block_at sample_tree_mem tree_addr 0 o).
Proof.
  assert (checkable sample_tree_mem tree_addr) as Hc by (apply readable_checkable; exact sample_readable).
  split; [exact Hc|]. apply (fdt_check_full_parses _ _ 398 Hc).
Defined.

Lemma fdt_next_node_preorder_witness :
  fdt_next_node sample_tree_mem tree_addr 112 None = Ok (204, None) ∧
  fdt_next_node sample_tree_mem tree_addr 112 (Some 1) = Ok (204, Some 1).
Proof.
  destruct (fdt_next_node_preorder sample_tree_mem tree_addr sample_root 2 sample_clint 1
    sample_readable sample_valid sample_block eq_refl) as [_ H]. exact H.
Defined.
