(* ===== verification/FdtLookup.v ===== *)
(** The lookups of src/libfdt/fdt_ro.c on a tree: properties by name, subnodes by
    name, parents, and the searches that the kernel's drivers make, stated against
    the tree of [FdtTree]. *)
From S2P Require Import Prelude Machine Crt0 SampleTree Fdt FdtRo FdtCheck FdtTree.
From stdpp Require Import base list gmap.
From Stdlib Require Import ZArith Lia.
#[local] Open Scope Z_scope.

(** A C string at [s], where the pointers of [strlen] do not wrap. *)
Definition c_name (m : mem) (s : Z) (name : list Z) : Prop :=
  cstr_at m s name ∧ 0 < s ∧ s + Z.of_nat (length name) + 4 < 2 ^ 32 ∧ Z.of_nat (length name) < 2 ^ 31.

Section properties.
Context (m : mem) (fdt : Z).

#[local] Abbreviation total := (hdr m fdt 4).
#[local] Abbreviation strct := (hdr m fdt 8).

(** The name of a property, its length word and the address of its value. *)
Definition prop_name (p : Z) : list Z :=
  match (nameoff ← fdt32_ld_ m (u32 (fdt + strct + p + 8));
         '(s, len) ← fdt_get_string m fdt (s32 nameoff); read_bytes (Z.to_nat len) s m) with
  | Ok cs => cs
  | _ => []
  end.
Definition prop_len (p : Z) : Z :=
  match fdt32_ld_ m (fdt + strct + p + 4) with Ok v => v | _ => 0 end.
Definition prop_value (p : Z) : Z := fdt + strct + p + 12.

(** The first property of that name. *)
Definition find_prop (props : list Z) (name : list Z) : option Z :=
  head (filter (λ p, prop_name p = name) props).

Context (Hbl : blob m fdt) (Hv : 16 <= hdr m fdt 20) (Hw : word_backed m)
  (Htop : fdt + total + 4 < 2 ^ 32).

(** A property with a name, from where [props] follow. *)
Definition prop_before (p : Z) (props : list Z) : Prop :=
  valid_offset p ∧ good_property m fdt p ∧
  ∃ next, tag_at m fdt p FDT_PROP next ∧ props_at m fdt next props.

Lemma props_head off p props :
  props_at m fdt off (p :: props) → valid_offset off → off <= p ∧ prop_before p props.
Proof using Hbl.
  remember (p :: props) as l eqn:El. induction 1 as [|off next l Ht _ IH|off next l Ht Hg Hp _];
    intros Hvo; [done| |].
  - destruct (tag_at_valid m fdt Hbl _ _ _ Hvo Ht) as [Hvn ?]. destruct (IH El Hvn). split; [lia|done].
  - injection El as -> ->. split; [done|]. split_and!; [done|done|by exists next].
Qed.

Lemma nextprop_total off : valid_offset off → ∃ r, nextprop_ m fdt off = Ok r.
Proof using Hbl.
  intros Hvo. assert (yields (nextprop_ m fdt off) (λ _, True)) as Hy.
  2: { destruct (nextprop_ m fdt off); [by eexists|done..]. }
  unfold nextprop_. rewrite tree_fuel_eq by done.
  apply (loop_yields valid_offset (λ o, Z.to_nat (total - o))); [|done|destruct Hvo; lia].
  intros o Hvo'. pose proof (next_tag_valid m fdt Hbl o Hvo') as Hr.
  destruct (fdt_next_tag m fdt o) as [[tag next]| |]; [|done..]. cbn [mbind res_bind yields] in *.
  destruct Hr as [(? & -> & _)|(_ & Hge & Hal & Hlt & _)]; [done|].
  destruct (tag =? FDT_END); [done|]. destruct (tag =? FDT_PROP); [done|].
  destruct (tag =? FDT_NOP); [|done]. split; [by eapply (valid_next m fdt Hbl o)|].
  destruct Hvo'. lia.
Qed.

Lemma nextprop_ok off props :
  props_at m fdt off props → valid_offset off →
  nextprop_ m fdt off = Ok (default (- FDT_ERR_NOTFOUND) (head props)).
Proof using Hbl.
  induction 1 as [off tag next Ht Htag|off next props Ht _ IH|off next props Ht _ _ _]; intros Hvo;
    destruct (nextprop_total off Hvo) as [r Hr]; rewrite Hr.
  - f_equal. eapply loop_leave; [exact Hr|]. cbn beta. rewrite (proj1 Ht). cbn [mbind res_bind].
    by destruct Htag as [-> | ->].
  - destruct (tag_at_valid m fdt Hbl _ _ _ Hvo Ht) as [Hvn _]. rewrite <- (IH Hvn). symmetry.
    eapply loop_continue; [exact Hr|]. cbn beta. by rewrite (proj1 Ht).
  - f_equal. eapply loop_leave; [exact Hr|]. cbn beta. by rewrite (proj1 Ht).
Qed.

Lemma read_bytes_ok a bs m' :
  bytes_at m' a bs → 0 <= a → a + Z.of_nat (length bs) < 2 ^ 32 →
  read_bytes (length bs) a m' = Ok bs.
Proof.
  revert a. induction bs as [|b bs IH]; intros a Hb Ha Ht; [done|].
  apply bytes_at_cons in Hb as [Hb Hbs]. cbn [read_bytes length] in *. rewrite (load8_ok _ _ _ Hb).
  cbn [mbind res_bind]. rewrite u32_small by (unfold is_u32; lia). by rewrite IH by (done || lia).
Qed.

Lemma props_before off props p :
  props_at m fdt off props → valid_offset off → p ∈ props → ∃ rest, prop_before p rest.
Proof using Hbl.
  induction 1 as [off tag next Ht Htag|off next props Ht _ IH|off next props Ht Hg Hp IH];
    intros Hvo Hin; [by apply elem_of_nil in Hin|..];
    destruct (tag_at_valid m fdt Hbl _ _ _ Hvo Ht) as [Hvn ?]; [by apply IH|].
  apply elem_of_cons in Hin as [->|Hin]; [|by apply IH].
  exists props. split_and!; [done|done|by exists next].
Qed.

(** A property that the checker has accepted lies within the tree. *)
Lemma prop_found p props :
  prop_before p props →
  fdt_get_property_by_offset_ m fdt p = Ok (fdt + strct + p, prop_len p) ∧
  0 <= prop_len p ∧ 0 <= strct ∧ strct + p + 12 + prop_len p <= total ∧ fdt + strct + p ≠ 0.
Proof using Hbl Htop.
  intros ((Hp0 & Hp4 & Hp31) & (d & len & nm & Hg & Hd) & _).
  assert (is_s32 p) as Hs32 by (unfold is_s32; lia).
  destruct (property_by_offset_ok m fdt Hbl p Hs32) as (a & len' & He & Ha).
  unfold fdt_getprop_by_offset in Hg. pose proof He as He'. rewrite He in Hg. cbn [mbind res_bind] in Hg.
  destruct (Z.eqb_spec a 0); [by simplify_eq|]. destruct Ha as [[? _]|(-> & Hvp & Hs & Hl0 & Hle)]; [done|].
  assert (prop_len p = len') as ->; [|by split_and!]. unfold fdt_get_property_by_offset_ in He.
  destruct (check_prop_offset_ok m fdt Hbl p Hs32) as (r & Hr & Hcase). rewrite Hr in He.
  cbn [mbind res_bind] in He. destruct (Z.ltb_spec r 0); [by simplify_eq|].
  destruct Hcase as [|(_ & _ & _ & _ & _ & v & Hld & Hv0 & Hvle)]; [lia|].
  unfold fdt_offset_ptr_, fdt_off_dt_struct in He.
  rewrite (proj1 (header_eq m fdt Hbl 8 ltac:(lia))) in He. cbn [mbind res_bind] in He.
  pose proof (bl_size _ _ Hbl). destruct (bl_addr _ _ Hbl), (bl_mapped _ _ Hbl). unfold INT_MAX in *.
  rewrite (u32_small (fdt + strct + p)), (u32_small (fdt + strct + p + 4)) in He
    by (unfold is_u32; lia).
  unfold prop_len. rewrite Hld in He |- *. cbn [mbind res_bind] in He.
  rewrite s32_small in He by (unfold is_s32; lia). by simplify_eq.
Qed.

(** The name of a property that the checker has accepted. *)
Lemma prop_name_ok p props :
  prop_before p props →
  ∃ v s, fdt32_ld_ m (u32 (fdt + strct + p + 8)) = Ok v ∧
    fdt_get_string m fdt (s32 v) = Ok (s, Z.of_nat (length (prop_name p))) ∧
    cstr_at m s (prop_name p) ∧ fdt <= s ∧ s + Z.of_nat (length (prop_name p)) < fdt + total.
Proof using Hbl Htop.
  intros Hp. destruct (prop_found p props Hp) as (He & Hl0 & Hs & Hle & Hnz).
  destruct Hp as (Hvp & (d & len & nm & Hg & Hd) & _). unfold fdt_getprop_by_offset in Hg.
  rewrite He in Hg. cbn [mbind res_bind] in Hg. destruct (Z.eqb_spec (fdt + strct + p) 0); [done|].
  destruct (property_word_ok m fdt Hbl p 8) as (v & Hld & _); [done..|lia|by right|].
  rewrite Hld in Hg. cbn [mbind res_bind] in Hg. exists v.
  destruct (get_string_ok m fdt Hbl (s32 v)) as (s & slen & Hgs & Hstr); [apply s32_range|].
  rewrite Hgs in Hg. cbn [mbind res_bind] in Hg. exists s.
  destruct Hstr as [[-> _]|(cs & Hcs & -> & Hge & Hlt)]; [cbn in Hg; by simplify_eq|].
  assert (prop_name p = cs) as ->.
  { unfold prop_name. rewrite Hld. cbn [mbind res_bind]. rewrite Hgs. cbn [mbind res_bind].
    rewrite Nat2Z.id. destruct (bl_mapped _ _ Hbl), (bl_addr _ _ Hbl).
    rewrite (read_bytes_ok s cs) by (apply Hcs || lia). done. }
  done.
Qed.

Lemma string_eq_ok p props s name :
  prop_before p props → bytes_at m s name → 0 < s → s + Z.of_nat (length name) < 2 ^ 32 →
  ∃ v, fdt32_ld_ m (u32 (fdt + strct + p + 8)) = Ok v ∧
    fdt_string_eq_ m fdt (s32 v) s (Z.of_nat (length name)) = Ok (bool_decide (prop_name p = name)).
Proof using Hbl Htop.
  intros Hp Hs Hs0 Hst. destruct (prop_name_ok p props Hp) as (v & a & Hld & Hgs & Hcs & Hge & Hlt).
  exists v. split; [done|]. unfold fdt_string_eq_. rewrite Hgs. cbn [mbind res_bind].
  destruct (bl_addr _ _ Hbl), (bl_mapped _ _ Hbl).
  destruct (Z.eqb_spec a 0); [lia|]. cbn [orb].
  destruct (Z.eqb_spec (Z.of_nat (length (prop_name p))) (Z.of_nat (length name))) as [El|Hne]; cbn [negb].
  2: { symmetry. f_equal. apply bool_decide_eq_false_2. intros E. by rewrite E in Hne. }
  destruct (memcmp_ok m a s (Z.of_nat (length name)) (prop_name p) name) as (r & -> & Hr & _);
    [apply Hcs|done|done|done|lia..|].
  cbn [mbind res_bind]. f_equal. destruct (Z.eqb_spec r 0) as [Hz|Hnz]; symmetry.
  - apply bool_decide_eq_true_2. by apply Hr.
  - apply bool_decide_eq_false_2. by rewrite <- Hr.
Qed.
(** The loop over the properties from [p] on. *)
Lemma property_loop_ok off props s name :
  props_at m fdt off props → valid_offset off →
  bytes_at m s name → 0 < s → s + Z.of_nat (length name) < 2 ^ 32 →
  (offset ← nextprop_ m fdt off;
   loop (tree_fuel m fdt)
    (fun offset =>
       if 0 <=? offset then
         '(prop, len) ← fdt_get_property_by_offset_ m fdt offset;
         if prop =? 0 then Ok (inr (0, - FDT_ERR_INTERNAL, 0))
         else
           nameoff ← fdt32_ld_ m (u32 (prop + 8));
           eq ← fdt_string_eq_ m fdt (s32 nameoff) s (Z.of_nat (length name));
           if eq : bool then Ok (inr (prop, len, offset))
           else offset ← fdt_next_property_offset m fdt offset; Ok (inl offset)
       else Ok (inr (0, offset, 0)))
    offset) =
  Ok (match find_prop props name with
      | Some p => (fdt + strct + p, prop_len p, p)
      | None => (0, - FDT_ERR_NOTFOUND, 0)
      end).
Proof using Hbl Htop.
  intros Hps Hvo Hs Hs0 Hst. rewrite (nextprop_ok off props) by done. cbn [mbind res_bind].
  set (result := match find_prop props name with
                 | Some p => (fdt + strct + p, prop_len p, p)
                 | None => (0, - FDT_ERR_NOTFOUND, 0) end).
  apply yields_eq. rewrite tree_fuel_eq by done.
  apply (loop_yields
    (λ o, (o = - FDT_ERR_NOTFOUND ∧ result = (0, - FDT_ERR_NOTFOUND, 0)) ∨
       ∃ rest, prop_before o rest ∧ o < total ∧
         result = match find_prop (o :: rest) name with
                  | Some p => (fdt + strct + p, prop_len p, p)
                  | None => (0, - FDT_ERR_NOTFOUND, 0) end)
    (λ o, if o <? 0 then 0%nat else S (Z.to_nat (total - o)))).
  3: { pose proof (header_eq m fdt Hbl 4 ltac:(lia)) as [_ Ht]. unfold is_u32 in Ht.
       destruct (Z.ltb_spec (default (- FDT_ERR_NOTFOUND) (head props)) 0); lia. }
  2: { destruct props as [|p rest]; [by left|]. right. exists rest.
       destruct (props_head _ _ _ Hps Hvo) as [_ Hp]. destruct (prop_found p rest Hp) as (_ & ? & ? & ? & _).
       split_and!; [done|cbn; lia|done]. }
  intros o [[-> Hr]|(rest & Hp & Ho & Hr)]; [done|].
  destruct (prop_found o rest Hp) as (He & Hl0 & Hst0 & Hle & Hnz).
  destruct (string_eq_ok o rest s name Hp) as (v & Hld & Heq); [done..|].
  destruct Hp as (Hvo' & Hg & next & Ht & Hps'). pose proof Hvo' as (Ho0 & Ho4 & Ho31).
  destruct (Z.leb_spec 0 o); [|lia]. rewrite He. cbn [mbind res_bind].
  destruct (Z.eqb_spec (fdt + strct + o) 0); [done|]. rewrite Hld. cbn [mbind res_bind].
  rewrite Heq. cbn [mbind res_bind]. unfold find_prop in Hr. rewrite filter_cons in Hr.
  destruct (decide (prop_name o = name)) as [En|En].
  { rewrite bool_decide_eq_true_2 by done. cbn. by rewrite Hr. }
  rewrite bool_decide_eq_false_2 by done. unfold fdt_next_property_offset, fdt_check_prop_offset_.
  destruct (Z.ltb_spec o 0); [lia|]. unfold FDT_TAGSIZE. rewrite Ho4. cbn [Z.eqb negb orb].
  destruct (tag_at_valid m fdt Hbl _ _ _ Hvo' Ht) as [Hvn Hlt]. destruct Ht as [Ht Hn0].
  rewrite Ht. cbn [mbind res_bind]. rewrite Z.eqb_refl. cbn [negb].
  destruct (Z.ltb_spec next 0); [lia|]. rewrite (nextprop_ok next rest Hps' Hvn). cbn [mbind res_bind yields].
  destruct (Z.ltb_spec o 0); [lia|]. destruct rest as [|p rest]; cbn [head default].
  - split; [by left|]. apply Nat.lt_0_succ.
  - unfold id. destruct (props_head _ _ _ Hps' Hvn) as [Hle' Hp]. destruct (prop_found p rest Hp) as (_ & ? & _ & ? & _).
    split; [right; exists rest; split_and!; [done|lia|done]|].
    destruct (Z.ltb_spec p 0); lia.
Qed.
(** [fdt_get_property]: the first property of that name, with its length and offset. *)
Lemma property_namelen_ok t d l s name :
  at_node m fdt t d l → bytes_at m s name → 0 < s → s + Z.of_nat (length name) < 2 ^ 32 →
  fdt_get_property_namelen_ m fdt (node_off t) s (Z.of_nat (length name)) =
  Ok (match find_prop (node_props t) name with
      | Some p => (fdt + strct + p, prop_len p, p)
      | None => (0, - FDT_ERR_NOTFOUND, 0)
      end).
Proof using Hbl Htop.
  intros (next & pending & Hvt & Ht & Hps & _) Hs Hs0 Hst.
  unfold fdt_get_property_namelen_, fdt_first_property_offset.
  destruct (tag_at_valid m fdt Hbl _ _ _ Hvt Ht) as [Hvn _].
  assert (fdt_check_node_offset_ m fdt (node_off t) = Ok next) as ->.
  { destruct Hvt as (H0 & H4 & _), Ht as [Ht _]. unfold fdt_check_node_offset_, FDT_TAGSIZE.
    destruct (Z.ltb_spec (node_off t) 0); [lia|]. rewrite H4. cbn [Z.eqb negb orb]. by rewrite Ht. }
  cbn [mbind res_bind]. destruct (Z.ltb_spec next 0); [destruct Hvn; lia|].
  apply (property_loop_ok next _ s name Hps Hvn Hs Hs0 Hst).
Qed.

Lemma find_prop_found t d l name p :
  at_node m fdt t d l → find_prop (node_props t) name = Some p →
  p ∈ node_props t ∧ ∃ rest, prop_before p rest.
Proof using Hbl.
  intros (next & pending & Hvt & Ht & Hps & _) Ef. destruct (tag_at_valid m fdt Hbl _ _ _ Hvt Ht) as [Hvn _].
  assert (p ∈ node_props t) as Hin.
  { apply (list_elem_of_filter (λ q, prop_name q = name)). by apply head_Some_elem_of. }
  split; [done|]. by apply (props_before _ _ _ Hps).
Qed.

(** [fdt_getprop]: the value and the length of the first property of that name. *)
Lemma getprop_namelen_ok t d l s name :
  at_node m fdt t d l → bytes_at m s name → 0 < s → s + Z.of_nat (length name) < 2 ^ 32 →
  fdt_getprop_namelen m fdt (node_off t) s (Z.of_nat (length name)) =
  Ok (match find_prop (node_props t) name with
      | Some p => (prop_value p, prop_len p)
      | None => (0, - FDT_ERR_NOTFOUND)
      end).
Proof using Hbl Hv Htop.
  intros Hat Hs Hs0 Hst. unfold fdt_getprop_namelen. rewrite (property_namelen_ok t d l) by done. cbn [mbind res_bind].
  destruct (find_prop (node_props t) name) as [p|] eqn:Ef; [|done].
  destruct (find_prop_found t d l name p Hat Ef) as (_ & rest & Hp).
  destruct (prop_found p rest Hp) as (_ & ? & ? & ? & Hnz).
  destruct (Z.eqb_spec (fdt + strct + p) 0); [done|]. unfold property_data, fdt_version.
  rewrite (proj1 (header_eq m fdt Hbl 20 ltac:(lia))). cbn [mbind res_bind].
  destruct (Z.ltb_spec (hdr m fdt 20) 16); [lia|]. cbn [andb mbind res_bind].
  destruct Hp as ((? & _) & _), (bl_addr _ _ Hbl).
  rewrite u32_small by (unfold is_u32; lia). done.
Qed.

Lemma get_property_ok t d l s name :
  at_node m fdt t d l → c_name m s name →
  fdt_get_property m fdt (node_off t) s =
  Ok (match find_prop (node_props t) name with
      | Some p => (fdt + strct + p, prop_len p)
      | None => (0, - FDT_ERR_NOTFOUND)
      end).
Proof using Hbl Hv Hw Htop.
  intros Ht (Hs & Hs0 & Hst & Hlen). unfold fdt_get_property, fdt_get_property_namelen, fdt_version.
  rewrite (strlen_ok m s name Hs) by (apply Hbl || done || lia). cbn [mbind res_bind].
  rewrite s32_small by (unfold is_s32; lia).
  rewrite (proj1 (header_eq m fdt Hbl 20 ltac:(lia))). cbn [mbind res_bind].
  destruct (Z.ltb_spec (hdr m fdt 20) 16); [lia|].
  rewrite (property_namelen_ok t d l) by (apply Hs || done || lia). cbn [mbind res_bind].
  by destruct (find_prop _ _).
Qed.

Lemma getprop_ok t d l s name :
  at_node m fdt t d l → c_name m s name →
  fdt_getprop m fdt (node_off t) s =
  Ok (match find_prop (node_props t) name with
      | Some p => (prop_value p, prop_len p)
      | None => (0, - FDT_ERR_NOTFOUND)
      end).
Proof using Hbl Hv Hw Htop.
  intros Ht (Hs & Hs0 & Hst & Hlen). unfold fdt_getprop.
  rewrite (strlen_ok m s name Hs) by (apply Hbl || done || lia). cbn [mbind res_bind].
  rewrite s32_small by (unfold is_s32; lia).
  eapply getprop_namelen_ok; [done|apply Hs|done|lia].
Qed.
End properties.

(* ------------------------------------------------------------------ *)
(** * Node names *)

(** [s] as [fdt_nodename_eq_] understands it: the whole name, or, if [s] has no unit
    address, the name up to its ['@']. *)
Definition name_matches (s cs : list Z) : bool :=
  bool_decide (take (length s) cs = s) &&
  match cs !! length s with
  | None => true
  | Some c => bool_decide (c = 64) && negb (bool_decide (64 ∈ s))
  end.

Lemma memchr_at m ch bs s :
  bytes_at m s bs → 0 < s → s + Z.of_nat (length bs) < 2 ^ 32 →
  ∃ r, memchr s ch (Z.of_nat (length bs)) m = Ok r ∧ (r = 0 ↔ ch ∉ bs).
Proof.
  unfold memchr. rewrite Nat2Z.id. revert s.
  induction bs as [|b bs IH]; intros s Hb Hs Ht; cbn [length memchr_from].
  { exists 0. split; [done|]. split; [|done]. intros _ Hin. by apply elem_of_nil in Hin. }
  apply bytes_at_cons in Hb as [Hb Hbs]. rewrite length_cons in Ht.
  rewrite (load8_ok _ _ _ Hb). cbn [mbind res_bind]. destruct (Z.eqb_spec b ch) as [->|Hne].
  - exists s. split; [done|]. split; [lia|]. intros Hn. destruct Hn. by left.
  - rewrite u32_small by (unfold is_u32; lia). destruct (IH (s + 1)) as (r & -> & Hmem); [done|lia|lia|].
    exists r. split; [done|]. rewrite Hmem, not_elem_of_cons. split; [|tauto].
    intros Hin. split; [congruence|done].
Qed.

(** Backed memory holds some bytes. *)
Lemma mapped_bytes m a n :
  mapped m a (Z.of_nat n) → ∃ bs, bytes_at m a bs ∧ length bs = n.
Proof.
  revert a. induction n as [|n IH]; intros a Hm; [by exists []; split; [intros [|?] ?|]|].
  destruct (Hm a) as [b Hb]; [lia|]. destruct (IH (a + 1)) as (bs & Hbs & <-).
  { intros x Hx. apply Hm. lia. }
  exists (b :: bs). split; [by apply bytes_at_cons|done].
Qed.

(** The offset of the first of the nodes [ts] that satisfy [f]. *)
Definition first_off (f : dnode → bool) (ts : list dnode) : Z :=
  match filter f ts with
  | c :: _ => node_off c
  | [] => - FDT_ERR_NOTFOUND
  end.

Lemma first_off_cons f c ts : first_off f (c :: ts) = if f c then node_off c else first_off f ts.
Proof. unfold first_off. rewrite filter_cons. by destruct (decide _) as [Hm|Hm], (f c). Qed.

Section names.
Context (m : mem) (fdt : Z).

#[local] Abbreviation total := (hdr m fdt 4).

Definition node_name (off : Z) : list Z :=
  match ('(p, len) ← fdt_get_name m fdt off; read_bytes (Z.to_nat len) p m) with
  | Ok cs => cs
  | _ => []
  end.

Context (Hr : readable_tree m fdt) (Hval : valid_tree m fdt).

Lemma names_blob : blob m fdt.
Proof using Hr Hval. apply readable_blob; [done|apply Hval]. Qed.

Lemma get_name_at off next :
  valid_offset off → tag_at m fdt off FDT_BEGIN_NODE next →
  ∃ p, fdt_get_name m fdt off = Ok (p, Z.of_nat (length (node_name off))) ∧
    cstr_at m p (node_name off) ∧ fdt < p ∧ p + Z.of_nat (length (node_name off)) < fdt + total.
Proof using Hr Hval.
  intros Hv [Ht Hn]. pose proof names_blob as Hbl. pose proof Hr as (_ & Hw & _ & _ & _ & _ & Htt & Hver).
  destruct (get_name_ok m fdt Hbl off) as (p & len & He & Hp); [|done..|].
  { destruct Hv as (? & ? & ?). unfold is_s32. lia. }
  destruct Hp as [[-> Hneg]|(cs & Hcs & -> & Hge & Hle)].
  - exfalso. unfold fdt_get_name in He. unfold fdt_offset_ptr_, fdt_off_dt_struct in He.
    rewrite (proj1 (header_eq m fdt Hbl 8 ltac:(lia))) in He. cbn [mbind res_bind] in He.
    rewrite (valid_probe m fdt Hr Hval) in He. cbn [mbind res_bind] in He.
    destruct (header_eq m fdt Hbl 4 ltac:(lia)) as [_ Hu]. unfold is_u32 in Hu.
    destruct (Z.ltb_spec total 0); [lia|]. unfold fdt_check_node_offset_, FDT_TAGSIZE in He.
    pose proof Hv as (Ho0 & Ho4 & _). destruct (Z.ltb_spec off 0); [lia|]. rewrite Ho4 in He.
    cbn [Z.eqb negb orb] in He. rewrite Ht in He. cbn [mbind res_bind] in He.
    rewrite Z.eqb_refl in He. cbn [negb] in He. destruct (Z.ltb_spec next 0); [lia|].
    unfold fdt_version in He. rewrite (proj1 (header_eq m fdt Hbl 20 ltac:(lia))) in He.
    cbn [mbind res_bind] in He. destruct (Z.ltb_spec (hdr m fdt 20) 16); [lia|].
    cbn [mbind res_bind] in He. destruct (u32 _ =? 0) eqn:Ez.
    { pose proof (next_tag_valid m fdt Hbl off Hv) as Htr. rewrite Ht in Htr.
      destruct Htr as [(? & _)|(_ & _ & _ & _ & _ & Hin & _)]; [lia|].
      destruct (struct_word_ok m fdt Hbl off Hv Hin) as [Hadr _]. rewrite Hadr in Ez.
      destruct (bl_addr _ _ Hbl), (header_eq m fdt Hbl 8 ltac:(lia)) as [_ ?]. unfold is_u32 in *.
      rewrite u32_small in Ez by (unfold is_u32; lia). lia. }
    destruct (strlen _ m); cbn [mbind res_bind] in He; [|done..]. injection He as He _.
    by rewrite He in Ez.
  - assert (node_name off = cs) as ->.
    { unfold node_name. rewrite He. cbn [mbind res_bind]. rewrite Nat2Z.id.
      destruct (bl_addr _ _ Hbl). by rewrite (read_bytes_ok p cs) by (apply Hcs || lia). }
    by exists p.
Qed.

Lemma nodename_eq_ok off next s name :
  valid_offset off → tag_at m fdt off FDT_BEGIN_NODE next →
  bytes_at m s name → 0 < s → s + Z.of_nat (length name) < 2 ^ 32 →
  fdt_nodename_eq_ m fdt off s (Z.of_nat (length name)) = Ok (name_matches name (node_name off)).
Proof using Hr Hval.
  intros Hv Ht Hs Hs0 Hst. destruct (get_name_at off next Hv Ht) as (p & He & Hcs & Hge & Hle).
  set (cs := node_name off) in *. pose proof Hr as (_ & _ & Hf & _ & _ & _ & Htt & _).
  unfold fdt_nodename_eq_. rewrite He. cbn [mbind res_bind]. destruct (Z.eqb_spec p 0); [lia|]. cbn [orb].
  unfold name_matches.
  destruct (Z.ltb_spec (Z.of_nat (length cs)) (Z.of_nat (length name))).
  { rewrite bool_decide_eq_false_2; [done|]. intros E. apply (f_equal length) in E.
    rewrite length_take in E. lia. }
  destruct Hcs as (Hbs & Hnz & Hnul).
  assert (bytes_at m p (take (length name) cs)) as Hpre.
  { intros i b Hi. apply Hbs. rewrite lookup_take_Some in Hi. tauto. }
  destruct (memcmp_ok m p s (Z.of_nat (length name)) (take (length name) cs) name) as (r & -> & Hreq & _);
    [done|done|rewrite length_take; lia|done|lia..|].
  cbn [mbind res_bind]. destruct (Z.eqb_spec r 0) as [Hz|Hnz']; cbn [negb].
  2: { rewrite bool_decide_eq_false_2; [done|]. by rewrite <- Hreq. }
  rewrite (bool_decide_eq_true_2 (take _ _ = _)) by (by apply Hreq). cbn [andb].
  rewrite u32_small by (unfold is_u32; lia).
  destruct (cs !! length name) as [c|] eqn:Ec.
  - rewrite (load8_ok m _ c) by (by apply Hbs). cbn [mbind res_bind].
    rewrite Forall_forall in Hnz. assert (c ≠ 0) by (apply Hnz; by eapply list_elem_of_lookup_2).
    destruct (Z.eqb_spec c 0); [done|].
    destruct (memchr_at m 64 name s) as (a & -> & Ha); [done..|]. cbn [mbind res_bind].
    f_equal. rewrite andb_comm. destruct (Z.eqb_spec c 64), (Z.eqb_spec a 0); cbn [andb negb];
      rewrite ?(bool_decide_eq_true_2 (c = 64)), ?(bool_decide_eq_false_2 (c = 64)) by done; cbn [andb];
      try done; repeat case_bool_decide; (done || tauto).
  - apply lookup_ge_None_1 in Ec. assert (length name = length cs) as -> by lia.
    by rewrite (load8_ok m _ 0).
Qed.
(* ------------------------------------------------------------------ *)
(** * Subnodes *)

(** The nodes of [l] one level below depth [d], up to the first that is not below. *)
Fixpoint within (d : Z) (l : list (dnode * Z)) : list dnode :=
  match l with
  | [] => []
  | (t, e) :: l' =>
      if decide (d < e) then if decide (e = d + 1) then t :: within d l' else within d l' else []
  end.

Lemma within_deep d l1 l2 :
  Forall (λ ue, d + 2 <= ue.2) l1 → within d (l1 ++ l2) = within d l2.
Proof.
  induction 1 as [|[t e] l1 He _ IH]; [done|]. cbn in *. rewrite decide_True by lia.
  by rewrite decide_False by lia.
Qed.

Lemma within_subs d ts l : within d (flat_map (tree_nodes (d + 1)) ts ++ l) = ts ++ within d l.
Proof.
  induction ts as [|[off props subs] ts IH]; [done|]. cbn [flat_map tree_nodes].
  rewrite <- !app_assoc. cbn [app within]. rewrite decide_True, decide_True by lia.
  rewrite within_deep; [by rewrite IH|].
  replace (d + 1 + 1) with (d + 2) by lia. apply preorders_depth.
Qed.

Lemma within_to_visit t pending :
  within (Z.of_nat (length pending)) (to_visit (node_subs t :: pending)) = node_subs t.
Proof.
  cbn [to_visit]. rewrite within_subs.
  destruct (to_visit pending) as [|[u e] l] eqn:E; cbn [within]; [apply app_nil_r|].
  apply to_visit_depth in E. rewrite decide_False by lia. apply app_nil_r.
Qed.

Lemma at_node_subs t d l : at_node m fdt t d l → within d l = node_subs t ∧ 0 <= d.
Proof. intros (? & pending & _ & _ & _ & _ & -> & ->). split; [apply within_to_visit|lia]. Qed.

Lemma at_node_tag t d l :
  at_node m fdt t d l → valid_offset (node_off t) ∧ node_off t < total ∧
    ∃ next, tag_at m fdt (node_off t) FDT_BEGIN_NODE next.
Proof using Hr Hval.
  intros (next & _ & Hv & Ht & _). split; [done|]. split; [|by exists next].
  pose proof names_blob as Hbl. pose proof (next_tag_valid m fdt Hbl _ Hv) as Hres.
  rewrite (proj1 Ht) in Hres. destruct Hres as [(? & _)|(_ & ? & _ & ? & _)]; [|lia].
  destruct Ht. lia.
Qed.

(** The first of the nodes [ts] whose name matches. *)
Definition first_named (name : list Z) : list dnode → Z :=
  first_off (λ c, name_matches name (node_name (node_off c))).

(** [fdt_subnode_offset_namelen]: the first subnode whose name matches. *)
Lemma subnode_ok t d l s name :
  at_node m fdt t d l → bytes_at m s name → 0 < s → s + Z.of_nat (length name) < 2 ^ 32 →
  fdt_subnode_offset_namelen m fdt (node_off t) s (Z.of_nat (length name)) =
  Ok (first_named name (node_subs t)).
Proof using Hr Hval.
  intros Ht Hs Hs0 Hst. pose proof names_blob as Hbl.
  unfold fdt_subnode_offset_namelen, FDT_RO_PROBE. rewrite (valid_probe m fdt Hr Hval).
  destruct (header_eq m fdt Hbl 4 ltac:(lia)) as [_ Hu]. unfold is_u32 in Hu. cbn [mbind res_bind].
  destruct (Z.ltb_spec total 0); [lia|]. rewrite tree_fuel_eq by done. apply yields_eq.
  destruct (at_node_tag _ _ _ Ht) as ((Ht0 & _) & Htt & _).
  apply (loop_yields
    (λ '(o, r), (r < 0 ∧ 0 <= o ∧ first_named name (node_subs t) = - FDT_ERR_NOTFOUND) ∨
       ∃ u l', at_node m fdt u (d + r) l' ∧ o = node_off u ∧ 0 <= r ∧
         first_named name (node_subs t) = first_named name ((if decide (r = 1) then [u] else []) ++ within d l'))
    (λ '(o, r), if r <? 0 then 0%nat else S (Z.to_nat (total - o)))).
  3: { change (S (Z.to_nat (total - node_off t)) < S (S (Z.to_nat total)))%nat. lia. }
  2: { right. exists t, l. rewrite Z.add_0_r. split_and!; [done|done|lia|].
       by rewrite decide_False, (proj1 (at_node_subs _ _ _ Ht)) by lia. }
  intros [o r] [(Hneg & Ho & Hres)|(u & l' & Hu' & -> & Hr0 & Hres)].
  { destruct (Z.leb_spec 0 o), (Z.leb_spec 0 r); try lia. cbn [andb].
    destruct (Z.ltb_spec r 0); [|lia]. by rewrite Hres. }
  destruct (at_node_tag _ _ _ Hu') as (Hvu & Hlt & next & Hnext).
  destruct (Z.leb_spec 0 (node_off u)), (Z.leb_spec 0 r); try (destruct Hvu; lia). cbn [andb].
  (* whether this node is the one *)
  assert ((if r =? 1 then fdt_nodename_eq_ m fdt (node_off u) s (Z.of_nat (length name)) else Ok false)
    = Ok (bool_decide (r = 1) && name_matches name (node_name (node_off u)))) as ->.
  { destruct (Z.eqb_spec r 1); [|by rewrite bool_decide_eq_false_2].
    rewrite bool_decide_eq_true_2 by done. by apply (nodename_eq_ok _ next). }
  cbn [mbind res_bind].
  destruct (bool_decide (r = 1) && name_matches name (node_name (node_off u))) eqn:Em.
  { apply andb_true_iff in Em as [->%bool_decide_eq_true Hm]. cbn [yields]. rewrite Hres.
    rewrite decide_True by done. cbn [app]. unfold first_named. by rewrite first_off_cons, Hm. }
  assert (first_named name (node_subs t) = first_named name (within d l')) as Hrest.
  { rewrite Hres. destruct (decide (r = 1)) as [E|E]; [|done]. cbn [app].
    rewrite bool_decide_eq_true_2 in Em by done. cbn [andb] in Em.
    unfold first_named. by rewrite first_off_cons, Em. }
  destruct (at_node_step m fdt Hbl _ _ _ Hu') as (next' & Hstep & Hwalk & Hlt'). rewrite Hstep.
  destruct l' as [|[v e] l'']; cbn [walks_to] in Hwalk.
  - destruct Hwalk as [_ Hw]. destruct (Hw r) as (a & -> & Ha);
      [pose proof (proj2 (at_node_subs _ _ _ Ht)); lia|]. cbn [mbind res_bind yields default].
    split; [left; split_and!; [done|done|by rewrite Hrest]|].
    destruct (Z.ltb_spec r 0); [lia|]. apply Nat.lt_0_succ.
  - destruct Hwalk as (_ & Hle & Hv & Hw).
    specialize (Hw r ltac:(pose proof (proj2 (at_node_subs _ _ _ Ht)); lia)).
    destruct (decide (d + r + 1 <= r + e)) as [Hd|Hd].
    + rewrite Hw. cbn [mbind res_bind yields default]. unfold id.
      replace (r + 1 + e - (d + r + 1)) with (e - d) by lia. split.
      * right. exists v, l''. replace (d + (e - d)) with e by lia. split_and!; [done|done|lia|].
        rewrite Hrest. cbn [within]. rewrite decide_True by lia.
        destruct (decide (e = d + 1)), (decide (e - d = 1)); try lia; done.
      * destruct (Z.ltb_spec (e - d) 0), (Z.ltb_spec r 0); lia.
    + destruct Hw as (a & -> & Ha). cbn [mbind res_bind yields default]. split.
      * left. split_and!; [done|done|]. rewrite Hrest. cbn [within]. by rewrite decide_False by lia.
      * destruct (Z.ltb_spec r 0); [lia|]. apply Nat.lt_0_succ.
Qed.
(** Nothing that is left behind a node lies within it. *)
Lemma within_outside pending : within (Z.of_nat (length pending)) (to_visit pending) = [].
Proof.
  destruct (to_visit pending) as [|[u e] l] eqn:E; cbn [within]; [done|].
  apply to_visit_depth in E. by rewrite decide_False by lia.
Qed.

(** A subnode is a stop of the walk, and its next siblings lie behind it. *)
Lemma sibling t d l d1 u d2 :
  at_node m fdt t d l → node_subs t = d1 ++ u :: d2 → ∃ l', at_node m fdt u (d + 1) l' ∧ within d l' = d2.
Proof using Hr Hval.
  intros Ht Es. pose proof Ht as (_ & pending & _ & _ & _ & _ & Ed & El). destruct u as [off props subs].
  exists (flat_map (tree_nodes (d + 2)) subs ++ flat_map (tree_nodes (d + 1)) d2 ++ to_visit pending). split.
  - apply (at_nth_from m fdt t d l (S (length (flat_map (tree_nodes (d + 1)) d1))) (Node off props subs) (d + 1) names_blob) in Ht as Hu.
    2: { subst l. cbn [to_visit lookup list_lookup]. rewrite Es, flat_map_app, <- app_assoc, <- Ed.
         cbn [flat_map tree_nodes app]. by apply list_lookup_middle. }
    revert Hu. subst l. cbn [to_visit]. rewrite Es, flat_map_app, <- app_assoc, <- Ed.
    rewrite drop_app_ge, Nat.sub_succ_l, Nat.sub_diag by lia. cbn [flat_map tree_nodes app drop].
    by rewrite <- app_assoc, <- Z.add_assoc.
  - rewrite within_deep by apply preorders_depth. rewrite within_subs. subst d.
    by rewrite within_outside, app_nil_r.
Qed.

Definition first_of (ts : list dnode) : Z := from_option node_off (- FDT_ERR_NOTFOUND) (head ts).

(** [fdt_first_subnode] and [fdt_next_subnode]: the subnodes of a node, one by one. *)
Lemma first_subnode_ok t d l :
  at_node m fdt t d l → fdt_first_subnode m fdt (node_off t) = Ok (first_of (node_subs t)).
Proof using Hr Hval.
  intros Ht. pose proof Ht as (_ & pending & _ & _ & _ & _ & Ed & El).
  destruct (at_node_subs _ _ _ Ht) as [<- Hd]. destruct (at_node_step m fdt names_blob _ _ _ Ht) as (next & Hstep & Hw & _).
  unfold fdt_first_subnode. rewrite Hstep. destruct l as [|[u e] l]; cbn [walks_to] in Hw.
  - destruct Hw as [_ Hw]. destruct (Hw 0 ltac:(lia)) as (a & -> & _). cbn [mbind res_bind].
    by rewrite orb_true_r.
  - destruct Hw as (_ & _ & Hu & Hw). specialize (Hw 0 ltac:(lia)). symmetry in El. apply to_visit_depth in El.
    cbn [length] in El. cbn [within]. destruct (decide (d < e)) as [Hlt|Hlt].
    + rewrite decide_True in Hw by lia. rewrite Hw, decide_True by lia. cbn [mbind res_bind head first_of from_option].
      destruct (at_node_tag _ _ _ Hu) as ((? & _) & _). rewrite bool_decide_eq_true_2 by (f_equal; lia).
      by destruct (Z.ltb_spec (node_off u) 0); [lia|].
    + rewrite decide_False in Hw by lia. destruct Hw as (a & -> & _). cbn [mbind res_bind]. by rewrite orb_true_r.
Qed.

Lemma next_subnode_ok u d l :
  at_node m fdt u (d + 1) l → 0 <= d → fdt_next_subnode m fdt (node_off u) = Ok (first_of (within d l)).
Proof using Hr Hval.
  intros Hu Hd. pose proof names_blob as Hbl. destruct (header_eq m fdt Hbl 4 ltac:(lia)) as [_ Hu4]. unfold is_u32 in Hu4.
  unfold fdt_next_subnode. rewrite tree_fuel_eq by done. apply yields_eq.
  apply (loop_yields
    (λ '(o, r), ∃ v l', o = node_off v ∧ at_node m fdt v (d + r) l' ∧ 1 <= r ∧ within d l' = within d l)
    (λ '(o, _), Z.to_nat (total - o))).
  3: { destruct (at_node_tag _ _ _ Hu) as ((? & _) & _). lia. }
  2: { by exists u, l. }
  intros [o r] (v & l' & -> & Hv & Hr1 & <-). destruct (at_node_tag _ _ _ Hv) as ((? & _) & ? & _).
  destruct (at_node_step m fdt Hbl _ _ _ Hv) as (next & Hstep & Hw & Hn). rewrite Hstep.
  destruct l' as [|[w e] l']; cbn [walks_to] in Hw.
  - destruct Hw as [_ Hw]. destruct (Hw r ltac:(lia)) as (a & -> & _). cbn [mbind res_bind default]. unfold id.
    rewrite orb_true_r. done.
  - destruct Hw as (_ & Hle & Hw' & Hw). specialize (Hw r ltac:(lia)). cbn [within]. destruct (decide (d < e)) as [Hlt|Hlt].
    + rewrite decide_True in Hw by lia. rewrite Hw. cbn [mbind res_bind default]. unfold id.
      replace (r + 1 + e - (d + r + 1)) with (e - d) by lia.
      destruct (Z.ltb_spec (node_off w) 0), (Z.ltb_spec (e - d) 1); try lia. cbn [orb].
      destruct (decide (e = d + 1)), (Z.ltb_spec 1 (e - d)); try lia; cbn [yields]; [done|].
      split; [|lia]. exists w, l'. replace (d + (e - d)) with e by lia. by split_and!; [..|lia|].
    + rewrite decide_False in Hw by lia. destruct Hw as (a & -> & _). cbn [mbind res_bind default]. unfold id.
      by rewrite orb_true_r.
Qed.

(* ------------------------------------------------------------------ *)
(** * Searches *)

(** A walk started at [startoffset] comes to the nodes [l]. *)
Definition comes_to (startoffset : Z) (l : list (dnode * Z)) : Prop :=
  match l with
  | [] => fdt_next_node m fdt startoffset None = Ok (- FDT_ERR_NOTFOUND, None)
  | (u, e) :: l' => fdt_next_node m fdt startoffset None = Ok (node_off u, None) ∧ at_node m fdt u e l'
  end.

Lemma comes_to_rest t d l : at_node m fdt t d l → comes_to (node_off t) l.
Proof using Hr Hval.
  intros (next & Hstep & Hw & _)%(at_node_step m fdt names_blob). destruct l as [|[u e] l']; cbn in *.
  - rewrite Hstep. apply Hw.
  - rewrite Hstep. tauto.
Qed.

Lemma comes_to_all o :
  block_at m fdt 0 o → comes_to (-1) (from_option (tree_nodes 0) [] o).
Proof using Hr Hval.
  intros Hb. pose proof (block_walk m fdt names_blob 0 o Hb ltac:(by unfold valid_offset)) as Hw.
  destruct o as [[off props subs]|]; cbn in *; [tauto|done].
Qed.

Lemma search_nodes_ok f test startoffset l :
  comes_to startoffset l →
  (∀ u e l', (u, e) ∈ l → at_node m fdt u e l' →
     test (node_off u) = Ok (if f u : bool then Some (node_off u) else None)) →
  search_nodes m fdt startoffset test = Ok (first_off f (fst <$> l)).
Proof using Hr Hval.
  intros Hl Htest. pose proof names_blob as Hbl. unfold search_nodes.
  destruct (header_eq m fdt Hbl 4 ltac:(lia)) as [_ Hu]. unfold is_u32 in Hu.
  assert (∃ o, fdt_next_node m fdt startoffset None = Ok (o, None) ∧
    ((o = - FDT_ERR_NOTFOUND ∧ l = []) ∨ ∃ u e l', o = node_off u ∧ l = (u, e) :: l' ∧ at_node m fdt u e l'))
    as (o & -> & Ho).
  { destruct l as [|[u e] l']; cbn in Hl; [eexists; split; [done|by left]|].
    destruct Hl. eexists; split; [done|]. right. by exists u, e, l'. }
  cbn [mbind res_bind]. rewrite tree_fuel_eq by done. apply yields_eq.
  apply (loop_yields
    (λ o, (o < 0 ∧ first_off f (fst <$> l) = o) ∨ ∃ q u e l', l = q ++ (u, e) :: l' ∧ o = node_off u ∧ at_node m fdt u e l' ∧
       first_off f (fst <$> l) = first_off f (u :: (fst <$> l')))
    (λ o, if o <? 0 then 0%nat else S (Z.to_nat (total - o)))).
  - intros x [[Hx Heq]|(q & u & e & l' & El & -> & Hu' & Heq)].
    { destruct (Z.leb_spec 0 x); [lia|done]. }
    destruct (at_node_tag _ _ _ Hu') as (Hvu & Hlt & _).
    destruct (Z.leb_spec 0 (node_off u)); [|destruct Hvu; lia].
    rewrite (Htest u e l' ltac:(rewrite El; apply elem_of_app; right; left) Hu'). cbn [mbind res_bind]. rewrite first_off_cons in Heq.
    destruct (f u); [done|].
    pose proof (comes_to_rest _ _ _ Hu') as Hn. destruct l' as [|[v e'] l'']; cbn in Hn.
    + rewrite Hn. cbn [mbind res_bind yields]. split; [by left|].
      destruct (Z.ltb_spec (node_off u) 0); [lia|]. apply Nat.lt_0_succ.
    + destruct Hn as [Hn Hv]. rewrite Hn. cbn [mbind res_bind yields].
      split; [right; exists (q ++ [(u, e)]), v, e', l''; by rewrite <- app_assoc|].
      destruct (at_node_next m fdt Hbl _ _ _ _ _ Hu') as [_ Hlt'].
      destruct (Z.ltb_spec (node_off v) 0), (Z.ltb_spec (node_off u) 0); lia.
  - destruct Ho as [[-> ->]|(u & e & l' & -> & -> & Hu')]; [by left|]. right. by exists [], u, e, l'.
  - destruct Ho as [[-> ->]|(u & e & l' & -> & -> & Hu')]; [apply Nat.lt_0_succ|].
    destruct (at_node_tag _ _ _ Hu') as ((? & _) & _). destruct (Z.ltb_spec (node_off u) 0); lia.
Qed.

(** The bytes of a property's value, and the nodes with a given one. *)
Definition prop_bytes (p : Z) : list Z :=
  match read_bytes (Z.to_nat (prop_len m fdt p)) (prop_value m fdt p) m with Ok bs => bs | _ => [] end.

(** The property that a lookup finds, and its value. *)
Lemma found_before t d l name p :
  at_node m fdt t d l → find_prop m fdt (node_props t) name = Some p → ∃ rest, prop_before m fdt p rest.
Proof using Hr Hval.
  intros (next & _ & Hvt & Htag & Hps & _) Ef. pose proof names_blob as Hbl.
  destruct (tag_at_valid m fdt Hbl _ _ _ Hvt Htag) as [Hvn _]. apply (props_before m fdt Hbl _ _ _ Hps Hvn).
  apply (list_elem_of_filter (λ q, prop_name m fdt q = name)). by apply head_Some_elem_of.
Qed.

Lemma found_value t d l name p :
  at_node m fdt t d l → find_prop m fdt (node_props t) name = Some p →
  bytes_at m (prop_value m fdt p) (prop_bytes p) ∧ Z.of_nat (length (prop_bytes p)) = prop_len m fdt p ∧
  0 < fdt <= prop_value m fdt p ∧ prop_value m fdt p + prop_len m fdt p <= fdt + hdr m fdt 4.
Proof using Hr Hval.
  intros Ht Ef. pose proof names_blob as Hbl. pose proof Hr as (_ & Hw & Hf & _ & _ & Hmap & Htt & Hver).
  destruct (found_before _ _ _ _ _ Ht Ef) as [rest Hp].
  destruct (prop_found m fdt Hbl Htt p rest Hp) as (_ & Hl0 & Hs0' & Hle & _).
  destruct Hp as ((Hp0 & _) & _). unfold prop_bytes, prop_value.
  destruct (mapped_bytes m (fdt + hdr m fdt 8 + p + 12) (Z.to_nat (prop_len m fdt p))) as (bs & Hbs & Hlen).
  { intros x Hx. apply Hmap. lia. }
  rewrite <- Hlen, (read_bytes_ok _ bs) by (done || lia). split; [done|]. lia.
Qed.

(** The first word of a value. *)
Definition value_word (p : Z) : Z := match fdt32_ld_ m (prop_value m fdt p) with Ok v => v | _ => 0 end.

Lemma found_word t d l name p :
  at_node m fdt t d l → find_prop m fdt (node_props t) name = Some p → 4 <= prop_len m fdt p →
  fdt32_ld_ m (prop_value m fdt p) = Ok (value_word p) ∧ prop_value m fdt p mod 4 = 0.
Proof using Hr Hval.
  intros Ht Ef Hl. pose proof names_blob as Hbl. destruct (found_value _ _ _ _ _ Ht Ef) as (_ & _ & ? & ?).
  destruct (found_before _ _ _ _ _ Ht Ef) as [rest ((Hp0 & Hp4 & _) & _)].
  destruct (bl_addr _ _ Hbl) as [_ H8], (bl_struct _ _ Hbl) as [H4 _], (bl_mapped _ _ Hbl) as [Hmap _].
  assert (prop_value m fdt p mod 4 = 0) as Hal by (unfold prop_value; Z.div_mod_to_equations; lia). split; [|done].
  destruct (fdt32_ld__ok m (prop_value m fdt p)) as (v & Hv & _); [apply Hbl|done|intros x Hx; apply Hmap; lia|].
  unfold value_word. by rewrite Hv.
Qed.

Definition has_value (name val : list Z) (t : dnode) : bool :=
  match find_prop m fdt (node_props t) name with
  | Some p => bool_decide (prop_bytes p = val)
  | None => false
  end.

(** [fdt_node_offset_by_prop_value]: the first node with that value. *)
Lemma node_offset_by_prop_value_ok startoffset l s name v val :
  comes_to startoffset l → c_name m s name →
  bytes_at m v val → 0 < v → v + Z.of_nat (length val) < 2 ^ 32 →
  fdt_node_offset_by_prop_value m fdt startoffset s v (Z.of_nat (length val)) =
  Ok (first_off (has_value name val) (fst <$> l)).
Proof using Hr Hval.
  intros Hl Hs Hv Hv0 Hvt. pose proof names_blob as Hbl.
  pose proof Hr as (_ & Hw & Hf & _ & _ & Hmap & Htt & Hver).
  unfold fdt_node_offset_by_prop_value, FDT_RO_PROBE. rewrite (valid_probe m fdt Hr Hval).
  destruct (header_eq m fdt Hbl 4 ltac:(lia)) as [_ Hu]. unfold is_u32 in Hu. cbn [mbind res_bind].
  destruct (Z.ltb_spec total 0); [lia|]. apply (search_nodes_ok _ _ _ _ Hl).
  intros t d l' _ Ht. rewrite (getprop_ok m fdt Hbl Hver Hw Htt t d l' s name) by done.
  unfold has_value. destruct (find_prop m fdt (node_props t) name) as [p|] eqn:Ef; cbn [mbind res_bind]; [|done].
  destruct (found_value _ _ _ _ _ Ht Ef) as (Hbs & Hlen & Hp0 & Hle).
  destruct (Z.eqb_spec (prop_value m fdt p) 0); [lia|]. cbn [orb].
  destruct (Z.eqb_spec (prop_len m fdt p) (Z.of_nat (length val))) as [El|Hne]; cbn [negb].
  2: { rewrite bool_decide_eq_false_2; [done|]. intros E. by rewrite E in Hlen. }
  destruct (memcmp_ok m (prop_value m fdt p) v (prop_len m fdt p) (prop_bytes p) val) as (r & -> & Hreq & _);
    [done|done|lia..|].
  cbn [mbind res_bind]. destruct (Z.eqb_spec r 0) as [Hz|Hnz].
  - rewrite bool_decide_eq_true_2 by (by apply Hreq). done.
  - rewrite bool_decide_eq_false_2 by (by rewrite <- Hreq). done.
Qed.

(* ------------------------------------------------------------------ *)
(** * Parents *)

(** The last node of depth [sd] among those visited. *)
Definition note_at (sd : Z) (sup : Z) (ue : dnode * Z) : Z := if ue.2 =? sd then node_off ue.1 else sup.
Definition last_at (sd sup : Z) (visited : list (dnode * Z)) : Z := foldl (note_at sd) sup visited.

Lemma last_at_none sd sup l : Forall (λ ue, ue.2 ≠ sd) l → last_at sd sup l = sup.
Proof.
  intros Hl. revert sup. induction Hl as [|ue l Hue _ IH]; intros sup; [done|].
  unfold last_at in *. cbn [foldl]. rewrite IH. unfold note_at. by destruct (Z.eqb_spec ue.2 sd).
Qed.

Lemma to_visit_below pending : Forall (λ ue, 1 <= ue.2) (to_visit pending).
Proof.
  induction pending as [|ts rest IH]; [constructor|]. cbn [to_visit]. apply Forall_app. split; [|done].
  eapply Forall_impl; [apply preorders_depth|]. cbn. lia.
Qed.

Lemma at_node_below t d l : at_node m fdt t d l → Forall (λ ue, 1 <= ue.2) l.
Proof. intros (? & pending & _ & _ & _ & _ & _ & ->). apply to_visit_below. Qed.

(** The walk from the root to the node [c], which [q] precede. *)
Lemma supernode_ok root l q c dc post sd :
  at_node m fdt root 0 l → node_off root = 0 → (root, 0) :: l = q ++ (c, dc) :: post → 0 <= sd →
  fdt_supernode_atdepth_offset m fdt (node_off c) sd =
  Ok (if dc <? sd then - FDT_ERR_NOTFOUND else last_at sd (- FDT_ERR_INTERNAL) (q ++ [(c, dc)]), Some dc).
Proof using Hr Hval.
  intros Hroot Hr0 Hq Hsd. pose proof names_blob as Hbl.
  unfold fdt_supernode_atdepth_offset, FDT_RO_PROBE. rewrite (valid_probe m fdt Hr Hval).
  destruct (header_eq m fdt Hbl 4 ltac:(lia)) as [_ Hu]. unfold is_u32 in Hu. cbn [mbind res_bind].
  destruct (Z.ltb_spec total 0), (Z.ltb_spec sd 0); try lia. rewrite tree_fuel_eq by done. apply yields_eq.
  set (target := last_at sd (- FDT_ERR_INTERNAL) (q ++ [(c, dc)])).
  apply (loop_yields
    (λ '(o, d, sup), ∃ u l' q', o = node_off u ∧ at_node m fdt u d l' ∧
       (u, d) :: l' = q' ++ (c, dc) :: post ∧ last_at sd sup (q' ++ [(c, dc)]) = target)
    (λ '(o, _, _), Z.to_nat (total - o))).
  3: { rewrite <- Hr0. destruct (at_node_tag _ _ _ Hroot) as ((? & _) & _). lia. }
  2: { exists root, l, q. by rewrite Hr0. }
  intros [[o d] sup] (u & l' & q' & -> & Hu' & Hsplit & Htarget).
  destruct (at_node_tag _ _ _ Hu') as (Hvu & Hlt & _). destruct Hvu as (Hu0 & _).
  destruct (Z.leb_spec 0 (node_off u)); [|lia]. destruct q' as [|ud q'']; injection Hsplit as E1 E2.
  - subst u d l'. rewrite Z.leb_refl, Z.eqb_refl. cbn [andb yields].
    unfold last_at, note_at in Htarget. cbn [foldl app fst snd] in Htarget. by rewrite Htarget.
  - subst ud l'. pose proof (at_node_sorted m fdt Hbl _ _ _ Hu') as Hsorted.
    assert (node_off u < node_off c) as Huc.
    { rewrite Forall_forall in Hsorted. apply (Hsorted (c, dc)). apply elem_of_app. right. by left. }
    destruct (Z.leb_spec (node_off u) (node_off c)); [|lia]. cbn [andb].
    destruct (Z.eqb_spec (node_off u) (node_off c)); [lia|].
    pose proof (at_node_below _ _ _ Hu') as Hbelow. pose proof (proj2 (at_node_subs _ _ _ Hu')) as Hd0.
    destruct (at_node_step m fdt Hbl _ _ _ Hu') as (next & Hstep & Hwalk & Hnlt). rewrite Hstep.
    destruct (q'' ++ (c, dc) :: post) as [|[v ev] rest] eqn:Erest; [by destruct q''|].
    destruct Hwalk as (_ & Hle & Hv & Hw). specialize (Hw d ltac:(lia)).
    apply Forall_cons in Hbelow as [Hev _]. cbn [snd] in Hev. rewrite decide_True in Hw by lia.
    rewrite Hw. cbn [mbind res_bind yields default]. unfold id.
    replace (d + 1 + ev - (d + 1)) with ev by lia. split; [|lia].
    exists v, rest, q''. split_and!; [done|done|done|].
    rewrite <- Htarget. unfold last_at. cbn [foldl app]. reflexivity.
Qed.

Lemma root_depth root l : at_node m fdt root 0 l → ∀ q c dc post,
  (root, 0) :: l = q ++ (c, dc) :: post → node_off root = 0 → fdt_node_depth m fdt (node_off c) = Ok dc.
Proof using Hr Hval.
  intros Hroot q c dc post Hq Hr0. unfold fdt_node_depth.
  rewrite (supernode_ok root l q c dc post 0) by done. cbn [mbind res_bind].
  pose proof (at_node_below _ _ _ Hroot) as Hbelow. 
  assert (0 <= dc) as Hdc.
  { destruct q as [|x q]; [injection Hq; lia|]. injection Hq as _ Hq. rewrite Hq in Hbelow.
    apply Forall_app in Hbelow as [_ [? _]%Forall_cons]. cbn in *. lia. }
  destruct (Z.ltb_spec dc 0); [lia|].
  assert (last_at 0 (- FDT_ERR_INTERNAL) (q ++ [(c, dc)]) = 0) as ->; [|done].
  destruct q as [|x q].
  - injection Hq as -> <- _. exact Hr0.
  - injection Hq as <- Hq. unfold last_at. cbn [app foldl]. unfold note_at at 2. cbn [fst snd Z.eqb]. rewrite Hr0.
    apply last_at_none. rewrite Hq in Hbelow. apply Forall_app in Hbelow as [H1 [H2 _]%Forall_cons].
    cbn in H2. apply Forall_app. split; [|constructor; [cbn; lia|constructor]].
    eapply Forall_impl; [exact H1|]. cbn. lia.
Qed.

(** [fdt_parent_offset]: the node whose subnode it is; the root has no parent. *)
Lemma parent_ok root t d c :
  block_at m fdt 0 (Some root) → node_off root = 0 →
  (t, d) ∈ tree_nodes 0 root → c ∈ node_subs t →
  fdt_parent_offset m fdt (node_off c) = Ok (node_off t) ∧
  fdt_parent_offset m fdt 0 = Ok (- FDT_ERR_NOTFOUND).
Proof using Hr Hval.
  intros Hb Hr0 Ht Hc. pose proof names_blob as Hbl.
  destruct (block_walk m fdt Hbl 0 _ Hb ltac:(by unfold valid_offset)) as (_ & _ & Hroot).
  set (l := flat_map (tree_nodes 1) (node_subs root)) in *.
  assert (tree_nodes 0 root = (root, 0) :: l) as Eroot by (by destruct root). split.
  - destruct (preorder_segment _ _ _ _ Ht) as (p1 & p2 & Eseg).
    apply list_elem_of_split in Hc as (s1 & s2 & Esubs).
    assert (∃ post, (root, 0) :: l =
      (p1 ++ (t, d) :: flat_map (tree_nodes (d + 1)) s1) ++ (c, d + 1) :: post) as [post Eq].
    { destruct t as [ot pt st], c as [oc pc sc]. cbn [node_subs] in Esubs. subst st.
      rewrite <- Eroot, Eseg. cbn [tree_nodes]. rewrite flat_map_app. cbn [flat_map tree_nodes].
      eexists. rewrite <- !app_assoc. cbn [app]. rewrite <- !app_assoc. cbn [app]. reflexivity. }
    unfold fdt_parent_offset. rewrite (root_depth root l Hroot _ _ _ _ Eq Hr0). cbn [mbind res_bind].
    assert (0 <= d) as Hd0.
    { pose proof (preorder_depth root 0) as Hdep. rewrite Forall_forall in Hdep. apply (Hdep _ Ht). }
    destruct (Z.ltb_spec (d + 1) 0); [lia|]. replace (d + 1 - 1) with d by lia.
    rewrite (supernode_ok root l _ c (d + 1) post d Hroot Hr0 Eq Hd0). cbn [mbind res_bind].
    destruct (Z.ltb_spec (d + 1) d); [lia|]. do 2 f_equal. unfold last_at. rewrite <- app_assoc, foldl_app.
    cbn [app foldl]. unfold note_at at 2. cbn [fst snd]. rewrite Z.eqb_refl. apply last_at_none.
    apply Forall_app. split; [|constructor; [cbn; lia|constructor]].
    eapply Forall_impl; [apply preorders_depth|]. cbn. lia.
  - unfold fdt_parent_offset. pose proof (root_depth root l Hroot [] root 0 l eq_refl Hr0) as Hdep.
    rewrite Hr0 in Hdep. rewrite Hdep. cbn [mbind res_bind].
    unfold fdt_supernode_atdepth_offset, FDT_RO_PROBE. rewrite (valid_probe m fdt Hr Hval).
    destruct (header_eq m fdt Hbl 4 ltac:(lia)) as [_ Hu]. unfold is_u32 in Hu. cbn [mbind res_bind].
    by destruct (Z.ltb_spec total 0); [lia|].
Qed.

(** Where the root is not at offset 0 (FDT_NOP or properties come before it), the walk
    ends at once. *)
Lemma supernode_misplaced root o sd :
  block_at m fdt 0 (Some root) → node_off root ≠ 0 → 0 < o → 0 <= sd →
  fdt_supernode_atdepth_offset m fdt o sd = Ok (- FDT_ERR_BADSTRUCTURE, None).
Proof using Hr Hval.
  intros Hb Hr0 Ho Hsd. pose proof names_blob as Hbl.
  unfold fdt_supernode_atdepth_offset, FDT_RO_PROBE. rewrite (valid_probe m fdt Hr Hval).
  destruct (header_eq m fdt Hbl 4 ltac:(lia)) as [_ Hu]. unfold is_u32 in Hu. cbn [mbind res_bind].
  destruct (Z.ltb_spec total 0), (Z.ltb_spec sd 0); try lia. rewrite tree_fuel_eq by done.
  assert (fdt_next_node m fdt 0 (Some 0) = Ok (- FDT_ERR_BADOFFSET, Some 0)) as Hn.
  { unfold fdt_next_node, fdt_check_node_offset_. cbn [Z.leb Z.ltb Z.compare orb].
    change (negb (0 mod FDT_TAGSIZE =? 0)) with false. cbv iota.
    assert (∃ t next, tag_at m fdt 0 t next ∧ t ≠ FDT_BEGIN_NODE) as (t & next & [-> _] & Ht).
    { inversion Hb; subst; [by do 2 eexists..|by destruct Hr0]. }
    cbn [mbind res_bind]. by destruct (Z.eqb_spec t FDT_BEGIN_NODE). }
  cbn [loop]. destruct (Z.leb_spec 0 o); [|lia]. destruct (Z.eqb_spec 0 o); [lia|]. cbn [Z.leb Z.compare andb].
  rewrite Hn. reflexivity.
Qed.

Lemma tree_nodes_after root t d :
  block_at m fdt 0 (Some root) → node_off root ≠ 0 → (t, d) ∈ tree_nodes 0 root → 0 < node_off t.
Proof using Hr Hval.
  intros Hb Hr0 Hin. pose proof names_blob as Hbl.
  destruct (block_walk m fdt Hbl 0 _ Hb ltac:(by unfold valid_offset)) as (_ & _ & Hroot).
  destruct (at_node_tag _ _ _ Hroot) as ((? & _) & _).
  assert (tree_nodes 0 root = (root, 0) :: flat_map (tree_nodes 1) (node_subs root)) as E by (by destruct root).
  rewrite E in Hin. apply elem_of_cons in Hin as [[= -> ->]|Hin]; [lia|].
  pose proof (at_node_sorted m fdt Hbl _ _ _ Hroot) as Hs. rewrite Forall_forall in Hs. specialize (Hs _ Hin). cbn in Hs. lia.
Qed.

Lemma parent_misplaced root o :
  block_at m fdt 0 (Some root) → node_off root ≠ 0 → 0 < o →
  fdt_parent_offset m fdt o = Ok (- FDT_ERR_BADSTRUCTURE).
Proof using Hr Hval.
  intros Hb Hr0 Ho. unfold fdt_parent_offset, fdt_node_depth. by rewrite (supernode_misplaced root o 0 Hb Hr0 Ho).
Qed.

Lemma parent_root root : block_at m fdt 0 (Some root) → node_off root = 0 → fdt_parent_offset m fdt 0 = Ok (- FDT_ERR_NOTFOUND).
Proof using Hr Hval.
  intros Hb Hr0. pose proof names_blob as Hbl.
  destruct (block_walk m fdt Hbl 0 _ Hb ltac:(by unfold valid_offset)) as (_ & _ & Hroot).
  unfold fdt_parent_offset. pose proof (root_depth root _ Hroot [] root 0 _ eq_refl Hr0) as Hdep.
  rewrite Hr0 in Hdep. rewrite Hdep. cbn [mbind res_bind].
  unfold fdt_supernode_atdepth_offset, FDT_RO_PROBE. rewrite (valid_probe m fdt Hr Hval).
  destruct (header_eq m fdt Hbl 4 ltac:(lia)) as [_ Hu]. unfold is_u32 in Hu. cbn [mbind res_bind].
  by destruct (Z.ltb_spec total 0); [lia|].
Qed.
End names.

(* ------------------------------------------------------------------ *)
(** * Properties *)

Section lookups.
Context (m : mem) (fdt : Z) (root : dnode).
Context (Hr : readable_tree m fdt) (Hval : valid_tree m fdt) (Hb : block_at m fdt 0 (Some root)).

(** C15: [fdt_getprop] on a tree that [fdt_check_full] accepts finds, for every node
    of it and every name, the first property of the node that has this name, and
    gives the address of its value and its length, inside the tree; without one it
    gives a null pointer and [-FDT_ERR_NOTFOUND]. *)
Theorem fdt_getprop_spec t d s name :
  (t, d) ∈ tree_nodes 0 root → c_name m s name →
  fdt_getprop m fdt (node_off t) s =
    Ok (match find_prop m fdt (node_props t) name with
        | Some p => (prop_value m fdt p, prop_len m fdt p)
        | None => (0, - FDT_ERR_NOTFOUND)
        end) ∧
  ∀ p, find_prop m fdt (node_props t) name = Some p →
    p ∈ node_props t ∧ prop_name m fdt p = name ∧ fdt <= prop_value m fdt p ∧
    0 <= prop_len m fdt p ∧ prop_value m fdt p + prop_len m fdt p <= fdt + hdr m fdt 4.
Proof using Hr Hval Hb.
  intros Hin Hs. pose proof (names_blob m fdt Hr Hval) as Hbl.
  pose proof Hr as (_ & Hw & Hf & _ & _ & _ & Htt & Hver).
  destruct (at_tree_node m fdt root t d Hbl Hb Hin) as [l Ht].
  split; [by eapply getprop_ok|]. intros p Hp.
  apply head_Some_elem_of, list_elem_of_filter in Hp as [Hn Hp]. split; [done|]. split; [done|].
  destruct Ht as (next & _ & Hvt & Htag & Hps & _).
  destruct (tag_at_valid m fdt Hbl _ _ _ Hvt Htag) as [Hvn _].
  destruct (props_before m fdt Hbl _ _ _ Hps Hvn Hp) as [rest Hpb].
  destruct (prop_found m fdt Hbl Htt p rest Hpb) as (_ & ? & ? & ? & _).
  destruct Hpb as ((? & _) & _). unfold prop_value. lia.
Qed.

(** [fdt_subnode_offset] finds the first direct subnode whose name is the given
    one, or is it up to the unit address when the given name has none; it does not
    look deeper, and without one it gives [-FDT_ERR_NOTFOUND]. *)
Theorem fdt_subnode_offset_spec t d s name :
  (t, d) ∈ tree_nodes 0 root → c_name m s name →
  fdt_subnode_offset m fdt (node_off t) s =
  Ok (first_off (λ c, name_matches name (node_name m fdt (node_off c))) (node_subs t)).
Proof using Hr Hval Hb.
  intros Hin (Hs & Hs0 & Hst & Hlen). pose proof (names_blob m fdt Hr Hval) as Hbl.
  pose proof Hr as (_ & Hw & _).
  destruct (at_tree_node m fdt root t d Hbl Hb Hin) as [l Ht]. unfold fdt_subnode_offset.
  rewrite (strlen_ok m s name Hs) by (apply Hbl || done || lia). cbn [mbind res_bind].
  rewrite s32_small by (unfold is_s32; lia).
  apply (subnode_ok m fdt Hr Hval t d l); [done|apply Hs|done|lia].
Qed.

(** C16: [fdt_parent_offset] on an accepted tree of version 16 or later.  Where the root
    lies at offset 0 it inverts the subnode relation: for every node below the root it
    gives the one node that has it as a subnode, and for the root itself
    [-FDT_ERR_NOTFOUND].  Where something comes before the root (the check accepts
    FDT_NOP and properties there), it gives [-FDT_ERR_BADSTRUCTURE] for every node. *)
Theorem fdt_parent_offset_spec :
  if node_off root =? 0 then
    fdt_parent_offset m fdt 0 = Ok (- FDT_ERR_NOTFOUND) ∧
    ∀ t d c, (t, d) ∈ tree_nodes 0 root → c ∈ node_subs t → fdt_parent_offset m fdt (node_off c) = Ok (node_off t)
  else ∀ t d, (t, d) ∈ tree_nodes 0 root → fdt_parent_offset m fdt (node_off t) = Ok (- FDT_ERR_BADSTRUCTURE).
Proof using Hr Hval Hb.
  destruct (Z.eqb_spec (node_off root) 0) as [H0|Hne].
  - split; [by eapply parent_root|]. intros t d c Ht Hc. by eapply parent_ok.
  - intros t d Hin. apply (parent_misplaced m fdt Hr Hval root); [done..|].
    by eapply (tree_nodes_after m fdt Hr Hval).
Qed.

(** [fdt_node_offset_by_prop_value] started at -1 finds the first node in
    preorder whose property of the given name has exactly the given bytes as its
    value, and started at a node the first such node behind it. *)
Theorem fdt_node_offset_by_prop_value_spec s name v val :
  c_name m s name → bytes_at m v val → 0 < v → v + Z.of_nat (length val) < 2 ^ 32 →
  fdt_node_offset_by_prop_value m fdt (-1) s v (Z.of_nat (length val)) =
    Ok (first_off (has_value m fdt name val) (fst <$> tree_nodes 0 root)) ∧
  ∀ i t d, tree_nodes 0 root !! i = Some (t, d) →
    fdt_node_offset_by_prop_value m fdt (node_off t) s v (Z.of_nat (length val)) =
    Ok (first_off (has_value m fdt name val) (fst <$> drop (S i) (tree_nodes 0 root))).
Proof using Hr Hval Hb.
  intros Hs Hv Hv0 Hvt. pose proof (names_blob m fdt Hr Hval) as Hbl. split.
  - by apply (node_offset_by_prop_value_ok m fdt Hr Hval _ _ s name v val
      (comes_to_all m fdt Hr Hval _ Hb)).
  - intros i t d Hi. apply (node_offset_by_prop_value_ok m fdt Hr Hval _ _ s name v val); [|done..].
    eapply (comes_to_rest m fdt Hr Hval). by eapply at_nth_node.
Qed.
End lookups.

(* ------------------------------------------------------------------ *)
(** * The lookups on the sample tree *)

Definition ascii_reg : list Z := [114; 101; 103].
Definition ascii_device_type : list Z := [100; 101; 118; 105; 99; 101; 95; 116; 121; 112; 101].
Definition ascii_memory : list Z := [109; 101; 109; 111; 114; 121].

(** Literals of the kernel. *)
Lemma memory_bytes (m : mem) a bs :
  forallb (λ ib, bool_decide (m !! (a + Z.of_nat ib.1) = Some ib.2)) (imap pair bs) = true →
  bytes_at m a bs.
Proof.
  intros Hf i b Hi. rewrite forallb_forall in Hf.
  apply (bool_decide_unpack (m !! (a + Z.of_nat i) = Some b)).
  apply Is_true_true, (Hf (i, b)), list_elem_of_In, list_elem_of_lookup_2 with i.
  by rewrite list_lookup_imap, Hi.
Qed.

Lemma memory_string (m : mem) a bs :
  forallb (λ ib, bool_decide (m !! (a + Z.of_nat ib.1) = Some ib.2)) (imap pair (bs ++ [0])) = true →
  forallb (λ b, negb (b =? 0)) bs = true → 0 < a → a + Z.of_nat (length bs) + 4 < 2 ^ 31 →
  c_name m a bs.
Proof.
  intros Hf Hn Ha Ht. apply memory_bytes in Hf. split_and!; [|lia..]. split_and!.
  - intros i b Hi. apply Hf. by rewrite lookup_app_l by (by eapply lookup_lt_Some).
  - rewrite Forall_forall. intros b Hb%list_elem_of_In. rewrite forallb_forall in Hn.
    specialize (Hn b Hb). by destruct (Z.eqb_spec b 0).
  - apply (Hf (length bs)). rewrite lookup_app_r by lia. by rewrite Nat.sub_diag.
Qed.

Lemma fdt_getprop_spec_witness :
  fdt_getprop sample_tree_mem tree_addr 112 (@rodata qemu_literals "reg") = Ok (tree_addr + 56 + 172 + 12, 16).
Proof.
  destruct (fdt_getprop_spec sample_tree_mem tree_addr sample_root sample_readable sample_valid sample_block
    sample_clint 1 (@rodata qemu_literals "reg") ascii_reg) as [H _].
  - right. right. left.
  - apply memory_string; vm_compute; reflexivity.
  - refine (eq_trans H _). vm_compute. reflexivity.
Defined.

Lemma fdt_subnode_offset_spec_witness :
  fdt_subnode_offset sample_tree_mem tree_addr 0 (@rodata qemu_literals "memory") = Ok 40.
Proof.
  refine (eq_trans (fdt_subnode_offset_spec sample_tree_mem tree_addr sample_root sample_readable sample_valid
    sample_block sample_root 0 (@rodata qemu_literals "memory") ascii_memory _ _) _).
  - left.
  - apply memory_string; vm_compute; reflexivity.
  - vm_compute. reflexivity.
Defined.

Lemma fdt_parent_offset_spec_witness :
  fdt_parent_offset sample_tree_mem tree_addr 112 = Ok 0 ∧
  fdt_parent_offset sample_tree_mem tree_addr 0 = Ok (- FDT_ERR_NOTFOUND).
Proof.
  pose proof (fdt_parent_offset_spec sample_tree_mem tree_addr sample_root sample_readable sample_valid
    sample_block) as [H1 H2]. split; [|exact H1].
  apply (H2 sample_root 0 sample_clint); [left|right; left].
Defined.

Lemma fdt_node_offset_by_prop_value_spec_witness :
  fdt_node_offset_by_prop_value sample_tree_mem tree_addr (-1) (@rodata qemu_literals "device_type")
    (@rodata qemu_literals "memory") 7 = Ok 40.
Proof.
  destruct (fdt_node_offset_by_prop_value_spec sample_tree_mem tree_addr sample_root sample_readable
    sample_valid sample_block (@rodata qemu_literals "device_type") ascii_device_type
    (@rodata qemu_literals "memory") (ascii_memory ++ [0])) as [H _].
  - apply memory_string; vm_compute; reflexivity.
  - apply memory_bytes. vm_compute. reflexivity.
  - vm_compute. reflexivity.
  - vm_compute. reflexivity.
  - refine (eq_trans H _). vm_compute. reflexivity.
Defined.
