(* ===== verification/FdtPath.v ===== *)
(** Paths, aliases and phandles: [fdt_path_offset] of src/libfdt/fdt_ro.c descends from the
    root by the names between the slashes of a path; a path that does not start with a
    slash starts with an alias.  [fdt_node_offset_by_phandle] searches for a node. *)
From S2P Require Import Prelude Machine Crt0 SampleTree Fdt FdtRo FdtCheck FdtTree FdtLookup.
From stdpp Require Import base list gmap.
From Stdlib Require Import ZArith Lia.
#[local] Open Scope Z_scope.

Definition slash : Z := 47.

(** A path up to its first slash, and from there on. *)
Fixpoint split_slash (cs : list Z) : list Z * list Z :=
  match cs with
  | [] => ([], [])
  | c :: cs' => if c =? slash then ([], cs) else let '(name, rest) := split_slash cs' in (c :: name, rest)
  end.

(** The names between slashes, empty ones left out: the name that a path starts with,
    and those behind it. *)
Definition add_name (name : list Z) (names : list (list Z)) : list (list Z) :=
  match name with [] => names | _ => name :: names end.
Fixpoint path_names (cs : list Z) : list Z * list (list Z) :=
  match cs with
  | [] => ([], [])
  | c :: cs' =>
      let '(name, names) := path_names cs' in
      if c =? slash then ([], add_name name names) else (c :: name, names)
  end.
Definition components (cs : list Z) : list (list Z) := let '(name, names) := path_names cs in add_name name names.

Fixpoint drop_slashes (cs : list Z) : list Z :=
  match cs with
  | [] => []
  | c :: cs' => if c =? slash then drop_slashes cs' else cs
  end.

Lemma split_slash_app cs : let '(name, rest) := split_slash cs in
  cs = name ++ rest ∧ Forall (λ c, c ≠ slash) name ∧ (rest = [] ∨ ∃ r, rest = slash :: r).
Proof.
  induction cs as [|c cs IH]; [by split_and!; [..|left]|]. cbn [split_slash]. destruct (Z.eqb_spec c slash) as [-> |Hne].
  - split_and!; [done|done|]. right. by exists cs.
  - destruct (split_slash cs) as [name rest]. destruct IH as (-> & Hn & Hr). split_and!; [done|by constructor|done].
Qed.

Lemma components_slash cs : components (slash :: cs) = components cs.
Proof. unfold components. cbn [path_names]. by destruct (path_names cs). Qed.

Lemma components_name name rest :
  name ≠ [] → Forall (λ c, c ≠ slash) name → (rest = [] ∨ ∃ r, rest = slash :: r) →
  components (name ++ rest) = name :: components rest.
Proof.
  intros Hne Hn Hrest. assert (path_names rest = ([], components rest)) as Er.
  { destruct Hrest as [->|(r & ->)]; [done|]. rewrite components_slash. unfold components. cbn [path_names].
    by destruct (path_names r). }
  assert (path_names (name ++ rest) = (name, components rest)) as E.
  { clear Hne. induction Hn as [|c name Hc _ IH]; [done|]. cbn [app path_names]. rewrite IH.
    by destruct (Z.eqb_spec c slash). }
  unfold components at 1. rewrite E. by destruct name.
Qed.

Lemma components_drop cs : components (drop_slashes cs) = components cs.
Proof.
  induction cs as [|c cs IH]; [done|]. cbn [drop_slashes]. destruct (Z.eqb_spec c slash) as [-> |]; [|done].
  by rewrite components_slash.
Qed.

Lemma drop_slashes_suffix cs : ∃ n, drop_slashes cs = drop n cs ∧ (n <= length cs)%nat ∧
  match drop_slashes cs with c :: _ => c ≠ slash | [] => True end.
Proof.
  induction cs as [|c cs (n & E & Hn & Hs)]; [by exists 0%nat|]. cbn [drop_slashes length].
  destruct (Z.eqb_spec c slash); [exists (S n)|exists 0%nat]; cbn [drop]; split_and!; (done || lia).
Qed.

(* ------------------------------------------------------------------ *)
(** * Scanning *)

Section scan.
Context (m : mem).

Lemma skip_slashes_ok n p cs :
  (length cs < n)%nat → bytes_at m p cs → 0 <= p → p + Z.of_nat (length cs) < 2 ^ 32 → cs ≠ [] →
  skip_slashes m n p (p + Z.of_nat (length cs)) =
  Ok (match drop_slashes cs with
      | [] => None
      | rest => Some (p + Z.of_nat (length cs) - Z.of_nat (length rest))
      end).
Proof.
  revert n p. induction cs as [|c cs IH]; intros n p Hn Hb Hp Ht Hne; [done|]. destruct n as [|n]; [lia|].
  pose proof Hb as Hb'. apply bytes_at_cons in Hb as [Hc Hb]. cbn [skip_slashes drop_slashes length] in *.
  rewrite (load8_ok _ _ _ Hc). cbn [mbind res_bind]. change 47 with slash. destruct (c =? slash).
  - rewrite u32_small by (unfold is_u32; lia). destruct cs as [|c' cs].
    + cbn [length]. destruct (Z.eqb_spec (p + 1) (p + Z.of_nat 1)); [done|lia].
    + destruct (Z.eqb_spec (p + 1) (p + Z.of_nat (S (length (c' :: cs))))); [cbn in *; lia|].
      replace (p + Z.of_nat (S (length (c' :: cs)))) with (p + 1 + Z.of_nat (length (c' :: cs))) by lia.
      apply IH; [lia|done|lia|lia|done].
  - cbn [length]. do 2 f_equal. lia.
Qed.

(** [memchr] for a slash. *)
Lemma memchr_slash p cs :
  bytes_at m p cs → 0 < p → p + Z.of_nat (length cs) < 2 ^ 32 →
  let '(name, rest) := split_slash cs in
  memchr p slash (Z.of_nat (length cs)) m =
  Ok (match rest with [] => 0 | _ => p + Z.of_nat (length name) end).
Proof.
  unfold memchr. rewrite Nat2Z.id. revert p. induction cs as [|c cs IH]; intros p Hb Hp Ht; [done|].
  apply bytes_at_cons in Hb as [Hc Hb]. cbn [split_slash length memchr_from] in *. rewrite (load8_ok _ _ _ Hc).
  cbn [mbind res_bind]. destruct (c =? slash); [cbn; f_equal; lia|].
  rewrite u32_small by (unfold is_u32; lia). specialize (IH (p + 1) Hb ltac:(lia) ltac:(lia)).
  destruct (split_slash cs) as [name rest]. rewrite IH. destruct rest; [done|]. f_equal. rewrite length_cons. lia.
Qed.

(* ------------------------------------------------------------------ *)
(** * Descending *)

(** The walk over a path, for any notion of a place in the tree whose children
    [fdt_subnode_offset_namelen] finds. *)
Class Descends (fdt : Z) {X : Type} (place : X → Z) (child : X → list Z → option X) (good : X → Prop) : Prop := {
  child_found x s name : good x → bytes_at m s name → 0 < s → s + Z.of_nat (length name) < 2 ^ 32 →
    fdt_subnode_offset_namelen m fdt (place x) s (Z.of_nat (length name)) =
    Ok (from_option place (- FDT_ERR_NOTFOUND) (child x name));
  child_good x name y : good x → child x name = Some y → good y;
  good_place x : good x → 0 <= place x;
}.

Fixpoint descend {X} (child : X → list Z → option X) (x : X) (names : list (list Z)) : option X :=
  match names with
  | [] => Some x
  | name :: names => y ← child x name; descend child y names
  end.

Lemma descend_app {X} (child : X → list Z → option X) x l1 l2 :
  descend child x (l1 ++ l2) = (y ← descend child x l1; descend child y l2).
Proof. revert x. induction l1 as [|n l1 IH]; intros x; [done|]. cbn [app descend]. destruct (child x n); [apply IH|done]. Qed.

Context (fdt : Z) {X : Type} (place : X → Z) (child : X → list Z → option X) (good : X → Prop).
Context {Hdesc : Descends fdt place child good}.

Lemma descend_good x names y : good x → descend child x names = Some y → good y.
Proof using Hdesc.
  revert x. induction names as [|n names IH]; intros x Hx; cbn [descend]; [by intros [= <-]|].
  destruct (child x n) as [z|] eqn:E; [|done]. apply IH. by eapply child_good.
Qed.

Lemma path_walk_ok x p cs :
  good x → bytes_at m p cs → 0 < p → p + Z.of_nat (length cs) < 2 ^ 32 →
  path_walk m fdt p (p + Z.of_nat (length cs)) (place x) =
  Ok (from_option place (- FDT_ERR_NOTFOUND) (descend child x (components cs))).
Proof using Hdesc.
  intros Hx Hb Hp Ht. set (e := p + Z.of_nat (length cs)) in *. unfold path_walk. apply yields_eq.
  apply (loop_yields
    (λ '(q, o), ∃ y l, good y ∧ o = place y ∧ bytes_at m q l ∧ 0 < q ∧ q + Z.of_nat (length l) = e ∧
       descend child x (components cs) = descend child y (components l))
    (λ '(q, _), Z.to_nat (e - q))).
  3: { lia. }
  2: { exists x, cs. by split_and!. }
  intros [q o] (y & l & Hy & -> & Hl & Hq & He & ->). destruct (Z.ltb_spec q e) as [Hlt|Hge].
  2: { destruct l as [|c l]; [done|cbn in He; lia]. }
  assert (l ≠ []) as Hne by (intros ->; cbn in He; lia). rewrite <- He, skip_slashes_ok by (done || lia).
  rewrite <- (components_drop l). destruct (drop_slashes_suffix l) as (n & En & Hn & Hfirst). rewrite En in *.
  cbn [mbind res_bind]. destruct (drop n l) as [|c rest] eqn:Ed; [done|]. rewrite <- Ed in *.
  assert (Z.of_nat (length (drop n l)) = Z.of_nat (length l) - Z.of_nat n) as Hlen by (rewrite length_drop; lia).
  assert (bytes_at m (q + Z.of_nat n) (drop n l)) as Hd.
  { rewrite <- (take_drop n l) in Hl. apply bytes_at_app in Hl as [_ Hl]. by rewrite length_take_le in Hl by lia. }
  replace (q + Z.of_nat (length l) - Z.of_nat (length (drop n l))) with (q + Z.of_nat n) by lia.
  replace (q + Z.of_nat (length l) - (q + Z.of_nat n)) with (Z.of_nat (length (drop n l))) by lia.
  pose proof (memchr_slash (q + Z.of_nat n) (drop n l) Hd ltac:(lia) ltac:(lia)) as Hm.
  pose proof (split_slash_app (drop n l)) as Hsp. destruct (split_slash (drop n l)) as [name more] eqn:Es.
  change 47 with slash. rewrite Hm. cbn [mbind res_bind]. destruct Hsp as (El & Hns & Hmore).
  assert (name ≠ []) as Hname.
  { intros ->. rewrite Ed in El. cbn in El. destruct Hmore as [->|(r & ->)]; [done|]. by injection El as -> _. }
  rewrite El in Hd, Hlen |- *. apply bytes_at_app in Hd as [Hd1 Hd2]. rewrite length_app in Hlen.
  set (stop := if (match more with [] => 0 | _ => q + Z.of_nat n + Z.of_nat (length name) end) =? 0
    then q + Z.of_nat (length l) else match more with [] => 0 | _ => q + Z.of_nat n + Z.of_nat (length name) end).
  assert (stop = q + Z.of_nat n + Z.of_nat (length name)) as Estop.
  { unfold stop. destruct more; [cbn in *; lia|]. destruct (Z.eqb_spec (q + Z.of_nat n + Z.of_nat (length name)) 0); lia. }
  rewrite Estop. replace (q + Z.of_nat n + Z.of_nat (length name) - (q + Z.of_nat n)) with (Z.of_nat (length name)) by lia.
  rewrite (child_found y) by (done || lia). rewrite components_name by done. cbn [descend mbind res_bind option_bind].
  destruct (child y name) as [z|] eqn:Ec; cbn [from_option]; [|done].
  assert (good z) as Hz by (by eapply child_good). pose proof (good_place z Hz).
  destruct (Z.ltb_spec (place z) 0); [lia|]. cbn [yields].
  destruct name; [done|]. rewrite length_cons in *. split; [|lia].
  exists z, more. split_and!; try done; lia.
Qed.
End scan.

(* ------------------------------------------------------------------ *)
(** * The nodes of a valid tree *)

Section paths.
Context `{Platform} (m : mem) (fdt : Z) (root : dnode).
Context (Hr : readable_tree m fdt) (Hval : valid_tree m fdt).

(** The first subnode whose name matches. *)
Definition sub_named (t : dnode) (name : list Z) : option dnode :=
  head (filter (λ c, name_matches name (node_name m fdt (node_off c))) (node_subs t)).
Definition is_stop (t : dnode) : Prop := ∃ d l, at_node m fdt t d l.
Definition off_of : option dnode → Z := from_option node_off (- FDT_ERR_NOTFOUND).

#[local] Instance nodes_descend : Descends m fdt node_off sub_named is_stop.
Proof using Hr Hval.
  split.
  - intros t s name (d & l & Ht) Hs Hs0 Hst. rewrite (subnode_ok m fdt Hr Hval t d l s name) by done.
    unfold first_named, first_off, sub_named. by destruct (filter _ _).
  - intros t name c (d & l & Ht) Hc. apply head_Some_elem_of, list_elem_of_filter in Hc as [_ Hc].
    apply list_elem_of_split in Hc as (d1 & d2 & Es).
    destruct (sibling m fdt Hr Hval t d l d1 c d2 Ht Es) as (l' & Hc & _). by exists (d + 1), l'.
  - intros t (d & l & Ht). apply (at_node_tag m fdt Hr Hval) in Ht as ((? & _) & _). done.
Qed.

(** The string that a value starts with. *)
Fixpoint c_string (v : list Z) : list Z :=
  match v with
  | [] => []
  | c :: v => if c =? 0 then [] else c :: c_string v
  end.

(** An alias: the value of that property of the node /aliases, if it is an absolute
    path. *)
Definition alias_of (name : list Z) : option (list Z) :=
  t ← descend sub_named root (components (chars "/aliases"));
  p ← find_prop m fdt (node_props t) name;
  let v := prop_bytes m fdt p in
  if bool_decide (last v = Some 0) && bool_decide (head v = Some slash) then Some (c_string v) else None.

(** What a path leads to: a node's offset or an error. *)
Definition resolve_path (path : list Z) : Z :=
  match path with
  | [] => - FDT_ERR_BADPATH
  | c :: _ =>
      if c =? slash then off_of (descend sub_named root (components path))
      else
        let '(name, rest) := split_slash path in
        match alias_of name with
        | None => - FDT_ERR_BADPATH
        | Some target => off_of (descend sub_named root (components target ++ components rest))
        end
  end.

Context (Hb : block_at m fdt 0 (Some root)) (Hroot : node_off root = 0).

Lemma root_stop : is_stop root.
Proof using Hr Hval Hb.
  destruct (block_walk m fdt (names_blob m fdt Hr Hval) 0 _ Hb ltac:(by unfold valid_offset)) as (_ & _ & Ha).
  exists 0. eexists. exact Ha.
Qed.

(** The checks in front of the walk. *)
Lemma probe_path {A} (fail : Z → A) (k : res A) : FDT_RO_PROBE m fdt fail k = k.
Proof using Hr Hval.
  unfold FDT_RO_PROBE. rewrite (valid_probe m fdt Hr Hval). cbn [mbind res_bind].
  destruct (header_eq m fdt (names_blob m fdt Hr Hval) 4 ltac:(lia)) as [_ Hu]. unfold is_u32 in Hu.
  by destruct (Z.ltb_spec (hdr m fdt 4) 0); [lia|].
Qed.

Lemma absolute_from {X} (place : X → Z) child good `{!Descends m fdt place child good} x depth s cs :
  good x → place x = 0 → bytes_at m s cs → 0 < s → s + Z.of_nat (length cs) < 2 ^ 32 → head cs = Some slash →
  fdt_path_offset_namelen m fdt (S depth) s (Z.of_nat (length cs)) =
  Ok (from_option place (- FDT_ERR_NOTFOUND) (descend child x (components cs))).
Proof using Hr Hval.
  intros Hx Hx0 Hs Hs0 Hst Hc. cbn [fdt_path_offset_namelen]. rewrite probe_path.
  destruct cs as [|c cs]; [done|]. injection Hc as ->. destruct (Z.leb_spec (Z.of_nat (length (slash :: cs))) 0); [cbn in *; lia|].
  pose proof Hs as [Hc _]%bytes_at_cons. rewrite (load8_ok _ _ _ Hc). cbn [mbind res_bind]. rewrite Z.eqb_refl. cbn [negb].
  rewrite u32_small by (unfold is_u32; lia). rewrite <- Hx0.
  by apply (path_walk_ok m fdt place child good x s _ Hx).
Qed.

Lemma absolute_ok depth s cs :
  bytes_at m s cs → 0 < s → s + Z.of_nat (length cs) < 2 ^ 32 → head cs = Some slash →
  fdt_path_offset_namelen m fdt (S depth) s (Z.of_nat (length cs)) = Ok (off_of (descend sub_named root (components cs))).
Proof using Hr Hval Hb Hroot. intros. by apply (absolute_from node_off sub_named is_stop root); [apply root_stop|..]. Qed.

(** From an error the walk goes nowhere. *)
Lemma path_walk_error o p cs :
  o < 0 → bytes_at m p cs → 0 < p → p + Z.of_nat (length cs) < 2 ^ 32 →
  path_walk m fdt p (p + Z.of_nat (length cs)) o = Ok o.
Proof using Hr Hval.
  intros Ho Hs Hp Ht. unfold path_walk. cbn [loop]. destruct (Z.ltb_spec p (p + Z.of_nat (length cs))); [|done].
  assert (cs ≠ []) as Hne by (intros ->; cbn in *; lia). rewrite skip_slashes_ok by (done || lia). cbn [mbind res_bind].
  destruct (drop_slashes_suffix cs) as (n & En & Hn & _). rewrite En. destruct (drop n cs) as [|c l] eqn:Ed; [done|].
  rewrite <- Ed. assert (Z.of_nat (length (drop n cs)) = Z.of_nat (length cs) - Z.of_nat n) as Hlen by (rewrite length_drop; lia).
  replace (p + Z.of_nat (length cs) - Z.of_nat (length (drop n cs))) with (p + Z.of_nat n) by lia.
  replace (p + Z.of_nat (length cs) - (p + Z.of_nat n)) with (Z.of_nat (length (drop n cs))) by lia.
  assert (bytes_at m (p + Z.of_nat n) (drop n cs)) as Hd.
  { rewrite <- (take_drop n cs) in Hs. apply bytes_at_app in Hs as [_ Hs]. by rewrite length_take_le in Hs by lia. }
  pose proof (memchr_slash m (p + Z.of_nat n) (drop n cs) Hd ltac:(lia) ltac:(lia)) as Hm.
  destruct (split_slash (drop n cs)) as [name more]. change 47 with slash. rewrite Hm. cbn [mbind res_bind].
  unfold fdt_subnode_offset_namelen. rewrite probe_path, tree_fuel_eq by (by apply names_blob). cbn [loop].
  destruct (Z.leb_spec 0 o); [lia|]. cbn [andb mbind res_bind Z.ltb Z.compare]. by destruct (Z.ltb_spec o 0); [|lia].
Qed.

(** ** Aliases *)

Lemma c_string_in v : 0 ∈ v → ∃ r, v = c_string v ++ 0 :: r ∧ Forall (λ c, c ≠ 0) (c_string v).
Proof using Type.
  induction v as [|c v IH]; [by intros ?%elem_of_nil|]. intros Hin. cbn [c_string].
  destruct (Z.eqb_spec c 0) as [-> |Hne]; [by exists v|]. apply elem_of_cons in Hin as [|Hin]; [done|].
  destruct (IH Hin) as (r & E & Hn). exists r. split; [|by constructor]. cbn [app]. by rewrite <- E.
Qed.

Lemma c_string_split v : last v = Some 0 → ∃ r, v = c_string v ++ 0 :: r ∧ Forall (λ c, c ≠ 0) (c_string v).
Proof using Type. intros Hl. apply c_string_in, (list_elem_of_lookup_2 _ (pred (length v))). by rewrite <- last_lookup. Qed.

(** [fdt_get_alias_namelen], as the path lookup calls it. *)
Definition find_alias (depth : nat) (name namelen : Z) : res Z :=
  offset ← (aliases_len ← strlen (rodata "/aliases") m;
             fdt_path_offset_namelen m fdt depth (rodata "/aliases") (s32 aliases_len));
  if offset <? 0 then Ok 0
  else
    '(alias, len) ← fdt_getprop_namelen m fdt offset name namelen;
    if (alias =? 0) || (len <=? 0) then Ok 0
    else
      last ← load8 m (u32 (alias + len - 1));
      if negb (last =? 0) then Ok 0
      else first ← load8 m alias; Ok (if first =? 47 then alias else 0).

Context (Haliases : c_name m (rodata "/aliases") (chars "/aliases")).

Lemma find_alias_ok depth s name :
  bytes_at m s name → 0 < s → s + Z.of_nat (length name) < 2 ^ 32 →
  ∃ a, find_alias (S depth) s (Z.of_nat (length name)) = Ok a ∧
    match alias_of name with
    | None => a = 0
    | Some target => c_name m a target ∧ head target = Some slash
    end.
Proof using Hr Hval Hb Hroot Haliases.
  intros Hs Hs0 Hst. pose proof (names_blob m fdt Hr Hval) as Hbl. pose proof Hr as (_ & Hw & Hf & _ & _ & _ & Htt & Hver).
  unfold find_alias, alias_of. pose proof Haliases as (Hcs & Ha0 & Hat & _).
  rewrite (strlen_ok m _ _ Hcs) by (apply Hbl || done || lia). cbn [mbind res_bind].
  rewrite s32_small by done. rewrite absolute_ok by (apply Hcs || done || lia). cbn [mbind res_bind].
  destruct (descend sub_named root _) as [t|] eqn:Et; cbn [off_of from_option mbind option_bind]; [|by exists 0].
  destruct (descend_good m fdt node_off sub_named is_stop root _ t root_stop Et) as (d & l & Ht).
  destruct (at_node_tag m fdt Hr Hval _ _ _ Ht) as ((Hoff & _) & _). destruct (Z.ltb_spec (node_off t) 0); [lia|].
  rewrite (getprop_namelen_ok m fdt Hbl Hver Htt t d l s name) by done. cbn [mbind res_bind].
  destruct (find_prop m fdt (node_props t) name) as [p|] eqn:Ef; cbn [orb Z.eqb]; [|by exists 0].
  destruct (found_value m fdt Hr Hval t d l name p Ht Ef) as (Hv & Hlen & Hv0 & Hvt).
  cbn [mbind option_bind]. remember (prop_bytes m fdt p) as v eqn:Hvb. clear Hvb. destruct (Z.eqb_spec (prop_value m fdt p) 0); [lia|]. cbn [orb].
  destruct (Z.leb_spec (prop_len m fdt p) 0) as [Hl0|Hl0].
  { exists 0. split; [done|]. by destruct v as [|c v]; [|rewrite length_cons in Hlen; lia]. }
  destruct v as [|c0 v'] eqn:Ev; [cbn in Hlen; lia|]. rewrite <- Ev in *. destruct (last v) as [z|] eqn:Ez.
  2: { apply last_None in Ez. by rewrite Ev in Ez. }
  assert (m !! (prop_value m fdt p + prop_len m fdt p - 1) = Some z) as Hz.
  { rewrite last_lookup in Ez. apply Hv in Ez. rewrite <- Ez, <- Hlen. f_equal. rewrite Ev, length_cons. lia. }
  rewrite u32_small, (load8_ok _ _ _ Hz) by (unfold is_u32; lia). cbn [mbind res_bind].
  pose proof Hv as Hv'. rewrite Ev in Hv'. apply bytes_at_cons in Hv' as [Hc0 _].
  destruct (Z.eqb_spec z 0) as [-> |Hz0]; cbn [negb].
  2: { exists 0. rewrite bool_decide_eq_false_2 by congruence. done. }
  rewrite (load8_ok _ _ _ Hc0), bool_decide_eq_true_2 by done. cbn [mbind res_bind andb]. change 47 with slash.
  destruct (c_string_split v Ez) as (r & Er & Hnz). assert (head v = Some c0) as -> by (by rewrite Ev).
  destruct (Z.eqb_spec c0 slash) as [-> |Hne]; [rewrite bool_decide_eq_true_2 by done|rewrite bool_decide_eq_false_2 by congruence; by exists 0].
  exists (prop_value m fdt p). split; [done|]. split; [|by rewrite Ev].
  pose proof (f_equal length Er) as El. rewrite length_app, length_cons in El. rewrite Er in Hv. apply bytes_at_app in Hv as [Hv1 Hv2].
  apply bytes_at_cons in Hv2 as [Hv2 _]. pose proof (bl_size _ _ Hbl). unfold INT_MAX in *. split_and!; (done || lia).
Qed.

(** ** Any path *)

Lemma path_offset_step depth path namelen :
  fdt_path_offset_namelen m fdt (S depth) path namelen =
  (let path_end := u32 (path + namelen) in
   FDT_RO_PROBE m fdt id
     (if namelen <=? 0 then Ok (- FDT_ERR_BADPATH)
      else
        c ← load8 m path;
        if negb (c =? 47) then
          q ← memchr path 47 (path_end - path) m;
          let q := if q =? 0 then path_end else q in
          alias ← find_alias depth path (q - path);
          if alias =? 0 then Ok (- FDT_ERR_BADPATH)
          else
            alias_len ← strlen alias m;
            offset ← fdt_path_offset_namelen m fdt depth alias (s32 alias_len);
            path_walk m fdt q path_end offset
        else path_walk m fdt path path_end 0)).
Proof using Type. done. Qed.

Lemma relative_ok depth s cs :
  bytes_at m s cs → 0 < s → s + Z.of_nat (length cs) < 2 ^ 32 → cs ≠ [] → head cs ≠ Some slash →
  fdt_path_offset_namelen m fdt (S (S depth)) s (Z.of_nat (length cs)) = Ok (resolve_path cs).
Proof using Hr Hval Hb Hroot Haliases.
  intros Hs Hs0 Hst Hne Hc. rewrite path_offset_step, probe_path by done. cbv zeta.
  destruct cs as [|c cs']; [done|]. destruct (Z.leb_spec (Z.of_nat (length (c :: cs'))) 0); [cbn in *; lia|].
  unfold resolve_path. pose proof Hs as [Hc0 _]%bytes_at_cons. rewrite (load8_ok _ _ _ Hc0). cbn [mbind res_bind].
  change 47 with slash. destruct (Z.eqb_spec c slash) as [-> |_]; [done|]. cbn [negb]. clear Hc Hc0 Hne.
  rewrite u32_small by (unfold is_u32; lia).
  remember (c :: cs') as cs eqn:Ecs. clear Ecs c cs'. replace (s + Z.of_nat (length cs) - s) with (Z.of_nat (length cs)) by lia.
  pose proof (memchr_slash m s cs Hs Hs0 Hst) as Hm. pose proof (split_slash_app cs) as Hsp.
  destruct (split_slash cs) as [name rest]. destruct Hsp as (Ecs & _ & Hrest). rewrite Hm. cbn [mbind res_bind].
  set (q := if (match rest with [] => 0 | _ => s + Z.of_nat (length name) end) =? 0 then s + Z.of_nat (length cs)
    else match rest with [] => 0 | _ => s + Z.of_nat (length name) end).
  assert (Z.of_nat (length cs) = Z.of_nat (length name) + Z.of_nat (length rest)) as Hlen by (rewrite Ecs, length_app; lia).
  assert (q = s + Z.of_nat (length name)) as ->.
  { unfold q. destruct rest; [cbn in *; lia|]. destruct (Z.eqb_spec (s + Z.of_nat (length name)) 0); lia. }
  rewrite Ecs in Hs. apply bytes_at_app in Hs as [Hs1 Hs2].
  replace (s + Z.of_nat (length name) - s) with (Z.of_nat (length name)) by lia.
  destruct (find_alias_ok depth s name Hs1 Hs0 ltac:(lia)) as (a & -> & Ha). cbn [mbind res_bind].
  destruct (alias_of name) as [target|]; [|by subst a].
  destruct Ha as ((Hcs & Ha0 & Hat & Hal) & Hh). destruct (Z.eqb_spec a 0); [lia|].
  pose proof Hr as (Hmb & Hwb & _). rewrite (strlen_ok m _ _ Hcs) by (done || lia). cbn [mbind res_bind].
  rewrite s32_small by (unfold is_s32; lia). rewrite absolute_ok by (apply Hcs || done || lia). cbn [mbind res_bind].
  replace (s + Z.of_nat (length cs)) with (s + Z.of_nat (length name) + Z.of_nat (length rest)) by lia.
  rewrite descend_app. destruct (descend _ root (components target)) as [t|] eqn:Et; cbn [off_of from_option mbind option_bind].
  - apply (path_walk_ok m fdt node_off sub_named is_stop); [|done|lia..].
    exact (descend_good m fdt node_off sub_named is_stop root _ t root_stop Et).
  - by apply path_walk_error; [done..|lia|lia].
Qed.

Lemma path_offset_ok s cs : c_name m s cs → fdt_path_offset m fdt s = Ok (resolve_path cs).
Proof using Hr Hval Hb Hroot Haliases.
  intros (Hcs & Hs0 & Hst & Hl). unfold fdt_path_offset.
  pose proof Hr as (Hmb & Hwb & _). rewrite (strlen_ok m _ _ Hcs) by (done || lia). cbn [mbind res_bind].
  rewrite s32_small by (unfold is_s32; lia). destruct Hcs as (Hb' & _).
  destruct cs as [|c cs].
  - rewrite path_offset_step. cbv zeta. by rewrite probe_path.
  - destruct (decide (c = slash)) as [-> |Hne].
    + rewrite absolute_ok by (done || lia). by cbn [resolve_path].
    + apply relative_ok; [done|done|lia|done|]. cbn. congruence.
Qed.

(** C17: [fdt_path_offset] on a tree that [fdt_check_full] accepts, of version 16 or later and
    with its root at offset 0 (nothing before it).  An absolute path leads from the
    root down by its names, at every node to the first subnode whose name matches; empty
    names are passed over.  Another path starts with an alias: a property of the node
    /aliases whose value is an absolute path ended by a NUL; the rest of the path goes on
    from there.  A missing node gives [-FDT_ERR_NOTFOUND], a missing alias or an empty path
    [-FDT_ERR_BADPATH].  The recursion ends: an alias is never looked up for an alias. *)
Theorem fdt_path_offset_spec s cs : c_name m s cs → fdt_path_offset m fdt s = Ok (resolve_path cs).
Proof using Hr Hval Hb Hroot Haliases. apply path_offset_ok. Qed.
End paths.

(* ------------------------------------------------------------------ *)
(** * Phandles *)

Section phandles.
Context `{Platform} (m : mem) (fdt : Z).
Context (Hr : readable_tree m fdt) (Hval : valid_tree m fdt).

(** The value of a property of four bytes. *)
Definition word_of (t : dnode) (name : list Z) : option Z :=
  p ← find_prop m fdt (node_props t) name; if prop_len m fdt p =? 4 then Some (value_word m fdt p) else None.
Definition phandle_of (t : dnode) : Z :=
  default (default 0 (word_of t (chars "linux,phandle"))) (word_of t (chars "phandle")).

Context (Hphandle : c_name m (rodata "phandle") (chars "phandle"))
  (Hlinux : c_name m (rodata "linux,phandle") (chars "linux,phandle")).

Lemma getprop_word {A} t d l s name (k : Z → res A) (other : res A) :
  at_node m fdt t d l → c_name m s name →
  ('(php, len) ← fdt_getprop m fdt (node_off t) s;
   if (php =? 0) || negb (len =? 4) then other else v ← fdt32_ld_ m php; k v) =
  match word_of t name with Some v => k v | None => other end.
Proof using Hr Hval.
  intros Ht Hs. pose proof (names_blob m fdt Hr Hval) as Hbl. pose proof Hr as (_ & Hw & _ & _ & _ & _ & Htt & Hver).
  rewrite (getprop_ok m fdt Hbl Hver Hw Htt t d l s name Ht Hs). cbn [mbind res_bind]. unfold word_of.
  destruct (find_prop m fdt (node_props t) name) as [p|] eqn:Ef; cbn [mbind option_bind]; [|done].
  destruct (found_value m fdt Hr Hval _ _ _ _ _ Ht Ef) as (_ & _ & ? & _).
  destruct (Z.eqb_spec (prop_value m fdt p) 0); [lia|]. cbn [orb].
  destruct (Z.eqb_spec (prop_len m fdt p) 4); cbn [negb]; [|done].
  by rewrite (proj1 (found_word m fdt Hr Hval _ _ _ _ _ Ht Ef ltac:(lia))).
Qed.

Lemma get_phandle_ok t d l : at_node m fdt t d l → fdt_get_phandle m fdt (node_off t) = Ok (phandle_of t).
Proof using Hr Hval Hphandle Hlinux.
  intros Ht. unfold fdt_get_phandle, phandle_of.
  transitivity (match word_of t (chars "phandle") with
    | Some v => Ok v
    | None => match word_of t (chars "linux,phandle") with Some v => Ok v | None => Ok 0 end
    end).
  - rewrite <- (getprop_word t d l _ _ Ok _ Ht Hphandle), <- (getprop_word t d l _ _ Ok (Ok 0) Ht Hlinux).
    assert (∀ x : res Z, (v ← x; Ok v) = x) as Hx by (by intros []).
    destruct (fdt_getprop m fdt (node_off t) (rodata "phandle")) as [[php len]| |]; cbn [mbind res_bind]; [|done..].
    destruct (_ || _); [|by rewrite Hx].
    destruct (fdt_getprop m fdt (node_off t) (rodata "linux,phandle")) as [[php' len']| |]; cbn [mbind res_bind]; [|done..].
    destruct (_ || _); [done|by rewrite Hx].
  - destruct (word_of t (chars "phandle")); [done|]. by destruct (word_of t _).
Qed.

(** [fdt_find_max_phandle]. *)
Lemma find_max_phandle_ok root :
  block_at m fdt 0 (Some root) →
  fdt_find_max_phandle m fdt = Ok (0, foldl Z.max 0 (phandle_of <$> (fst <$> tree_nodes 0 root))).
Proof using Hr Hval Hphandle Hlinux.
  intros Hb. pose proof (names_blob m fdt Hr Hval) as Hbl. destruct (header_eq m fdt Hbl 4 ltac:(lia)) as [_ Hu4]. unfold is_u32 in Hu4.
  unfold fdt_find_max_phandle. rewrite tree_fuel_eq by done. apply yields_eq.
  apply (loop_yields
    (λ '(o, mx), -1 <= o ∧ ∃ l, comes_to m fdt o l ∧ match l with (u, _) :: _ => o < node_off u | [] => True end ∧
       foldl Z.max 0 (phandle_of <$> (fst <$> tree_nodes 0 root)) = foldl Z.max mx (phandle_of <$> (fst <$> l)))
    (λ '(o, _), Z.to_nat (hdr m fdt 4 - o))).
  3: { lia. }
  2: { split; [lia|]. exists (tree_nodes 0 root). split; [exact (comes_to_all m fdt Hr Hval (Some root) Hb)|]. split; [|done].
       destruct (tree_nodes 0 root) as [|[u e] l] eqn:E; [done|].
       assert ((u, e) ∈ tree_nodes 0 root) as Hin by (rewrite E; left).
       destruct (at_tree_node m fdt root u e Hbl Hb Hin) as [l' Hu']. apply (at_node_tag m fdt Hr Hval) in Hu' as ((? & _) & _). lia. }
  intros [o mx] (Ho & l & Hl & Hlt & ->). destruct l as [|[u e] l]; cbn in Hl.
  - rewrite Hl. cbn [mbind res_bind]. done.
  - destruct Hl as [-> Hu]. cbn [mbind res_bind]. destruct (at_node_tag m fdt Hr Hval _ _ _ Hu) as ((? & _) & ? & _).
    destruct (Z.ltb_spec (node_off u) 0); [lia|]. rewrite (get_phandle_ok u e l Hu). cbn [mbind res_bind yields]. split; [|lia].
    split; [lia|]. exists l. split; [by apply (comes_to_rest m fdt Hr Hval _ _ _ Hu)|]. split.
    + destruct l as [|[v e'] l]; [done|]. pose proof (at_node_sorted m fdt Hbl _ _ _ Hu) as Hs. by apply Forall_cons in Hs as [? _].
    + cbn [fmap list_fmap foldl fst]. f_equal. destruct (Z.ltb_spec mx (phandle_of u)); lia.
Qed.

Lemma by_phandle_ok root phandle :
  block_at m fdt 0 (Some root) →
  fdt_node_offset_by_phandle m fdt phandle =
  Ok (if decide (phandle = 0 ∨ phandle = UINT_MAX) then - FDT_ERR_BADPHANDLE
      else first_off (λ t, phandle_of t =? phandle) (fst <$> tree_nodes 0 root)).
Proof using Hr Hval Hphandle Hlinux.
  intros Hb. unfold fdt_node_offset_by_phandle.
  destruct (Z.eqb_spec phandle 0), (Z.eqb_spec phandle UINT_MAX); cbn [orb];
    [rewrite decide_True by tauto; done..|rewrite decide_False by tauto].
  rewrite (probe_path m fdt Hr Hval). apply (search_nodes_ok m fdt Hr Hval).
  - apply (comes_to_all m fdt Hr Hval (Some root) Hb).
  - intros u e l _ Hu. by rewrite (get_phandle_ok u e l Hu).
Qed.

(** C18: [fdt_node_offset_by_phandle] on a tree that [fdt_check_full] accepts finds the first node, in
    preorder, that has this phandle: four bytes in the property "phandle" or, failing
    that, in "linux,phandle".  0 and the largest word are no phandles. *)
Theorem fdt_node_offset_by_phandle_spec root phandle :
  block_at m fdt 0 (Some root) →
  fdt_node_offset_by_phandle m fdt phandle =
  Ok (if decide (phandle = 0 ∨ phandle = UINT_MAX) then - FDT_ERR_BADPHANDLE
      else first_off (λ t, phandle_of t =? phandle) (fst <$> tree_nodes 0 root)).
Proof using Hr Hval Hphandle Hlinux. apply by_phandle_ok. Qed.
End phandles.

(* ------------------------------------------------------------------ *)
(** * Example *)

#[local] Open Scope string_scope.

(** An alias for a memory node, a path that starts with it, and two phandles. *)
Definition alias_strings : list Z := cstr "boot" ++ cstr "m0" ++ cstr "phandle" ++ cstr "linux,phandle".
Definition alias_struct : list Z :=
  node_begin "" ++ prop_tag 0 (cstr "m0//bank/") ++
    node_begin "aliases" ++ prop_tag 5 (cstr "/memory") ++ node_end ++
    node_begin "memory@80000000" ++ prop_tag 8 (be32 7) ++ node_begin "bank" ++ prop_tag 16 (be32 9) ++ node_end ++ node_end ++
  node_end ++ be32 9.
Definition alias_mem : mem := tree_mem (tree_blob alias_struct alias_strings).
Definition alias_root : dnode := Node 0 [8] [Node 32 [44] []; Node 68 [88] [Node 104 [116] []]].

#[local] Close Scope string_scope.

Lemma alias_readable : readable_tree alias_mem tree_addr.
Proof.
  assert (hdr alias_mem tree_addr 4 = 234) as Hsz by (vm_compute; reflexivity).
  split; [apply tree_mem_bytes; vm_compute; reflexivity|]. split.
  { apply map_bytes_word_backed; [reflexivity|vm_compute; reflexivity|].
    apply map_bytes_word_backed; [reflexivity|vm_compute; reflexivity|apply word_backed_empty]. }
  rewrite Hsz. split; [reflexivity|]. split; [apply tree_mem_mapped; vm_compute; discriminate|]. split; [discriminate|].
  split; [apply tree_mem_mapped; vm_compute; discriminate|]. split; [reflexivity|]. vm_compute. discriminate.
Qed.

Lemma alias_valid : valid_tree alias_mem tree_addr.
Proof.
  destruct alias_readable as (Hb & Hw & Hf & Hm & Ht & Hmt & Htt & Hv).
  destruct (check_full_ok _ _ 234 Hb Hw Hf Hm Ht Hmt Htt Hv) as (r & He & Hr).
  assert (fdt_check_full alias_mem tree_addr 234 = Ok 0) as E by (vm_compute; reflexivity).
  rewrite E in He. injection He as <-. destruct (proj1 Hr eq_refl) as (? & _ & ? & ?). by split_and!.
Qed.

Lemma alias_block : block_at alias_mem tree_addr 0 (Some alias_root).
Proof. apply (parse_root_ok _ _ 100). vm_compute. reflexivity. Qed.

Lemma fdt_path_offset_spec_witness :
  @fdt_path_offset qemu_literals alias_mem tree_addr (tree_addr + 76) = Ok 104.
Proof.
  refine (eq_trans (@fdt_path_offset_spec qemu_literals alias_mem tree_addr alias_root alias_readable alias_valid
    alias_block eq_refl _ (tree_addr + 76) (chars "m0//bank/") _) _).
  - apply memory_string; vm_compute; reflexivity.
  - apply memory_string; vm_compute; reflexivity.
  - vm_compute. reflexivity.
Defined.

Lemma fdt_node_offset_by_phandle_spec_witness :
  @fdt_node_offset_by_phandle qemu_literals alias_mem tree_addr 7 = Ok 68 ∧
  @fdt_node_offset_by_phandle qemu_literals alias_mem tree_addr 9 = Ok 104.
Proof.
  assert (c_name alias_mem (@rodata qemu_literals "phandle") (chars "phandle")) as H1 by (apply memory_string; vm_compute; reflexivity).
  assert (c_name alias_mem (@rodata qemu_literals "linux,phandle") (chars "linux,phandle")) as H2
    by (apply memory_string; vm_compute; reflexivity).
  pose proof (λ n, @fdt_node_offset_by_phandle_spec qemu_literals alias_mem tree_addr alias_readable alias_valid H1 H2
    alias_root n alias_block) as Hs.
  split; (refine (eq_trans (Hs _) _); vm_compute; reflexivity).
Defined.
