(* ===== verification/FdtWrite.v ===== *)
(** Writing to a device tree: the memory-passing monad of the writers, the header
    setters of src/libfdt/libfdt.h, the in-place edits of src/libfdt/fdt_wip.c and
    [fdt_get_path] of fdt_ro.c.  An edit returns its C result together with the
    memory it leaves behind. *)
From S2P Require Import Prelude Machine Crt0 SampleTree Fdt FdtRo.
From stdpp Require Import base list gmap.
From Stdlib Require Import ZArith Lia.
#[local] Open Scope Z_scope.

(* ------------------------------------------------------------------ *)
(** * Code that changes memory *)

Definition W (A : Type) : Type := mem → res (A * mem).

#[export] Instance W_ret : MRet W := fun A a m => Ok (a, m).
#[export] Instance W_bind : MBind W := fun A B f k m =>
  match k m with
  | Ok (a, m') => f a m'
  | Fault => Fault
  | NoFuel => NoFuel
  end.

(** Reading and storing. *)
Definition rd {A} (f : mem → res A) : W A := fun m => a ← f m; Ok (a, m).
Definition wr (f : mem → res mem) : W unit := fun m => m' ← f m; Ok (tt, m').

(** A loop whose rounds change memory. *)
Definition wloop {S A : Type} (fuel : nat) (body : S → W (S + A)) (s : S) : W A := fun m =>
  loop fuel
    (fun '(s, m) =>
       '(r, m') ← body s m;
       Ok (match r with inl s' => inl (s', m') | inr a => inr (a, m') end))
    (s, m).

(** [*p = cpu_to_fdt32(v)] and [*p = cpu_to_fdt64(v)], as aligned word stores. *)
Definition fdt32_put (p v : Z) : W unit := wr (fun m => store32 m p (fdt32_to_cpu v)).
Definition fdt64_put (p v : Z) : W unit :=
  fdt32_put p (u32 (Z.shiftr v 32));; fdt32_put (u32 (p + 4)) (u32 v).

Section setters.
Context (fdt : Z).

Definition fdt_set_header (offset val : Z) : W unit := fdt32_put (u32 (fdt + offset)) val.
Definition fdt_set_magic := fdt_set_header 0.
Definition fdt_set_totalsize := fdt_set_header 4.
Definition fdt_set_off_dt_struct := fdt_set_header 8.
Definition fdt_set_off_dt_strings := fdt_set_header 12.
Definition fdt_set_off_mem_rsvmap := fdt_set_header 16.
Definition fdt_set_version := fdt_set_header 20.
Definition fdt_set_last_comp_version := fdt_set_header 24.
Definition fdt_set_boot_cpuid_phys := fdt_set_header 28.
Definition fdt_set_size_dt_strings := fdt_set_header 32.
Definition fdt_set_size_dt_struct := fdt_set_header 36.
End setters.

(* ------------------------------------------------------------------ *)
(** * In-place edits *)

Section in_place.
Context `{Platform} (fdt : Z).

Definition fdt_setprop_inplace_namelen_partial (nodeoffset name namelen idx val len : Z) : W Z :=
  '(propval, proplen) ← rd (fun m => fdt_getprop_namelen m fdt nodeoffset name namelen);
  if propval =? 0 then mret proplen
  else if u32 proplen <? u32 (len + idx) then mret (- FDT_ERR_NOSPACE)
  else memcpy (u32 (propval + idx)) val (u32 len);; mret 0.

Definition fdt_setprop_inplace (nodeoffset name val len : Z) : W Z :=
  '(propval, proplen) ← rd (fun m => fdt_getprop m fdt nodeoffset name);
  if propval =? 0 then mret proplen
  else if negb (proplen =? len) then mret (- FDT_ERR_NOSPACE)
  else
    namelen ← rd (strlen name);
    fdt_setprop_inplace_namelen_partial nodeoffset name (s32 namelen) 0 val len.

(** Four bytes at a time, up to [start + len]. *)
Definition fdt_nop_region_ (start len : Z) : W unit :=
  let stop := u32 (start + len) in
  wloop (S (Z.to_nat len))
    (fun p => if p <? stop then fdt32_put p FDT_NOP;; mret (inl (u32 (p + 4)))
              else mret (inr tt))
    start.

Definition fdt_nop_property (nodeoffset name : Z) : W Z :=
  '(prop, len) ← rd (fun m => fdt_get_property m fdt nodeoffset name);
  if prop =? 0 then mret len
  else fdt_nop_region_ prop (s32 (len + 12));; mret 0.

(** The offset behind the end tag of a node. *)
Definition fdt_node_end_offset_ (m : mem) (offset : Z) : res Z :=
  loop (tree_fuel m fdt)
    (fun '(offset, depth) =>
       if (0 <=? offset) && (0 <=? depth) then
         '(offset, depth') ← fdt_next_node m fdt offset (Some depth);
         Ok (inl (offset, default 0 depth'))
       else Ok (inr offset))
    (offset, 0).

Definition fdt_nop_node (nodeoffset : Z) : W Z :=
  endoffset ← rd (fun m => fdt_node_end_offset_ m nodeoffset);
  if endoffset <? 0 then mret endoffset
  else
    start ← rd (fun m => fdt_offset_ptr m fdt nodeoffset 0);
    fdt_nop_region_ start (s32 (endoffset - nodeoffset));; mret 0.

(** The wrappers of libfdt.h that pass the address of a local variable; [tmp] is its
    stack slot. *)
Definition fdt_setprop_inplace_u32 (tmp nodeoffset name val : Z) : W Z :=
  fdt32_put tmp val;; fdt_setprop_inplace nodeoffset name tmp 4.
Definition fdt_setprop_inplace_u64 (tmp nodeoffset name val : Z) : W Z :=
  fdt64_put tmp val;; fdt_setprop_inplace nodeoffset name tmp 8.
Definition fdt_setprop_inplace_cell (tmp nodeoffset name val : Z) : W Z :=
  fdt_setprop_inplace_u32 tmp nodeoffset name val.

(* ------------------------------------------------------------------ *)
(** * The path of a node *)

(** [do { p--; } while (buf[p-1] != '/')]. *)
Definition drop_component (buf p : Z) (m : mem) : res Z :=
  loop (S (Z.to_nat p))
    (fun p =>
       let p := s32 (p - 1) in
       c ← load8 m (u32 (buf + p - 1));
       Ok (if c =? 47 then inr p else inl p))
    p.

(** [while (pdepth > depth)]: the new [p] and [pdepth]. *)
Definition pop_components (buf depth p pdepth : Z) (m : mem) : res (Z * Z) :=
  loop (S (Z.to_nat (pdepth - depth)))
    (fun '(p, pdepth) =>
       if depth <? pdepth then p ← drop_component buf p m; Ok (inl (p, pdepth - 1))
       else Ok (inr (p, pdepth)))
    (p, pdepth).

(** Append the name of a node and a slash, if they fit: [inl] is an early return. *)
Definition push_component (offset buf buflen depth p pdepth : Z) : W (Z + Z * Z) :=
  if depth <=? pdepth then
    '(name, namelen) ← rd (fun m => fdt_get_name m fdt offset);
    if name =? 0 then mret (inl namelen)
    else if s32 (p + namelen + 1) <=? buflen then
      memcpy (u32 (buf + p)) name (u32 namelen);;
      let p := s32 (p + namelen) in
      wr (fun m => store8 m (u32 (buf + p)) 47);;
      mret (inr (s32 (p + 1), pdepth + 1))
    else mret (inr (p, pdepth))
  else mret (inr (p, pdepth)).

Definition fdt_get_path (nodeoffset buf buflen : Z) : W Z := fun m0 =>
  totalsize_ ← fdt_ro_probe_ m0 fdt;
  if totalsize_ <? 0 then Ok (totalsize_, m0)
  else if buflen <? 2 then Ok (- FDT_ERR_NOSPACE, m0)
  else
    wloop (tree_fuel m0 fdt)
      (fun '(offset, depth, p, pdepth) =>
         if (0 <=? offset) && (offset <=? nodeoffset) then
           '(p, pdepth) ← rd (pop_components buf depth p pdepth);
           r ← push_component offset buf buflen depth p pdepth;
           match r with
           | inl err => mret (inr err)
           | inr (p, pdepth) =>
               if offset =? nodeoffset then
                 if pdepth <? depth + 1 then mret (inr (- FDT_ERR_NOSPACE))
                 else
                   let p := if 1 <? p then p - 1 else p in
                   wr (fun m => store8 m (u32 (buf + p)) 0);; mret (inr 0)
               else
                 '(offset, depth') ← rd (fun m => fdt_next_node m fdt offset (Some depth));
                 mret (inl (offset, default 0 depth', p, pdepth))
           end
         else
           mret (inr (if (offset =? - FDT_ERR_NOTFOUND) || (0 <=? offset) then - FDT_ERR_BADOFFSET
                      else if offset =? - FDT_ERR_BADOFFSET then - FDT_ERR_BADSTRUCTURE
                      else offset)))
      (0, 0, 0, 0) m0.
End in_place.

(** One round of a loop. *)
Lemma wloop_step {S A} fuel (body : S → W (S + A)) s m :
  wloop (Datatypes.S fuel) body s m =
  match body s m with
  | Ok (inl s', m') => wloop fuel body s' m'
  | Ok (inr a, m') => Ok (a, m')
  | Fault => Fault
  | NoFuel => NoFuel
  end.
Proof. unfold wloop. cbn [loop]. by destruct (body s m) as [[[s'|a] m']| |]. Qed.
