(* ===== verification/FdtSw.v ===== *)
(** src/libfdt/fdt_sw.c: building a device tree front to back.  The structure block
    grows up from the reservation map, the strings grow down from the end of the
    buffer, and the header of the unfinished tree records how far both have come:
    [magic] is [FDT_SW_MAGIC], [off_dt_strings] is 0 while reservations are added and
    [totalsize] afterwards, [last_comp_version] holds the creation flags. *)
From S2P Require Import Prelude Machine Crt0 SampleTree Fdt FdtRo FdtCheck FdtWrite.
From stdpp Require Import base list gmap.
From Stdlib Require Import ZArith Lia.
#[local] Open Scope Z_scope.

Definition FDT_LAST_COMPATIBLE_VERSION : Z := 0x10.
Definition FDT_CREATE_FLAG_NO_NAME_DEDUP : Z := 0x1.
Definition FDT_CREATE_FLAGS_ALL : Z := FDT_CREATE_FLAG_NO_NAME_DEDUP.

Section sequential.
Context (fdt : Z).

Definition fdt_sw_probe_ (m : mem) : res Z :=
  magic ← fdt_magic m fdt;
  if magic =? FDT_MAGIC then Ok (- FDT_ERR_BADSTATE)
  else
    magic ← fdt_magic m fdt;
    Ok (if negb (magic =? FDT_SW_MAGIC) then - FDT_ERR_BADMAGIC else 0).

Definition fdt_sw_probe_memrsv_ (m : mem) : res Z :=
  err ← fdt_sw_probe_ m;
  if negb (err =? 0) then Ok err
  else strings ← fdt_off_dt_strings m fdt;
       Ok (if negb (strings =? 0) then - FDT_ERR_BADSTATE else 0).

Definition fdt_sw_probe_struct_ (m : mem) : res Z :=
  err ← fdt_sw_probe_ m;
  if negb (err =? 0) then Ok err
  else strings ← fdt_off_dt_strings m fdt; totalsize ← fdt_totalsize m fdt;
       Ok (if negb (strings =? totalsize) then - FDT_ERR_BADSTATE else 0).

(** [FDT_SW_PROBE] and its two variants: return the error, if there is one. *)
Definition sw_guard (probe : mem → res Z) (k : W Z) : W Z :=
  err ← rd probe; if negb (err =? 0) then mret err else k.
Definition FDT_SW_PROBE := sw_guard fdt_sw_probe_.
Definition FDT_SW_PROBE_MEMRSV := sw_guard fdt_sw_probe_memrsv_.
Definition FDT_SW_PROBE_STRUCT := sw_guard fdt_sw_probe_struct_.

Definition sw_flags (m : mem) : res Z := fdt_last_comp_version m fdt.

(** The address of the new space, or the null pointer. *)
Definition fdt_grab_space_ (len : Z) : W Z :=
  offset ← rd (fun m => fdt_size_dt_struct m fdt);
  spaceleft ← rd (fun m => totalsize ← fdt_totalsize m fdt; strct ← fdt_off_dt_struct m fdt;
                           strings ← fdt_size_dt_strings m fdt; Ok (u32 (totalsize - strct - strings)));
  if (u32 (offset + len) <? offset) || (spaceleft <? u32 (offset + len)) then mret 0
  else
    fdt_set_size_dt_struct fdt (u32 (offset + len));;
    rd (fun m => fdt_offset_ptr_ m fdt (s32 offset)).

Definition fdt_create_with_flags (bufsize flags : Z) : W Z :=
  let hdrsize := FDT_ALIGN 40 16 in
  if bufsize <? hdrsize then mret (- FDT_ERR_NOSPACE)
  else if negb (Z.land flags (u32 (Z.lnot FDT_CREATE_FLAGS_ALL)) =? 0) then
    mret (- FDT_ERR_BADFLAGS)
  else
    memset fdt 0 bufsize;;
    fdt_set_magic fdt FDT_SW_MAGIC;;
    fdt_set_version fdt FDT_LAST_SUPPORTED_VERSION;;
    fdt_set_last_comp_version fdt flags;;
    fdt_set_totalsize fdt bufsize;;
    fdt_set_off_mem_rsvmap fdt hdrsize;;
    (rsvmap ← rd (fun m => fdt_off_mem_rsvmap m fdt); fdt_set_off_dt_struct fdt rsvmap);;
    fdt_set_off_dt_strings fdt 0;;
    mret 0.

Definition fdt_create (bufsize : Z) : W Z := fdt_create_with_flags bufsize 0.

(** Moves the head and the tail, in the order that does not clobber either. *)
Definition fdt_resize (buf bufsize : Z) : W Z :=
  FDT_SW_PROBE
    (if bufsize <? 0 then mret (- FDT_ERR_NOSPACE)
     else
       headsize ← rd (fun m => strct ← fdt_off_dt_struct m fdt; size ← fdt_size_dt_struct m fdt;
                               Ok (u32 (strct + size)));
       tailsize ← rd (fun m => fdt_size_dt_strings m fdt);
       totalsize ← rd (fun m => fdt_totalsize m fdt);
       if totalsize <? u32 (headsize + tailsize) then mret (- FDT_ERR_INTERNAL)
       else if bufsize <? u32 (headsize + tailsize) then mret (- FDT_ERR_NOSPACE)
       else
         totalsize ← rd (fun m => fdt_totalsize m fdt);
         let oldtail := u32 (fdt + totalsize - tailsize) in
         let newtail := u32 (buf + bufsize - tailsize) in
         (if buf <=? fdt then
            memmove buf fdt headsize;; memmove newtail oldtail tailsize
          else
            memmove newtail oldtail tailsize;; memmove buf fdt headsize);;
         fdt_set_totalsize buf bufsize;;
         strings ← rd (fun m => fdt_off_dt_strings m buf);
         (if negb (strings =? 0) then fdt_set_off_dt_strings buf bufsize else mret tt);;
         mret 0).

Definition fdt_add_reservemap_entry (addr size : Z) : W Z :=
  FDT_SW_PROBE_MEMRSV
    (offset ← rd (fun m => strct ← fdt_off_dt_struct m fdt; Ok (s32 strct));
     totalsize ← rd (fun m => fdt_totalsize m fdt);
     if totalsize <? u32 (offset + 16) then mret (- FDT_ERR_NOSPACE)
     else
       let re := u32 (fdt + offset) in
       fdt64_put re addr;; fdt64_put (u32 (re + 8)) size;;
       fdt_set_off_dt_struct fdt (u32 (offset + 16));;
       mret 0).

Definition fdt_finish_reservemap : W Z :=
  err ← fdt_add_reservemap_entry 0 0;
  if negb (err =? 0) then mret err
  else totalsize ← rd (fun m => fdt_totalsize m fdt); fdt_set_off_dt_strings fdt totalsize;; mret 0.

Definition fdt_begin_node (name : Z) : W Z :=
  FDT_SW_PROBE_STRUCT
    (namelen ← rd (fun m => n ← strlen name m; Ok (s32 (n + 1)));
     nh ← fdt_grab_space_ (u32 (4 + FDT_TAGALIGN namelen));
     if nh =? 0 then mret (- FDT_ERR_NOSPACE)
     else fdt32_put nh FDT_BEGIN_NODE;; memcpy (u32 (nh + 4)) name (u32 namelen);; mret 0).

Definition fdt_end_node : W Z :=
  FDT_SW_PROBE_STRUCT
    (en ← fdt_grab_space_ FDT_TAGSIZE;
     if en =? 0 then mret (- FDT_ERR_NOSPACE)
     else fdt32_put en FDT_END_NODE;; mret 0).

(** The (negative) offset of the string from the end of the buffer; 0: no room. *)
Definition fdt_add_string_ (s : Z) : W Z :=
  strtab ← rd (fun m => totalsize ← fdt_totalsize m fdt; Ok (u32 (fdt + totalsize)));
  strtabsize ← rd (fun m => fdt_size_dt_strings m fdt);
  len ← rd (fun m => n ← strlen s m; Ok (u32 (n + 1)));
  let offset := u32 (strtabsize + len) in
  struct_top ← rd (fun m => strct ← fdt_off_dt_struct m fdt; size ← fdt_size_dt_struct m fdt;
                            Ok (u32 (strct + size)));
  totalsize ← rd (fun m => fdt_totalsize m fdt);
  if u32 (totalsize - offset) <? struct_top then mret 0
  else
    memcpy (u32 (strtab - offset)) s len;;
    fdt_set_size_dt_strings fdt (u32 (strtabsize + len));;
    mret (s32 (- offset)).

Definition fdt_del_last_string_ (s : Z) : W unit :=
  strtabsize ← rd (fun m => fdt_size_dt_strings m fdt);
  len ← rd (fun m => n ← strlen s m; Ok (n + 1));
  fdt_set_size_dt_strings fdt (u32 (strtabsize - len)).

(** The offset and whether the string was added. *)
Definition fdt_find_add_string_ (s : Z) : W (Z * bool) :=
  strtab ← rd (fun m => totalsize ← fdt_totalsize m fdt; Ok (u32 (fdt + totalsize)));
  strtabsize ← rd (fun m => size ← fdt_size_dt_strings m fdt; Ok (s32 size));
  p ← rd (fun m => fdt_find_string_ m (u32 (strtab - strtabsize)) strtabsize s);
  if negb (p =? 0) then mret (s32 (p - strtab), false)
  else offset ← fdt_add_string_ s; mret (offset, true).

(** The result code and the address of the value. *)
Definition fdt_property_placeholder (name len : Z) : W (Z * Z) := fun m0 =>
  err ← fdt_sw_probe_struct_ m0;
  if negb (err =? 0) then Ok ((err, 0), m0)
  else
    (flags ← rd sw_flags;
     '(nameoff, allocated) ←
       (if negb (Z.land flags FDT_CREATE_FLAG_NO_NAME_DEDUP =? 0)
        then nameoff ← fdt_add_string_ name; mret (nameoff, true)
        else fdt_find_add_string_ name);
     if nameoff =? 0 then mret (- FDT_ERR_NOSPACE, 0)
     else
       prop ← fdt_grab_space_ (u32 (12 + FDT_TAGALIGN len));
       if prop =? 0 then
         (if allocated : bool then fdt_del_last_string_ name else mret tt);;
         mret (- FDT_ERR_NOSPACE, 0)
       else
         fdt32_put prop FDT_PROP;;
         fdt32_put (u32 (prop + 8)) (u32 nameoff);;
         fdt32_put (u32 (prop + 4)) (u32 len);;
         mret (0, u32 (prop + 12))) m0.

Definition fdt_property (name val len : Z) : W Z :=
  '(ret, ptr) ← fdt_property_placeholder name len;
  if negb (ret =? 0) then mret ret
  else (if negb (len =? 0) then memcpy ptr val (u32 len);; mret tt else mret tt);; mret 0.

Definition fdt_property_u32 (tmp name val : Z) : W Z := fdt32_put tmp val;; fdt_property name tmp 4.
Definition fdt_property_u64 (tmp name val : Z) : W Z := fdt64_put tmp val;; fdt_property name tmp 8.
Definition fdt_property_cell (tmp name val : Z) : W Z := fdt_property_u32 tmp name val.

(** The walk of [fdt_finish] over the tags: string offsets counted from the end of
    the buffer become offsets into the relocated table. *)
Definition fix_nameoffs : W Z := fun m0 =>
  wloop (tree_fuel m0 fdt)
    (fun offset =>
       '(tag, nextoffset) ← rd (fun m => fdt_next_tag m fdt offset);
       if tag =? FDT_END then mret (inr nextoffset)
       else if tag =? FDT_PROP then
         prop ← rd (fun m => fdt_offset_ptr_ m fdt offset);
         nameoff ← rd (fun m => fdt32_ld_ m (u32 (prop + 8)));
         size ← rd (fun m => fdt_size_dt_strings m fdt);
         fdt32_put (u32 (prop + 8)) (u32 (nameoff + size));;
         mret (inl nextoffset)
       else mret (inl nextoffset))
    0 m0.

Definition fdt_finish : W Z :=
  FDT_SW_PROBE_STRUCT
    (term ← fdt_grab_space_ 4;
     if term =? 0 then mret (- FDT_ERR_NOSPACE)
     else
       fdt32_put term FDT_END;;
       oldstroffset ← rd (fun m => totalsize ← fdt_totalsize m fdt;
                                   size ← fdt_size_dt_strings m fdt; Ok (s32 (totalsize - size)));
       newstroffset ← rd (fun m => strct ← fdt_off_dt_struct m fdt;
                                   size ← fdt_size_dt_struct m fdt; Ok (s32 (strct + size)));
       size ← rd (fun m => fdt_size_dt_strings m fdt);
       memmove (u32 (fdt + newstroffset)) (u32 (fdt + oldstroffset)) size;;
       fdt_set_off_dt_strings fdt (u32 newstroffset);;
       nextoffset ← fix_nameoffs;
       if nextoffset <? 0 then mret nextoffset
       else
         size ← rd (fun m => fdt_size_dt_strings m fdt);
         fdt_set_totalsize fdt (u32 (newstroffset + size));;
         fdt_set_last_comp_version fdt FDT_LAST_COMPATIBLE_VERSION;;
         fdt_set_magic fdt FDT_MAGIC;;
         mret 0).
End sequential.
