(* ===== verification/FdtRw.v ===== *)
(** src/libfdt/fdt_rw.c, with [fdt_empty_tree.c] and [fdt_appendprop_addrrange] of
    fdt_addresses.c: edits that move the blocks of a finished tree.  Everything
    behind the point of an edit is shifted by [fdt_splice_], within [totalsize]. *)
From S2P Require Import Prelude Machine Crt0 SampleTree Fdt FdtRo FdtCheck FdtWrite FdtSw.
From stdpp Require Import base list gmap.
From Stdlib Require Import ZArith Lia.
From Stdlib Require String.
#[local] Open Scope Z_scope.

Section read_write.
Context `{Platform} (fdt : Z).

(** The sizes are [int]s, converted in the unsigned comparisons. *)
Definition fdt_blocks_misordered_ (m : mem) (mem_rsv_size struct_size : Z) : res bool :=
  rsvmap ← fdt_off_mem_rsvmap m fdt; strct ← fdt_off_dt_struct m fdt;
  strings ← fdt_off_dt_strings m fdt; totalsize ← fdt_totalsize m fdt;
  strings_size ← fdt_size_dt_strings m fdt;
  Ok ((rsvmap <? FDT_ALIGN 40 8)
      || (strct <? u32 (rsvmap + mem_rsv_size))
      || (strings <? u32 (strct + struct_size))
      || (totalsize <? u32 (strings + strings_size))).

Definition fdt_downgrade_version : W unit :=
  version ← rd (fun m => fdt_version m fdt);
  if FDT_LAST_SUPPORTED_VERSION <? version then fdt_set_version fdt FDT_LAST_SUPPORTED_VERSION
  else mret tt.

Definition fdt_rw_probe_ : W Z :=
  totalsize_ ← rd (fun m => fdt_ro_probe_ m fdt);
  if totalsize_ <? 0 then mret totalsize_
  else
    version ← rd (fun m => fdt_version m fdt);
    if version <? 17 then mret (- FDT_ERR_BADVERSION)
    else
      misordered ← rd (fun m => size ← fdt_size_dt_struct m fdt;
                                fdt_blocks_misordered_ m 16 (s32 size));
      if misordered : bool then mret (- FDT_ERR_BADLAYOUT)
      else fdt_downgrade_version;; mret 0.

(** [FDT_RW_PROBE]. *)
Definition FDT_RW_PROBE {A} (fail : Z → A) (k : W A) : W A :=
  err_ ← fdt_rw_probe_; if negb (err_ =? 0) then mret (fail err_) else k.

Definition fdt_data_size_ (m : mem) : res Z :=
  strings ← fdt_off_dt_strings m fdt; size ← fdt_size_dt_strings m fdt; Ok (u32 (strings + size)).

Definition fdt_splice_ (splicepoint oldlen newlen : Z) : W Z :=
  let p := splicepoint in
  dsize ← rd fdt_data_size_;
  let soff := u32 (p - fdt) in
  if (oldlen <? 0) || (u32 (soff + oldlen) <? soff) || (dsize <? u32 (soff + oldlen))
  then mret (- FDT_ERR_BADOFFSET)
  else if (p <? fdt) || (u32 (dsize + newlen) <? u32 oldlen) then mret (- FDT_ERR_BADOFFSET)
  else
    totalsize ← rd (fun m => fdt_totalsize m fdt);
    if totalsize <? u32 (dsize - oldlen + newlen) then mret (- FDT_ERR_NOSPACE)
    else
      memmove (u32 (p + newlen)) (u32 (p + oldlen)) (u32 (fdt + dsize - (p + oldlen)));;
      mret 0.

Definition fdt_splice_mem_rsv_ (p oldn newn : Z) : W Z :=
  let delta := s32 ((newn - oldn) * 16) in
  err ← fdt_splice_ p (s32 (oldn * 16)) (s32 (newn * 16));
  if negb (err =? 0) then mret err
  else
    strct ← rd (fun m => fdt_off_dt_struct m fdt);
    fdt_set_off_dt_struct fdt (u32 (strct + delta));;
    strings ← rd (fun m => fdt_off_dt_strings m fdt);
    fdt_set_off_dt_strings fdt (u32 (strings + delta));;
    mret 0.

Definition fdt_splice_struct_ (p oldlen newlen : Z) : W Z :=
  let delta := s32 (newlen - oldlen) in
  err ← fdt_splice_ p oldlen newlen;
  if negb (err =? 0) then mret err
  else
    size ← rd (fun m => fdt_size_dt_struct m fdt);
    fdt_set_size_dt_struct fdt (u32 (size + delta));;
    strings ← rd (fun m => fdt_off_dt_strings m fdt);
    fdt_set_off_dt_strings fdt (u32 (strings + delta));;
    mret 0.

Definition fdt_del_last_string_ (s : Z) : W unit :=
  newlen ← rd (fun m => n ← strlen s m; Ok (s32 (n + 1)));
  size ← rd (fun m => fdt_size_dt_strings m fdt);
  fdt_set_size_dt_strings fdt (u32 (size - newlen)).

Definition fdt_splice_string_ (newlen : Z) : W Z :=
  p ← rd (fun m => strings ← fdt_off_dt_strings m fdt; size ← fdt_size_dt_strings m fdt;
                   Ok (u32 (fdt + strings + size)));
  err ← fdt_splice_ p 0 newlen;
  if negb (err =? 0) then mret err
  else
    size ← rd (fun m => fdt_size_dt_strings m fdt);
    fdt_set_size_dt_strings fdt (u32 (size + newlen));;
    mret 0.

(** The offset of the string, found or added, or an error; and [*allocated]. *)
Definition fdt_find_add_string_ (s slen : Z) : W (Z * bool) :=
  strtab ← rd (fun m => strings ← fdt_off_dt_strings m fdt; Ok (u32 (fdt + strings)));
  tabsize ← rd (fun m => fdt_size_dt_strings m fdt);
  p ← rd (fun m => fdt_find_string_len_ m strtab (s32 tabsize) s slen);
  if negb (p =? 0) then mret (s32 (p - strtab), false)
  else
    size ← rd (fun m => fdt_size_dt_strings m fdt);
    let new := u32 (strtab + size) in
    err ← fdt_splice_string_ (s32 (slen + 1));
    if negb (err =? 0) then mret (err, false)
    else
      memcpy new s (u32 slen);;
      wr (fun m => store8 m (u32 (new + slen)) 0);;
      mret (s32 (new - strtab), true).

(** [fdt_mem_rsv_w_]: the address of a reservation entry. *)
Definition fdt_mem_rsv_w_ (m : mem) (n : Z) : res Z :=
  rsvmap ← fdt_off_mem_rsvmap m fdt; Ok (u32 (fdt + rsvmap + 16 * n)).

Definition fdt_add_mem_rsv (address size : Z) : W Z :=
  FDT_RW_PROBE id
    (err ← rd (fun m => fdt_num_mem_rsv m fdt);
     if err <? 0 then mret err
     else
       re ← rd (fun m => fdt_mem_rsv_w_ m err);
       err ← fdt_splice_mem_rsv_ re 0 1;
       if negb (err =? 0) then mret err
       else fdt64_put re address;; fdt64_put (u32 (re + 8)) size;; mret 0).

Definition fdt_del_mem_rsv (n : Z) : W Z :=
  re ← rd (fun m => fdt_mem_rsv_w_ m n);
  FDT_RW_PROBE id
    (num ← rd (fun m => fdt_num_mem_rsv m fdt);
     if num <? 0 then mret num
     else if num <=? n then mret (- FDT_ERR_NOTFOUND)
     else fdt_splice_mem_rsv_ re 1 0).

(** The result code and [*prop]. *)
Definition fdt_resize_property_ (nodeoffset name namelen len : Z) : W (Z * Z) :=
  '(prop, oldlen) ← rd (fun m => fdt_get_property_namelen m fdt nodeoffset name namelen);
  if prop =? 0 then mret (oldlen, 0)
  else
    err ← fdt_splice_struct_ (u32 (prop + 12)) (s32 (FDT_TAGALIGN oldlen)) (s32 (FDT_TAGALIGN len));
    if negb (err =? 0) then mret (err, prop)
    else fdt32_put (u32 (prop + 4)) (u32 len);; mret (0, prop).

Definition fdt_add_property_ (nodeoffset name namelen len : Z) : W (Z * Z) :=
  nextoffset ← rd (fun m => fdt_check_node_offset_ m fdt nodeoffset);
  if nextoffset <? 0 then mret (nextoffset, 0)
  else
    '(namestroff, allocated) ← fdt_find_add_string_ name namelen;
    if namestroff <? 0 then mret (namestroff, 0)
    else
      prop ← rd (fun m => fdt_offset_ptr_ m fdt nextoffset);
      let proplen := s32 (12 + FDT_TAGALIGN len) in
      err ← fdt_splice_struct_ prop 0 proplen;
      if negb (err =? 0) then
        (if allocated : bool then fdt_del_last_string_ name else mret tt);; mret (err, prop)
      else
        fdt32_put prop FDT_PROP;;
        fdt32_put (u32 (prop + 8)) (u32 namestroff);;
        fdt32_put (u32 (prop + 4)) (u32 len);;
        mret (0, prop).

Definition fdt_set_name (nodeoffset name : Z) : W Z :=
  FDT_RW_PROBE id
    ('(namep, oldlen) ← rd (fun m => fdt_get_name m fdt nodeoffset);
     if namep =? 0 then mret oldlen
     else
       newlen ← rd (fun m => n ← strlen name m; Ok (s32 n));
       err ← fdt_splice_struct_ namep (s32 (FDT_TAGALIGN (oldlen + 1))) (s32 (FDT_TAGALIGN (newlen + 1)));
       if negb (err =? 0) then mret err
       else memcpy namep name (u32 (newlen + 1));; mret 0).

(** The result code and [*prop_data]. *)
Definition fdt_setprop_placeholder_namelen (nodeoffset name namelen len : Z) : W (Z * Z) :=
  FDT_RW_PROBE (fun e => (e, 0))
    ('(err, prop) ← fdt_resize_property_ nodeoffset name namelen len;
     '(err, prop) ← (if err =? - FDT_ERR_NOTFOUND then fdt_add_property_ nodeoffset name namelen len
                     else mret (err, prop));
     mret (if negb (err =? 0) then (err, 0) else (0, u32 (prop + 12)))).

Definition fdt_setprop_placeholder (nodeoffset name len : Z) : W (Z * Z) :=
  namelen ← rd (strlen name); fdt_setprop_placeholder_namelen nodeoffset name (s32 namelen) len.

Definition fdt_setprop_namelen (nodeoffset name namelen val len : Z) : W Z :=
  '(err, prop_data) ← fdt_setprop_placeholder_namelen nodeoffset name namelen len;
  if negb (err =? 0) then mret err
  else (if negb (len =? 0) then memcpy prop_data val (u32 len);; mret tt else mret tt);; mret 0.

Definition fdt_setprop (nodeoffset name val len : Z) : W Z :=
  namelen ← rd (strlen name); fdt_setprop_namelen nodeoffset name (s32 namelen) val len.

Definition fdt_setprop_u32 (tmp nodeoffset name val : Z) : W Z :=
  fdt32_put tmp val;; fdt_setprop nodeoffset name tmp 4.
Definition fdt_setprop_u64 (tmp nodeoffset name val : Z) : W Z :=
  fdt64_put tmp val;; fdt_setprop nodeoffset name tmp 8.
Definition fdt_setprop_cell (tmp nodeoffset name val : Z) : W Z :=
  fdt_setprop_u32 tmp nodeoffset name val.

Definition fdt_appendprop (nodeoffset name val len : Z) : W Z :=
  FDT_RW_PROBE id
    ('(prop, oldlen) ← rd (fun m => fdt_get_property m fdt nodeoffset name);
     if negb (prop =? 0) then
       let newlen := s32 (len + oldlen) in
       err ← fdt_splice_struct_ (u32 (prop + 12)) (s32 (FDT_TAGALIGN oldlen)) (s32 (FDT_TAGALIGN newlen));
       if negb (err =? 0) then mret err
       else
         fdt32_put (u32 (prop + 4)) (u32 newlen);;
         memcpy (u32 (prop + 12 + oldlen)) val (u32 len);; mret 0
     else
       namelen ← rd (strlen name);
       '(err, prop) ← fdt_add_property_ nodeoffset name (s32 namelen) len;
       if negb (err =? 0) then mret err
       else memcpy (u32 (prop + 12)) val (u32 len);; mret 0).

Definition fdt_appendprop_u32 (tmp nodeoffset name val : Z) : W Z :=
  fdt32_put tmp val;; fdt_appendprop nodeoffset name tmp 4.
Definition fdt_appendprop_u64 (tmp nodeoffset name val : Z) : W Z :=
  fdt64_put tmp val;; fdt_appendprop nodeoffset name tmp 8.
Definition fdt_appendprop_cell (tmp nodeoffset name val : Z) : W Z :=
  fdt_appendprop_u32 tmp nodeoffset name val.

Definition fdt_delprop (nodeoffset name : Z) : W Z :=
  FDT_RW_PROBE id
    ('(prop, len) ← rd (fun m => fdt_get_property m fdt nodeoffset name);
     if prop =? 0 then mret len
     else fdt_splice_struct_ prop (s32 (12 + FDT_TAGALIGN len)) 0).

(** The first tag behind the properties of a node. *)
Definition skip_properties (m : mem) (nextoffset : Z) : res Z :=
  loop (tree_fuel m fdt)
    (fun nextoffset =>
       let offset := nextoffset in
       '(tag, nextoffset) ← fdt_next_tag m fdt offset;
       Ok (if (tag =? FDT_PROP) || (tag =? FDT_NOP) then inl nextoffset else inr offset))
    nextoffset.

Definition fdt_add_subnode_namelen (parentoffset name namelen : Z) : W Z :=
  FDT_RW_PROBE id
    (offset ← rd (fun m => fdt_subnode_offset_namelen m fdt parentoffset name namelen);
     if 0 <=? offset then mret (- FDT_ERR_EXISTS)
     else if negb (offset =? - FDT_ERR_NOTFOUND) then mret offset
     else
       '(tag, nextoffset) ← rd (fun m => fdt_next_tag m fdt parentoffset);
       if negb (tag =? FDT_BEGIN_NODE) then mret (- FDT_ERR_INTERNAL)
       else
         offset ← rd (fun m => skip_properties m nextoffset);
         nh ← rd (fun m => fdt_offset_ptr_ m fdt offset);
         let nodelen := s32 (4 + FDT_TAGALIGN (namelen + 1) + FDT_TAGSIZE) in
         err ← fdt_splice_struct_ nh 0 nodelen;
         if negb (err =? 0) then mret err
         else
           fdt32_put nh FDT_BEGIN_NODE;;
           memset (u32 (nh + 4)) 0 (FDT_TAGALIGN (namelen + 1));;
           memcpy (u32 (nh + 4)) name (u32 namelen);;
           fdt32_put (u32 (nh + nodelen - FDT_TAGSIZE)) FDT_END_NODE;;
           mret offset).

Definition fdt_add_subnode (parentoffset name : Z) : W Z :=
  namelen ← rd (strlen name); fdt_add_subnode_namelen parentoffset name (s32 namelen).

Definition fdt_del_node (nodeoffset : Z) : W Z :=
  FDT_RW_PROBE id
    (endoffset ← rd (fun m => fdt_node_end_offset_ fdt m nodeoffset);
     if endoffset <? 0 then mret endoffset
     else
       p ← rd (fun m => fdt_offset_ptr_ m fdt nodeoffset);
       fdt_splice_struct_ p (s32 (endoffset - nodeoffset)) 0).

(** [old] is [fdt]; the blocks are copied one after the other, so the offsets of
    [old] are read again after each copy. *)
Definition fdt_packblocks_ (new mem_rsv_size struct_size strings_size : Z) : W unit :=
  let mem_rsv_off := FDT_ALIGN 40 8 in
  let struct_off := s32 (mem_rsv_off + mem_rsv_size) in
  let strings_off := s32 (struct_off + struct_size) in
  rsvmap ← rd (fun m => fdt_off_mem_rsvmap m fdt);
  memmove (u32 (new + mem_rsv_off)) (u32 (fdt + rsvmap)) (u32 mem_rsv_size);;
  fdt_set_off_mem_rsvmap new mem_rsv_off;;
  strct ← rd (fun m => fdt_off_dt_struct m fdt);
  memmove (u32 (new + struct_off)) (u32 (fdt + strct)) (u32 struct_size);;
  fdt_set_off_dt_struct new (u32 struct_off);;
  fdt_set_size_dt_struct new (u32 struct_size);;
  strings ← rd (fun m => fdt_off_dt_strings m fdt);
  memmove (u32 (new + strings_off)) (u32 (fdt + strings)) (u32 strings_size);;
  fdt_set_off_dt_strings new (u32 strings_off);;
  size ← rd (fun m => fdt_size_dt_strings m fdt);
  fdt_set_size_dt_strings new size.

(** The size of the structure block of a version 16 tree, by walking it. *)
Definition measure_struct (m : mem) : res Z :=
  loop (tree_fuel m fdt)
    (fun struct_size =>
       '(tag, struct_size) ← fdt_next_tag m fdt struct_size;
       Ok (if tag =? FDT_END then inr struct_size else inl struct_size))
    0.

(** The reordering branch: the converted tree is built where it does not overlap the
    old one, then moved. *)
Definition open_reordered (fdtend buf bufsize mem_rsv_size struct_size : Z) : W Z :=
  size ← rd (fun m => fdt_size_dt_strings m fdt);
  let newsize := s32 (FDT_ALIGN 40 8 + mem_rsv_size + struct_size + size) in
  if bufsize <? newsize then mret (- FDT_ERR_NOSPACE)
  else
    let overlaps := (fdt <? u32 (buf + newsize)) && (buf <? fdtend) in
    let tmp := if overlaps then fdtend else buf in
    if overlaps && (u32 (buf + bufsize) <? u32 (tmp + newsize)) then mret (- FDT_ERR_NOSPACE)
    else
      size ← rd (fun m => fdt_size_dt_strings m fdt);
      fdt_packblocks_ tmp mem_rsv_size struct_size (s32 size);;
      memmove buf tmp (u32 newsize);;
      fdt_set_magic buf FDT_MAGIC;;
      fdt_set_totalsize buf (u32 bufsize);;
      fdt_set_version buf 17;;
      fdt_set_last_comp_version buf 16;;
      cpuid ← rd (fun m => fdt_boot_cpuid_phys m fdt);
      fdt_set_boot_cpuid_phys buf cpuid;;
      mret 0.

Definition fdt_open_into (buf bufsize : Z) : W Z :=
  fdtend ← rd (fun m => totalsize ← fdt_totalsize m fdt; Ok (u32 (fdt + totalsize)));
  totalsize_ ← rd (fun m => fdt_ro_probe_ m fdt);
  if totalsize_ <? 0 then mret totalsize_
  else
    err ← rd (fun m => fdt_num_mem_rsv m fdt);
    if err <? 0 then mret err
    else
      let mem_rsv_size := s32 ((err + 1) * 16) in
      version ← rd (fun m => fdt_version m fdt);
      struct_size ←
        (if 17 <=? version then rd (fun m => size ← fdt_size_dt_struct m fdt; Ok (inl (s32 size)))
         else if version =? 16 then
           rd (fun m => size ← measure_struct m; Ok (if size <? 0 then inr size else inl size))
         else mret (inr (- FDT_ERR_BADVERSION)) : W (Z + Z));
      match struct_size with
      | inr err => mret err
      | inl struct_size =>
          misordered ← rd (fun m => fdt_blocks_misordered_ m mem_rsv_size struct_size);
          if negb misordered then
            err ← (fun m => fdt_move m fdt buf bufsize) : W Z;
            if negb (err =? 0) then mret err
            else
              fdt_set_version buf 17;;
              fdt_set_size_dt_struct buf (u32 struct_size);;
              fdt_set_totalsize buf (u32 bufsize);;
              mret 0
          else open_reordered fdtend buf bufsize mem_rsv_size struct_size
      end.

Definition fdt_pack : W Z :=
  FDT_RW_PROBE id
    (err ← rd (fun m => fdt_num_mem_rsv m fdt);
     if err <? 0 then mret err
     else
       let mem_rsv_size := s32 ((err + 1) * 16) in
       struct_size ← rd (fun m => size ← fdt_size_dt_struct m fdt; Ok (s32 size));
       strings_size ← rd (fun m => size ← fdt_size_dt_strings m fdt; Ok (s32 size));
       fdt_packblocks_ fdt mem_rsv_size struct_size strings_size;;
       dsize ← rd fdt_data_size_;
       fdt_set_totalsize fdt dsize;;
       mret 0).

(* ------------------------------------------------------------------ *)
(** * Address ranges and the empty tree *)

(** The cells of a value: [inr] is an early return. [data] is the address of the
    function's local array. *)
Definition addr_cells_put (data addr_cells addr size : Z) : W (option Z) :=
  if addr_cells =? 1 then
    if (UINT_MAX <? addr) || (u64 (UINT_MAX + 1 - addr) <? size) then mret (Some (- FDT_ERR_BADVALUE))
    else wr (fdt32_st data (u32 addr));; mret None
  else if addr_cells =? 2 then wr (fdt64_st data addr);; mret None
  else mret (Some (- FDT_ERR_BADNCELLS)).

Definition size_cells_put (prop size_cells size : Z) : W (option Z) :=
  if size_cells =? 1 then
    if UINT_MAX <? size then mret (Some (- FDT_ERR_BADVALUE))
    else wr (fdt32_st prop (u32 size));; mret None
  else if size_cells =? 2 then wr (fdt64_st prop size);; mret None
  else mret (Some (- FDT_ERR_BADNCELLS)).

Definition fdt_appendprop_addrrange (data parent nodeoffset name addr size : Z) : W Z :=
  addr_cells ← rd (fun m => fdt_address_cells m fdt parent);
  if addr_cells <? 0 then mret addr_cells
  else
    size_cells ← rd (fun m => fdt_size_cells m fdt parent);
    if size_cells <? 0 then mret size_cells
    else
      bad ← addr_cells_put data addr_cells addr size;
      match bad with
      | Some e => mret e
      | None =>
          bad ← size_cells_put (u32 (data + 4 * addr_cells)) size_cells size;
          match bad with
          | Some e => mret e
          | None => fdt_appendprop nodeoffset name data (s32 ((addr_cells + size_cells) * 4))
          end
      end.
End read_write.

(** Run a step and go on if it returns 0. *)
Definition and_then (step rest : W Z) : W Z :=
  err ← step; if negb (err =? 0) then mret err else rest.

Definition fdt_create_empty_tree `{Platform} (buf bufsize : Z) : W Z :=
  and_then (fdt_create buf bufsize)
    (and_then (fdt_finish_reservemap buf)
      (and_then (fdt_begin_node buf (rodata ""))
        (and_then (fdt_end_node buf)
          (and_then (fdt_finish buf) (fdt_open_into buf buf bufsize))))).
