(* ===== verification/FdtImage.v ===== *)
(** Device trees as bytes: what the stores of the writers do to memory, and the
    header words, items and strings of a tree that lie in it.  The proofs about
    fdt_sw.c and fdt_rw.c reason with these images instead of single stores. *)
From S2P Require Import Prelude Machine Crt0 SampleTree Fdt FdtRo FdtWrite.
From stdpp Require Import base list gmap.
From Stdlib Require Import ZArith Lia.
#[local] Open Scope Z_scope.

(* ------------------------------------------------------------------ *)
(** * Bytes in memory *)

Lemma bytes_at_nil m a : bytes_at m a [].
Proof. by intros [|i] b. Qed.

Lemma bytes_at_ext m m' a bs :
  (∀ x, a <= x < a + Z.of_nat (length bs) → m' !! x = m !! x) → bytes_at m a bs → bytes_at m' a bs.
Proof. intros Hx Hb i b Hi. rewrite Hx; [by apply Hb|]. apply lookup_lt_Some in Hi. lia. Qed.

Lemma bytes_at_outside m m' b n a bs :
  same_outside b n m m' → bytes_at m a bs → a + Z.of_nat (length bs) <= b ∨ b + n <= a → bytes_at m' a bs.
Proof. intros Hs Hb Hd. apply (bytes_at_ext m); [|done]. intros x Hx. apply Hs. lia. Qed.

Lemma map_bytes_other a bs m x :
  x < a ∨ a + Z.of_nat (length bs) <= x → map_bytes a bs m !! x = m !! x.
Proof. intros. rewrite map_bytes_lookup, decide_False by lia. done. Qed.

Lemma bytes_at_other m b ys a xs :
  bytes_at m a xs → a + Z.of_nat (length xs) <= b ∨ b + Z.of_nat (length ys) <= a →
  bytes_at (map_bytes b ys m) a xs.
Proof. intros Hb Hd. apply (bytes_at_ext m); [|done]. intros x Hx. apply map_bytes_other. lia. Qed.

(** A memory that differs in a range is the overlay of the bytes there. *)
Lemma map_bytes_intro a bs m m' :
  same_outside a (Z.of_nat (length bs)) m m' → bytes_at m' a bs → m' = map_bytes a bs m.
Proof.
  intros Hs Hb. apply map_eq. intros x. rewrite map_bytes_lookup. case_decide as Hx; [|by apply Hs].
  destruct (lookup_lt_is_Some_2 bs (Z.to_nat (x - a))) as [c Hc]; [lia|]. rewrite Hc, <- (Hb _ _ Hc).
  f_equal. lia.
Qed.

(** A range that is backed keeps being backed. *)
Definition same_cells (m m' : mem) : Prop := ∀ x, is_Some (m' !! x) ↔ is_Some (m !! x).

Lemma same_cells_refl m : same_cells m m.
Proof. done. Qed.
Lemma same_cells_trans m1 m2 m3 : same_cells m1 m2 → same_cells m2 m3 → same_cells m1 m3.
Proof. intros H12 H23 x. etransitivity; [apply H23|apply H12]. Qed.

Lemma same_cells_mapped m m' a n : same_cells m m' → mapped m a n → mapped m' a n.
Proof. intros Hs Hm x Hx. apply Hs, Hm, Hx. Qed.

Lemma same_cells_words m m' : same_cells m m' → word_backed m → word_backed m'.
Proof. intros Hs Hw x Hx. eapply same_cells_mapped; [done|]. apply Hw, Hs, Hx. Qed.

Lemma map_bytes_cells a bs m : mapped m a (Z.of_nat (length bs)) → same_cells m (map_bytes a bs m).
Proof.
  intros Hm x. rewrite map_bytes_lookup. case_decide as Hx; [|done].
  split; intros _; [by apply Hm|]. apply lookup_lt_is_Some. lia.
Qed.

(* ------------------------------------------------------------------ *)
(** * Words *)

Lemma be32_u8 v : Forall is_u8 (be32 v).
Proof. repeat constructor; apply byte_of_range. Qed.

Lemma length_be32 v : length (be32 v) = 4%nat.
Proof. done. Qed.

(** The swapped word has the bytes in the other order. *)
Lemma be32_swap v :
  [byte_of (fdt32_to_cpu v) 0; byte_of (fdt32_to_cpu v) 1; byte_of (fdt32_to_cpu v) 2;
   byte_of (fdt32_to_cpu v) 3] = be32 v.
Proof.
  destruct (byte_of_combine (byte_of v 3) (byte_of v 2) (byte_of v 1) (byte_of v 0))
    as (Hw & H0 & H1 & H2 & H3); [apply byte_of_range..|].
  set (w := _ + _) in *. assert (fdt32_to_cpu v = w) as ->; [|by rewrite H0, H1, H2, H3].
  rewrite <- (be32_value w Hw), H0, H1, H2, H3. done.
Qed.

Lemma store32_map m a v :
  a mod 4 = 0 → mapped m a 4 →
  store32 m a v = Ok (map_bytes a [byte_of v 0; byte_of v 1; byte_of v 2; byte_of v 3] m).
Proof.
  intros Ha Hm. destruct (store32_spec m a v Ha Hm) as (m' & -> & Hs & Hb). f_equal.
  apply map_bytes_intro; [done|]. intros i b Hi. pose proof (lookup_lt_Some _ _ _ Hi) as Hlt.
  rewrite Hb by (cbn in Hlt; lia). destruct i as [|[|[|[|i]]]]; [exact Hi..|by cbn in Hi].
Qed.

Lemma fdt32_put_map m p v :
  p mod 4 = 0 → mapped m p 4 → fdt32_put p v m = Ok (tt, map_bytes p (be32 v) m).
Proof. intros. unfold fdt32_put, wr. by rewrite store32_map, be32_swap by done. Qed.

Lemma fdt32_ld_bytes m p v :
  bytes_at m p (be32 v) → is_u32 v → 0 <= p → p + 4 <= 2 ^ 32 → fdt32_ld m p = Ok v.
Proof.
  intros Hb Hv Hp Ht. unfold fdt32_ld. rewrite !u32_small by (unfold is_u32; lia).
  pose proof (Hb 0%nat _ eq_refl) as H0. rewrite Z.add_0_r in H0.
  pose proof (Hb 1%nat _ eq_refl : m !! (p + 1) = _) as H1.
  pose proof (Hb 2%nat _ eq_refl : m !! (p + 2) = _) as H2.
  pose proof (Hb 3%nat _ eq_refl : m !! (p + 3) = _) as H3.
  rewrite (load8_ok _ _ _ H0), (load8_ok _ _ _ H1), (load8_ok _ _ _ H2), (load8_ok _ _ _ H3).
  cbn [mbind res_bind]. f_equal. by apply be32_value.
Qed.

Lemma fdt32_ld__bytes m p v :
  bytes_at m p (be32 v) → is_u32 v → p mod 4 = 0 → fdt32_ld_ m p = Ok v.
Proof.
  intros Hb Hv Hp. unfold fdt32_ld_.
  rewrite (load32_of_bytes m p (fdt32_to_cpu v) Hp (fdt32_to_cpu_u32 v)).
  - cbn [mbind res_bind]. by rewrite fdt32_to_cpu_involutive.
  - rewrite <- be32_swap in Hb. intros i Hi.
    assert (i = 0 ∨ i = 1 ∨ i = 2 ∨ i = 3) as [-> | [-> | [-> | ->]]] by lia.
    + exact (Hb 0%nat _ eq_refl).
    + exact (Hb 1%nat _ eq_refl).
    + exact (Hb 2%nat _ eq_refl).
    + exact (Hb 3%nat _ eq_refl).
Qed.

(* ------------------------------------------------------------------ *)
(** * Copies *)

Lemma memcpy_map m dst src bs :
  bytes_at m src bs → mapped m dst (Z.of_nat (length bs)) → Forall is_u8 bs →
  0 <= dst → 0 <= src → dst + Z.of_nat (length bs) <= 2 ^ 32 → src + Z.of_nat (length bs) <= 2 ^ 32 →
  dst + Z.of_nat (length bs) <= src ∨ src + Z.of_nat (length bs) <= dst →
  memcpy dst src (Z.of_nat (length bs)) m = Ok (dst, map_bytes dst bs m).
Proof.
  intros Hb Hm Hu ?????. unfold memcpy. rewrite Nat2Z.id.
  destruct (memcpy_from_spec (length bs) dst src 0 bs m) as (m' & -> & Hs & Hat);
    rewrite ?Z.add_0_r; try done; try lia.
  rewrite Z.add_0_r in Hs, Hat. cbn [mbind res_bind]. by rewrite <- (map_bytes_intro dst bs m m').
Qed.

Lemma memset_map m p c n :
  0 <= n → 0 <= p → p + n <= 2 ^ 32 → mapped m p n →
  memset p c n m = Ok (p, map_bytes p (replicate (Z.to_nat n) (u8 c)) m).
Proof.
  intros Hn Hp Ht Hm. unfold memset.
  destruct (memset_from_spec (Z.to_nat n) p c m) as (m' & -> & Hx); rewrite ?Z2Nat.id; try done.
  cbn [mbind res_bind]. f_equal. f_equal. apply map_eq. intros x. rewrite Hx, map_bytes_lookup, length_replicate.
  rewrite Z2Nat.id by done. case_decide; [|done]. symmetry. apply lookup_replicate. split; [done|lia].
Qed.

Lemma read_bytes_at m a bs :
  bytes_at m a bs → 0 <= a → a + Z.of_nat (length bs) <= 2 ^ 32 → read_bytes (length bs) a m = Ok bs.
Proof.
  revert a. induction bs as [|b bs IH]; intros a Hb Ha Ht; [done|].
  apply bytes_at_cons in Hb as [Hb Hbs]. cbn [read_bytes length] in *. rewrite (load8_ok _ _ _ Hb).
  cbn [mbind res_bind]. destruct bs as [|b' bs']; [done|]. cbn [length] in *.
  rewrite u32_small by (unfold is_u32; lia). by rewrite IH by (done || lia).
Qed.

Lemma write_bytes_map a bs m :
  mapped m a (Z.of_nat (length bs)) → Forall is_u8 bs → 0 <= a → a + Z.of_nat (length bs) <= 2 ^ 32 →
  write_bytes a bs m = Ok (map_bytes a bs m).
Proof.
  revert a m. induction bs as [|b bs IH]; intros a m Hm Hu Ha Ht; [done|]. cbn [write_bytes].
  apply Forall_cons in Hu as [Hu Hus]. cbn [length] in *.
  rewrite store8_ok by (apply Hm; lia). cbn [mbind res_bind]. rewrite u8_small by done.
  assert (map_bytes a (b :: bs) m = map_bytes (a + 1) bs (<[a:=b]> m)) as ->.
  { apply map_eq. intros x. cbn [map_bytes]. rewrite lookup_insert, !map_bytes_lookup, lookup_insert.
    repeat case_decide; try lia; done. }
  destruct bs as [|b' bs']; [done|]. cbn [length] in *.
  rewrite u32_small by (unfold is_u32; lia). apply IH; [|done|lia|lia].
  intros x Hx. rewrite lookup_insert. case_decide; [by eexists|]. apply Hm. lia.
Qed.

Lemma memmove_map m dst src bs :
  bytes_at m src bs → mapped m dst (Z.of_nat (length bs)) → Forall is_u8 bs →
  0 <= dst → 0 <= src → dst + Z.of_nat (length bs) <= 2 ^ 32 → src + Z.of_nat (length bs) <= 2 ^ 32 →
  memmove dst src (Z.of_nat (length bs)) m = Ok (dst, map_bytes dst bs m).
Proof.
  intros. unfold memmove. rewrite Nat2Z.id, read_bytes_at by done. cbn [mbind res_bind].
  by rewrite write_bytes_map.
Qed.

(** A step of a computation that changes memory. *)
Lemma wbind_ok {A B} (k : W A) (f : A → W B) m a m' : k m = Ok (a, m') → (k ≫= f) m = f a m'.
Proof. intros E. unfold mbind, W_bind. by rewrite E. Qed.

Lemma wbind_rd {A B} (g : mem → res A) (f : A → W B) m a : g m = Ok a → (rd g ≫= f) m = f a m.
Proof. intros E. apply wbind_ok. unfold rd. by rewrite E. Qed.

(* ------------------------------------------------------------------ *)
(** * A buffer *)

(** The buffer of a tree: [size] bytes of memory from the word-aligned [fdt] on, away
    from both ends of the address space. *)
Record buffer (m : mem) (fdt size : Z) : Prop := {
  bf_bytes : mem_bytes m;
  bf_words : word_backed m;
  bf_addr : 0 < fdt ∧ fdt mod 8 = 0;
  bf_top : fdt + size + 4 < 2 ^ 32;
  bf_mapped : mapped m fdt size;
}.

Lemma buffer_write m fdt size a bs :
  buffer m fdt size → Forall is_u8 bs → fdt <= a → a + Z.of_nat (length bs) <= fdt + size →
  buffer (map_bytes a bs m) fdt size ∧ same_outside fdt size m (map_bytes a bs m).
Proof.
  intros [Hb Hw Ha Ht Hm] Hu H1 H2.
  assert (same_cells m (map_bytes a bs m)) as Hc.
  { apply map_bytes_cells. intros x Hx. apply Hm. lia. }
  split; [split; try done|].
  - by apply map_bytes_bytes.
  - by eapply same_cells_words.
  - by eapply same_cells_mapped.
  - intros x Hx. apply map_bytes_other. lia.
Qed.

Lemma buffer_mapped m fdt size a n :
  buffer m fdt size → fdt <= a → a + n <= fdt + size → mapped m a n.
Proof. intros [_ _ _ _ Hm] H1 H2 x Hx. apply Hm. lia. Qed.

(* ------------------------------------------------------------------ *)
(** * Header words *)

(** The words [ws] lie from [a] on. *)
Definition words_at (m : mem) (a : Z) (ws : list Z) : Prop :=
  ∀ i w, ws !! i = Some w → bytes_at m (a + 4 * Z.of_nat i) (be32 w).

Lemma words_at_ext m m' a ws :
  (∀ x, a <= x < a + 4 * Z.of_nat (length ws) → m' !! x = m !! x) → words_at m a ws → words_at m' a ws.
Proof.
  intros Hx Hw i w Hi. apply (bytes_at_ext m); [|by apply Hw]. apply lookup_lt_Some in Hi.
  intros x Hr. rewrite length_be32 in Hr. apply Hx. lia.
Qed.

Lemma words_at_other m b ys a ws :
  words_at m a ws → a + 4 * Z.of_nat (length ws) <= b ∨ b + Z.of_nat (length ys) <= a →
  words_at (map_bytes b ys m) a ws.
Proof. intros Hw Hd. apply (words_at_ext m); [|done]. intros x Hx. apply map_bytes_other. lia. Qed.

Lemma words_at_set m a ws i v :
  words_at m a ws → words_at (map_bytes (a + 4 * Z.of_nat i) (be32 v) m) a (<[i := v]> ws).
Proof.
  intros Hw j w Hj. destruct (decide (i = j)) as [<-|Hne].
  - apply list_lookup_insert_Some in Hj as [(_ & <- & _)|[? _]]; [|done]. apply map_bytes_at.
  - rewrite list_lookup_insert_ne in Hj by done. apply bytes_at_other; [by apply Hw|].
    rewrite !length_be32. lia.
Qed.

Lemma header_at m fdt ws i w :
  words_at m fdt ws → ws !! i = Some w → is_u32 w → 0 <= fdt → fdt + 4 * Z.of_nat i + 4 <= 2 ^ 32 →
  fdt_get_header m fdt (4 * Z.of_nat i) = Ok w.
Proof.
  intros Hw Hi Hu Hf Ht. unfold fdt_get_header. rewrite u32_small by (unfold is_u32; lia).
  apply fdt32_ld_bytes; [by apply Hw|done|lia|lia].
Qed.

Lemma set_header_map m fdt size i v :
  buffer m fdt size → (i < 10)%nat → 40 <= size →
  fdt_set_header fdt (4 * Z.of_nat i) v m = Ok (tt, map_bytes (fdt + 4 * Z.of_nat i) (be32 v) m).
Proof.
  intros Hbf Hi Hs. pose proof Hbf as [_ _ [Hf Ha] Ht _]. unfold fdt_set_header.
  rewrite u32_small by (unfold is_u32; lia). apply fdt32_put_map.
  - Z.div_mod_to_equations; lia.
  - eapply buffer_mapped; [done|lia..].
Qed.
