(* ===== verification/FdtBuild.v ===== *)
(** What src/libfdt/fdt_sw.c promises.  [builder] is the specification: the
    reservations, items and strings that a tree under construction has so far, and
    [build_step] is what each call does to them.  [rep] says that memory holds such a
    tree; the theorems say that every call of fdt_sw.c refines its step and never
    writes outside the buffer. *)
From S2P Require Import Prelude Machine Crt0 SampleTree Fdt FdtRo FdtCheck FdtTree FdtLookup FdtWrite FdtSw FdtImage.
From stdpp Require Import base list gmap.
From Stdlib Require Import ZArith Lia.
#[local] Open Scope Z_scope.

(* ------------------------------------------------------------------ *)
(** * The specification *)

Definition align4 (n : Z) : Z := 4 * ((n + 3) / 4).

(** The items of a structure block; [nameoff] is the word stored for the name of a
    property. *)
Inductive item : Type :=
| IBegin (name : list Z)
| IEnd
| IProp (nameoff : Z) (val : list Z).

Definition item_bytes (it : item) : list Z :=
  match it with
  | IBegin name => be32 FDT_BEGIN_NODE ++ name ++ [0]
  | IEnd => be32 FDT_END_NODE
  | IProp nameoff val =>
      be32 FDT_PROP ++ be32 (Z.of_nat (length val)) ++ be32 nameoff ++ val
  end.
Definition item_size (it : item) : Z := align4 (Z.of_nat (length (item_bytes it))).
Definition items_size (its : list item) : Z := foldr (λ it n, item_size it + n) 0 its.

Record builder := Builder {
  b_size : Z;
  b_flags : Z;
  b_open : bool;
  b_rsv : list (Z * Z);
  b_items : list item;
  b_strings : list Z;
}.

(** Where the structure block starts, and where the next item goes. *)
Definition b_struct (st : builder) : Z := 48 + 16 * Z.of_nat (length (b_rsv st)).
Definition b_top (st : builder) : Z := b_struct st + items_size (b_items st).
Definition b_strlen (st : builder) : Z := Z.of_nat (length (b_strings st)).

(** [n] more bytes fit. *)
Definition has_room (st : builder) (n : Z) : bool := b_top st + b_strlen st + n <=? b_size st.

Definition with_items (its : list item) (st : builder) : builder :=
  let 'Builder size flags opened rsv _ strings := st in Builder size flags opened rsv its strings.
Definition with_strings (strings : list Z) (st : builder) : builder :=
  let 'Builder size flags opened rsv its _ := st in Builder size flags opened rsv its strings.
Definition with_rsv (opened : bool) (rsv : list (Z * Z)) (st : builder) : builder :=
  let 'Builder size flags _ _ its strings := st in Builder size flags opened rsv its strings.

Inductive sw_op : Type :=
| AddReservemapEntry (addr size : Z)
| FinishReservemap
| BeginNode (s : Z) (name : list Z)
| EndNode
| Property (s : Z) (name : list Z) (v : Z) (val : list Z).

(** The position of [s] in the table. *)
Fixpoint find_str (tab s : list Z) : option nat :=
  match tab with
  | [] => None
  | _ :: tab' => if decide (take (length s) tab = s) then Some 0%nat else S <$> find_str tab' s
  end.

(** The strings and the word for a property's name: the distance from the end. *)
Definition add_name (st : builder) (name : list Z) : option (list Z * Z) :=
  let s := name ++ [0] in
  match (if Z.land (b_flags st) FDT_CREATE_FLAG_NO_NAME_DEDUP =? 0 then find_str (b_strings st) s else None) with
  | Some i => Some (b_strings st, u32 (Z.of_nat i - b_strlen st))
  | None =>
      if has_room st (Z.of_nat (length s)) then Some (s ++ b_strings st, u32 (- (b_strlen st + Z.of_nat (length s))))
      else None
  end.

Definition add_item (st : builder) (it : item) : Z * builder :=
  if has_room st (item_size it) then (0, with_items (b_items st ++ [it]) st) else (- FDT_ERR_NOSPACE, st).

(** The result of a call and the tree it leaves. *)
Definition build_step (st : builder) (op : sw_op) : Z * builder :=
  match op with
  | AddReservemapEntry addr size =>
      if b_open st then (- FDT_ERR_BADSTATE, st)
      else if has_room st 16 then (0, with_rsv false (b_rsv st ++ [(addr, size)]) st)
      else (- FDT_ERR_NOSPACE, st)
  | FinishReservemap =>
      if b_open st then (- FDT_ERR_BADSTATE, st)
      else if has_room st 16 then (0, with_rsv true (b_rsv st ++ [(0, 0)]) st)
      else (- FDT_ERR_NOSPACE, st)
  | BeginNode _ name => if b_open st then add_item st (IBegin name) else (- FDT_ERR_BADSTATE, st)
  | EndNode => if b_open st then add_item st IEnd else (- FDT_ERR_BADSTATE, st)
  | Property _ name _ val =>
      if b_open st then
        match add_name st name with
        | None => (- FDT_ERR_NOSPACE, st)
        | Some (strings, nameoff) =>
            let it := IProp nameoff val in
            let st' := with_strings strings st in
            if has_room st' (item_size it) then (0, with_items (b_items st ++ [it]) st')
            else (- FDT_ERR_NOSPACE, st)
        end
      else (- FDT_ERR_BADSTATE, st)
  end.

(** The call. *)
Definition run_op (fdt : Z) (op : sw_op) : W Z :=
  match op with
  | AddReservemapEntry addr size => fdt_add_reservemap_entry fdt addr size
  | FinishReservemap => fdt_finish_reservemap fdt
  | BeginNode s _ => fdt_begin_node fdt s
  | EndNode => fdt_end_node fdt
  | Property s _ v val => fdt_property fdt s v (Z.of_nat (length val))
  end.

(* ------------------------------------------------------------------ *)
(** * The tree in memory *)

Definition rsv_words (r : Z * Z) : list Z :=
  [u32 (Z.shiftr r.1 32); u32 r.1; u32 (Z.shiftr r.2 32); u32 r.2].

Definition header_words (st : builder) : list Z :=
  [FDT_SW_MAGIC; b_size st; b_struct st; (if b_open st then b_size st else 0); 48;
   FDT_LAST_SUPPORTED_VERSION; b_flags st; 0; b_strlen st; items_size (b_items st)].

Fixpoint items_at (m : mem) (p : Z) (its : list item) : Prop :=
  match its with
  | [] => True
  | it :: its' => bytes_at m p (item_bytes it) ∧ items_at m (p + item_size it) its'
  end.

(** Items that a tree can have. *)
Definition item_ok (it : item) : Prop :=
  match it with
  | IBegin name => Forall (λ c, c ≠ 0) name ∧ Z.of_nat (length name) < 2 ^ 30
  | IEnd => True
  | IProp nameoff val => is_u32 nameoff ∧ Z.of_nat (length val) < 2 ^ 30
  end.

Record sane (st : builder) : Prop := {
  sn_room : has_room st 0 = true;
  sn_size : b_size st <= INT_MAX;
  sn_flags : is_u32 (b_flags st);
  sn_closed : b_open st = false → b_items st = [] ∧ b_strings st = [];
  sn_items : Forall item_ok (b_items st);
}.

Record rep (m : mem) (fdt : Z) (st : builder) : Prop := {
  rp_buffer : buffer m fdt (b_size st);
  rp_sane : sane st;
  rp_header : words_at m fdt (header_words st);
  rp_rsv : words_at m (fdt + 48) (flat_map rsv_words (b_rsv st));
  rp_items : items_at m (fdt + b_struct st) (b_items st);
  rp_strings : bytes_at m (fdt + b_size st - b_strlen st) (b_strings st);
}.

(** The arguments of a call: strings and values outside the buffer.  The name of a
    property has at most 47 characters. *)
Definition apart (a n fdt size : Z) : Prop := a + n <= fdt ∨ fdt + size <= a.
Definition op_input (m : mem) (fdt size : Z) (op : sw_op) : Prop :=
  match op with
  | AddReservemapEntry addr len => 0 <= addr < 2 ^ 64 ∧ 0 <= len < 2 ^ 64
  | FinishReservemap | EndNode => True
  | BeginNode s name =>
      c_name m s name ∧ apart s (Z.of_nat (length name) + 1) fdt size ∧ Z.of_nat (length name) < 2 ^ 30
  | Property s name v val =>
      c_name m s name ∧ apart s (Z.of_nat (length name) + 1) fdt size ∧ Z.of_nat (length name) < 48 ∧
      bytes_at m v val ∧ apart v (Z.of_nat (length val)) fdt size ∧ 0 < v ∧
      v + Z.of_nat (length val) <= 2 ^ 32 ∧ Z.of_nat (length val) < 2 ^ 30
  end.

(* ------------------------------------------------------------------ *)
(** * Sizes *)

Lemma align4_ge n : 0 <= n → n <= align4 n < n + 4.
Proof. unfold align4. intros. Z.div_mod_to_equations; lia. Qed.

Lemma align4_mod n : align4 n mod 4 = 0.
Proof. unfold align4. rewrite Z.mul_comm. by apply Z.mod_mul. Qed.

Lemma item_size_ge it : Z.of_nat (length (item_bytes it)) <= item_size it.
Proof. unfold item_size. pose proof (align4_ge (Z.of_nat (length (item_bytes it)))). lia. Qed.

Lemma item_size_pos it : 4 <= item_size it.
Proof.
  pose proof (item_size_ge it). destruct it; cbn [item_bytes] in *; rewrite ?length_app in *; cbn in *; lia.
Qed.

Lemma item_size_mod it : item_size it mod 4 = 0.
Proof. apply align4_mod. Qed.

Lemma items_size_app xs ys : items_size (xs ++ ys) = items_size xs + items_size ys.
Proof. induction xs as [|x xs IH]; cbn [app items_size foldr]; [done|]. unfold items_size in *. lia. Qed.

Lemma items_size_pos its : 0 <= items_size its.
Proof. induction its as [|it its IH]; cbn; [done|]. pose proof (item_size_pos it). unfold items_size in IH. lia. Qed.

Lemma items_size_mod its : items_size its mod 4 = 0.
Proof.
  induction its as [|it its IH]; [done|]. cbn. pose proof (item_size_mod it).
  unfold items_size in IH. rewrite Z.add_mod, H, IH by done. done.
Qed.

Lemma items_at_app m p xs ys :
  items_at m p (xs ++ ys) ↔ items_at m p xs ∧ items_at m (p + items_size xs) ys.
Proof.
  revert p. induction xs as [|x xs IH]; intros p; cbn [app items_at items_size foldr].
  - rewrite Z.add_0_r. tauto.
  - rewrite IH, Z.add_assoc. unfold items_size. tauto.
Qed.

Lemma items_at_ext m m' p its :
  (∀ x, p <= x < p + items_size its → m' !! x = m !! x) → items_at m p its → items_at m' p its.
Proof.
  revert p. induction its as [|it its IH]; intros p Hx; [done|]. cbn [items_at items_size foldr] in *.
  fold (items_size its) in Hx. pose proof (item_size_ge it). pose proof (items_size_pos its).
  pose proof (item_size_pos it). intros [Hb Hr]. split.
  - apply (bytes_at_ext m); [|done]. intros x Hr'. apply Hx. lia.
  - apply IH; [|done]. intros x Hr'. apply Hx. lia.
Qed.

Ltac builder_fields :=
  unfold b_top, b_struct, b_strlen in *;
  cbn [b_size b_flags b_open b_rsv b_items b_strings with_items with_strings with_rsv] in *.

Lemma rep_bounds m fdt st :
  rep m fdt st → 0 < fdt ∧ fdt mod 8 = 0 ∧ fdt + b_size st + 4 < 2 ^ 32 ∧ b_size st < 2 ^ 31 ∧
  48 <= b_struct st ∧ 0 <= items_size (b_items st) ∧ 0 <= b_strlen st ∧
  b_struct st + items_size (b_items st) + b_strlen st <= b_size st.
Proof.
  intros [[_ _ [? ?] ? _] [Hr Hs _ _ _] _ _ _ _]. unfold has_room, b_top, INT_MAX in *. apply Z.leb_le in Hr.
  pose proof (items_size_pos (b_items st)). unfold b_struct, b_strlen in *. split_and!; lia.
Qed.

(* ------------------------------------------------------------------ *)
(** * Reading the header *)

Section reads.
Context (m : mem) (fdt : Z) (st : builder) (Hrep : rep m fdt st).

Lemma rep_get i w :
  header_words st !! i = Some w → is_u32 w → fdt_get_header m fdt (4 * Z.of_nat i) = Ok w.
Proof using Hrep.
  intros Hi Hu. pose proof (rep_bounds _ _ _ Hrep). pose proof (lookup_lt_Some _ _ _ Hi) as Hlt.
  cbn in Hlt. eapply header_at; [apply Hrep|done|done|lia|lia].
Qed.

Lemma rep_magic : fdt_magic m fdt = Ok FDT_SW_MAGIC.
Proof using Hrep. by apply (rep_get 0). Qed.
Lemma rep_totalsize : fdt_totalsize m fdt = Ok (b_size st).
Proof using Hrep. pose proof (rep_bounds _ _ _ Hrep). apply (rep_get 1); [done|]. unfold is_u32. lia. Qed.
Lemma rep_struct : fdt_off_dt_struct m fdt = Ok (b_struct st).
Proof using Hrep. pose proof (rep_bounds _ _ _ Hrep). apply (rep_get 2); [done|]. unfold is_u32. lia. Qed.
Lemma rep_off_strings : fdt_off_dt_strings m fdt = Ok (if b_open st then b_size st else 0).
Proof using Hrep.
  pose proof (rep_bounds _ _ _ Hrep). apply (rep_get 3); [done|]. unfold is_u32. destruct (b_open st); lia.
Qed.
Lemma rep_version : fdt_version m fdt = Ok FDT_LAST_SUPPORTED_VERSION.
Proof using Hrep. by apply (rep_get 5). Qed.
Lemma rep_flags : sw_flags fdt m = Ok (b_flags st).
Proof using Hrep. apply (rep_get 6); [done|]. apply Hrep. Qed.
Lemma rep_size_strings : fdt_size_dt_strings m fdt = Ok (b_strlen st).
Proof using Hrep. pose proof (rep_bounds _ _ _ Hrep). apply (rep_get 8); [done|]. unfold is_u32. lia. Qed.
Lemma rep_size_struct : fdt_size_dt_struct m fdt = Ok (items_size (b_items st)).
Proof using Hrep. pose proof (rep_bounds _ _ _ Hrep). apply (rep_get 9); [done|]. unfold is_u32. lia. Qed.

Lemma rep_probe : fdt_sw_probe_ fdt m = Ok 0.
Proof using Hrep. unfold fdt_sw_probe_. by rewrite rep_magic. Qed.

Lemma rep_probe_memrsv : fdt_sw_probe_memrsv_ fdt m = Ok (if b_open st then - FDT_ERR_BADSTATE else 0).
Proof using Hrep.
  pose proof (rep_bounds _ _ _ Hrep). unfold fdt_sw_probe_memrsv_. rewrite rep_probe.
  cbn [mbind res_bind Z.eqb negb]. rewrite rep_off_strings. cbn [mbind res_bind].
  destruct (b_open st); [|done]. by destruct (Z.eqb_spec (b_size st) 0); [lia|].
Qed.

Lemma rep_probe_struct : fdt_sw_probe_struct_ fdt m = Ok (if b_open st then 0 else - FDT_ERR_BADSTATE).
Proof using Hrep.
  pose proof (rep_bounds _ _ _ Hrep). unfold fdt_sw_probe_struct_. rewrite rep_probe.
  cbn [mbind res_bind Z.eqb negb]. rewrite rep_off_strings, rep_totalsize. cbn [mbind res_bind].
  destruct (b_open st); [by rewrite Z.eqb_refl|]. by destruct (Z.eqb_spec 0 (b_size st)); [lia|].
Qed.
End reads.

(* ------------------------------------------------------------------ *)
(** * Changing the header and the free space *)

Lemma buffer_header m fdt size i v :
  buffer m fdt size → (i < 10)%nat → 40 <= size →
  buffer (map_bytes (fdt + 4 * Z.of_nat i) (be32 v) m) fdt size ∧
  same_outside fdt 40 m (map_bytes (fdt + 4 * Z.of_nat i) (be32 v) m).
Proof.
  intros Hb Hi Hs. split.
  - apply buffer_write; [done|apply be32_u8|lia|rewrite length_be32; lia].
  - intros x Hx. apply map_bytes_other. rewrite length_be32. lia.
Qed.

(** The representation from its parts: the header words are replaced, the other
    regions are those of [m], and more items or strings may have been written. *)
Lemma rep_grow m fdt st m' its strings :
  rep m fdt st → buffer m' fdt (b_size st) →
  (b_open st = true) → Forall item_ok its →
  let st' := with_strings (strings ++ b_strings st) (with_items (b_items st ++ its) st) in
  has_room st' 0 = true →
  words_at m' fdt (header_words st') →
  (∀ x, fdt + 48 <= x < fdt + b_top st → m' !! x = m !! x) →
  (∀ x, fdt + b_size st - b_strlen st <= x < fdt + b_size st → m' !! x = m !! x) →
  items_at m' (fdt + b_top st) its → bytes_at m' (fdt + b_size st - b_strlen st') strings →
  rep m' fdt st'.
Proof.
  intros Hrep Hb' Hopen Hits st' Hroom Hw Hsame Hstr Hnew Hs.
  pose proof (rep_bounds _ _ _ Hrep) as Hbd. destruct Hrep as [_ [_ Hsz Hfl _ Hok] _ Hrsv Hit Hst].
  destruct st as [size flags opened rsv items strs]. cbn in Hopen. subst opened.
  unfold b_top, b_struct, b_strlen, st' in *.
  cbn [b_size b_flags b_open b_rsv b_items b_strings with_strings with_items] in *.
  split; unfold b_struct, b_strlen; cbn [b_size b_flags b_open b_rsv b_items b_strings].
  - done.
  - split; try done. by apply Forall_app.
  - done.
  - apply (words_at_ext m); [|done]. intros x Hx. apply Hsame.
    assert (length (flat_map rsv_words rsv) = 4 * length rsv)%nat as Hlen.
    { clear. induction rsv as [|r rsv IH]; [done|]. cbn [flat_map]. rewrite length_app, IH. cbn. lia. }
    rewrite Hlen in Hx. lia.
  - apply items_at_app. split.
    + apply (items_at_ext m); [|done]. intros x Hx. apply Hsame. lia.
    + by rewrite <- Z.add_assoc.
  - apply bytes_at_app. split; [done|]. rewrite length_app.
    replace (fdt + size - Z.of_nat (length strings + length strs) + Z.of_nat (length strings))
      with (fdt + size - Z.of_nat (length strs)) by lia.
    apply (bytes_at_ext m); [|done]. intros x Hx. apply Hstr. lia.
Qed.

(** Memory [m2] differs from [m] in one header word and the new item. *)
Lemma add_item_rep m m2 fdt st it :
  rep m fdt st → b_open st = true → item_ok it → has_room st (item_size it) = true →
  let m1 := map_bytes (fdt + 36) (be32 (items_size (b_items st) + item_size it)) m in
  buffer m2 fdt (b_size st) → same_outside (fdt + b_top st) (item_size it) m1 m2 →
  bytes_at m2 (fdt + b_top st) (item_bytes it) →
  rep m2 fdt (with_items (b_items st ++ [it]) st).
Proof.
  intros Hrep Hopen Hit Hroom m1 Hb2 Hs2 Hnew. pose proof (rep_bounds _ _ _ Hrep) as Hbd.
  pose proof (item_size_ge it) as Hge. pose proof (item_size_pos it) as Hpos.
  unfold has_room in Hroom. apply Z.leb_le in Hroom. unfold b_top in *.
  assert (∀ x, fdt + 48 <= x → x < fdt + b_top st ∨ fdt + b_top st + item_size it <= x → m2 !! x = m !! x) as Hsame.
  { unfold b_top. intros x H1 H2. rewrite Hs2 by lia. apply map_bytes_other. rewrite length_be32. lia. }
  pose proof (rep_grow m fdt st m2 [it] [] Hrep Hb2 Hopen) as Hg. cbv zeta in Hg.
  assert (with_strings ([] ++ b_strings st) (with_items (b_items st ++ [it]) st) =
    with_items (b_items st ++ [it]) st) as Est by (by destruct st).
  rewrite Est in Hg. apply Hg; clear Hg.
  - by repeat constructor.
  - unfold has_room. apply Z.leb_le. clear - Hroom Hbd. destruct st. builder_fields.
    rewrite items_size_app. cbn [items_size foldr]. lia.
  - assert (header_words (with_items (b_items st ++ [it]) st) =
      <[9%nat := items_size (b_items st) + item_size it]> (header_words st)) as ->.
    { destruct st. unfold header_words. cbn -[items_size]. rewrite items_size_app. cbn. by rewrite Z.add_0_r. }
    apply (words_at_ext m1).
    + intros x Hx. rewrite length_insert in Hx. cbn in Hx. apply Hs2. lia.
    + apply (words_at_set m fdt (header_words st) 9), Hrep.
  - unfold b_top. intros x Hx. apply Hsame; unfold b_top; lia.
  - intros x Hx. apply Hsame; unfold b_top; lia.
  - split; [|done]. exact Hnew.
  - apply bytes_at_nil.
Qed.

(** A string below the others, and the header word for it. *)
Lemma add_string_rep m fdt st s :
  rep m fdt st → b_open st = true → has_room st (Z.of_nat (length s)) = true → Forall is_u8 s →
  let m1 := map_bytes (fdt + b_size st - b_strlen st - Z.of_nat (length s)) s m in
  rep (map_bytes (fdt + 32) (be32 (b_strlen st + Z.of_nat (length s))) m1) fdt
    (with_strings (s ++ b_strings st) st).
Proof.
  intros Hrep Hopen Hroom Hu m1. pose proof (rep_bounds _ _ _ Hrep) as Hbd.
  unfold has_room in Hroom. apply Z.leb_le in Hroom. unfold b_top in *.
  destruct (buffer_write m fdt (b_size st) (fdt + b_size st - b_strlen st - Z.of_nat (length s)) s)
    as [Hb1 _]; [apply Hrep|done|lia|lia|].
  destruct (buffer_header m1 fdt (b_size st) 8 (b_strlen st + Z.of_nat (length s)) Hb1) as [Hb2 _]; [lia|lia|].
  assert (with_strings (s ++ b_strings st) (with_items (b_items st ++ []) st) =
    with_strings (s ++ b_strings st) st) as Est by (by destruct st; rewrite app_nil_r).
  pose proof (rep_grow m fdt st _ [] s Hrep Hb2 Hopen) as Hg. cbv zeta in Hg.
  rewrite Est in Hg. apply Hg; clear Hg.
  - constructor.
  - unfold has_room. apply Z.leb_le. clear - Hroom Hbd. destruct st. builder_fields. rewrite length_app. lia.
  - assert (header_words (with_strings (s ++ b_strings st) st) =
      <[8%nat := b_strlen st + Z.of_nat (length s)]> (header_words st)) as ->.
    { destruct st. unfold header_words, b_strlen, b_struct. cbn -[items_size Z.of_nat Z.mul].
      rewrite length_app. repeat f_equal. lia. }
    apply words_at_set. apply words_at_other; [apply Hrep|]. cbn [header_words length]. lia.
  - intros x Hx. change (4 * Z.of_nat 8) with 32. unfold b_top in Hx.
    rewrite map_bytes_other by (rewrite length_be32; lia). apply map_bytes_other. lia.
  - intros x Hx. change (4 * Z.of_nat 8) with 32.
    rewrite map_bytes_other by (rewrite length_be32; lia). apply map_bytes_other. lia.
  - done.
  - assert (b_strlen (with_strings (s ++ b_strings st) st) = b_strlen st + Z.of_nat (length s)) as ->.
    { destruct st. unfold b_strlen. cbn. rewrite length_app. lia. }
    apply bytes_at_other; [|change (4 * Z.of_nat 8) with 32; rewrite length_be32; lia].
    rewrite Z.sub_add_distr. apply map_bytes_at.
Qed.

(** Forgetting the last string. *)
Lemma del_string_rep m fdt st s :
  rep m fdt (with_strings (s ++ b_strings st) st) → b_open st = true →
  rep (map_bytes (fdt + 32) (be32 (b_strlen st)) m) fdt st.
Proof.
  intros Hrep Hopen. pose proof (rep_bounds _ _ _ Hrep) as Hbd.
  destruct Hrep as [Hb [Hr Hsz Hfl _ Hok] Hw Hrsv Hit Hst].
  destruct st as [size flags opened rsv items strs]. cbn in Hopen. subst opened.
  unfold b_struct, b_strlen in *. cbn [b_size b_flags b_open b_rsv b_items b_strings with_strings] in *.
  rewrite length_app in *.
  destruct (buffer_header m fdt size 8 (Z.of_nat (length strs)) Hb) as [Hb2 Hs2]; [lia|lia|].
  change (4 * Z.of_nat 8) with 32 in *.
  split; unfold b_struct, b_strlen; cbn [b_size b_flags b_open b_rsv b_items b_strings].
  - done.
  - split; try done. unfold has_room, b_top, b_struct, b_strlen in *.
    cbn [b_size b_flags b_open b_rsv b_items b_strings] in *. rewrite length_app in Hr.
    apply Z.leb_le in Hr. apply Z.leb_le. lia.
  - assert (header_words (Builder size flags true rsv items strs) =
      <[8%nat := Z.of_nat (length strs)]> (header_words (Builder size flags true rsv items (s ++ strs)))) as ->.
    { done. }
    apply (words_at_set m fdt _ 8). done.
  - apply words_at_other; [done|]. rewrite length_be32. lia.
  - apply (items_at_ext m); [|done]. intros x Hx. apply map_bytes_other. rewrite length_be32. lia.
  - apply bytes_at_app in Hst as [_ Hst]. apply bytes_at_other; [|rewrite length_be32; lia].
    replace (fdt + size - Z.of_nat (length strs)) with
      (fdt + size - Z.of_nat (length s + length strs) + Z.of_nat (length s)) by lia. done.
Qed.

(** [fdt_grab_space_]: the address of the next item and the new header, or null. *)
Lemma grab_ok m fdt st n :
  rep m fdt st → 0 <= n < 2 ^ 31 →
  fdt_grab_space_ fdt n m =
  Ok (if has_room st n then (fdt + b_top st, map_bytes (fdt + 36) (be32 (items_size (b_items st) + n)) m)
      else (0, m)).
Proof.
  intros Hrep Hn. pose proof (rep_bounds _ _ _ Hrep) as Hbd. unfold fdt_grab_space_.
  rewrite (wbind_rd _ _ _ _ (rep_size_struct m fdt st Hrep)).
  erewrite wbind_rd by (rewrite (rep_totalsize m fdt st), (rep_struct m fdt st), (rep_size_strings m fdt st) by done; done).
  unfold has_room, b_top. rewrite !u32_small by (unfold is_u32; lia).
  destruct (Z.ltb_spec (items_size (b_items st) + n) (items_size (b_items st))); [lia|]. cbn [orb].
  destruct (Z.ltb_spec (b_size st - b_struct st - b_strlen st) (items_size (b_items st) + n)),
    (Z.leb_spec (b_struct st + items_size (b_items st) + b_strlen st + n) (b_size st)); try lia; [done|].
  erewrite wbind_ok by (apply (set_header_map m fdt (b_size st) 9); [apply Hrep|lia|lia]).
  change (4 * Z.of_nat 9) with 36. unfold rd, fdt_offset_ptr_.
  assert (fdt_off_dt_struct (map_bytes (fdt + 36) (be32 (items_size (b_items st) + n)) m) fdt = Ok (b_struct st)) as ->.
  { apply (header_at _ fdt (<[9%nat := items_size (b_items st) + n]> (header_words st)) 2);
      [apply (words_at_set m fdt (header_words st) 9), Hrep|done|unfold is_u32; lia|lia|lia]. }
  cbn [mbind res_bind]. rewrite s32_small by (unfold is_s32; lia).
  rewrite u32_small by (unfold is_u32; lia). do 2 f_equal. lia.
Qed.

(* ------------------------------------------------------------------ *)
(** * The calls *)

(** The call [k] gives [r] and leaves the tree [st'], and does not write outside the
    buffer. *)
Definition refines (fdt size : Z) (k : W Z) (m : mem) (r : Z * builder) : Prop :=
  ∃ m', k m = Ok (r.1, m') ∧ rep m' fdt r.2 ∧ same_outside fdt size m m'.

Lemma refines_stay fdt st (k : W Z) m r :
  rep m fdt st → k m = Ok (r, m) → refines fdt (b_size st) k m (r, st).
Proof. intros Hrep Hk. exists m. split_and!; [done|done|apply same_outside_refl]. Qed.

Lemma align4_add n k : align4 (4 * k + n) = 4 * k + align4 n.
Proof. unfold align4. Z.div_mod_to_equations. lia. Qed.

Lemma item_size_begin name : item_size (IBegin name) = 4 + align4 (Z.of_nat (length name) + 1).
Proof.
  unfold item_size, item_bytes. rewrite !length_app, length_be32. cbn [length].
  rewrite <- (align4_add _ 1). f_equal. lia.
Qed.

Lemma item_size_prop nameoff val : item_size (IProp nameoff val) = 12 + align4 (Z.of_nat (length val)).
Proof.
  unfold item_size, item_bytes. rewrite !length_app, !length_be32.
  rewrite <- (align4_add _ 3). f_equal. lia.
Qed.

Lemma bytes_at_u8 m a bs : mem_bytes m → bytes_at m a bs → Forall is_u8 bs.
Proof. intros Hm Hb. apply Forall_lookup. intros i b Hi. eapply Hm. by apply Hb. Qed.

Lemma c_name_bytes m s name : c_name m s name → bytes_at m s (name ++ [0]).
Proof.
  intros ((Hb & _ & H0) & _). apply bytes_at_app. split; [done|]. apply bytes_at_cons.
  split; [done|apply bytes_at_nil].
Qed.

Lemma c_name_outside m m' s name fdt size :
  c_name m s name → same_outside fdt size m m' → apart s (Z.of_nat (length name) + 1) fdt size →
  c_name m' s name.
Proof.
  intros ((Hb & Hn & H0) & Hr) Hs Ha. unfold apart in Ha. split; [|done]. split_and!.
  - eapply bytes_at_outside; [done|done|lia].
  - done.
  - rewrite Hs by lia. done.
Qed.

Lemma strlen_name m s name : c_name m s name → mem_bytes m → word_backed m →
  strlen s m = Ok (Z.of_nat (length name)).
Proof. intros (Hs & ? & ? & ?) Hb Hw. apply strlen_ok; (done || lia). Qed.

Lemma words_at_app m a xs ys :
  words_at m a (xs ++ ys) ↔ words_at m a xs ∧ words_at m (a + 4 * Z.of_nat (length xs)) ys.
Proof.
  split.
  - intros Hw. split; intros i w Hi.
    + apply Hw. by rewrite lookup_app_l by (by eapply lookup_lt_Some).
    + replace (a + 4 * Z.of_nat (length xs) + 4 * Z.of_nat i) with (a + 4 * Z.of_nat (length xs + i)) by lia.
      apply Hw. rewrite lookup_app_r by lia. rewrite <- Hi. f_equal. lia.
  - intros [Hx Hy] i w Hi. apply lookup_app_Some in Hi as [Hi|[Hge Hi]]; [by apply Hx|].
    apply Hy in Hi. replace (a + 4 * Z.of_nat i) with
      (a + 4 * Z.of_nat (length xs) + 4 * Z.of_nat (i - length xs)) by lia. done.
Qed.

Lemma words_at_cons m a w ws :
  words_at m a (w :: ws) ↔ bytes_at m a (be32 w) ∧ words_at m (a + 4) ws.
Proof.
  rewrite (words_at_app m a [w] ws). cbn [length]. change (4 * Z.of_nat 1) with 4. apply and_iff_compat_r. split.
  - intros Hw. rewrite <- (Z.add_0_r a). by apply (Hw 0%nat).
  - intros Hb [|i] w' Hi; [|done]. injection Hi as <-. by rewrite Z.mul_0_r, Z.add_0_r.
Qed.

Lemma length_rsv_words rsv : length (flat_map rsv_words rsv) = (4 * length rsv)%nat.
Proof. induction rsv as [|r rsv IH]; [done|]. cbn [flat_map]. rewrite length_app, IH. cbn. lia. Qed.

Lemma wbind_assoc3 {A B C} (k : W A) (l : W B) (f : W C) m :
  ((k;; l);; f) m = (k;; l;; f) m.
Proof. unfold mbind, W_bind. by destruct (k m) as [[? ?]| |]. Qed.

(** Storing the four words of an entry. *)
Lemma rsv_put_ok m fdt size p r :
  buffer m fdt size → p mod 4 = 0 → fdt <= p → p + 16 <= fdt + size →
  ∃ m1, (fdt64_put p r.1;; fdt64_put (u32 (p + 8)) r.2) m = Ok (tt, m1) ∧ buffer m1 fdt size ∧
    same_outside p 16 m m1 ∧ words_at m1 p (rsv_words r).
Proof.
  intros Hb Hp H1 H2. pose proof Hb as [_ _ [Hf _] Ht _].
  set (w k v m := map_bytes (p + k) (be32 v) m).
  set (m1 := w 12 (u32 r.2) (w 8 (u32 (Z.shiftr r.2 32)) (w 4 (u32 r.1) (w 0 (u32 (Z.shiftr r.1 32)) m)))).
  assert (∀ k v m', 0 <= k <= 12 → buffer m' fdt size → buffer (w k v m') fdt size) as Hw.
  { intros k v m' Hk Hb'. apply buffer_write; [done|apply be32_u8|lia|rewrite length_be32; lia]. }
  assert (∀ k v m', 0 <= k <= 12 → k mod 4 = 0 → buffer m' fdt size →
    fdt32_put (p + k) v m' = Ok (tt, w k v m')) as Hput.
  { intros k v m' Hk Hk4 Hb'. apply fdt32_put_map.
    - rewrite Z.add_mod, Hp, Hk4 by done. done.
    - eapply buffer_mapped; [done|lia..]. }
  exists m1. split_and!.
  - unfold fdt64_put. rewrite (u32_small (p + 4)), (u32_small (p + 8)), (u32_small (p + 8 + 4)) by (unfold is_u32; lia).
    rewrite <- (Z.add_0_r p) at 1. rewrite wbind_assoc3.
    erewrite wbind_ok by (apply Hput; [lia|done|done]).
    erewrite wbind_ok by (apply Hput; [lia|done|by apply Hw]).
    erewrite wbind_ok by (apply Hput; [lia|done|by repeat apply Hw]).
    rewrite <- Z.add_assoc. rewrite Hput by (done || lia || by repeat apply Hw). done.
  - by repeat apply Hw.
  - intros x Hx. unfold m1, w. rewrite !map_bytes_other by (rewrite length_be32; lia). done.
  - unfold rsv_words. rewrite !words_at_cons. unfold m1, w. rewrite <- !Z.add_assoc.
    change (4 + (4 + 4)) with 12. change (4 + 4) with 8. split_and!.
    + do 3 (apply bytes_at_other; [|rewrite !length_be32; lia]). rewrite Z.add_0_r. apply map_bytes_at.
    + do 2 (apply bytes_at_other; [|rewrite !length_be32; lia]). apply map_bytes_at.
    + apply bytes_at_other; [|rewrite !length_be32; lia]. apply map_bytes_at.
    + apply map_bytes_at.
    + by intros [|?] ? ?.
Qed.

Section calls.
Context (m : mem) (fdt : Z) (st : builder) (Hrep : rep m fdt st).

Lemma top_aligned : (fdt + b_top st) mod 4 = 0 ∧ 0 < fdt + b_top st.
Proof using Hrep.
  pose proof (rep_bounds _ _ _ Hrep) as (Hf & Ha & _ & _ & Hs & Hi & _).
  pose proof (items_size_mod (b_items st)) as Hm. unfold b_top, b_struct in *. split; [|lia].
  Z.div_mod_to_equations; lia.
Qed.

Lemma guard_struct (k : W Z) :
  FDT_SW_PROBE_STRUCT fdt k m = if b_open st then k m else Ok (- FDT_ERR_BADSTATE, m).
Proof using Hrep.
  unfold FDT_SW_PROBE_STRUCT, sw_guard. rewrite (wbind_rd _ _ _ _ (rep_probe_struct m fdt st Hrep)).
  by destruct (b_open st).
Qed.

Lemma guard_memrsv (k : W Z) :
  FDT_SW_PROBE_MEMRSV fdt k m = if b_open st then Ok (- FDT_ERR_BADSTATE, m) else k m.
Proof using Hrep.
  unfold FDT_SW_PROBE_MEMRSV, sw_guard. rewrite (wbind_rd _ _ _ _ (rep_probe_memrsv m fdt st Hrep)).
  by destruct (b_open st).
Qed.

(** What [k] does with the space for an item. *)
Definition writes_item (it : item) (k : Z → W Z) : Prop := ∀ m1,
  buffer m1 fdt (b_size st) → same_outside fdt (b_size st) m m1 →
  ∃ m2, k (fdt + b_top st) m1 = Ok (0, m2) ∧ buffer m2 fdt (b_size st) ∧
    same_outside (fdt + b_top st) (item_size it) m1 m2 ∧
    bytes_at m2 (fdt + b_top st) (item_bytes it).

Lemma grab_item it k n :
  b_open st = true → item_ok it → n = item_size it → n < 2 ^ 31 →
  (has_room st n = true → writes_item it k) →
  refines fdt (b_size st)
    (p ← fdt_grab_space_ fdt n; if p =? 0 then mret (- FDT_ERR_NOSPACE) else k p) m (add_item st it).
Proof using Hrep.
  intros Hopen Hit -> Hlt Hk. pose proof (rep_bounds _ _ _ Hrep) as Hbd. pose proof (item_size_pos it).
  unfold add_item. destruct (has_room st (item_size it)) eqn:Hroom.
  - set (m1 := map_bytes (fdt + 36) (be32 (items_size (b_items st) + item_size it)) m).
    destruct (buffer_header m fdt (b_size st) 9 (items_size (b_items st) + item_size it)) as [Hb1 Hs1];
      [apply Hrep|lia|lia|]. change (fdt + 4 * Z.of_nat 9) with (fdt + 36) in *. fold m1 in Hb1, Hs1.
    assert (same_outside fdt (b_size st) m m1) as Hs1'.
    { intros x Hx. apply Hs1. lia. }
    destruct (Hk eq_refl m1 Hb1 Hs1') as (m2 & He & Hb2 & Hs2 & Hbytes).
    exists m2. split; [|split].
    + erewrite wbind_ok by (rewrite (grab_ok m fdt st) by (done || lia); rewrite Hroom; done).
      destruct top_aligned. fold m1. by destruct (Z.eqb_spec (fdt + b_top st) 0); [lia|].
    + by apply (add_item_rep m m2 fdt st it).
    + unfold has_room in Hroom. apply Z.leb_le in Hroom. unfold b_top, b_strlen in *.
      intros x Hx. rewrite Hs2 by lia. by apply Hs1'.
  - apply refines_stay; [done|].
    by erewrite wbind_ok by (rewrite (grab_ok m fdt st) by (done || lia); rewrite Hroom; done).
Qed.

Lemma end_node_ok : refines fdt (b_size st) (fdt_end_node fdt) m (build_step st EndNode).
Proof using Hrep.
  cbn [build_step]. destruct (b_open st) eqn:Hopen.
  2: { apply refines_stay; [done|]. unfold fdt_end_node. by rewrite guard_struct, Hopen. }
  assert (fdt_end_node fdt m =
    (p ← fdt_grab_space_ fdt 4; if p =? 0 then mret (- FDT_ERR_NOSPACE)
     else (fdt32_put p FDT_END_NODE;; mret 0)) m) as He.
  { unfold fdt_end_node. by rewrite guard_struct, Hopen. }
  unfold refines. rewrite He. apply grab_item; [done|done|done|lia|].
  intros Hroom m1 Hb1 _. unfold has_room in Hroom. apply Z.leb_le in Hroom.
  destruct top_aligned as [Ha Hp]. pose proof (rep_bounds _ _ _ Hrep). unfold b_top in *.
  exists (map_bytes (fdt + (b_struct st + items_size (b_items st))) (be32 FDT_END_NODE) m1). split_and!.
  - by erewrite wbind_ok by (apply fdt32_put_map; [done|eapply buffer_mapped; [done|lia..]]).
  - apply buffer_write; [done|apply be32_u8|lia|rewrite length_be32; lia].
  - intros x Hx. apply map_bytes_other. rewrite length_be32. change (item_size IEnd) with 4 in Hx. lia.
  - apply map_bytes_at.
Qed.

Lemma begin_node_ok s name :
  op_input m fdt (b_size st) (BeginNode s name) →
  refines fdt (b_size st) (fdt_begin_node fdt s) m (build_step st (BeginNode s name)).
Proof using Hrep.
  intros (Hs & Hap & Hlen). cbn [build_step]. pose proof (rep_bounds _ _ _ Hrep) as Hbd.
  destruct (b_open st) eqn:Hopen.
  2: { apply refines_stay; [done|]. unfold fdt_begin_node. by rewrite guard_struct, Hopen. }
  pose proof (rp_buffer _ _ _ Hrep) as Hb. pose proof (align4_ge (Z.of_nat (length name) + 1)) as Hal.
  pose proof (item_size_begin name) as Hsz.
  assert (fdt_begin_node fdt s m =
    (p ← fdt_grab_space_ fdt (item_size (IBegin name)); if p =? 0 then mret (- FDT_ERR_NOSPACE)
     else (fdt32_put p FDT_BEGIN_NODE;;
           memcpy (u32 (p + 4)) s (u32 (Z.of_nat (length name) + 1));; mret 0)) m) as He.
  { unfold fdt_begin_node. rewrite guard_struct, Hopen.
    erewrite wbind_rd by (rewrite (strlen_name m s name Hs) by apply Hb; done).
    rewrite s32_small by (unfold is_s32; lia). rewrite tagalign_eq by lia.
    fold (align4 (Z.of_nat (length name) + 1)). by rewrite <- Hsz, (u32_small (item_size _)) by (unfold is_u32; lia). }
  unfold refines. rewrite He. apply grab_item; [done| |done|lia|].
  { split; [apply Hs|done]. }
  intros Hroom m1 Hb1 Hs1. unfold has_room in Hroom. apply Z.leb_le in Hroom.
  destruct top_aligned as [Ha Hp]. set (p := fdt + b_top st) in *.
  assert (p + item_size (IBegin name) <= fdt + b_size st ∧ fdt + 48 <= p) as [Hend Hbeg]
    by (unfold p, b_top, b_strlen in *; lia).
  set (m2 := map_bytes p (be32 FDT_BEGIN_NODE) m1).
  assert (buffer m2 fdt (b_size st) ∧ same_outside fdt (b_size st) m1 m2) as [Hb2 Hs2].
  { apply buffer_write; [done|apply be32_u8|lia|rewrite length_be32; lia]. }
  assert (c_name m2 s name) as Hs'.
  { eapply c_name_outside; [|exact Hs2|done]. by eapply c_name_outside. }
  pose proof (c_name_bytes _ _ _ Hs') as Hbytes.
  assert (Z.of_nat (length (name ++ [0])) = Z.of_nat (length name) + 1) as Hl
    by (rewrite length_app; cbn; lia).
  pose proof (bytes_at_u8 _ _ _ (bf_bytes _ _ _ Hb2) Hbytes) as Hu.
  assert (buffer (map_bytes (p + 4) (name ++ [0]) m2) fdt (b_size st) ∧ True) as [Hb3 _].
  { split; [|done]. apply buffer_write; [done|done|lia|lia]. }
  exists (map_bytes (p + 4) (name ++ [0]) m2). split_and!.
  - erewrite wbind_ok by (apply fdt32_put_map; [done|eapply buffer_mapped; [done|lia..]]). fold m2.
    rewrite !u32_small by (unfold is_u32; lia). rewrite <- Hl.
    destruct Hs as (_ & ? & ? & _). unfold apart in Hap.
    by erewrite wbind_ok by (apply memcpy_map; [done|eapply buffer_mapped; [done|lia..]|done|lia..]).
  - done.
  - intros x Hx. rewrite map_bytes_other by lia. apply map_bytes_other. rewrite length_be32. lia.
  - cbn [item_bytes]. apply bytes_at_app. split.
    + apply bytes_at_other; [apply map_bytes_at|rewrite length_be32; lia].
    + rewrite length_be32. apply map_bytes_at.
Qed.

(** A reservation behind the others, in the first phase. *)
Lemma rsv_rep opened r m' :
  b_open st = false → has_room st 16 = true → buffer m' fdt (b_size st) →
  let st' := with_rsv opened (b_rsv st ++ [r]) st in
  words_at m' fdt (header_words st') → words_at m' (fdt + b_struct st) (rsv_words r) →
  (∀ x, fdt + 48 <= x < fdt + b_struct st → m' !! x = m !! x) → rep m' fdt st'.
Proof using Hrep.
  intros Hclosed Hroom Hb' st' Hw Hnew Hsame. unfold has_room in Hroom. apply Z.leb_le in Hroom.
  destruct Hrep as [_ [_ Hsz Hfl Hcl _] _ Hrsv _ _]. destruct (Hcl Hclosed) as [Ei Es].
  destruct st as [size flags o rsv items strs]. cbn in Ei, Es, Hclosed. subst. unfold st' in *.
  builder_fields. split; builder_fields.
  - done.
  - split; builder_fields; try done. unfold has_room. builder_fields. apply Z.leb_le.
    rewrite length_app. cbn [length items_size foldr] in *. lia.
  - done.
  - rewrite flat_map_app. cbn [flat_map]. rewrite app_nil_r. apply words_at_app.
    rewrite length_rsv_words. split.
    + apply (words_at_ext m); [|done]. intros x Hx. rewrite length_rsv_words in Hx. apply Hsame. lia.
    + replace (fdt + 48 + 4 * Z.of_nat (4 * length rsv)) with (fdt + (48 + 16 * Z.of_nat (length rsv))) by lia.
      done.
  - done.
  - apply bytes_at_nil.
Qed.

(** The memory after an entry and the header word behind it. *)
Lemma add_reservemap_ok addr len :
  0 <= addr < 2 ^ 64 → 0 <= len < 2 ^ 64 → b_open st = false → has_room st 16 = true →
  ∃ m1, fdt_add_reservemap_entry fdt addr len m =
      Ok (0, map_bytes (fdt + 8) (be32 (b_struct st + 16)) m1) ∧
    buffer m1 fdt (b_size st) ∧ same_outside (fdt + b_struct st) 16 m m1 ∧
    words_at m1 (fdt + b_struct st) (rsv_words (addr, len)).
Proof using Hrep.
  intros Ha Hl Hclosed Hroom. pose proof (rep_bounds _ _ _ Hrep) as Hbd.
  destruct (sn_closed _ (rp_sane _ _ _ Hrep) Hclosed) as [Ei Es].
  unfold has_room in Hroom. apply Z.leb_le in Hroom. unfold b_top, b_strlen in *. rewrite Ei, Es in *.
  cbn [items_size foldr length Z.of_nat] in *. set (re := fdt + b_struct st).
  assert (re mod 4 = 0) as Hre by (unfold re, b_struct; destruct Hbd as (_ & ? & _); Z.div_mod_to_equations; lia).
  destruct (rsv_put_ok m fdt (b_size st) re (addr, len)) as (m1 & He & Hb1 & Hs1 & Hw1);
    [apply Hrep|done|unfold re; lia..|].
  exists m1. split_and!; [|done|done|done]. unfold fdt_add_reservemap_entry. rewrite guard_memrsv, Hclosed.
  erewrite wbind_rd by (rewrite (rep_struct m fdt st Hrep); done).
  erewrite wbind_rd by (apply (rep_totalsize m fdt st Hrep)).
  rewrite !s32_small by (unfold is_s32; lia). rewrite (u32_small (b_struct st + 16)) by (unfold is_u32; lia).
  destruct (Z.ltb_spec (b_size st) (b_struct st + 16)); [lia|].
  rewrite (u32_small (fdt + b_struct st)) by (unfold is_u32; lia). fold re. rewrite <- (wbind_assoc3 _ _ _ m).
  erewrite wbind_ok by exact He.
  erewrite wbind_ok by (apply (set_header_map m1 fdt (b_size st) 2); [done|lia|lia]). done.
Qed.

Lemma add_reservemap_refines addr len :
  op_input m fdt (b_size st) (AddReservemapEntry addr len) →
  refines fdt (b_size st) (fdt_add_reservemap_entry fdt addr len) m
    (build_step st (AddReservemapEntry addr len)).
Proof using Hrep.
  intros [Ha Hl]. cbn [build_step]. pose proof (rep_bounds _ _ _ Hrep) as Hbd.
  destruct (b_open st) eqn:Hopen.
  { apply refines_stay; [done|]. unfold fdt_add_reservemap_entry. by rewrite guard_memrsv, Hopen. }
  destruct (has_room st 16) eqn:Hroom.
  - destruct (add_reservemap_ok addr len) as (m1 & He & Hb1 & Hs1 & Hw1); [done..|].
    destruct (buffer_header m1 fdt (b_size st) 2 (b_struct st + 16) Hb1) as [Hb2 Hs2]; [lia|lia|].
    change (4 * Z.of_nat 2) with 8 in *. unfold has_room in Hroom. apply Z.leb_le in Hroom. unfold b_top in Hroom.
    eexists. split_and!; [exact He| |].
    + apply rsv_rep; [done| |done| |..].
      * by apply Z.leb_le.
      * assert (header_words (with_rsv false (b_rsv st ++ [(addr, len)]) st) =
          <[2%nat := b_struct st + 16]> (header_words st)) as ->.
        { clear - Hopen. destruct st. unfold header_words. builder_fields. subst. rewrite length_app. cbn [length].
          rewrite Nat2Z.inj_add, Z.mul_add_distr_l, Z.add_assoc. done. }
        apply (words_at_set m1 fdt _ 2). apply (words_at_ext m); [|apply Hrep].
        intros x Hx. cbn [header_words length] in Hx. apply Hs1. lia.
      * apply words_at_other; [done|]. rewrite length_be32. cbn [rsv_words length]. lia.
      * intros x Hx. rewrite map_bytes_other by (rewrite length_be32; lia). apply Hs1. lia.
    + intros x Hx. rewrite map_bytes_other by (rewrite length_be32; lia). apply Hs1. unfold b_strlen in *. lia.
  - apply refines_stay; [done|]. unfold has_room in Hroom. apply Z.leb_gt in Hroom.
    destruct (sn_closed _ (rp_sane _ _ _ Hrep) Hopen) as [Ei Es]. unfold b_top, b_strlen in *. rewrite Ei, Es in *.
    cbn [items_size foldr length Z.of_nat] in *.
    unfold fdt_add_reservemap_entry. rewrite guard_memrsv, Hopen.
    erewrite wbind_rd by (rewrite (rep_struct m fdt st Hrep); done).
    erewrite wbind_rd by (apply (rep_totalsize m fdt st Hrep)).
    rewrite s32_small by (unfold is_s32; lia). rewrite u32_small by (unfold is_u32; lia).
    by destruct (Z.ltb_spec (b_size st) (b_struct st + 16)); [|lia].
Qed.

(** The second phase starts. *)
Lemma open_rep :
  b_open st = false → rep (map_bytes (fdt + 12) (be32 (b_size st)) m) fdt (with_rsv true (b_rsv st) st).
Proof using Hrep.
  intros Hclosed. pose proof (rep_bounds _ _ _ Hrep) as Hbd.
  destruct Hrep as [Hb [Hr Hsz Hfl Hcl Hok] Hw Hrsv _ _]. destruct (Hcl Hclosed) as [Ei Es].
  destruct (buffer_header m fdt (b_size st) 3 (b_size st) Hb) as [Hb2 Hs2]; [lia|lia|].
  change (4 * Z.of_nat 3) with 12 in *.
  destruct st as [size flags o rsv items strs]. builder_fields. subst. split; builder_fields.
  - done.
  - split; done.
  - apply (words_at_set m fdt (header_words (Builder size flags false rsv [] [])) 3). done.
  - apply words_at_other; [done|]. rewrite length_be32. lia.
  - done.
  - apply bytes_at_nil.
Qed.
End calls.

Lemma finish_reservemap_refines m fdt st :
  rep m fdt st → refines fdt (b_size st) (fdt_finish_reservemap fdt) m (build_step st FinishReservemap).
Proof.
  intros Hrep. pose proof (rep_bounds _ _ _ Hrep) as Hbd.
  destruct (add_reservemap_refines m fdt st Hrep 0 0) as (m1 & He & Hrep1 & Hs1); [split; lia|].
  cbn [build_step] in *. destruct (b_open st) eqn:Hopen; [|destruct (has_room st 16) eqn:Hroom].
  1, 3: exists m1; split_and!; [|done|done]; unfold fdt_finish_reservemap; by rewrite (wbind_ok _ _ _ _ _ He).
  cbn [fst snd] in *. set (st1 := with_rsv false (b_rsv st ++ [(0, 0)]) st) in *.
  assert (b_size st1 = b_size st ∧ b_open st1 = false) as [Esz Ecl] by (by destruct st).
  pose proof (open_rep m1 fdt st1 Hrep1 Ecl) as Hrep2.
  destruct (buffer_header m1 fdt (b_size st) 3 (b_size st)) as [Hb2 Hs2];
    [rewrite <- Esz; apply Hrep1|lia|lia|]. change (4 * Z.of_nat 3) with 12 in *. rewrite Esz in Hrep2.
  exists (map_bytes (fdt + 12) (be32 (b_size st)) m1). split_and!.
  - unfold fdt_finish_reservemap. rewrite (wbind_ok _ _ _ _ _ He). cbn [Z.eqb negb].
    rewrite (wbind_rd _ _ _ _ (rep_totalsize m1 fdt st1 Hrep1)), Esz.
    erewrite wbind_ok by (apply (set_header_map m1 fdt (b_size st) 3); [rewrite <- Esz; apply Hrep1|lia|lia]).
    done.
  - replace (with_rsv true (b_rsv st ++ [(0, 0)]) st) with (with_rsv true (b_rsv st1) st1); [done|]. by destruct st.
  - intros x Hx. rewrite Hs2 by lia. by apply Hs1.
Qed.

(* ------------------------------------------------------------------ *)
(** * Property names *)

Lemma find_str_short tab s : (length tab < length s)%nat → find_str tab s = None.
Proof.
  induction tab as [|b tab IH]; intros Hl; [done|]. cbn [find_str length] in *.
  rewrite decide_False; [by rewrite IH by lia|]. intros E. apply (f_equal length) in E.
  rewrite length_take in E. cbn [length] in *. lia.
Qed.

Lemma find_str_lt tab s i : find_str tab s = Some i → (i < length tab)%nat.
Proof.
  revert i. induction tab as [|b tab IH]; intros i; [done|]. cbn [find_str length].
  case_decide; [intros [= <-]; lia|]. destruct (find_str tab s) as [j|]; [|done].
  intros [= <-]. specialize (IH j eq_refl). lia.
Qed.

Lemma find_str_spec tab s i : find_str tab s = Some i → ∃ pre post, tab = pre ++ s ++ post ∧ length pre = i.
Proof.
  revert i. induction tab as [|c tab IH]; intros i; cbn [find_str]; [done|].
  case_decide as Ht.
  - intros [= <-]. exists [], (drop (length s) (c :: tab)). split; [|done]. cbn [app].
    rewrite <- Ht at 1. by rewrite take_drop.
  - destruct (find_str tab s) as [j|]; [|done]. intros [= <-].
    destruct (IH j eq_refl) as (pre & post & -> & <-). by exists (c :: pre), post.
Qed.

Lemma take_name tab name :
  take (length (name ++ [0])) tab = name ++ [0] ↔ take (length name) tab = name ∧ tab !! length name = Some 0.
Proof.
  rewrite length_app. cbn [length]. rewrite Nat.add_1_r. split.
  - intros E. assert (tab !! length name = Some 0) as H0.
    { rewrite <- (lookup_take_lt _ _ _ (Nat.lt_succ_diag_r _)), E. by rewrite lookup_app_r, Nat.sub_diag by lia. }
    split; [|done]. rewrite (take_S_r _ _ _ H0) in E. by apply app_inj_tail in E as [? _].
  - intros [E H0]. by rewrite (take_S_r _ _ _ H0), E.
Qed.

Section names.
Context (m : mem) (s : Z) (name : list Z).
Context (Hname : bytes_at m s name) (Hs : 0 < s) (Hst : s + Z.of_nat (length name) < 2 ^ 32).

Lemma find_string_from_ok n tab p :
  bytes_at m p tab → n = (length tab - length name)%nat → 0 < p → p + Z.of_nat (length tab) < 2 ^ 32 →
  find_string_from m n p s (Z.of_nat (length name)) =
  Ok (match find_str tab (name ++ [0]) with Some i => p + Z.of_nat i | None => 0 end).
Proof using Hname Hs Hst.
  intros Htab -> Hp Ht. revert p Htab Hp Ht. induction tab as [|b tab IH]; intros p Htab Hp Ht; [done|].
  destruct (decide (length (b :: tab) <= length name)%nat) as [Hle|Hgt].
  { rewrite find_str_short by (rewrite length_app; cbn in *; lia).
    by replace (length (b :: tab) - length name)%nat with 0%nat by lia. }
  replace (length (b :: tab) - length name)%nat with (S (length tab - length name)) by (cbn in *; lia).
  cbn [find_string_from find_str].
  assert (bytes_at m p (take (length name) (b :: tab))) as Hpre.
  { intros i c Hi. apply Htab. rewrite lookup_take_Some in Hi. tauto. }
  destruct (memcmp_ok m p s (Z.of_nat (length name)) (take (length name) (b :: tab)) name) as (r & -> & Hr & _);
    [done|done|rewrite length_take; lia|done|lia|cbn [length] in *; lia|lia|lia|].
  destruct (lookup_lt_is_Some_2 (b :: tab) (length name)) as [c Hc]; [lia|].
  cbn [mbind res_bind]. apply bytes_at_cons in Htab as Htab'. destruct Htab' as [_ Htl].
  assert (find_string_from m (length tab - length name) (p + 1) s (Z.of_nat (length name)) =
    Ok (match find_str tab (name ++ [0]) with Some i => p + 1 + Z.of_nat i | None => 0 end)) as Hrest.
  { apply IH; [done|lia|cbn [length] in *; lia]. }
  assert (Ok (match S <$> find_str tab (name ++ [0]) with Some i => p + Z.of_nat i | None => 0 end) =
    Ok (match find_str tab (name ++ [0]) with Some i => p + 1 + Z.of_nat i | None => 0 end)) as Hshift.
  { destruct (find_str tab (name ++ [0])); [|done]. cbn [fmap option_fmap option_map]. f_equal. lia. }
  rewrite (u32_small (p + 1)) by (cbn [length] in *; unfold is_u32; lia).
  destruct (Z.eqb_spec r 0) as [Hz|Hnz].
  - rewrite u32_small by (cbn [length] in *; unfold is_u32; lia). rewrite (load8_ok m _ c) by (by apply Htab).
    cbn [mbind res_bind]. destruct (Z.eqb_spec c 0) as [->|Hc0].
    + rewrite decide_True by (apply take_name; split; [by apply Hr|done]). by rewrite Z.add_0_r.
    + rewrite decide_False by (rewrite take_name, Hc; intros [_ [=]]; lia). by rewrite Hrest, Hshift.
  - cbn [mbind res_bind]. rewrite decide_False by (rewrite take_name, <- Hr; tauto). by rewrite Hrest, Hshift.
Qed.

Lemma find_string_len_ok tab p :
  bytes_at m p tab → Z.of_nat (length name) + 1 <= p → p + Z.of_nat (length tab) < 2 ^ 32 →
  fdt_find_string_len_ m p (Z.of_nat (length tab)) s (Z.of_nat (length name)) =
  Ok (match find_str tab (name ++ [0]) with Some i => p + Z.of_nat i | None => 0 end).
Proof using Hname Hs Hst.
  intros Htab Hp Ht. unfold fdt_find_string_len_. rewrite u32_small by (unfold is_u32; lia).
  apply find_string_from_ok; [done|lia|lia|done].
Qed.
End names.

Section property.
Context (m : mem) (fdt : Z) (st : builder) (Hrep : rep m fdt st) (Hopen : b_open st = true).
Context (s : Z) (name : list Z) (Hname : c_name m s name).
Context (Hap : apart s (Z.of_nat (length name) + 1) fdt (b_size st)) (Hlen : Z.of_nat (length name) < 48).

#[local] Abbreviation str := (name ++ [0]).

Lemma length_str : Z.of_nat (length str) = Z.of_nat (length name) + 1.
Proof using. rewrite length_app. cbn. lia. Qed.

(** A new string: its distance from the end, or 0 and an unchanged memory. *)
Lemma add_string_ok :
  if has_room st (Z.of_nat (length str)) then
    ∃ m', fdt_add_string_ fdt s m = Ok (- (b_strlen st + Z.of_nat (length str)), m') ∧
      rep m' fdt (with_strings (str ++ b_strings st) st) ∧ same_outside fdt (b_size st) m m'
  else fdt_add_string_ fdt s m = Ok (0, m).
Proof using Hrep Hopen Hname Hap Hlen.
  pose proof (rep_bounds _ _ _ Hrep) as Hbd. pose proof length_str as Hl.
  pose proof (rp_buffer _ _ _ Hrep) as Hb. set (n := Z.of_nat (length str)) in *.
  assert (∀ r, (if b_size st - (b_strlen st + n) <? b_struct st + items_size (b_items st) then mret 0
    else (memcpy (fdt + b_size st - (b_strlen st + n)) s n;;
          fdt_set_size_dt_strings fdt (b_strlen st + n);; mret (- (b_strlen st + n)))) m = r →
    fdt_add_string_ fdt s m = r) as Hgo.
  { intros r <-. unfold fdt_add_string_.
    rewrite (wbind_rd _ _ _ (u32 (fdt + b_size st))) by (rewrite (rep_totalsize m fdt st Hrep); done).
    rewrite (wbind_rd _ _ _ _ (rep_size_strings m fdt st Hrep)).
    rewrite (wbind_rd _ _ _ n).
    2: { rewrite (strlen_name m s name Hname) by apply Hb. cbn [mbind res_bind].
         rewrite u32_small by (unfold is_u32; lia). by rewrite Hl. }
    rewrite (wbind_rd _ _ _ (b_struct st + items_size (b_items st))).
    2: { rewrite (rep_struct m fdt st Hrep), (rep_size_struct m fdt st Hrep). cbn [mbind res_bind].
         by rewrite u32_small by (unfold is_u32; lia). }
    rewrite (wbind_rd _ _ _ _ (rep_totalsize m fdt st Hrep)).
    rewrite !(u32_small (fdt + b_size st)), !(u32_small (b_strlen st + n)) by (unfold is_u32; lia).
    rewrite (u32_small (b_size st - _)), (u32_small (fdt + b_size st - _)), s32_small
      by (unfold is_u32, is_s32; lia). done. }
  unfold has_room, b_top. destruct (Z.leb_spec (b_struct st + items_size (b_items st) + b_strlen st + n) (b_size st)).
  2: { apply Hgo. destruct (Z.ltb_spec (b_size st - (b_strlen st + n)) (b_struct st + items_size (b_items st))); [done|lia]. }
  pose proof (c_name_bytes _ _ _ Hname) as Hbytes.
  pose proof (bytes_at_u8 _ _ _ (bf_bytes _ _ _ Hb) Hbytes) as Hu. destruct Hname as (_ & ? & ? & _).
  set (m1 := map_bytes (fdt + b_size st - b_strlen st - n) str m).
  assert (buffer m1 fdt (b_size st) ∧ same_outside fdt (b_size st) m m1) as [Hb1 Hs1].
  { apply buffer_write; [done|done|lia|lia]. }
  destruct (buffer_header m1 fdt (b_size st) 8 (b_strlen st + n) Hb1) as [Hb2 Hs2]; [lia|lia|].
  exists (map_bytes (fdt + 32) (be32 (b_strlen st + n)) m1). split_and!.
  - apply Hgo. destruct (Z.ltb_spec (b_size st - (b_strlen st + n)) (b_struct st + items_size (b_items st))); [lia|].
    rewrite Z.sub_add_distr. unfold apart in Hap.
    erewrite wbind_ok by (apply memcpy_map; [done|eapply buffer_mapped; [done|lia..]|done|lia..]).
    by erewrite wbind_ok by (apply (set_header_map m1 fdt (b_size st) 8); [done|lia|lia]).
  - apply (add_string_rep m fdt st str); [done|done| |done]. apply Z.leb_le. unfold b_top. lia.
  - intros x Hx. change (4 * Z.of_nat 8) with 32 in Hs2. rewrite Hs2 by lia. by apply Hs1.
Qed.

(** The string of a property's name, found or new. *)
Lemma find_add_ok :
  let k := if negb (Z.land (b_flags st) FDT_CREATE_FLAG_NO_NAME_DEDUP =? 0)
           then nameoff ← fdt_add_string_ fdt s; mret (nameoff, true)
           else FdtSw.fdt_find_add_string_ fdt s in
  match add_name st name with
  | Some (strings, nameoff) => ∃ off (allocated : bool) m', k m = Ok ((off, allocated), m') ∧
      off ≠ 0 ∧ u32 off = nameoff ∧ rep m' fdt (with_strings strings st) ∧
      same_outside fdt (b_size st) m m' ∧
      if allocated then strings = str ++ b_strings st else strings = b_strings st
  | None => ∃ allocated : bool, k m = Ok ((0, allocated), m)
  end.
Proof using Hrep Hopen Hname Hap Hlen.
  pose proof (rep_bounds _ _ _ Hrep) as Hbd. pose proof length_str as Hl. cbv zeta. unfold add_name.
  pose proof add_string_ok as Hadd. set (n := Z.of_nat (length str)) in *.
  assert (∀ k : W (Z * bool),
    (k m = (nameoff ← fdt_add_string_ fdt s; mret (nameoff, true)) m) →
    match (if has_room st n then Some (str ++ b_strings st, u32 (- (b_strlen st + n))) else None) with
    | Some (strings, nameoff) => ∃ off (allocated : bool) m', k m = Ok ((off, allocated), m') ∧
        off ≠ 0 ∧ u32 off = nameoff ∧ rep m' fdt (with_strings strings st) ∧
        same_outside fdt (b_size st) m m' ∧
        if allocated then strings = str ++ b_strings st else strings = b_strings st
    | None => ∃ allocated : bool, k m = Ok ((0, allocated), m)
    end) as Hnew.
  { intros k Hk. destruct (has_room st n).
    - destruct Hadd as (m' & He & Hrep' & Hs'). exists (- (b_strlen st + n)), true, m'.
      rewrite Hk, (wbind_ok _ _ _ _ _ He). split_and!; [done|lia|done|done|done|done].
    - exists true. by rewrite Hk, (wbind_ok _ _ _ _ _ Hadd). }
  destruct (Z.land (b_flags st) FDT_CREATE_FLAG_NO_NAME_DEDUP =? 0); cbn [negb]; [|by apply Hnew].
  pose proof (c_name_bytes _ _ _ Hname) as Hbytes. pose proof Hname as (_ & ? & ? & _).
  assert (FdtSw.fdt_find_add_string_ fdt s m =
    (if negb (match find_str (b_strings st) str with
              | Some i => fdt + b_size st - b_strlen st + Z.of_nat i | None => 0 end =? 0)
     then mret (s32 (match find_str (b_strings st) str with
              | Some i => fdt + b_size st - b_strlen st + Z.of_nat i | None => 0 end - (fdt + b_size st)), false)
     else offset ← fdt_add_string_ fdt s; mret (offset, true)) m) as Hfind.
  { unfold FdtSw.fdt_find_add_string_.
    rewrite (wbind_rd _ _ _ (u32 (fdt + b_size st))) by (rewrite (rep_totalsize m fdt st Hrep); done).
    rewrite (wbind_rd _ _ _ (s32 (b_strlen st))) by (rewrite (rep_size_strings m fdt st Hrep); done).
    rewrite (u32_small (fdt + b_size st)), (s32_small (b_strlen st)), (u32_small (fdt + b_size st - b_strlen st))
      by (unfold is_u32, is_s32; lia).
    erewrite wbind_rd; [done|]. unfold fdt_find_string_.
    rewrite (strlen_name m s name Hname) by apply Hrep. cbn [mbind res_bind].
    apply (find_string_len_ok m s name (proj1 (proj1 (bytes_at_app _ _ _ _) Hbytes))); [lia|lia|apply Hrep|lia|unfold b_strlen in *; lia]. }
  destruct (find_str (b_strings st) str) as [i|] eqn:Ef; [|by apply Hnew, Hfind].
  pose proof (find_str_lt _ _ _ Ef) as Hi. unfold b_strlen in *.
  destruct (Z.eqb_spec (fdt + b_size st - Z.of_nat (length (b_strings st)) + Z.of_nat i) 0); [lia|].
  eexists _, _, m. split_and!; [by rewrite Hfind| | | |apply same_outside_refl|done].
  - rewrite s32_small by (unfold is_s32; lia). lia.
  - rewrite u32_s32. f_equal. lia.
  - by replace (with_strings (b_strings st) st) with st by (by destruct st).
Qed.
End property.

(** The tag, the name and the length of a property. *)
Lemma prop_header_ok m fdt size p nameoff len :
  buffer m fdt size → p mod 4 = 0 → fdt <= p → p + 12 <= fdt + size →
  ∃ m', (fdt32_put p FDT_PROP;; fdt32_put (u32 (p + 8)) nameoff;; fdt32_put (u32 (p + 4)) len;;
         mret (0, u32 (p + 12)) : W (Z * Z)) m = Ok ((0, p + 12), m') ∧
    buffer m' fdt size ∧ same_outside p 12 m m' ∧
    bytes_at m' p (be32 FDT_PROP ++ be32 len ++ be32 nameoff).
Proof.
  intros Hb Hp H1 H2. pose proof Hb as [_ _ [Hf _] Ht _].
  set (w k v m := map_bytes (p + k) (be32 v) m).
  assert (∀ k v m', 0 <= k <= 8 → buffer m' fdt size → buffer (w k v m') fdt size) as Hw.
  { intros k v m' Hk Hb'. apply buffer_write; [done|apply be32_u8|lia|rewrite length_be32; lia]. }
  assert (∀ k v m', 0 <= k <= 8 → k mod 4 = 0 → buffer m' fdt size →
    fdt32_put (p + k) v m' = Ok (tt, w k v m')) as Hput.
  { intros k v m' Hk Hk4 Hb'. apply fdt32_put_map.
    - rewrite Z.add_mod, Hp, Hk4 by done. done.
    - eapply buffer_mapped; [done|lia..]. }
  exists (w 4 len (w 8 nameoff (w 0 FDT_PROP m))). split_and!.
  - rewrite !(u32_small (p + _)) by (unfold is_u32; lia). rewrite <- (Z.add_0_r p) at 1.
    erewrite wbind_ok by (apply Hput; [lia|done|done]).
    erewrite wbind_ok by (apply Hput; [lia|done|by apply Hw]).
    erewrite wbind_ok by (apply Hput; [lia|done|by repeat apply Hw]). done.
  - by repeat apply Hw.
  - intros x Hx. unfold w. rewrite !map_bytes_other by (rewrite length_be32; lia). done.
  - rewrite !bytes_at_app, !length_be32. change (Z.of_nat 4) with 4. unfold w. rewrite <- Z.add_assoc.
    change (4 + 4) with 8. split_and!.
    + do 2 (apply bytes_at_other; [|rewrite !length_be32; lia]). rewrite Z.add_0_r. apply map_bytes_at.
    + apply map_bytes_at.
    + apply bytes_at_other; [|rewrite !length_be32; lia]. apply map_bytes_at.
Qed.

(** The copy of a value, which is skipped when there is none. *)
Lemma copy_value_ok m fdt size ptr v val :
  buffer m fdt size → bytes_at m v val → apart v (Z.of_nat (length val)) fdt size →
  0 < v → v + Z.of_nat (length val) <= 2 ^ 32 → Z.of_nat (length val) < 2 ^ 30 →
  fdt <= ptr → ptr + Z.of_nat (length val) <= fdt + size →
  ((if negb (Z.of_nat (length val) =? 0) then memcpy ptr v (u32 (Z.of_nat (length val)));; mret tt
    else mret tt) : W unit) m = Ok (tt, map_bytes ptr val m).
Proof.
  intros Hb Hv Hap Hv0 Hvt Hl H1 H2. pose proof Hb as [Hby _ [Hf _] Ht _].
  destruct (Z.eqb_spec (Z.of_nat (length val)) 0) as [E|E]; cbn [negb].
  { by destruct val; [|cbn in E; lia]. }
  rewrite u32_small by (unfold is_u32; lia). unfold apart in Hap.
  by erewrite wbind_ok by (apply memcpy_map; [done|eapply buffer_mapped; [done|lia..]|
    by eapply bytes_at_u8|lia..]).
Qed.

Lemma placeholder_ok m fdt st s name len :
  rep m fdt st → b_open st = true → c_name m s name →
  apart s (Z.of_nat (length name) + 1) fdt (b_size st) → Z.of_nat (length name) < 48 → 0 <= len < 2 ^ 30 →
  match add_name st name with
  | Some (strings, nameoff) =>
      let st1 := with_strings strings st in
      if has_room st1 (12 + align4 len) then ∃ m1 m2,
        fdt_property_placeholder fdt s len m = Ok ((0, fdt + b_top st + 12), m2) ∧
        rep m1 fdt st1 ∧ same_outside fdt (b_size st) m m1 ∧ buffer m2 fdt (b_size st) ∧
        same_outside (fdt + b_top st) 12
          (map_bytes (fdt + 36) (be32 (items_size (b_items st) + (12 + align4 len))) m1) m2 ∧
        bytes_at m2 (fdt + b_top st) (be32 FDT_PROP ++ be32 len ++ be32 nameoff)
      else ∃ m', fdt_property_placeholder fdt s len m = Ok ((- FDT_ERR_NOSPACE, 0), m') ∧
        rep m' fdt st ∧ same_outside fdt (b_size st) m m'
  | None => fdt_property_placeholder fdt s len m = Ok ((- FDT_ERR_NOSPACE, 0), m)
  end.
Proof.
  intros Hrep Hopen Hname Hap Hlen Hl. pose proof (rep_bounds _ _ _ Hrep) as Hbd.
  pose proof (align4_ge len ltac:(lia)) as Hal.
  pose proof (find_add_ok m fdt st Hrep Hopen s name Hname Hap Hlen) as Hfind. cbv zeta in Hfind.
  assert (fdt_property_placeholder fdt s len m =
    (('(nameoff, allocated) ←
       (if negb (Z.land (b_flags st) FDT_CREATE_FLAG_NO_NAME_DEDUP =? 0)
        then nameoff ← fdt_add_string_ fdt s; mret (nameoff, true)
        else FdtSw.fdt_find_add_string_ fdt s);
     if nameoff =? 0 then mret (- FDT_ERR_NOSPACE, 0)
     else
       prop ← fdt_grab_space_ fdt (12 + align4 len);
       if prop =? 0 then
         (if allocated : bool then FdtSw.fdt_del_last_string_ fdt s else mret tt);;
         mret (- FDT_ERR_NOSPACE, 0)
       else
         fdt32_put prop FDT_PROP;; fdt32_put (u32 (prop + 8)) (u32 nameoff);; fdt32_put (u32 (prop + 4)) len;;
         mret (0, u32 (prop + 12))) : W (Z * Z)) m) as ->.
  { unfold fdt_property_placeholder. rewrite (rep_probe_struct m fdt st Hrep), Hopen.
    cbn [mbind res_bind Z.eqb negb]. rewrite (wbind_rd _ _ _ _ (rep_flags m fdt st Hrep)).
    rewrite tagalign_eq by lia. fold (align4 len). rewrite (u32_small (12 + align4 len)), (u32_small len)
      by (unfold is_u32; lia). done. }
  destruct (add_name st name) as [[strings nameoff]|].
  2: { destruct Hfind as [allocated He]. by rewrite (wbind_ok _ _ _ _ _ He). }
  destruct Hfind as (off & allocated & m1 & He & Hoff & Hu & Hrep1 & Hs1 & Halloc).
  rewrite (wbind_ok _ _ _ _ _ He). destruct (Z.eqb_spec off 0); [done|]. cbv zeta.
  set (st1 := with_strings strings st) in *.
  assert (b_size st1 = b_size st ∧ b_open st1 = true ∧ b_items st1 = b_items st ∧ b_top st1 = b_top st)
    as (Esz & Eop & Eit & Etop) by (by destruct st).
  pose proof (grab_ok m1 fdt st1 (12 + align4 len) Hrep1 ltac:(lia)) as Hgrab.
  rewrite Eit, Etop in Hgrab. destruct (has_room st1 (12 + align4 len)) eqn:Hroom.
  - set (mh := map_bytes (fdt + 36) (be32 (items_size (b_items st) + (12 + align4 len))) m1) in *.
    destruct (top_aligned m1 fdt st1 Hrep1) as [Ha Hp0]. rewrite Etop in Ha, Hp0.
    destruct (buffer_header m1 fdt (b_size st) 9 (items_size (b_items st) + (12 + align4 len))) as [Hbh _];
      [rewrite <- Esz; apply Hrep1|lia|lia|]. change (fdt + 4 * Z.of_nat 9) with (fdt + 36) in Hbh. fold mh in Hbh.
    unfold has_room in Hroom. apply Z.leb_le in Hroom. pose proof (rep_bounds _ _ _ Hrep1) as Hbd1.
    rewrite Etop in Hroom.
    destruct (prop_header_ok mh fdt (b_size st) (fdt + b_top st) nameoff len) as (m2 & He2 & Hb2 & Hs2 & Hby2);
      [done|done|unfold b_top; lia|lia|].
    exists m1, m2. split_and!; try done. rewrite (wbind_ok _ _ _ _ _ Hgrab).
    destruct (Z.eqb_spec (fdt + b_top st) 0); [lia|]. rewrite Hu. done.
  - rewrite (wbind_ok _ _ _ _ _ Hgrab). cbn [Z.eqb].
    destruct allocated; subst strings.
    + destruct (buffer_header m1 fdt (b_size st) 8 (b_strlen st)) as [Hb2 Hs2];
        [rewrite <- Esz; apply Hrep1|lia|lia|].
      exists (map_bytes (fdt + 32) (be32 (b_strlen st)) m1). split_and!.
      * rewrite (wbind_ok _ _ m1 tt (map_bytes (fdt + 32) (be32 (b_strlen st)) m1)); [done|].
        unfold FdtSw.fdt_del_last_string_. rewrite (wbind_rd _ _ _ _ (rep_size_strings m1 fdt st1 Hrep1)).
        assert (c_name m1 s name) as Hname1 by (by eapply c_name_outside).
        rewrite (wbind_rd _ _ _ (Z.of_nat (length name) + 1)).
        2: { by rewrite (strlen_name m1 s name Hname1) by apply Hrep1. }
        assert (b_strlen st1 - (Z.of_nat (length name) + 1) = b_strlen st) as ->.
        { unfold st1, b_strlen. destruct st. cbn. rewrite !length_app. cbn. lia. }
        rewrite u32_small by (unfold is_u32; lia).
        apply (set_header_map m1 fdt (b_size st) 8); [rewrite <- Esz; apply Hrep1|lia|lia].
      * by apply (del_string_rep m1 fdt st (name ++ [0])).
      * change (4 * Z.of_nat 8) with 32 in Hs2. intros x Hx. rewrite Hs2 by lia. by apply Hs1.
    + exists m1. split_and!; [done| |done]. unfold st1 in Hrep1.
      by replace (with_strings (b_strings st) st) with st in Hrep1 by (by destruct st).
Qed.

Lemma property_refines m fdt st s name v val :
  rep m fdt st → op_input m fdt (b_size st) (Property s name v val) →
  refines fdt (b_size st) (fdt_property fdt s v (Z.of_nat (length val))) m
    (build_step st (Property s name v val)).
Proof.
  intros Hrep (Hname & Hap & Hlen & Hv & Hvap & Hv0 & Hvt & Hvl). cbn [build_step].
  pose proof (rep_bounds _ _ _ Hrep) as Hbd. destruct (b_open st) eqn:Hopen.
  2: { apply refines_stay; [done|]. unfold fdt_property, fdt_property_placeholder.
       rewrite (wbind_ok _ _ m (- FDT_ERR_BADSTATE, 0) m); [done|].
       by rewrite (rep_probe_struct m fdt st Hrep), Hopen. }
  pose proof (placeholder_ok m fdt st s name (Z.of_nat (length val)) Hrep Hopen Hname Hap Hlen ltac:(lia)) as Hp.
  destruct (add_name st name) as [[strings nameoff]|] eqn:Eadd.
  2: { apply refines_stay; [done|]. unfold fdt_property. by rewrite (wbind_ok _ _ _ _ _ Hp). }
  cbv zeta in Hp. set (st1 := with_strings strings st) in *. rewrite item_size_prop.
  destruct (has_room st1 (12 + align4 (Z.of_nat (length val)))) eqn:Hroom.
  2: { destruct Hp as (m' & He & Hrep' & Hs'). exists m'. split_and!; [|done|done].
       unfold fdt_property. by rewrite (wbind_ok _ _ _ _ _ He). }
  destruct Hp as (m1 & m2 & He & Hrep1 & Hs1 & Hb2 & Hs2 & Hby2).
  assert (b_size st1 = b_size st ∧ b_open st1 = true ∧ b_items st1 = b_items st ∧ b_top st1 = b_top st)
    as (Esz & Eop & Eit & Etop) by (by destruct st).
  pose proof (align4_ge (Z.of_nat (length val)) ltac:(lia)) as Hal.
  unfold has_room in Hroom. apply Z.leb_le in Hroom. rewrite Etop, Esz in Hroom.
  pose proof (rep_bounds _ _ _ Hrep1) as Hbd1.
  assert (48 <= b_top st) as Ht48 by (unfold b_top; lia).
  set (mh := map_bytes (fdt + 36) (be32 (items_size (b_items st) + (12 + align4 (Z.of_nat (length val))))) m1) in *.
  assert (same_outside fdt (b_size st) m m2) as Hsm2.
  { intros x Hx. rewrite Hs2 by lia. unfold mh.
    rewrite map_bytes_other by (rewrite length_be32; lia). by apply Hs1. }
  assert (bytes_at m2 v val) as Hv2.
  { unfold apart in Hvap. by eapply bytes_at_outside. }
  assert (Forall is_u8 val) as Hu by (eapply bytes_at_u8; [apply Hb2|done]).
  set (p := fdt + b_top st) in *. assert (fdt + 48 <= p) as Hp48 by (unfold p; lia).
  assert (p + 12 + align4 (Z.of_nat (length val)) <= fdt + b_size st) as Hpend by (unfold p; lia).
  assert (is_u32 nameoff) as Hnu.
  { unfold add_name in Eadd. repeat case_match; simplify_eq; apply u32_range. }
  exists (map_bytes (p + 12) val m2). split_and!.
  - unfold fdt_property. rewrite (wbind_ok _ _ _ _ _ He). cbn [Z.eqb negb].
    erewrite wbind_ok by (eapply (copy_value_ok m2 fdt (b_size st)); [done..|lia|lia]). done.
  - cbn [snd]. rewrite <- Eit. replace (with_items _ _) with (with_items (b_items st1 ++ [IProp nameoff val]) st1)
      by done.
    apply (add_item_rep m1 _ fdt st1); [done|done|done|rewrite item_size_prop; by apply Z.leb_le; rewrite Etop, Esz| | |];
      rewrite ?Etop, ?Eit, ?Esz, ?item_size_prop.
    + apply buffer_write; [done|done|lia|lia].
    + fold mh. intros x Hx. rewrite map_bytes_other by lia. apply Hs2. unfold p in Hx. lia.
    + fold p. cbn [item_bytes]. rewrite (app_assoc (be32 (Z.of_nat (length val)))), app_assoc.
      apply bytes_at_app. split.
      * apply bytes_at_other; [done|]. left. rewrite !length_app, !length_be32. lia.
      * rewrite !length_app, !length_be32. apply map_bytes_at.
  - intros x Hx. rewrite map_bytes_other by lia. by apply Hsm2.
Qed.

(* ------------------------------------------------------------------ *)
(** * Creation and sequences of calls *)

Lemma zeros_words_at m a n : bytes_at m a (replicate (4 * n) 0) → words_at m a (replicate n 0).
Proof.
  intros Hb i w Hi. apply lookup_replicate in Hi as [-> Hi]. intros j b Hj.
  assert (b = 0 ∧ (j < 4)%nat) as [-> Hj4].
  { change (be32 0) with [0; 0; 0; 0] in Hj. by destruct j as [|[|[|[|j]]]]; simplify_eq/=; (split; [done|lia]). }
  replace (a + 4 * Z.of_nat i + Z.of_nat j) with (a + Z.of_nat (4 * i + j)) by lia.
  apply Hb. apply lookup_replicate. split; [done|lia].
Qed.

Definition new_builder (size flags : Z) : builder := Builder size flags false [] [] [].

Lemma create_ok m fdt size flags :
  buffer m fdt size → 48 <= size <= INT_MAX → flags = 0 ∨ flags = 1 →
  refines fdt size (fdt_create_with_flags fdt size flags) m (0, new_builder size flags).
Proof.
  intros Hb Hsz Hfl. pose proof Hb as [_ _ [Hf Ha] Ht Hm]. unfold INT_MAX in Hsz.
  set (m0 := map_bytes fdt (replicate (Z.to_nat size) 0) m).
  assert (buffer m0 fdt size ∧ same_outside fdt size m m0) as [Hb0 Hs0].
  { apply buffer_write; [done| |lia|rewrite length_replicate; lia].
    apply Forall_replicate. unfold is_u8. lia. }
  assert (words_at m0 fdt (replicate 10 0)) as Hw0.
  { apply zeros_words_at. intros i b Hi. apply lookup_replicate in Hi as [-> Hi].
    apply (map_bytes_at fdt (replicate (Z.to_nat size) 0) m). apply lookup_replicate. split; [done|lia]. }
  set (step i v := λ m : mem, map_bytes (fdt + 4 * Z.of_nat i) (be32 v) m).
  assert (∀ i v m', (i < 10)%nat → buffer m' fdt size → same_outside fdt size m m' →
    fdt_set_header fdt (4 * Z.of_nat i) v m' = Ok (tt, step i v m') ∧
    buffer (step i v m') fdt size ∧ same_outside fdt size m (step i v m')) as Hstep.
  { intros i v m' Hi Hb' Hs'. split; [apply (set_header_map _ fdt size); [done|done|lia]|].
    destruct (buffer_header m' fdt size i v Hb') as [? Hs'']; [done|lia|]. split; [done|].
    intros x Hx. unfold step. rewrite Hs'' by lia. by apply Hs'. }
  destruct (Hstep 0%nat FDT_SW_MAGIC m0) as (E1 & Hb1 & Hs1); [lia|done|done|].
  destruct (Hstep 5%nat FDT_LAST_SUPPORTED_VERSION _ ltac:(lia) Hb1 Hs1) as (E2 & Hb2 & Hs2).
  destruct (Hstep 6%nat flags _ ltac:(lia) Hb2 Hs2) as (E3 & Hb3 & Hs3).
  destruct (Hstep 1%nat size _ ltac:(lia) Hb3 Hs3) as (E4 & Hb4 & Hs4).
  destruct (Hstep 4%nat 48 _ ltac:(lia) Hb4 Hs4) as (E5 & Hb5 & Hs5).
  destruct (Hstep 2%nat 48 _ ltac:(lia) Hb5 Hs5) as (E6 & Hb6 & Hs6).
  destruct (Hstep 3%nat 0 _ ltac:(lia) Hb6 Hs6) as (E7 & Hb7 & Hs7).
  assert (words_at (step 4%nat 48 (step 1%nat size (step 6%nat flags (step 5%nat FDT_LAST_SUPPORTED_VERSION
    (step 0%nat FDT_SW_MAGIC m0))))) fdt [FDT_SW_MAGIC; size; 0; 0; 48; 17; flags; 0; 0; 0]) as Hw5.
  { exact (words_at_set _ fdt _ 4 48 (words_at_set _ fdt _ 1 size (words_at_set _ fdt _ 6 flags
      (words_at_set _ fdt _ 5 FDT_LAST_SUPPORTED_VERSION (words_at_set _ fdt _ 0 FDT_SW_MAGIC Hw0))))). }
  exists (step 3%nat 0 (step 2%nat 48 (step 4%nat 48 (step 1%nat size (step 6%nat flags
    (step 5%nat FDT_LAST_SUPPORTED_VERSION (step 0%nat FDT_SW_MAGIC m0))))))). split_and!; [|split|exact Hs7].
  - unfold fdt_create_with_flags. change (FDT_ALIGN 40 16) with 48.
    destruct (Z.ltb_spec size 48); [lia|].
    replace (Z.land flags (u32 (Z.lnot FDT_CREATE_FLAGS_ALL)) =? 0) with true by (by destruct Hfl as [-> | ->]).
    cbn [negb]. rewrite (wbind_ok _ _ m fdt m0) by (rewrite memset_map by (done || lia); done).
    rewrite (wbind_ok _ _ _ _ _ E1), (wbind_ok _ _ _ _ _ E2), (wbind_ok _ _ _ _ _ E3),
      (wbind_ok _ _ _ _ _ E4), (wbind_ok _ _ _ _ _ E5).
    erewrite wbind_ok; [|rewrite (wbind_rd _ _ _ 48); [exact E6|];
      apply (header_at _ fdt _ 4 48 Hw5); [done|unfold is_u32; lia|lia|lia]].
    by rewrite (wbind_ok _ _ _ _ _ E7).
  - exact Hb7.
  - split; try done.
    + unfold has_room, b_top, b_struct, b_strlen. apply Z.leb_le. cbn -[Z.add Z.mul]. lia.
    + cbn. unfold INT_MAX. lia.
    + unfold is_u32. cbn. lia.
  - exact (words_at_set _ fdt _ 3 0 (words_at_set _ fdt _ 2 48 Hw5)).
  - by intros i w Hi.
  - done.
  - apply bytes_at_nil.
Qed.

Lemma build_step_size st op : b_size (build_step st op).2 = b_size st.
Proof.
  unfold build_step, add_item. destruct op; repeat case_match; simplify_eq/=; by destruct st.
Qed.

Lemma op_input_outside m m' fdt size op :
  op_input m fdt size op → same_outside fdt size m m' → op_input m' fdt size op.
Proof.
  intros Hop Hs. destruct op as [addr len| |s name| |s name v val]; cbn in *; try done.
  - destruct Hop as (Hn & Ha & ?). split_and!; [by eapply c_name_outside|done|done].
  - destruct Hop as (Hn & Ha & ? & Hv & Hva & ?). split; [by eapply c_name_outside|]. split; [done|].
    split; [done|]. split; [|done]. unfold apart in Hva. by eapply bytes_at_outside.
Qed.

(** One call. *)
Lemma run_op_refines m fdt st op :
  rep m fdt st → op_input m fdt (b_size st) op →
  refines fdt (b_size st) (run_op fdt op) m (build_step st op).
Proof.
  intros Hrep Hop. destruct op; cbn [run_op].
  - by apply add_reservemap_refines.
  - by apply finish_reservemap_refines.
  - by apply begin_node_ok.
  - by apply end_node_ok.
  - by apply property_refines.
Qed.

(** The calls of a list, and the results they give. *)
Fixpoint run_ops (fdt : Z) (ops : list sw_op) : W (list Z) :=
  match ops with
  | [] => mret []
  | op :: ops' => r ← run_op fdt op; rs ← run_ops fdt ops'; mret (r :: rs)
  end.
Fixpoint build (st : builder) (ops : list sw_op) : list Z * builder :=
  match ops with
  | [] => ([], st)
  | op :: ops' => let r := build_step st op in let rs := build r.2 ops' in (r.1 :: rs.1, rs.2)
  end.

Lemma run_ops_ok fdt ops m st :
  rep m fdt st → Forall (op_input m fdt (b_size st)) ops →
  ∃ m', run_ops fdt ops m = Ok ((build st ops).1, m') ∧ rep m' fdt (build st ops).2 ∧
    same_outside fdt (b_size st) m m'.
Proof.
  revert m st. induction ops as [|op ops IH]; intros m st Hrep Hops; cbn [run_ops build].
  { exists m. split_and!; [done|done|apply same_outside_refl]. }
  apply Forall_cons in Hops as [Hop Hops].
  destruct (run_op_refines m fdt st op Hrep Hop) as (m1 & He & Hrep1 & Hs1).
  destruct (IH m1 (build_step st op).2 Hrep1) as (m2 & He2 & Hrep2 & Hs2).
  { rewrite build_step_size. eapply Forall_impl; [exact Hops|]. intros op' Hop'. by eapply op_input_outside. }
  rewrite build_step_size in Hs2. exists m2. split_and!; [|done|].
  - by rewrite (wbind_ok _ _ _ _ _ He), (wbind_ok _ _ _ _ _ He2).
  - intros x Hx. by rewrite Hs2, Hs1.
Qed.

(* ------------------------------------------------------------------ *)
(** * Properties *)

(** [fdt_create_with_flags] starts an empty tree in a buffer of at least 48 bytes;
    with less room, or with unknown flags, it returns its error and writes nothing. *)
Theorem fdt_create_spec m fdt size flags :
  buffer m fdt size → size <= INT_MAX → is_u32 flags →
  (size < 48 → fdt_create_with_flags fdt size flags m = Ok (- FDT_ERR_NOSPACE, m)) ∧
  (48 <= size → 1 < flags → fdt_create_with_flags fdt size flags m = Ok (- FDT_ERR_BADFLAGS, m)) ∧
  (48 <= size → flags <= 1 →
     ∃ m', fdt_create_with_flags fdt size flags m = Ok (0, m') ∧
       rep m' fdt (new_builder size flags) ∧ same_outside fdt size m m').
Proof.
  intros Hb Hsz Hfl. unfold is_u32 in Hfl. split_and!.
  - intros Hlt. unfold fdt_create_with_flags. change (FDT_ALIGN 40 16) with 48.
    by destruct (Z.ltb_spec size 48); [|lia].
  - intros Hge Hf1. unfold fdt_create_with_flags. change (FDT_ALIGN 40 16) with 48.
    destruct (Z.ltb_spec size 48); [lia|]. change (u32 (Z.lnot FDT_CREATE_FLAGS_ALL)) with (2 ^ 32 - 2).
    destruct (Z.eqb_spec (Z.land flags (2 ^ 32 - 2)) 0) as [E|]; [|done].
    assert (flags <= 1); [|lia].
    assert (Z.land flags (Z.ones 32) = flags) as E32 by (rewrite Z.land_ones by lia; apply Z.mod_small; lia).
    change (Z.ones 32) with (Z.lor (2 ^ 32 - 2) 1) in E32. rewrite Z.land_lor_distr_r, E, Z.lor_0_l in E32.
    change 1 with (Z.ones 1) in E32. rewrite Z.land_ones in E32 by lia. Z.div_mod_to_equations; lia.
  - intros Hge Hf1. apply create_ok; [done|done|lia].
Qed.

(** C21: The calls of fdt_sw.c refine the specification [build_step], in any sequence, for
    property names of at most 47 characters, other names and values shorter than 2^30, and
    arguments that lie outside the buffer: each call returns the result that its step gives
    (0, [-FDT_ERR_NOSPACE], or [-FDT_ERR_BADSTATE] out of turn), leaves the tree of the step
    behind, a failed call the tree it found, and no call writes a byte outside the buffer.
    The bound on names is needed: [long_name_below_buffer] shows one of 80 characters that
    is written below the buffer (fdt_sw.c:259). *)
Theorem fdt_sw_refines fdt ops m st :
  rep m fdt st → Forall (op_input m fdt (b_size st)) ops →
  ∃ m', run_ops fdt ops m = Ok ((build st ops).1, m') ∧ rep m' fdt (build st ops).2 ∧
    same_outside fdt (b_size st) m m'.
Proof. apply run_ops_ok. Qed.

(* ------------------------------------------------------------------ *)
(** * A concrete buffer *)

(** The literals of the kernel, and 512 bytes at [tree_addr]. *)
Definition sw_memory : mem := tree_mem (replicate 512 0).

Lemma sw_buffer size : size <= 512 → buffer sw_memory tree_addr size.
Proof.
  intros Hs. split.
  - apply tree_mem_bytes. vm_compute. reflexivity.
  - apply map_bytes_word_backed; [reflexivity|vm_compute; reflexivity|].
    apply map_bytes_word_backed; [reflexivity|vm_compute; reflexivity|apply word_backed_empty].
  - split; reflexivity.
  - unfold tree_addr. lia.
  - apply tree_mem_mapped. etrans; [done|]. vm_compute. discriminate.
Qed.

(** Where a string lies among the literals; the empty string at the end of one. *)
Definition sw_place (s : list Z) : Z :=
  match s with
  | [] => 0x1007
  | _ => match find_str literal_bytes s with Some i => 0x1000 + Z.of_nat i | None => 0 end
  end.

Definition begin_op (name : list Z) : sw_op := BeginNode (sw_place name) name.
Definition property_op (name val : list Z) : sw_op := Property (sw_place name) name (sw_place val) val.

Ltac sample_input :=
  repeat apply Forall_cons_2; try apply Forall_nil_2;
  cbn [op_input begin_op property_op prod_rect]; rewrite ?and_True;
  try done; split_and?;
  try first [ apply memory_string; vm_compute; reflexivity
            | apply memory_bytes; vm_compute; reflexivity
            | left; vm_compute; discriminate
            | vm_compute; reflexivity | vm_compute; discriminate ].

Lemma fdt_create_spec_witness :
  ∃ m', fdt_create_with_flags tree_addr 512 1 sw_memory = Ok (0, m') ∧
    rep m' tree_addr (new_builder 512 1) ∧ same_outside tree_addr 512 sw_memory m'.
Proof.
  apply (fdt_create_spec sw_memory tree_addr 512 1);
    [apply sw_buffer; lia|unfold INT_MAX; lia|unfold is_u32; lia|lia|lia].
Defined.

(** A call out of turn, a tree that fits and a property that does not. *)
Definition sw_calls : list sw_op :=
  [EndNode; FinishReservemap; begin_op []; property_op (chars "reg") (chars "memory");
   property_op (chars "compatible") (chars "riscv,clint0"); EndNode].

Lemma sw_calls_input : Forall (op_input sw_memory tree_addr 128) sw_calls.
Proof. unfold sw_calls. sample_input. Qed.

Lemma fdt_sw_refines_witness :
  ∃ m1 m', fdt_create_with_flags tree_addr 128 0 sw_memory = Ok (0, m1) ∧
    run_ops tree_addr sw_calls m1 = Ok ([- FDT_ERR_BADSTATE; 0; 0; 0; - FDT_ERR_NOSPACE; 0], m').
Proof.
  destruct (create_ok sw_memory tree_addr 128 0) as (m1 & He & Hrep & Hs);
    [apply sw_buffer; lia|unfold INT_MAX; lia|by left|].
  destruct (fdt_sw_refines tree_addr sw_calls m1 (new_builder 128 0) Hrep) as (m' & He' & _).
  - apply (Forall_impl _ _ _ sw_calls_input). intros op Hop. by apply (op_input_outside sw_memory).
  - exists m1, m'. split; [exact He|]. refine (eq_trans He' _). vm_compute. reflexivity.
Defined.

(** A name that is longer than the whole buffer: [totalsize - offset] wraps around in
    [fdt_add_string_], which copies the name over the header and to below the buffer;
    the next write of [fdt_property] then goes where the copied bytes say. *)
Definition long_name_memory : mem := map_bytes (tree_addr + 400) (replicate 80 97) sw_memory.

Lemma long_name_below_buffer :
  let buf := tree_addr + 256 in
  let s := tree_addr + 400 in
  let before := (fdt_create_with_flags buf 64 0;; fdt_finish_reservemap buf) : W Z in
  match (before;; fdt_add_string_ buf s) long_name_memory with
  | Ok (_, m') => long_name_memory !! (buf - 17) = Some 0 ∧ m' !! (buf - 17) = Some 97
  | _ => False
  end ∧
  (before;; fdt_property buf s 0 0) long_name_memory = Fault.
Proof. vm_compute. split; [split; reflexivity|reflexivity]. Qed.
