(* ===== verification/FdtFinish.v ===== *)
(** The end of src/libfdt/fdt_sw.c: what [fdt_next_tag] sees in a stream of items, and
    what [fdt_finish] makes of it, a tree that [fdt_check_full] accepts and that reads
    back as it was built. *)
From S2P Require Import Prelude Machine Crt0 SampleTree Fdt FdtRo FdtCheck FdtTree FdtLookup FdtWrite FdtSw FdtImage FdtBuild.
From stdpp Require Import base list gmap.
From Stdlib Require Import ZArith Lia.
#[local] Open Scope Z_scope.

Definition item_tag (it : item) : Z :=
  match it with IBegin _ => FDT_BEGIN_NODE | IEnd => FDT_END_NODE | IProp _ _ => FDT_PROP end.

(* ------------------------------------------------------------------ *)
(** * Tags of items *)

Section stream.
Context (m : mem) (fdt : Z) (Hbl : blob m fdt).

#[local] Abbreviation total := (hdr m fdt 4).
#[local] Abbreviation strct := (hdr m fdt 8).

(** [n] bytes from the offset on lie in the structure block. *)
Definition inside (off n : Z) : Prop :=
  0 <= off ∧ off mod 4 = 0 ∧ strct + off + n <= total ∧ 17 <= hdr m fdt 20 ∧ off + n <= hdr m fdt 36.

Lemma inside_range off n o k : inside off n → off <= o → o + k <= off + n → in_range m fdt o k = true.
Proof. unfold inside, in_range. rewrite !andb_true_iff, orb_true_iff, !Z.leb_le. lia. Qed.

Lemma inside_bounds off n : inside off n → 0 <= n →
  0 < fdt ∧ 28 <= strct ∧ fdt + strct + off + n < 2 ^ 32 ∧ off + n < 2 ^ 31 ∧ (fdt + strct + off) mod 4 = 0.
Proof using Hbl.
  intros (H1 & H2 & H3 & _) Hn. destruct Hbl as [_ [Hf Ha] _ [_ Ht] Hsz [Hs4 Hs]].
  unfold FDT_V1_SIZE, INT_MAX in *. split_and!; try lia. Z.div_mod_to_equations; lia.
Qed.

Lemma offset_ptr_inside off n o k :
  inside off n → 0 <= k → off <= o → o + k <= off + n →
  fdt_offset_ptr m fdt o k = Ok (fdt + strct + o) ∧ fdt + strct + o ≠ 0.
Proof using Hbl.
  intros Hin Hk H1 H2. pose proof Hin as (? & _ & ? & _). pose proof (inside_bounds off n Hin ltac:(lia)).
  rewrite (offset_ptr_eq m fdt Hbl) by (unfold is_s32, is_u32; lia).
  rewrite (inside_range off n o k Hin H1 H2). rewrite u32_small by (unfold is_u32; lia). split; [done|lia].
Qed.

Lemma skip_name_eq off n name :
  inside off n → bytes_at m (fdt + strct + off + 4) (name ++ [0]) → Forall (λ c, c ≠ 0) name →
  4 + Z.of_nat (length name) + 1 <= n →
  skip_name m fdt (off + 4) =
    Ok (fdt + strct + off + 4 + Z.of_nat (length name), off + 4 + Z.of_nat (length name) + 1).
Proof using Hbl.
  intros Hin Hb Hnz Hn. pose proof Hin as (? & _ & ? & _). pose proof (inside_bounds off n Hin ltac:(lia)) as Hbd.
  unfold skip_name. rewrite tree_fuel_eq by done. apply yields_eq.
  apply (loop_yields (λ o, off + 4 <= o <= off + 4 + Z.of_nat (length name))
    (λ o, Z.to_nat (off + 4 + Z.of_nat (length name) - o))); [|lia|].
  2: { assert (0 <= total) by lia. lia. }
  intros o Ho. destruct (offset_ptr_inside off n o 1 Hin) as [-> Hne]; [lia..|]. cbn [mbind res_bind].
  rewrite s32_small by (unfold is_s32; lia). destruct (Z.eqb_spec (fdt + strct + o) 0); [done|].
  set (i := Z.to_nat (o - off - 4)).
  assert (∃ c, (name ++ [0]) !! i = Some c) as [c Hc].
  { apply lookup_lt_is_Some_2. rewrite length_app. cbn. lia. }
  pose proof (Hb i c Hc) as Hmc. replace (fdt + strct + off + 4 + Z.of_nat i) with (fdt + strct + o) in Hmc by lia.
  rewrite (load8_ok _ _ _ Hmc). cbn [mbind res_bind yields].
  apply lookup_app_Some in Hc as [Hc|[Hge Hc]].
  - rewrite Forall_forall in Hnz. pose proof (Hnz c (list_elem_of_lookup_2 _ _ _ Hc)).
    pose proof (lookup_lt_Some _ _ _ Hc). destruct (Z.eqb_spec c 0); [done|]. split; [lia|lia].
  - destruct (i - length name)%nat eqn:Ei; [|done]. injection Hc as <-. rewrite Z.eqb_refl.
    f_equal; lia.
Qed.

Lemma align4_shift off n : off mod 4 = 0 → align4 (off + n) = off + align4 n.
Proof. unfold align4. intros. Z.div_mod_to_equations; lia. Qed.

(** The switch of [fdt_next_tag] on an item. *)
Lemma payload_item off it :
  inside off (item_size it) → item_ok it → bytes_at m (fdt + strct + off) (item_bytes it) →
  tag_payload m fdt (item_tag it) (off + 4) = Ok (Some (off + Z.of_nat (length (item_bytes it)))).
Proof using Hbl.
  intros Hin Hok Hb. pose proof (item_size_ge it) as Hge. pose proof (item_size_pos it) as Hpos.
  pose proof Hin as (? & _ & ? & _). pose proof (inside_bounds off _ Hin ltac:(lia)) as Hbd.
  destruct it as [name| |nameoff val]; cbn [item_tag item_bytes item_ok] in *; unfold tag_payload.
  - destruct Hok as [Hnz _]. apply bytes_at_app in Hb as [_ Hb]. rewrite length_be32 in Hb.
    change (FDT_BEGIN_NODE =? FDT_BEGIN_NODE) with true. cbv iota.
    rewrite !length_app, length_be32 in *. cbn [length] in *.
    rewrite (skip_name_eq off (item_size (IBegin name)) name Hin Hb Hnz) by lia. cbn [mbind res_bind].
    destruct (Z.eqb_spec (fdt + strct + off + 4 + Z.of_nat (length name)) 0); [lia|]. do 2 f_equal. lia.
  - done.
  - destruct Hok as [Hno Hlen]. rewrite !length_app, !length_be32 in *.
    change (FDT_PROP =? FDT_BEGIN_NODE) with false. change (FDT_PROP =? FDT_PROP) with true. cbv iota.
    destruct (offset_ptr_inside off _ (off + 4) 4 Hin) as [-> Hne]; [lia..|]. cbn [mbind res_bind].
    destruct (Z.eqb_spec (fdt + strct + (off + 4)) 0); [done|].
    apply bytes_at_app in Hb as [_ Hb]. apply bytes_at_app in Hb as [Hb _]. rewrite length_be32 in Hb.
    replace (fdt + strct + (off + 4)) with (fdt + strct + off + Z.of_nat 4) by lia.
    rewrite (fdt32_ld__bytes m _ _ Hb) by
      first [by unfold is_u32; lia | destruct Hbd as (_ & _ & _ & _ & Ha); clear - Ha;
        change (Z.of_nat 4) with 4; Z.div_mod_to_equations; lia].
    cbn [mbind res_bind]. rewrite !u32_small by (unfold is_u32; lia). unfold INT_MAX, FDT_TAGSIZE.
    destruct Hin as (_ & _ & _ & Hv & _). pose proof (bl_size _ _ Hbl). unfold INT_MAX in *.
    destruct (Z.leb_spec (2 ^ 31 - 1) (Z.of_nat (length val) + (off + 4))); [lia|].
    destruct (Z.ltb_spec (Z.of_nat (length val) + (off + 4)) (off + 4)); [lia|]. cbn [orb].
    unfold fdt_version. rewrite (proj1 (header_eq m fdt Hbl 20 ltac:(lia))). cbn [mbind res_bind].
    destruct (Z.ltb_spec (hdr m fdt 20) 16); [lia|]. cbn [andb].
    rewrite s32_small by (unfold is_s32; lia). do 2 f_equal. lia.
Qed.

(** One step of the tag stream. *)
Lemma next_tag_item off it :
  inside off (item_size it) → item_ok it → bytes_at m (fdt + strct + off) (item_bytes it) →
  fdt_next_tag m fdt off = Ok (item_tag it, off + item_size it).
Proof using Hbl.
  intros Hin Hok Hb. pose proof (item_size_ge it) as Hge. pose proof (item_size_pos it) as Hpos.
  pose proof Hin as (Ho & H4 & ? & _). pose proof (inside_bounds off _ Hin ltac:(lia)) as Hbd.
  assert (Z.of_nat (length (item_bytes it)) >= 4) as Hl4
    by (destruct it; cbn [item_bytes]; rewrite ?length_app; cbn; lia).
  assert (bytes_at m (fdt + strct + off) (be32 (item_tag it))) as Htag.
  { destruct it; cbn [item_bytes item_tag] in *; [by apply bytes_at_app in Hb as [Hb _]|done|
      by apply bytes_at_app in Hb as [Hb _]]. }
  unfold fdt_next_tag, FDT_TAGSIZE. destruct (offset_ptr_inside off _ off 4 Hin) as [-> Hne]; [lia..|].
  cbn [mbind res_bind]. destruct (Z.eqb_spec (fdt + strct + off) 0); [done|].
  rewrite (fdt32_ld__bytes m _ _ Htag) by first [by destruct it | apply Hbd]. cbn [mbind res_bind].
  rewrite s32_small by (unfold is_s32; lia). rewrite payload_item by done. cbn [mbind res_bind].
  rewrite (u32_small (_ - _)) by (unfold is_u32; lia).
  destruct (offset_ptr_inside off _ off (off + Z.of_nat (length (item_bytes it)) - off) Hin) as [-> _]; [lia..|].
  cbn [mbind res_bind]. destruct (Z.eqb_spec (fdt + strct + off) 0); [done|].
  rewrite tagalign_eq by lia. fold (align4 (off + Z.of_nat (length (item_bytes it)))).
  rewrite align4_shift by done. fold (item_size it). by rewrite s32_small by (unfold is_s32; lia).
Qed.

(** A tag without a payload. *)
Lemma next_tag_word tag off :
  tag = FDT_END ∨ tag = FDT_NOP → inside off 4 → bytes_at m (fdt + strct + off) (be32 tag) →
  fdt_next_tag m fdt off = Ok (tag, off + 4).
Proof using Hbl.
  intros Htag Hin Hb. pose proof Hin as (Ho & H4 & ? & _). pose proof (inside_bounds off 4 Hin ltac:(lia)) as Hbd.
  unfold fdt_next_tag, FDT_TAGSIZE. destruct (offset_ptr_inside off 4 off 4 Hin) as [-> Hne]; [lia..|].
  cbn [mbind res_bind]. destruct (Z.eqb_spec (fdt + strct + off) 0); [done|].
  assert (tag_payload m fdt tag (off + 4) = Ok (Some (off + 4))) as Hpay by by destruct Htag as [-> | ->].
  rewrite (fdt32_ld__bytes m _ _ Hb) by (apply Hbd || by destruct Htag as [-> | ->]). cbn [mbind res_bind].
  rewrite s32_small by (unfold is_s32; lia). rewrite Hpay.
  cbn [mbind res_bind]. rewrite (u32_small (_ - _)) by (unfold is_u32; lia).
  destruct (offset_ptr_inside off 4 off (off + 4 - off) Hin) as [-> _]; [lia..|].
  cbn [mbind res_bind]. destruct (Z.eqb_spec (fdt + strct + off) 0); [done|].
  rewrite tagalign_eq by lia. fold (align4 (off + 4)). rewrite align4_shift by done.
  by rewrite s32_small by (change (align4 4) with 4; unfold is_s32; lia).
Qed.

Lemma next_tag_end off :
  inside off 4 → bytes_at m (fdt + strct + off) (be32 FDT_END) → fdt_next_tag m fdt off = Ok (FDT_END, off + 4).
Proof using Hbl. apply next_tag_word. by left. Qed.
End stream.

(* ------------------------------------------------------------------ *)
(** * A stream of items *)

Record stream (m : mem) (fdt : Z) (its : list item) : Prop := {
  sm_blob : blob m fdt;
  sm_words : word_backed m;
  sm_version : 17 <= hdr m fdt 20;
  sm_struct : 40 <= hdr m fdt 8;
  sm_size : hdr m fdt 36 = items_size its + 4;
  sm_fits : hdr m fdt 8 + items_size its + 4 <= hdr m fdt 4;
  sm_ok : Forall item_ok its;
  sm_items : items_at m (fdt + hdr m fdt 8) its;
  sm_end : bytes_at m (fdt + hdr m fdt 8 + items_size its) (be32 FDT_END);
}.

Lemma stream_item m fdt xs it ys :
  stream m fdt (xs ++ it :: ys) →
  inside m fdt (items_size xs) (item_size it) ∧ item_ok it ∧
  bytes_at m (fdt + hdr m fdt 8 + items_size xs) (item_bytes it) ∧
  fdt_next_tag m fdt (items_size xs) = Ok (item_tag it, items_size (xs ++ [it])).
Proof.
  intros [Hbl _ Hv _ Hsz Hfit Hok Hits _]. rewrite items_size_app in *. cbn [items_size foldr] in *.
  fold (items_size ys) in *. pose proof (items_size_pos xs). pose proof (items_size_pos ys).
  apply Forall_app in Hok as [_ [Hok _]%Forall_cons].
  apply items_at_app in Hits as [_ [Hb _]].
  assert (inside m fdt (items_size xs) (item_size it)) as Hin.
  { unfold inside. split_and!; try lia. apply items_size_mod. }
  split_and!; [done|done|done|].
  rewrite Z.add_0_r. by apply next_tag_item.
Qed.

Lemma stream_end m fdt its :
  stream m fdt its → fdt_next_tag m fdt (items_size its) = Ok (FDT_END, items_size its + 4).
Proof.
  intros [Hbl _ Hv _ Hsz Hfit Hok Hits Hend]. pose proof (items_size_pos its).
  apply next_tag_end; [done| |done]. unfold inside. split_and!; try lia. apply items_size_mod.
Qed.

(** Memory outside the words of a header keeps its reading. *)
Lemma hdr_ext m m' fdt offset :
  (∀ x, fdt <= x < fdt + 40 → m' !! x = m !! x) → 0 < fdt → fdt + 40 <= 2 ^ 32 → 0 <= offset <= 36 →
  hdr m' fdt offset = hdr m fdt offset.
Proof.
  intros Hx Hf Ht Ho. unfold hdr, fdt_get_header, fdt32_ld, load8.
  rewrite !(u32_small (fdt + offset)) by (unfold is_u32; lia).
  rewrite !u32_small by (unfold is_u32; lia). by rewrite !Hx by lia.
Qed.

(** The offset of a name becomes one into the relocated table of [n] bytes. *)
Definition fix_item (n : Z) (it : item) : item :=
  match it with IProp nameoff val => IProp (u32 (nameoff + n)) val | _ => it end.

Lemma fix_item_size n it : item_size (fix_item n it) = item_size it.
Proof. by destruct it. Qed.
Lemma fix_item_ok n it : item_ok it → item_ok (fix_item n it).
Proof. destruct it; cbn; try done. intros [_ ?]. split; [apply u32_range|done]. Qed.
Lemma fix_items_size n its : items_size (fix_item n <$> its) = items_size its.
Proof.
  induction its as [|it its IH]; [done|]. cbn. rewrite fix_item_size. unfold items_size in IH. by rewrite IH.
Qed.

(** Storing the new offset of one name. *)
Lemma fix_step m fdt xs nameoff val ys n :
  stream m fdt (xs ++ IProp nameoff val :: ys) →
  let p := fdt + hdr m fdt 8 + items_size xs in
  let m' := map_bytes (p + 8) (be32 (u32 (nameoff + n))) m in
  fdt32_ld_ m (u32 (p + 8)) = Ok nameoff ∧
  fdt32_put (u32 (p + 8)) (u32 (nameoff + n)) m = Ok (tt, m') ∧
  stream m' fdt (xs ++ fix_item n (IProp nameoff val) :: ys) ∧
  same_outside (fdt + hdr m fdt 8) (items_size (xs ++ IProp nameoff val :: ys)) m m' ∧
  ∀ o, 0 <= o <= 36 → hdr m' fdt o = hdr m fdt o.
Proof.
  intros Hst p m'. destruct (stream_item _ _ _ _ _ Hst) as (Hin & [Hno Hvl] & Hb & _).
  destruct Hst as [Hbl Hw Hv H40 Hsz Hfit Hok Hits Hend]. rewrite items_size_app in *.
  cbn [items_size foldr] in *. fold (items_size ys) in *.
  pose proof (items_size_pos xs). pose proof (items_size_pos ys).
  pose proof (item_size_ge (IProp nameoff val)) as Hge. cbn [item_bytes] in Hge, Hb.
  rewrite !length_app, !length_be32 in Hge.
  destruct (inside_bounds m fdt Hbl _ _ Hin ltac:(lia)) as (Hf & Hs28 & Htop & Hlt & Hal).
  fold p in Hb, Hal. assert ((p + 8) mod 4 = 0) as Hp8 by (clear - Hal; Z.div_mod_to_equations; lia).
  assert (mapped m (p + 8) 4) as Hm8.
  { intros x Hx. apply (proj1 (bl_mapped _ _ Hbl)). unfold p in *. lia. }
  apply bytes_at_app in Hb as [Hb1 Hb]. apply bytes_at_app in Hb as [Hb2 Hb]. apply bytes_at_app in Hb as [Hb3 Hb4].
  rewrite !length_be32 in *. change (Z.of_nat 4) with 4 in *.
  assert (p + 4 + 4 = p + 8) as E8 by lia. rewrite E8 in Hb3, Hb4.
  assert (∀ o, 0 <= o <= 36 → hdr m' fdt o = hdr m fdt o) as Hhdr.
  { intros o Ho. apply hdr_ext; [|done|lia|done]. intros x Hx. apply map_bytes_other.
    rewrite length_be32. unfold p. lia. }
  assert (same_cells m m') as Hc by (by apply map_bytes_cells).
  split_and!.
  - rewrite u32_small by (unfold p, is_u32 in *; lia). by apply fdt32_ld__bytes.
  - rewrite u32_small by (unfold p, is_u32 in *; lia). by apply fdt32_put_map.
  - split; rewrite ?items_size_app, ?Hhdr by lia; cbn [items_size foldr]; rewrite ?fix_item_size;
      fold (items_size ys); try done.
    + destruct Hbl as [Hby ? [? ?] [? ?] ? ?]. split; rewrite ?Hhdr by lia; try done.
      * apply map_bytes_bytes; [apply be32_u8|done].
      * split; [by eapply same_cells_mapped|done].
      * split; [by eapply same_cells_mapped|done].
    + by eapply same_cells_words.
    + apply Forall_app in Hok as [? [? ?]%Forall_cons]. apply Forall_app. split; [done|].
      constructor; [by apply fix_item_ok|done].
    + apply items_at_app in Hits as [Hx [_ Hy]]. apply items_at_app. split; [|cbn [items_at]; split].
      * apply (items_at_ext m); [|done]. intros x Hx'. apply map_bytes_other. rewrite length_be32. unfold p. lia.
      * cbn [fix_item item_bytes]. fold p. rewrite !bytes_at_app, !length_be32. change (Z.of_nat 4) with 4.
        rewrite E8. split_and!.
        -- apply bytes_at_other; [done|rewrite !length_be32; lia].
        -- apply bytes_at_other; [done|rewrite !length_be32; lia].
        -- apply map_bytes_at.
        -- apply bytes_at_other; [done|rewrite !length_be32; lia].
      * rewrite fix_item_size. apply (items_at_ext m); [|done]. intros x Hx'. apply map_bytes_other.
        rewrite length_be32. unfold p. lia.
    + apply bytes_at_other; [done|]. rewrite !length_be32. unfold p. lia.
  - intros x Hx. apply map_bytes_other. rewrite length_be32. unfold p. lia.
  - done.
Qed.

(** The walk of [fdt_finish]. *)
Lemma fix_nameoffs_ok m fdt its n :
  stream m fdt its → hdr m fdt 32 = n →
  ∃ m', fix_nameoffs fdt m = Ok (items_size its + 4, m') ∧ stream m' fdt (fix_item n <$> its) ∧
    same_outside (fdt + hdr m fdt 8) (items_size its) m m' ∧ ∀ o, 0 <= o <= 36 → hdr m' fdt o = hdr m fdt o.
Proof.
  intros Hst Hn. pose proof (sm_blob _ _ _ Hst) as Hbl. pose proof (items_size_pos its) as Hpos.
  destruct (header_eq m fdt Hbl 4 ltac:(lia)) as [_ Htot]. unfold is_u32 in Htot.
  pose proof (sm_fits _ _ _ Hst) as Hfit. destruct (header_eq m fdt Hbl 8 ltac:(lia)) as [_ H8]. unfold is_u32 in H8.
  assert (yields (fix_nameoffs fdt m) (λ '(r, m'), r = items_size its + 4 ∧ stream m' fdt (fix_item n <$> its) ∧
    same_outside (fdt + hdr m fdt 8) (items_size its) m m' ∧ ∀ o, 0 <= o <= 36 → hdr m' fdt o = hdr m fdt o)) as Hy.
  2: { destruct (fix_nameoffs fdt m) as [[r m']| |]; [|done..]. destruct Hy as (-> & ?). by exists m'. }
  unfold fix_nameoffs, wloop. rewrite tree_fuel_eq by done.
  apply (loop_yields
    (λ '(off, m1), ∃ xs ys, its = xs ++ ys ∧ off = items_size xs ∧
       stream m1 fdt ((fix_item n <$> xs) ++ ys) ∧ same_outside (fdt + hdr m fdt 8) (items_size its) m m1 ∧
       ∀ o, 0 <= o <= 36 → hdr m1 fdt o = hdr m fdt o)
    (λ '(off, _), Z.to_nat (items_size its - off))); [| |lia].
  2: { exists [], its. split_and!; try done. }
  intros [off m1] (xs & ys & Hxy & -> & Hst1 & Hs1 & Hh1). cbn beta iota.
  assert (items_size (fix_item n <$> xs) = items_size xs) as Efx by apply fix_items_size.
  destruct ys as [|it ys].
  - rewrite app_nil_r in *. subst xs. pose proof (stream_end _ _ _ Hst1) as Htag. rewrite Efx in Htag.
    rewrite (wbind_rd _ _ _ _ Htag). cbn [mbind res_bind yields]. by split_and!.
  - destruct (stream_item _ _ _ _ _ Hst1) as (Hin & Hok & Hb & Htag). rewrite items_size_app, Efx in Htag.
    cbn [items_size foldr] in Htag. rewrite Z.add_0_r in Htag. pose proof (item_size_pos it) as Hip.
    assert (items_size its = items_size xs + item_size it + items_size ys) as Esz.
    { rewrite Hxy, items_size_app. cbn [items_size foldr]. fold (items_size ys). lia. }
    pose proof (items_size_pos ys).
    assert (its = (xs ++ [it]) ++ ys) as Hxy' by (by rewrite <- app_assoc).
    assert (items_size (xs ++ [it]) = items_size xs + item_size it) as Exs.
    { rewrite items_size_app. cbn. lia. }
    assert (∀ m2, stream m2 fdt ((fix_item n <$> xs) ++ fix_item n it :: ys) →
      stream m2 fdt ((fix_item n <$> xs ++ [it]) ++ ys)) as Hfold
      by (intros m2; by rewrite fmap_app, <- app_assoc).
    rewrite (wbind_rd _ _ _ _ Htag). destruct it as [name| |nameoff val]; cbn [item_tag].
    + cbn [mbind res_bind yields]. split; [|lia]. exists (xs ++ [IBegin name]), ys.
      split_and!; [done|done|by apply Hfold|done|done].
    + cbn [mbind res_bind yields]. split; [|lia]. exists (xs ++ [IEnd]), ys.
      split_and!; [done|done|by apply Hfold|done|done].
    + change (FDT_PROP =? FDT_END) with false. change (FDT_PROP =? FDT_PROP) with true. cbv iota.
      destruct (fix_step m1 fdt _ _ _ _ n Hst1) as (Hld & Hput & Hst2 & Hs2 & Hh2).
      rewrite Efx, Hh1 in Hld, Hput, Hst2, Hs2, Hh2 by lia.
      pose proof (inside_bounds m1 fdt (sm_blob _ _ _ Hst1) _ (item_size (IProp nameoff val)) Hin ltac:(lia)) as Hbd.
      rewrite Efx, Hh1 in Hbd by lia. pose proof (items_size_pos xs).
      rewrite (wbind_rd _ _ _ (fdt + hdr m fdt 8 + items_size xs)).
      2: { unfold fdt_offset_ptr_, fdt_off_dt_struct.
           rewrite (proj1 (header_eq m1 fdt (sm_blob _ _ _ Hst1) 8 ltac:(lia))), Hh1 by lia.
           cbn [mbind res_bind]. by rewrite u32_small by (unfold is_u32; lia). }
      rewrite (wbind_rd _ _ _ _ Hld). rewrite (wbind_rd _ _ _ n).
      2: { unfold fdt_size_dt_strings.
           by rewrite (proj1 (header_eq m1 fdt (sm_blob _ _ _ Hst1) 32 ltac:(lia))), Hh1, Hn by lia. }
      rewrite (wbind_ok _ _ _ _ _ Hput). cbn [mbind res_bind yields mret W_ret]. split; [|lia].
      exists (xs ++ [IProp nameoff val]), ys. split_and!; [done|done|by apply Hfold|..].
      * rewrite items_size_app, fix_items_size in Hs2. cbn [items_size foldr] in Hs2.
        fold (items_size ys) in Hs2. intros x Hx. rewrite Hs2 by lia. by apply Hs1.
      * intros o Ho. rewrite Hh2 by done. by apply Hh1.
Qed.

(* ------------------------------------------------------------------ *)
(** * The finished tree *)

Section layout.
Context (total r0 cpuid : Z) (rsv : list (Z * Z)) (its : list item) (strings : list Z).

(** Where the structure and the strings block start: the blocks follow each other from
    the reservation map at [r0] on. *)
Definition image_struct : Z := r0 + 16 * Z.of_nat (length rsv).
Definition image_strings : Z := image_struct + items_size its + 4.
Definition image_words : list Z :=
  [FDT_MAGIC; total; image_struct; image_strings; r0; FDT_LAST_SUPPORTED_VERSION; FDT_LAST_COMPATIBLE_VERSION;
   cpuid; Z.of_nat (length strings); items_size its + 4].

(** A complete tree in memory: [total] bytes are its own, in a buffer of [size]. *)
Record image (m : mem) (fdt size : Z) : Prop := {
  im_buffer : buffer m fdt size;
  im_fits : image_strings + Z.of_nat (length strings) <= total <= size;
  im_size : size <= INT_MAX;
  im_map : 40 <= r0 ∧ r0 mod 8 = 0;
  im_cpuid : is_u32 cpuid;
  im_ok : Forall item_ok its;
  im_header : words_at m fdt image_words;
  im_rsv : words_at m (fdt + r0) (flat_map rsv_words rsv);
  im_items : items_at m (fdt + image_struct) its;
  im_end : bytes_at m (fdt + image_struct + items_size its) (be32 FDT_END);
  im_strings : bytes_at m (fdt + image_strings) strings;
}.
End layout.

(** What [fdt_finish] leaves: no byte to spare. *)
Definition finished (m : mem) (fdt size : Z) (rsv : list (Z * Z)) (its : list item) (strings : list Z) : Prop :=
  image (image_strings 48 rsv its + Z.of_nat (length strings)) 48 0 rsv its strings m fdt size.

Section finish.
Context (m : mem) (fdt : Z) (st : builder) (Hrep : rep m fdt st) (Hopen : b_open st = true).
Context (Hroom : has_room st 4 = true).

#[local] Abbreviation size := (b_size st).
#[local] Abbreviation isz := (items_size (b_items st)).
#[local] Abbreviation new := (b_top st + 4).
#[local] Abbreviation set i v := (map_bytes (fdt + 4 * Z.of_nat i) (be32 v)).

(** Memory when the walk starts. *)
Definition relocated : mem :=
  set 3%nat new (map_bytes (fdt + new) (b_strings st)
    (map_bytes (fdt + b_top st) (be32 FDT_END) (set 9%nat (isz + 4) m))).

Lemma finish_bounds :
  0 < fdt ∧ fdt mod 8 = 0 ∧ fdt + size + 4 < 2 ^ 32 ∧ size < 2 ^ 31 ∧ 48 <= b_struct st ∧ 0 <= isz ∧
  0 <= b_strlen st ∧ new + b_strlen st <= size ∧ b_top st = b_struct st + isz ∧ 48 <= b_top st.
Proof using Hrep Hroom.
  pose proof (rep_bounds _ _ _ Hrep) as Hbd. unfold has_room in Hroom. apply Z.leb_le in Hroom.
  assert (b_top st = b_struct st + isz) by done. split_and!; (done || lia).
Qed.

Lemma strings_u8 : Forall is_u8 (b_strings st).
Proof using Hrep. eapply bytes_at_u8; [apply Hrep|apply Hrep]. Qed.

Lemma relocated_ok :
  buffer relocated fdt size ∧ same_outside fdt size m relocated ∧
  words_at relocated fdt (<[3%nat := new]> (<[9%nat := isz + 4]> (header_words st))) ∧
  (∀ x, fdt + 48 <= x < fdt + b_top st → relocated !! x = m !! x) ∧
  bytes_at relocated (fdt + b_top st) (be32 FDT_END) ∧
  bytes_at relocated (fdt + new) (b_strings st).
Proof using Hrep Hroom.
  pose proof finish_bounds as Hbd. pose proof strings_u8 as Hu.
  pose proof (rp_buffer _ _ _ Hrep) as Hb. unfold b_strlen in *.
  destruct (buffer_header m fdt size 9 (isz + 4) Hb) as [Hb1 Hs1]; [lia|lia|].
  destruct (buffer_write _ fdt size (fdt + b_top st) (be32 FDT_END) Hb1) as [Hb2 Hs2];
    [apply be32_u8|lia|rewrite length_be32; lia|].
  destruct (buffer_write _ fdt size (fdt + new) (b_strings st) Hb2) as [Hb3 Hs3]; [done|lia|lia|].
  destruct (buffer_header _ fdt size 3 new Hb3) as [Hb4 Hs4]; [lia|lia|].
  unfold relocated. split_and!.
  - done.
  - intros x Hx. rewrite Hs4 by lia. rewrite Hs3, Hs2 by done. apply Hs1. lia.
  - apply words_at_set. apply words_at_other; [|rewrite length_insert; cbn [header_words length]; lia].
    apply words_at_other; [|rewrite length_insert; cbn [header_words length]; lia].
    apply words_at_set, Hrep.
  - intros x Hx. rewrite !map_bytes_other by (rewrite ?length_be32; lia). done.
  - do 2 (apply bytes_at_other; [|rewrite ?length_be32; lia]). apply map_bytes_at.
  - apply bytes_at_other; [|rewrite ?length_be32; lia]. apply map_bytes_at.
Qed.

(** Its header, read. *)
Lemma relocated_hdr i w :
  <[3%nat := new]> (<[9%nat := isz + 4]> (header_words st)) !! i = Some w → is_u32 w →
  fdt_get_header relocated fdt (4 * Z.of_nat i) = Ok w ∧ hdr relocated fdt (4 * Z.of_nat i) = w.
Proof using Hrep Hroom.
  intros Hi Hu. pose proof finish_bounds as Hbd. destruct relocated_ok as (_ & _ & Hw & _).
  pose proof (lookup_lt_Some _ _ _ Hi) as Hlt. rewrite !length_insert in Hlt. cbn in Hlt.
  pose proof (header_at _ fdt _ i w Hw Hi Hu ltac:(lia) ltac:(lia)) as Hg. split; [done|].
  unfold hdr. by rewrite Hg.
Qed.

Lemma relocated_stream : stream relocated fdt (b_items st).
Proof using Hrep Hroom.
  pose proof finish_bounds as Hbd. destruct relocated_ok as (Hb & _ & Hw & Hsame & Hend & _).
  assert (hdr relocated fdt 4 = size) as H4 by (apply (relocated_hdr 1); [done|unfold is_u32; lia]).
  assert (hdr relocated fdt 8 = b_struct st) as H8 by (apply (relocated_hdr 2); [done|unfold is_u32; lia]).
  assert (hdr relocated fdt 20 = 17) as H20 by (by apply (relocated_hdr 5)).
  assert (hdr relocated fdt 36 = isz + 4) as H36 by (apply (relocated_hdr 9); [done|unfold is_u32; lia]).
  assert (b_struct st mod 4 = 0) as Hmod by (unfold b_struct; clear; Z.div_mod_to_equations; lia).
  pose proof Hb as [Hby Hwd Ha Ht Hm].
  split; rewrite ?H4, ?H8, ?H20, ?H36; try (done || lia).
  - split; rewrite ?H4, ?H8; unfold INT_MAX, FDT_V1_SIZE; try (done || lia).
    + split; [intros x Hx; apply Hm; lia|lia].
    + split; [done|lia].
  - apply Hrep.
  - apply (items_at_ext m); [|apply Hrep]. intros x Hx. apply Hsame. lia.
  - replace (fdt + b_struct st + isz) with (fdt + b_top st) by lia. done.
Qed.

(** The steps in front of the walk. *)
Lemma finish_starts {A} (e : W A) (k : Z → W A) :
  (term ← fdt_grab_space_ fdt 4;
   if term =? 0 then e
   else
     fdt32_put term FDT_END;;
     oldstroffset ← rd (fun m => totalsize ← fdt_totalsize m fdt;
                                 size ← fdt_size_dt_strings m fdt; Ok (s32 (totalsize - size)));
     newstroffset ← rd (fun m => strct ← fdt_off_dt_struct m fdt;
                                 size ← fdt_size_dt_struct m fdt; Ok (s32 (strct + size)));
     size ← rd (fun m => fdt_size_dt_strings m fdt);
     memmove (u32 (fdt + newstroffset)) (u32 (fdt + oldstroffset)) size;;
     fdt_set_off_dt_strings fdt (u32 newstroffset);; k newstroffset) m = k new relocated.
Proof using Hrep Hroom.
  pose proof finish_bounds as Hbd. pose proof strings_u8 as Hu. pose proof (rp_buffer _ _ _ Hrep) as Hb.
  rewrite (wbind_ok _ _ _ _ _ (eq_trans (grab_ok m fdt st 4 Hrep ltac:(lia)) (f_equal (λ b : bool, Ok (if b
    then (fdt + b_top st, map_bytes (fdt + 36) (be32 (isz + 4)) m) else (0, m))) Hroom))).
  destruct (Z.eqb_spec (fdt + b_top st) 0); [lia|].
  destruct (buffer_header m fdt size 9 (isz + 4) Hb) as [Hb1 _]; [lia|lia|].
  change (fdt + 36) with (fdt + 4 * Z.of_nat 9). set (m1 := set 9%nat (isz + 4) m) in *.
  destruct (buffer_write _ fdt size (fdt + b_top st) (be32 FDT_END) Hb1) as [Hb2 _];
    [apply be32_u8|lia|rewrite length_be32; lia|].
  destruct (top_aligned m fdt st Hrep) as [Hal _].
  erewrite wbind_ok by (apply fdt32_put_map; [done|eapply buffer_mapped; [done|lia..]]).
  set (m2 := map_bytes (fdt + b_top st) (be32 FDT_END) m1) in *.
  assert (words_at m2 fdt (<[9%nat := isz + 4]> (header_words st))) as Hw2.
  { apply words_at_other; [|rewrite length_insert; cbn [header_words length]; lia]. apply words_at_set, Hrep. }
  assert (∀ i w, <[9%nat := isz + 4]> (header_words st) !! i = Some w → is_u32 w →
    fdt_get_header m2 fdt (4 * Z.of_nat i) = Ok w) as Hget.
  { intros i w Hi Hw. pose proof (lookup_lt_Some _ _ _ Hi) as Hlt. rewrite length_insert in Hlt. cbn in Hlt.
    by apply (header_at _ fdt _ i w Hw2 Hi Hw ltac:(lia) ltac:(lia)). }
  assert (fdt_totalsize m2 fdt = Ok size) as E4 by (apply (Hget 1%nat); [done|unfold is_u32; lia]).
  assert (fdt_off_dt_struct m2 fdt = Ok (b_struct st)) as E8 by (apply (Hget 2%nat); [done|unfold is_u32; lia]).
  assert (fdt_size_dt_strings m2 fdt = Ok (b_strlen st)) as E32 by (apply (Hget 8%nat); [done|unfold is_u32; lia]).
  assert (fdt_size_dt_struct m2 fdt = Ok (isz + 4)) as E36 by (apply (Hget 9%nat); [done|unfold is_u32; lia]).
  rewrite (wbind_rd _ _ _ (size - b_strlen st)).
  2: { rewrite E4, E32. cbn [mbind res_bind]. by rewrite s32_small by (unfold is_s32; lia). }
  rewrite (wbind_rd _ _ _ new).
  2: { rewrite E8, E36. cbn [mbind res_bind]. rewrite s32_small by (unfold is_s32; lia). f_equal. lia. }
  rewrite (wbind_rd _ _ _ _ E32). rewrite !(u32_small (fdt + _)), (u32_small new) by (unfold is_u32; lia).
  assert (bytes_at m2 (fdt + (size - b_strlen st)) (b_strings st)) as Hstr.
  { replace (fdt + (size - b_strlen st)) with (fdt + size - b_strlen st) by lia. unfold b_strlen in *.
    do 2 (apply bytes_at_other; [|rewrite ?length_be32; lia]). apply Hrep. }
  unfold b_strlen in *.
  erewrite wbind_ok by (apply memmove_map; [done|eapply buffer_mapped; [done|lia..]|done|lia..]).
  destruct (buffer_write _ fdt size (fdt + new) (b_strings st) Hb2) as [Hb3 _]; [done|lia|lia|].
  by erewrite wbind_ok by (apply (set_header_map _ fdt size 3); [done|lia|lia]).
Qed.

(** The tree that [fdt_finish] leaves. *)
Lemma finish_ok :
  ∃ m', fdt_finish fdt m = Ok (0, m') ∧ same_outside fdt size m m' ∧
    finished m' fdt size (b_rsv st) (fix_item (b_strlen st) <$> b_items st) (b_strings st).
Proof using Hrep Hopen Hroom.
  pose proof finish_bounds as Hbd. pose proof strings_u8 as Hu.
  destruct relocated_ok as (Hb4 & Hs4 & Hw4 & Hsame4 & Hend4 & Hstr4).
  pose proof relocated_stream as Hst4.
  assert (hdr relocated fdt 8 = b_struct st) as H8 by (apply (relocated_hdr 2); [done|unfold is_u32; lia]).
  assert (hdr relocated fdt 32 = b_strlen st) as H32 by (apply (relocated_hdr 8); [done|unfold is_u32; lia]).
  destruct (fix_nameoffs_ok relocated fdt _ _ Hst4 H32) as (m5 & Hfix & Hst5 & Hs5 & Hh5). rewrite H8 in Hs5.
  assert (buffer m5 fdt size) as Hb5.
  { destruct Hb4 as [_ _ Ha Ht Hm]. split; [apply Hst5|apply Hst5|done|done|].
    pose proof (sm_blob _ _ _ Hst5) as Hbl5. rewrite <- (Z.add_0_r 0) in *.
    assert (hdr m5 fdt 4 = size) as E.
    { rewrite Hh5 by lia. apply (relocated_hdr 1); [done|unfold is_u32; lia]. }
    rewrite <- E. apply Hbl5. }
  assert (words_at m5 fdt (<[3%nat := new]> (<[9%nat := isz + 4]> (header_words st)))) as Hw5.
  { apply (words_at_ext relocated); [|done]. intros x Hx. rewrite !length_insert in Hx. cbn in Hx. apply Hs5. lia. }
  destruct (buffer_header m5 fdt size 1 (new + b_strlen st) Hb5) as [Hb6 Hs6]; [lia|lia|].
  set (m6 := set 1%nat (new + b_strlen st) m5) in *.
  destruct (buffer_header m6 fdt size 6 FDT_LAST_COMPATIBLE_VERSION Hb6) as [Hb7 Hs7]; [lia|lia|].
  set (m7 := set 6%nat FDT_LAST_COMPATIBLE_VERSION m6) in *.
  destruct (buffer_header m7 fdt size 0 FDT_MAGIC Hb7) as [Hb8 Hs8]; [lia|lia|].
  set (m8 := set 0%nat FDT_MAGIC m7) in *. exists m8.
  assert (∀ x, fdt + 40 <= x → m8 !! x = m5 !! x) as Hrest.
  { intros x Hx. rewrite Hs8, Hs7, Hs6 by lia. done. }
  split_and!.
  - unfold fdt_finish. rewrite (guard_struct m fdt st Hrep), Hopen.
    etransitivity; [exact (finish_starts _ _)|]. rewrite (wbind_ok _ _ _ _ _ Hfix).
    destruct (Z.ltb_spec (isz + 4) 0); [lia|].
    rewrite (wbind_rd _ _ _ (b_strlen st)).
    2: { unfold fdt_size_dt_strings. by rewrite (proj1 (header_eq m5 fdt (sm_blob _ _ _ Hst5) 32 ltac:(lia))), Hh5, H32 by lia. }
    rewrite (u32_small (new + _)) by (unfold is_u32; lia).
    erewrite wbind_ok by (apply (set_header_map _ fdt size 1); [done|lia|lia]). fold m6.
    erewrite wbind_ok by (apply (set_header_map _ fdt size 6); [done|lia|lia]). fold m7.
    by erewrite wbind_ok by (apply (set_header_map _ fdt size 0); [done|lia|lia]).
  - intros x Hx. rewrite Hs8, Hs7, Hs6, Hs5 by lia. by apply Hs4.
  - assert (image_struct 48 (b_rsv st) = b_struct st) as Efs by done.
    assert (image_strings 48 (b_rsv st) (fix_item (b_strlen st) <$> b_items st) = new) as Efn.
    { unfold image_strings. rewrite fix_items_size, Efs. lia. }
    unfold b_strlen, finished in *.
    split; rewrite ?Efn, ?Efs, ?fix_items_size; try done.
    + lia.
    + unfold INT_MAX. lia.
    + apply Hst5.
    + assert (image_words (new + Z.of_nat (length (b_strings st))) 48 0 (b_rsv st)
        (fix_item (Z.of_nat (length (b_strings st))) <$> b_items st) (b_strings st) =
        <[0%nat := FDT_MAGIC]> (<[6%nat := FDT_LAST_COMPATIBLE_VERSION]>
          (<[1%nat := new + Z.of_nat (length (b_strings st))]>
            (<[3%nat := new]> (<[9%nat := isz + 4]> (header_words st)))))) as ->.
      { unfold image_words. rewrite Efn, Efs, fix_items_size. done. }
      apply words_at_set, words_at_set, words_at_set, Hw5.
    + apply (words_at_ext m); [|apply Hrep]. intros x Hx. rewrite length_rsv_words in Hx.
      unfold b_struct in *. rewrite Hrest, Hs5 by lia. apply Hsame4. lia.
    + apply (items_at_ext m5); [intros x Hx; apply Hrest; lia|]. rewrite <- H8, <- (Hh5 8) by lia. apply Hst5.
    + replace (fdt + b_struct st + isz) with (fdt + b_top st) by lia.
      apply (bytes_at_ext relocated); [|done]. intros x Hx. rewrite Hrest by lia. apply Hs5. lia.
    + apply (bytes_at_ext relocated); [|done]. intros x Hx. rewrite Hrest by lia. apply Hs5. lia.
Qed.
End finish.
