(* ===== verification/FdtRead.v ===== *)
(** Reading a tree image: the lookups of fdt_ro.c give the reservations, names and
    values that the items and strings of an [image] spell, and a block of items that
    spells a tree reads as that tree. *)
From S2P Require Import Prelude Machine Crt0 SampleTree Fdt FdtRo FdtCheck FdtTree FdtLookup FdtWrite FdtSw FdtImage FdtBuild FdtFinish.
From stdpp Require Import base list gmap.
From Stdlib Require Import ZArith Lia.
#[local] Open Scope Z_scope.

#[local] Set Warnings "-register-all".

(* ------------------------------------------------------------------ *)
(** * The header of an image *)

Section image.
Context (m : mem) (fdt size total r0 cpuid : Z) (rsv : list (Z * Z)) (its : list item) (strings : list Z).
Context (Him : image total r0 cpuid rsv its strings m fdt size) (Hsz : total < INT_MAX).

#[local] Abbreviation nstr := (Z.of_nat (length strings)).
#[local] Abbreviation strct := (image_struct r0 rsv).
#[local] Abbreviation strs := (image_strings r0 rsv its).

Lemma image_bounds :
  0 < fdt ∧ fdt mod 8 = 0 ∧ fdt + size + 4 < 2 ^ 32 ∧ total < 2 ^ 31 - 1 ∧ 40 <= r0 ∧ r0 mod 8 = 0 ∧
  strct = r0 + 16 * Z.of_nat (length rsv) ∧ 0 <= items_size its ∧ strs = strct + items_size its + 4 ∧
  0 <= nstr ∧ strs + nstr <= total ∧ total <= size.
Proof using Him Hsz.
  destruct (im_buffer _ _ _ _ _ _ _ _ _ Him) as [_ _ [? ?] ? _]. pose proof (items_size_pos its).
  destruct (im_map _ _ _ _ _ _ _ _ _ Him). pose proof (im_fits _ _ _ _ _ _ _ _ _ Him). unfold INT_MAX in Hsz.
  unfold image_strings, image_struct in *. split_and!; (done || lia).
Qed.

Lemma image_hdr i w :
  image_words total r0 cpuid rsv its strings !! i = Some w → is_u32 w →
  fdt_get_header m fdt (4 * Z.of_nat i) = Ok w ∧ hdr m fdt (4 * Z.of_nat i) = w.
Proof using Him Hsz.
  intros Hi Hu. pose proof image_bounds. pose proof (lookup_lt_Some _ _ _ Hi) as Hlt. cbn in Hlt.
  pose proof (header_at _ fdt _ i w (im_header _ _ _ _ _ _ _ _ _ Him) Hi Hu ltac:(lia) ltac:(lia)) as Hg.
  split; [done|]. unfold hdr. by rewrite Hg.
Qed.

Lemma image_header :
  hdr m fdt 0 = FDT_MAGIC ∧ hdr m fdt 4 = total ∧ hdr m fdt 8 = strct ∧ hdr m fdt 12 = strs ∧
  hdr m fdt 16 = r0 ∧ hdr m fdt 20 = 17 ∧ hdr m fdt 24 = 16 ∧ hdr m fdt 32 = nstr ∧
  hdr m fdt 36 = items_size its + 4.
Proof using Him Hsz.
  pose proof image_bounds. split_and!.
  - by apply (image_hdr 0).
  - apply (image_hdr 1); [done|unfold is_u32; lia].
  - apply (image_hdr 2); [done|unfold is_u32; lia].
  - apply (image_hdr 3); [done|unfold is_u32; lia].
  - apply (image_hdr 4); [done|unfold is_u32; lia].
  - by apply (image_hdr 5).
  - by apply (image_hdr 6).
  - apply (image_hdr 8); [done|unfold is_u32; lia].
  - apply (image_hdr 9); [done|unfold is_u32; lia].
Qed.

Lemma image_struct_mod : strct mod 4 = 0.
Proof using Him Hsz. destruct image_bounds as (_ & _ & _ & _ & _ & H8 & -> & _). clear - H8. Z.div_mod_to_equations; lia. Qed.

Lemma image_header_ok : header_ok m fdt.
Proof using Him Hsz.
  pose proof image_bounds. pose proof image_struct_mod.
  destruct image_header as (E0 & E4 & E8 & E12 & E16 & E20 & E24 & E32 & E36).
  assert (fdt_header_size_ (hdr m fdt 20) = 40) as Eh by (by rewrite E20).
  split; rewrite ?Eh, ?E0, ?E4, ?E8, ?E12, ?E16, ?E20, ?E24, ?E32, ?E36; unfold INT_MAX; cbn [Z.ltb Z.compare];
    try (done || lia).
  change (17 <? 17) with false. cbv iota. lia.
Qed.

Lemma image_readable : readable_tree m fdt.
Proof using Him Hsz.
  pose proof image_bounds. destruct image_header as (_ & E4 & _ & _ & _ & E20 & _).
  destruct (im_buffer _ _ _ _ _ _ _ _ _ Him) as [? ? ? ? Hm].
  unfold readable_tree. rewrite E4, E20. split_and!; try (done || lia).
  - intros x Hx. apply Hm. lia.
  - intros x Hx. apply Hm. lia.
Qed.

Lemma image_blob : blob m fdt.
Proof using Him Hsz. apply readable_blob; [apply image_readable|apply image_header_ok]. Qed.

Lemma image_stream : stream m fdt its.
Proof using Him Hsz.
  pose proof image_bounds. destruct image_header as (_ & E4 & E8 & _ & _ & E20 & _ & _ & E36).
  split; rewrite ?E4, ?E8, ?E20, ?E36; try (done || lia).
  - apply image_blob.
  - apply Him.
  - apply Him.
  - apply Him.
  - apply Him.
Qed.

Lemma image_probe : fdt_ro_probe_ m fdt = Ok total.
Proof using Him Hsz.
  pose proof image_bounds. pose proof image_blob as Hbl.
  destruct image_header as (E0 & E4 & _ & _ & _ & E20 & E24 & _).
  unfold fdt_ro_probe_, fdt_totalsize, fdt_magic, fdt_version, fdt_last_comp_version.
  rewrite (proj1 (header_eq m fdt Hbl 4 ltac:(lia))), E4. cbn [mbind res_bind]. rewrite land_7.
  destruct (Z.eqb_spec (fdt mod 8) 0); [cbn [negb]|lia].
  rewrite (proj1 (header_eq m fdt Hbl 0 ltac:(lia))), E0. cbn [mbind res_bind].
  rewrite Z.eqb_refl, (proj1 (header_eq m fdt Hbl 20 ltac:(lia))), E20. cbn [mbind res_bind].
  rewrite (proj1 (header_eq m fdt Hbl 24 ltac:(lia))), E24. cbn [mbind res_bind].
  change (17 <? FDT_FIRST_SUPPORTED_VERSION) with false. change (FDT_LAST_SUPPORTED_VERSION <? 16) with false.
  cbv iota. unfold INT_MAX. destruct (Z.ltb_spec total (2 ^ 31 - 1)); [|lia].
  by rewrite s32_small by (unfold is_s32; lia).
Qed.
(* ------------------------------------------------------------------ *)
(** ** The reservation map *)

Definition is_u64 (x : Z) : Prop := 0 <= x < 2 ^ 64.

Lemma u64_words x : is_u64 x → Z.lor (Z.shiftl (u32 (Z.shiftr x 32)) 32) (u32 x) = x.
Proof.
  intros Hx. unfold is_u64 in Hx. rewrite (u32_small (Z.shiftr x 32)).
  2: { rewrite Z.shiftr_div_pow2 by lia. unfold is_u32. Z.div_mod_to_equations; lia. }
  apply Z.bits_inj'. intros n Hn. rewrite Z.lor_spec, Z.shiftl_spec by done. unfold u32, wrap.
  destruct (Z.lt_ge_cases n 32).
  - rewrite Z.testbit_neg_r, Z.mod_pow2_bits_low by lia. done.
  - rewrite Z.mod_pow2_bits_high, Z.shiftr_spec, orb_false_r by lia. f_equal. lia.
Qed.

Lemma image_rsv_ld i a b :
  rsv !! i = Some (a, b) → is_u64 a → is_u64 b →
  fdt64_ld_ m (fdt + r0 + 16 * Z.of_nat i) = Ok a ∧ fdt64_ld_ m (fdt + r0 + 16 * Z.of_nat i + 8) = Ok b.
Proof using Him Hsz.
  intros Hi Ha Hb. pose proof image_bounds as Hbd. pose proof (lookup_lt_Some _ _ _ Hi) as Hlt.
  assert (∀ k w, (k < 4)%nat → rsv_words (a, b) !! k = Some w →
    fdt32_ld_ m (fdt + r0 + 16 * Z.of_nat i + 4 * Z.of_nat k) = Ok w) as Hw.
  { intros k w Hk Hkw. apply fdt32_ld__bytes.
    - replace (fdt + r0 + 16 * Z.of_nat i + 4 * Z.of_nat k) with (fdt + r0 + 4 * Z.of_nat (4 * i + k)) by lia.
      apply (im_rsv _ _ _ _ _ _ _ _ _ Him). apply list_elem_of_split_length in Hi as (r1 & r2 & -> & ->).
      rewrite flat_map_app, lookup_app_r; rewrite length_rsv_words; [|lia].
      replace (_ - _)%nat with k by lia. cbn [flat_map]. by rewrite lookup_app_l by done.
    - by destruct k as [|[|[|[|]]]]; simplify_eq/=; apply u32_range.
    - destruct Hbd as (_ & H1 & _ & _ & _ & H2 & _). clear - H1 H2. Z.div_mod_to_equations; lia. }
  pose proof (Hw 0%nat _ ltac:(lia) eq_refl) as W0. pose proof (Hw 1%nat _ ltac:(lia) eq_refl) as W1.
  pose proof (Hw 2%nat _ ltac:(lia) eq_refl) as W2. pose proof (Hw 3%nat _ ltac:(lia) eq_refl) as W3.
  set (p := fdt + r0 + 16 * Z.of_nat i) in *. assert (0 < p ∧ p + 16 < 2 ^ 32) by (unfold p, image_struct in *; lia).
  change (4 * Z.of_nat 0) with 0 in W0. rewrite Z.add_0_r in W0. change (4 * Z.of_nat 1) with 4 in W1.
  change (4 * Z.of_nat 2) with 8 in W2. change (4 * Z.of_nat 3) with 12 in W3. unfold fdt64_ld_. split.
  - rewrite W0, (u32_small (p + 4)) by (unfold is_u32; lia). cbn [mbind res_bind]. rewrite W1.
    cbn [mbind res_bind fst]. by rewrite u64_words.
  - rewrite W2, (u32_small (p + 8 + 4)) by (unfold is_u32; lia). replace (p + 8 + 4) with (p + 12) by lia.
    cbn [mbind res_bind]. rewrite W3. cbn [mbind res_bind snd]. by rewrite u64_words.
Qed.

Lemma image_mem_rsv i :
  (i < length rsv)%nat → fdt_mem_rsv m fdt (Z.of_nat i) = Ok (fdt + r0 + 16 * Z.of_nat i).
Proof using Him Hsz.
  intros Hi. pose proof image_bounds. pose proof image_blob as Hbl. unfold image_struct in *.
  destruct image_header as (_ & E4 & _ & _ & E16 & _).
  unfold fdt_mem_rsv, fdt_off_mem_rsvmap, fdt_totalsize.
  rewrite (proj1 (header_eq m fdt Hbl 16 ltac:(lia))), E16. cbn [mbind res_bind].
  rewrite (u32_small (Z.of_nat i * 16)), (u32_small (r0 + _)) by (unfold is_u32; lia).
  destruct (Z.ltb_spec (r0 + Z.of_nat i * 16) r0); [lia|].
  rewrite (proj1 (header_eq m fdt Hbl 4 ltac:(lia))), E4. cbn [mbind res_bind]. unfold image_struct in *.
  rewrite (u32_small (_ - 16)) by (unfold is_u32; lia).
  destruct (Z.ltb_spec (total - 16) (r0 + Z.of_nat i * 16)); [lia|].
  by rewrite u32_small by (unfold is_u32; lia).
Qed.

(** Every entry reads back. *)
Lemma image_get_mem_rsv i a b :
  rsv !! i = Some (a, b) → is_u64 a → is_u64 b →
  fdt_get_mem_rsv m fdt (Z.of_nat i) = Ok (0, Some (a, b)).
Proof using Him Hsz.
  intros Hi Ha Hb. pose proof image_bounds. pose proof (lookup_lt_Some _ _ _ Hi).
  destruct (image_rsv_ld i a b Hi Ha Hb) as [E1 E2].
  unfold fdt_get_mem_rsv, FDT_RO_PROBE. rewrite image_probe. cbn [mbind res_bind].
  destruct (Z.ltb_spec total 0); [lia|]. rewrite image_mem_rsv by done. cbn [mbind res_bind].
  destruct (Z.eqb_spec (fdt + r0 + 16 * Z.of_nat i) 0); [lia|]. rewrite E1. cbn [mbind res_bind].
  unfold image_struct in *. rewrite u32_small by (unfold is_u32; lia). by rewrite E2.
Qed.

(** The count is the position of the first entry of size 0. *)
Lemma image_num_mem_rsv pre a post :
  rsv = pre ++ (a, 0) :: post → Forall (λ r, is_u64 r.1 ∧ is_u64 r.2) rsv → Forall (λ r, r.2 ≠ 0) pre →
  fdt_num_mem_rsv m fdt = Ok (Z.of_nat (length pre)).
Proof using Him Hsz.
  intros Er Hu Hpre. pose proof image_bounds. pose proof image_blob as Hbl.
  unfold fdt_num_mem_rsv, FDT_RO_PROBE. rewrite image_probe. cbn [mbind res_bind].
  destruct (Z.ltb_spec total 0); [lia|]. apply yields_eq. rewrite tree_fuel_eq by done.
  destruct image_header as (_ & E4 & _). rewrite E4.
  assert (Z.of_nat (length pre) < Z.of_nat (length rsv)) by (rewrite Er, length_app; cbn; lia).
  unfold image_struct in *.
  apply (loop_yields (λ i, 0 <= i <= Z.of_nat (length pre)) (λ i, Z.to_nat (Z.of_nat (length pre) - i)));
    [|lia|unfold image_strings, image_struct in *; lia].
  intros i Hi. rewrite <- (Z2Nat.id i) by lia. set (k := Z.to_nat i). rewrite image_mem_rsv by lia.
  cbn [mbind res_bind]. destruct (Z.eqb_spec (fdt + r0 + 16 * Z.of_nat k) 0); [lia|].
  destruct (lookup_lt_is_Some_2 rsv k) as [[a' b'] Hk]; [lia|].
  pose proof (Forall_lookup_1 _ _ _ _ Hu Hk) as [Ha' Hb']. cbn in Ha', Hb'.
  destruct (image_rsv_ld k a' b' Hk Ha' Hb') as [_ E2]. rewrite u32_small by (unfold is_u32; lia).
  rewrite E2. cbn [mbind res_bind]. subst rsv.
  destruct (Z.lt_ge_cases i (Z.of_nat (length pre))).
  - rewrite lookup_app_l in Hk by lia. pose proof (Forall_lookup_1 _ _ _ _ Hpre Hk) as Hne. cbn in Hne.
    destruct (Z.eqb_spec b' 0); [done|]. cbn [yields]. split; lia.
  - assert (k = length pre) as Ek by lia. rewrite Ek, list_lookup_middle in Hk by done.
    injection Hk as <- <-. cbn [Z.eqb yields]. by rewrite Ek.
Qed.
(* ------------------------------------------------------------------ *)
(** ** Names and properties *)

(** The string [name] lies at [nameoff] in the table. *)
Definition string_at (nameoff : Z) (name : list Z) : Prop :=
  Forall (λ c, c ≠ 0) name ∧ ∃ pre post, strings = pre ++ name ++ 0 :: post ∧ nameoff = Z.of_nat (length pre).

Lemma memchr_from_finds p name n :
  bytes_at m p (name ++ [0]) → Forall (λ c, c ≠ 0) name → (length name < n)%nat →
  0 <= p → p + Z.of_nat (length name) < 2 ^ 32 →
  memchr_from n p 0 m = Ok (p + Z.of_nat (length name)).
Proof.
  revert p n. induction name as [|c name IH]; intros p n Hb Hnz Hn Hp Ht; (destruct n as [|n]; [cbn in Hn; lia|]);
    cbn [memchr_from app] in *; apply bytes_at_cons in Hb as [Hc Hb]; rewrite (load8_ok _ _ _ Hc);
    cbn [mbind res_bind].
  - rewrite Z.eqb_refl. f_equal. cbn. lia.
  - apply Forall_cons in Hnz as [Hnc Hnz]. destruct (Z.eqb_spec c 0); [done|]. cbn [length] in *.
    rewrite u32_small by (unfold is_u32; lia). rewrite IH by (done || lia). f_equal. lia.
Qed.

Lemma string_at_bytes nameoff name :
  string_at nameoff name →
  bytes_at m (fdt + strs + nameoff) (name ++ [0]) ∧ 0 <= nameoff ∧ nameoff + Z.of_nat (length name) + 1 <= nstr.
Proof using Him.
  intros (_ & pre & post & Es & ->). pose proof (im_strings _ _ _ _ _ _ _ _ _ Him) as Hb. rewrite Es in Hb.
  rewrite Es, !length_app. cbn [length]. split; [|lia].
  apply bytes_at_app in Hb as [_ Hb]. replace (name ++ 0 :: post) with ((name ++ [0]) ++ post) in Hb
    by (by rewrite <- app_assoc). by apply bytes_at_app in Hb as [Hb _].
Qed.

Lemma image_get_string nameoff name :
  string_at nameoff name →
  fdt_get_string m fdt nameoff = Ok (fdt + strs + nameoff, Z.of_nat (length name)).
Proof using Him Hsz.
  intros Hs. pose proof image_bounds. pose proof image_blob as Hbl.
  destruct (string_at_bytes _ _ Hs) as (Hb & Hn0 & Hn).
  destruct image_header as (E0 & _ & _ & E12 & _ & E20 & _ & E32 & _).
  unfold fdt_get_string. rewrite image_probe. cbn [mbind res_bind].
  destruct (Z.ltb_spec total 0); [lia|]. unfold fdt_off_dt_strings.
  rewrite (proj1 (header_eq m fdt Hbl 12 ltac:(lia))), E12. cbn [mbind res_bind].
  rewrite (u32_small (nameoff + strs)) by (unfold is_u32; lia).
  destruct (Z.leb_spec total (nameoff + strs)); [lia|].
  unfold string_limit, fdt_magic, fdt_version, fdt_size_dt_strings.
  rewrite (proj1 (header_eq m fdt Hbl 0 ltac:(lia))), E0. cbn [mbind res_bind]. rewrite Z.eqb_refl.
  destruct (Z.ltb_spec nameoff 0); [lia|].
  rewrite (proj1 (header_eq m fdt Hbl 20 ltac:(lia))), E20. cbn [mbind res_bind].
  change (17 <=? 17) with true. cbv iota.
  rewrite (proj1 (header_eq m fdt Hbl 32 ltac:(lia))), E32. cbn [mbind res_bind].
  destruct (Z.leb_spec nstr nameoff); [lia|].
  rewrite (u32_small (nstr - nameoff)), (u32_small (total - _)), (u32_small (fdt + _)) by (unfold is_u32; lia).
  unfold memchr. replace (fdt + (nameoff + strs)) with (fdt + strs + nameoff) by lia.
  destruct Hs as [Hnz _].
  assert (∀ n, Z.of_nat (length name) < n → memchr_from (Z.to_nat n) (fdt + strs + nameoff) 0 m =
    Ok (fdt + strs + nameoff + Z.of_nat (length name))) as Hm.
  { intros n Hln. apply memchr_from_finds; [done|done|lia..]. }
  destruct (_ <? _); cbn [mbind res_bind]; (rewrite Hm by lia; cbn [mbind res_bind];
    destruct (Z.eqb_spec (fdt + strs + nameoff + Z.of_nat (length name)) 0); [lia|];
    do 2 f_equal; rewrite s32_small by (unfold is_s32; lia); lia).
Qed.

(** A node: its name. *)
Lemma image_node_name xs name ys :
  its = xs ++ IBegin name :: ys → node_name m fdt (items_size xs) = name ∧
    fdt_get_name m fdt (items_size xs) = Ok (fdt + strct + items_size xs + 4, Z.of_nat (length name)).
Proof using Him Hsz.
  intros Ei. pose proof image_bounds as Hbd. pose proof image_blob as Hbl. pose proof image_stream as Hst.
  rewrite Ei in Hst. destruct (stream_item _ _ _ _ _ Hst) as (Hin & [Hnz Hnl] & Hb & Htag).
  pose proof Hin as (H0 & H4 & Hle & _). pose proof (item_size_pos (IBegin name)).
  rewrite items_size_app in Htag. cbn [items_size foldr] in Htag. rewrite Z.add_0_r in Htag.
  destruct image_header as (_ & E4 & E8 & _ & _ & E20 & _). rewrite E8 in *. rewrite E4 in Hle.
  cbn [item_bytes] in Hb. apply bytes_at_app in Hb as [_ Hb]. rewrite length_be32 in Hb.
  change (Z.of_nat 4) with 4 in Hb. apply bytes_at_app in Hb as [Hb Hz]. apply bytes_at_cons in Hz as [Hz _].
  assert (cstr_at m (fdt + strct + items_size xs + 4) name) as Hcs by done.
  rewrite item_size_begin in Hle. pose proof (align4_ge (Z.of_nat (length name) + 1) ltac:(lia)).
  assert (fdt_get_name m fdt (items_size xs) = Ok (fdt + strct + items_size xs + 4, Z.of_nat (length name))) as Hg.
  { unfold fdt_get_name, fdt_offset_ptr_, fdt_off_dt_struct.
    rewrite (proj1 (header_eq m fdt Hbl 8 ltac:(lia))), E8. cbn [mbind res_bind]. rewrite image_probe.
    cbn [mbind res_bind]. destruct (Z.ltb_spec total 0); [lia|].
    unfold fdt_check_node_offset_, FDT_TAGSIZE. destruct (Z.ltb_spec (items_size xs) 0); [lia|].
    rewrite H4. cbn [Z.eqb negb orb]. rewrite Htag. cbn [mbind res_bind item_tag]. rewrite Z.eqb_refl. cbn [negb].
    destruct (Z.ltb_spec (items_size xs + item_size (IBegin name)) 0); [lia|]. unfold fdt_version.
    rewrite (proj1 (header_eq m fdt Hbl 20 ltac:(lia))), E20. cbn [mbind res_bind].
    change (17 <? 16) with false. cbv iota. cbn [mbind res_bind].
    rewrite (u32_small (fdt + strct + items_size xs)) by (unfold is_u32; lia).
    rewrite u32_small by (unfold is_u32; lia).
    destruct (Z.eqb_spec (fdt + strct + items_size xs + 4) 0); [lia|].
    rewrite (strlen_ok m _ name Hcs) by (apply Him || lia). cbn [mbind res_bind].
    by rewrite s32_small by (unfold is_s32; lia). }
  split; [|done]. unfold node_name. rewrite Hg. cbn [mbind res_bind]. rewrite Nat2Z.id.
  by rewrite (read_bytes_ok _ name) by (done || lia).
Qed.

(** A property: its name and its value. *)
Lemma image_getprop xs nameoff name val ys :
  its = xs ++ IProp nameoff val :: ys → string_at nameoff name →
  fdt_getprop_by_offset m fdt (items_size xs) true =
    Ok (fdt + strct + items_size xs + 12, Z.of_nat (length val), fdt + strs + nameoff) ∧ prop_name m fdt (items_size xs) = name ∧
  prop_bytes m fdt (items_size xs) = val ∧ prop_len m fdt (items_size xs) = Z.of_nat (length val).
Proof using Him Hsz.
  intros Ei Hs. pose proof image_bounds as Hbd. pose proof image_blob as Hbl. pose proof image_stream as Hst.
  rewrite Ei in Hst. destruct (stream_item _ _ _ _ _ Hst) as (Hin & [Hnu Hvl] & Hb & Htag).
  pose proof Hin as (H0 & H4 & Hle & _). pose proof (item_size_pos (IProp nameoff val)).
  rewrite items_size_app in Htag. cbn [items_size foldr] in Htag. rewrite Z.add_0_r in Htag.
  destruct image_header as (_ & E4 & E8 & _ & _ & E20 & _). rewrite E8 in *. rewrite E4 in Hle.
  rewrite item_size_prop in Hle. pose proof (align4_ge (Z.of_nat (length val)) ltac:(lia)).
  cbn [item_bytes] in Hb. apply bytes_at_app in Hb as [_ Hb]. apply bytes_at_app in Hb as [Hb2 Hb].
  apply bytes_at_app in Hb as [Hb3 Hb4]. rewrite !length_be32 in *. change (Z.of_nat 4) with 4 in *.
  set (p := fdt + strct + items_size xs) in *.
  assert (p mod 4 = 0) as Hp4.
  { pose proof image_struct_mod. unfold p. Z.div_mod_to_equations; lia. }
  assert (fdt32_ld_ m (p + 4) = Ok (Z.of_nat (length val))) as Hl.
  { apply fdt32_ld__bytes; [done|unfold is_u32; lia|clear - Hp4; Z.div_mod_to_equations; lia]. }
  assert (fdt32_ld_ m (p + 8) = Ok nameoff) as Hn.
  { replace (p + 8) with (p + 4 + 4) by lia.
    apply fdt32_ld__bytes; [done|done|clear - Hp4; Z.div_mod_to_equations; lia]. }
  assert (0 < p ∧ p + 12 + Z.of_nat (length val) < 2 ^ 32) as [Hp0 Hpt] by (unfold p; lia).
  destruct (string_at_bytes _ _ Hs) as (Hsb & Hn0 & Hnle). pose proof (image_get_string _ _ Hs) as Hgs.
  split_and!.
  - unfold fdt_getprop_by_offset, fdt_get_property_by_offset_, fdt_check_prop_offset_, FDT_TAGSIZE.
    destruct (Z.ltb_spec (items_size xs) 0); [lia|]. rewrite H4. cbn [Z.eqb negb orb]. rewrite Htag.
    cbn [mbind res_bind item_tag]. rewrite Z.eqb_refl. cbn [negb].
    destruct (Z.ltb_spec (items_size xs + item_size (IProp nameoff val)) 0); [lia|].
    unfold fdt_offset_ptr_, fdt_off_dt_struct.
    rewrite (proj1 (header_eq m fdt Hbl 8 ltac:(lia))), E8. cbn [mbind res_bind]. fold p.
    rewrite (u32_small p), (u32_small (p + 4)), Hl by (unfold is_u32; lia). cbn [mbind res_bind].
    destruct (Z.eqb_spec p 0); [lia|]. rewrite (u32_small (p + 8)), Hn by (unfold is_u32; lia). cbn [mbind res_bind].
    rewrite (s32_small nameoff), Hgs by (unfold is_s32; lia). cbn [mbind res_bind].
    destruct (Z.eqb_spec (fdt + strs + nameoff) 0); [lia|]. cbn [negb mbind res_bind].
    unfold property_data, fdt_version. rewrite (proj1 (header_eq m fdt Hbl 20 ltac:(lia))), E20.
    cbn [mbind res_bind]. change (17 <? 16) with false. cbn [andb mbind res_bind].
    rewrite u32_small by (unfold is_u32; lia). by rewrite s32_small by (unfold is_s32; lia).
  - unfold prop_name. rewrite E8. fold p. rewrite u32_small, Hn by (unfold is_u32; lia). cbn [mbind res_bind].
    rewrite (s32_small nameoff), Hgs by (unfold is_s32; lia). cbn [mbind res_bind]. rewrite Nat2Z.id.
    apply bytes_at_app in Hsb as [Hsb _]. by rewrite (read_bytes_ok _ name) by (done || lia).
  - unfold prop_bytes, prop_len, prop_value. rewrite E8. fold p. rewrite Hl, Nat2Z.id.
    replace (p + 12) with (p + 4 + 4 + 4) by lia.
    by rewrite (read_bytes_ok _ val) by (done || lia).
  - unfold prop_len. rewrite E8. fold p. by rewrite Hl.
Qed.
Lemma image_property xs nameoff name val ys :
  its = xs ++ IProp nameoff val :: ys → string_at nameoff name →
  good_property m fdt (items_size xs) ∧ prop_name m fdt (items_size xs) = name ∧
  prop_bytes m fdt (items_size xs) = val ∧ prop_len m fdt (items_size xs) = Z.of_nat (length val).
Proof using Him Hsz.
  intros Ei Hs. destruct (image_getprop _ _ _ _ _ Ei Hs) as (Hg & ? & ? & ?). split_and!; [|done..].
  do 3 eexists. split; [exact Hg|]. pose proof image_bounds. pose proof (items_size_pos xs). lia.
Qed.
End image.

(* ------------------------------------------------------------------ *)
(** * Trees *)

(** A tree as a value: a name, properties with their values, subnodes. *)
Inductive dtree : Type := DTree (name : list Z) (props : list (list Z * list Z)) (subs : list dtree).

Section dtree_ind.
Context (P : dtree → Prop) (Hnode : ∀ name props subs, Forall P subs → P (DTree name props subs)).

Fixpoint dtree_ind' (t : dtree) : P t :=
  match t with
  | DTree name props subs =>
      Hnode name props subs
        ((fix go (ts : list dtree) : Forall P ts :=
            match ts with
            | [] => @List.Forall_nil _ P
            | t :: ts' => @List.Forall_cons _ P t ts' (dtree_ind' t) (go ts')
            end) subs)
  end.
End dtree_ind.

(** The calls that build a tree; [place] is where a string or a value lies. *)
Definition prop_op (place : list Z → Z) (p : list Z * list Z) : sw_op :=
  Property (place p.1) p.1 (place p.2) p.2.
Fixpoint tree_ops (place : list Z → Z) (t : dtree) : list sw_op :=
  let 'DTree name props subs := t in
  BeginNode (place name) name :: map (prop_op place) props ++ flat_map (tree_ops place) subs ++ [EndNode].

(** The tree that the lookups of fdt_ro.c read at a node. *)
Fixpoint read_tree (m : mem) (fdt : Z) (d : dnode) : dtree :=
  let 'Node off props subs := d in
  DTree (node_name m fdt off) (map (λ p, (prop_name m fdt p, prop_bytes m fdt p)) props)
    (map (read_tree m fdt) subs).

(** The item that a call adds; [named] relates the word of a property to its name. *)
Definition spells (named : Z → list Z → Prop) (it : item) (op : sw_op) : Prop :=
  match it, op with
  | IBegin name, BeginNode _ name' => name = name'
  | IEnd, EndNode => True
  | IProp nameoff val, Property _ name _ val' => val = val' ∧ named nameoff name
  | _, _ => False
  end.

(** The bytes that calls add to the structure block, and where the nodes of a list
    start when it starts at [o]. *)
Definition op_size (op : sw_op) : Z :=
  match op with
  | BeginNode _ name => item_size (IBegin name)
  | EndNode => item_size IEnd
  | Property _ _ _ val => item_size (IProp 0 val)
  | _ => 0
  end.
Definition ops_size (l : list sw_op) : Z := foldr (λ op n, op_size op + n) 0 l.
Fixpoint node_offs (place : list Z → Z) (o : Z) (ts : list dtree) : list Z :=
  match ts with
  | [] => []
  | t :: ts => o :: node_offs place (o + ops_size (tree_ops place t)) ts
  end.

Lemma ops_size_app l1 l2 : ops_size (l1 ++ l2) = ops_size l1 + ops_size l2.
Proof. unfold ops_size. induction l1 as [|op l1 IH]; cbn [app foldr]; lia. Qed.

Lemma spelled_size named zs l : Forall2 (spells named) zs l → items_size zs = ops_size l.
Proof.
  induction 1 as [|it op zs l Hit _ IH]; [done|]. cbn [items_size ops_size foldr]. unfold items_size, ops_size in IH.
  rewrite IH. f_equal. destruct it, op; cbn in Hit |- *; try done; [by subst|].
  destruct Hit as [-> _]. by rewrite !item_size_prop.
Qed.

Section grammar.
Context (m : mem) (fdt size total r0 cpuid : Z) (rsv : list (Z * Z)) (its : list item) (strings : list Z).
Context (Him : image total r0 cpuid rsv its strings m fdt size) (Hsz : total < INT_MAX) (place : list Z → Z).

#[local] Abbreviation spelled := (Forall2 (spells (string_at strings))).
#[local] Abbreviation tag_at := (tag_at m fdt).

Lemma spelled_app_inv zs l1 l2 :
  spelled zs (l1 ++ l2) → ∃ z1 z2, zs = z1 ++ z2 ∧ spelled z1 l1 ∧ spelled z2 l2.
Proof. intros (z1 & z2 & ? & ? & ->)%Forall2_app_inv_r. by exists z1, z2. Qed.

Lemma item_tag_at xs it ys :
  its = xs ++ it :: ys → tag_at (items_size xs) (item_tag it) (items_size (xs ++ [it])).
Proof using Him Hsz.
  intros Ei. pose proof (image_stream _ _ _ _ _ _ _ _ _ Him Hsz) as Hst. rewrite Ei in Hst.
  destruct (stream_item _ _ _ _ _ Hst) as (_ & _ & _ & Ht). split; [done|apply items_size_pos].
Qed.

(** Properties in front of a subnode or of the end of the node. *)
Lemma props_spelled vals xs ps ys :
  its = xs ++ ps ++ ys → spelled ps (map (prop_op place) vals) →
  ∃ offs, map (λ p, (prop_name m fdt p, prop_bytes m fdt p)) offs = vals ∧
    (∀ more, props_at m fdt (items_size (xs ++ ps)) more → props_at m fdt (items_size xs) (offs ++ more)) ∧
    ∀ ds after, subs_at m fdt (items_size (xs ++ ps)) ds after → subs_at m fdt (items_size xs) ds after.
Proof using Him Hsz.
  revert xs ps. induction vals as [|[n v] vals IH]; intros xs ps Ei Hsp; cbn [map] in Hsp.
  - apply Forall2_nil_inv_r in Hsp as ->. exists []. by rewrite app_nil_r.
  - apply Forall2_cons_inv_r in Hsp as (it & ps' & Hit & Hsp & ->).
    destruct it as [| |nameoff val]; cbn in Hit; [done..|]. destruct Hit as [<- Hn].
    destruct (image_property _ _ _ _ _ _ _ _ _ Him Hsz xs nameoff n val (ps' ++ ys) Ei Hn) as (Hg & En & Ev & _).
    pose proof (item_tag_at xs _ _ Ei) as Ht. cbn [item_tag] in Ht.
    destruct (IH (xs ++ [IProp nameoff val]) ps') as (offs & Eo & Hp & Hs); [by rewrite <- app_assoc|done|].
    exists (items_size xs :: offs). rewrite <- app_assoc in Hp, Hs. cbn [map app] in *. rewrite En, Ev, Eo.
    split_and!; [done| |].
    + intros more H0. eapply props_prop; eauto.
    + intros ds after H0. eapply subs_prop; eauto.
Qed.

(** One node, the items [zs], with more behind it. *)
Definition node_spelled (t : dtree) : Prop := ∀ xs zs ys,
  its = xs ++ zs ++ ys → spelled zs (tree_ops place t) →
  ∃ d next, node_off d = items_size xs ∧ tag_at (items_size xs) FDT_BEGIN_NODE next ∧
    props_at m fdt next (node_props d) ∧ subs_at m fdt next (node_subs d) (items_size (xs ++ zs)) ∧
    read_tree m fdt d = t.

Lemma subs_spelled ts : Forall node_spelled ts → ∀ xs zs ys,
  its = xs ++ zs ++ IEnd :: ys → spelled zs (flat_map (tree_ops place) ts) →
  props_at m fdt (items_size xs) [] ∧
  ∃ ds, subs_at m fdt (items_size xs) ds (items_size (xs ++ zs ++ [IEnd])) ∧ map (read_tree m fdt) ds = ts ∧
    map node_off ds = node_offs place (items_size xs) ts.
Proof using Him Hsz.
  induction 1 as [|t ts Ht _ IH]; intros xs zs ys Ei Hsp; cbn [flat_map] in Hsp.
  - apply Forall2_nil_inv_r in Hsp as ->. cbn [app] in *. pose proof (item_tag_at xs _ _ Ei) as Htag.
    split; [eapply props_end; [exact Htag|by right]|]. exists []. split; [by apply subs_end|done].
  - apply spelled_app_inv in Hsp as (z1 & z2 & -> & H1 & H2).
    destruct (Ht xs z1 (z2 ++ IEnd :: ys)) as (d & next & Eo & Htag & Hp & Hs & Er); [by rewrite Ei, <- app_assoc|done|].
    destruct (IH (xs ++ z1) z2 ys) as (_ & ds & Hds & Eds & Eoff); [by rewrite Ei, <- !app_assoc|done|].
    split; [eapply props_end; [exact Htag|by left]|]. exists (d :: ds). cbn [map node_offs].
    rewrite Er, Eds, Eoff, Eo, (items_size_app xs z1), (spelled_size _ _ _ H1).
    split; [|done]. destruct d as [off ps ss]. cbn in Eo, Hp, Hs. subst off.
    rewrite <- !app_assoc in *. by eapply subs_node.
Qed.

Lemma tree_spelled t : node_spelled t.
Proof using Him Hsz.
  induction t as [name vals ts IH] using dtree_ind'. intros xs zs ys Ei Hsp. cbn [tree_ops] in Hsp.
  apply Forall2_cons_inv_r in Hsp as (it & zs' & Hit & Hsp & ->).
  destruct it as [name'| |]; cbn in Hit; [subst name'|done..].
  destruct (image_node_name _ _ _ _ _ _ _ _ _ Him Hsz xs name (zs' ++ ys) Ei) as [En _].
  pose proof (item_tag_at xs _ _ Ei) as Ht. cbn [item_tag] in Ht.
  apply spelled_app_inv in Hsp as (ps & zs2 & -> & Hps & Hsp).
  apply spelled_app_inv in Hsp as (ss & e & -> & Hss & He).
  apply Forall2_cons_inv_r in He as (it & e' & Hit & He & ->). apply Forall2_nil_inv_r in He as ->.
  destruct it as [| |]; [done| |done].
  destruct (props_spelled vals (xs ++ [IBegin name]) ps (ss ++ IEnd :: ys)) as (offs & Eo & Hp & Hs);
    [by rewrite Ei, <- !app_assoc; cbn [app]; rewrite <- !app_assoc|done|].
  destruct (subs_spelled ts IH ((xs ++ [IBegin name]) ++ ps) ss ys) as (Hp0 & ds & Hds & Eds & _);
    [by rewrite Ei, <- !app_assoc; cbn [app]; rewrite <- !app_assoc|done|].
  exists (Node (items_size xs) offs ds), (items_size (xs ++ [IBegin name])).
  cbn [node_off node_props node_subs read_tree]. rewrite En, Eo, Eds. split_and!; [done|done|by rewrite <- (app_nil_r offs); apply Hp| |done].
  apply Hs. rewrite <- !app_assoc in Hds. cbn [app] in Hds. rewrite <- !app_assoc in *. cbn [app]. done.
Qed.

(** The whole block. *)
Lemma block_spelled vals ts :
  spelled its (tree_ops place (DTree [] vals ts)) →
  ∃ d, block_at m fdt 0 (Some d) ∧ read_tree m fdt d = DTree [] vals ts.
Proof using Him Hsz.
  intros Hsp. destruct (tree_spelled (DTree [] vals ts) [] its []) as (d & next & Eo & Ht & Hp & Hs & Er);
    [by rewrite app_nil_r|done|].
  exists d. split; [|done]. destruct d as [off ps ss]. cbn in Eo, Hp, Hs. change (items_size []) with 0 in Ht.
  change (off = 0) in Eo. subst off. eapply block_root; [done| |done|done|].
  - cbn [tree_ops] in Hsp. apply Forall2_cons_inv_r in Hsp as (it & zs & Hit & _ & Ei).
    destruct it as [name'| |]; cbn in Hit; [subst name'|done..].
    destruct (image_node_name _ _ _ _ _ _ _ _ _ Him Hsz [] [] zs Ei) as [_ Hg].
    exists (fdt + image_struct r0 rsv + items_size [] + 4). split; [exact Hg|].
    pose proof (image_bounds _ _ _ _ _ _ _ _ _ Him Hsz). change (items_size []) with 0. split; [lia|].
    pose proof (im_items _ _ _ _ _ _ _ _ _ Him) as Hits. rewrite Ei in Hits. destruct Hits as [Hb _].
    cbn [item_bytes app] in Hb. apply bytes_at_app in Hb as [_ Hb]. rewrite length_be32 in Hb.
    apply bytes_at_cons in Hb as [Hb _]. change (Z.of_nat 4) with 4 in Hb. rewrite Z.add_0_r.
    by apply load8_ok.
  - eapply closing_end. split; [apply (stream_end m fdt its), (image_stream _ _ _ _ _ _ _ _ _ Him Hsz)|].
    pose proof (items_size_pos its). lia.
Qed.
End grammar.

Lemma first_end rsvs :
  ∃ pre a post, rsvs ++ [(0, 0)] = pre ++ (a, 0) :: post ∧ Forall (λ r : Z * Z, r.2 ≠ 0) pre.
Proof.
  induction rsvs as [|[a l] rsvs (pre & a' & post & E & Hp)]; [by exists [], 0, []|].
  destruct (decide (l = 0)) as [-> |Hl]; [by exists [], a, (rsvs ++ [(0, 0)])|].
  exists ((a, l) :: pre), a', post. cbn [app]. rewrite E. split; [done|]. by constructor.
Qed.

Section whole.
Context (m : mem) (fdt size total r0 cpuid : Z) (rsvs : list (Z * Z)) (its : list item) (strings : list Z).
Context (place : list Z → Z) (vals : list (list Z * list Z)) (ts : list dtree).
Context (Him : image total r0 cpuid (rsvs ++ [(0, 0)]) its strings m fdt size) (Hsz : total < INT_MAX).
Context (Hu : Forall (λ r, is_u64 r.1 ∧ is_u64 r.2) rsvs).
Context (Hsp : Forall2 (spells (string_at strings)) its (tree_ops place (DTree [] vals ts))).

Lemma rsvs_u64 : Forall (λ r, is_u64 r.1 ∧ is_u64 r.2) (rsvs ++ [(0, 0)]).
Proof using Hu. apply Forall_app. split; [done|]. by repeat constructor. Qed.

Lemma image_valid : valid_tree m fdt.
Proof using Him Hsz Hu Hsp.
  destruct (block_spelled m fdt size total r0 cpuid _ its strings Him Hsz place vals ts Hsp) as (d & Hd & _).
  destruct (first_end rsvs) as (pre & a & post & E & Hpre).
  pose proof (image_num_mem_rsv _ _ _ _ _ _ _ _ _ Him Hsz pre a post E rsvs_u64 Hpre) as Hn.
  split_and!; [by eapply image_header_ok|by exists (Z.of_nat (length pre)); split; [|lia]|].
  apply well_nested_block. by exists (Some d).
Qed.

(** An image that spells [t]. *)
Lemma image_reads :
  readable_tree m fdt ∧ fdt_check_full m fdt size = Ok 0 ∧
  (∀ i r, (rsvs ++ [(0, 0)]) !! i = Some r → fdt_get_mem_rsv m fdt (Z.of_nat i) = Ok (0, Some r)) ∧
  ∃ d, block_at m fdt 0 (Some d) ∧ read_tree m fdt d = DTree [] vals ts.
Proof using Him Hsz Hu Hsp.
  pose proof (image_readable _ _ _ _ _ _ _ _ _ Him Hsz) as Hread. pose proof Hread as (H1 & H2 & H3 & H4 & H5 & H6 & H7 & H8).
  split_and!; [done| | |exact (block_spelled m fdt size total r0 cpuid _ its strings Him Hsz place vals ts Hsp)].
  - destruct (check_full_ok m fdt size H1 H2 H3 H4 H5 H6 H7 H8) as (r & -> & Hr). f_equal. apply Hr.
    pose proof image_valid as (Hok & Hn & Hw). split_and!; [done| |done|done].
    destruct (image_header _ _ _ _ _ _ _ _ _ Him Hsz) as (_ & -> & _).
    pose proof (image_bounds _ _ _ _ _ _ _ _ _ Him Hsz). lia.
  - intros i [b l] Hi. pose proof (Forall_lookup_1 _ _ _ _ rsvs_u64 Hi) as [? ?]. by apply (image_get_mem_rsv _ _ _ _ _ _ _ _ _ Him Hsz).
Qed.
End whole.
