(* ===== verification/FdtRoundtrip.v ===== *)
(** The round trip through src/libfdt/fdt_sw.c: a tree that the calls of fdt_sw.c build
    and [fdt_finish] completes is one that [fdt_check_full] accepts, and the lookups of
    fdt_ro.c read it back as it was built. *)
From S2P Require Import Prelude Machine Crt0 SampleTree Fdt FdtRo FdtCheck FdtTree FdtLookup FdtWrite FdtSw FdtImage FdtBuild FdtFinish FdtRead.
From stdpp Require Import base list gmap.
From Stdlib Require Import ZArith Lia.
#[local] Open Scope Z_scope.

#[local] Set Warnings "-register-all".

(* ------------------------------------------------------------------ *)
(** * What the builder holds *)

(** A name in the table of a tree under construction: its word is the distance from
    the end of the table. *)
Definition stored_at (strings : list Z) (nameoff : Z) (name : list Z) : Prop :=
  Forall (λ c, c ≠ 0) name ∧
  ∃ pre post, strings = pre ++ name ++ 0 :: post ∧ nameoff = u32 (- Z.of_nat (length (name ++ 0 :: post))).

Lemma stored_more s strings nameoff name : stored_at strings nameoff name → stored_at (s ++ strings) nameoff name.
Proof. intros (Hnz & pre & post & -> & ->). split; [done|]. exists (s ++ pre), post. by rewrite <- app_assoc. Qed.

Lemma stored_fixed strings nameoff name :
  stored_at strings nameoff name → Z.of_nat (length strings) < 2 ^ 31 →
  string_at strings (u32 (nameoff + Z.of_nat (length strings))) name.
Proof.
  intros (Hnz & pre & post & -> & ->) Hl. split; [done|]. exists pre, post. split; [done|].
  rewrite (length_app pre) in *. set (n := length (name ++ 0 :: post)) in *.
  unfold u32, wrap. rewrite Zplus_mod_idemp_l.
  rewrite Z.mod_small; lia.
Qed.

Lemma spells_fixed strings it op :
  Z.of_nat (length strings) < 2 ^ 31 → spells (stored_at strings) it op →
  spells (string_at strings) (fix_item (Z.of_nat (length strings)) it) op.
Proof.
  intros Hl. destruct it, op; cbn; try done. intros [-> Hs]. split; [done|]. by apply stored_fixed.
Qed.

Lemma add_name_stored st name strings nameoff :
  add_name st name = Some (strings, nameoff) → Forall (λ c, c ≠ 0) name →
  stored_at strings nameoff name ∧ ∃ s, strings = s ++ b_strings st.
Proof.
  unfold add_name. intros Ha Hnz.
  destruct (if _ =? 0 then _ else None) as [i|] eqn:Ef.
  - injection Ha as <- <-. split; [|by exists []]. split; [done|].
    assert (find_str (b_strings st) (name ++ [0]) = Some i) as Hf by (by destruct (_ =? 0)).
    apply find_str_spec in Hf as (pre & post & Es & <-). exists pre, post.
    rewrite <- app_assoc in Es. split; [done|]. f_equal. unfold b_strlen. rewrite Es, length_app. cbn. lia.
  - destruct (has_room _ _); [|done]. injection Ha as <- <-. split; [|by eexists]. split; [done|].
    exists [], (b_strings st). rewrite <- app_assoc. split; [done|]. f_equal. unfold b_strlen.
    rewrite !length_app. cbn. lia.
Qed.

(** The calls that add an item. *)
Definition item_op (op : sw_op) : Prop :=
  match op with
  | BeginNode _ _ | EndNode => True
  | Property _ name _ _ => Forall (λ c, c ≠ 0) name
  | _ => False
  end.

#[local] Abbreviation holds st ops := (Forall2 (spells (stored_at (b_strings st))) (b_items st) ops).

Lemma holds_more s strings its ops :
  Forall2 (spells (stored_at strings)) its ops → Forall2 (spells (stored_at (s ++ strings))) its ops.
Proof.
  intros H. eapply Forall2_impl; [exact H|]. intros [| |] []; cbn; try done.
  intros [-> ?]. split; [done|]. by apply stored_more.
Qed.

Lemma step_holds st op ops :
  holds st ops → item_op op → (build_step st op).1 = 0 →
  holds (build_step st op).2 (ops ++ [op]) ∧ b_open st = true ∧ b_open (build_step st op).2 = true ∧
  b_rsv (build_step st op).2 = b_rsv st.
Proof.
  intros Hh Hop. destruct op as [| |s name| |s name v val]; [done|done|..]; cbn [build_step item_op] in *;
    (destruct (b_open st) eqn:Ho; [|done]); unfold add_item.
  - destruct (has_room _ _); [|done]. intros _. destruct st; cbn in *. split_and!; try done. by apply Forall2_app; [|constructor].
  - destruct (has_room _ _); [|done]. intros _. destruct st; cbn in *. split_and!; try done. by apply Forall2_app; [|constructor].
  - destruct (add_name st name) as [[strings nameoff]|] eqn:Ea; [|done]. cbv zeta.
    destruct (has_room _ _); [|done]. intros _. destruct (add_name_stored _ _ _ _ Ea Hop) as [Hs [s' ->]].
    destruct st; cbn in *. split_and!; try done. apply Forall2_app; [|by constructor].
    by apply holds_more.
Qed.

Lemma build_holds ops st done :
  holds st done → Forall item_op ops → Forall (.= 0) (build st ops).1 → b_open st = true →
  holds (build st ops).2 (done ++ ops) ∧ b_open (build st ops).2 = true ∧ b_rsv (build st ops).2 = b_rsv st.
Proof.
  revert st done. induction ops as [|op ops IH]; intros st done Hh Hop Hr Ho; cbn [build] in *.
  { by rewrite app_nil_r. }
  apply Forall_cons in Hop as [Hop Hops]. apply Forall_cons in Hr as [Hr Hrs]. cbn beta in Hr.
  destruct (step_holds st op done Hh Hop Hr) as (Hh' & _ & Ho' & Er).
  destruct (IH _ _ Hh' Hops Hrs Ho') as (Hh2 & Ho2 & Er2). rewrite <- app_assoc in Hh2.
  split_and!; [done|done|]. cbn [snd]. by rewrite Er2.
Qed.

Lemma build_app st l1 l2 :
  build st (l1 ++ l2) = ((build st l1).1 ++ (build (build st l1).2 l2).1, (build (build st l1).2 l2).2).
Proof.
  revert st. induction l1 as [|op l1 IH]; intros st; cbn [build app fst snd]; [by destruct (build st l2)|].
  by rewrite IH.
Qed.

(** The calls for a reservation map. *)
Definition rsv_ops (rsvs : list (Z * Z)) : list sw_op :=
  map (λ r, AddReservemapEntry r.1 r.2) rsvs ++ [FinishReservemap].

Lemma build_rsv rsvs st :
  b_open st = false → Forall (.= 0) (build st (rsv_ops rsvs)).1 →
  (build st (rsv_ops rsvs)).2 = with_rsv true (b_rsv st ++ rsvs ++ [(0, 0)]) st.
Proof.
  unfold rsv_ops. revert st. induction rsvs as [|[a l] rsvs IH]; intros st Ho Hr; cbn [map app build] in *.
  - apply Forall_cons in Hr as [Hr _]. cbn [build_step] in *. rewrite Ho in *. by destruct (has_room _ _).
  - apply Forall_cons in Hr as [Hr Hrs]. cbn [build_step fst snd] in *. rewrite Ho in *.
    destruct (has_room _ _); [|done]. cbn [snd] in *. rewrite IH; [|by destruct st|done].
    destruct st; cbn. by rewrite <- app_assoc.
Qed.

(** The room that a call needs at most. *)
Definition op_space (op : sw_op) : Z :=
  match op with
  | AddReservemapEntry _ _ | FinishReservemap => 16
  | BeginNode _ name => item_size (IBegin name)
  | EndNode => item_size IEnd
  | Property _ name _ val => item_size (IProp 0 val) + Z.of_nat (length name) + 1
  end.
Definition ops_space (ops : list sw_op) : Z := foldr (λ op n, op_space op + n) 0 ops.

Definition b_used (st : builder) : Z := b_top st + b_strlen st.

Lemma op_space_pos op : 0 <= op_space op.
Proof.
  destruct op as [| |s name| |s name v val]; cbn [op_space]; try lia.
  - pose proof (item_size_pos (IBegin name)). lia.
  - pose proof (item_size_pos IEnd). lia.
  - pose proof (item_size_pos (IProp 0 val)). lia.
Qed.

Lemma ops_space_pos ops : 0 <= ops_space ops.
Proof. induction ops as [|op ops IH]; cbn; [done|]. pose proof (op_space_pos op). unfold ops_space in IH. lia. Qed.

Lemma ops_space_app l1 l2 : ops_space (l1 ++ l2) = ops_space l1 + ops_space l2.
Proof. induction l1 as [|op l1 IH]; [done|]. cbn. unfold ops_space in *. rewrite IH. lia. Qed.

Lemma add_item_used st it :
  has_room st (item_size it) = true →
  b_used (with_items (b_items st ++ [it]) st) = b_used st + item_size it.
Proof.
  intros _. unfold b_used. destruct st. builder_fields. rewrite items_size_app. cbn [items_size foldr]. lia.
Qed.

Lemma add_name_used st name strings nameoff :
  add_name st name = Some (strings, nameoff) → 
  b_used (with_strings strings st) <= b_used st + Z.of_nat (length name) + 1.
Proof.
  unfold add_name. intros Ha. destruct (if _ =? 0 then _ else None) as [i|].
  - injection Ha as <- <-. unfold b_used. destruct st. builder_fields. lia.
  - destruct (has_room _ _); [|done]. injection Ha as <- <-. unfold b_used. destruct st. builder_fields.
    rewrite !length_app. cbn [length]. lia.
Qed.

Definition in_turn (st : builder) (op : sw_op) : bool :=
  match op with AddReservemapEntry _ _ | FinishReservemap => negb (b_open st) | _ => b_open st end.

(** A call in turn that has enough room succeeds. *)
Lemma step_space st op :
  in_turn st op = true → b_used st + op_space op <= b_size st →
  (build_step st op).1 = 0 ∧ b_used (build_step st op).2 <= b_used st + op_space op ∧
  b_open (build_step st op).2 = (match op with FinishReservemap => true | _ => b_open st end).
Proof.
  intros Ht Hu. assert (∀ n, b_used st + n <= b_size st → has_room st n = true) as Hroom.
  { intros n Hn. unfold has_room. apply Z.leb_le. unfold b_used in Hn. lia. }
  destruct op as [a l| |s name| |s name v val]; cbn [in_turn op_space build_step] in *;
    destruct (b_open st) eqn:Ho; try done; unfold add_item.
  1,2: rewrite Hroom by lia; cbn [fst snd]; split; [done|]; unfold b_used; clear Hu Hroom; destruct st;
    builder_fields; rewrite length_app; cbn [length]; (split; [lia|done]).
  1,2: rewrite Hroom by lia; cbn [fst snd]; rewrite add_item_used by (apply Hroom; lia);
    split; [done|split; [lia|by destruct st]].
  pose proof (item_size_pos (IProp 0 val)).
  destruct (add_name st name) as [[strings nameoff]|] eqn:Ea.
  2: { exfalso. unfold add_name in Ea. destruct (if _ =? 0 then _ else None); [done|].
       rewrite Hroom in Ea; [done|]. rewrite length_app. cbn. lia. }
  pose proof (add_name_used _ _ _ _ Ea) as Hn. set (st1 := with_strings strings st) in *.
  assert (item_size (IProp nameoff val) = item_size (IProp 0 val)) as Es by (by rewrite !item_size_prop).
  assert (b_size st1 = b_size st ∧ b_items st1 = b_items st ∧ b_open st1 = b_open st) as (E1 & E2 & E3)
    by (by destruct st).
  assert (has_room st1 (item_size (IProp nameoff val)) = true) as Hr1.
  { unfold has_room. apply Z.leb_le. unfold b_used in *. rewrite E1, Es. lia. }
  cbv zeta. fold st1. rewrite Hr1. cbn [fst snd]. rewrite <- E2, (add_item_used st1 _ Hr1). split; [done|].
  split; [lia|]. by destruct st.
Qed.

Lemma items_space ops st :
  Forall item_op ops → b_open st = true → b_used st + ops_space ops <= b_size st →
  Forall (.= 0) (build st ops).1 ∧ b_used (build st ops).2 <= b_used st + ops_space ops.
Proof.
  revert st. induction ops as [|op ops IH]; intros st Hop Ho Hu; cbn [build ops_space foldr fst snd] in *.
  { split; [done|lia]. }
  fold (ops_space ops) in *. pose proof (ops_space_pos ops). apply Forall_cons in Hop as [Hop Hops].
  destruct (step_space st op) as (Er & Hu' & Ho'); [by destruct op|lia|].
  destruct (IH (build_step st op).2 Hops) as [Hrs Hu2];
    [by rewrite Ho'; destruct op|rewrite build_step_size; lia|].
  split; [by constructor|lia].
Qed.

Lemma rsv_space rsvs st :
  b_open st = false → b_used st + ops_space (rsv_ops rsvs) <= b_size st →
  Forall (.= 0) (build st (rsv_ops rsvs)).1 ∧ b_used (build st (rsv_ops rsvs)).2 <= b_used st + ops_space (rsv_ops rsvs) ∧
  b_open (build st (rsv_ops rsvs)).2 = true.
Proof.
  unfold rsv_ops. revert st. induction rsvs as [|[a l] rsvs IH]; intros st Ho Hu; cbn [map app] in *.
  - destruct (step_space st FinishReservemap) as (Er & Hu' & Ho'); [by cbn; rewrite Ho|cbn in *; lia|].
    cbn [build fst snd]. split_and!; [by constructor|cbn in *; lia|done].
  - cbn [build fst snd ops_space foldr] in *. fold (ops_space (map (λ r, AddReservemapEntry r.1 r.2) rsvs ++ [FinishReservemap])) in *.
    pose proof (ops_space_pos (map (λ r, AddReservemapEntry r.1 r.2) rsvs ++ [FinishReservemap])).
    destruct (step_space st (AddReservemapEntry a l)) as (Er & Hu' & Ho'); [by cbn; rewrite Ho|lia|].
    destruct (IH (build_step st (AddReservemapEntry a l)).2) as (Hrs & Hu2 & Ho2);
      [by rewrite Ho'|rewrite build_step_size; lia|].
    split_and!; [by constructor|lia|done].
Qed.

Lemma build_size ops st : b_size (build st ops).2 = b_size st.
Proof. revert st. induction ops as [|op ops IH]; intros st; cbn; [done|]. by rewrite IH, build_step_size. Qed.

(* ------------------------------------------------------------------ *)
(** * Building a whole tree *)

(** [fdt_finish] in every state. *)
Lemma finish_result m fdt st :
  rep m fdt st →
  if b_open st then
    if has_room st 4 then
      ∃ m', fdt_finish fdt m = Ok (0, m') ∧ same_outside fdt (b_size st) m m' ∧
        finished m' fdt (b_size st) (b_rsv st) (fix_item (b_strlen st) <$> b_items st) (b_strings st)
    else fdt_finish fdt m = Ok (- FDT_ERR_NOSPACE, m)
  else fdt_finish fdt m = Ok (- FDT_ERR_BADSTATE, m).
Proof.
  intros Hrep. destruct (b_open st) eqn:Ho; [destruct (has_room st 4) eqn:Hroom|].
  - by apply finish_ok.
  - unfold fdt_finish. rewrite (guard_struct m fdt st Hrep), Ho.
    rewrite (wbind_ok _ _ _ _ _ (eq_trans (grab_ok m fdt st 4 Hrep ltac:(lia)) (f_equal (λ b : bool, Ok (if b
      then (fdt + b_top st, map_bytes (fdt + 36) (be32 (items_size (b_items st) + 4)) m) else (0, m))) Hroom))).
    done.
  - unfold fdt_finish. by rewrite (guard_struct m fdt st Hrep), Ho.
Qed.

(** Creation, calls, completion; the results. *)
Definition sw_session (fdt size flags : Z) (ops : list sw_op) : W (list Z) :=
  r ← fdt_create_with_flags fdt size flags;
  rs ← run_ops fdt ops;
  r' ← fdt_finish fdt;
  mret (r :: rs ++ [r']).

Lemma session_ok m fdt size flags ops :
  buffer m fdt size → 48 <= size <= INT_MAX → flags = 0 ∨ flags = 1 → Forall (op_input m fdt size) ops →
  let st := (build (new_builder size flags) ops).2 in
  ∃ r' m', sw_session fdt size flags ops m = Ok (0 :: (build (new_builder size flags) ops).1 ++ [r'], m') ∧
    same_outside fdt size m m' ∧ (r' = 0 ↔ b_open st = true ∧ has_room st 4 = true) ∧
    (r' = 0 → finished m' fdt size (b_rsv st) (fix_item (b_strlen st) <$> b_items st) (b_strings st)) ∧
    Z.of_nat (length (b_strings st)) < 2 ^ 31.
Proof.
  intros Hb Hsz Hfl Hops st. destruct (create_ok m fdt size flags Hb Hsz Hfl) as (m1 & He1 & Hrep1 & Hs1).
  cbn [fst snd] in *. destruct (run_ops_ok fdt ops m1 (new_builder size flags) Hrep1) as (m2 & He2 & Hrep2 & Hs2).
  { eapply Forall_impl; [exact Hops|]. intros op Hop. by eapply op_input_outside. }
  fold st in Hrep2. assert (b_size st = size) as Esz by (unfold st; by rewrite build_size).
  change (b_size (new_builder size flags)) with size in Hs2.
  assert (same_outside fdt size m m2) as Hs12 by (intros x Hx; by rewrite Hs2, Hs1).
  pose proof (finish_result m2 fdt st Hrep2) as Hf. rewrite Esz in Hf.
  assert (Z.of_nat (length (b_strings st)) < 2 ^ 31) as Hl.
  { pose proof (rep_bounds _ _ _ Hrep2). unfold INT_MAX, b_strlen in *.
    pose proof (sn_room _ (rp_sane _ _ _ Hrep2)) as Hr. unfold has_room, b_top, b_strlen in Hr. apply Z.leb_le in Hr.
    lia. }
  assert (∀ r' m', fdt_finish fdt m2 = Ok (r', m') →
    sw_session fdt size flags ops m = Ok (0 :: (build (new_builder size flags) ops).1 ++ [r'], m')) as Hrun.
  { intros r' m' He3. unfold sw_session. rewrite (wbind_ok _ _ _ _ _ He1), (wbind_ok _ _ _ _ _ He2).
    by rewrite (wbind_ok _ _ _ _ _ He3). }
  destruct (b_open st) eqn:Ho; [destruct (has_room st 4) eqn:Hroom|].
  - destruct Hf as (m' & He3 & Hs3 & Hfin). exists 0, m'. split; [by apply Hrun|].
    split; [intros x Hx; by rewrite Hs3, Hs12|done].
  - exists (- FDT_ERR_NOSPACE), m2. split; [by apply Hrun|]. split_and!; [done| |done|done].
    split; [done|]. by intros [_ ?].
  - exists (- FDT_ERR_BADSTATE), m2. split; [by apply Hrun|]. split_and!; [done| |done|done].
    split; [done|]. by intros [? _].
Qed.

(** The calls for a reservation map and a tree. *)
Definition build_ops (place : list Z → Z) (rsvs : list (Z * Z)) (t : dtree) : list sw_op :=
  rsv_ops rsvs ++ tree_ops place t.

Lemma op_input_item m fdt size op :
  op_input m fdt size op →
  match op with AddReservemapEntry _ _ | FinishReservemap => True | _ => item_op op end.
Proof. destruct op; cbn; try done. intros ((Hc & _) & _). apply Hc. Qed.

Lemma tree_items_ok m fdt size place t :
  Forall (op_input m fdt size) (tree_ops place t) → Forall item_op (tree_ops place t).
Proof.
  assert (∀ op, op ∈ tree_ops place t →
    match op with AddReservemapEntry _ _ | FinishReservemap => False | _ => True end) as Ht.
  { induction t as [name vals ts IH] using dtree_ind'. intros op. cbn [tree_ops].
    rewrite elem_of_cons, !elem_of_app, list_elem_of_singleton. intros [->|[Hin|[Hin| ->]]]; try done.
    - apply list_elem_of_In, in_map_iff in Hin as (p & <- & _). done.
    - apply list_elem_of_In, in_flat_map in Hin as (t & Hin & Hop).
      rewrite Forall_forall in IH. by apply (IH t); apply list_elem_of_In. }
  rewrite !Forall_forall. intros Hin op Hop. specialize (Ht op Hop).
  pose proof (op_input_item _ _ _ _ (Hin op Hop)) as Hi. by destruct op.
Qed.

(** What the calls for a tree leave in the builder. *)
Lemma built_tree place size flags rsvs t :
  let r := build (new_builder size flags) (build_ops place rsvs t) in
  Forall item_op (tree_ops place t) → Forall (.= 0) r.1 →
  b_open r.2 = true ∧ b_rsv r.2 = rsvs ++ [(0, 0)] ∧
  Forall2 (spells (stored_at (b_strings r.2))) (b_items r.2) (tree_ops place t).
Proof.
  unfold build_ops. rewrite build_app. cbn [fst snd]. rewrite Forall_app. intros Hi [H1 H2].
  rewrite (build_rsv rsvs) in * by done.
  set (st1 := with_rsv true _ _) in *. assert (holds st1 []) as Hh0 by constructor.
  destruct (build_holds (tree_ops place t) st1 [] Hh0 Hi H2 eq_refl) as (Hh & Ho & Er).
  split_and!; [done|by rewrite Er|done].
Qed.

Lemma enough_space place size flags rsvs t :
  let r := build (new_builder size flags) (build_ops place rsvs t) in
  Forall item_op (tree_ops place t) → 48 + ops_space (build_ops place rsvs t) + 4 <= size →
  Forall (.= 0) r.1 ∧ b_open r.2 = true ∧ has_room r.2 4 = true.
Proof.
  unfold build_ops. rewrite build_app, ops_space_app. cbn [fst snd]. intros Hi Hsz.
  pose proof (ops_space_pos (tree_ops place t)) as Hp.
  assert (b_used (new_builder size flags) = 48) as E0 by done.
  destruct (rsv_space rsvs (new_builder size flags)) as (Hr1 & Hu1 & Ho1); [done|rewrite E0; cbn; lia|].
  pose proof (build_rsv rsvs (new_builder size flags) eq_refl Hr1) as Eb.
  rewrite E0 in Hu1. set (st1 := (build (new_builder size flags) (rsv_ops rsvs)).2) in *.
  assert (b_size st1 = size) as Es by (unfold st1; by rewrite build_size).
  destruct (items_space (tree_ops place t) st1 Hi Ho1) as [Hr2 Hu2]; [lia|].
  assert (Forall2 (spells (stored_at (b_strings st1))) (b_items st1) []) as Hh0 by (rewrite Eb; constructor).
  destruct (build_holds (tree_ops place t) st1 [] Hh0 Hi Hr2 Ho1) as (_ & Ho & _).
  split_and!; [by apply Forall_app|done|]. unfold has_room. apply Z.leb_le. rewrite build_size. unfold b_used in *. lia.
Qed.

(* ------------------------------------------------------------------ *)
(** * Properties *)

(** [fdt_finish] completes the tree under construction: it returns
    [-FDT_ERR_BADSTATE] before [fdt_finish_reservemap] and [-FDT_ERR_NOSPACE] when no
    four bytes are left, both without a write; otherwise it returns 0, writes nothing
    outside the buffer, and leaves a complete tree: header, reservation map, the items
    with the offsets of their names counted from the start of the strings, an end tag,
    and the strings right behind it. *)
Theorem fdt_finish_spec m fdt st :
  rep m fdt st →
  if b_open st then
    if has_room st 4 then
      ∃ m', fdt_finish fdt m = Ok (0, m') ∧ same_outside fdt (b_size st) m m' ∧
        finished m' fdt (b_size st) (b_rsv st) (fix_item (b_strlen st) <$> b_items st) (b_strings st)
    else fdt_finish fdt m = Ok (- FDT_ERR_NOSPACE, m)
  else fdt_finish fdt m = Ok (- FDT_ERR_BADSTATE, m).
Proof. apply finish_result. Qed.

(** C20: The round trip, for property names of at most 47 characters (a longer one can be written
    below the buffer if it exceeds the space left, fdt_sw.c:259), other names and values
    shorter than 2^30, and arguments that lie outside the buffer.  Create a tree in a buffer
    of at least 48 bytes, enter a reservation map and the calls of a tree of nodes and
    properties, and finish: no call writes outside the buffer; if the buffer has [ops_space]
    bytes for the calls besides the header and the end tag, every call returns 0; and if
    every call returns 0, [fdt_check_full] accepts the result, [fdt_get_mem_rsv] reads the
    map back, and [fdt_get_name] and [fdt_getprop_by_offset] read back the tree that was
    built. *)
Theorem fdt_sw_roundtrip m fdt size flags place rsvs props subs :
  let t := DTree [] props subs in
  let ops := build_ops place rsvs t in
  buffer m fdt size → 48 <= size < INT_MAX → flags = 0 ∨ flags = 1 → Forall (op_input m fdt size) ops →
  ∃ rs m', sw_session fdt size flags ops m = Ok (rs, m') ∧ same_outside fdt size m m' ∧
    (48 + ops_space ops + 4 <= size → Forall (.= 0) rs) ∧
    (Forall (.= 0) rs →
       readable_tree m' fdt ∧ fdt_check_full m' fdt size = Ok 0 ∧
       (∀ i r, (rsvs ++ [(0, 0)]) !! i = Some r → fdt_get_mem_rsv m' fdt (Z.of_nat i) = Ok (0, Some r)) ∧
       ∃ d, block_at m' fdt 0 (Some d) ∧ read_tree m' fdt d = t).
Proof.
  intros t ops Hb Hsz Hfl Hops.
  destruct (session_ok m fdt size flags ops Hb ltac:(lia) Hfl Hops) as (r' & m' & He & Hs & Hr & Hfin & Hl).
  assert (Forall item_op (tree_ops place t)) as Hi.
  { apply Forall_app in Hops as [_ Hops]. by eapply tree_items_ok. }
  exists (0 :: (build (new_builder size flags) ops).1 ++ [r']), m'. split_and!; [done|done| |].
  - intros Hsp. destruct (enough_space place size flags rsvs t Hi Hsp) as (H0 & Ho & Hroom).
    constructor; [done|]. apply Forall_app. split; [done|]. constructor; [|done]. by apply Hr.
  - intros [_ [H0 [Hr' _]%Forall_cons]%Forall_app]%Forall_cons.
    destruct (built_tree place size flags rsvs t Hi H0) as (_ & Ersv & Hh). fold ops in Ersv, Hh.
    specialize (Hfin Hr'). rewrite Ersv in Hfin.
    pose proof (im_fits _ _ _ _ _ _ _ _ _ Hfin) as Hfit.
    eapply (image_reads m' fdt size _ 48 0 rsvs _ _ place); [exact Hfin|lia| |].
    + apply Forall_app in Hops as [Hrsv _]. apply Forall_app in Hrsv as [Hrsv _].
      apply (Forall_fmap (λ r, AddReservemapEntry r.1 r.2)) in Hrsv.
      eapply Forall_impl; [exact Hrsv|]. done.
    + unfold b_strlen. apply Forall2_fmap_l. eapply Forall2_impl; [exact Hh|].
      intros it op Hsp. by apply spells_fixed.
Qed.

(* ------------------------------------------------------------------ *)
(** * A tree *)

Definition sw_tree : dtree :=
  DTree [] [(chars "compatible", cstr "ns16550a")]
    [DTree (chars "memory") [(chars "device_type", cstr "memory"); (chars "reg", chars "phandle")] [];
     DTree (chars "aliases") [(chars "reg", [])] []].
Definition sw_rsvs : list (Z * Z) := [(0x80000000, 0x1000)].

Lemma sw_tree_input : Forall (op_input sw_memory tree_addr 512) (build_ops sw_place sw_rsvs sw_tree).
Proof.
  assert (∃ l, build_ops sw_place sw_rsvs sw_tree = l) as [l El] by (by eexists).
  rewrite El. vm_compute in El. subst l. sample_input.
Qed.

Lemma fdt_sw_roundtrip_witness :
  ∃ rs m', sw_session tree_addr 512 0 (build_ops sw_place sw_rsvs sw_tree) sw_memory = Ok (rs, m') ∧
    Forall (.= 0) rs ∧ fdt_check_full m' tree_addr 512 = Ok 0 ∧
    ∃ d, block_at m' tree_addr 0 (Some d) ∧ read_tree m' tree_addr d = sw_tree.
Proof.
  destruct (fdt_sw_roundtrip sw_memory tree_addr 512 0 sw_place sw_rsvs
    [(chars "compatible", cstr "ns16550a")]
    [DTree (chars "memory") [(chars "device_type", cstr "memory"); (chars "reg", chars "phandle")] [];
     DTree (chars "aliases") [(chars "reg", [])] []]) as (rs & m' & He & _ & Hsp & Hr);
    [apply sw_buffer; lia|unfold INT_MAX; lia|by left|exact sw_tree_input|].
  assert (Forall (.= 0) rs) as H0 by (apply Hsp; vm_compute; discriminate).
  destruct (Hr H0) as (_ & Hc & _ & Hd). exists rs, m'. split; [exact He|]. split; [exact H0|]. by split.
Defined.

Lemma sw_root_input : Forall (op_input sw_memory tree_addr 128) [FinishReservemap; begin_op []; EndNode].
Proof. sample_input. Qed.

Lemma fdt_finish_spec_witness :
  ∃ m m', run_ops tree_addr [FinishReservemap; begin_op []; EndNode] m = Ok ([0; 0; 0], m') ∧
    ∃ m'', fdt_finish tree_addr m' = Ok (0, m'').
Proof.
  destruct (create_ok sw_memory tree_addr 128 0) as (m1 & He & Hrep & Hs);
    [apply sw_buffer; lia|unfold INT_MAX; lia|by left|].
  destruct (run_ops_ok tree_addr [FinishReservemap; begin_op []; EndNode] m1 (new_builder 128 0) Hrep)
    as (m' & He' & Hrep' & _).
  - apply (Forall_impl _ _ _ sw_root_input). intros op Hop. by apply (op_input_outside sw_memory).
  - exists m1, m'. split; [refine (eq_trans He' _); vm_compute; reflexivity|].
    destruct (fdt_finish_spec m' tree_addr _ Hrep') as (m'' & Hf & _). by exists m''.
Defined.
