(* ===== verification/FdtEdit.v ===== *)
(** What src/libfdt/fdt_rw.c promises, first part: [fdt_splice_] and the functions on it
    that shift the blocks of an [image], and when replacing some of its items or adding
    a string gives an image again. *)
From S2P Require Import Prelude Machine Crt0 SampleTree Fdt FdtRo FdtCheck FdtTree FdtLookup FdtWrite FdtSw FdtRw FdtImage FdtBuild FdtFinish FdtRead.
From stdpp Require Import base list gmap.
From Stdlib Require Import ZArith Lia.
#[local] Open Scope Z_scope.

(** The bytes [p + oldlen, stop) have moved to [p + newlen]; what is in front of their
    new place and what is behind it is unchanged. *)
Record spliced (m m' : mem) (p oldlen newlen stop : Z) : Prop := {
  sp_before x : x < p + newlen → m' !! x = m !! x;
  sp_after x : stop + newlen - oldlen <= x → m' !! x = m !! x;
  sp_tail x : p + oldlen <= x < stop → m' !! (x + newlen - oldlen) = m !! x;
}.

Lemma bytes_at_shift m m' a bs d :
  bytes_at m a bs → (∀ x, a <= x < a + Z.of_nat (length bs) → m' !! (x + d) = m !! x) → bytes_at m' (a + d) bs.
Proof.
  intros Hb Hx i b Hi. pose proof (lookup_lt_Some _ _ _ Hi). rewrite <- (Hb i b Hi), <- Hx by lia.
  f_equal. lia.
Qed.

Lemma items_at_shift m m' a its d :
  items_at m a its → (∀ x, a <= x < a + items_size its → m' !! (x + d) = m !! x) → items_at m' (a + d) its.
Proof.
  revert a. induction its as [|it its IH]; intros a; [done|]. cbn [items_at items_size foldr]. fold (items_size its).
  intros [Hb Hits] Hx. pose proof (items_size_pos its). pose proof (item_size_ge it). split.
  - apply (bytes_at_shift m); [done|]. intros x Hr. apply Hx. lia.
  - replace (a + d + item_size it) with (a + item_size it + d) by lia. apply IH; [done|]. intros x Hr. apply Hx. lia.
Qed.

Section image.
Context (m : mem) (fdt size total r0 cpuid : Z) (rsv : list (Z * Z)) (its : list item) (strings : list Z).
Context (Him : image total r0 cpuid rsv its strings m fdt size) (Hsz : total < INT_MAX).

#[local] Abbreviation nstr := (Z.of_nat (length strings)).
#[local] Abbreviation strct := (image_struct r0 rsv).
#[local] Abbreviation strs := (image_strings r0 rsv its).
#[local] Abbreviation dsize := (image_strings r0 rsv its + Z.of_nat (length strings)).
#[local] Abbreviation words := (image_words total r0 cpuid rsv its strings).
#[local] Abbreviation bounds := (image_bounds m fdt size total r0 cpuid rsv its strings Him Hsz).
#[local] Abbreviation bl := (image_blob m fdt size total r0 cpuid rsv its strings Him Hsz).
#[local] Abbreviation hdrs := (image_header m fdt size total r0 cpuid rsv its strings Him Hsz).

Lemma image_get offset v : 0 <= offset <= 36 → hdr m fdt offset = v → fdt_get_header m fdt offset = Ok v.
Proof using Him Hsz. intros Ho <-. by apply (header_eq m fdt bl). Qed.

Lemma get_strings : fdt_off_dt_strings m fdt = Ok strs.
Proof using Him Hsz. apply image_get; [lia|apply hdrs]. Qed.
Lemma get_size_strings : fdt_size_dt_strings m fdt = Ok nstr.
Proof using Him Hsz. apply image_get; [lia|apply hdrs]. Qed.
Lemma get_struct : fdt_off_dt_struct m fdt = Ok strct.
Proof using Him Hsz. apply image_get; [lia|apply hdrs]. Qed.
Lemma get_size_struct : fdt_size_dt_struct m fdt = Ok (items_size its + 4).
Proof using Him Hsz. apply image_get; [lia|apply hdrs]. Qed.
Lemma get_totalsize : fdt_totalsize m fdt = Ok total.
Proof using Him Hsz. apply image_get; [lia|apply hdrs]. Qed.
Lemma get_rsvmap : fdt_off_mem_rsvmap m fdt = Ok r0.
Proof using Him Hsz. apply image_get; [lia|apply hdrs]. Qed.
Lemma get_version : fdt_version m fdt = Ok 17.
Proof using Him Hsz. apply image_get; [lia|apply hdrs]. Qed.

Lemma image_data_size : fdt_data_size_ fdt m = Ok dsize.
Proof using Him Hsz.
  pose proof bounds. unfold fdt_data_size_. rewrite get_strings, get_size_strings. cbn [mbind res_bind].
  by rewrite u32_small by (unfold is_u32; lia).
Qed.

(** The check that every function of fdt_rw.c starts with. *)
Lemma image_rw_probe : rsv ≠ [] → fdt_rw_probe_ fdt m = Ok (0, m).
Proof using Him Hsz.
  intros Hrsv. pose proof bounds. assert (1 <= Z.of_nat (length rsv)) by (destruct rsv; cbn; [done|lia]).
  unfold fdt_rw_probe_. rewrite (wbind_rd _ _ _ _ (image_probe _ _ _ _ _ _ _ _ _ Him Hsz)).
  destruct (Z.ltb_spec total 0); [lia|]. rewrite (wbind_rd _ _ _ _ get_version).
  change (17 <? 17) with false. cbv iota. rewrite (wbind_rd _ _ _ false).
  - unfold fdt_downgrade_version. rewrite (wbind_ok _ _ m tt m); [done|].
    rewrite (wbind_rd _ _ _ _ get_version). done.
  - rewrite get_size_struct. cbn [mbind res_bind]. unfold fdt_blocks_misordered_.
    rewrite get_rsvmap, get_struct, get_strings, get_totalsize, get_size_strings. cbn [mbind res_bind].
    change (FDT_ALIGN 40 8) with 40. rewrite s32_small by (unfold is_s32; lia).
    rewrite !u32_small by (unfold is_u32; lia). f_equal. rewrite !orb_false_iff, !Z.ltb_ge. lia.
Qed.

Lemma guard_rw {A} (fail : Z → A) (k : W A) : rsv ≠ [] → FDT_RW_PROBE fdt fail k m = k m.
Proof using Him Hsz. intros Hr. unfold FDT_RW_PROBE. by rewrite (wbind_ok _ _ _ _ _ (image_rw_probe Hr)). Qed.

(* ------------------------------------------------------------------ *)
(** * Splicing *)

Lemma splice_ok p oldlen newlen :
  fdt + 40 <= p → 0 <= oldlen → 0 <= newlen < 2 ^ 31 → p + oldlen <= fdt + dsize →
  if dsize - oldlen + newlen <=? total then
    ∃ m', fdt_splice_ fdt p oldlen newlen m = Ok (0, m') ∧ buffer m' fdt size ∧
      spliced m m' p oldlen newlen (fdt + dsize)
  else fdt_splice_ fdt p oldlen newlen m = Ok (- FDT_ERR_NOSPACE, m).
Proof using Him Hsz.
  intros Hp Ho Hn Hend. pose proof bounds as Hbd. pose proof (im_buffer _ _ _ _ _ _ _ _ _ Him) as Hb.
  unfold fdt_splice_. rewrite (wbind_rd _ _ _ _ image_data_size).
  rewrite (u32_small (p - fdt)) by (unfold is_u32; lia). rewrite (u32_small (p - fdt + oldlen)) by (unfold is_u32; lia).
  destruct (Z.ltb_spec oldlen 0); [lia|]. destruct (Z.ltb_spec (p - fdt + oldlen) (p - fdt)); [lia|].
  destruct (Z.ltb_spec dsize (p - fdt + oldlen)); [lia|]. cbn [orb]. destruct (Z.ltb_spec p fdt); [lia|].
  rewrite (u32_small (dsize + newlen)), (u32_small oldlen) by (unfold is_u32; lia).
  destruct (Z.ltb_spec (dsize + newlen) oldlen); [lia|]. cbn [orb].
  rewrite (wbind_rd _ _ _ _ get_totalsize), (u32_small (dsize - oldlen + newlen)) by (unfold is_u32; lia).
  destruct (Z.ltb_spec total (dsize - oldlen + newlen)), (Z.leb_spec (dsize - oldlen + newlen) total); [lia|done| |lia].
  set (n := fdt + dsize - (p + oldlen)).
  destruct (mapped_bytes m (p + oldlen) (Z.to_nat n)) as (tail & Ht & Hl).
  { rewrite Z2Nat.id by (unfold n; lia). eapply buffer_mapped; [exact Hb|lia|unfold n; lia]. }
  assert (Z.of_nat (length tail) = n) as Hln by (rewrite Hl, Z2Nat.id; unfold n; lia).
  assert (Forall is_u8 tail) as Hu by (eapply bytes_at_u8; [apply Hb|done]).
  exists (map_bytes (p + newlen) tail m). split_and!.
  - rewrite (u32_small n), (u32_small (p + newlen)), (u32_small (p + oldlen)) by (unfold is_u32, n; lia).
    rewrite <- Hln.
    erewrite wbind_ok by (apply memmove_map; [done|eapply buffer_mapped; [exact Hb|lia|unfold n in *; lia]|done|unfold n in *; lia..]).
    done.
  - apply buffer_write; [done|done|lia|unfold n in *; lia].
  - split; intros x Hx.
    + apply map_bytes_other. lia.
    + apply map_bytes_other. unfold n in *. lia.
    + rewrite map_bytes_lookup, decide_True by (unfold n in *; lia).
      destruct (lookup_lt_is_Some_2 tail (Z.to_nat (x - (p + oldlen)))) as [c Hc]; [unfold n in *; lia|].
      replace (x + newlen - oldlen - (p + newlen)) with (x - (p + oldlen)) by lia.
      rewrite Hc, <- (Ht _ _ Hc). f_equal. lia.
Qed.

(** Two more words of the header. *)
Lemma set_two m1 i v j w :
  buffer m1 fdt size → (i < 10)%nat → (j < 10)%nat → 40 <= size →
  let m2 := map_bytes (fdt + 4 * Z.of_nat j) (be32 w) (map_bytes (fdt + 4 * Z.of_nat i) (be32 v) m1) in
  buffer m2 fdt size ∧ ∀ x, x < fdt ∨ fdt + 40 <= x → m2 !! x = m1 !! x.
Proof using Type.
  intros Hb Hi Hj Hs m2. destruct (buffer_header m1 fdt size i v Hb Hi Hs) as [Hb1 Hs1].
  destruct (buffer_header _ fdt size j w Hb1 Hj Hs) as [Hb2 Hs2]. split; [done|].
  intros x Hx. unfold m2. rewrite Hs2, Hs1 by lia. done.
Qed.

(** Splicing the structure block: the offset of the strings and the size follow. *)
Lemma splice_struct_ok o oldlen newlen :
  0 <= o → 0 <= oldlen → 0 <= newlen < 2 ^ 31 → o + oldlen <= items_size its + 4 →
  let p := fdt + strct + o in
  if dsize - oldlen + newlen <=? total then
    ∃ m', fdt_splice_struct_ fdt p oldlen newlen m = Ok (0, m') ∧ buffer m' fdt size ∧
      same_outside fdt size m m' ∧
      words_at m' fdt (<[3%nat := strs - oldlen + newlen]> (<[9%nat := items_size its + 4 - oldlen + newlen]> words)) ∧
      (∀ x, fdt + 40 <= x < p + newlen → m' !! x = m !! x) ∧
      (∀ x, p + oldlen <= x < fdt + dsize → m' !! (x + (newlen - oldlen)) = m !! x)
  else fdt_splice_struct_ fdt p oldlen newlen m = Ok (- FDT_ERR_NOSPACE, m).
Proof using Him Hsz.
  intros Ho Hol Hn Hend p. pose proof bounds as Hbd.
  pose proof (splice_ok p oldlen newlen ltac:(unfold p; lia) Hol Hn ltac:(unfold p; lia)) as Hsp.
  unfold fdt_splice_struct_. destruct (Z.leb_spec (dsize - oldlen + newlen) total) as [Hle|]; [|by rewrite (wbind_ok _ _ _ _ _ Hsp)].
  destruct Hsp as (m1 & He & Hb1 & [Hbef Haft Htl]). rewrite (wbind_ok _ _ _ _ _ He). cbn [Z.eqb negb].
  assert (words_at m1 fdt words) as Hw1.
  { apply (words_at_ext m); [|apply Him]. intros x Hx. apply Hbef. cbn in Hx. unfold p. lia. }
  assert (∀ i w, words !! i = Some w → is_u32 w → fdt_get_header m1 fdt (4 * Z.of_nat i) = Ok w) as Hget.
  { intros i w Hi Hu. pose proof (lookup_lt_Some _ _ _ Hi) as Hlt. cbn in Hlt.
    by apply (header_at _ fdt _ i w Hw1); [| |lia|lia]. }
  rewrite (s32_small (newlen - oldlen)) by (unfold is_s32; lia).
  assert (fdt_size_dt_struct m1 fdt = Ok (items_size its + 4)) as E9 by (apply (Hget 9%nat); [done|unfold is_u32; lia]).
  rewrite (wbind_rd _ _ _ _ E9), (u32_small (items_size its + 4 + _)) by (unfold is_u32; lia).
  erewrite wbind_ok by (apply (set_header_map m1 fdt size 9); [done|lia|lia]).
  set (m2 := map_bytes (fdt + 4 * Z.of_nat 9) _ m1).
  assert (fdt_off_dt_strings m2 fdt = Ok strs) as E3.
  { apply (header_at _ fdt (<[9%nat := items_size its + 4 + (newlen - oldlen)]> words) 3);
      [by apply words_at_set|done|unfold is_u32; lia|lia|lia]. }
  rewrite (wbind_rd _ _ _ _ E3), (u32_small (strs + _)) by (unfold is_u32; lia).
  destruct (buffer_header m1 fdt size 9 (items_size its + 4 + (newlen - oldlen)) Hb1) as [Hb2 _]; [lia|lia|].
  erewrite wbind_ok by (apply (set_header_map m2 fdt size 3); [done|lia|lia]).
  destruct (set_two m1 9 (items_size its + 4 + (newlen - oldlen)) 3 (strs + (newlen - oldlen)) Hb1) as [Hb3 Hs3];
    [lia|lia|lia|]. fold m2 in Hb3, Hs3.
  eexists. split; [done|]. split_and!.
  - exact Hb3.
  - intros x Hx. rewrite Hs3 by lia. destruct (decide (x < fdt)); [apply Hbef; unfold p; lia|apply Haft; lia].
  - replace (strs - oldlen + newlen) with (strs + (newlen - oldlen)) by lia.
    replace (items_size its + 4 - oldlen + newlen) with (items_size its + 4 + (newlen - oldlen)) by lia.
    by apply words_at_set, words_at_set.
  - intros x Hx. rewrite Hs3 by lia. apply Hbef. lia.
  - intros x Hx. rewrite Hs3 by (unfold p in *; lia). replace (x + (newlen - oldlen)) with (x + newlen - oldlen) by lia.
    by apply Htl.
Qed.

(** Replacing items. *)
Lemma image_edit m' xs olds news ys :
  its = xs ++ olds ++ ys →
  let d := items_size news - items_size olds in
  buffer m' fdt size → dsize + d <= total → Forall item_ok news →
  words_at m' fdt (image_words total r0 cpuid rsv (xs ++ news ++ ys) strings) →
  (∀ x, fdt + 40 <= x < fdt + strct + items_size xs → m' !! x = m !! x) →
  (∀ x, fdt + strct + items_size (xs ++ olds) <= x < fdt + dsize → m' !! (x + d) = m !! x) →
  items_at m' (fdt + strct + items_size xs) news →
  image total r0 cpuid rsv (xs ++ news ++ ys) strings m' fdt size.
Proof using Him Hsz.
  intros Ei d Hb Hfit Hok Hw Hbef Htl Hnew. pose proof bounds as Hbd.
  destruct Him as [_ Hf Hs Hmap Hcpu Hits Hhd Hrsv Hat Hend Hstr].
  rewrite Ei in *. rewrite !items_size_app in *. pose proof (items_size_pos xs). pose proof (items_size_pos ys).
  pose proof (items_size_pos olds). pose proof (items_size_pos news).
  rewrite !items_at_app in Hat. destruct Hat as (Hx & Ho & Hy).
  rewrite !Forall_app in Hits. destruct Hits as (Hokx & _ & Hoky).
  assert (image_strings r0 rsv (xs ++ news ++ ys) = image_strings r0 rsv (xs ++ olds ++ ys) + d) as Es.
  { unfold image_strings. rewrite !items_size_app. unfold d. lia. }
  split; try done.
  - rewrite Es. lia.
  - rewrite !Forall_app. done.
  - apply (words_at_ext m); [|done]. intros x Hr. rewrite length_rsv_words in Hr. apply Hbef. lia.
  - rewrite !items_at_app. split_and!.
    + apply (items_at_ext m); [|done]. intros x Hr. apply Hbef. lia.
    + done.
    + replace (fdt + strct + items_size xs + items_size news) with
        (fdt + strct + items_size xs + items_size olds + d) by (unfold d; lia).
      apply (items_at_shift m); [done|]. intros x Hr. apply Htl. lia.
  - rewrite !items_size_app.
    replace (fdt + strct + (items_size xs + (items_size news + items_size ys))) with
      (fdt + strct + (items_size xs + (items_size olds + items_size ys)) + d) by (unfold d; lia).
    apply (bytes_at_shift m); [done|]. intros x Hr. rewrite length_be32 in Hr. apply Htl. lia.
  - rewrite Es. replace (fdt + (_ + d)) with (fdt + image_strings r0 rsv (xs ++ olds ++ ys) + d) by lia.
    apply (bytes_at_shift m); [done|]. intros x Hr. apply Htl. lia.
Qed.
(* ------------------------------------------------------------------ *)
(** * Strings *)

Lemma image_add_string m' s :
  buffer m' fdt size → dsize + Z.of_nat (length s) <= total →
  words_at m' fdt (<[8%nat := nstr + Z.of_nat (length s)]> words) →
  (∀ x, fdt + 40 <= x < fdt + dsize → m' !! x = m !! x) → bytes_at m' (fdt + dsize) s →
  image total r0 cpuid rsv its (strings ++ s) m' fdt size.
Proof using Him Hsz.
  intros Hb Hfit Hw Hsame Hs. pose proof bounds as Hbd.
  destruct Him as [_ Hf Hsize Hmap Hcpu Hits Hhd Hrsv Hat Hend Hstr].
  split; try done.
  - rewrite length_app. lia.
  - assert (image_words total r0 cpuid rsv its (strings ++ s) = <[8%nat := nstr + Z.of_nat (length s)]> words) as ->; [|done].
    unfold image_words. by rewrite length_app, Nat2Z.inj_add.
  - apply (words_at_ext m); [|done]. intros x Hr. rewrite length_rsv_words in Hr. apply Hsame. lia.
  - apply (items_at_ext m); [|done]. intros x Hr. apply Hsame. lia.
  - apply (bytes_at_ext m); [|done]. intros x Hr. rewrite length_be32 in Hr. apply Hsame. lia.
  - apply bytes_at_app. split; [|by rewrite <- Z.add_assoc].
    apply (bytes_at_ext m); [|done]. intros x Hr. apply Hsame. lia.
Qed.

(** A string that [fdt_rw.c] is given: outside the buffer, and shorter than the
    addresses below the tree. *)
Definition name_input (s : Z) (name : list Z) : Prop :=
  bytes_at m s name ∧ Forall (λ c, c ≠ 0) name ∧ 0 < s ∧ s + Z.of_nat (length name) + 4 < 2 ^ 32 ∧
  apart s (Z.of_nat (length name) + 1) fdt size ∧ Z.of_nat (length name) < fdt ∧ Z.of_nat (length name) < 2 ^ 30.

Lemma splice_string_ok n :
  0 <= n < 2 ^ 31 →
  fdt_splice_string_ fdt n m =
  Ok (if dsize + n <=? total then (0, map_bytes (fdt + 4 * Z.of_nat 8) (be32 (nstr + n)) m)
      else (- FDT_ERR_NOSPACE, m)).
Proof using Him Hsz.
  intros Hn. pose proof bounds as Hbd. unfold fdt_splice_string_.
  rewrite (wbind_rd _ _ _ (fdt + dsize)).
  2: { rewrite get_strings, get_size_strings. cbn [mbind res_bind]. rewrite u32_small by (unfold is_u32; lia). f_equal. lia. }
  pose proof (splice_ok (fdt + dsize) 0 n ltac:(lia) ltac:(lia) Hn ltac:(lia)) as Hsp. rewrite Z.sub_0_r in Hsp.
  destruct (dsize + n <=? total) eqn:E; [|by rewrite (wbind_ok _ _ _ _ _ Hsp)].
  apply Z.leb_le in E. destruct Hsp as (m1 & He & Hb1 & [Hbef Haft _]).
  assert (m1 = m) as ->.
  { apply map_eq. intros x. destruct (Z.lt_ge_cases x (fdt + dsize + n)); [by apply Hbef|]. apply Haft. lia. }
  rewrite (wbind_ok _ _ _ _ _ He). cbn [Z.eqb negb]. rewrite (wbind_rd _ _ _ _ get_size_strings).
  rewrite u32_small by (unfold is_u32; lia).
  by erewrite wbind_ok by (apply (set_header_map m fdt size 8); [done|lia|lia]).
Qed.

Lemma find_add_image s name :
  name_input s name →
  match find_str strings (name ++ [0]) with
  | Some i => FdtRw.fdt_find_add_string_ fdt s (Z.of_nat (length name)) m = Ok ((Z.of_nat i, false), m)
  | None =>
      if dsize + (Z.of_nat (length name) + 1) <=? total then
        ∃ m', FdtRw.fdt_find_add_string_ fdt s (Z.of_nat (length name)) m = Ok ((nstr, true), m') ∧
          image total r0 cpuid rsv its (strings ++ name ++ [0]) m' fdt size ∧ same_outside fdt size m m'
      else FdtRw.fdt_find_add_string_ fdt s (Z.of_nat (length name)) m = Ok ((- FDT_ERR_NOSPACE, false), m)
  end.
Proof using Him Hsz.
  intros (Hs & Hnz & Hs0 & Hst & Hap & Hlf & Hl). pose proof bounds as Hbd.
  pose proof (im_buffer _ _ _ _ _ _ _ _ _ Him) as Hb. pose proof (im_strings _ _ _ _ _ _ _ _ _ Him) as Hstr.
  remember (Z.of_nat (length name)) as n eqn:En.
  assert (∀ tab, bytes_at m (fdt + strs) tab → fdt + strs + Z.of_nat (length tab) < 2 ^ 32 →
    fdt_find_string_len_ m (fdt + strs) (Z.of_nat (length tab)) s n =
    Ok (match find_str tab (name ++ [0]) with Some i => fdt + strs + Z.of_nat i | None => 0 end)) as Hfind.
  { intros tab ??. rewrite En. apply (find_string_len_ok m s name Hs Hs0); (done || lia). }
  assert (∀ r, (if negb (match find_str strings (name ++ [0]) with Some i => fdt + strs + Z.of_nat i | None => 0 end =? 0)
     then mret (s32 (match find_str strings (name ++ [0]) with Some i => fdt + strs + Z.of_nat i | None => 0 end - (fdt + strs)), false)
     else
       err ← fdt_splice_string_ fdt (n + 1);
       if negb (err =? 0) then mret (err, false)
       else memcpy (fdt + dsize) s n;; wr (fun m => store8 m (u32 (fdt + dsize + n)) 0);; mret (nstr, true)) m = r →
    FdtRw.fdt_find_add_string_ fdt s n m = r) as Hgo.
  { intros r <-. unfold FdtRw.fdt_find_add_string_.
    rewrite (wbind_rd _ _ _ (fdt + strs)).
    2: { rewrite get_strings. cbn [mbind res_bind]. by rewrite u32_small by (unfold is_u32; lia). }
    rewrite (wbind_rd _ _ _ _ get_size_strings), (s32_small nstr) by (unfold is_s32; lia).
    rewrite (wbind_rd _ _ _ _ (Hfind strings Hstr ltac:(lia))).
    destruct (negb _); [done|]. rewrite (wbind_rd _ _ _ _ get_size_strings).
    rewrite (s32_small (n + 1)), (u32_small (fdt + strs + nstr)), (u32_small n) by (unfold is_s32, is_u32; lia).
    rewrite (s32_small (fdt + strs + nstr - _)) by (unfold is_s32; lia).
    replace (fdt + strs + nstr - (fdt + strs)) with nstr by lia. by replace (fdt + strs + nstr) with (fdt + dsize) by lia. }
  destruct (find_str strings (name ++ [0])) as [i|] eqn:Ef.
  { pose proof (find_str_lt _ _ _ Ef) as Hi. apply Hgo. destruct (Z.eqb_spec (fdt + strs + Z.of_nat i) 0); [lia|].
    cbn [negb]. replace (fdt + strs + Z.of_nat i - (fdt + strs)) with (Z.of_nat i) by lia.
    by rewrite s32_small by (unfold is_s32; lia). }
  pose proof (splice_string_ok (n + 1) ltac:(lia)) as Hsp. unfold apart in Hap.
  destruct (Z.leb_spec (dsize + (n + 1)) total) as [Hle|].
  2: { apply Hgo. cbn [Z.eqb negb]. by rewrite (wbind_ok _ _ _ _ _ Hsp). }
  destruct (buffer_header m fdt size 8 (nstr + (n + 1)) Hb) as [Hb1 Hs1]; [lia|lia|].
  set (m1 := map_bytes (fdt + 4 * Z.of_nat 8) (be32 (nstr + (n + 1))) m) in *.
  assert (bytes_at m1 s name) as Hs'.
  { apply (bytes_at_ext m); [|done]. intros x Hx. apply Hs1. lia. }
  assert (Forall is_u8 name) as Hu by (eapply bytes_at_u8; [apply Hb|done]).
  destruct (buffer_write m1 fdt size (fdt + dsize) name Hb1 Hu) as [Hb2 Hs2]; [lia|lia|].
  set (m2 := map_bytes (fdt + dsize) name m1) in *.
  destruct (buffer_write m2 fdt size (fdt + dsize + n) [0] Hb2) as [Hb3 Hs3]; [by repeat constructor|lia|cbn; lia|].
  set (m3 := map_bytes (fdt + dsize + n) [0] m2) in *.
  exists m3. split_and!.
  - apply Hgo. cbn [Z.eqb negb]. rewrite (wbind_ok _ _ _ _ _ Hsp). cbn [Z.eqb negb]. fold m1.
    rewrite En. erewrite wbind_ok by (apply memcpy_map; [done|eapply buffer_mapped; [exact Hb1|lia|lia]|done|lia..]).
    rewrite <- En. fold m2.
    rewrite (wbind_ok _ _ _ tt m3); [done|]. unfold wr.
    rewrite (u32_small (fdt + dsize + n)) by (unfold is_u32; lia).
    rewrite store8_ok by (eapply (buffer_mapped m2 fdt size (fdt + dsize + n) 1); [done|lia|lia|lia]). done.
  - apply image_add_string; rewrite ?length_app; cbn [length]; rewrite ?Nat2Z.inj_add, <- ?En; [done|lia|..].
    + change (Z.of_nat 1) with 1. do 2 (apply words_at_other; [|cbn; lia]). apply words_at_set, Him.
    + intros x Hx. unfold m3, m2. rewrite !map_bytes_other by (cbn; lia). apply Hs1. lia.
    + apply bytes_at_app. rewrite <- En. split; [|apply (map_bytes_at _ [0])].
      apply bytes_at_other; [apply map_bytes_at|]. lia.
  - intros x Hx. rewrite Hs3, Hs2 by done. apply Hs1. lia.
Qed.
(** The last string of the table is taken back. *)
Lemma del_last_image old s name :
  strings = old ++ name ++ [0] → c_name m s name → Z.of_nat (length name) < 2 ^ 30 →
  ∃ m', fdt_del_last_string_ fdt s m = Ok (tt, m') ∧ image total r0 cpuid rsv its old m' fdt size ∧
    same_outside fdt size m m'.
Proof using Him Hsz.
  intros Es (Hs & Hs0 & Hst & _) Hl. pose proof bounds as Hbd. pose proof (im_buffer _ _ _ _ _ _ _ _ _ Him) as Hb.
  assert (nstr = Z.of_nat (length old) + Z.of_nat (length name) + 1) as En
    by (rewrite Es, !length_app; cbn [length]; lia).
  unfold fdt_del_last_string_. rewrite (wbind_rd _ _ _ (Z.of_nat (length name) + 1)).
  2: { rewrite (strlen_ok m s name Hs) by (apply Hb || lia). cbn [mbind res_bind].
       by rewrite s32_small by (unfold is_s32; lia). }
  rewrite (wbind_rd _ _ _ _ get_size_strings), u32_small by (unfold is_u32; lia).
  replace (nstr - _) with (Z.of_nat (length old)) by lia.
  destruct (buffer_header m fdt size 8 (Z.of_nat (length old)) Hb) as [Hb1 Hs1]; [lia|lia|].
  eexists. split; [apply (set_header_map m fdt size 8); [done|lia|lia]|]. split.
  2: { intros x Hx. apply Hs1. lia. }
  assert (∀ a bs, bytes_at m a bs → fdt + 40 <= a → bytes_at (map_bytes (fdt + 4 * Z.of_nat 8) (be32 (Z.of_nat (length old))) m) a bs) as Hkeep.
  { intros a bs Ha Hge. apply bytes_at_other; [done|]. rewrite length_be32. lia. }
  destruct Him as [_ Hf Hsize Hmap Hcpu Hits Hhd Hrsv Hat Hend Hstr]. split; try done; try lia.
  - by apply (words_at_set _ _ _ 8 (Z.of_nat (length old))) in Hhd.
  - apply words_at_other; [done|]. rewrite length_be32. lia.
  - apply (items_at_ext m); [|done]. intros x Hx. apply map_bytes_other. rewrite length_be32. lia.
  - apply Hkeep; [done|lia].
  - apply Hkeep; [|lia]. rewrite Es in Hstr. by apply bytes_at_app in Hstr as [Hstr _].
Qed.

(* ------------------------------------------------------------------ *)
(** * Replacing items *)

(** [fdt_splice_struct_] inside the items [olds]: whatever is written afterwards over
    their new place, if the items [news] lie there, the whole is an image again. *)
Lemma image_splice xs olds ys k oldlen newlen :
  its = xs ++ olds ++ ys → 0 <= k → 0 <= oldlen → 0 <= newlen < 2 ^ 31 → k + oldlen <= items_size olds →
  let p0 := fdt + strct + items_size xs in
  let nsize := items_size olds - oldlen + newlen in
  if dsize - oldlen + newlen <=? total then
    ∃ m1, fdt_splice_struct_ fdt (p0 + k) oldlen newlen m = Ok (0, m1) ∧ buffer m1 fdt size ∧
      same_outside fdt size m m1 ∧
      (∀ x, fdt + 40 <= x < p0 + k + newlen → m1 !! x = m !! x) ∧
      (∀ x, p0 + k + oldlen <= x < fdt + dsize → m1 !! (x + (newlen - oldlen)) = m !! x) ∧
      p0 + nsize <= fdt + total ∧
      ∀ m2 news, buffer m2 fdt size → (∀ x, x < p0 ∨ p0 + nsize <= x → m2 !! x = m1 !! x) →
        items_at m2 p0 news → Forall item_ok news → items_size news = nsize →
        image total r0 cpuid rsv (xs ++ news ++ ys) strings m2 fdt size
  else fdt_splice_struct_ fdt (p0 + k) oldlen newlen m = Ok (- FDT_ERR_NOSPACE, m).
Proof using Him Hsz.
  intros Ei Hk Hol Hn Hend p0 nsize. pose proof bounds as Hbd.
  pose proof (items_size_pos xs). pose proof (items_size_pos ys).
  assert (items_size its = items_size xs + items_size olds + items_size ys) as Es
    by (rewrite Ei, !items_size_app; lia).
  pose proof (splice_struct_ok (items_size xs + k) oldlen newlen ltac:(lia) Hol Hn ltac:(lia)) as Hsp.
  rewrite Z.add_assoc in Hsp. fold p0 in Hsp. destruct (Z.leb_spec (dsize - oldlen + newlen) total) as [Hle|]; [|done].
  destruct Hsp as (m1 & He & Hb & Hs & Hw & Hbef & Htl). exists m1.
  assert (p0 + nsize <= fdt + total) as Htop by (unfold p0, nsize; lia).
  split_and!; try done. intros m2 news Hb2 Ho Hnew Hok Hd. unfold nsize in *.
  apply (image_edit m2 xs olds news ys Ei Hb2); [lia|done| | | |done].
  - assert (image_words total r0 cpuid rsv (xs ++ news ++ ys) strings =
      <[3%nat := strs - oldlen + newlen]> (<[9%nat := items_size its + 4 - oldlen + newlen]> words)) as ->.
    { unfold image_words. cbn [list_insert list_alter insert]. unfold image_strings. rewrite !items_size_app.
      rewrite Es. repeat (f_equal; try lia). }
    apply (words_at_ext m1); [|done]. intros x Hx. cbn in Hx. apply Ho. left. unfold p0. lia.
  - intros x Hx. rewrite Ho by (left; unfold p0; lia). apply Hbef. unfold p0. lia.
  - intros x Hx. rewrite items_size_app in Hx. rewrite Ho by (right; unfold p0; lia).
    replace (items_size news - items_size olds) with (newlen - oldlen) by lia. apply Htl. unfold p0. lia.
Qed.
End image.

(** A word inside the buffer. *)
Lemma put_word m fdt size a v :
  buffer m fdt size → fdt <= a → a + 4 <= fdt + size → a mod 4 = 0 →
  fdt32_put a v m = Ok (tt, map_bytes a (be32 v) m) ∧ buffer (map_bytes a (be32 v) m) fdt size ∧
  same_outside fdt size m (map_bytes a (be32 v) m).
Proof.
  intros Hb H1 H2 H4. split; [|apply buffer_write; [done|apply be32_u8|done|done]].
  apply fdt32_put_map; [done|]. eapply buffer_mapped; [done|lia..].
Qed.

(** The three words and the value of a property. *)
Lemma prop_at m p nameoff val :
  items_at m p [IProp nameoff val] ↔
  bytes_at m p (be32 FDT_PROP) ∧ bytes_at m (p + 4) (be32 (Z.of_nat (length val))) ∧
  bytes_at m (p + 8) (be32 nameoff) ∧ bytes_at m (p + 12) val.
Proof.
  cbn [items_at item_bytes]. rewrite !bytes_at_app, !length_be32.
  replace (p + Z.of_nat 4 + Z.of_nat 4 + Z.of_nat 4) with (p + 12) by lia.
  replace (p + Z.of_nat 4 + Z.of_nat 4) with (p + 8) by lia. change (Z.of_nat 4) with 4. tauto.
Qed.
