(* ===== verification/FdtNode.v ===== *)
(** A node in its tree, for the edits of src/libfdt/fdt_rw.c: the items in front of it,
    its own and those behind it; and what the lookups that the edits start with find
    there: a property, the end of the properties, the end of the node. *)
From S2P Require Import Prelude Machine Crt0 SampleTree Fdt FdtRo FdtCheck FdtTree FdtLookup FdtWrite FdtSw FdtRw FdtImage FdtBuild FdtFinish FdtRead FdtEdit.
From stdpp Require Import base list gmap.
From Stdlib Require Import ZArith Lia.
#[local] Open Scope Z_scope.

(* ------------------------------------------------------------------ *)
(** * Positions in a tree *)

(** What is around a node: its parent, the parent's parent, and so on. *)
Record frame := Frame {
  f_name : list Z;
  f_props : list (list Z * list Z);
  f_left : list dtree;
  f_right : list dtree;
}.

Definition root_name (t : dtree) : list Z := let 'DTree name _ _ := t in name.
Definition plug1 (t : dtree) (f : frame) : dtree := DTree (f_name f) (f_props f) (f_left f ++ t :: f_right f).
Definition plug (c : list frame) (t : dtree) : dtree := foldl plug1 t c.

(** The items of a tree, of what is in front of a position and of what is behind it. *)
Definition ops : dtree → list sw_op := tree_ops (λ _, 0).
Definition node_ops (name : list Z) (props : list (list Z * list Z)) : list sw_op :=
  BeginNode 0 name :: map (prop_op (λ _, 0)) props.
Fixpoint ops_before (c : list frame) : list sw_op :=
  match c with
  | [] => []
  | f :: c => ops_before c ++ node_ops (f_name f) (f_props f) ++ flat_map ops (f_left f)
  end.
Fixpoint ops_after (c : list frame) : list sw_op :=
  match c with
  | [] => []
  | f :: c => flat_map ops (f_right f) ++ EndNode :: ops_after c
  end.

Lemma ops_node name props subs : ops (DTree name props subs) = node_ops name props ++ flat_map ops subs ++ [EndNode].
Proof. done. Qed.

Lemma plug_ops c t : ops (plug c t) = ops_before c ++ ops t ++ ops_after c.
Proof.
  unfold plug. revert t. induction c as [|f c IH]; intros t; cbn [foldl ops_before ops_after]; [by rewrite app_nil_r|].
  rewrite IH. unfold plug1. rewrite ops_node, flat_map_app. cbn [flat_map]. by rewrite <- !app_assoc.
Qed.

(** The properties of a node: with a value replaced, without one. *)
Fixpoint replace_prop (props : list (list Z * list Z)) (name val : list Z) : option (list (list Z * list Z)) :=
  match props with
  | [] => None
  | (n, v) :: props =>
      if decide (n = name) then Some ((n, val) :: props)
      else cons (n, v) <$> replace_prop props name val
  end.
Definition set_prop (props : list (list Z * list Z)) (name val : list Z) : list (list Z * list Z) :=
  default ((name, val) :: props) (replace_prop props name val).
Fixpoint drop_prop (props : list (list Z * list Z)) (name : list Z) : option (list (list Z * list Z)) :=
  match props with
  | [] => None
  | (n, v) :: props => if decide (n = name) then Some props else cons (n, v) <$> drop_prop props name
  end.

Lemma prop_cases props (name : list Z) :
  name ∉ props.*1 ∨ ∃ l (v : list Z) r, props = l ++ (name, v) :: r ∧ name ∉ l.*1.
Proof.
  induction props as [|[n v] props IH]; [left; apply not_elem_of_nil|].
  destruct (decide (n = name)) as [-> |Hne]; [right; exists [], v, props; split; [done|apply not_elem_of_nil]|].
  destruct IH as [Hn|(l & w & r & -> & Hn)]; [left|right; exists ((n, v) :: l), w, r; split; [done|]];
    rewrite fmap_cons, not_elem_of_cons; split; (done || by intros <-).
Qed.

Lemma replace_none props name val : name ∉ props.*1 → replace_prop props name val = None.
Proof.
  induction props as [|[n v] props IH]; [done|]. rewrite fmap_cons, not_elem_of_cons. intros [Hne Hn].
  cbn in *. rewrite decide_False by congruence. by rewrite IH.
Qed.

Lemma replace_some l v r name val :
  name ∉ l.*1 → replace_prop (l ++ (name, v) :: r) name val = Some (l ++ (name, val) :: r).
Proof.
  induction l as [|[n w] l IH]; [cbn; by rewrite decide_True|]. rewrite fmap_cons, not_elem_of_cons. intros [Hne Hn].
  cbn in *. rewrite decide_False by congruence. by rewrite IH.
Qed.

Lemma drop_none props name : name ∉ props.*1 → drop_prop props name = None.
Proof.
  induction props as [|[n v] props IH]; [done|]. rewrite fmap_cons, not_elem_of_cons. intros [Hne Hn].
  cbn in *. rewrite decide_False by congruence. by rewrite IH.
Qed.

Lemma drop_some l v r name : name ∉ l.*1 → drop_prop (l ++ (name, v) :: r) name = Some (l ++ r).
Proof.
  induction l as [|[n w] l IH]; [cbn; by rewrite decide_True|]. rewrite fmap_cons, not_elem_of_cons. intros [Hne Hn].
  cbn in *. rewrite decide_False by congruence. by rewrite IH.
Qed.

(** The items of a node and of its properties. *)
Lemma node_items named zs nm props subs :
  Forall2 (spells named) zs (ops (DTree nm props subs)) ↔
  ∃ ps ss, zs = IBegin nm :: ps ++ ss ++ [IEnd] ∧ Forall2 (spells named) ps (map (prop_op (λ _, 0)) props) ∧
    Forall2 (spells named) ss (flat_map ops subs).
Proof.
  rewrite ops_node. unfold node_ops. cbn [app]. split.
  - intros (it & zs' & Hit & Hz & ->)%Forall2_cons_inv_r. destruct it as [n'| |]; cbn in Hit; [subst n'|done..].
    apply Forall2_app_inv_r in Hz as (ps & zs2 & Hp & Hz & ->). apply Forall2_app_inv_r in Hz as (ss & en & Hs & He & ->).
    apply Forall2_cons_inv_r in He as (it & e' & Hit & He & ->). apply Forall2_nil_inv_r in He as ->.
    destruct it as [| |]; [done| |done]. by exists ps, ss.
  - intros (ps & ss & -> & Hp & Hs). constructor; [done|]. apply Forall2_app; [done|]. apply Forall2_app; [done|].
    by repeat constructor.
Qed.

Lemma prop_items named ps l name (v : list Z) r :
  Forall2 (spells named) ps (map (prop_op (λ _, 0)) (l ++ (name, v) :: r)) ↔
  ∃ pl no pr, ps = pl ++ IProp no v :: pr ∧ Forall2 (spells named) pl (map (prop_op (λ _, 0)) l) ∧ named no name ∧
    Forall2 (spells named) pr (map (prop_op (λ _, 0)) r).
Proof.
  rewrite map_app. cbn [map]. split.
  - intros (pl & p2 & Hl & H2 & ->)%Forall2_app_inv_r. apply Forall2_cons_inv_r in H2 as (it & pr & Hit & Hr & ->).
    destruct it as [| |no w]; [done..|]. destruct Hit as [-> Hno]. by exists pl, no, pr.
  - intros (pl & no & pr & -> & Hl & Hno & Hr). apply Forall2_app; [done|]. by constructor.
Qed.

(* ------------------------------------------------------------------ *)
(** * Lookups at a node *)

Section lookups.
Context (m : mem) (fdt size total r0 cpuid : Z) (rsv : list (Z * Z)) (its : list item) (strings : list Z).
Context (Him : image total r0 cpuid rsv its strings m fdt size) (Hsz : total < INT_MAX).

#[local] Abbreviation spelled := (Forall2 (spells (string_at strings))).
#[local] Abbreviation bl := (image_blob m fdt size total r0 cpuid rsv its strings Him Hsz).
#[local] Abbreviation strct := (image_struct r0 rsv).
#[local] Abbreviation pops := (map (prop_op (λ _, 0))).

Lemma position_valid xs ys : its = xs ++ ys → ys ≠ [] → valid_offset (items_size xs).
Proof using Him Hsz.
  intros Ei Hy. destruct ys as [|it ys]; [done|]. pose proof (image_stream _ _ _ _ _ _ _ _ _ Him Hsz) as Hst.
  rewrite Ei in Hst. destruct (stream_item _ _ _ _ _ Hst) as ((H0 & H4 & H1 & _) & _).
  pose proof (item_size_pos it). pose proof (image_bounds _ _ _ _ _ _ _ _ _ Him Hsz) as Hbd.
  destruct (image_header _ _ _ _ _ _ _ _ _ Him Hsz) as (_ & E4 & E8 & _). rewrite E4, E8 in H1.
  unfold valid_offset. split_and!; [lia|done|]. unfold image_struct in *. lia.
Qed.

Lemma check_node xs nm ys :
  its = xs ++ IBegin nm :: ys →
  fdt_check_node_offset_ m fdt (items_size xs) = Ok (items_size (xs ++ [IBegin nm])).
Proof using Him Hsz.
  intros Ei. pose proof (position_valid xs _ Ei ltac:(done)) as (H0 & H4 & _).
  destruct (item_tag_at _ _ _ _ _ _ _ _ _ Him Hsz xs _ _ Ei) as [Ht _].
  unfold fdt_check_node_offset_, FDT_TAGSIZE. destruct (Z.ltb_spec (items_size xs) 0); [lia|].
  rewrite H4. cbn [Z.eqb negb orb]. by rewrite Ht.
Qed.

(** In front of a subnode or of the end of a node there are no more properties. *)
Lemma props_stop xs ss subs ys :
  its = xs ++ ss ++ IEnd :: ys → spelled ss (flat_map ops subs) → props_at m fdt (items_size xs) [].
Proof using Him Hsz.
  intros Ei Hs. apply (subs_spelled _ _ _ _ _ _ _ _ _ Him Hsz (λ _, 0) subs) with ss ys; [|done|done].
  apply Forall_forall. intros t _. by eapply tree_spelled.
Qed.

Lemma props_here xs ps props ss subs ys :
  its = xs ++ ps ++ ss ++ IEnd :: ys → spelled ps (pops props) → spelled ss (flat_map ops subs) →
  ∃ offs, props_at m fdt (items_size xs) offs ∧ map (λ p, (prop_name m fdt p, prop_bytes m fdt p)) offs = props.
Proof using Him Hsz.
  intros Ei Hp Hs. destruct (props_spelled _ _ _ _ _ _ _ _ _ Him Hsz (λ _, 0) props xs ps _ Ei Hp) as (offs & Eo & Hat & _).
  exists offs. split; [|done]. rewrite <- (app_nil_r offs). apply Hat. eapply props_stop; [|done].
  by rewrite <- app_assoc.
Qed.

Lemma find_prop_none offs props name :
  map (λ p, (prop_name m fdt p, prop_bytes m fdt p)) offs = props → name ∉ props.*1 →
  find_prop m fdt offs name = None.
Proof using Type.
  intros <- Hn. unfold find_prop. induction offs as [|o offs IH]; [done|].
  cbn [map] in Hn. rewrite fmap_cons, not_elem_of_cons in Hn. destruct Hn as [Hne Hn]. cbn in Hne.
  rewrite filter_cons, decide_False by congruence. by apply IH.
Qed.

Lemma find_prop_some offs l o r name :
  map (λ p, (prop_name m fdt p, prop_bytes m fdt p)) offs = l → name ∉ l.*1 → prop_name m fdt o = name →
  find_prop m fdt (offs ++ o :: r) name = Some o.
Proof using Type.
  intros Hl Hn Ho. pose proof (find_prop_none offs l name Hl Hn) as Hf. unfold find_prop in *.
  rewrite filter_app, filter_cons, decide_True by done.
  by destruct (filter _ offs).
Qed.

(** [fdt_get_property_namelen]: the property structure and the length, or an error. *)
Lemma get_property_here xs nm ps props ss subs ys s name offs :
  its = xs ++ IBegin nm :: ps ++ ss ++ IEnd :: ys →
  spelled ps (pops props) → spelled ss (flat_map ops subs) →
  props_at m fdt (items_size (xs ++ [IBegin nm])) offs →
  bytes_at m s name → 0 < s → s + Z.of_nat (length name) < 2 ^ 32 →
  fdt_get_property_namelen m fdt (items_size xs) s (Z.of_nat (length name)) =
  Ok (match find_prop m fdt offs name with
      | Some p => (fdt + strct + p, prop_len m fdt p)
      | None => (0, - FDT_ERR_NOTFOUND)
      end).
Proof using Him Hsz.
  intros Ei Hp Hss Hoffs Hs Hs0 Hst. pose proof bl as Hbl.
  pose proof (image_bounds _ _ _ _ _ _ _ _ _ Him Hsz) as Hbd.
  destruct (image_header _ _ _ _ _ _ _ _ _ Him Hsz) as (_ & E4 & E8 & _).
  unfold fdt_get_property_namelen. rewrite (get_version _ _ _ _ _ _ _ _ _ Him Hsz). cbn [mbind res_bind].
  change (17 <? 16) with false. cbv iota. unfold fdt_get_property_namelen_, fdt_first_property_offset.
  rewrite (check_node xs nm _ Ei). cbn [mbind res_bind]. pose proof (items_size_pos (xs ++ [IBegin nm])).
  destruct (Z.ltb_spec (items_size (xs ++ [IBegin nm])) 0); [lia|].
  assert (valid_offset (items_size (xs ++ [IBegin nm]))) as Hv.
  { eapply (position_valid _ (ps ++ ss ++ IEnd :: ys)); [by rewrite Ei, <- !app_assoc|]. by destruct ps, ss. }
  assert (fdt + hdr m fdt 4 + 4 < 2 ^ 32) as Htop by (rewrite E4; lia).
  pose proof (property_loop_ok m fdt Hbl Htop _ _ s name Hoffs Hv Hs Hs0 Hst) as Hl. cbn [mbind res_bind] in Hl.
  rewrite Hl, E8. cbn [mbind res_bind]. by destruct (find_prop _ _ _ _).
Qed.

Lemma get_property_none xs nm ps props ss subs ys s name :
  its = xs ++ IBegin nm :: ps ++ ss ++ IEnd :: ys →
  spelled ps (pops props) → spelled ss (flat_map ops subs) → name ∉ props.*1 →
  bytes_at m s name → 0 < s → s + Z.of_nat (length name) < 2 ^ 32 →
  fdt_get_property_namelen m fdt (items_size xs) s (Z.of_nat (length name)) = Ok (0, - FDT_ERR_NOTFOUND).
Proof using Him Hsz.
  intros Ei Hp Hss Hn Hs Hs0 Hst.
  destruct (props_here (xs ++ [IBegin nm]) ps props ss subs ys) as (offs & Hoffs & Eo); [by rewrite <- app_assoc|done..|].
  erewrite get_property_here by done. by rewrite (find_prop_none offs props).
Qed.

Lemma get_property_some xs nm pl no v pr l r ss subs ys s name :
  its = xs ++ IBegin nm :: (pl ++ IProp no v :: pr) ++ ss ++ IEnd :: ys →
  spelled pl (pops l) → spelled pr (pops r) → string_at strings no name →
  spelled ss (flat_map ops subs) → name ∉ l.*1 →
  bytes_at m s name → 0 < s → s + Z.of_nat (length name) < 2 ^ 32 →
  fdt_get_property_namelen m fdt (items_size xs) s (Z.of_nat (length name)) =
  Ok (fdt + strct + items_size (xs ++ IBegin nm :: pl), Z.of_nat (length v)).
Proof using Him Hsz.
  intros Ei Hl Hr Hno Hss Hn Hs Hs0 Hst.
  assert (its = (xs ++ IBegin nm :: pl) ++ IProp no v :: pr ++ ss ++ IEnd :: ys) as E1
    by (by rewrite Ei, <- !app_assoc).
  destruct (image_property _ _ _ _ _ _ _ _ _ Him Hsz _ _ _ _ _ E1 Hno) as (Hg & En & _ & El).
  pose proof (item_tag_at _ _ _ _ _ _ _ _ _ Him Hsz _ _ _ E1) as Htag. cbn [item_tag] in Htag.
  destruct (props_here ((xs ++ IBegin nm :: pl) ++ [IProp no v]) pr r ss subs ys) as (offr & Hoffr & _);
    [by rewrite E1, <- !app_assoc|done..|].
  destruct (props_spelled _ _ _ _ _ _ _ _ _ Him Hsz (λ _, 0) l (xs ++ [IBegin nm]) pl (IProp no v :: pr ++ ss ++ IEnd :: ys))
    as (offl & Eo & Hat & _); [by rewrite E1, <- !app_assoc|done|].
  replace ((xs ++ [IBegin nm]) ++ pl) with (xs ++ IBegin nm :: pl) in Hat by (by rewrite <- app_assoc).
  rewrite (get_property_here xs nm (pl ++ IProp no v :: pr) (l ++ (name, v) :: r) ss subs ys s name
    (offl ++ items_size (xs ++ IBegin nm :: pl) :: offr)); [|done| |done| |done..].
  - rewrite (find_prop_some _ l) by done. by rewrite El.
  - rewrite map_app. apply Forall2_app; [done|]. cbn [map]. constructor; [done|done].
  - apply Hat. by eapply props_prop.
Qed.

(** [skip_properties]: the first tag behind the properties. *)
Lemma skip_here xs ps props ss subs ys :
  its = xs ++ ps ++ ss ++ IEnd :: ys → spelled ps (pops props) → spelled ss (flat_map ops subs) →
  skip_properties fdt m (items_size xs) = Ok (items_size (xs ++ ps)).
Proof using Him Hsz.
  intros Ei Hp Hs. unfold skip_properties. rewrite (tree_fuel_eq m fdt bl). apply yields_eq.
  apply (loop_yields
    (λ o, ∃ p1 p2, ps = p1 ++ p2 ∧ o = items_size (xs ++ p1))
    (λ o, Z.to_nat (items_size (xs ++ ps) - o))).
  3: { pose proof (image_bounds _ _ _ _ _ _ _ _ _ Him Hsz). destruct (image_header _ _ _ _ _ _ _ _ _ Him Hsz) as (_ & -> & _).
       assert (items_size (xs ++ ps) <= items_size its); [|pose proof (items_size_pos xs); lia].
       rewrite Ei, app_assoc, (items_size_app (xs ++ ps)). pose proof (items_size_pos (ss ++ IEnd :: ys)). lia. }
  2: { exists [], ps. by rewrite app_nil_r. }
  intros o (p1 & p2 & -> & ->). destruct p2 as [|it p2].
  - rewrite app_nil_r in *. assert (∃ tag next, tag_at m fdt (items_size (xs ++ p1)) tag next ∧ tag ≠ FDT_PROP ∧ tag ≠ FDT_NOP)
      as (tag & next & [Ht _] & Hn1 & Hn2).
    { destruct ss as [|it ss].
      - eexists FDT_END_NODE, _. split; [|done]. eapply (item_tag_at _ _ _ _ _ _ _ _ _ Him Hsz (xs ++ p1) IEnd ys).
        by rewrite <- app_assoc.
      - destruct subs as [|[n' pp' ss'] subs]; [by apply Forall2_nil_inv_r in Hs|]. cbn [flat_map] in Hs.
        rewrite ops_node in Hs. apply Forall2_cons_inv_l in Hs as (op & lo & Hit & _ & E). injection E as <- _.
        destruct it as [n'' | |]; [|done..]. eexists FDT_BEGIN_NODE, _. split; [|done].
        eapply (item_tag_at _ _ _ _ _ _ _ _ _ Him Hsz (xs ++ p1) (IBegin n'') (ss ++ IEnd :: ys)). by rewrite <- app_assoc. }
    rewrite Ht. cbn [mbind res_bind]. destruct (Z.eqb_spec tag FDT_PROP), (Z.eqb_spec tag FDT_NOP); done.
  - assert (∃ no v, it = IProp no v) as (no & v & ->).
    { apply Forall2_app_inv_l in Hp as (l1 & l2 & _ & H2 & E). apply Forall2_cons_inv_l in H2 as (op & l3 & Hit & _ & ->).
      assert (op ∈ pops props) as Hin by (rewrite E; apply elem_of_app; right; left).
      apply list_elem_of_In, in_map_iff in Hin as (? & <- & _). destruct it as [| |no v]; [done..|by exists no, v]. }
    destruct (item_tag_at _ _ _ _ _ _ _ _ _ Him Hsz (xs ++ p1) (IProp no v) (p2 ++ ss ++ IEnd :: ys)) as [-> _];
      [by rewrite Ei, <- !app_assoc|]. cbn [item_tag mbind res_bind Z.eqb orb yields FDT_PROP Pos.eqb].
    split; [exists (p1 ++ [IProp no v]), p2; split; [by rewrite <- app_assoc|by rewrite <- app_assoc]|].
    pose proof (item_size_pos (IProp no v)). pose proof (items_size_pos p2).
    rewrite !items_size_app. cbn [items_size foldr]. fold (items_size p2). lia.
Qed.

(* ------------------------------------------------------------------ *)
(** ** The end of a node *)

(** [fdt_node_end_offset_] from inside [depth] nested nodes. *)
Definition node_end_loop (from depth : Z) : res Z :=
  loop (tree_fuel m fdt)
    (fun '(offset, depth) =>
       if (0 <=? offset) && (0 <=? depth) then
         '(offset, depth') ← fdt_next_node m fdt offset (Some depth);
         Ok (inl (offset, default 0 depth'))
       else Ok (inr offset))
    (from, depth).

Lemma node_end_total o d : valid_offset o → ∃ r, node_end_loop o d = Ok r.
Proof using Him Hsz.
  intros Hv. assert (yields (node_end_loop o d) (λ _, True)) as Hy.
  2: { destruct (node_end_loop o d); [by eexists|done..]. }
  unfold node_end_loop. rewrite (tree_fuel_eq m fdt bl).
  apply (loop_yields (λ '(o, _), o < 0 ∨ valid_offset o)
    (λ '(o, _), if o <? 0 then 0%nat else S (Z.to_nat (hdr m fdt 4 - o)))).
  3: { destruct Hv. destruct (Z.ltb_spec o 0); lia. }
  2: { by right. }
  intros [o' d'] Ho. destruct (Z.leb_spec 0 o'), (Z.leb_spec 0 d'); cbn [andb]; try done.
  destruct Ho as [|Hv']; [lia|]. pose proof (next_node_ok m fdt bl o' (Some d')) as Hn.
  destruct (fdt_next_node m fdt o' (Some d')) as [[o2 d2]| |];
    [|by destruct Hn; unfold valid_offset, is_s32 in *; lia..].
  cbn [mbind res_bind yields] in *. destruct Hn as [|(? & ? & ? & _)]; [unfold valid_offset, is_s32 in *; lia|..].
  - split; [by left|]. destruct (Z.ltb_spec o2 0), (Z.ltb_spec o' 0); lia.
  - split; [by right|]. destruct (Z.ltb_spec o2 0), (Z.ltb_spec o' 0); lia.
Qed.

(** From [o] inside [d] nested nodes, the loop ends at [e]. *)
Definition reaches (o d e : Z) : Prop :=
  ∃ o' d', next_node_loop m fdt o (Some d) = Ok (o', Some d') ∧ node_end_loop o' d' = Ok e.

Lemma node_end_step xs nm ys d e :
  its = xs ++ IBegin nm :: ys → 0 <= d → reaches (items_size (xs ++ [IBegin nm])) d e →
  node_end_loop (items_size xs) d = Ok e.
Proof using Him Hsz.
  intros Ei Hd (o' & d' & Hn & He). pose proof (position_valid xs _ Ei ltac:(done)) as Hv.
  destruct (node_end_total (items_size xs) d Hv) as [r Hr]. rewrite Hr, <- He. symmetry.
  eapply loop_continue; [exact Hr|]. cbn beta iota. destruct Hv as (H0 & _).
  destruct (Z.leb_spec 0 (items_size xs)), (Z.leb_spec 0 d); try lia. cbn [andb].
  unfold fdt_next_node. destruct (Z.leb_spec 0 (items_size xs)); [|lia]. rewrite (check_node xs nm ys Ei).
  cbn [mbind res_bind]. pose proof (items_size_pos (xs ++ [IBegin nm])).
  destruct (Z.ltb_spec (items_size (xs ++ [IBegin nm])) 0); [lia|]. by rewrite Hn.
Qed.

Lemma reaches_props xs ps props ys d e :
  its = xs ++ ps ++ ys → spelled ps (pops props) → reaches (items_size (xs ++ ps)) d e → reaches (items_size xs) d e.
Proof using Him Hsz.
  revert xs ps. induction props as [|[n v] props IH]; intros xs ps Ei Hp Hr; cbn [map] in Hp.
  - apply Forall2_nil_inv_r in Hp as ->. by rewrite app_nil_r in Hr.
  - apply Forall2_cons_inv_r in Hp as (it & ps' & Hit & Hp & ->). destruct it as [| |no w]; [done..|].
    destruct (IH (xs ++ [IProp no w]) ps') as (o' & d' & Hn & He); [by rewrite Ei, <- app_assoc|done|by rewrite <- app_assoc|].
    exists o', d'. split; [|done]. rewrite <- Hn. apply (nodes_from_skip m fdt bl) with FDT_PROP; [|..|by left].
    + by eapply position_valid.
    + exact (item_tag_at _ _ _ _ _ _ _ _ _ Him Hsz xs (IProp no w) (ps' ++ ys) Ei).
Qed.

(** A whole node is passed over. *)
Definition passes (t : dtree) : Prop := ∀ xs zs ys d e,
  its = xs ++ zs ++ ys → spelled zs (ops t) → 0 <= d → 4 * d <= items_size xs →
  reaches (items_size (xs ++ zs)) d e → reaches (items_size xs) d e.

Lemma passes_subs subs : Forall passes subs → ∀ xs ss ys d e,
  its = xs ++ ss ++ ys → spelled ss (flat_map ops subs) → 0 <= d → 4 * d <= items_size xs →
  reaches (items_size (xs ++ ss)) d e → reaches (items_size xs) d e.
Proof using Type.
  induction 1 as [|t subs Ht _ IH]; intros xs ss ys d e Ei Hs Hd Hx Hr; cbn [flat_map] in Hs.
  - apply Forall2_nil_inv_r in Hs as ->. by rewrite app_nil_r in Hr.
  - apply spelled_app_inv in Hs as (z1 & z2 & -> & H1 & H2). apply (Ht xs z1 (z2 ++ ys)); [by rewrite Ei, <- app_assoc|done..|].
    apply (IH (xs ++ z1) z2 ys); [by rewrite Ei, <- !app_assoc|done..| |by rewrite <- app_assoc].
    rewrite items_size_app. pose proof (items_size_pos z1). lia.
Qed.

(** The end tag of the node that [d] others enclose. *)
Lemma reaches_end xs ys d e :
  its = xs ++ IEnd :: ys → 0 <= d → 4 * d <= items_size xs →
  (if d =? 0 then e = items_size (xs ++ [IEnd]) else reaches (items_size (xs ++ [IEnd])) (d - 1) e) →
  reaches (items_size xs) d e.
Proof using Him Hsz.
  intros Ei Hd Hx Hr. pose proof (position_valid xs _ Ei ltac:(done)) as Hv. unfold valid_offset in Hv.
  pose proof (item_tag_at _ _ _ _ _ _ _ _ _ Him Hsz xs _ _ Ei) as Ht. cbn [item_tag] in Ht. unfold reaches.
  rewrite (nodes_from_end_node m fdt bl _ _ _ Hv Ht) by (unfold is_s32; lia).
  destruct (Z.eqb_spec d 0) as [->|].
  - subst e. cbn [Z.sub Z.opp Z.add Z.ltb Z.compare]. do 2 eexists. split; [done|].
    unfold node_end_loop. rewrite (tree_fuel_eq m fdt bl). cbn [loop]. by rewrite andb_false_r.
  - destruct (Z.ltb_spec (d - 1) 0); [lia|done].
Qed.

Lemma passes_tree t : passes t.
Proof using Him Hsz.
  induction t as [nm props subs IH] using dtree_ind'. intros xs zs ys d e Ei Hz Hd Hx Hr.
  apply node_items in Hz as (ps & ss & -> & Hp & Hs). pose proof (items_size_pos xs) as Hpos.
  assert (its = xs ++ IBegin nm :: ps ++ ss ++ IEnd :: ys) as E1 by (rewrite Ei; cbn [app]; by rewrite <- !app_assoc).
  pose proof (position_valid xs _ E1 ltac:(done)) as Hv.
  pose proof (item_tag_at _ _ _ _ _ _ _ _ _ Him Hsz xs _ _ E1) as Ht. cbn [item_tag] in Ht.
  eexists _, _. split; [by apply (nodes_from_begin m fdt bl _ _ (Some d) Hv Ht)|].
  rewrite s32_small by (unfold valid_offset, is_s32 in *; lia).
  assert (4 + items_size xs <= items_size (xs ++ [IBegin nm])) as Hb.
  { rewrite items_size_app. cbn [items_size foldr]. pose proof (item_size_pos (IBegin nm)). lia. }
  apply (node_end_step xs nm _ (d + 1) e E1); [lia|].
  apply (reaches_props _ ps props (ss ++ IEnd :: ys)); [by rewrite E1, <- app_assoc|done|].
  assert (items_size (xs ++ [IBegin nm]) <= items_size ((xs ++ [IBegin nm]) ++ ps)) as Hb1.
  { rewrite (items_size_app _ ps). pose proof (items_size_pos ps). lia. }
  assert (items_size ((xs ++ [IBegin nm]) ++ ps) <= items_size (((xs ++ [IBegin nm]) ++ ps) ++ ss)) as Hb2.
  { rewrite (items_size_app _ ss). pose proof (items_size_pos ss). lia. }
  apply (passes_subs subs IH _ ss (IEnd :: ys)); [by rewrite E1, <- !app_assoc|done|lia|lia|].
  apply (reaches_end _ ys); [by rewrite E1, <- !app_assoc|lia|lia|].
  destruct (Z.eqb_spec (d + 1) 0); [lia|]. replace (d + 1 - 1) with d by lia.
  rewrite <- !app_assoc. cbn [app]. exact Hr.
Qed.

Lemma node_end_here xs zs ys t :
  its = xs ++ zs ++ ys → spelled zs (ops t) → fdt_node_end_offset_ fdt m (items_size xs) = Ok (items_size (xs ++ zs)).
Proof using Him Hsz.
  intros Ei Hz. destruct t as [nm props subs]. apply node_items in Hz as (ps & ss & -> & Hp & Hs).
  assert (its = xs ++ IBegin nm :: ps ++ ss ++ IEnd :: ys) as E1 by (rewrite Ei; cbn [app]; by rewrite <- !app_assoc).
  change (node_end_loop (items_size xs) 0 = Ok (items_size (xs ++ IBegin nm :: ps ++ ss ++ [IEnd]))).
  apply (node_end_step xs nm _ 0 _ E1); [lia|].
  apply (reaches_props _ ps props (ss ++ IEnd :: ys)); [by rewrite E1, <- app_assoc|done|].
  pose proof (items_size_pos ((xs ++ [IBegin nm]) ++ ps)). pose proof (items_size_pos (((xs ++ [IBegin nm]) ++ ps) ++ ss)).
  apply (passes_subs subs) with ss (IEnd :: ys); [|by rewrite E1, <- !app_assoc|done|lia|lia|].
  - apply Forall_forall. intros. apply passes_tree.
  - apply (reaches_end _ ys); [by rewrite E1, <- !app_assoc|lia|lia|]. cbn [Z.eqb]. by rewrite <- !app_assoc.
Qed.

(* ------------------------------------------------------------------ *)
(** ** Subnodes *)

(** What is behind a position closes the nodes that are open there. *)
Lemma rest_here c : ∀ xs ys, its = xs ++ ys → spelled ys (ops_after c) → ∃ pending, rest_at m fdt (items_size xs) pending.
Proof using Him Hsz.
  induction c as [|f c IH]; intros xs ys Ei Hy; cbn [ops_after] in Hy.
  - apply Forall2_nil_inv_r in Hy as ->. rewrite app_nil_r in Ei. subst its. exists []. apply rest_closing. eapply closing_end.
    split; [apply (stream_end m fdt xs), (image_stream _ _ _ _ _ _ _ _ _ Him Hsz)|]. pose proof (items_size_pos xs). lia.
  - apply spelled_app_inv in Hy as (y1 & y' & -> & H1 & Hy). apply Forall2_cons_inv_r in Hy as (it & y2 & Hit & Hy & ->).
    destruct it as [| |]; [done| |done].
    destruct (subs_spelled _ _ _ _ _ _ _ _ _ Him Hsz (λ _, 0) (f_right f)) with xs y1 y2 as (_ & ds & Hds & _); [|done|done|].
    { apply Forall_forall. intros t _. by eapply tree_spelled. }
    destruct (IH (xs ++ y1 ++ [IEnd]) y2) as (pending & Hp); [by rewrite Ei, <- !app_assoc|done|].
    exists (ds :: pending). by econstructor.
Qed.

(** The walk stands at a node with its subnodes. *)
Lemma at_node_here c xs nm ps props ss subs ys :
  its = xs ++ IBegin nm :: ps ++ ss ++ IEnd :: ys → spelled ps (pops props) → spelled ss (flat_map ops subs) →
  spelled ys (ops_after c) →
  ∃ d depth l, at_node m fdt d depth l ∧ node_off d = items_size xs ∧ read_tree m fdt d = DTree nm props subs ∧
    map node_off (node_subs d) = node_offs (λ _, 0) (items_size (xs ++ IBegin nm :: ps)) subs.
Proof using Him Hsz.
  intros Ei Hp Hs Hy.
  destruct (props_here (xs ++ [IBegin nm]) ps props ss subs ys) as (offs & Hoffs & Eprops); [by rewrite <- app_assoc|done..|].
  destruct (props_spelled _ _ _ _ _ _ _ _ _ Him Hsz (λ _, 0) props (xs ++ [IBegin nm]) ps (ss ++ IEnd :: ys))
    as (_ & _ & _ & Hpass); [by rewrite <- app_assoc|done|].
  destruct (subs_spelled _ _ _ _ _ _ _ _ _ Him Hsz (λ _, 0) subs) with ((xs ++ [IBegin nm]) ++ ps) ss ys
    as (_ & ds & Hds & Eds & Eoff); [|by rewrite Ei, <- !app_assoc|done|].
  { apply Forall_forall. intros t _. by eapply tree_spelled. }
  destruct (rest_here c (((xs ++ [IBegin nm]) ++ ps) ++ ss ++ [IEnd]) ys) as (pending & Hrest);
    [by rewrite Ei, <- !app_assoc|done|].
  exists (Node (items_size xs) offs ds). do 2 eexists. split_and!; [|done|..].
  2: { cbn [read_tree]. rewrite Eprops, Eds. by destruct (image_node_name _ _ _ _ _ _ _ _ _ Him Hsz xs nm _ Ei) as [-> _]. }
  2: { cbn [node_subs]. by rewrite Eoff, <- app_assoc. }
  exists (items_size (xs ++ [IBegin nm])), pending. split_and!; [|exact (item_tag_at _ _ _ _ _ _ _ _ _ Him Hsz xs _ _ Ei)|done| |done|done].
  - by eapply position_valid.
  - econstructor; [by apply Hpass|done].
Qed.

(** [fdt_subnode_offset_namelen] finds a subnode of that name, if there is one. *)
Lemma subnode_here c xs nm ps props ss subs ys s name :
  its = xs ++ IBegin nm :: ps ++ ss ++ IEnd :: ys → spelled ps (pops props) → spelled ss (flat_map ops subs) →
  spelled ys (ops_after c) → valid_tree m fdt →
  bytes_at m s name → 0 < s → s + Z.of_nat (length name) < 2 ^ 32 →
  ∃ r, fdt_subnode_offset_namelen m fdt (items_size xs) s (Z.of_nat (length name)) = Ok r ∧
    if existsb (λ u, name_matches name (root_name u)) subs then 0 <= r else r = - FDT_ERR_NOTFOUND.
Proof using Him Hsz.
  intros Ei Hp Hs Hy Hval Hb Hs0 Hst.
  destruct (at_node_here c xs nm ps props ss subs ys Ei Hp Hs Hy) as (d & depth & l & Hd & Ed & Et & _).
  assert (map (read_tree m fdt) (node_subs d) = subs) as Esub by (destruct d; by injection Et).
  rewrite <- Ed. eexists. split.
  { apply (subnode_ok m fdt (image_readable _ _ _ _ _ _ _ _ _ Him Hsz) Hval d depth l s name); done. }
  assert (Forall (λ u, 0 <= node_off u) (node_subs d)) as Hpos.
  { pose proof bl as Hbl. destruct Hd as (next & pending & Hv & Ht & _ & Hrest & _). inversion Hrest as [|? ? ? ? Hsub _]; subst.
    destruct (tag_at_valid m fdt Hbl _ _ _ Hv Ht) as [Hvn _]. revert Hvn. clear - Hsub Hbl.
    induction Hsub as [|off nx us after Ht Hsub IH|off nx us after Ht Hg Hsub IH|off nx pr us mid vs after Ht Hp H1 _ H2 IH];
      intros Hv; [constructor|..]; pose proof (tag_at_valid m fdt Hbl _ _ _ Hv Ht) as [Hvn _].
    - by apply IH.
    - by apply IH.
    - constructor; [destruct Hv; cbn; lia|]. apply IH. by eapply (subs_bound m fdt Hbl). }
  subst subs. unfold first_named. clear - Hpos. induction Hpos as [|u us Hu _ IH]; [done|].
  cbn [map existsb]. rewrite first_off_cons.
  replace (root_name (read_tree m fdt u)) with (node_name m fdt (node_off u)) by (by destruct u).
  by destruct (name_matches _ _).
Qed.
End lookups.

(* ------------------------------------------------------------------ *)
(** * The tree that memory holds *)

(** The strings of a table stay where they are when more are added. *)
Lemma string_at_more strings more nameoff name :
  string_at strings nameoff name → string_at (strings ++ more) nameoff name.
Proof.
  intros (Hnz & pre & post & -> & ->). split; [done|]. exists pre, (post ++ more). split; [|done].
  by rewrite <- !app_assoc.
Qed.

Lemma spelled_more strings more zs l :
  Forall2 (spells (string_at strings)) zs l → Forall2 (spells (string_at (strings ++ more))) zs l.
Proof.
  intros H. eapply Forall2_impl; [exact H|]. intros [name| |no val] [| | | |]; cbn; try done.
  intros [-> Hs]. split; [done|by apply string_at_more].
Qed.

Section at_position.
Context (fdt size total r0 cpuid : Z) (rsv : list (Z * Z)).

(** Memory holds, in a buffer of [size] bytes of which [total] are the tree's, a tree in
    which [t] stands at the position [c], its node at the offset [off]; [used] bytes are
    taken. *)
Definition node_at (m : mem) (c : list frame) (t : dtree) (off used : Z) : Prop :=
  ∃ strings xs zs ys,
    image total r0 cpuid rsv (xs ++ zs ++ ys) strings m fdt size ∧
    Forall2 (spells (string_at strings)) xs (ops_before c) ∧
    Forall2 (spells (string_at strings)) zs (ops t) ∧
    Forall2 (spells (string_at strings)) ys (ops_after c) ∧
    off = items_size xs ∧ used = image_strings r0 rsv (xs ++ zs ++ ys) + Z.of_nat (length strings) ∧
    total < INT_MAX ∧ root_name (plug c t) = [] ∧
    ∃ rsvs, rsv = rsvs ++ [(0, 0)] ∧ Forall (λ r, is_u64 r.1 ∧ is_u64 r.2) rsvs.

(** Such a memory passes the full check, and its tree reads as the whole. *)
Lemma node_at_reads m c t off used :
  node_at m c t off used →
  readable_tree m fdt ∧ fdt_check_full m fdt size = Ok 0 ∧ used <= total ∧
  (∀ i r, rsv !! i = Some r → fdt_get_mem_rsv m fdt (Z.of_nat i) = Ok (0, Some r)) ∧
  ∃ d, block_at m fdt 0 (Some d) ∧ read_tree m fdt d = plug c t.
Proof using Type.
  intros (strings & xs & zs & ys & Him & Hx & Hz & Hy & _ & -> & Hsz & Hr & rsvs & -> & Hu).
  destruct (plug c t) as [nm vals ts] eqn:Ep. cbn in Hr. subst nm.
  destruct (image_reads m fdt size total r0 cpuid rsvs (xs ++ zs ++ ys) strings (λ _, 0) vals ts Him Hsz Hu) as (H1 & H2 & H3 & H4).
  - fold ops. change (tree_ops (λ _, 0) (DTree [] vals ts)) with (ops (DTree [] vals ts)). rewrite <- Ep, plug_ops.
    by repeat apply Forall2_app.
  - split_and!; try done. apply Him.
Qed.

Lemma node_valid m c t off used : node_at m c t off used → valid_tree m fdt.
Proof using Type.
  intros (strings & xs & zs & ys & Him & Hx & Hz & Hy & _ & _ & Hsz & Hr & rsvs & -> & Hu).
  destruct (plug c t) as [nm vals ts] eqn:Ep. cbn in Hr. subst nm.
  eapply (image_valid m fdt size total r0 cpuid rsvs (xs ++ zs ++ ys) strings (λ _, 0) vals ts Him Hsz Hu).
  fold ops. change (tree_ops (λ _, 0) (DTree [] vals ts)) with (ops (DTree [] vals ts)). rewrite <- Ep, plug_ops.
  by repeat apply Forall2_app.
Qed.

End at_position.
