(* ===== verification/FdtEncode.v ===== *)
(** Laying a tree out as the bytes that src/libfdt/libfdt.h describes, and the proof that
    memory with these bytes holds the tree: where the examples about edits and overlays
    start. *)
From S2P Require Import Prelude Machine Crt0 SampleTree Fdt FdtRo FdtCheck FdtTree FdtLookup FdtWrite FdtSw FdtRw FdtImage FdtBuild FdtFinish FdtRead FdtEdit FdtNode.
From stdpp Require Import base list gmap.
From Stdlib Require Import ZArith Lia.
#[local] Open Scope Z_scope.

(* ------------------------------------------------------------------ *)
(** * Items and their bytes *)

Section encode.
Context (strings : list Z).

(** Where the name of a property lies in the strings block. *)
Definition name_offset (name : list Z) : option nat := find_str strings (name ++ [0]).
Definition prop_item (p : list Z * list Z) : item :=
  IProp (from_option Z.of_nat 0 (name_offset p.1)) p.2.
Fixpoint tree_items (t : dtree) : list item :=
  let 'DTree name props subs := t in
  IBegin name :: map prop_item props ++ flat_map tree_items subs ++ [IEnd].

(** Every name is there and holds no NUL. *)
Definition placed (p : list Z * list Z) : bool :=
  bool_decide (is_Some (name_offset p.1)) && forallb (λ c, negb (c =? 0)) p.1.
Fixpoint tree_placed (t : dtree) : bool :=
  let 'DTree _ props subs := t in forallb placed props && forallb tree_placed subs.

Lemma prop_item_spelled p : placed p = true → spells (string_at strings) (prop_item p) (prop_op (λ _, 0) p).
Proof using Type.
  destruct p as [name val]. unfold placed, prop_item, name_offset. cbn. rewrite andb_true_iff, bool_decide_eq_true.
  intros [[i Hi] Hnz]. split; [done|]. rewrite Hi. cbn. apply find_str_spec in Hi as (pre & post & Es & <-). split.
  - apply Forall_forall. intros c Hc. rewrite forallb_forall in Hnz. apply list_elem_of_In in Hc.
    specialize (Hnz c Hc). by destruct (Z.eqb_spec c 0).
  - exists pre, post. split; [|done]. by rewrite Es, <- app_assoc.
Qed.

Lemma tree_items_spelled t :
  tree_placed t = true → Forall2 (spells (string_at strings)) (tree_items t) (ops t).
Proof using Type.
  induction t as [name props subs IH] using dtree_ind'. cbn [tree_placed]. rewrite andb_true_iff. intros [Hp Hs].
  rewrite ops_node. unfold node_ops. cbn [tree_items app]. constructor; [done|]. apply Forall2_app; [|apply Forall2_app].
  - clear -Hp. induction props as [|p props IH]; [constructor|]. cbn in Hp. apply andb_true_iff in Hp as [? ?].
    constructor; [by apply prop_item_spelled|by apply IH].
  - clear -IH Hs. induction IH as [|t subs Ht _ IH]; [constructor|]. cbn in Hs |- *. apply andb_true_iff in Hs as [? ?].
    apply Forall2_app; [by apply Ht|by apply IH].
  - by repeat constructor.
Qed.

Definition padded_item (it : item) : list Z := pad4 (item_bytes it).

Lemma padded_item_size it : Z.of_nat (length (padded_item it)) = item_size it.
Proof using Type.
  unfold padded_item, pad4, item_size, align4. rewrite length_app, length_replicate, Nat2Z.inj_add.
  pose proof (Z.mod_pos_bound (- Z.of_nat (length (item_bytes it))) 4 ltac:(lia)). Z.div_mod_to_equations. lia.
Qed.

Lemma items_encoded m a its : bytes_at m a (flat_map padded_item its) → items_at m a its.
Proof using Type.
  revert a. induction its as [|it its IH]; intros a Hb; [done|]. cbn [flat_map] in Hb.
  apply bytes_at_app in Hb as [Hi Hb]. rewrite padded_item_size in Hb. split; [|by apply IH].
  by apply bytes_at_app in Hi as [? _].
Qed.

Lemma length_items its : Z.of_nat (length (flat_map padded_item its)) = items_size its.
Proof using Type.
  induction its as [|it its IH]; [done|]. cbn [flat_map items_size foldr].
  by rewrite length_app, Nat2Z.inj_add, padded_item_size, IH.
Qed.

Lemma words_encoded m a ws : bytes_at m a (flat_map be32 ws) → words_at m a ws.
Proof using Type.
  revert a. induction ws as [|w ws IH]; intros a Hb; [by intros [|?] ?|]. cbn [flat_map] in Hb.
  apply bytes_at_app in Hb as [Hw Hb]. apply words_at_cons. split; [done|]. by apply IH.
Qed.

Lemma length_words ws : length (flat_map be32 ws) = (4 * length ws)%nat.
Proof using Type. induction ws as [|w ws IH]; [done|]. cbn [flat_map]. rewrite length_app, length_be32, IH. cbn. lia. Qed.

(* ------------------------------------------------------------------ *)
(** * A tree *)

(** The bytes of a tree with an empty reservation map. *)
Definition tree_image (total : Z) (t : dtree) : list Z :=
  let its := tree_items t in
  flat_map be32 (image_words total 40 0 [(0, 0)] its strings) ++ flat_map be32 (rsv_words (0, 0)) ++
  flat_map padded_item its ++ be32 FDT_END ++ strings.

Definition item_fits (it : item) : bool :=
  match it with
  | IBegin name => forallb (λ c, negb (c =? 0)) name && (Z.of_nat (length name) <? 2 ^ 30)
  | IEnd => true
  | IProp nameoff val => (nameoff <? 2 ^ 32) && (0 <=? nameoff) && (Z.of_nat (length val) <? 2 ^ 30)
  end.

Lemma item_fits_ok it : item_fits it = true → item_ok it.
Proof using Type.
  destruct it as [name| |nameoff val]; cbn; [|done|].
  - rewrite andb_true_iff, forallb_forall, Z.ltb_lt. intros [Hn Hl]. split; [|done]. apply Forall_forall.
    intros c Hc%list_elem_of_In. specialize (Hn c Hc). by destruct (Z.eqb_spec c 0).
  - rewrite !andb_true_iff, !Z.ltb_lt, Z.leb_le. unfold is_u32. lia.
Qed.

(** The bytes are those of the tree, in a buffer that it fits. *)
Definition tree_used (t : dtree) : Z := image_strings 40 [(0, 0)] (tree_items t) + Z.of_nat (length strings).

Lemma tree_image_at m fdt size total t :
  buffer m fdt size → bytes_at m fdt (tree_image total t) →
  tree_placed t = true → forallb item_fits (tree_items t) = true → root_name t = [] →
  tree_used t <= total <= size → size < INT_MAX →
  node_at fdt size total 40 0 [(0, 0)] m [] t 0 (tree_used t).
Proof using Type.
  intros Hbuf Hb Hp Hi Hname Hle Hsz. unfold tree_image in Hb. set (its := tree_items t) in *.
  apply bytes_at_app in Hb as [Hhdr Hb]. rewrite length_words in Hb. cbn [length image_words] in Hb.
  apply bytes_at_app in Hb as [Hrsv Hb]. rewrite length_words in Hb. cbn [length rsv_words] in Hb.
  apply bytes_at_app in Hb as [Hits Hb]. rewrite length_items in Hb.
  apply bytes_at_app in Hb as [Hend Hstr]. rewrite length_be32 in Hstr.
  exists strings, [], its, []. rewrite app_nil_r. cbn [app]. split_and!; try done; [| |lia|].
  - split; try done.
    + lia.
    + apply Forall_forall. intros it Hit%list_elem_of_In. apply item_fits_ok. rewrite forallb_forall in Hi. by apply Hi.
    + by apply words_encoded.
    + by apply words_encoded.
    + apply items_encoded. unfold image_struct. cbn [length]. by replace (fdt + (40 + 16 * Z.of_nat 1)) with
        (fdt + Z.of_nat (4 * 10) + Z.of_nat (4 * 4)) by lia.
    + unfold image_struct. cbn [length]. by replace (fdt + (40 + 16 * Z.of_nat 1) + items_size its) with
        (fdt + Z.of_nat (4 * 10) + Z.of_nat (4 * 4) + items_size its) by lia.
    + unfold image_strings, image_struct. cbn [length]. by replace (fdt + (40 + 16 * Z.of_nat 1 + items_size its + 4)) with
        (fdt + Z.of_nat (4 * 10) + Z.of_nat (4 * 4) + items_size its + Z.of_nat 4) by lia.
  - by apply tree_items_spelled.
  - exists []. by split.
Qed.
End encode.
