(* ===== verification/FdtChildren.v ===== *)
(** The properties and the subnodes of a node in its tree, one by one: what the loops
    over them read, in terms of the position of the node ([node_at]). *)
From S2P Require Import Prelude Machine Crt0 SampleTree Fdt FdtRo FdtCheck FdtTree FdtLookup FdtWrite FdtSw FdtRw FdtImage FdtBuild FdtFinish FdtRead FdtEdit FdtNode.
From stdpp Require Import base list gmap.
From Stdlib Require Import ZArith Lia.
#[local] Open Scope Z_scope.

(** Where a node lies, and, from there, the property behind the properties [l] and the
    subnode behind the subnodes [l]. *)
Definition node_place (c : list frame) : Z := ops_size (ops_before c).
Definition prop_place (nm : list Z) (l : list (list Z * list Z)) : Z := ops_size (node_ops nm l).
Definition sub_place (nm : list Z) (props : list (list Z * list Z)) (l : list dtree) : Z :=
  prop_place nm props + ops_size (flat_map ops l).

(** [o] if there is something left, otherwise the error that ends a loop. *)
Definition unless_done {A} (rest : list A) (o : Z) : Z := match rest with [] => - FDT_ERR_NOTFOUND | _ => o end.

Lemma node_offs_app o l r : node_offs (λ _, 0) o (l ++ r) = node_offs (λ _, 0) o l ++ node_offs (λ _, 0) (o + ops_size (flat_map ops l)) r.
Proof.
  revert o. induction l as [|t l IH]; intros o; cbn [app node_offs flat_map]; [by rewrite Z.add_0_r|].
  rewrite IH, ops_size_app. unfold ops at 3. by rewrite Z.add_assoc.
Qed.

Lemma ops_size_nonneg l : 0 <= ops_size l.
Proof.
  induction l as [|op l IH]; [done|]. cbn [ops_size foldr]. fold (ops_size l).
  destruct op; cbn [op_size]; try lia; match goal with |- context [item_size ?it] => pose proof (item_size_pos it) end; lia.
Qed.

Lemma first_of_offs ds o ts : map node_off ds = node_offs (λ _, 0) o ts → first_of ds = unless_done ts o.
Proof. destruct ds, ts; cbn; try done. congruence. Qed.

Lemma first_named_offs m fdt name ds o l u r :
  map (read_tree m fdt) ds = l ++ u :: r → map node_off ds = node_offs (λ _, 0) o (l ++ u :: r) →
  existsb (λ t, name_matches name (root_name t)) l = false → name_matches name (root_name u) = true →
  first_named m fdt name ds = o + ops_size (flat_map ops l).
Proof.
  assert (∀ d, root_name (read_tree m fdt d) = node_name m fdt (node_off d)) as Hroot by (by intros []).
  unfold first_named. revert ds o. induction l as [|t l IH]; intros [|d ds] o; cbn [app map existsb node_offs flat_map]; try done.
  - intros [= <- _] [= Eo _] _. rewrite Hroot, first_off_cons. intros ->. cbn [ops_size foldr]. lia.
  - intros [= <- Et] [= Eo Eoff] [Hne Hex]%orb_false_iff Hu. rewrite Hroot in Hne. rewrite first_off_cons, Hne.
    rewrite (IH ds _ Et Eoff Hex Hu), ops_size_app. fold ops. lia.
Qed.

Section children.
Context (fdt size total r0 cpuid : Z) (rsv : list (Z * Z)) (m : mem).
Context (c : list frame) (nm : list Z) (props : list (list Z * list Z)) (subs : list dtree) (off used : Z).
Context (Hat : node_at fdt size total r0 cpuid rsv m c (DTree nm props subs) off used).

Lemma node_at_place : off = node_place c.
Proof using Hat. destruct Hat as (strings & xs & zs & ys & _ & Hx & _ & _ & -> & _). by eapply spelled_size. Qed.

Lemma node_at_total : off + ops_size (ops (DTree nm props subs)) < total.
Proof using Hat.
  destruct Hat as (strings & xs & zs & ys & Him & Hx & Hz & _ & -> & _ & Hsz & _).
  pose proof (image_bounds _ _ _ _ _ _ _ _ _ Him Hsz) as Hbd. rewrite !items_size_app, (spelled_size _ _ _ Hz) in Hbd.
  pose proof (items_size_pos ys). unfold image_struct in *. lia.
Qed.

(** The parts of the node, in the image. *)
Lemma node_parts :
  ∃ strings xs ps ss ys, let its := xs ++ IBegin nm :: ps ++ ss ++ IEnd :: ys in
    image total r0 cpuid rsv its strings m fdt size ∧ total < INT_MAX ∧ off = items_size xs ∧
    Forall2 (spells (string_at strings)) ps (map (prop_op (λ _, 0)) props) ∧
    Forall2 (spells (string_at strings)) ss (flat_map ops subs) ∧
    Forall2 (spells (string_at strings)) ys (ops_after c).
Proof using Hat.
  destruct Hat as (strings & xs & zs & ys & Him & Hx & Hz & Hy & -> & _ & Hsz & _).
  apply node_items in Hz as (ps & ss & -> & Hp & Hss). exists strings, xs, ps, ss, ys. cbv zeta.
  split_and!; try done. by replace (xs ++ IBegin nm :: ps ++ ss ++ IEnd :: ys)
    with (xs ++ (IBegin nm :: ps ++ ss ++ [IEnd]) ++ ys) by (cbn [app]; by rewrite <- !app_assoc).
Qed.

Lemma size_of_node named xs ps l : Forall2 (spells named) ps (map (prop_op (λ _, 0)) l) →
  items_size (xs ++ IBegin nm :: ps) = items_size xs + prop_place nm l.
Proof using Type.
  intros Hp. rewrite items_size_app. change (IBegin nm :: ps) with ([IBegin nm] ++ ps). rewrite items_size_app, (spelled_size _ _ _ Hp).
  unfold prop_place, node_ops. change (BeginNode 0 nm :: map (prop_op (λ _, 0)) l) with ([BeginNode 0 nm] ++ map (prop_op (λ _, 0)) l).
  by rewrite ops_size_app.
Qed.

(** From the first property that is left on, [nextprop_] finds it, or the end. *)
Lemma nextprop_here l r : props = l ++ r →
  nextprop_ m fdt (off + prop_place nm l) = Ok (unless_done r (off + prop_place nm l)).
Proof using Hat.
  intros Ep. destruct node_parts as (strings & xs & ps & ss & ys & Him & Hsz & Eo & Hp & Hs & _).
  rewrite Ep, map_app in Hp. apply spelled_app_inv in Hp as (pl & pr & -> & Hl & Hr).
  rewrite Eo, <- (size_of_node _ xs pl l Hl). pose proof (image_blob _ _ _ _ _ _ _ _ _ Him Hsz) as Hbl.
  set (its := xs ++ IBegin nm :: (pl ++ pr) ++ ss ++ IEnd :: ys) in *.
  assert (its = (xs ++ IBegin nm :: pl) ++ pr ++ ss ++ IEnd :: ys) as E1 by (unfold its; cbn [app]; by rewrite <- !app_assoc).
  assert (valid_offset (items_size (xs ++ IBegin nm :: pl))) as Hv.
  { eapply (position_valid _ _ _ _ _ _ _ _ _ Him Hsz _ (pr ++ ss ++ IEnd :: ys)); [done|]. by destruct pr, ss. }
  destruct r as [|[n v] r].
  - apply Forall2_nil_inv_r in Hr as ->. apply (nextprop_ok m fdt Hbl _ []); [|done].
    by apply (props_stop _ _ _ _ _ _ _ _ _ Him Hsz _ ss subs ys).
  - cbn [map] in Hr. apply Forall2_cons_inv_r in Hr as (it & pr' & Hit & Hr & ->). destruct it as [| |no w]; [done..|].
    destruct Hit as [-> Hno].
    destruct (props_spelled _ _ _ _ _ _ _ _ _ Him Hsz (λ _, 0) r ((xs ++ IBegin nm :: pl) ++ [IProp no v]) pr' (ss ++ IEnd :: ys))
      as (offs & _ & Hprops & _); [by rewrite E1, <- !app_assoc|done|].
    destruct (image_property _ _ _ _ _ _ _ _ _ Him Hsz (xs ++ IBegin nm :: pl) no n v (pr' ++ ss ++ IEnd :: ys))
      as (Hg & _); [done|done|].
    apply (nextprop_ok m fdt Hbl _ (items_size (xs ++ IBegin nm :: pl) :: offs)); [|done].
    eapply props_prop; [|done|]; [by apply (item_tag_at _ _ _ _ _ _ _ _ _ Him Hsz _ (IProp no v) (pr' ++ ss ++ IEnd :: ys))|].
    rewrite <- (app_nil_r offs). apply Hprops. apply (props_stop _ _ _ _ _ _ _ _ _ Him Hsz _ ss subs ys); [|done].
    by rewrite E1, <- !app_assoc.
Qed.

Lemma first_property : fdt_first_property_offset m fdt off = Ok (unless_done props (off + prop_place nm [])).
Proof using Hat.
  rewrite <- (nextprop_here [] props eq_refl). destruct node_parts as (strings & xs & ps & ss & ys & Him & Hsz & -> & _).
  unfold fdt_first_property_offset. rewrite (check_node _ _ _ _ _ _ _ _ _ Him Hsz xs nm _ eq_refl). cbn [mbind res_bind].
  rewrite (size_of_node (λ _ _, True) xs [] []) by constructor. pose proof (items_size_pos xs).
  pose proof (ops_size_nonneg (node_ops nm [])). unfold prop_place in *.
  by destruct (Z.ltb_spec (items_size xs + ops_size (node_ops nm [])) 0); [lia|].
Qed.

Lemma prop_place_snoc l p : prop_place nm (l ++ [p]) = prop_place nm l + item_size (IProp 0 p.2).
Proof using Type.
  unfold prop_place, node_ops. rewrite map_app. change (?x :: ?a ++ ?b) with ((x :: a) ++ b). rewrite ops_size_app.
  cbn [map ops_size foldr op_size prop_op]. lia.
Qed.

(** The property behind the properties [l], as an item of the image. *)
Lemma prop_parts l n v r : props = l ++ (n, v) :: r →
  ∃ strings xs ys no, let its := xs ++ IProp no v :: ys in
    image total r0 cpuid rsv its strings m fdt size ∧ total < INT_MAX ∧ off + prop_place nm l = items_size xs ∧
    string_at strings no n.
Proof using Hat.
  intros Ep. destruct node_parts as (strings & xs & ps & ss & ys & Him & Hsz & Eo & Hp & _).
  rewrite Ep in Hp. apply prop_items in Hp as (pl & no & pr & -> & Hl & Hno & _).
  exists strings, (xs ++ IBegin nm :: pl), (pr ++ ss ++ IEnd :: ys), no. cbv zeta. split_and!; [|done| |done].
  - revert Him. cbv zeta. cbn [app]. rewrite <- !app_assoc. by cbn [app].
  - by rewrite Eo, (size_of_node _ xs pl l Hl).
Qed.

Lemma next_property l n v r : props = l ++ (n, v) :: r →
  fdt_next_property_offset m fdt (off + prop_place nm l) = Ok (unless_done r (off + prop_place nm (l ++ [(n, v)]))).
Proof using Hat.
  intros Ep. rewrite <- (nextprop_here (l ++ [(n, v)]) r) by (by rewrite <- app_assoc).
  destruct (prop_parts _ _ _ _ Ep) as (strings & xs & ys & no & Him & Hsz & Eo & _).
  destruct (item_tag_at _ _ _ _ _ _ _ _ _ Him Hsz xs _ _ eq_refl) as [Ht Ht0]. rewrite items_size_app in Ht, Ht0.
  change (items_size [IProp no v]) with (item_size (IProp no v) + 0) in Ht, Ht0. rewrite item_size_prop in Ht, Ht0.
  destruct (position_valid _ _ _ _ _ _ _ _ _ Him Hsz xs _ eq_refl ltac:(done)) as (H0 & H4 & _).
  rewrite prop_place_snoc, Z.add_assoc, Eo, item_size_prop.
  unfold fdt_next_property_offset, fdt_check_prop_offset_, FDT_TAGSIZE.
  destruct (Z.ltb_spec (items_size xs) 0); [lia|]. rewrite H4. cbn [Z.eqb negb orb]. rewrite Ht.
  cbn [mbind res_bind item_tag snd]. rewrite Z.eqb_refl. cbn [negb]. rewrite Z.add_0_r in *.
  by destruct (Z.ltb_spec (items_size xs + (12 + align4 (Z.of_nat (length v)))) 0); [lia|].
Qed.

(** [bs] lies inside the tree. *)
Definition inside (a : Z) (bs : list Z) : Prop :=
  bytes_at m a bs ∧ fdt < a ∧ a + Z.of_nat (length bs) <= fdt + total.

(** The value of a property, which lies behind its tag; its name is in the strings block. *)
Lemma getprop_place l n v r : props = l ++ (n, v) :: r →
  let d := fdt + image_struct r0 rsv + (off + prop_place nm l) + 12 in
  ∃ s, fdt_getprop_by_offset m fdt (off + prop_place nm l) true = Ok (d, Z.of_nat (length v), s) ∧
    inside d v ∧ inside s (n ++ [0]) ∧ Forall (λ b, b ≠ 0) n.
Proof using Hat.
  intros Ep. destruct (prop_parts _ _ _ _ Ep) as (strings & xs & ys & no & Him & Hsz & -> & Hno).
  destruct (image_getprop _ _ _ _ _ _ _ _ _ Him Hsz xs no n v ys eq_refl Hno) as (Hg & _).
  destruct (string_at_bytes _ _ _ _ _ _ _ _ _ Him _ _ Hno) as (Hsb & Hn0 & Hn).
  pose proof (image_bounds _ _ _ _ _ _ _ _ _ Him Hsz) as Hbd. cbv zeta. eexists. split; [exact Hg|].
  pose proof (im_items _ _ _ _ _ _ _ _ _ Him) as Hits. apply items_at_app in Hits as [_ [Hits _]].
  cbn [item_bytes] in Hits. rewrite !bytes_at_app, !length_be32 in Hits. destruct Hits as (_ & _ & _ & Hv).
  rewrite items_size_app in Hbd. change (items_size (IProp no v :: ys)) with (item_size (IProp no v) + items_size ys) in Hbd.
  rewrite item_size_prop in Hbd. pose proof (items_size_pos xs). pose proof (items_size_pos ys).
  pose proof (align4_ge (Z.of_nat (length v)) ltac:(lia)). unfold inside, image_struct, image_strings in *.
  rewrite length_app in *. cbn [length] in *. rewrite items_size_app in *.
  change (items_size (IProp no v :: ys)) with (item_size (IProp no v) + items_size ys) in *. rewrite item_size_prop in *.
  split_and!; [|lia..|done|lia|lia|apply Hno].
  revert Hv. change (Z.of_nat 4) with 4. by rewrite <- !Z.add_assoc.
Qed.

Lemma getprop_here l n v r : props = l ++ (n, v) :: r →
  ∃ d s, fdt_getprop_by_offset m fdt (off + prop_place nm l) true = Ok (d, Z.of_nat (length v), s) ∧
    inside d v ∧ inside s (n ++ [0]) ∧ Forall (λ b, b ≠ 0) n.
Proof using Hat. intros Ep. eexists. by apply (getprop_place l n v r). Qed.

(** The name lies behind the tag of the node. *)
Lemma name_place :
  let s := fdt + image_struct r0 rsv + off + 4 in
  fdt_get_name m fdt off = Ok (s, Z.of_nat (length nm)) ∧ inside s (nm ++ [0]) ∧ Forall (λ b, b ≠ 0) nm.
Proof using Hat.
  destruct node_parts as (strings & xs & ps & ss & ys & Him & Hsz & -> & _).
  destruct (image_node_name _ _ _ _ _ _ _ _ _ Him Hsz xs nm _ eq_refl) as [_ Hg].
  cbv zeta. split; [exact Hg|]. pose proof (image_bounds _ _ _ _ _ _ _ _ _ Him Hsz) as Hbd.
  pose proof (im_items _ _ _ _ _ _ _ _ _ Him) as Hits. apply items_at_app in Hits as [_ [Hits _]].
  pose proof (im_ok _ _ _ _ _ _ _ _ _ Him) as Hok. apply Forall_app in Hok as [_ [[Hnz _] _]%Forall_cons].
  cbn [item_bytes] in Hits. rewrite !bytes_at_app, !length_be32 in Hits. destruct Hits as (_ & Hv & Hz).
  set (rest := ps ++ ss ++ IEnd :: ys) in *.
  rewrite items_size_app in Hbd. change (items_size (IBegin nm :: rest)) with (item_size (IBegin nm) + items_size rest) in Hbd.
  rewrite item_size_begin in Hbd. pose proof (items_size_pos xs). pose proof (items_size_pos rest).
  pose proof (align4_ge (Z.of_nat (length nm) + 1) ltac:(lia)). unfold inside, image_struct in *.
  rewrite length_app. cbn [length]. split_and!; [|lia..|done].
  rewrite bytes_at_app. change (Z.of_nat 4) with 4 in *. rewrite <- !Z.add_assoc in *. by split.
Qed.

Lemma name_here :
  ∃ s, fdt_get_name m fdt off = Ok (s, Z.of_nat (length nm)) ∧ inside s (nm ++ [0]) ∧ Forall (λ b, b ≠ 0) nm.
Proof using Hat. eexists. exact name_place. Qed.

(** The position of a subnode. *)
Lemma node_at_down l u r : subs = l ++ u :: r →
  node_at fdt size total r0 cpuid rsv m (Frame nm props l r :: c) u (off + sub_place nm props l) used.
Proof using Hat.
  intros Es. destruct Hat as (strings & xs & zs & ys & Him & Hx & Hz & Hy & -> & -> & Hsz & Hroot & Hrsv).
  apply node_items in Hz as (ps & ss & -> & Hp & Hss). rewrite Es, flat_map_app in Hss. cbn [flat_map] in Hss.
  apply spelled_app_inv in Hss as (sl & s2 & -> & Hl & H2). apply spelled_app_inv in H2 as (su & sr & -> & Hu & Hr).
  assert (xs ++ (IBegin nm :: ps ++ (sl ++ su ++ sr) ++ [IEnd]) ++ ys
    = (xs ++ (IBegin nm :: ps) ++ sl) ++ su ++ sr ++ IEnd :: ys) as E1 by (cbn [app]; rewrite <- !app_assoc; cbn [app]; by rewrite <- !app_assoc).
  exists strings, (xs ++ (IBegin nm :: ps) ++ sl), su, (sr ++ IEnd :: ys). rewrite <- E1. split_and!; try done.
  - cbn [ops_before f_name f_props f_left]. apply Forall2_app; [done|]. apply Forall2_app; [|done]. unfold node_ops. by constructor.
  - cbn [ops_after f_right]. apply Forall2_app; [done|]. by constructor.
  - rewrite app_assoc, items_size_app, (size_of_node _ xs ps props Hp), (spelled_size _ _ _ Hl). unfold sub_place. lia.
  - by rewrite <- Hroot, Es.
Qed.

(** ** The subnodes *)

(** The node as a stop of the walk. *)
Lemma stop_here :
  ∃ d depth l, readable_tree m fdt ∧ valid_tree m fdt ∧ at_node m fdt d depth l ∧ node_off d = off ∧
    read_tree m fdt d = DTree nm props subs ∧
    map node_off (node_subs d) = node_offs (λ _, 0) (off + sub_place nm props []) subs.
Proof using Hat.
  destruct node_parts as (strings & xs & ps & ss & ys & Him & Hsz & Eo & Hp & Hs & Hy).
  destruct (at_node_here _ _ _ _ _ _ _ _ _ Him Hsz c xs nm ps props ss subs ys eq_refl Hp Hs Hy)
    as (d & depth & l & Hd & Ed & Esub & Eoff).
  exists d, depth, l. rewrite Eo. split_and!; try done.
  - by eapply image_readable.
  - by eapply node_valid.
  - rewrite Eoff, (size_of_node _ xs ps props Hp). unfold sub_place. cbn [flat_map ops_size foldr]. by rewrite Z.add_0_r.
Qed.

Lemma first_subnode : fdt_first_subnode m fdt off = Ok (unless_done subs (off + sub_place nm props [])).
Proof using Hat.
  destruct stop_here as (d & depth & l & Hr & Hv & Hd & <- & _ & Eoff).
  by rewrite (first_subnode_ok m fdt Hr Hv d depth l Hd), (first_of_offs _ _ _ Eoff).
Qed.

Lemma next_subnode l u r : subs = l ++ u :: r →
  fdt_next_subnode m fdt (off + sub_place nm props l) = Ok (unless_done r (off + sub_place nm props (l ++ [u]))).
Proof using Hat.
  intros Es. destruct stop_here as (d & depth & w & Hr & Hv & Hd & _ & _ & Eoff).
  rewrite Es, node_offs_app in Eoff. apply map_eq_app in Eoff as (d1 & d2 & Ed & _ & E2).
  cbn [node_offs] in E2. apply map_eq_cons in E2 as (u' & d3 & -> & Eu & E3).
  destruct (sibling m fdt Hr Hv d depth w d1 u' d3 Hd Ed) as (l' & Hu & Hw).
  destruct (at_node_subs m fdt _ _ _ Hd) as [_ Hdepth].
  pose proof (next_subnode_ok m fdt Hr Hv u' depth l' Hu Hdepth) as Hn. rewrite Hw, Eu, (first_of_offs _ _ _ E3) in Hn.
  revert Hn. unfold sub_place. rewrite flat_map_app, ops_size_app. cbn [flat_map ops_size foldr].
  rewrite app_nil_r, Z.add_0_r, !Z.add_assoc. by intros ->.
Qed.

(** [fdt_subnode_offset] finds the first subnode whose name matches. *)
Lemma subnode_found s name l u r : subs = l ++ u :: r →
  existsb (λ t, name_matches name (root_name t)) l = false → name_matches name (root_name u) = true →
  strlen s m = Ok (Z.of_nat (length name)) → bytes_at m s name → 0 < s → s + Z.of_nat (length name) < 2 ^ 32 → Z.of_nat (length name) < 2 ^ 31 →
  fdt_subnode_offset m fdt off s = Ok (off + sub_place nm props l).
Proof using Hat.
  intros Es Hl Hu Hlen Hb Hs0 Hst Hn. destruct stop_here as (d & depth & w & Hr & Hv & Hd & Ed & Et & Eoff).
  assert (map (read_tree m fdt) (node_subs d) = subs) as Esub by (destruct d; by injection Et).
  unfold fdt_subnode_offset. rewrite Hlen. cbn [mbind res_bind]. rewrite s32_small by (unfold is_s32; lia).
  rewrite <- Ed at 1. rewrite (subnode_ok m fdt Hr Hv d depth w s name) by (done || lia). rewrite Es in *.
  rewrite (first_named_offs _ _ _ _ _ _ _ _ Esub Eoff Hl Hu). unfold sub_place. cbn [flat_map ops_size foldr]. f_equal. lia.
Qed.
End children.
