(* ===== verification/FdtPack.v ===== *)
(** What src/libfdt/fdt_rw.c promises, second part: opening a tree in a larger buffer,
    packing it, and the entries of its reservation map. *)
From S2P Require Import Prelude Machine Crt0 SampleTree Fdt FdtRo FdtCheck FdtTree FdtLookup FdtWrite FdtSw FdtRw FdtImage FdtBuild FdtFinish FdtRead FdtRoundtrip FdtEdit FdtNode.
From stdpp Require Import base list gmap.
From Stdlib Require Import ZArith Lia.
#[local] Open Scope Z_scope.

(* ------------------------------------------------------------------ *)
(** * Moving an image *)

Lemma words_at_shift m m' a ws d :
  words_at m a ws → (∀ x, a <= x < a + 4 * Z.of_nat (length ws) → m' !! (x + d) = m !! x) → words_at m' (a + d) ws.
Proof.
  intros Hw Hx i w Hi. pose proof (lookup_lt_Some _ _ _ Hi).
  replace (a + d + 4 * Z.of_nat i) with (a + 4 * Z.of_nat i + d) by lia.
  apply (bytes_at_shift m); [by apply Hw|]. intros x Hr. rewrite length_be32 in Hr. apply Hx. lia.
Qed.

Section move.
Context (m : mem) (fdt size total r0 cpuid : Z) (rsv : list (Z * Z)) (its : list item) (strings : list Z).
Context (Him : image total r0 cpuid rsv its strings m fdt size) (Hsz : total < INT_MAX).

#[local] Abbreviation strct := (image_struct r0 rsv).
#[local] Abbreviation strs := (image_strings r0 rsv its).
#[local] Abbreviation dsize := (image_strings r0 rsv its + Z.of_nat (length strings)).
#[local] Abbreviation bounds := (image_bounds m fdt size total r0 cpuid rsv its strings Him Hsz).

(** The same bytes elsewhere. *)
Lemma image_move m' buf bufsize :
  buffer m' buf bufsize → total <= bufsize <= INT_MAX →
  (∀ x, fdt <= x < fdt + total → m' !! (x + (buf - fdt)) = m !! x) →
  image total r0 cpuid rsv its strings m' buf bufsize.
Proof using Him Hsz.
  intros Hb Hbs Hx. pose proof bounds as Hbd.
  destruct Him as [_ Hf Hsize Hmap Hcpu Hits Hhd Hrsv Hat Hend Hstr].
  split; try done; try lia.
  - replace buf with (fdt + (buf - fdt)) by lia. apply (words_at_shift m); [done|].
    intros x Hr. cbn in Hr. apply Hx. lia.
  - replace (buf + r0) with (fdt + r0 + (buf - fdt)) by lia. apply (words_at_shift m); [done|].
    intros x Hr. rewrite length_rsv_words in Hr. apply Hx. lia.
  - replace (buf + strct) with (fdt + strct + (buf - fdt)) by lia. apply (items_at_shift m); [done|].
    intros x Hr. apply Hx. lia.
  - replace (buf + strct + items_size its) with (fdt + strct + items_size its + (buf - fdt)) by lia.
    apply (bytes_at_shift m); [done|]. intros x Hr. rewrite length_be32 in Hr. apply Hx. lia.
  - replace (buf + strs) with (fdt + strs + (buf - fdt)) by lia. apply (bytes_at_shift m); [done|].
    intros x Hr. apply Hx. lia.
Qed.

(** A header word is overwritten: everything behind the header stays. *)
Lemma image_rewrite m' total' :
  buffer m' fdt size → dsize <= total' <= size →
  words_at m' fdt (image_words total' r0 cpuid rsv its strings) →
  (∀ x, fdt + 40 <= x < fdt + dsize → m' !! x = m !! x) →
  image total' r0 cpuid rsv its strings m' fdt size.
Proof using Him Hsz.
  intros Hb Ht Hw Hx. pose proof bounds as Hbd.
  destruct Him as [_ Hf Hsize Hmap Hcpu Hits Hhd Hrsv Hat Hend Hstr]. split; try done.
  - apply (words_at_ext m); [|done]. intros x Hr. rewrite length_rsv_words in Hr. apply Hx. lia.
  - apply (items_at_ext m); [|done]. intros x Hr. apply Hx. lia.
  - apply (bytes_at_ext m); [|done]. intros x Hr. rewrite length_be32 in Hr. apply Hx. lia.
  - apply (bytes_at_ext m); [|done]. intros x Hr. apply Hx. lia.
Qed.

(** [fdt_set_...]: the word [i] of the header. *)
Lemma set_word m1 i v :
  buffer m1 fdt size → (i < 10)%nat → 40 <= size →
  let m2 := map_bytes (fdt + 4 * Z.of_nat i) (be32 v) m1 in
  fdt_set_header fdt (4 * Z.of_nat i) v m1 = Ok (tt, m2) ∧ buffer m2 fdt size ∧ same_outside fdt 40 m1 m2 ∧
  ∀ ws, words_at m1 fdt ws → words_at m2 fdt (<[i := v]> ws).
Proof using Type.
  intros Hb Hi Hs m2. destruct (buffer_header m1 fdt size i v Hb Hi Hs) as [Hb2 Hs2].
  split_and!; [by apply (set_header_map m1 fdt size)|done|done|]. intros ws Hw. by apply words_at_set.
Qed.
End move.

Lemma delete_beyond {A} i (l : list A) : (length l <= i)%nat → delete i l = l.
Proof. intros Hi. by rewrite delete_take_drop, take_ge, drop_ge, app_nil_r by lia. Qed.

(** The number of entries that [fdt_num_mem_rsv] counts is below their number. *)
Lemma num_mem_rsv_image m fdt size total r0 cpuid rsvs its strings :
  image total r0 cpuid (rsvs ++ [(0, 0)]) its strings m fdt size → total < INT_MAX →
  Forall (λ r, is_u64 r.1 ∧ is_u64 r.2) rsvs →
  ∃ n, fdt_num_mem_rsv m fdt = Ok n ∧ 0 <= n <= Z.of_nat (length rsvs) ∧
    (Forall (λ r, r.2 ≠ 0) rsvs → n = Z.of_nat (length rsvs)).
Proof.
  intros Him Hsz Hu. destruct (first_end rsvs) as (pre & a & post & E & Hpre).
  pose proof (image_num_mem_rsv _ _ _ _ _ _ _ _ _ Him Hsz pre a post E (rsvs_u64 _ Hu) Hpre) as Hn.
  assert (Z.of_nat (length pre) <= Z.of_nat (length rsvs)) as Hle.
  { apply (f_equal length) in E. rewrite !length_app in E. cbn [length] in E. lia. }
  exists (Z.of_nat (length pre)). split_and!; [done|lia|done|]. intros Hnz.
  destruct (decide (length pre < length rsvs)%nat) as [Hlt|]; [|lia]. exfalso.
  assert (rsvs !! length pre = Some (a, 0)) as Hl.
  { rewrite <- (lookup_app_l _ [(0, 0)]) by done. rewrite E. by apply list_lookup_middle. }
  by apply (Forall_lookup_1 _ _ _ _ Hnz Hl).
Qed.

Section open.
Context (m : mem) (fdt size total r0 cpuid : Z) (rsvs : list (Z * Z)) (its : list item) (strings : list Z).
#[local] Abbreviation rsv := (rsvs ++ [(0, 0)]).
Context (Him : image total r0 cpuid rsv its strings m fdt size) (Hsz : total < INT_MAX).
Context (Hu : Forall (λ r, is_u64 r.1 ∧ is_u64 r.2) rsvs).

#[local] Abbreviation strct := (image_struct r0 rsv).
#[local] Abbreviation strs := (image_strings r0 rsv its).
#[local] Abbreviation dsize := (image_strings r0 rsv its + Z.of_nat (length strings)).
#[local] Abbreviation bounds := (image_bounds m fdt size total r0 cpuid rsv its strings Him Hsz).

Lemma length_rsv : Z.of_nat (length rsv) = Z.of_nat (length rsvs) + 1.
Proof using Type. rewrite length_app. cbn [length]. lia. Qed.

Lemma in_order n k : 0 <= n <= 16 * Z.of_nat (length rsv) → k = items_size its + 4 → fdt_blocks_misordered_ fdt m n k = Ok false.
Proof using Him Hsz.
  intros Hn ->. pose proof bounds as Hbd. unfold fdt_blocks_misordered_.
  rewrite (get_rsvmap _ _ _ _ _ _ _ _ _ Him Hsz), (get_struct _ _ _ _ _ _ _ _ _ Him Hsz), (get_strings _ _ _ _ _ _ _ _ _ Him Hsz),
    (get_totalsize _ _ _ _ _ _ _ _ _ Him Hsz), (get_size_strings _ _ _ _ _ _ _ _ _ Him Hsz). cbn [mbind res_bind].
  change (FDT_ALIGN 40 8) with 40. rewrite !u32_small by (unfold is_u32; lia). f_equal. rewrite !orb_false_iff, !Z.ltb_ge. lia.
Qed.

Lemma move_ok buf bufsize :
  buffer m buf bufsize → 0 <= bufsize < INT_MAX →
  if total <=? bufsize then
    ∃ m', fdt_move m fdt buf bufsize = Ok (0, m') ∧ image total r0 cpuid rsv its strings m' buf bufsize ∧
      same_outside buf bufsize m m'
  else fdt_move m fdt buf bufsize = Ok (- FDT_ERR_NOSPACE, m).
Proof using Him Hsz.
  intros Hb Hbs. pose proof bounds as Hbd. unfold INT_MAX in *. pose proof (im_buffer _ _ _ _ _ _ _ _ _ Him) as Hbf.
  unfold fdt_move. destruct (Z.ltb_spec bufsize 0); [lia|]. unfold FDT_RO_PROBE.
  rewrite (image_probe _ _ _ _ _ _ _ _ _ Him Hsz). cbn [mbind res_bind]. destruct (Z.ltb_spec total 0); [lia|].
  rewrite (get_totalsize _ _ _ _ _ _ _ _ _ Him Hsz). cbn [mbind res_bind]. rewrite u32_small by (unfold is_u32; lia).
  destruct (Z.ltb_spec bufsize total), (Z.leb_spec total bufsize); try lia; [done|].
  destruct (mapped_bytes m fdt (Z.to_nat total)) as (bs & Hbs' & Hl).
  { rewrite Z2Nat.id by lia. eapply buffer_mapped; [done|lia|lia]. }
  assert (Z.of_nat (length bs) = total) as Hln by lia. destruct Hb as [Hb1 Hb2 [Hb3 Hb4] Hb5 Hb6].
  assert (Forall is_u8 bs) as Hub by (eapply bytes_at_u8; done).
  destruct (buffer_write m buf bufsize buf bs) as [Hbuf Hs]; [by split|done|lia|lia|].
  exists (map_bytes buf bs m). split_and!; [| |done].
  - rewrite <- Hln. rewrite memmove_map; [done|done|intros x Hx; apply Hb6; lia|done|lia..].
  - apply (image_move _ _ _ _ _ _ _ _ _ Him Hsz); [done|unfold INT_MAX; lia|]. intros x Hx.
    destruct (lookup_lt_is_Some_2 bs (Z.to_nat (x - fdt))) as [b Hbx]; [lia|].
    rewrite map_bytes_lookup, decide_True by lia. replace (x + (buf - fdt) - buf) with (x - fdt) by lia.
    rewrite Hbx, <- (Hbs' _ _ Hbx). f_equal. lia.
Qed.

(** [fdt_open_into] copies the tree into a buffer that it then fills. *)
Lemma open_into_ok buf bufsize :
  buffer m buf bufsize → 0 <= bufsize < INT_MAX →
  if total <=? bufsize then
    ∃ m', fdt_open_into fdt buf bufsize m = Ok (0, m') ∧ image bufsize r0 cpuid rsv its strings m' buf bufsize ∧
      same_outside buf bufsize m m'
  else fdt_open_into fdt buf bufsize m = Ok (- FDT_ERR_NOSPACE, m).
Proof using Him Hsz Hu.
  intros Hb Hbs. pose proof bounds as Hbd. pose proof length_rsv as Hlr. unfold fdt_open_into.
  rewrite (wbind_rd _ _ _ (u32 (fdt + total))) by (by rewrite (get_totalsize _ _ _ _ _ _ _ _ _ Him Hsz)).
  rewrite (wbind_rd _ _ _ _ (image_probe _ _ _ _ _ _ _ _ _ Him Hsz)). destruct (Z.ltb_spec total 0); [lia|].
  destruct (num_mem_rsv_image _ _ _ _ _ _ _ _ _ Him Hsz Hu) as (n & Hn & Hn1 & _).
  rewrite (wbind_rd _ _ _ _ Hn). destruct (Z.ltb_spec n 0); [lia|].
  rewrite (s32_small ((n + 1) * 16)) by (unfold is_s32; lia). rewrite (wbind_rd _ _ _ _ (get_version _ _ _ _ _ _ _ _ _ Him Hsz)).
  change (17 <=? 17) with true. cbv zeta iota.
  rewrite (wbind_rd _ _ _ (inl (items_size its + 4))).
  2: { rewrite (get_size_struct _ _ _ _ _ _ _ _ _ Him Hsz). cbn [mbind res_bind]. by rewrite s32_small by (unfold is_s32; lia). }
  cbv iota. rewrite (wbind_rd _ _ _ false) by (apply in_order; lia). cbn [negb].
  pose proof (move_ok buf bufsize Hb Hbs) as Hm. destruct (Z.leb_spec total bufsize).
  2: { by rewrite (wbind_ok _ _ _ _ _ Hm). }
  destruct Hm as (m1 & He & Him1 & Hs1). rewrite (wbind_ok _ _ _ _ _ He). cbn [Z.eqb negb].
  pose proof (im_header _ _ _ _ _ _ _ _ _ Him1) as Hw1. pose proof (im_buffer _ _ _ _ _ _ _ _ _ Him1) as Hb1.
  unfold INT_MAX in *. unfold fdt_set_version, fdt_set_size_dt_struct, fdt_set_totalsize.
  destruct (set_word buf bufsize m1 5 17 Hb1) as (E2 & Hb2 & Hs2 & Hw2); [lia|lia|]. specialize (Hw2 _ Hw1).
  set (m2 := map_bytes (buf + 4 * Z.of_nat 5) (be32 17) m1) in *. rewrite (wbind_ok _ _ _ _ _ E2).
  destruct (set_word buf bufsize m2 9 (items_size its + 4) Hb2) as (E3 & Hb3 & Hs3 & Hw3); [lia|lia|]. specialize (Hw3 _ Hw2).
  rewrite (u32_small (items_size its + 4)) by (unfold is_u32; lia).
  set (m3 := map_bytes (buf + 4 * Z.of_nat 9) _ m2) in *. rewrite (wbind_ok _ _ _ _ _ E3).
  destruct (set_word buf bufsize m3 1 bufsize Hb3) as (E4 & Hb4 & Hs4 & Hw4); [lia|lia|]. specialize (Hw4 _ Hw3).
  rewrite (u32_small bufsize) by (unfold is_u32; lia).
  set (m4 := map_bytes (buf + 4 * Z.of_nat 1) _ m3) in *. rewrite (wbind_ok _ _ _ _ _ E4).
  exists m4. split_and!; [done| |].
  - apply (image_rewrite _ _ _ _ _ _ _ _ _ Him1); [unfold INT_MAX; lia|done|lia|exact Hw4|].
    intros x Hx. rewrite Hs4, Hs3, Hs2 by lia. done.
  - intros x Hx. rewrite Hs4, Hs3, Hs2, Hs1 by lia. done.
Qed.

(** The blocks behind the header at another place, the header to match. *)
Lemma image_repack m' total' r0' :
  buffer m' fdt size → 40 <= r0' → r0' mod 8 = 0 →
  image_strings r0' rsv its + Z.of_nat (length strings) <= total' <= size →
  words_at m' fdt (image_words total' r0' cpuid rsv its strings) →
  (∀ x, fdt + r0 <= x < fdt + dsize → m' !! (x + (r0' - r0)) = m !! x) →
  image total' r0' cpuid rsv its strings m' fdt size.
Proof using Him Hsz.
  intros Hb Hr0 Hr8 Hfit Hw Hx. pose proof bounds as Hbd.
  assert (image_struct r0' rsv = strct + (r0' - r0)) as Es by (unfold image_struct; lia).
  assert (image_strings r0' rsv its = strs + (r0' - r0)) as Et by (unfold image_strings; lia).
  destruct Him as [_ Hf Hsize Hmap Hcpu Hits Hhd Hrsv Hat Hend Hstr].
  split; try done; rewrite ?Es, ?Et.
  - replace (fdt + r0') with (fdt + r0 + (r0' - r0)) by lia. apply (words_at_shift m); [done|].
    intros x Hr. rewrite length_rsv_words in Hr. apply Hx. lia.
  - rewrite Z.add_assoc. apply (items_at_shift m); [done|]. intros x Hr. apply Hx. lia.
  - replace (fdt + (strct + (r0' - r0)) + items_size its) with (fdt + strct + items_size its + (r0' - r0)) by lia.
    apply (bytes_at_shift m); [done|]. intros x Hr. rewrite length_be32 in Hr. apply Hx. lia.
  - rewrite Z.add_assoc. apply (bytes_at_shift m); [done|]. intros x Hr. apply Hx. lia.
Qed.

(** One block moved down inside the buffer. *)
Lemma block_step m1 dst src n :
  buffer m1 fdt size → 0 <= dst <= src → 0 <= n → src + n <= size →
  ∃ m2, memmove (fdt + dst) (fdt + src) n m1 = Ok (fdt + dst, m2) ∧ buffer m2 fdt size ∧
    (∀ x, x < fdt + dst ∨ fdt + dst + n <= x → m2 !! x = m1 !! x) ∧
    (∀ x, fdt + src <= x < fdt + src + n → m2 !! (x + (dst - src)) = m1 !! x).
Proof using Him Hsz.
  intros Hb Hd Hn Ht. pose proof bounds as Hbd.
  destruct (mapped_bytes m1 (fdt + src) (Z.to_nat n)) as (bs & Hbs & Hl).
  { rewrite Z2Nat.id by lia. eapply buffer_mapped; [done|lia|lia]. }
  assert (Z.of_nat (length bs) = n) as Hln by lia.
  assert (Forall is_u8 bs) as Hub by (eapply bytes_at_u8; [apply Hb|done]).
  destruct (buffer_write m1 fdt size (fdt + dst) bs) as [Hbuf Hs]; [done|done|lia|lia|].
  exists (map_bytes (fdt + dst) bs m1). split_and!; [|done| |].
  - rewrite <- Hln. apply memmove_map; [done|eapply buffer_mapped; [done|lia|lia]|done|lia..].
  - intros x Hx. apply map_bytes_other. lia.
  - intros x Hx. destruct (lookup_lt_is_Some_2 bs (Z.to_nat (x - (fdt + src)))) as [b Hbx]; [lia|].
    rewrite map_bytes_lookup, decide_True by lia.
    replace (x + (dst - src) - (fdt + dst)) with (x - (fdt + src)) by lia.
    rewrite Hbx, <- (Hbs _ _ Hbx). f_equal. lia.
Qed.

(** The three moves of [fdt_packblocks_] within the tree itself. *)
Lemma packblocks_ok n k l :
  n = 16 * Z.of_nat (length rsv) → k = items_size its + 4 → l = Z.of_nat (length strings) →
  ∃ m', fdt_packblocks_ fdt fdt n k l m = Ok (tt, m') ∧ buffer m' fdt size ∧ same_outside fdt size m m' ∧
    words_at m' fdt (image_words total 40 cpuid rsv its strings) ∧
    (∀ x, fdt + r0 <= x < fdt + dsize → m' !! (x + (40 - r0)) = m !! x).
Proof using Him Hsz.
  intros Hn Hk Hl. pose proof bounds as Hbd. pose proof (im_header _ _ _ _ _ _ _ _ _ Him) as Hw.
  unfold fdt_packblocks_. change (FDT_ALIGN 40 8) with 40. unfold fdt_set_off_mem_rsvmap, fdt_set_off_dt_struct,
    fdt_set_size_dt_struct, fdt_set_off_dt_strings, fdt_set_size_dt_strings.
  rewrite (s32_small (40 + n)), (s32_small (40 + n + k)) by (unfold is_s32; lia). cbv zeta.
  rewrite !(u32_small (fdt + _)), (u32_small n), (u32_small k), (u32_small l), (u32_small (40 + n)), (u32_small (40 + n + k))
    by (unfold is_u32; lia).
  (* the reservation map *)
  rewrite (wbind_rd _ _ _ _ (get_rsvmap _ _ _ _ _ _ _ _ _ Him Hsz)), (u32_small (fdt + r0)) by (unfold is_u32; lia).
  destruct (block_step m 40 r0 n) as (m1 & E1 & Hb1 & Ho1 & Hc1); [apply Him|lia..|].
  rewrite (wbind_ok _ _ _ _ _ E1).
  assert (words_at m1 fdt (image_words total r0 cpuid rsv its strings)) as Hw1.
  { apply (words_at_ext m); [|done]. intros x Hx. cbn in Hx. apply Ho1. lia. }
  destruct (set_word fdt size m1 4 40 Hb1) as (E2 & Hb2 & Hs2 & Hw2); [lia|lia|]. specialize (Hw2 _ Hw1).
  rewrite (wbind_ok _ _ _ _ _ E2). set (m2 := map_bytes (fdt + 4 * Z.of_nat 4) (be32 40) m1) in *.
  assert (fdt_off_dt_struct m2 fdt = Ok strct) as G2 by (apply (header_at _ fdt _ 2 strct Hw2); [done|unfold is_u32; lia|lia|lia]).
  (* the structure block *)
  rewrite (wbind_rd _ _ _ _ G2), (u32_small (fdt + strct)) by (unfold is_u32; lia).
  destruct (block_step m2 (40 + n) strct k) as (m3 & E3 & Hb3 & Ho3 & Hc3); [done|lia..|].
  rewrite (wbind_ok _ _ _ _ _ E3).
  assert (words_at m3 fdt (<[4%nat := 40]> (image_words total r0 cpuid rsv its strings))) as Hw3.
  { apply (words_at_ext m2); [|done]. intros x Hx. cbn in Hx. apply Ho3. lia. }
  destruct (set_word fdt size m3 2 (40 + n) Hb3) as (E4 & Hb4 & Hs4 & Hw4); [lia|lia|]. specialize (Hw4 _ Hw3).
  rewrite (wbind_ok _ _ _ _ _ E4). set (m4 := map_bytes (fdt + 4 * Z.of_nat 2) (be32 (40 + n)) m3) in *.
  destruct (set_word fdt size m4 9 k Hb4) as (E5 & Hb5 & Hs5 & Hw5); [lia|lia|]. specialize (Hw5 _ Hw4).
  rewrite (wbind_ok _ _ _ _ _ E5). set (m5 := map_bytes (fdt + 4 * Z.of_nat 9) (be32 k) m4) in *.
  assert (fdt_off_dt_strings m5 fdt = Ok strs) as G5 by (apply (header_at _ fdt _ 3 strs Hw5); [done|unfold is_u32; lia|lia|lia]).
  (* the strings *)
  rewrite (wbind_rd _ _ _ _ G5), (u32_small (fdt + strs)) by (unfold is_u32; lia).
  destruct (block_step m5 (40 + n + k) strs l) as (m6 & E6 & Hb6 & Ho6 & Hc6); [done|lia..|].
  rewrite (wbind_ok _ _ _ _ _ E6).
  assert (words_at m6 fdt (<[9%nat := k]> (<[2%nat := 40 + n]> (<[4%nat := 40]> (image_words total r0 cpuid rsv its strings))))) as Hw6.
  { apply (words_at_ext m5); [|done]. intros x Hx. cbn in Hx. apply Ho6. lia. }
  destruct (set_word fdt size m6 3 (40 + n + k) Hb6) as (E7 & Hb7 & Hs7 & Hw7); [lia|lia|]. specialize (Hw7 _ Hw6).
  rewrite (wbind_ok _ _ _ _ _ E7). set (m7 := map_bytes (fdt + 4 * Z.of_nat 3) (be32 (40 + n + k)) m6) in *.
  assert (fdt_size_dt_strings m7 fdt = Ok l) as G7
    by (rewrite Hl; apply (header_at _ fdt _ 8 _ Hw7); [done|unfold is_u32; lia|lia|lia]).
  rewrite (wbind_rd _ _ _ _ G7).
  destruct (set_word fdt size m7 8 l Hb7) as (E8 & Hb8 & Hs8 & Hw8); [lia|lia|]. specialize (Hw8 _ Hw7).
  eexists. split; [exact E8|]. set (m8 := map_bytes (fdt + 4 * Z.of_nat 8) (be32 l) m7) in *. split_and!; [done| | |].
  - intros x Hx. rewrite Hs8, Hs7, Ho6, Hs5, Hs4, Ho3, Hs2, Ho1 by lia. done.
  - assert (image_words total 40 cpuid rsv its strings = <[8%nat := l]> (<[3%nat := 40 + n + k]> (<[9%nat := k]>
      (<[2%nat := 40 + n]> (<[4%nat := 40]> (image_words total r0 cpuid rsv its strings)))))) as ->; [|done].
    unfold image_words. cbn [insert list_insert list_alter]. unfold image_strings, image_struct. repeat (f_equal; try lia).
  - intros x Hx. rewrite Hs8, Hs7 by lia. destruct (Z.lt_ge_cases x (fdt + strs)).
    + rewrite Ho6, Hs5, Hs4 by lia. destruct (Z.lt_ge_cases x (fdt + strct)).
      * rewrite Ho3, Hs2 by lia. apply Hc1. lia.
      * replace (40 - r0) with (40 + n - strct) by lia. rewrite Hc3, Hs2, Ho1 by lia. done.
    + replace (40 - r0) with (40 + n + k - strs) by lia. rewrite Hc6, Hs5, Hs4, Ho3, Hs2, Ho1 by lia. done.
Qed.

(** [fdt_pack]: nothing is left between the header and the blocks, nor behind them. *)
Lemma pack_ok :
  Forall (λ r, r.2 ≠ 0) rsvs →
  ∃ m', fdt_pack fdt m = Ok (0, m') ∧ same_outside fdt size m m' ∧
    image (dsize - (r0 - 40)) 40 cpuid rsv its strings m' fdt size.
Proof using Him Hsz Hu.
  intros Hnz. pose proof bounds as Hbd. pose proof length_rsv as Hlr.
  unfold fdt_pack. assert (rsv ≠ []) as Hne by (by destruct rsvs).
  rewrite (guard_rw _ _ _ _ _ _ _ _ _ Him Hsz) by done.
  destruct (num_mem_rsv_image _ _ _ _ _ _ _ _ _ Him Hsz Hu) as (n & Hn & _ & En). rewrite (En Hnz) in Hn. clear En n.
  rewrite (wbind_rd _ _ _ _ Hn). destruct (Z.ltb_spec (Z.of_nat (length rsvs)) 0); [lia|].
  rewrite <- Hlr. rewrite (s32_small (_ * 16)) by (unfold is_s32; lia).
  cbv zeta. rewrite (wbind_rd _ _ _ (items_size its + 4)).
  2: { rewrite (get_size_struct _ _ _ _ _ _ _ _ _ Him Hsz). cbn [mbind res_bind]. by rewrite s32_small by (unfold is_s32; lia). }
  rewrite (wbind_rd _ _ _ (Z.of_nat (length strings))).
  2: { rewrite (get_size_strings _ _ _ _ _ _ _ _ _ Him Hsz). cbn [mbind res_bind]. by rewrite s32_small by (unfold is_s32; lia). }
  destruct (packblocks_ok (Z.of_nat (length rsv) * 16) (items_size its + 4) (Z.of_nat (length strings)))
    as (m1 & E1 & Hb1 & Hs1 & Hw1 & Hc1); [lia|done|done|].
  rewrite (wbind_ok _ _ _ _ _ E1).
  assert (image_strings 40 rsv its = strs - (r0 - 40)) as Es by (unfold image_strings, image_struct; lia).
  rewrite (wbind_rd _ _ _ (dsize - (r0 - 40))).
  2: { assert (fdt_off_dt_strings m1 fdt = Ok (image_strings 40 rsv its)) as G3
         by (apply (header_at _ fdt _ 3 _ Hw1); [done|unfold is_u32; lia|lia|lia]).
       assert (fdt_size_dt_strings m1 fdt = Ok (Z.of_nat (length strings))) as G8
         by (apply (header_at _ fdt _ 8 _ Hw1); [done|unfold is_u32; lia|lia|lia]).
       unfold fdt_data_size_. rewrite G3, G8. cbn [mbind res_bind]. rewrite u32_small by (unfold is_u32; lia). f_equal. lia. }
  destruct (set_word fdt size m1 1 (dsize - (r0 - 40)) Hb1) as (E2 & Hb2 & Hs2 & Hw2); [lia|lia|]. specialize (Hw2 _ Hw1).
  unfold fdt_set_totalsize. rewrite (wbind_ok _ _ _ _ _ E2). eexists. split_and!; [done| |].
  - intros x Hx. rewrite Hs2, Hs1 by lia. done.
  - apply image_repack; [done|lia|done|lia|exact Hw2|]. intros x Hx. rewrite Hs2 by lia. by apply Hc1.
Qed.

(* ------------------------------------------------------------------ *)
(** * The reservation map *)

(** [fdt_splice_mem_rsv_]: entries [olds] make room for new ones. *)
Lemma splice_rsv r1 olds r2 newn :
  rsv = r1 ++ olds ++ r2 → 0 <= newn <= 1 →
  let p0 := fdt + r0 + 16 * Z.of_nat (length r1) in
  let d := 16 * (newn - Z.of_nat (length olds)) in
  if dsize + d <=? total then
    ∃ m1, fdt_splice_mem_rsv_ fdt p0 (Z.of_nat (length olds)) newn m = Ok (0, m1) ∧ buffer m1 fdt size ∧
      same_outside fdt size m m1 ∧
      ∀ m2 news, buffer m2 fdt size → Z.of_nat (length news) = newn → words_at m2 p0 (flat_map rsv_words news) →
        (∀ x, x < p0 ∨ p0 + 16 * newn <= x → m2 !! x = m1 !! x) →
        image total r0 cpuid (r1 ++ news ++ r2) its strings m2 fdt size
  else fdt_splice_mem_rsv_ fdt p0 (Z.of_nat (length olds)) newn m = Ok (- FDT_ERR_NOSPACE, m).
Proof using Him Hsz.
  intros Er Hn p0 d. pose proof bounds as Hbd.
  assert (Z.of_nat (length rsv) = Z.of_nat (length r1) + Z.of_nat (length olds) + Z.of_nat (length r2)) as El
    by (rewrite Er, !length_app; lia).
  pose proof (splice_ok _ _ _ _ _ _ _ _ _ Him Hsz p0 (16 * Z.of_nat (length olds)) (16 * newn)) as Hsp.
  specialize (Hsp ltac:(unfold p0; lia) ltac:(lia) ltac:(lia) ltac:(unfold p0; lia)).
  replace (dsize - 16 * Z.of_nat (length olds) + 16 * newn) with (dsize + d) in Hsp by (unfold d; lia).
  unfold fdt_splice_mem_rsv_. rewrite (s32_small ((newn - _) * 16)) by (unfold is_s32; lia).
  rewrite (s32_small (Z.of_nat (length olds) * 16)), (s32_small (newn * 16)) by (unfold is_s32; lia). cbv zeta.
  rewrite (Z.mul_comm (Z.of_nat (length olds)) 16), (Z.mul_comm newn 16), (Z.mul_comm (newn - _) 16). fold d.
  destruct (Z.leb_spec (dsize + d) total) as [Hle|]; [|by rewrite (wbind_ok _ _ _ _ _ Hsp)].
  destruct Hsp as (m1 & He & Hb1 & [Hbef Haft Htl]). rewrite (wbind_ok _ _ _ _ _ He). cbn [Z.eqb negb].
  assert (words_at m1 fdt (image_words total r0 cpuid rsv its strings)) as Hw1.
  { apply (words_at_ext m); [|apply Him]. intros x Hx. cbn in Hx. apply Hbef. unfold p0. lia. }
  assert (fdt_off_dt_struct m1 fdt = Ok strct) as G1 by (apply (header_at _ fdt _ 2 _ Hw1); [done|unfold is_u32; lia|lia|lia]).
  rewrite (wbind_rd _ _ _ _ G1), (u32_small (strct + d)) by (unfold is_u32, d; lia).
  destruct (set_word fdt size m1 2 (strct + d) Hb1) as (E2 & Hb2 & Hs2 & Hw2); [lia|lia|]. specialize (Hw2 _ Hw1).
  unfold fdt_set_off_dt_struct, fdt_set_off_dt_strings. rewrite (wbind_ok _ _ _ _ _ E2).
  set (m2 := map_bytes (fdt + 4 * Z.of_nat 2) _ m1) in *.
  assert (fdt_off_dt_strings m2 fdt = Ok strs) as G2 by (apply (header_at _ fdt _ 3 _ Hw2); [done|unfold is_u32; lia|lia|lia]).
  rewrite (wbind_rd _ _ _ _ G2), (u32_small (strs + d)) by (unfold is_u32, d; lia).
  destruct (set_word fdt size m2 3 (strs + d) Hb2) as (E3 & Hb3 & Hs3 & Hw3); [lia|lia|]. specialize (Hw3 _ Hw2).
  rewrite (wbind_ok _ _ _ _ _ E3). set (m3 := map_bytes (fdt + 4 * Z.of_nat 3) _ m2) in *.
  exists m3. split_and!; [done|done| |].
  - intros x Hx. rewrite Hs3, Hs2 by lia. destruct (decide (x < fdt)); [apply Hbef; unfold p0; lia|apply Haft; lia].
  - intros m4 news Hb4 Hnn Hnews Ho.
    assert (∀ x, fdt + 40 <= x < p0 → m4 !! x = m !! x) as Hfront.
    { intros x Hx. rewrite Ho, Hs3, Hs2 by lia. apply Hbef. lia. }
    assert (∀ x, p0 + 16 * Z.of_nat (length olds) <= x < fdt + dsize → m4 !! (x + d) = m !! x) as Htail.
    { intros x Hx. rewrite Ho, Hs3, Hs2 by (unfold p0, d in *; lia).
      replace (x + d) with (x + 16 * newn - 16 * Z.of_nat (length olds)) by (unfold d; lia). by apply Htl. }
    assert (image_struct r0 (r1 ++ news ++ r2) = strct + d) as Es
      by (unfold image_struct, d; rewrite (length_app r1), (length_app news); lia).
    assert (image_strings r0 (r1 ++ news ++ r2) its = strs + d) as Et by (unfold image_strings; lia).
    destruct Him as [_ Hf Hsize Hmap Hcpu Hits Hhd Hrsv Hat Hend Hstr]. rewrite Er in Hrsv.
    rewrite !flat_map_app, !words_at_app, !length_rsv_words in Hrsv. destruct Hrsv as (Hr1 & _ & Hr2).
    split; try done; rewrite ?Es, ?Et; [lia| | | | |].
    + assert (image_words total r0 cpuid (r1 ++ news ++ r2) its strings =
        <[3%nat := strs + d]> (<[2%nat := strct + d]> (image_words total r0 cpuid rsv its strings))) as ->.
      { unfold image_words. cbn [insert list_insert list_alter]. by rewrite Es, Et. }
      apply (words_at_ext m3); [|done]. intros x Hx. cbn in Hx. apply Ho. unfold p0. lia.
    + rewrite !flat_map_app, !words_at_app, !length_rsv_words. split_and!.
      * apply (words_at_ext m); [|done]. intros x Hx. rewrite length_rsv_words in Hx. apply Hfront. unfold p0. lia.
      * by replace (fdt + r0 + 4 * Z.of_nat (4 * length r1)) with p0 by (unfold p0; lia).
      * replace (fdt + r0 + 4 * Z.of_nat (4 * length r1) + 4 * Z.of_nat (4 * length news)) with
          (fdt + r0 + 4 * Z.of_nat (4 * length r1) + 4 * Z.of_nat (4 * length olds) + d) by (unfold d; lia).
        apply (words_at_shift m); [done|]. intros x Hx. rewrite length_rsv_words in Hx. apply Htail. unfold p0. lia.
    + rewrite Z.add_assoc. apply (items_at_shift m); [done|]. intros x Hx. apply Htail. unfold p0. lia.
    + replace (fdt + (strct + d) + items_size its) with (fdt + strct + items_size its + d) by lia.
      apply (bytes_at_shift m); [done|]. intros x Hx. rewrite length_be32 in Hx. apply Htail. unfold p0. lia.
    + rewrite Z.add_assoc. apply (bytes_at_shift m); [done|]. intros x Hx. apply Htail. unfold p0. lia.
Qed.

Lemma mem_rsv_w i : 0 <= i < Z.of_nat (length rsv) → fdt_mem_rsv_w_ fdt m i = Ok (fdt + r0 + 16 * i).
Proof using Him Hsz.
  intros Hi. pose proof bounds as Hbd. unfold fdt_mem_rsv_w_. rewrite (get_rsvmap _ _ _ _ _ _ _ _ _ Him Hsz).
  cbn [mbind res_bind]. by rewrite u32_small by (unfold is_u32; lia).
Qed.

Lemma rsv_address i : 0 <= i → (fdt + r0 + 16 * i) mod 4 = 0.
Proof using Him Hsz.
  pose proof bounds as (_ & H8 & _ & _ & _ & R8 & _). intros _. clear - H8 R8. Z.div_mod_to_equations; lia.
Qed.

Lemma add_mem_rsv_ok addr len :
  Forall (λ r, r.2 ≠ 0) rsvs →
  if dsize + 16 <=? total then
    ∃ m', fdt_add_mem_rsv fdt addr len m = Ok (0, m') ∧ same_outside fdt size m m' ∧
      image total r0 cpuid (rsvs ++ [(addr, len); (0, 0)]) its strings m' fdt size
  else fdt_add_mem_rsv fdt addr len m = Ok (- FDT_ERR_NOSPACE, m).
Proof using Him Hsz Hu.
  intros Hnz. pose proof bounds as Hbd. pose proof length_rsv as Hlr. pose proof (rsv_address (Z.of_nat (length rsvs)) ltac:(lia)) as H4.
  unfold fdt_add_mem_rsv. assert (rsv ≠ []) as Hne by (by destruct rsvs).
  rewrite (guard_rw _ _ _ _ _ _ _ _ _ Him Hsz) by done.
  destruct (num_mem_rsv_image _ _ _ _ _ _ _ _ _ Him Hsz Hu) as (n & Hn & _ & En). rewrite (En Hnz) in Hn. clear En n.
  rewrite (wbind_rd _ _ _ _ Hn). destruct (Z.ltb_spec (Z.of_nat (length rsvs)) 0); [lia|].
  rewrite (wbind_rd _ _ _ _ (mem_rsv_w (Z.of_nat (length rsvs)) ltac:(lia))).
  set (re := fdt + r0 + 16 * Z.of_nat (length rsvs)) in *.
  pose proof (splice_rsv rsvs [] [(0, 0)] 1 eq_refl ltac:(lia)) as Hsp. cbv zeta in Hsp. fold re in Hsp.
  change (Z.of_nat (length [])) with 0 in Hsp. change (16 * (1 - 0)) with 16 in Hsp.
  destruct (Z.leb_spec (dsize + 16) total).
  2: { by rewrite (wbind_ok _ _ _ _ _ Hsp). }
  destruct Hsp as (m1 & He & Hb1 & Hs1 & Hre). rewrite (wbind_ok _ _ _ _ _ He). cbn [Z.eqb negb].
  destruct (rsv_put_ok m1 fdt size re (addr, len) Hb1 H4) as (m2 & Hput & Hb2 & Hs2 & Hw2); [unfold re; lia|unfold re; lia|].
  exists m2. split_and!.
  - revert Hput. clear. unfold mbind, W_bind. cbn [fst snd]. destruct (fdt64_put re addr m1) as [[? ?]| |]; [|done..].
    by intros ->.
  - intros x Hx. rewrite Hs2, Hs1; [done|done|unfold re; lia].
  - apply (Hre m2 [(addr, len)]); [done|done| |].
    + cbn [flat_map]. by rewrite app_nil_r.
    + intros x Hx. apply Hs2. lia.
Qed.

Lemma del_mem_rsv_ok i :
  Forall (λ r, r.2 ≠ 0) rsvs → 0 <= i <= Z.of_nat (length rsvs) →
  ∃ m', fdt_del_mem_rsv fdt i m = Ok (if i <? Z.of_nat (length rsvs) then 0 else - FDT_ERR_NOTFOUND, m') ∧
    same_outside fdt size m m' ∧ image total r0 cpuid (delete (Z.to_nat i) rsvs ++ [(0, 0)]) its strings m' fdt size.
Proof using Him Hsz Hu.
  intros Hnz Hi. pose proof bounds as Hbd. pose proof length_rsv as Hlr.
  unfold fdt_del_mem_rsv. rewrite (wbind_rd _ _ _ _ (mem_rsv_w i ltac:(lia))). assert (rsv ≠ []) as Hne by (by destruct rsvs).
  rewrite (guard_rw _ _ _ _ _ _ _ _ _ Him Hsz) by done.
  destruct (num_mem_rsv_image _ _ _ _ _ _ _ _ _ Him Hsz Hu) as (n & Hn & _ & En). rewrite (En Hnz) in Hn. clear En n.
  rewrite (wbind_rd _ _ _ _ Hn). destruct (Z.ltb_spec (Z.of_nat (length rsvs)) 0); [lia|].
  destruct (Z.leb_spec (Z.of_nat (length rsvs)) i), (Z.ltb_spec i (Z.of_nat (length rsvs))); try lia.
  { exists m. rewrite delete_beyond by lia. by split_and!. }
  destruct (lookup_lt_is_Some_2 rsvs (Z.to_nat i)) as [e Hei]; [lia|].
  assert (rsv = take (Z.to_nat i) rsvs ++ [e] ++ drop (S (Z.to_nat i)) rsvs ++ [(0, 0)]) as Er.
  { rewrite <- (take_drop_middle _ _ _ Hei) at 1. by rewrite <- app_assoc. }
  pose proof (splice_rsv _ [e] _ 0 Er ltac:(lia)) as Hsp. cbv zeta in Hsp. rewrite length_take_le in Hsp by lia.
  rewrite Z2Nat.id in Hsp by lia. change (Z.of_nat (length [e])) with 1 in Hsp. change (16 * (0 - 1)) with (-16) in Hsp.
  destruct (Z.leb_spec (dsize + -16) total); [|lia]. destruct Hsp as (m1 & He & Hb1 & Hs1 & Hre).
  exists m1. split_and!; [exact He|done|].
  rewrite delete_take_drop, <- app_assoc. apply (Hre m1 []); [done|done| |done]. by intros [|?].
Qed.
End open.

(* ------------------------------------------------------------------ *)
(** * The tree of a position *)

Section positions.
Context (m : mem) (fdt size total r0 cpuid : Z) (rsvs : list (Z * Z)) (c : list frame) (t : dtree) (off used : Z).
Context (Hat : node_at fdt size total r0 cpuid (rsvs ++ [(0, 0)]) m c t off used).

(** C27: [fdt_open_into] copies a tree into another buffer, or extends it in its own, up
    to the size of the buffer; a buffer that is too small is left alone. *)
Theorem fdt_open_into_spec buf bufsize :
  buffer m buf bufsize → 0 <= bufsize < INT_MAX →
  if total <=? bufsize then
    ∃ m', fdt_open_into fdt buf bufsize m = Ok (0, m') ∧ same_outside buf bufsize m m' ∧
      node_at buf bufsize bufsize r0 cpuid (rsvs ++ [(0, 0)]) m' c t off used
  else fdt_open_into fdt buf bufsize m = Ok (- FDT_ERR_NOSPACE, m).
Proof using Hat.
  intros Hb Hbs. destruct Hat as (strings & xs & zs & ys & Him & Hx & Hz & Hy & Eo & Eu & Hsz & Hroot & rsvs' & [-> _]%app_inj_tail & Hu).
  pose proof (open_into_ok _ _ _ _ _ _ _ _ _ Him Hsz Hu buf bufsize Hb Hbs) as Ho.
  destruct (total <=? bufsize); [|done]. destruct Ho as (m' & He & Him' & Hs). exists m'. split_and!; [done|done|].
  exists strings, xs, zs, ys. split_and!; try done; [lia|by exists rsvs'].
Qed.

(** [fdt_pack] leaves the tree as it is, and no byte of its [totalsize] unused: the
    reservation map follows the header, and the tree ends with its strings. *)
Theorem fdt_pack_spec :
  Forall (λ r, r.2 ≠ 0) rsvs →
  ∃ m' used', fdt_pack fdt m = Ok (0, m') ∧ same_outside fdt size m m' ∧ used' = used - (r0 - 40) ∧
    node_at fdt size used' 40 cpuid (rsvs ++ [(0, 0)]) m' c t off used'.
Proof using Hat.
  intros Hnz. destruct Hat as (strings & xs & zs & ys & Him & Hx & Hz & Hy & Eo & Eu & Hsz & Hroot & rsvs' & [-> _]%app_inj_tail & Hu).
  pose proof (image_bounds _ _ _ _ _ _ _ _ _ Him Hsz) as Hbd.
  destruct (pack_ok _ _ _ _ _ _ _ _ _ Him Hsz Hu Hnz) as (m' & He & Hs & Him'). rewrite <- Eu in Him'.
  exists m', (used - (r0 - 40)). split_and!; [done|done|done|].
  exists strings, xs, zs, ys. split_and!; try done.
  - rewrite Eu. unfold image_strings, image_struct. lia.
  - unfold INT_MAX. lia.
  - by exists rsvs'.
Qed.

(** [fdt_add_mem_rsv] adds an entry at the end of the reservation map, or has no
    space for it; [fdt_del_mem_rsv] takes an entry out.  The tree stays. *)
Theorem fdt_mem_rsv_edits :
  Forall (λ r, r.2 ≠ 0) rsvs →
  (∀ addr len, is_u64 addr → is_u64 len →
     if used + 16 <=? total then
       ∃ m', fdt_add_mem_rsv fdt addr len m = Ok (0, m') ∧ same_outside fdt size m m' ∧
         node_at fdt size total r0 cpuid ((rsvs ++ [(addr, len)]) ++ [(0, 0)]) m' c t off (used + 16)
     else fdt_add_mem_rsv fdt addr len m = Ok (- FDT_ERR_NOSPACE, m)) ∧
  ∀ i, 0 <= i <= Z.of_nat (length rsvs) →
    ∃ m' used', fdt_del_mem_rsv fdt i m = Ok (if i <? Z.of_nat (length rsvs) then 0 else - FDT_ERR_NOTFOUND, m') ∧
      same_outside fdt size m m' ∧ used' <= used ∧
      node_at fdt size total r0 cpuid (delete (Z.to_nat i) rsvs ++ [(0, 0)]) m' c t off used'.
Proof using Hat.
  intros Hnz. destruct Hat as (strings & xs & zs & ys & Him & Hx & Hz & Hy & Eo & Eu & Hsz & Hroot & rsvs' & [-> _]%app_inj_tail & Hu).
  split.
  - intros addr len Ha Hl. pose proof (add_mem_rsv_ok _ _ _ _ _ _ _ _ _ Him Hsz Hu addr len Hnz) as Hadd. rewrite <- Eu in Hadd.
    destruct (used + 16 <=? total); [|done]. destruct Hadd as (m' & He & Hs & Him'). exists m'. split_and!; [done|done|].
    rewrite <- app_assoc. cbn [app]. exists strings, xs, zs, ys. split_and!; try done.
    + rewrite Eu. unfold image_strings, image_struct. rewrite !length_app. cbn [length]. lia.
    + exists (rsvs' ++ [(addr, len)]). split; [by rewrite <- app_assoc|]. apply Forall_app. split; [done|]. by constructor.
  - intros i Hi. destruct (del_mem_rsv_ok _ _ _ _ _ _ _ _ _ Him Hsz Hu i Hnz Hi) as (m' & He & Hs & Him').
    exists m'. eexists. split_and!; [done|done| |exists strings, xs, zs, ys; split_and!; try done].
    + rewrite Eu. unfold image_strings, image_struct. rewrite !length_app.
      destruct (decide (Z.to_nat i < length rsvs')%nat); [|rewrite delete_beyond by lia; lia].
      destruct (lookup_lt_is_Some_2 rsvs' (Z.to_nat i)) as [e Hei]; [done|].
      rewrite (length_delete _ _ (mk_is_Some _ _ Hei)). lia.
    + exists (delete (Z.to_nat i) rsvs'). split; [done|]. by apply Forall_delete.
Qed.
End positions.

(* ------------------------------------------------------------------ *)
(** * An empty tree *)

(** A call of fdt_sw.c, and the rest if it succeeds. *)
Lemma and_then_step fdt m st op (rest : W Z) :
  rep m fdt st → op_input m fdt (b_size st) op →
  ∃ m', same_outside fdt (b_size st) m m' ∧ rep m' fdt (build_step st op).2 ∧
    and_then (run_op fdt op) rest m =
    if (build_step st op).1 =? 0 then rest m' else Ok ((build_step st op).1, m').
Proof.
  intros Hrep Hop. destruct (run_op_refines m fdt st op Hrep Hop) as (m' & He & Hrep' & Hs).
  exists m'. split_and!; [done|done|]. unfold and_then. rewrite (wbind_ok _ _ _ _ _ He).
  by destruct (Z.eqb_spec (build_step st op).1 0).
Qed.

Lemma create_empty_tree_ok `{Platform} m buf bufsize :
  buffer m buf bufsize → 0 <= bufsize < INT_MAX →
  c_name m (rodata "") [] → apart (rodata "") 1 buf bufsize →
  ∃ m', fdt_create_empty_tree buf bufsize m = Ok (if 80 <=? bufsize then 0 else - FDT_ERR_NOSPACE, m') ∧
    same_outside buf bufsize m m' ∧
    (80 <= bufsize → node_at buf bufsize bufsize 48 0 [(0, 0)] m' [] (DTree [] [] []) 0 80).
Proof.
  intros Hb Hsz Hname Hap. unfold INT_MAX in Hsz. unfold fdt_create_empty_tree.
  destruct (Z.lt_ge_cases bufsize 48) as [H48|H48].
  { exists m. split_and!; [|done|lia]. destruct (Z.leb_spec 80 bufsize); [lia|].
    unfold and_then at 1, fdt_create, fdt_create_with_flags. change (FDT_ALIGN 40 16) with 48.
    by destruct (Z.ltb_spec bufsize 48); [|lia]. }
  destruct (create_ok m buf bufsize 0 Hb ltac:(unfold INT_MAX; lia) ltac:(by left)) as (m1 & He1 & Hrep1 & Hs1).
  cbn [fst snd] in He1, Hrep1. unfold and_then at 1. unfold fdt_create. rewrite (wbind_ok _ _ _ _ _ He1). cbn [Z.eqb negb].
  assert (∀ rc m', (80 <=? bufsize) = false → rc = - FDT_ERR_NOSPACE → same_outside buf bufsize m m' →
    ∃ m'', Ok (rc, m') = Ok (if 80 <=? bufsize then 0 else - FDT_ERR_NOSPACE, m'') ∧ same_outside buf bufsize m m'' ∧
      (80 <= bufsize → node_at buf bufsize bufsize 48 0 [(0, 0)] m'' [] (DTree [] [] []) 0 80)) as Hfail.
  { intros rc m' E -> Hs. exists m'. rewrite E. split_and!; [done|done|]. apply Z.leb_gt in E. lia. }
  set (st0 := new_builder bufsize 0) in *.
  destruct (and_then_step buf m1 st0 FinishReservemap (and_then (fdt_begin_node buf (rodata "")) (and_then (fdt_end_node buf)
    (and_then (fdt_finish buf) (fdt_open_into buf buf bufsize)))) Hrep1 I) as (m2 & Hs2 & Hrep2 & He2).
  cbn [run_op] in He2. rewrite He2. clear He2.
  change (build_step st0 FinishReservemap) with
    (if 64 <=? bufsize then (0, Builder bufsize 0 true [(0, 0)] [] []) else (- FDT_ERR_NOSPACE, st0)) in *.
  change (b_size st0) with bufsize in Hs2. assert (same_outside buf bufsize m m2) as Hs02 by (intros x Hx; by rewrite Hs2, Hs1).
  destruct (Z.leb_spec 64 bufsize); cbn [fst snd] in *; [|apply Hfail; [apply Z.leb_gt; lia|done|done]].
  cbn [Z.eqb]. set (st1 := Builder bufsize 0 true [(0, 0)] [] []) in *.
  assert (∀ m', same_outside buf bufsize m m' → op_input m' buf (b_size st1) (BeginNode (rodata "") [])) as Hin.
  { intros m' Hs. apply (op_input_outside m); [|exact Hs]. cbn. by split_and!. }
  destruct (and_then_step buf m2 st1 (BeginNode (rodata "") []) (and_then (fdt_end_node buf)
    (and_then (fdt_finish buf) (fdt_open_into buf buf bufsize))) Hrep2 (Hin m2 Hs02)) as (m3 & Hs3 & Hrep3 & He3).
  cbn [run_op] in He3. rewrite He3. clear He3.
  change (build_step st1 (BeginNode (rodata "") [])) with
    (if 72 <=? bufsize then (0, Builder bufsize 0 true [(0, 0)] [IBegin []] []) else (- FDT_ERR_NOSPACE, st1)) in *.
  change (b_size st1) with bufsize in Hs3. assert (same_outside buf bufsize m m3) as Hs03 by (intros x Hx; by rewrite Hs3, Hs02).
  destruct (Z.leb_spec 72 bufsize); cbn [fst snd] in *; [|apply Hfail; [apply Z.leb_gt; lia|done|done]].
  cbn [Z.eqb]. set (st2 := Builder bufsize 0 true [(0, 0)] [IBegin []] []) in *.
  destruct (and_then_step buf m3 st2 EndNode (and_then (fdt_finish buf) (fdt_open_into buf buf bufsize)) Hrep3 I) as (m4 & Hs4 & Hrep4 & He4).
  cbn [run_op] in He4. rewrite He4. clear He4.
  change (build_step st2 EndNode) with
    (if 76 <=? bufsize then (0, Builder bufsize 0 true [(0, 0)] [IBegin []; IEnd] []) else (- FDT_ERR_NOSPACE, st2)) in *.
  change (b_size st2) with bufsize in Hs4. assert (same_outside buf bufsize m m4) as Hs04 by (intros x Hx; by rewrite Hs4, Hs03).
  destruct (Z.leb_spec 76 bufsize); cbn [fst snd] in *; [|apply Hfail; [apply Z.leb_gt; lia|done|done]].
  cbn [Z.eqb]. set (st3 := Builder bufsize 0 true [(0, 0)] [IBegin []; IEnd] []) in *.
  pose proof (finish_result m4 buf st3 Hrep4) as Hfin. change (b_open st3) with true in Hfin. change (has_room st3 4) with (80 <=? bufsize) in Hfin.
  unfold and_then. destruct (80 <=? bufsize) eqn:E80; cbv iota in Hfin.
  2: { rewrite (wbind_ok _ _ _ _ _ Hfin). by apply Hfail. }
  apply Z.leb_le in E80. destruct Hfin as (m5 & He5 & Hs5 & Him5). rewrite (wbind_ok _ _ _ _ _ He5). cbn [Z.eqb negb].
  change (b_size st3) with bufsize in *. change (fix_item (b_strlen st3) <$> b_items st3) with [IBegin []; IEnd] in Him5.
  change (b_strings st3) with (@nil Z) in Him5. change (b_rsv st3) with ([] ++ [(0, 0)]) in Him5. unfold finished in Him5.
  change (image_strings _ _ _ + _) with 80 in Him5.
  pose proof (open_into_ok _ _ _ _ _ _ [] _ _ Him5 ltac:(unfold INT_MAX; lia) ltac:(constructor) buf bufsize
    (im_buffer _ _ _ _ _ _ _ _ _ Him5) ltac:(unfold INT_MAX; lia)) as Ho.
  destruct (Z.leb_spec 80 bufsize); [|lia]. destruct Ho as (m6 & He6 & Him6 & Hs6). exists m6. split_and!; [exact He6| |].
  - intros x Hx. rewrite Hs6, Hs5 by done. by apply Hs04.
  - intros _. exists [], [], [IBegin []; IEnd], []. split_and!; try done.
    + by repeat constructor.
    + unfold INT_MAX. lia.
    + by exists [].
Qed.

(** [fdt_create_empty_tree] leaves the tree of one root without properties, which fills
    the buffer with its [totalsize]; it needs 80 bytes. *)
Theorem fdt_create_empty_tree_spec `{Platform} m buf bufsize :
  buffer m buf bufsize → 0 <= bufsize < INT_MAX →
  c_name m (rodata "") [] → apart (rodata "") 1 buf bufsize →
  ∃ m', fdt_create_empty_tree buf bufsize m = Ok (if 80 <=? bufsize then 0 else - FDT_ERR_NOSPACE, m') ∧
    same_outside buf bufsize m m' ∧
    (80 <= bufsize → node_at buf bufsize bufsize 48 0 [(0, 0)] m' [] (DTree [] [] []) 0 80).
Proof. apply create_empty_tree_ok. Qed.

(* ------------------------------------------------------------------ *)
(** * Examples *)

(** The literals, and an empty string at the end of one. *)
Definition edit_platform : Platform := {|
  ndebug := false;
  kernel_physical_start := 0x80000000;
  kernel_physical_end := 0x80006000;
  m_mode_handle_addr := 0x80000400;
  s_mode_handle_addr := 0x80000500;
  test_addr := 0x80000600;
  hw_clint := 0x2000000;
  rodata := λ s, if String.eqb s "" then 0x1007 else place_literal literals 0x1000 s
|}.

Lemma empty_string_arg size : c_name sw_memory (@rodata edit_platform "") [] ∧ apart (@rodata edit_platform "") 1 tree_addr size.
Proof. split; [apply memory_string; vm_compute; reflexivity|]. left. vm_compute. discriminate. Qed.

(** An empty tree of [size] bytes. *)
Lemma empty_sample size :
  80 <= size <= 512 →
  ∃ m, node_at tree_addr size size 48 0 [(0, 0)] m [] (DTree [] [] []) 0 80 ∧ same_outside tree_addr size sw_memory m.
Proof.
  intros Hs. destruct (empty_string_arg size) as [H1 H2].
  destruct (@create_empty_tree_ok edit_platform sw_memory tree_addr size) as (m & _ & Ho & Hat);
    [apply sw_buffer; lia|unfold INT_MAX; lia|exact H1|exact H2|].
  exists m. split; [apply Hat; lia|exact Ho].
Qed.

(** The rest of the memory is as good as it was. *)
Lemma buffer_beside m m' fdt size b n :
  buffer m b n → buffer m' fdt size → same_outside fdt size m m' → buffer m' b n.
Proof.
  intros [_ _ Hb Ht Hm] [Hb' Hw' _ _ Hm'] Hs. split; try done.
  intros x Hx. destruct (decide (fdt <= x < fdt + size)) as [Hin|Hout]; [by apply Hm'|].
  rewrite Hs by lia. by apply Hm.
Qed.

Lemma fdt_create_empty_tree_spec_witness :
  ∃ m', @fdt_create_empty_tree edit_platform tree_addr 512 sw_memory = Ok (0, m') ∧
    node_at tree_addr 512 512 48 0 [(0, 0)] m' [] (DTree [] [] []) 0 80.
Proof.
  destruct (empty_string_arg 512) as [H1 H2].
  destruct (@fdt_create_empty_tree_spec edit_platform sw_memory tree_addr 512) as (m & He & _ & Hat);
    [apply sw_buffer; lia|unfold INT_MAX; lia|exact H1|exact H2|].
  exists m. split; [exact He|apply Hat; lia].
Defined.

Lemma fdt_open_into_spec_witness :
  ∃ m m', fdt_open_into tree_addr (tree_addr + 256) 256 m = Ok (0, m') ∧
    node_at (tree_addr + 256) 256 256 48 0 [(0, 0)] m' [] (DTree [] [] []) 0 80.
Proof.
  destruct (empty_sample 128 ltac:(lia)) as (m & Hat & Hs).
  assert (buffer m (tree_addr + 256) 256) as Hb.
  { apply (buffer_beside sw_memory m tree_addr 128); [|by destruct Hat as (? & ? & ? & ? & Him & _); apply Him|exact Hs].
    pose proof (sw_buffer 512 ltac:(lia)) as [H1 H2 H3 H4 H5]. split; [done|done|by split|done|].
    intros x Hx. apply H5. lia. }
  destruct (fdt_open_into_spec m tree_addr 128 128 48 0 [] [] (DTree [] [] []) 0 80 Hat (tree_addr + 256) 256 Hb
    ltac:(unfold INT_MAX; lia)) as (m' & He & _ & Hat').
  exists m, m'. split; [exact He|exact Hat'].
Defined.

Lemma fdt_pack_spec_witness :
  ∃ m m', fdt_pack tree_addr m = Ok (0, m') ∧ node_at tree_addr 512 72 40 0 [(0, 0)] m' [] (DTree [] [] []) 0 72.
Proof.
  destruct (empty_sample 512 ltac:(lia)) as (m & Hat & _).
  destruct (fdt_pack_spec m tree_addr 512 512 48 0 [] [] (DTree [] [] []) 0 80 Hat) as (m' & used' & He & _ & -> & Hat');
    [constructor|]. exists m, m'. split; [exact He|exact Hat'].
Defined.

Lemma fdt_mem_rsv_edits_witness :
  ∃ m m', fdt_add_mem_rsv tree_addr 0x80000000 0x1000 m = Ok (0, m') ∧
    fdt_get_mem_rsv m' tree_addr 0 = Ok (0, Some (0x80000000, 0x1000)) ∧
    ∃ m'', fdt_del_mem_rsv tree_addr 0 m = Ok (- FDT_ERR_NOTFOUND, m'').
Proof.
  destruct (empty_sample 512 ltac:(lia)) as (m & Hat & _).
  destruct (fdt_mem_rsv_edits m tree_addr 512 512 48 0 [] [] (DTree [] [] []) 0 80 Hat) as [Hadd Hdel]; [constructor|].
  destruct (Hadd 0x80000000 0x1000) as (m' & He & _ & Hat'); [split; [discriminate|reflexivity]..|].
  destruct (node_at_reads _ _ _ _ _ _ _ _ _ _ _ Hat') as (_ & _ & _ & Hr & _).
  exists m, m'. split; [exact He|]. split; [by apply (Hr 0%nat)|].
  destruct (Hdel 0 ltac:(cbn; lia)) as (m'' & used' & Hd & _). exists m''. exact Hd.
Defined.
