(* ===== verification/FdtTreeEdit.v ===== *)
(** What src/libfdt/fdt_rw.c promises, last part: each edit of the device tree is the
    edit of the tree as a value, or fails for want of space and leaves the tree as it
    was. *)
From S2P Require Import Prelude Machine Crt0 SampleTree Fdt FdtRo FdtCheck FdtTree FdtLookup FdtWrite FdtSw FdtRw FdtImage FdtBuild FdtFinish FdtRead FdtEdit FdtNode FdtChildren FdtPack.
From stdpp Require Import base list gmap.
From Stdlib Require Import ZArith Lia.
#[local] Open Scope Z_scope.

Lemma s32_tagalign n : 0 <= n < 2 ^ 30 → s32 (FDT_TAGALIGN n) = align4 n.
Proof.
  intros Hn. rewrite tagalign_eq by lia. fold (align4 n). pose proof (align4_ge n).
  by rewrite s32_small by (unfold is_s32; lia).
Qed.

Lemma items_size_one it : items_size [it] = item_size it.
Proof. cbn [items_size foldr]. lia. Qed.

(** Lists of items, regrouped. *)
Ltac app_norm := repeat (progress cbn [app] || rewrite <- !app_assoc).

(* ------------------------------------------------------------------ *)
(** * Edits of items *)

Section items.
Context (m : mem) (fdt size total r0 cpuid : Z) (rsv : list (Z * Z)) (its : list item) (strings : list Z).
Context (Him : image total r0 cpuid rsv its strings m fdt size) (Hsz : total < INT_MAX).

#[local] Abbreviation strct := (image_struct r0 rsv).
#[local] Abbreviation dsize := (image_strings r0 rsv its + Z.of_nat (length strings)).
#[local] Abbreviation bounds := (image_bounds m fdt size total r0 cpuid rsv its strings Him Hsz).
#[local] Abbreviation image_of := (λ its m', image total r0 cpuid rsv its strings m' fdt size).

(** The address of an item: aligned, and inside the buffer. *)
Lemma item_address xs ys :
  its = xs ++ ys → let p := fdt + strct + items_size xs in
  p mod 4 = 0 ∧ fdt + 40 <= p ∧ p + items_size ys + 4 <= fdt + dsize ∧ fdt + dsize <= fdt + size ∧ fdt + size + 4 < 2 ^ 32.
Proof using Him Hsz.
  intros Ei p. pose proof bounds as Hbd. pose proof (image_struct_mod _ _ _ _ _ _ _ _ _ Him Hsz) as Hm.
  assert (items_size its = items_size xs + items_size ys) as Es by (by rewrite Ei, items_size_app).
  pose proof (items_size_pos xs). pose proof (items_size_mod xs) as Hmx. split_and!; unfold p; try lia.
  destruct Hbd as (_ & H8 & _). clear - Hm Hmx H8. Z.div_mod_to_equations; lia.
Qed.

(** Other bytes in the value of a property. *)
Lemma patch_item xs no a g b bs ys :
  its = xs ++ [IProp no (a ++ g ++ b)] ++ ys → length g = length bs → Forall is_u8 bs →
  let d := fdt + strct + items_size xs + 12 + Z.of_nat (length a) in
  image_of (xs ++ [IProp no (a ++ bs ++ b)] ++ ys) (map_bytes d bs m) ∧ same_outside fdt size m (map_bytes d bs m) ∧
  fdt + 40 <= d ∧ d + Z.of_nat (length bs) <= fdt + dsize ∧ mapped m d (Z.of_nat (length bs)).
Proof using Him Hsz.
  intros Ei Hl Hu. cbv zeta. pose proof bounds as Hbd. destruct (item_address xs _ Ei) as (Hp4 & Hp & Htop & Hds & H32).
  set (p := fdt + strct + items_size xs) in *. pose (d := p + 12 + Z.of_nat (length a)). assert (d = p + 12 + Z.of_nat (length a)) as Ed by done. fold d. clearbody d.
  rewrite items_size_app, items_size_one, item_size_prop, !length_app in Htop.
  pose proof (items_size_pos ys). pose proof (align4_ge (Z.of_nat (length a + (length g + length b))) ltac:(lia)).
  pose proof (im_buffer _ _ _ _ _ _ _ _ _ Him) as Hb. assert (p + 12 <= d) by lia.
  assert (d + Z.of_nat (length bs) <= fdt + dsize) by lia.
  destruct (buffer_write m fdt size d bs Hb Hu) as [Hb' Hs']; [lia|lia|].
  split_and!; [eapply (image_edit m); [exact Him|exact Hsz|exact Ei|exact Hb'|..]|exact Hs'|lia|lia|eapply buffer_mapped; [exact Hb|lia|lia]].
  - rewrite !items_size_one, !item_size_prop, !length_app, Hl. lia.
  - pose proof (im_ok _ _ _ _ _ _ _ _ _ Him) as Hok. rewrite Ei, !Forall_app in Hok.
    destruct Hok as (_ & [[? Hlen] _]%Forall_cons & _). rewrite !length_app in Hlen. apply Forall_singleton. split; [done|].
    rewrite !length_app. lia.
  - assert (image_words total r0 cpuid rsv (xs ++ [IProp no (a ++ bs ++ b)] ++ ys) strings =
      image_words total r0 cpuid rsv its strings) as ->.
    { rewrite Ei. unfold image_words, image_strings. rewrite !items_size_app, !items_size_one, !item_size_prop, !length_app.
      by rewrite Hl. }
    apply words_at_other; [apply Him|cbn; lia].
  - intros x Hx. apply map_bytes_other. lia.
  - intros x Hx. rewrite !items_size_app, !items_size_one, !item_size_prop, !length_app, Hl in *.
    replace (x + _) with x by lia. apply map_bytes_other. lia.
  - fold p. pose proof (im_items _ _ _ _ _ _ _ _ _ Him) as Hat. rewrite Ei, !items_at_app in Hat.
    destruct Hat as (_ & Hat & _). fold p in Hat. apply prop_at in Hat as (Hw1 & Hw2 & Hw3 & Hw4).
    apply prop_at. rewrite !length_app in *. rewrite <- Hl. rewrite !bytes_at_app in *. destruct Hw4 as (Ha & _ & Hb4).
    rewrite <- Ed. split_and!; try (apply bytes_at_other; [done|rewrite ?length_be32; lia]); [apply map_bytes_at|].
    rewrite <- Hl. apply bytes_at_other; [by rewrite Ed|lia].
Qed.

(** Another value for a property of the same length. *)
Lemma write_value xs no a g val ys v :
  its = xs ++ [IProp no (a ++ g)] ++ ys → length g = length val →
  bytes_at m v val → apart v (Z.of_nat (length val)) fdt size → 0 < v → v + Z.of_nat (length val) < 2 ^ 32 →
  let p := fdt + strct + items_size xs in
  ∃ m', memcpy (p + 12 + Z.of_nat (length a)) v (Z.of_nat (length val)) m = Ok (p + 12 + Z.of_nat (length a), m') ∧
    image_of (xs ++ [IProp no (a ++ val)] ++ ys) m' ∧ same_outside fdt size m m'.
Proof using Him Hsz.
  intros Ei Hl Hv Hap Hv0 Hvt p. pose proof bounds as Hbd. destruct (item_address xs _ Ei) as (_ & _ & _ & Hds & H32).
  pose proof (im_buffer _ _ _ _ _ _ _ _ _ Him) as [Hmb _ _ _ _].
  assert (Forall is_u8 val) as Hu by by eapply bytes_at_u8. unfold apart in Hap.
  destruct (patch_item xs no a g [] val ys) as (Him' & Hs & Hd & Htop & Hm); [by rewrite app_nil_r|done|done|].
  rewrite app_nil_r in Him'. fold p in Him', Hs, Hd, Htop, Hm. eexists. split_and!; [|exact Him'|exact Hs].
  apply memcpy_map; (done || lia).
Qed.

(** A property gets room for [len] bytes: the value up to there is kept. *)
Lemma resize_item xs no v ys len :
  its = xs ++ [IProp no v] ++ ys → 0 <= len < 2 ^ 30 →
  let p := fdt + strct + items_size xs in
  if dsize - align4 (Z.of_nat (length v)) + align4 len <=? total then
    ∃ m1 g, fdt_splice_struct_ fdt (p + 12) (align4 (Z.of_nat (length v))) (align4 len) m = Ok (0, m1) ∧
      fdt32_put (p + 4) len m1 = Ok (tt, map_bytes (p + 4) (be32 len) m1) ∧
      Z.of_nat (length g) = len ∧ (Z.of_nat (length v) <= len → take (length v) g = v) ∧
      image_of (xs ++ [IProp no g] ++ ys) (map_bytes (p + 4) (be32 len) m1) ∧
      same_outside fdt size m (map_bytes (p + 4) (be32 len) m1)
  else fdt_splice_struct_ fdt (p + 12) (align4 (Z.of_nat (length v))) (align4 len) m = Ok (- FDT_ERR_NOSPACE, m).
Proof using Him Hsz.
  intros Ei Hl p. pose proof bounds as Hbd. destruct (item_address xs _ Ei) as (Hp4 & Hp & Htop & Hds & H32).
  fold p in Hp4, Hp, Htop. rewrite items_size_app, items_size_one, item_size_prop in Htop.
  pose proof (align4_ge (Z.of_nat (length v)) ltac:(lia)) as Hav. pose proof (align4_ge len ltac:(lia)) as Hal.
  pose proof (items_size_pos ys).
  pose proof (image_splice _ _ _ _ _ _ _ _ _ Him Hsz xs [IProp no v] ys 12 (align4 (Z.of_nat (length v))) (align4 len) Ei) as Hsp.
  cbv zeta in Hsp. fold p in Hsp. rewrite items_size_one, item_size_prop in Hsp.
  specialize (Hsp ltac:(lia) ltac:(lia) ltac:(lia) ltac:(lia)).
  destruct (_ <=? total) eqn:E; [|done]. apply Z.leb_le in E.
  destruct Hsp as (m1 & He & Hb & Hs & Hbef & _ & Hin & Hre).
  destruct (put_word m1 fdt size (p + 4) len Hb) as (Hput & Hb2 & Hs2); [lia|lia|clear - Hp4; Z.div_mod_to_equations; lia|].
  destruct (mapped_bytes (map_bytes (p + 4) (be32 len) m1) (p + 12) (Z.to_nat len)) as (g & Hg & Hgl).
  { rewrite Z2Nat.id by lia. eapply buffer_mapped; [done|lia|lia]. }
  pose proof (im_items _ _ _ _ _ _ _ _ _ Him) as Hat. rewrite Ei, !items_at_app in Hat.
  destruct Hat as (_ & Hat & _). fold p in Hat. apply prop_at in Hat as (H1 & H2 & H3 & H4).
  assert (∀ x, fdt + 40 <= x < p + 4 ∨ p + 8 <= x < p + 12 + align4 len →
    map_bytes (p + 4) (be32 len) m1 !! x = m !! x) as Hx.
  { intros x Hx. rewrite map_bytes_other by (rewrite length_be32; lia). apply Hbef. lia. }
  exists m1, g. split_and!; [done|done|lia| | |].
  - intros Hle. assert (bytes_at (map_bytes (p + 4) (be32 len) m1) (p + 12) v) as Hv'.
    { apply (bytes_at_ext m); [|done]. intros x Hr. apply Hx. lia. }
    apply list_eq. intros i. destruct (decide (i < length v)%nat).
    + rewrite lookup_take_lt by done. destruct (lookup_lt_is_Some_2 v i) as [c Hc]; [done|].
      destruct (lookup_lt_is_Some_2 g i) as [d Hd]; [lia|]. specialize (Hg i d Hd). rewrite (Hv' i c Hc) in Hg. congruence.
    + rewrite (proj2 (lookup_ge_None v i)) by lia. apply lookup_ge_None. rewrite length_take. lia.
  - apply Hre; [done| | | |rewrite items_size_one, item_size_prop, Hgl, Z2Nat.id by lia; lia].
    + intros x Hr. apply map_bytes_other. rewrite length_be32. lia.
    + apply prop_at. rewrite Hgl, Z2Nat.id by lia. split_and!; [|apply map_bytes_at| |done].
      * apply (bytes_at_ext m); [|done]. intros x Hr. rewrite length_be32 in Hr. apply Hx. lia.
      * apply (bytes_at_ext m); [|done]. intros x Hr. rewrite length_be32 in Hr. apply Hx. lia.
    + apply Forall_singleton. pose proof (im_ok _ _ _ _ _ _ _ _ _ Him) as Hok. rewrite Ei, !Forall_app in Hok.
      destruct Hok as (_ & [[? _] _]%Forall_cons & _). split; [done|lia].
  - intros x Hr. rewrite Hs2, Hs; done.
Qed.

(** Items are taken out. *)
Lemma remove_items xs olds ys :
  its = xs ++ olds ++ ys →
  ∃ m', fdt_splice_struct_ fdt (fdt + strct + items_size xs) (items_size olds) 0 m = Ok (0, m') ∧
    image_of (xs ++ ys) m' ∧ same_outside fdt size m m'.
Proof using Him Hsz.
  intros Ei. pose proof bounds as Hbd. pose proof (items_size_pos olds).
  pose proof (image_splice _ _ _ _ _ _ _ _ _ Him Hsz xs olds ys 0 (items_size olds) 0 Ei
    ltac:(lia) ltac:(lia) ltac:(lia) ltac:(lia)) as Hsp.
  cbv zeta in Hsp. rewrite !Z.add_0_r in Hsp. destruct (Z.leb_spec (dsize - items_size olds) total); [|lia].
  destruct Hsp as (m1 & He & Hb & Hs & _ & _ & _ & Hre). exists m1. split_and!; [done| |done].
  apply (Hre m1 []); [done|done|done|by constructor|cbn; lia].
Qed.

(** A property is put in front of [ys]. *)
Lemma insert_prop xs ys no len :
  its = xs ++ ys → is_u32 no → 0 <= len < 2 ^ 30 →
  let p := fdt + strct + items_size xs in
  if dsize + (12 + align4 len) <=? total then
    ∃ m1 m' g, fdt_splice_struct_ fdt p 0 (12 + align4 len) m = Ok (0, m1) ∧
      (fdt32_put p FDT_PROP;; fdt32_put (p + 8) no;; fdt32_put (p + 4) len) m1 = Ok (tt, m') ∧
      Z.of_nat (length g) = len ∧ image_of (xs ++ [IProp no g] ++ ys) m' ∧ same_outside fdt size m m'
  else fdt_splice_struct_ fdt p 0 (12 + align4 len) m = Ok (- FDT_ERR_NOSPACE, m).
Proof using Him Hsz.
  intros Ei Hno Hl p. pose proof bounds as Hbd. destruct (item_address xs _ Ei) as (Hp4 & Hp & Htop & Hds & H32).
  fold p in Hp4, Hp, Htop. pose proof (align4_ge len ltac:(lia)) as Hal. pose proof (items_size_pos ys).
  pose proof (image_splice _ _ _ _ _ _ _ _ _ Him Hsz xs [] ys 0 0 (12 + align4 len) Ei
    ltac:(lia) ltac:(lia) ltac:(lia) ltac:(cbn; lia)) as Hsp.
  cbv zeta in Hsp. fold p in Hsp. change (items_size []) with 0 in Hsp. rewrite !Z.add_0_r, !Z.sub_0_r, !Z.add_0_l in Hsp.
  destruct (_ <=? total) eqn:E; [|done]. apply Z.leb_le in E.
  destruct Hsp as (m1 & He & Hb & Hs & Hbef & _ & Hin & Hre).
  destruct (put_word m1 fdt size p FDT_PROP Hb) as (Hput1 & Hb1 & Hs1); [lia|lia|done|].
  set (m2 := map_bytes p (be32 FDT_PROP) m1) in *.
  destruct (put_word m2 fdt size (p + 8) no Hb1) as (Hput2 & Hb2 & Hs2); [lia|lia|clear - Hp4; Z.div_mod_to_equations; lia|].
  set (m3 := map_bytes (p + 8) (be32 no) m2) in *.
  destruct (put_word m3 fdt size (p + 4) len Hb2) as (Hput3 & Hb3 & Hs3); [lia|lia|clear - Hp4; Z.div_mod_to_equations; lia|].
  set (m4 := map_bytes (p + 4) (be32 len) m3) in *.
  destruct (mapped_bytes m4 (p + 12) (Z.to_nat len)) as (g & Hg & Hgl).
  { rewrite Z2Nat.id by lia. eapply buffer_mapped; [done|lia|lia]. }
  exists m1, m4, g. split_and!; [done| |lia| |].
  - rewrite (wbind_ok _ _ _ _ _ Hput1), (wbind_ok _ _ _ _ _ Hput2). exact Hput3.
  - apply (Hre m4 [IProp no g]); [done| | | |rewrite items_size_one, item_size_prop, Hgl, Z2Nat.id by lia; lia].
    + intros x Hr. unfold m4, m3, m2. by rewrite !map_bytes_other by (rewrite length_be32; lia).
    + apply prop_at. rewrite Hgl, Z2Nat.id by lia. split_and!; [| | |done].
      * unfold m4, m3. do 2 (apply bytes_at_other; [|rewrite !length_be32; lia]). apply map_bytes_at.
      * apply map_bytes_at.
      * apply bytes_at_other; [|rewrite !length_be32; lia]. apply map_bytes_at.
    + apply Forall_singleton. split; [done|lia].
  - intros x Hr. rewrite Hs3, Hs2, Hs1, Hs; done.
Qed.

(** An empty node is put in front of [ys]. *)
Lemma insert_node xs ys s name :
  its = xs ++ ys → bytes_at m s name → Forall (λ c, c ≠ 0) name → Z.of_nat (length name) < 2 ^ 30 →
  apart s (Z.of_nat (length name)) fdt size → 0 < s → s + Z.of_nat (length name) < 2 ^ 32 →
  let p := fdt + strct + items_size xs in
  let n := Z.of_nat (length name) in
  let nodelen := 8 + align4 (n + 1) in
  if dsize + nodelen <=? total then
    ∃ m1 m', fdt_splice_struct_ fdt p 0 nodelen m = Ok (0, m1) ∧
      (fdt32_put p FDT_BEGIN_NODE;; memset (p + 4) 0 (align4 (n + 1));; memcpy (p + 4) s n;;
       fdt32_put (p + nodelen - 4) FDT_END_NODE) m1 = Ok (tt, m') ∧
      image_of (xs ++ [IBegin name; IEnd] ++ ys) m' ∧ same_outside fdt size m m'
  else fdt_splice_struct_ fdt p 0 nodelen m = Ok (- FDT_ERR_NOSPACE, m).
Proof using Him Hsz.
  intros Ei Hname Hnz Hl Hap Hs0 Hst p n nodelen. pose proof bounds as Hbd.
  destruct (item_address xs _ Ei) as (Hp4 & Hp & Htop & Hds & H32).
  fold p in Hp4, Hp, Htop. pose proof (align4_ge (n + 1) ltac:(lia)) as Hal. pose proof (items_size_pos ys).
  assert (align4 (n + 1) mod 4 = 0) as Hm4 by apply align4_mod. fold n in Hap, Hst, Hl.
  pose proof (image_splice _ _ _ _ _ _ _ _ _ Him Hsz xs [] ys 0 0 nodelen Ei
    ltac:(lia) ltac:(lia) ltac:(unfold nodelen; lia) ltac:(cbn; lia)) as Hsp.
  cbv zeta in Hsp. fold p in Hsp. change (items_size []) with 0 in Hsp. rewrite !Z.add_0_r, !Z.sub_0_r, !Z.add_0_l in Hsp.
  destruct (_ <=? total) eqn:E; [|done]. apply Z.leb_le in E. unfold nodelen, apart in *.
  destruct Hsp as (m1 & He & Hb & Hs & Hbef & _ & Hin & Hre).
  destruct (put_word m1 fdt size p FDT_BEGIN_NODE Hb) as (Hput1 & Hb1 & Hs1); [lia|lia|done|].
  set (m2 := map_bytes p (be32 FDT_BEGIN_NODE) m1) in *.
  destruct (buffer_write m2 fdt size (p + 4) (replicate (Z.to_nat (align4 (n + 1))) 0) Hb1) as [Hb2 Hs2];
    [by apply Forall_replicate|lia|rewrite length_replicate; lia|].
  set (m3 := map_bytes (p + 4) _ m2) in *.
  assert (bytes_at m3 s name) as Hn3.
  { apply (bytes_at_ext m); [|done]. intros x Hx. rewrite Hs2, Hs1, Hs by (unfold n in *; lia). done. }
  assert (Forall is_u8 name) as Hu by (eapply bytes_at_u8; [apply Hb2|done]).
  destruct (buffer_write m3 fdt size (p + 4) name Hb2 Hu) as [Hb3 Hs3]; [lia|unfold n in *; lia|].
  set (m4 := map_bytes (p + 4) name m3) in *.
  destruct (put_word m4 fdt size (p + (8 + align4 (n + 1)) - 4) FDT_END_NODE Hb3) as (Hput4 & Hb4 & Hs4);
    [lia|lia|clear - Hp4 Hm4; Z.div_mod_to_equations; lia|].
  set (m5 := map_bytes _ (be32 FDT_END_NODE) m4) in *.
  pose proof (item_size_begin name : item_size (IBegin name) = 4 + align4 (n + 1)) as Esz.
  exists m1, m5. split_and!; [done| | |].
  - rewrite (wbind_ok _ _ _ _ _ Hput1).
    erewrite wbind_ok by (apply memset_map; [lia|lia|lia|eapply buffer_mapped; [exact Hb1|lia|lia]]).
    change (u8 0) with 0. fold m3.
    erewrite wbind_ok by (apply memcpy_map; [done|eapply buffer_mapped; [exact Hb2|lia|unfold n in *; lia]|done|unfold n in *; lia..]).
    exact Hput4.
  - apply (Hre m5 [IBegin name; IEnd]); [done| | | |].
    + intros x Hr. unfold m5, m4, m3, m2.
      rewrite !map_bytes_other by (rewrite ?length_be32, ?length_replicate; unfold n in *; lia). done.
    + cbn [items_at item_bytes]. rewrite Esz, !bytes_at_app, length_be32. change (Z.of_nat 4) with 4. split_and!; [| | | |done].
      * unfold m5, m4, m3.
        do 3 (apply bytes_at_other; [|rewrite ?length_be32, ?length_replicate; lia]). apply map_bytes_at.
      * apply bytes_at_other; [apply map_bytes_at|rewrite length_be32; unfold n in *; lia].
      * apply bytes_at_other; [|rewrite length_be32; cbn [length]; unfold n in *; lia].
        apply bytes_at_other; [|cbn [length]; lia]. unfold m3. clear.
        intros i b Hi. destruct i; [|done]. injection Hi as <-. rewrite map_bytes_lookup, length_replicate.
        assert (n + 1 <= align4 (n + 1)) by (pose proof (align4_ge (n + 1) ltac:(unfold n; lia)); lia).
        rewrite decide_True by (unfold n in *; lia). apply lookup_replicate_2. unfold n in *. lia.
      * replace (p + (4 + align4 (n + 1))) with (p + (8 + align4 (n + 1)) - 4) by lia. apply map_bytes_at.
    + repeat constructor; try done.
    + cbn [items_size foldr]. rewrite Esz. change (item_size IEnd) with 4. lia.
  - intros x Hr. rewrite Hs4, Hs3, Hs2, Hs1, Hs; done.
Qed.

(** A node gets another name: [s] is the string with its NUL. *)
Lemma rename_item xs old ys s name :
  its = xs ++ [IBegin old] ++ ys → bytes_at m s (name ++ [0]) → Forall (λ c, c ≠ 0) name → Z.of_nat (length name) < 2 ^ 30 →
  apart s (Z.of_nat (length name) + 1) fdt size → 0 < s → s + Z.of_nat (length name) + 1 < 2 ^ 32 →
  let p := fdt + strct + items_size xs in
  let oldlen := align4 (Z.of_nat (length old) + 1) in
  let newlen := align4 (Z.of_nat (length name) + 1) in
  if dsize - oldlen + newlen <=? total then
    ∃ m1 m', fdt_splice_struct_ fdt (p + 4) oldlen newlen m = Ok (0, m1) ∧
      memcpy (p + 4) s (Z.of_nat (length name) + 1) m1 = Ok (p + 4, m') ∧
      image_of (xs ++ [IBegin name] ++ ys) m' ∧ same_outside fdt size m m'
  else fdt_splice_struct_ fdt (p + 4) oldlen newlen m = Ok (- FDT_ERR_NOSPACE, m).
Proof using Him Hsz.
  intros Ei Hname Hnz Hl Hap Hs0 Hst p oldlen newlen. pose proof bounds as Hbd.
  destruct (item_address xs _ Ei) as (Hp4 & Hp & Htop & Hds & H32). fold p in Hp4, Hp, Htop.
  assert (Z.of_nat (length (name ++ [0])) = Z.of_nat (length name) + 1) as Hln by (rewrite length_app; cbn [length]; lia).
  pose proof (align4_ge (Z.of_nat (length old) + 1) ltac:(lia)) as Ho. pose proof (align4_ge (Z.of_nat (length name) + 1) ltac:(lia)) as Hn.
  pose proof (image_splice _ _ _ _ _ _ _ _ _ Him Hsz xs [IBegin old] ys 4 oldlen newlen Ei) as Hsp.
  rewrite items_size_one, item_size_begin in Hsp. cbv zeta in Hsp. fold p in Hsp.
  specialize (Hsp ltac:(lia) ltac:(unfold oldlen; lia) ltac:(unfold newlen; lia) ltac:(unfold oldlen; lia)).
  destruct (_ <=? total) eqn:E; [|done]. apply Z.leb_le in E. unfold apart in *.
  destruct Hsp as (m1 & He & Hb & Hs & Hbef & _ & Hin & Hre). pose proof (items_size_pos ys).
  rewrite items_size_app, items_size_one, item_size_begin in Htop.
  assert (bytes_at m1 s (name ++ [0])) as Hn1.
  { apply (bytes_at_ext m); [|done]. intros x Hx. apply Hs. lia. }
  assert (Forall is_u8 (name ++ [0])) as Hu by (eapply bytes_at_u8; [apply Hb|done]).
  destruct (buffer_write m1 fdt size (p + 4) (name ++ [0]) Hb Hu) as [Hb2 Hs2]; [lia|unfold oldlen, newlen in *; lia|].
  exists m1, (map_bytes (p + 4) (name ++ [0]) m1). split_and!; [done| | |].
  - rewrite <- Hln. apply memcpy_map; [done|eapply buffer_mapped; [done|lia|unfold oldlen, newlen in *; lia]|done|unfold oldlen, newlen in *; lia..].
  - apply Hre; [done| | | |].
    + intros x Hr. apply map_bytes_other. unfold oldlen, newlen in *. lia.
    + cbn [items_at item_bytes]. rewrite bytes_at_app, length_be32. change (Z.of_nat 4) with 4. split_and!; [|apply map_bytes_at|done].
      apply bytes_at_other; [|rewrite length_be32; lia]. apply (bytes_at_ext m).
      * intros x Hr. rewrite length_be32 in Hr. apply Hbef. unfold newlen. lia.
      * pose proof (im_items _ _ _ _ _ _ _ _ _ Him) as Hat. rewrite Ei, !items_at_app in Hat. destruct Hat as (_ & [Hat _] & _).
        cbn [item_bytes] in Hat. by apply bytes_at_app in Hat as [Hat _].
    + by apply Forall_singleton.
    + rewrite items_size_one, item_size_begin. unfold oldlen, newlen. lia.
  - intros x Hr. rewrite Hs2, Hs; done.
Qed.
End items.

(* ------------------------------------------------------------------ *)
(** * Edits at a position *)

Section at_position.
Context (fdt size total r0 cpuid : Z) (rsv : list (Z * Z)).
#[local] Abbreviation node_at := (node_at fdt size total r0 cpuid rsv).

(** The arguments of an edit: a string and some data outside the buffer.  (A name longer
    than the address of the tree makes a pointer of [fdt_find_string_len_] wrap.) *)
Definition name_arg (m : mem) (s : Z) (name : list Z) : Prop :=
  c_name m s name ∧ apart s (Z.of_nat (length name) + 1) fdt size ∧
  Z.of_nat (length name) < fdt ∧ Z.of_nat (length name) < 2 ^ 30.
Definition data_arg (m : mem) (v : Z) (val : list Z) : Prop :=
  bytes_at m v val ∧ apart v (Z.of_nat (length val)) fdt size ∧ 0 < v ∧
  v + Z.of_nat (length val) < 2 ^ 32 ∧ Z.of_nat (length val) < 2 ^ 30.

Lemma name_arg_input m s name : name_arg m s name → name_input m fdt size s name.
Proof using Type.
  intros ((Hcs & Hs0 & Hst & Hl) & Hap & Hf & Hl'). destruct Hcs as (Hb & Hnz & _). by split_and!.
Qed.

Lemma name_arg_same m m' s name : same_outside fdt size m m' → name_arg m s name → name_arg m' s name.
Proof using Type.
  intros Hs ((Hcs & Hr) & Hap & Hl). split; [|done]. split; [|done]. unfold apart in Hap.
  destruct Hcs as (Hb & Hnz & H0). split_and!; [|done|].
  - eapply bytes_at_outside; [done..|lia].
  - rewrite Hs; [done|lia].
Qed.

Lemma data_arg_same m m' v val : same_outside fdt size m m' → data_arg m v val → data_arg m' v val.
Proof using Type.
  intros Hs (Hb & Hap & Hr). split; [|done]. unfold apart in Hap. eapply bytes_at_outside; [done..|lia].
Qed.

Lemma root_name_plug c t t' : root_name t = root_name t' → root_name (plug c t) = root_name (plug c t').
Proof using Type.
  unfold plug. revert t t'. induction c as [|f c IH]; intros t t' Ht; [done|]. cbn [foldl]. by apply IH.
Qed.

#[local] Abbreviation spelled strings := (Forall2 (spells (string_at strings))).
#[local] Abbreviation pops := (map (prop_op (λ _, 0))).
#[local] Abbreviation image_of := (λ its strings m, image total r0 cpuid rsv its strings m fdt size).
#[local] Abbreviation rsv_ok := (∃ rsvs, rsv = rsvs ++ [(0, 0)] ∧ Forall (λ r, is_u64 r.1 ∧ is_u64 r.2) rsvs).

Lemma rsv_nonempty : rsv_ok → rsv ≠ [].
Proof using Type. intros (rsvs & -> & _). by destruct rsvs. Qed.

(** Where the value of the property behind the properties [l] lies. *)
Definition value_place (off : Z) (nm : list Z) (l : list (list Z * list Z)) : Z :=
  fdt + image_struct r0 rsv + off + prop_place nm l + 12.

(** The value [g] of a property lies at [addr], where any part of it to the end may be
    overwritten. *)
Definition slot_at (m : mem) (c : list frame) (nm : list Z) (l : list (list Z * list Z)) (name g : list Z)
    (r : list (list Z * list Z)) (subs : list dtree) (off used addr : Z) : Prop :=
  node_at m c (DTree nm (l ++ (name, g) :: r) subs) off used ∧
  0 < addr ∧ addr + Z.of_nat (length g) < 2 ^ 32 ∧ addr = value_place off nm l ∧
  ∀ a g' v val, g = a ++ g' → length g' = length val → data_arg m v val →
    ∃ m', memcpy (addr + Z.of_nat (length a)) v (Z.of_nat (length val)) m = Ok (addr + Z.of_nat (length a), m') ∧
      node_at m' c (DTree nm (l ++ (name, a ++ val) :: r) subs) off used ∧ same_outside fdt size m m'.

Lemma slot_node m strings xs nm pl no g pr ss ys c l name r subs :
  image_of (xs ++ (IBegin nm :: (pl ++ IProp no g :: pr) ++ ss ++ [IEnd]) ++ ys) strings m →
  total < INT_MAX → spelled strings xs (ops_before c) → spelled strings ys (ops_after c) →
  spelled strings pl (pops l) → spelled strings pr (pops r) → string_at strings no name →
  spelled strings ss (flat_map ops subs) → root_name (plug c (DTree nm [] [])) = [] → rsv_ok →
  let used := image_strings r0 rsv (xs ++ (IBegin nm :: (pl ++ IProp no g :: pr) ++ ss ++ [IEnd]) ++ ys)
    + Z.of_nat (length strings) in
  let addr := fdt + image_struct r0 rsv + items_size (xs ++ IBegin nm :: pl) + 12 in
  slot_at m c nm l name g r subs (items_size xs) used addr.
Proof using Type.
  intros Him Hsz Hx Hy Hl Hr Hno Hss Hroot Hrsv used addr.
  assert (∀ g0, xs ++ (IBegin nm :: (pl ++ IProp no g0 :: pr) ++ ss ++ [IEnd]) ++ ys =
    (xs ++ IBegin nm :: pl) ++ [IProp no g0] ++ pr ++ ss ++ IEnd :: ys) as Eg.
  { intros g0. by app_norm. }
  assert (0 < addr ∧ addr + Z.of_nat (length g) < 2 ^ 32) as [Ha0 Ha1].
  { destruct (item_address _ _ _ _ _ _ _ _ _ Him Hsz _ _ (Eg g)) as (_ & H1 & H2 & H3 & H4).
    rewrite (items_size_app [IProp no g]), items_size_one, item_size_prop in H2. pose proof (align4_ge (Z.of_nat (length g)) ltac:(lia)).
    pose proof (items_size_pos (pr ++ ss ++ IEnd :: ys)).
    destruct (im_buffer _ _ _ _ _ _ _ _ _ Him) as [_ _ [? _] _ _]. unfold addr. lia. }
  split_and!; [|done|done|unfold addr, value_place; rewrite (size_of_node nm _ xs pl l Hl); lia|].
  - exists strings, xs, (IBegin nm :: (pl ++ IProp no g :: pr) ++ ss ++ [IEnd]), ys. split_and!; try done.
    + apply node_items. exists (pl ++ IProp no g :: pr), ss. split_and!; [done| |done].
      apply prop_items. by exists pl, no, pr.
    + by rewrite (root_name_plug _ _ (DTree nm [] [])).
  - intros a g' v val -> Hlen (Hv & Hap & Hv0 & Hvt & Hv30).
    destruct (write_value _ _ _ _ _ _ _ _ _ Him Hsz _ _ _ _ _ _ _ (Eg (a ++ g')) Hlen Hv Hap Hv0 Hvt) as (m' & He & Him' & Hs).
    exists m'. split; [exact He|]. split; [|done]. cbv beta in Him'. rewrite <- Eg in Him'.
    exists strings, xs, (IBegin nm :: (pl ++ IProp no (a ++ val) :: pr) ++ ss ++ [IEnd]), ys. split_and!; try done.
    + apply node_items. exists (pl ++ IProp no (a ++ val) :: pr), ss. split_and!; [done| |done].
      apply prop_items. by exists pl, no, pr.
    + unfold used, image_strings. rewrite !Eg, !items_size_app, !items_size_one, !item_size_prop, !length_app, Hlen. done.
    + by rewrite (root_name_plug _ _ (DTree nm [] [])).
Qed.

(** A property that the node has gets another length. *)
Lemma resize_ok m c nm l name v r subs off used s len :
  node_at m c (DTree nm (l ++ (name, v) :: r) subs) off used → name ∉ l.*1 → name_arg m s name → 0 <= len < 2 ^ 30 →
  ∃ prop, fdt_get_property_namelen m fdt off s (Z.of_nat (length name)) = Ok (prop, Z.of_nat (length v)) ∧
    0 < prop ∧ prop + 12 + align4 (Z.of_nat (length v)) < 2 ^ 32 ∧ Z.of_nat (length v) < 2 ^ 30 ∧
    if used - align4 (Z.of_nat (length v)) + align4 len <=? total then
      ∃ m1 m' g, fdt_splice_struct_ fdt (prop + 12) (align4 (Z.of_nat (length v))) (align4 len) m = Ok (0, m1) ∧
        fdt32_put (prop + 4) len m1 = Ok (tt, m') ∧ same_outside fdt size m m' ∧ Z.of_nat (length g) = len ∧
        (Z.of_nat (length v) <= len → take (length v) g = v) ∧
        slot_at m' c nm l name g r subs off (used - align4 (Z.of_nat (length v)) + align4 len) (prop + 12)
    else fdt_splice_struct_ fdt (prop + 12) (align4 (Z.of_nat (length v))) (align4 len) m = Ok (- FDT_ERR_NOSPACE, m).
Proof using Type.
  intros (strings & xs & zs & ys & Him & Hx & Hz & Hy & -> & -> & Hsz & Hroot & Hrsv) Hn Hs Hlen.
  apply node_items in Hz as (ps & ss & -> & Hp & Hss). apply prop_items in Hp as (pl & no & pr & -> & Hl & Hno & Hr).
  apply name_arg_input in Hs as (Hb & Hnz & Hs0 & Hst & _).
  assert (∀ g0, xs ++ (IBegin nm :: (pl ++ IProp no g0 :: pr) ++ ss ++ [IEnd]) ++ ys =
    (xs ++ IBegin nm :: pl) ++ [IProp no g0] ++ pr ++ ss ++ IEnd :: ys) as Eg.
  { intros g0. by app_norm. }
  destruct (item_address _ _ _ _ _ _ _ _ _ Him Hsz _ _ (Eg v)) as (_ & H1 & H2 & H3 & H4).
  pose proof (resize_item _ _ _ _ _ _ _ _ _ Him Hsz _ _ _ _ len (Eg v) Hlen) as Hre. cbv zeta in Hre.
  exists (fdt + image_struct r0 rsv + items_size (xs ++ IBegin nm :: pl)).
  rewrite (items_size_app [IProp no v]), items_size_one, item_size_prop in H2. pose proof (items_size_pos (pr ++ ss ++ IEnd :: ys)).
  destruct (im_buffer _ _ _ _ _ _ _ _ _ Him) as [_ _ [? _] _ _]. split_and!; [|lia|lia| |].
  - eapply (get_property_some _ _ _ _ _ _ _ _ _ Him Hsz); [|done..|lia]. by app_norm.
  - pose proof (im_ok _ _ _ _ _ _ _ _ _ Him) as Hok. rewrite Eg, !Forall_app in Hok. destruct Hok as (_ & [[_ ?] _]%Forall_cons & _). done.
  - destruct (_ <=? total); [|done].
    destruct Hre as (m1 & g & He & Hput & Hg & Hpre & Him' & Hs'). exists m1, (map_bytes (fdt + image_struct r0 rsv + items_size (xs ++ IBegin nm :: pl) + 4) (be32 len) m1), g.
    split_and!; try done. cbv beta in Him'. rewrite <- Eg in Him'.
    pose proof (slot_node _ _ _ _ _ _ _ _ _ _ c l name r subs Him' Hsz Hx Hy Hl Hr Hno Hss) as Hslot.
    cbv zeta in Hslot. refine (eq_rect _ (λ u, slot_at _ _ _ _ _ _ _ _ _ u _) (Hslot _ Hrsv) _ _).
    + by rewrite <- Hroot; apply root_name_plug.
    + unfold image_strings. rewrite !Eg, !items_size_app, !items_size_one, !item_size_prop, Hg. lia.
Qed.

(** The name of a new property: in the table already, or put there. *)
Lemma add_name_ok its strings m s name :
  image_of its strings m → total < INT_MAX → name_arg m s name →
  ∃ rc fresh m', FdtRw.fdt_find_add_string_ fdt s (Z.of_nat (length name)) m = Ok ((rc, fresh), m') ∧
    same_outside fdt size m m' ∧
    if rc <? 0 then rc = - FDT_ERR_NOSPACE ∧ m' = m ∧
      total < image_strings r0 rsv its + Z.of_nat (length strings) + Z.of_nat (length name) + 1
    else is_s32 rc ∧ let strings' := if fresh : bool then strings ++ name ++ [0] else strings in
      image_of its strings' m' ∧ string_at strings' rc name.
Proof using Type.
  intros Him Hsz Hs. pose proof Hs as (_ & _ & _ & Hl30). apply name_arg_input in Hs as Hin.
  pose proof (image_bounds _ _ _ _ _ _ _ _ _ Him Hsz) as Hbd.
  pose proof (find_add_image _ _ _ _ _ _ _ _ _ Him Hsz s name Hin) as Hf. destruct Hin as (_ & Hnz & _).
  destruct (find_str strings (name ++ [0])) as [i|] eqn:Ef.
  - exists (Z.of_nat i), false, m. pose proof (find_str_lt _ _ _ Ef). destruct (Z.ltb_spec (Z.of_nat i) 0); [lia|].
    cbv zeta. split_and!; [done|done|unfold is_s32; lia|done|]. split; [done|].
    destruct (find_str_spec _ _ _ Ef) as (pre & post & -> & <-). exists pre, post. by rewrite <- app_assoc.
  - destruct (Z.leb_spec (image_strings r0 rsv its + Z.of_nat (length strings) + (Z.of_nat (length name) + 1)) total).
    + destruct Hf as (m' & He & Him' & Hs'). exists (Z.of_nat (length strings)), true, m'.
      destruct (Z.ltb_spec (Z.of_nat (length strings)) 0); [lia|]. cbv zeta.
      split_and!; [done|done|unfold is_s32; lia|done|]. split; [done|]. by exists strings, [].
    + exists (- FDT_ERR_NOSPACE), false, m. cbn [Z.ltb Z.compare]. split_and!; [done|done|]. cbn. split_and!; [done|done|lia].
Qed.

(** What an edit may take: a string, a property. *)
Definition growth (name : list Z) (len : Z) : Z := Z.of_nat (length name) + 1 + (12 + align4 len).

Lemma add_ok m c nm props subs off used s name len :
  node_at m c (DTree nm props subs) off used → name_arg m s name → 0 <= len < 2 ^ 30 →
  ∃ rc prop m', fdt_add_property_ fdt off s (Z.of_nat (length name)) len m = Ok ((rc, prop), m') ∧
    same_outside fdt size m m' ∧
    if rc =? 0 then ∃ g used', Z.of_nat (length g) = len ∧ used' <= used + growth name len ∧
      slot_at m' c nm [] name g props subs off used' (prop + 12)
    else rc = - FDT_ERR_NOSPACE ∧ total < used + growth name len ∧ node_at m' c (DTree nm props subs) off used.
Proof using Type.
  intros (strings & xs & zs & ys & Him & Hx & Hz & Hy & -> & -> & Hsz & Hroot & Hrsv) Hs Hlen. unfold growth.
  pose proof Hz as (ps & ss & -> & Hp & Hss)%node_items. pose proof (align4_ge len ltac:(lia)) as Hal.
  set (its := xs ++ (IBegin nm :: ps ++ ss ++ [IEnd]) ++ ys) in *.
  assert (its = xs ++ IBegin nm :: ps ++ ss ++ IEnd :: ys) as E1.
  { unfold its. by app_norm. }
  assert (its = (xs ++ [IBegin nm]) ++ ps ++ ss ++ IEnd :: ys) as E2 by (by rewrite E1, <- app_assoc).
  unfold fdt_add_property_. rewrite (wbind_rd _ _ _ _ (check_node _ _ _ _ _ _ _ _ _ Him Hsz _ _ _ E1)).
  pose proof (items_size_pos (xs ++ [IBegin nm])). destruct (Z.ltb_spec (items_size (xs ++ [IBegin nm])) 0); [lia|].
  destruct (add_name_ok its strings m s name Him Hsz Hs) as (rc & fresh & m1 & He & Hs1 & Hrc).
  rewrite (wbind_ok _ _ _ _ _ He). cbv iota beta. destruct (Z.ltb_spec rc 0).
  { destruct Hrc as (-> & -> & Htot). do 3 eexists. split_and!; [done|done|].
    change (- FDT_ERR_NOSPACE =? 0) with false. cbv iota. split_and!; [done|lia|].
    by exists strings, xs, (IBegin nm :: ps ++ ss ++ [IEnd]), ys. }
  destruct Hrc as (Hrc32 & Him1 & Hsat). set (strings' := if fresh then _ else strings) in *.
  assert (∃ more, strings' = strings ++ more ∧ Z.of_nat (length more) <= Z.of_nat (length name) + 1) as (more & Emore & Hmore).
  { unfold strings'. destruct fresh; [exists (name ++ [0]); split; [done|]; rewrite length_app; cbn [length]; lia|].
    exists []. rewrite app_nil_r. split; [done|cbn; lia]. }
  set (p := fdt + image_struct r0 rsv + items_size (xs ++ [IBegin nm])).
  destruct (item_address _ _ _ _ _ _ _ _ _ Him1 Hsz _ _ E2) as (Hp4 & Hp40 & Hptop & Hds & H32). fold p in Hp4, Hp40, Hptop.
  pose proof (items_size_pos (ps ++ ss ++ IEnd :: ys)).
  rewrite (wbind_rd _ _ _ p).
  2: { unfold fdt_offset_ptr_. rewrite (get_struct _ _ _ _ _ _ _ _ _ Him1 Hsz). cbn [mbind res_bind].
       rewrite u32_small; [done|]. unfold is_u32. fold p. destruct (im_buffer _ _ _ _ _ _ _ _ _ Him1) as [_ _ [? _] _ _]. lia. }
  destruct (im_buffer _ _ _ _ _ _ _ _ _ Him1) as [_ _ [Hf0 _] _ _].
  rewrite tagalign_eq by lia. fold (align4 len). rewrite (s32_small (12 + align4 len)) by (unfold is_s32; lia). cbv zeta.
  assert (is_u32 rc) as Hu by (unfold is_u32, is_s32 in *; lia).
  pose proof (insert_prop _ _ _ _ _ _ _ _ _ Him1 Hsz _ _ rc len E2 Hu Hlen) as Hins. cbv zeta in Hins. fold p in Hins.
  destruct (Z.leb_spec (image_strings r0 rsv its + Z.of_nat (length strings') + (12 + align4 len)) total) as [Hle|Hgt].
  - destruct Hins as (m2 & m3 & g & Hsp & Hput & Hg & Him3 & Hs3). rewrite (wbind_ok _ _ _ _ _ Hsp).
    cbn [Z.eqb negb]. rewrite (u32_small rc Hu), (u32_small len), (u32_small (p + 8)), (u32_small (p + 4)) by (unfold is_u32; lia).
    exists 0, p, m3. split_and!.
    + revert Hput. unfold mbind, W_bind. destruct (fdt32_put p FDT_PROP m2) as [[? ?]| |]; [|done..].
      destruct (fdt32_put (p + 8) rc _) as [[? ?]| |]; [|done..]. by intros ->.
    + intros x Hr. rewrite Hs3, Hs1; done.
    + cbn [Z.eqb]. exists g. cbv beta in Him3.
      assert ((xs ++ [IBegin nm]) ++ [IProp rc g] ++ ps ++ ss ++ IEnd :: ys =
        xs ++ (IBegin nm :: ([] ++ IProp rc g :: ps) ++ ss ++ [IEnd]) ++ ys) as E3
        by (by app_norm).
      rewrite E3 in Him3. rewrite Emore in Him3, Hsat.
      eexists. split; [done|]. split; [|eapply (slot_node m3 _ xs nm [] rc g ps ss ys c [] name props subs); [exact Him3|..]];
        try (done || by apply spelled_more).
      * rewrite Emore, length_app in *. rewrite <- E3. unfold image_strings in *. rewrite E2 in Hle |- *.
        rewrite !items_size_app, !items_size_one, !item_size_prop, Hg in *. lia.
      * by rewrite (root_name_plug _ _ (DTree nm props subs)).
  - rewrite (wbind_ok _ _ _ _ _ Hins). change (negb (- FDT_ERR_NOSPACE =? 0)) with true. cbv iota.
    assert (∃ m2, (if fresh then fdt_del_last_string_ fdt s else mret tt) m1 = Ok (tt, m2) ∧
      image_of its strings m2 ∧ same_outside fdt size m1 m2) as (m2 & Hdel & Him2 & Hs2).
    { unfold strings' in *. destruct fresh; [|by exists m1]. pose proof (name_arg_same _ _ _ _ Hs1 Hs) as (Hc & _ & _ & ?).
      by apply (del_last_image _ _ _ _ _ _ _ _ _ Him1 Hsz strings s name). }
    exists (- FDT_ERR_NOSPACE), p, m2. rewrite (wbind_ok _ _ _ _ _ Hdel). split_and!; [done| |].
    + intros x Hr. rewrite Hs2, Hs1; done.
    + change (- FDT_ERR_NOSPACE =? 0) with false. cbv iota. split_and!; [done| |].
      * rewrite Emore, length_app in Hgt. lia.
      * by exists strings, xs, (IBegin nm :: ps ++ ss ++ [IEnd]), ys.
Qed.

(** The check that every edit starts with. *)
Lemma guard_node {A} m c t off used (fail : Z → A) (k : W A) :
  node_at m c t off used → FDT_RW_PROBE fdt fail k m = k m.
Proof using Type.
  intros (strings & xs & zs & ys & Him & _ & _ & _ & _ & _ & Hsz & _ & Hrsv).
  apply (guard_rw _ _ _ _ _ _ _ _ _ Him Hsz). by apply rsv_nonempty.
Qed.

Lemma strlen_arg m c t off used s name :
  node_at m c t off used → name_arg m s name → strlen s m = Ok (Z.of_nat (length name)).
Proof using Type.
  intros (strings & xs & zs & ys & Him & _) ((Hs & Hs0 & Hst & Hl) & _).
  destruct (im_buffer _ _ _ _ _ _ _ _ _ Him). apply (strlen_ok m s name Hs); (done || lia).
Qed.

(** [fdt_setprop_placeholder_namelen]: a value of [len] bytes, to be filled in. *)
Lemma prop_placeholder_ok m c nm props subs off used s name len :
  node_at m c (DTree nm props subs) off used → name_arg m s name → 0 <= len < 2 ^ 30 →
  ∃ rc addr m', fdt_setprop_placeholder_namelen fdt off s (Z.of_nat (length name)) len m = Ok ((rc, addr), m') ∧
    same_outside fdt size m m' ∧
    if rc =? 0 then ∃ l g r used', Z.of_nat (length g) = len ∧ used' <= used + growth name len ∧
      (∀ val, l ++ (name, val) :: r = set_prop props name val) ∧ slot_at m' c nm l name g r subs off used' addr
    else rc = - FDT_ERR_NOSPACE ∧ total < used + growth name len ∧ node_at m' c (DTree nm props subs) off used.
Proof using Type.
  intros Hat Hs Hlen. unfold fdt_setprop_placeholder_namelen. rewrite (guard_node _ _ _ _ _ _ _ Hat).
  unfold fdt_resize_property_, growth. pose proof (align4_ge len ltac:(lia)) as Hal.
  destruct (prop_cases props name) as [Hn|(l & v & r & -> & Hn)].
  - pose proof Hat as (strings & xs & zs & ys & Him & Hx & Hz & Hy & -> & -> & Hsz & Hroot & Hrsv).
    apply node_items in Hz as (ps & ss & -> & Hp & Hss). pose proof (name_arg_input _ _ _ Hs) as (Hb & Hnz & Hs0 & Hst & _).
    rewrite (wbind_ok _ _ m (- FDT_ERR_NOTFOUND, 0) m).
    2: { rewrite (wbind_rd _ _ _ (0, - FDT_ERR_NOTFOUND)); [done|].
         eapply (get_property_none _ _ _ _ _ _ _ _ _ Him Hsz); [|done..|lia]. by app_norm. }
    cbv iota beta. rewrite Z.eqb_refl.
    destruct (add_ok m c nm props subs _ _ s name len Hat Hs Hlen) as (rc & prop & m' & He & Hs' & Hr).
    rewrite (wbind_ok _ _ _ _ _ He). cbv iota beta. destruct (Z.eqb_spec rc 0) as [-> |]; cbn [negb].
    + destruct Hr as (g & used' & Hg & Hu & Hslot). pose proof Hslot as (_ & H0 & H1 & _). do 3 eexists. split_and!; [done|done|].
      cbn [Z.eqb]. exists [], g, props, used'. split_and!; [done|done| |by rewrite u32_small by (unfold is_u32; lia)].
      intros val. unfold set_prop. by rewrite replace_none.
    + do 3 eexists. split_and!; [done|done|]. destruct (Z.eqb_spec rc 0); [done|exact Hr].
  - destruct (resize_ok m c nm l name v r subs off used s len Hat Hn Hs Hlen) as (prop & Hg & Hp0 & Hp1 & Hv30 & Hre).
    pose proof (align4_ge (Z.of_nat (length v)) ltac:(lia)) as Hav.
    assert (∀ rr, (err ← fdt_splice_struct_ fdt (prop + 12) (align4 (Z.of_nat (length v))) (align4 len);
      if negb (err =? 0) then mret (err, prop) else fdt32_put (u32 (prop + 4)) (u32 len);; mret (0, prop)) m = rr →
      ('(prop, oldlen) ← rd (λ m, fdt_get_property_namelen m fdt off s (Z.of_nat (length name)));
       if prop =? 0 then mret (oldlen, 0)
       else err ← fdt_splice_struct_ fdt (u32 (prop + 12)) (s32 (FDT_TAGALIGN oldlen)) (s32 (FDT_TAGALIGN len));
            if negb (err =? 0) then mret (err, prop) else fdt32_put (u32 (prop + 4)) (u32 len);; mret (0, prop)) m = rr) as Hgo.
    { intros rr <-. rewrite (wbind_rd _ _ _ _ Hg). destruct (Z.eqb_spec prop 0); [lia|].
      by rewrite !s32_tagalign, (u32_small (prop + 12)) by (unfold is_u32; lia). }
    destruct (Z.leb_spec (used - align4 (Z.of_nat (length v)) + align4 len) total).
    + destruct Hre as (m1 & m' & g & Hsp & Hput & Hs' & Hlg & _ & Hslot). pose proof Hslot as (_ & H0 & H1 & _).
      rewrite (wbind_ok _ _ m (0, prop) m').
      2: { apply Hgo. rewrite (wbind_ok _ _ _ _ _ Hsp). cbn [Z.eqb negb].
           rewrite (u32_small (prop + 4)), (u32_small len) by (unfold is_u32; lia). by rewrite (wbind_ok _ _ _ _ _ Hput). }
      cbv iota beta. change (0 =? - FDT_ERR_NOTFOUND) with false. cbv iota. rewrite (wbind_ok _ _ m' (0, prop) m' eq_refl).
      cbv iota beta. cbn [Z.eqb negb]. do 3 eexists. split_and!; [done|done|]. cbn [Z.eqb].
      exists l, g, r, (used - align4 (Z.of_nat (length v)) + align4 len).
      split_and!; [done|lia| |by rewrite u32_small by (unfold is_u32; lia)].
      intros val. unfold set_prop. by rewrite replace_some.
    + rewrite (wbind_ok _ _ m (- FDT_ERR_NOSPACE, prop) m) by (apply Hgo; by rewrite (wbind_ok _ _ _ _ _ Hre)).
      cbv iota beta. change (- FDT_ERR_NOSPACE =? - FDT_ERR_NOTFOUND) with false. cbv iota.
      rewrite (wbind_ok _ _ m (- FDT_ERR_NOSPACE, prop) m eq_refl).
      cbv iota beta. change (- FDT_ERR_NOSPACE =? 0) with false. cbn [negb].
      do 3 eexists. split_and!; [done|done|]. change (- FDT_ERR_NOSPACE =? 0) with false. cbv iota. split_and!; [done|lia|done].
Qed.

Lemma setprop_ok m c nm props subs off used s name v val :
  node_at m c (DTree nm props subs) off used → name_arg m s name → data_arg m v val →
  ∃ rc m', fdt_setprop fdt off s v (Z.of_nat (length val)) m = Ok (rc, m') ∧ same_outside fdt size m m' ∧
    if rc =? 0 then ∃ used', used' <= used + growth name (Z.of_nat (length val)) ∧
      node_at m' c (DTree nm (set_prop props name val) subs) off used'
    else rc = - FDT_ERR_NOSPACE ∧ total < used + growth name (Z.of_nat (length val)) ∧
      node_at m' c (DTree nm props subs) off used.
Proof using Type.
  intros Hat Hs Hv. pose proof Hs as ((_ & _ & _ & ?) & _). pose proof Hv as (_ & _ & _ & _ & Hv30).
  unfold fdt_setprop. rewrite (wbind_rd _ _ _ _ (strlen_arg _ _ _ _ _ _ _ Hat Hs)).
  rewrite s32_small by (unfold is_s32; lia). unfold fdt_setprop_namelen.
  destruct (prop_placeholder_ok m c nm props subs off used s name (Z.of_nat (length val)) Hat Hs ltac:(lia))
    as (rc & addr & m1 & He & Hs1 & Hr).
  rewrite (wbind_ok _ _ _ _ _ He). cbv iota beta. destruct (Z.eqb_spec rc 0) as [-> |]; cbn [negb].
  2: { exists rc, m1. destruct (Z.eqb_spec rc 0); [done|]. destruct Hr as (? & ? & ?). by split_and!. }
  destruct Hr as (l & g & r & used' & Hg & Hu & Hset & Hnode & _ & _ & _ & Hwrite).
  destruct (decide (length val = 0%nat)) as [E0|E0].
  { exists 0, m1. rewrite E0. cbn [Z.eqb negb Z.of_nat]. split_and!; [done|done|]. exists used'. split; [by rewrite E0 in Hu|].
    rewrite <- Hset. destruct val, g; done. }
  destruct (Hwrite [] g v val) as (m' & Hcpy & Hat' & Hs'); [done|lia|by eapply data_arg_same|].
  cbn [length Z.of_nat] in Hcpy. rewrite Z.add_0_r in Hcpy.
  destruct (Z.eqb_spec (Z.of_nat (length val)) 0); [lia|]. cbn [negb].
  exists 0, m'. split_and!.
  - rewrite (wbind_ok _ _ m1 tt m'); [done|]. rewrite u32_small by (unfold is_u32; lia).
    by rewrite (wbind_ok _ _ _ _ _ Hcpy).
  - intros x Hx. rewrite Hs', Hs1; done.
  - exists used'. split; [done|]. by rewrite <- Hset.
Qed.

(** C22: [fdt_setprop] on a tree laid out as the writers lay it out sets the property: the
    first one of that name gets the value, or the node gets a new first property; if there
    is no space for it, [-FDT_ERR_NOSPACE] is returned and the tree is as before.  There is
    space if the name with its NUL, 12 bytes, and the value padded to whole words fit into
    what is free ([growth]).  Name and value lie outside the tree and are shorter than
    2^30. *)
Theorem fdt_setprop_spec m c nm props subs off used s name v val :
  node_at m c (DTree nm props subs) off used → name_arg m s name → data_arg m v val →
  ∃ rc m', fdt_setprop fdt off s v (Z.of_nat (length val)) m = Ok (rc, m') ∧ same_outside fdt size m m' ∧
    if rc =? 0 then ∃ used', used' <= used + growth name (Z.of_nat (length val)) ∧
      node_at m' c (DTree nm (set_prop props name val) subs) off used'
    else rc = - FDT_ERR_NOSPACE ∧ total < used + growth name (Z.of_nat (length val)) ∧
      node_at m' c (DTree nm props subs) off used.
Proof using Type. apply setprop_ok. Qed.

(** The node of a position, in an image. *)
Lemma rebuild m strings xs zs ys c t :
  image_of (xs ++ zs ++ ys) strings m → total < INT_MAX → spelled strings xs (ops_before c) →
  spelled strings ys (ops_after c) → spelled strings zs (ops t) → root_name (plug c t) = [] → rsv_ok →
  node_at m c t (items_size xs) (image_strings r0 rsv (xs ++ zs ++ ys) + Z.of_nat (length strings)).
Proof using Type. intros. exists strings, xs, zs, ys. by split_and!. Qed.

Lemma delprop_ok m c nm props subs off used s name :
  node_at m c (DTree nm props subs) off used → name_arg m s name →
  ∃ m' used', fdt_delprop fdt off s m = Ok (match drop_prop props name with Some _ => 0 | None => - FDT_ERR_NOTFOUND end, m') ∧
    same_outside fdt size m m' ∧ used' <= used ∧
    node_at m' c (DTree nm (default props (drop_prop props name)) subs) off used'.
Proof using Type.
  intros Hat Hs. unfold fdt_delprop. rewrite (guard_node _ _ _ _ _ _ _ Hat).
  pose proof (strlen_arg _ _ _ _ _ _ _ Hat Hs) as Hstrlen. pose proof Hs as ((_ & _ & _ & ?) & _).
  assert (∀ pl k, fdt_get_property_namelen m fdt off s (Z.of_nat (length name)) = Ok pl →
    (rd (λ m, fdt_get_property m fdt off s) ≫= k : W Z) m = k pl m) as Hgo.
  { intros pl k Hg. apply wbind_rd. unfold fdt_get_property. rewrite Hstrlen. cbn [mbind res_bind].
    by rewrite s32_small by (unfold is_s32; lia). }
  pose proof Hat as (strings & xs & zs & ys & Him & Hx & Hz & Hy & -> & -> & Hsz & Hroot & Hrsv).
  apply node_items in Hz as (ps & ss & -> & Hp & Hss). pose proof (name_arg_input _ _ _ Hs) as (Hb & Hnz & Hs0 & Hst & _).
  destruct (prop_cases props name) as [Hn|(l & v & r & -> & Hn)].
  - rewrite drop_none by done. do 2 eexists. split_and!; [|done|reflexivity|exact Hat].
    rewrite (Hgo (0, - FDT_ERR_NOTFOUND)); [done|]. eapply (get_property_none _ _ _ _ _ _ _ _ _ Him Hsz); [|done..|lia]. by app_norm.
  - rewrite drop_some by done. cbn [default]. unfold id. apply prop_items in Hp as (pl & no & pr & -> & Hl & Hno & Hr).
    assert (xs ++ (IBegin nm :: (pl ++ IProp no v :: pr) ++ ss ++ [IEnd]) ++ ys =
      (xs ++ IBegin nm :: pl) ++ [IProp no v] ++ pr ++ ss ++ IEnd :: ys) as E1 by (by app_norm).
    assert (xs ++ (IBegin nm :: (pl ++ pr) ++ ss ++ [IEnd]) ++ ys =
      (xs ++ IBegin nm :: pl) ++ pr ++ ss ++ IEnd :: ys) as E2 by (by app_norm).
    destruct (remove_items _ _ _ _ _ _ _ _ _ Him Hsz _ _ _ E1) as (m' & Hsp & Him' & Hs').
    rewrite items_size_one, item_size_prop in Hsp. cbv beta in Him'. rewrite <- E2 in Him'.
    assert (Z.of_nat (length v) < 2 ^ 30) as Hv.
    { pose proof (im_ok _ _ _ _ _ _ _ _ _ Him) as Hok. rewrite E1 in Hok. apply Forall_app in Hok as [_ [[_ ?] _]%Forall_cons]. done. }
    pose proof (align4_ge (Z.of_nat (length v)) ltac:(lia)) as Hav.
    exists m'. eexists. split_and!; [|exact Hs'| |eapply rebuild; [exact Him'|exact Hsz|exact Hx|exact Hy| | |exact Hrsv]].
    + erewrite Hgo; [|apply (get_property_some _ _ _ _ _ _ _ _ _ Him Hsz xs nm pl no v pr l r ss subs ys); [by app_norm|done..|lia]].
      cbv iota beta. destruct (item_address _ _ _ _ _ _ _ _ _ Him Hsz _ _ E1) as (_ & H1 & _).
      destruct (im_buffer _ _ _ _ _ _ _ _ _ Him) as [_ _ [? _] _ _].
      destruct (Z.eqb_spec (fdt + image_struct r0 rsv + items_size (xs ++ IBegin nm :: pl)) 0); [lia|].
      rewrite tagalign_eq by lia. fold (align4 (Z.of_nat (length v))). by rewrite s32_small by (unfold is_s32; lia).
    + unfold image_strings. rewrite E1, E2, !items_size_app.
      pose proof (items_size_pos [IProp no v]). lia.
    + apply node_items. exists (pl ++ pr), ss. split_and!; [done| |done]. rewrite map_app. by apply Forall2_app.
    + by rewrite (root_name_plug _ _ (DTree nm (l ++ (name, v) :: r) subs)).
Qed.

(** [fdt_delprop] takes the first property of that name out of the node, or finds
    none and returns [-FDT_ERR_NOTFOUND]. *)
Theorem fdt_delprop_spec m c nm props subs off used s name :
  node_at m c (DTree nm props subs) off used → name_arg m s name →
  ∃ m' used', fdt_delprop fdt off s m = Ok (match drop_prop props name with Some _ => 0 | None => - FDT_ERR_NOTFOUND end, m') ∧
    same_outside fdt size m m' ∧ used' <= used ∧
    node_at m' c (DTree nm (default props (drop_prop props name)) subs) off used'.
Proof using Type. apply delprop_ok. Qed.

(** The items around a position are those of the parent, without the node. *)
Lemma frame_items strings xs ys f c :
  spelled strings xs (ops_before (f :: c)) → spelled strings ys (ops_after (f :: c)) →
  ∃ x1 x2 y1 y2, xs = x1 ++ x2 ∧ ys = y1 ++ IEnd :: y2 ∧
    spelled strings x1 (ops_before c) ∧ spelled strings y2 (ops_after c) ∧
    ∀ mid ts, spelled strings mid (flat_map ops ts) →
      spelled strings (x2 ++ mid ++ y1 ++ [IEnd]) (ops (DTree (f_name f) (f_props f) (f_left f ++ ts ++ f_right f))).
Proof using Type.
  cbn [ops_before ops_after]. intros (x1 & x2 & -> & H1 & H2)%spelled_app_inv Hy.
  apply spelled_app_inv in Hy as (y1 & y' & -> & H3 & Hy). apply Forall2_cons_inv_r in Hy as (it & y2 & Hit & Hy & ->).
  destruct it as [| |]; [done| |done]. exists x1, x2, y1, y2. split_and!; try done.
  intros mid ts Hm. rewrite ops_node, !flat_map_app.
  replace (node_ops (f_name f) (f_props f) ++ (flat_map ops (f_left f) ++ flat_map ops ts ++ flat_map ops (f_right f)) ++ [EndNode])
    with ((node_ops (f_name f) (f_props f) ++ flat_map ops (f_left f)) ++ flat_map ops ts ++ flat_map ops (f_right f) ++ [EndNode])
    by (by rewrite <- !app_assoc).
  repeat apply Forall2_app; try done. by repeat constructor.
Qed.

(** What holds at a node holds at its parent. *)
Lemma node_at_up m f c t off used :
  node_at m (f :: c) t off used → ∃ off', node_at m c (plug1 t f) off' used.
Proof using Type.
  intros (strings & xs & zs & ys & Him & Hx & Hz & Hy & -> & -> & Hsz & Hroot & Hrsv).
  destruct (frame_items _ _ _ _ _ Hx Hy) as (x1 & x2 & y1 & y2 & -> & -> & H1 & H2 & Hmid).
  assert ((x1 ++ x2) ++ zs ++ y1 ++ IEnd :: y2 = x1 ++ (x2 ++ zs ++ y1 ++ [IEnd]) ++ y2) as Eq by (by app_norm).
  rewrite Eq in Him |- *. eexists. apply (rebuild _ _ _ _ _ _ _ Him); try done.
  unfold plug1. change (t :: f_right f) with ([t] ++ f_right f). apply Hmid. cbn [flat_map]. by rewrite app_nil_r.
Qed.

Lemma del_node_ok m f c t off used :
  node_at m (f :: c) t off used →
  ∃ m' off' used', fdt_del_node fdt off m = Ok (0, m') ∧ same_outside fdt size m m' ∧ used' <= used ∧
    node_at m' c (DTree (f_name f) (f_props f) (f_left f ++ f_right f)) off' used'.
Proof using Type.
  intros Hat. unfold fdt_del_node. rewrite (guard_node _ _ _ _ _ _ _ Hat).
  destruct Hat as (strings & xs & zs & ys & Him & Hx & Hz & Hy & -> & -> & Hsz & Hroot & Hrsv).
  rewrite (wbind_rd _ _ _ _ (node_end_here _ _ _ _ _ _ _ _ _ Him Hsz xs zs ys t eq_refl Hz)).
  pose proof (items_size_pos xs). pose proof (items_size_pos zs). pose proof (items_size_pos ys).
  rewrite !items_size_app. destruct (Z.ltb_spec (items_size xs + items_size zs) 0); [lia|].
  destruct (item_address _ _ _ _ _ _ _ _ _ Him Hsz _ _ eq_refl) as (_ & Ha1 & Ha2 & Ha3 & Ha4).
  destruct (im_buffer _ _ _ _ _ _ _ _ _ Him) as [_ _ [? _] _ _]. rewrite items_size_app in Ha2.
  rewrite (wbind_rd _ _ _ (fdt + image_struct r0 rsv + items_size xs)).
  2: { unfold fdt_offset_ptr_. rewrite (get_struct _ _ _ _ _ _ _ _ _ Him Hsz). cbn [mbind res_bind].
       by rewrite u32_small by (unfold is_u32; lia). }
  pose proof (image_bounds _ _ _ _ _ _ _ _ _ Him Hsz) as Hbd. rewrite !items_size_app in Hbd.
  replace (items_size xs + items_size zs - items_size xs) with (items_size zs) by lia.
  rewrite s32_small by (unfold is_s32; lia).
  destruct (remove_items _ _ _ _ _ _ _ _ _ Him Hsz xs zs ys eq_refl) as (m' & He & Him' & Hs'). cbv beta in Him'.
  destruct (frame_items _ _ _ _ _ Hx Hy) as (x1 & x2 & y1 & y2 & -> & -> & Hx1 & Hy2 & Hmid).
  assert ((x1 ++ x2) ++ y1 ++ IEnd :: y2 = x1 ++ (x2 ++ [] ++ y1 ++ [IEnd]) ++ y2) as Eq by (by app_norm).
  rewrite Eq in Him'. exists m'. do 2 eexists. split_and!; [exact He|done| |apply (rebuild _ _ _ _ _ _ _ Him'); try done].
  - rewrite <- Eq. unfold image_strings. rewrite !items_size_app in *. lia.
  - change (f_left f ++ f_right f) with (f_left f ++ [] ++ f_right f). apply Hmid. done.
  - rewrite <- Hroot. cbn [plug foldl]. by apply root_name_plug.
Qed.

(** C24: [fdt_del_node] takes a subnode with all that is below it out of the tree. *)
Theorem fdt_del_node_spec m f c t off used :
  node_at m (f :: c) t off used →
  ∃ m' off' used', fdt_del_node fdt off m = Ok (0, m') ∧ same_outside fdt size m m' ∧ used' <= used ∧
    node_at m' c (DTree (f_name f) (f_props f) (f_left f ++ f_right f)) off' used'.
Proof using Type. apply del_node_ok. Qed.

Lemma add_subnode_ok m c nm props subs off used s name :
  node_at m c (DTree nm props subs) off used → name_arg m s name →
  ∃ r m', fdt_add_subnode fdt off s m = Ok (r, m') ∧ same_outside fdt size m m' ∧
    if existsb (λ u, name_matches name (root_name u)) subs then r = - FDT_ERR_EXISTS ∧ m' = m
    else
      let used' := used + (8 + align4 (Z.of_nat (length name) + 1)) in
      if used' <=? total then 0 <= r ∧ node_at m' (Frame nm props [] subs :: c) (DTree name [] []) r used'
      else r = - FDT_ERR_NOSPACE ∧ m' = m.
Proof using Type.
  intros Hat Hs. pose proof (node_valid _ _ _ _ _ _ _ _ _ _ _ Hat) as Hval. unfold fdt_add_subnode.
  rewrite (wbind_rd _ _ _ _ (strlen_arg _ _ _ _ _ _ _ Hat Hs)). pose proof Hs as (_ & Hap & _ & Hl30).
  rewrite s32_small by (unfold is_s32; lia). unfold fdt_add_subnode_namelen. rewrite (guard_node _ _ _ _ _ _ _ Hat).
  pose proof (name_arg_input _ _ _ Hs) as (Hb & Hnz & Hs0 & Hst & _).
  destruct Hat as (strings & xs & zs & ys & Him & Hx & Hz & Hy & -> & -> & Hsz & Hroot & Hrsv).
  apply node_items in Hz as (ps & ss & -> & Hp & Hss).
  set (its := xs ++ (IBegin nm :: ps ++ ss ++ [IEnd]) ++ ys) in *.
  assert (its = xs ++ IBegin nm :: ps ++ ss ++ IEnd :: ys) as E1 by (unfold its; by app_norm).
  assert (its = (xs ++ [IBegin nm]) ++ ps ++ ss ++ IEnd :: ys) as E2 by (by rewrite E1, <- app_assoc).
  assert (its = (xs ++ IBegin nm :: ps) ++ ss ++ IEnd :: ys) as E3 by (rewrite E1; by app_norm).
  destruct (subnode_here _ _ _ _ _ _ _ _ _ Him Hsz c xs nm ps props ss subs ys s name E1 Hp Hss Hy Hval Hb Hs0 ltac:(lia))
    as (r & Hr & Hfound). rewrite (wbind_rd _ _ _ _ Hr).
  destruct (existsb _ subs).
  { destruct (Z.leb_spec 0 r); [|lia]. by exists (- FDT_ERR_EXISTS), m. }
  subst r. change (0 <=? - FDT_ERR_NOTFOUND) with false. rewrite Z.eqb_refl. cbn [negb].
  destruct (item_tag_at _ _ _ _ _ _ _ _ _ Him Hsz _ _ _ E1) as [Htag _]. cbn [item_tag] in Htag.
  rewrite (wbind_rd _ _ _ _ Htag). cbv iota beta. rewrite Z.eqb_refl. cbn [negb].
  rewrite (wbind_rd _ _ _ _ (skip_here _ _ _ _ _ _ _ _ _ Him Hsz _ _ _ _ _ _ E2 Hp Hss)).
  replace ((xs ++ [IBegin nm]) ++ ps) with (xs ++ IBegin nm :: ps) by (by app_norm).
  destruct (item_address _ _ _ _ _ _ _ _ _ Him Hsz _ _ E3) as (_ & Ha1 & Ha2 & Ha3 & Ha4).
  destruct (im_buffer _ _ _ _ _ _ _ _ _ Him) as [_ _ [? _] _ _]. pose proof (items_size_pos (ss ++ IEnd :: ys)).
  set (p := fdt + image_struct r0 rsv + items_size (xs ++ IBegin nm :: ps)) in *.
  rewrite (wbind_rd _ _ _ p).
  2: { unfold fdt_offset_ptr_. rewrite (get_struct _ _ _ _ _ _ _ _ _ Him Hsz). cbn [mbind res_bind].
       by rewrite u32_small by (unfold is_u32; unfold p in *; lia). }
  unfold FDT_TAGSIZE. rewrite tagalign_eq by lia. fold (align4 (Z.of_nat (length name) + 1)).
  pose proof (align4_ge (Z.of_nat (length name) + 1) ltac:(lia)) as Hal.
  pose proof (insert_node _ _ _ _ _ _ _ _ _ Him Hsz _ _ s name E3 Hb Hnz Hl30) as Hins.
  specialize (Hins ltac:(unfold apart in *; lia) Hs0 ltac:(lia)). cbv zeta in Hins. fold p in Hins.
  remember (align4 (Z.of_nat (length name) + 1)) as al eqn:Eal. cbv zeta.
  pose proof (image_bounds _ _ _ _ _ _ _ _ _ Him Hsz) as Hbd.
  replace (s32 (4 + al + 4)) with (8 + al) by (rewrite s32_small; [lia|unfold is_s32; lia]).
  destruct (Z.leb_spec (image_strings r0 rsv its + Z.of_nat (length strings) + (8 + al)) total) as [Hfit|].
  2: { rewrite (wbind_ok _ _ _ _ _ Hins). by exists (- FDT_ERR_NOSPACE), m. }
  destruct Hins as (m1 & m' & Hsp & Hput & Him' & Hs'). rewrite (wbind_ok _ _ _ _ _ Hsp). cbn [Z.eqb negb].
  exists (items_size (xs ++ IBegin nm :: ps)), m'. split_and!; [|done|apply items_size_pos|].
  - rewrite (u32_small (p + 4)), (u32_small (Z.of_nat (length name))), (u32_small (p + (8 + al) - 4)) by (unfold is_u32; lia).
    revert Hput. clear. unfold mbind, W_bind. destruct (fdt32_put p FDT_BEGIN_NODE m1) as [[? ?]| |]; [|done..].
    destruct (memset _ _ _ _) as [[? ?]| |]; [|done..]. destruct (memcpy _ _ _ _) as [[? ?]| |]; [|done..].
    by intros ->.
  - exists strings, (xs ++ IBegin nm :: ps), [IBegin name; IEnd], (ss ++ IEnd :: ys). split_and!; try done.
    + cbn [ops_before f_name f_props f_left flat_map]. rewrite app_nil_r. apply Forall2_app; [done|]. by constructor.
    + by repeat constructor.
    + cbn [ops_after f_right]. apply Forall2_app; [done|]. by constructor.
    + unfold image_strings. rewrite E3, !items_size_app.
      assert (items_size [IBegin name; IEnd] = 8 + al) as ->; [|lia].
      cbn [items_size foldr]. rewrite item_size_begin, <- Eal. change (item_size IEnd) with 4. lia.
    + cbn [plug foldl]. rewrite <- Hroot. by apply root_name_plug.
Qed.

(** C23: [fdt_add_subnode] gives a node an empty first subnode of that name and returns its
    offset, unless it has a subnode of the name ([-FDT_ERR_EXISTS]) or the new node does
    not fit ([-FDT_ERR_NOSPACE]); then nothing is written. *)
Theorem fdt_add_subnode_spec m c nm props subs off used s name :
  node_at m c (DTree nm props subs) off used → name_arg m s name →
  ∃ r m', fdt_add_subnode fdt off s m = Ok (r, m') ∧ same_outside fdt size m m' ∧
    if existsb (λ u, name_matches name (root_name u)) subs then r = - FDT_ERR_EXISTS ∧ m' = m
    else
      let used' := used + (8 + align4 (Z.of_nat (length name) + 1)) in
      if used' <=? total then 0 <= r ∧ node_at m' (Frame nm props [] subs :: c) (DTree name [] []) r used'
      else r = - FDT_ERR_NOSPACE ∧ m' = m.
Proof using Type. apply add_subnode_ok. Qed.
End at_position.

(* ------------------------------------------------------------------ *)
(** * Names and values that grow *)

Section growing.
Context (fdt size total r0 cpuid : Z) (rsv : list (Z * Z)).
#[local] Abbreviation node_at := (node_at fdt size total r0 cpuid rsv).

(** [fdt_set_name] gives a subnode another name, or finds no space for it and leaves
    the tree as it is. *)
Theorem fdt_set_name_spec m f c nm props subs off used s name :
  node_at m (f :: c) (DTree nm props subs) off used → name_arg fdt size m s name →
  let used' := used - align4 (Z.of_nat (length nm) + 1) + align4 (Z.of_nat (length name) + 1) in
  if used' <=? total then
    ∃ m', fdt_set_name fdt off s m = Ok (0, m') ∧ same_outside fdt size m m' ∧
      node_at m' (f :: c) (DTree name props subs) off used'
  else fdt_set_name fdt off s m = Ok (- FDT_ERR_NOSPACE, m).
Proof using Type.
  intros Hat Hs used'. unfold fdt_set_name. rewrite (guard_node _ _ _ _ _ _ _ _ _ _ _ _ _ Hat).
  pose proof (strlen_arg _ _ _ _ _ _ _ _ _ _ _ _ _ Hat Hs) as Hlen.
  destruct Hs as (Hcn & Hap & Hlf & Hl30). pose proof Hcn as ((_ & Hnz & _) & Hs0 & Hst & _).
  pose proof (c_name_bytes _ _ _ Hcn) as Hb.
  destruct Hat as (strings & xs & zs & ys & Him & Hx & Hz & Hy & -> & Eu & Hsz & Hroot & Hrsv).
  apply node_items in Hz as (ps & ss & -> & Hp & Hss).
  assert (xs ++ (IBegin nm :: ps ++ ss ++ [IEnd]) ++ ys = xs ++ [IBegin nm] ++ (ps ++ ss ++ IEnd :: ys)) as E1 by (by app_norm).
  destruct (image_node_name _ _ _ _ _ _ _ _ _ Him Hsz xs nm _ E1) as [_ Hg].
  destruct (item_address _ _ _ _ _ _ _ _ _ Him Hsz _ _ E1) as (_ & Ha1 & Ha2 & Ha3 & Ha4).
  rewrite (items_size_app [IBegin nm]), items_size_one, item_size_begin in Ha2. pose proof (items_size_pos (ps ++ ss ++ IEnd :: ys)).
  destruct (im_buffer _ _ _ _ _ _ _ _ _ Him) as [_ _ [? _] _ _].
  assert (Z.of_nat (length nm) < 2 ^ 30) as Hnm30.
  { pose proof (im_ok _ _ _ _ _ _ _ _ _ Him) as Hok. rewrite E1 in Hok. apply Forall_app in Hok as [_ [[_ ?] _]%Forall_cons]. done. }
  pose proof (rename_item _ _ _ _ _ _ _ _ _ Him Hsz xs nm _ s name E1 Hb Hnz Hl30 Hap Hs0 ltac:(lia)) as Hre. cbv zeta in Hre.
  rewrite <- Eu in Hre. fold used' in Hre.
  rewrite (wbind_rd _ _ _ _ Hg). cbv iota beta.
  destruct (Z.eqb_spec (fdt + image_struct r0 rsv + items_size xs + 4) 0); [lia|].
  rewrite (wbind_rd _ _ _ (Z.of_nat (length name))).
  2: { rewrite Hlen. cbn [mbind res_bind]. by rewrite s32_small by (unfold is_s32; lia). }
  rewrite !tagalign_eq by lia. fold (align4 (Z.of_nat (length nm) + 1)) (align4 (Z.of_nat (length name) + 1)).
  pose proof (align4_ge (Z.of_nat (length nm) + 1) ltac:(lia)). pose proof (align4_ge (Z.of_nat (length name) + 1) ltac:(lia)).
  rewrite !s32_small by (unfold is_s32; lia).
  destruct (used' <=? total); [|by rewrite (wbind_ok _ _ _ _ _ Hre)].
  destruct Hre as (m1 & m' & Hsp & Hcpy & Him' & Hs'). rewrite (wbind_ok _ _ _ _ _ Hsp). cbn [Z.eqb negb].
  rewrite u32_small by (unfold is_u32; lia). rewrite (wbind_ok _ _ _ _ _ Hcpy). exists m'. split_and!; [done|done|].
  assert ((xs ++ [IBegin name] ++ ps ++ ss ++ IEnd :: ys) = xs ++ (IBegin name :: ps ++ ss ++ [IEnd]) ++ ys) as E2 by (by app_norm).
  rewrite E2 in Him'. exists strings, xs, (IBegin name :: ps ++ ss ++ [IEnd]), ys. split_and!; try done.
  - apply node_items. by exists ps, ss.
  - unfold used'. rewrite Eu, <- E2, E1. unfold image_strings. rewrite !(items_size_app xs), !(items_size_app [_]), !items_size_one, !item_size_begin.
    lia.
  - rewrite <- Hroot. cbn [plug foldl]. by apply root_name_plug.
Qed.

(** The properties with more bytes for the first one of a name. *)
Fixpoint extend_prop (props : list (list Z * list Z)) (name val : list Z) : option (list (list Z * list Z)) :=
  match props with
  | [] => None
  | (n, v) :: props =>
      if decide (n = name) then Some ((n, v ++ val) :: props) else cons (n, v) <$> extend_prop props name val
  end.
Definition append_prop (props : list (list Z * list Z)) (name val : list Z) : list (list Z * list Z) :=
  default ((name, val) :: props) (extend_prop props name val).

Lemma append_none props name val : name ∉ props.*1 → append_prop props name val = (name, val) :: props.
Proof using Type.
  intros Hn. unfold append_prop. assert (extend_prop props name val = None) as ->; [|done].
  induction props as [|[n v] props IH]; [done|]. rewrite fmap_cons, not_elem_of_cons in Hn. destruct Hn as [Hne Hn].
  cbn in *. rewrite decide_False by congruence. by rewrite IH.
Qed.

Lemma append_some l v r name val :
  name ∉ l.*1 → append_prop (l ++ (name, v) :: r) name val = l ++ (name, v ++ val) :: r.
Proof using Type.
  intros Hn. unfold append_prop. assert (extend_prop (l ++ (name, v) :: r) name val = Some (l ++ (name, v ++ val) :: r)) as ->; [|done].
  induction l as [|[n w] l IH]; [cbn; by rewrite decide_True|]. rewrite fmap_cons, not_elem_of_cons in Hn.
  destruct Hn as [Hne Hn]. cbn in *. rewrite decide_False by congruence. by rewrite IH.
Qed.

Lemma get_property_arg m c t off used s name :
  node_at m c t off used → name_arg fdt size m s name →
  fdt_get_property m fdt off s = fdt_get_property_namelen m fdt off s (Z.of_nat (length name)).
Proof using Type.
  intros Hat Hs. unfold fdt_get_property. rewrite (strlen_arg _ _ _ _ _ _ _ _ _ _ _ _ _ Hat Hs). cbn [mbind res_bind].
  destruct Hs as (_ & _ & _ & ?). by rewrite s32_small by (unfold is_s32; lia).
Qed.

Lemma get_property_absent m c nm props subs off used s name :
  node_at m c (DTree nm props subs) off used → name_arg fdt size m s name → name ∉ props.*1 →
  fdt_get_property m fdt off s = Ok (0, - FDT_ERR_NOTFOUND).
Proof using Type.
  intros Hat Hs Hn. rewrite (get_property_arg _ _ _ _ _ _ _ Hat Hs).
  destruct Hat as (strings & xs & zs & ys & Him & Hx & Hz & Hy & -> & _ & Hsz & _).
  apply node_items in Hz as (ps & ss & -> & Hp & Hss). apply name_arg_input in Hs as (Hb & Hnz & Hs0 & Hst & _).
  eapply (get_property_none _ _ _ _ _ _ _ _ _ Him Hsz); [|done..|lia]. by app_norm.
Qed.

(** [fdt_appendprop] puts bytes behind the value of the first property of that name,
    or sets it if there is none; without space for them the tree is as before. *)
Theorem fdt_appendprop_spec m c nm props subs off used s name v val :
  node_at m c (DTree nm props subs) off used → name_arg fdt size m s name → data_arg fdt size m v val →
  Forall (λ p, Z.of_nat (length p.2 + length val) < 2 ^ 30) props →
  ∃ rc m', fdt_appendprop fdt off s v (Z.of_nat (length val)) m = Ok (rc, m') ∧ same_outside fdt size m m' ∧
    if rc =? 0 then ∃ used', used' <= used + growth name (Z.of_nat (length val)) ∧
      node_at m' c (DTree nm (append_prop props name val) subs) off used'
    else rc = - FDT_ERR_NOSPACE ∧ total < used + growth name (Z.of_nat (length val)) ∧
      node_at m' c (DTree nm props subs) off used.
Proof using Type.
  intros Hat Hs Hv Hlens. unfold fdt_appendprop, growth. rewrite (guard_node _ _ _ _ _ _ _ _ _ _ _ _ _ Hat).
  pose proof Hv as (_ & _ & _ & _ & Hv30). pose proof (strlen_arg _ _ _ _ _ _ _ _ _ _ _ _ _ Hat Hs) as Hlen.
  pose proof Hs as (_ & _ & _ & Hn30). pose proof (align4_ge (Z.of_nat (length val)) ltac:(lia)) as Hal.
  destruct (prop_cases props name) as [Hn|(l & w & r & -> & Hn)].
  - rewrite (wbind_rd _ _ _ _ (get_property_absent _ _ _ _ _ _ _ _ _ Hat Hs Hn)), append_none by done. cbv iota beta.
    cbn [Z.eqb negb]. rewrite (wbind_rd _ _ _ _ Hlen), s32_small by (unfold is_s32; lia).
    destruct (add_ok _ _ _ _ _ _ _ _ _ _ _ _ _ _ _ (Z.of_nat (length val)) Hat Hs ltac:(lia)) as (rc & prop & m1 & He & Hs1 & Hr).
    rewrite (wbind_ok _ _ _ _ _ He). cbv iota beta. destruct (Z.eqb_spec rc 0) as [-> |]; cbn [negb].
    2: { exists rc, m1. destruct (Z.eqb_spec rc 0); [done|]. destruct Hr as (? & ? & ?). by split_and!. }
    destruct Hr as (g & used' & Hg & Hu & _ & Ha0 & Ha1 & _ & Hwrite).
    destruct (Hwrite [] g v val) as (m' & Hcpy & Hat' & Hs'); [done|lia|by eapply data_arg_same|].
    cbn [length Z.of_nat] in Hcpy. rewrite Z.add_0_r in Hcpy. rewrite (u32_small (prop + 12)), (u32_small (Z.of_nat _)) by (unfold is_u32; lia).
    rewrite (wbind_ok _ _ _ _ _ Hcpy). exists 0, m'. split_and!; [done|intros x Hx; rewrite Hs', Hs1; done|].
    cbn [Z.eqb]. exists used'. split; [exact Hu|exact Hat'].
  - apply Forall_app in Hlens as [_ [Hw30 _]%Forall_cons]. cbn [snd] in Hw30. rewrite append_some by done.
    destruct (resize_ok _ _ _ _ _ _ _ _ _ _ _ _ _ _ _ _ _ (Z.of_nat (length val) + Z.of_nat (length w)) Hat Hn Hs ltac:(lia))
      as (prop & Hg & Hp0 & Hp1 & _ & Hre).
    rewrite <- (get_property_arg _ _ _ _ _ _ _ Hat Hs) in Hg. rewrite (wbind_rd _ _ _ _ Hg). cbv iota beta zeta.
    destruct (Z.eqb_spec prop 0); [lia|]. cbn [negb].
    pose proof (align4_ge (Z.of_nat (length w)) ltac:(lia)) as Haw.
    pose proof (align4_ge (Z.of_nat (length val) + Z.of_nat (length w)) ltac:(lia)) as Hawv.
    assert (align4 (Z.of_nat (length val) + Z.of_nat (length w)) <= align4 (Z.of_nat (length w)) + align4 (Z.of_nat (length val))) as Hsum
      by (unfold align4; Z.div_mod_to_equations; lia).
    rewrite (s32_small (Z.of_nat (length val) + _)) by (unfold is_s32; lia). rewrite !s32_tagalign, (u32_small (prop + 12)) by (unfold is_u32; lia).
    destruct (Z.leb_spec (used - align4 (Z.of_nat (length w)) + align4 (Z.of_nat (length val) + Z.of_nat (length w))) total).
    2: { rewrite (wbind_ok _ _ _ _ _ Hre). exists (- FDT_ERR_NOSPACE), m. change (- FDT_ERR_NOSPACE =? 0) with false. cbn [negb].
         split_and!; [done|done|done|lia|done]. }
    destruct Hre as (m1 & m2 & g & Hsp & Hput & Hs2 & Hlg & Hpre & _ & Ha0 & Ha1 & _ & Hwrite).
    rewrite (wbind_ok _ _ _ _ _ Hsp). cbn [Z.eqb negb].
    rewrite (u32_small (prop + 4)), (u32_small (Z.of_nat (length val) + _)) by (unfold is_u32; lia). rewrite (wbind_ok _ _ _ _ _ Hput).
    destruct (Hwrite w (drop (length w) g) v val) as (m' & Hcpy & Hat' & Hs').
    { rewrite <- (take_drop (length w) g) at 1. by rewrite Hpre by lia. }
    { rewrite length_drop. lia. }
    { by eapply data_arg_same. }
    rewrite (u32_small (prop + 12 + _)), (u32_small (Z.of_nat _)) by (unfold is_u32; lia). rewrite (wbind_ok _ _ _ _ _ Hcpy).
    exists 0, m'. split_and!; [done|intros x Hx; rewrite Hs', Hs2; done|]. cbn [Z.eqb]. eexists. split; [|exact Hat']. lia.
Qed.
End growing.

(* ------------------------------------------------------------------ *)
(** * Examples *)

Definition reg : list Z := chars "reg".
Definition memory : list Z := chars "memory".
Lemma reg_arg : name_arg tree_addr 512 sw_memory (sw_place reg) reg.
Proof.
  split; [apply memory_string; vm_compute; reflexivity|]. split; [left; vm_compute; discriminate|]. by split.
Qed.
Lemma memory_arg : name_arg tree_addr 512 sw_memory (sw_place memory) memory.
Proof.
  split; [apply memory_string; vm_compute; reflexivity|]. split; [left; vm_compute; discriminate|]. by split.
Qed.
Lemma memory_data : data_arg tree_addr 512 sw_memory (sw_place memory) memory.
Proof.
  split; [apply memory_bytes; vm_compute; reflexivity|]. split; [left; vm_compute; discriminate|]. by split_and!.
Qed.

(** The property is set in an empty tree, and the tree reads so. *)
Lemma fdt_setprop_spec_witness :
  ∃ m m', fdt_setprop tree_addr 0 (sw_place reg) (sw_place memory) 6 m = Ok (0, m') ∧
    fdt_check_full m' tree_addr 512 = Ok 0 ∧
    ∃ d, block_at m' tree_addr 0 (Some d) ∧ read_tree m' tree_addr d = DTree [] [(reg, memory)] [].
Proof.
  destruct (empty_sample 512 ltac:(lia)) as (m & Hat & Hs).
  destruct (fdt_setprop_spec tree_addr 512 512 48 0 [(0, 0)] m [] [] [] [] 0 80 (sw_place reg) reg (sw_place memory) memory Hat)
    as (rc & m' & He & _ & Hr);
    [by eapply name_arg_same, reg_arg|by eapply data_arg_same, memory_data|].
  exists m, m'. destruct (Z.eqb_spec rc 0) as [-> |].
  - destruct Hr as (used' & _ & Hat'). destruct (node_at_reads _ _ _ _ _ _ _ _ _ _ _ Hat') as (_ & Hc & _ & _ & Hd).
    split; [exact He|]. split; [exact Hc|exact Hd].
  - destruct Hr as (_ & Hlt & _). vm_compute in Hlt. discriminate.
Defined.

Lemma fdt_add_subnode_spec_witness :
  ∃ m r m', fdt_add_subnode tree_addr 0 (sw_place memory) m = Ok (r, m') ∧
    node_at tree_addr 512 512 48 0 [(0, 0)] m' [Frame [] [] [] []] (DTree memory [] []) r 96.
Proof.
  destruct (empty_sample 512 ltac:(lia)) as (m & Hat & Hs).
  destruct (fdt_add_subnode_spec tree_addr 512 512 48 0 [(0, 0)] m [] [] [] [] 0 80 (sw_place memory) memory Hat)
    as (r & m' & He & _ & _ & Hat'); [by eapply name_arg_same, memory_arg|].
  exists m, r, m'. split; [exact He|exact Hat'].
Defined.

(** A tree with a subnode, and one with a property. *)
Lemma subnode_sample :
  ∃ m r, node_at tree_addr 512 512 48 0 [(0, 0)] m [Frame [] [] [] []] (DTree memory [] []) r 96 ∧
    same_outside tree_addr 512 sw_memory m.
Proof.
  destruct (empty_sample 512 ltac:(lia)) as (m & Hat & Hs).
  destruct (add_subnode_ok tree_addr 512 512 48 0 [(0, 0)] m [] [] [] [] 0 80 (sw_place memory) memory Hat)
    as (r & m' & _ & Hs' & _ & Hat'); [by eapply name_arg_same, memory_arg|].
  exists m', r. split; [exact Hat'|]. intros x Hx. rewrite Hs', Hs; done.
Qed.

Lemma property_sample :
  ∃ m used, node_at tree_addr 512 512 48 0 [(0, 0)] m [] (DTree [] [(reg, memory)] []) 0 used ∧
    used <= 104 ∧ same_outside tree_addr 512 sw_memory m.
Proof.
  destruct (empty_sample 512 ltac:(lia)) as (m & Hat & Hs).
  destruct (setprop_ok tree_addr 512 512 48 0 [(0, 0)] m [] [] [] [] 0 80 (sw_place reg) reg (sw_place memory) memory Hat)
    as (rc & m' & _ & Hs' & Hr);
    [by eapply name_arg_same, reg_arg|by eapply data_arg_same, memory_data|].
  destruct (Z.eqb_spec rc 0); [|by destruct Hr as (_ & Hlt & _)].
  destruct Hr as (used' & Hu & Hat'). exists m', used'. split; [exact Hat'|]. split; [exact Hu|]. intros x Hx. rewrite Hs', Hs; done.
Qed.

Lemma fdt_delprop_spec_witness :
  ∃ m m' used', fdt_delprop tree_addr 0 (sw_place reg) m = Ok (0, m') ∧
    node_at tree_addr 512 512 48 0 [(0, 0)] m' [] (DTree [] [] []) 0 used'.
Proof.
  destruct property_sample as (m & used & Hat & Hu & Hs).
  destruct (fdt_delprop_spec tree_addr 512 512 48 0 [(0, 0)] m [] [] [(reg, memory)] [] 0 used (sw_place reg) reg Hat)
    as (m' & used' & He & _ & _ & Hat'); [by eapply name_arg_same, reg_arg|].
  exists m, m', used'. split; [exact He|exact Hat'].
Defined.

Lemma fdt_del_node_spec_witness :
  ∃ m r m' off' used', fdt_del_node tree_addr r m = Ok (0, m') ∧
    node_at tree_addr 512 512 48 0 [(0, 0)] m' [] (DTree [] [] []) off' used'.
Proof.
  destruct subnode_sample as (m & r & Hat & _).
  destruct (fdt_del_node_spec tree_addr 512 512 48 0 [(0, 0)] m (Frame [] [] [] []) [] (DTree memory [] []) r 96 Hat)
    as (m' & off' & used' & He & _ & _ & Hat').
  exists m, r, m', off', used'. split; [exact He|exact Hat'].
Defined.

Lemma fdt_set_name_spec_witness :
  ∃ m r m', fdt_set_name tree_addr r (sw_place reg) m = Ok (0, m') ∧
    node_at tree_addr 512 512 48 0 [(0, 0)] m' [Frame [] [] [] []] (DTree reg [] []) r 92.
Proof.
  destruct subnode_sample as (m & r & Hat & Hs).
  destruct (fdt_set_name_spec tree_addr 512 512 48 0 [(0, 0)] m (Frame [] [] [] []) [] memory [] [] r 96 (sw_place reg) reg Hat)
    as (m' & He & _ & Hat'); [by eapply name_arg_same, reg_arg|].
  exists m, r, m'. split; [exact He|exact Hat'].
Defined.

Lemma fdt_appendprop_spec_witness :
  ∃ m m' used', fdt_appendprop tree_addr 0 (sw_place reg) (sw_place memory) 6 m = Ok (0, m') ∧
    node_at tree_addr 512 512 48 0 [(0, 0)] m' [] (DTree [] [(reg, memory ++ memory)] []) 0 used'.
Proof.
  destruct property_sample as (m & used & Hat & Hu & Hs).
  destruct (fdt_appendprop_spec tree_addr 512 512 48 0 [(0, 0)] m [] [] [(reg, memory)] [] 0 used (sw_place reg) reg
    (sw_place memory) memory Hat) as (rc & m' & He & _ & Hr);
    [by eapply name_arg_same, reg_arg|by eapply data_arg_same, memory_data|by repeat constructor|].
  destruct (Z.eqb_spec rc 0) as [-> |].
  - destruct Hr as (used' & _ & Hat'). exists m, m', used'. split; [exact He|exact Hat'].
  - destruct Hr as (_ & Hlt & _). change (growth reg (Z.of_nat (length memory))) with 24 in Hlt. lia.
Defined.
