(* ===== verification/FdtPositions.v ===== *)
(** Places in a tree as positions: what the walks and searches of fdt_ro.c come to, in
    terms of the tree that an image holds and of the frames around each of its nodes. *)
From S2P Require Import Prelude Machine Crt0 SampleTree Fdt FdtRo FdtCheck FdtTree FdtLookup FdtPath FdtWrite FdtSw FdtRw FdtImage FdtBuild FdtFinish FdtRead FdtEdit FdtNode FdtChildren FdtPack FdtTreeEdit.
From stdpp Require Import base list gmap.
From Stdlib Require Import ZArith Lia.
#[local] Open Scope Z_scope.

(* ------------------------------------------------------------------ *)
(** * One parse of a tree *)

(** Two tags at one offset are the same. *)
Ltac same_tag := match goal with
  | H1 : tag_at ?m ?fdt ?o _ _, H2 : tag_at ?m ?fdt ?o _ _ |- _ =>
      pose proof (proj1 (tag_at_unique m fdt _ _ _ _ _ H1 H2)); pose proof (proj2 (tag_at_unique m fdt _ _ _ _ _ H1 H2));
      subst; try discriminate
  end.

Section unique.
Context (m : mem) (fdt : Z).
Lemma props_at_unique off ps ps' : props_at m fdt off ps → props_at m fdt off ps' → ps = ps'.
Proof.
  intros H. revert ps'. induction H as [off tag next Ht Htag|off next ps Ht _ IH|off next ps Ht _ _ IH]; intros ps' H'.
  - inversion H'; subst; same_tag; [done|by destruct Htag..].
  - inversion H'; subst; same_tag; [by match goal with Hor : _ ∨ _ |- _ => destruct Hor end|by apply IH].
  - inversion H'; subst; same_tag; [by match goal with Hor : _ ∨ _ |- _ => destruct Hor end|]. f_equal. by apply IH.
Qed.

Lemma subs_at_unique off ts a ts' a' : subs_at m fdt off ts a → subs_at m fdt off ts' a' → ts = ts' ∧ a = a'.
Proof.
  intros H. revert ts' a'. induction H as [off a Ht|off next ts a Ht _ IH|off next ts a Ht _ _ IH|
    off next ps ss mid ts a Ht Hp _ IH1 _ IH2]; intros ts' a' H'; inversion H'; subst; same_tag; [done|by apply IH..|].
  match goal with
  | Hp' : props_at _ _ _ ?ps', Hs' : subs_at _ _ _ ?ss' ?mid', Hr' : subs_at _ _ ?mid' _ _ |- _ =>
      destruct (IH1 _ _ Hs') as [<- <-]; destruct (IH2 _ _ Hr') as [<- <-]; by rewrite (props_at_unique _ _ _ Hp Hp')
  end.
Qed.

(** The nodes that the walk comes to are told apart by their offsets. *)
Lemma at_node_unique t d l t' d' l' :
  at_node m fdt t d l → at_node m fdt t' d' l' → node_off t = node_off t' → t = t'.
Proof.
  destruct t as [o ps ss], t' as [o' ps' ss']. cbn. intros (n & p & _ & Ht & Hp & Hr & _) (n' & p' & _ & Ht' & Hp' & Hr' & _) <-.
  cbn [node_off node_props node_subs] in *. same_tag. inversion Hr; subst. inversion Hr'; subst.
  match goal with
  | H1 : subs_at _ _ ?n ss _, H2 : subs_at _ _ ?n ss' _ |- _ => destruct (subs_at_unique _ _ _ _ _ H1 H2) as [<- _]
  end.
  by rewrite (props_at_unique _ _ _ Hp Hp').
Qed.
End unique.

(* ------------------------------------------------------------------ *)
(** * Positions *)

(** A node with what is around it. *)
Abbreviation position := (list frame * dtree)%type.

(** The positions of a node and of those below it, in preorder. *)
Definition below_with (pos : list frame → dtree → list position) (c : list frame) (nm : list Z)
    (props : list (list Z * list Z)) : list dtree → list dtree → list position :=
  fix below (l r : list dtree) :=
    match r with
    | [] => []
    | u :: r' => pos (Frame nm props l r' :: c) u ++ below (l ++ [u]) r'
    end.
Fixpoint positions (c : list frame) (t : dtree) : list position :=
  let 'DTree nm props subs := t in (c, t) :: below_with positions c nm props [] subs.

(** The first subnode whose name matches. *)
Fixpoint child_from (name : list Z) (c : list frame) (nm : list Z) (props : list (list Z * list Z)) (l r : list dtree) :
    option position :=
  match r with
  | [] => None
  | u :: r' =>
      if name_matches name (root_name u) then Some (Frame nm props l r' :: c, u)
      else child_from name c nm props (l ++ [u]) r'
  end.
Definition pos_child (p : position) (name : list Z) : option position :=
  let '(c, DTree nm props subs) := p in child_from name c nm props [] subs.
Definition pos_place (p : position) : Z := node_place p.1.

Lemma child_from_spec name c nm props l r :
  match child_from name c nm props l r with
  | Some p => ∃ r1 u r2, r = r1 ++ u :: r2 ∧ p = (Frame nm props (l ++ r1) r2 :: c, u) ∧
      existsb (λ t, name_matches name (root_name t)) r1 = false ∧ name_matches name (root_name u) = true
  | None => existsb (λ t, name_matches name (root_name t)) r = false
  end.
Proof.
  revert l. induction r as [|u r IH]; intros l; [done|]. cbn [child_from existsb].
  destruct (name_matches name (root_name u)) eqn:E; cbn [orb].
  - exists [], u, r. by rewrite app_nil_r.
  - specialize (IH (l ++ [u])). destruct (child_from name c nm props (l ++ [u]) r) as [p|]; [|done].
    destruct IH as (r1 & v & r2 & -> & -> & Hr1 & Hv). exists (u :: r1), v, r2. rewrite <- app_assoc.
    split_and!; [done|done| |done]. cbn [existsb]. by rewrite E.
Qed.

Lemma node_place_below nm props l r c : node_place (Frame nm props l r :: c) = node_place c + sub_place nm props l.
Proof. unfold node_place, sub_place, prop_place. cbn [ops_before f_name f_props f_left]. rewrite !ops_size_app. lia. Qed.

Lemma first_named_none m fdt name ds o ts :
  map (read_tree m fdt) ds = ts → map node_off ds = node_offs (λ _, 0) o ts →
  existsb (λ t, name_matches name (root_name t)) ts = false → first_named m fdt name ds = - FDT_ERR_NOTFOUND.
Proof.
  intros <- _. unfold first_named. induction ds as [|d ds IH]; [done|]. cbn [map existsb]. intros [Hd Hds]%orb_false_iff.
  rewrite first_off_cons. replace (node_name m fdt (node_off d)) with (root_name (read_tree m fdt d)) by (by destruct d).
  rewrite Hd. by apply IH.
Qed.

(** All positions are positions of one tree. *)
Lemma positions_plug t : ∀ c p, p ∈ positions c t → plug p.1 p.2 = plug c t.
Proof.
  induction t as [nm props subs IH] using dtree_ind'. intros c p. cbn [positions]. rewrite elem_of_cons. intros [-> |Hp]; [done|].
  assert (∀ r l, subs = l ++ r → p ∈ below_with positions c nm props l r → plug p.1 p.2 = plug c (DTree nm props subs)) as Hgo.
  2: { by apply (Hgo subs []). }
  induction r as [|u r IHr]; intros l Es; [by intros ?%elem_of_nil|]. cbn [below_with]. rewrite elem_of_app. intros [Hin|Hin].
  - rewrite Forall_forall in IH. rewrite (IH u) with (Frame nm props l r :: c) p; [by rewrite Es| |done].
    rewrite Es. apply elem_of_app. right. left.
  - apply (IHr (l ++ [u])); [by rewrite <- app_assoc|done].
Qed.

Lemma child_plug p name q : pos_child p name = Some q → plug q.1 q.2 = plug p.1 p.2.
Proof.
  destruct p as [c [nm props subs]]. cbn [pos_child fst snd]. intros Hc. pose proof (child_from_spec name c nm props [] subs) as Hs.
  rewrite Hc in Hs. by destruct Hs as (r1 & u & r2 & -> & -> & _).
Qed.

(** The first subnode that a name matches. *)
Definition tree_child (t : dtree) (name : list Z) : option dtree := snd <$> pos_child ([], t) name.

(** The subnodes and their names. *)
Definition node_children (t : dtree) : list dtree := let 'DTree _ _ subs := t in subs.
Definition sub_names (t : dtree) : list (list Z) := let 'DTree _ _ subs := t in map root_name subs.
Definition no_child (t : dtree) (name : list Z) : Prop := existsb (λ n, name_matches name n) (sub_names t) = false.

Lemma child_from_snd name c nm props l r c' nm' props' l' :
  snd <$> child_from name c nm props l r = snd <$> child_from name c' nm' props' l' r.
Proof.
  revert l l'. induction r as [|u r IH]; intros l l'; [done|]. cbn [child_from].
  destruct (name_matches name (root_name u)); [done|apply IH].
Qed.

Lemma tree_child_at c t name : snd <$> pos_child (c, t) name = tree_child t name.
Proof. destruct t as [nm props subs]. apply child_from_snd. Qed.

(** A subnode in any context. *)
Lemma child_from_context name c nm props l r :
  child_from name c nm props l r = (λ '(c', u), (c' ++ c, u)) <$> child_from name [] nm props l r.
Proof.
  revert l. induction r as [|u r IH]; intros l; [done|]. cbn [child_from]. by destruct (name_matches name (root_name u)).
Qed.

Lemma pos_child_context c t name : pos_child (c, t) name = (λ '(c', u), (c' ++ c, u)) <$> pos_child ([], t) name.
Proof. destruct t as [nm props subs]. apply child_from_context. Qed.

Lemma pos_child_shape t name :
  pos_child ([], t) name = None ∨ ∃ f u, pos_child ([], t) name = Some ([f], u) ∧ plug1 u f = t ∧ name_matches name (root_name u) = true.
Proof.
  destruct t as [nm props subs]. cbn [pos_child]. pose proof (child_from_spec name [] nm props [] subs) as Hs.
  destruct (child_from name [] nm props [] subs) as [p|]; [right|by left].
  destruct Hs as (r1 & u & r2 & -> & -> & _ & Hu). by exists (Frame nm props r1 r2), u.
Qed.

Lemma no_child_from t c name : no_child t name → pos_child (c, t) name = None.
Proof.
  destruct t as [nm props subs]. unfold no_child. cbn [pos_child sub_names]. intros Hn.
  pose proof (child_from_spec name c nm props [] subs) as Hs. destruct (child_from name c nm props [] subs) as [p|]; [|done].
  destruct Hs as (r1 & u & r2 & -> & _ & _ & Hu). rewrite map_app, existsb_app in Hn. cbn [map existsb] in Hn.
  by rewrite Hu, orb_true_r in Hn.
Qed.

Lemma descend_plug t names q : descend pos_child ([], t) names = Some q → t = plug q.1 q.2.
Proof.
  change t with (plug (@nil frame) t) at 2. change (plug [] t) with (plug (([], t) : position).1 (([], t) : position).2).
  generalize (([], t) : position). induction names as [|n names IH]; intros p; cbn [descend]; [by intros [= ->]|].
  destruct (pos_child p n) as [p'|] eqn:E; [|done]. intros Hd. by rewrite <- (child_plug _ _ _ E), (IH _ Hd).
Qed.

Section places.
Context (fdt size total r0 cpuid : Z) (rsv : list (Z * Z)) (m : mem) (used : Z).

(** A position in the tree that memory holds. *)
Definition holds (p : position) : Prop := node_at fdt size total r0 cpuid rsv m p.1 p.2 (pos_place p) used.

Lemma holds_node c t off : node_at fdt size total r0 cpuid rsv m c t off used → off = node_place c ∧ holds (c, t).
Proof using Type. intros H. destruct t. by rewrite (node_at_place _ _ _ _ _ _ _ _ _ _ _ _ _ H) in H |- *. Qed.

Lemma holds_below c nm props l u r : holds (c, DTree nm props (l ++ u :: r)) → holds (Frame nm props l r :: c, u).
Proof using Type.
  intros H. unfold holds, pos_place. cbn [fst snd]. rewrite node_place_below. by apply (node_at_down _ _ _ _ _ _ _ _ _ _ _ _ _ H).
Qed.

Lemma holds_whole c t : holds ([], plug c t) ↔ holds (c, t).
Proof using Type.
  revert t. induction c as [|f c IH]; intros t; [done|]. change (plug (f :: c) t) with (plug c (plug1 t f)). rewrite IH.
  split; [by destruct f; apply holds_below|]. intros H. destruct (node_at_up _ _ _ _ _ _ _ _ _ _ _ _ H) as (off & Hu).
  by apply holds_node in Hu as [_ Hu].
Qed.

(** What the walk finds at a position. *)
Lemma stop_at c nm props subs e depth l :
  holds (c, DTree nm props subs) → at_node m fdt e depth l → node_off e = node_place c →
  read_tree m fdt e = DTree nm props subs ∧
  map node_off (node_subs e) = node_offs (λ _, 0) (node_place c + sub_place nm props []) subs.
Proof using Type.
  intros H He Eo. destruct (stop_here _ _ _ _ _ _ _ _ _ _ _ _ _ H) as (d & depth' & l' & _ & _ & Hd & Ed & Et & Eoff).
  assert (node_off e = node_off d) as Eod by (rewrite Eo; by symmetry).
  by rewrite (at_node_unique m fdt _ _ _ _ _ _ He Hd Eod).
Qed.

#[export] Instance positions_descend : Descends m fdt pos_place pos_child holds.
Proof.
  split.
  - intros [c [nm props subs]] s name H Hs Hs0 Hst.
    destruct (stop_here _ _ _ _ _ _ _ _ _ _ _ _ _ H) as (d & depth & l & Hr & Hv & Hd & Ed & Et & Eoff).
    assert (map (read_tree m fdt) (node_subs d) = subs) as Esub by (destruct d; by injection Et).
    rewrite <- Ed, (subnode_ok m fdt Hr Hv d depth l s name) by done. f_equal. cbn [pos_child].
    pose proof (child_from_spec name c nm props [] subs) as Hc. destruct (child_from name c nm props [] subs) as [p|].
    + destruct Hc as (r1 & u & r2 & -> & -> & Hr1 & Hu). rewrite (first_named_offs _ _ _ _ _ _ _ _ Esub Eoff Hr1 Hu).
      cbn [from_option]. unfold pos_place. cbn [fst]. rewrite node_place_below. unfold sub_place. cbn [flat_map app]. change (ops_size []) with 0. lia.
    + by apply (first_named_none _ _ _ _ _ _ Esub Eoff).
  - intros [c [nm props subs]] name p H Hc. cbn [pos_child] in Hc.
    pose proof (child_from_spec name c nm props [] subs) as Hs. rewrite Hc in Hs. destruct Hs as (r1 & u & r2 & -> & -> & _).
    by apply holds_below.
  - intros p _. apply ops_size_nonneg.
Qed.

(** The walk comes to the positions in their order. *)
Definition same_place (ed : dnode * Z) (p : position) : Prop := node_off ed.1 = pos_place p ∧ read_tree m fdt ed.1 = p.2.

Lemma walk_positions t : ∀ c e depth l,
  holds (c, t) → at_node m fdt e depth l → node_off e = node_place c →
  Forall2 same_place (tree_nodes depth e) (positions c t).
Proof using Type.
  induction t as [nm props subs IH] using dtree_ind'. intros c e depth l H He Eo.
  destruct (stop_at _ _ _ _ _ _ _ H He Eo) as [Et Eoff]. destruct e as [off ps ss] eqn:Ee. cbn [tree_nodes positions].
  constructor; [done|]. rewrite <- Ee in *. change ss with (node_subs (Node off ps ss)). rewrite <- Ee. clear ps Ee.
  assert (∀ r l1 d1 d2, subs = l1 ++ r → node_subs e = d1 ++ d2 →
    map node_off d2 = node_offs (λ _, 0) (node_place c + sub_place nm props l1) r →
    Forall2 same_place (flat_map (tree_nodes (depth + 1)) d2) (below_with positions c nm props l1 r)) as Hgo.
  2: { exact (Hgo subs [] [] (node_subs e) eq_refl eq_refl Eoff). }
  destruct (stop_here _ _ _ _ _ _ _ _ _ _ _ _ _ H) as (_ & _ & _ & Hr & Hv & _).
  induction r as [|u r IHr]; intros l1 d1 d2 Es Ed Eo2; destruct d2 as [|d d2]; try done. cbn [node_offs map] in Eo2.
  injection Eo2 as Eod Eo2. cbn [flat_map below_with]. apply Forall2_app.
  - destruct (sibling m fdt Hr Hv e depth l d1 d d2 He Ed) as (l' & Hd & _).
    assert (u ∈ subs) as Hin by (rewrite Es; apply elem_of_app; right; left).
    rewrite Forall_forall in IH. apply (IH u Hin _ _ _ l'); [|done|by rewrite node_place_below].
    apply holds_below. by rewrite <- Es.
  - apply (IHr (l1 ++ [u]) (d1 ++ [d]) d2); [by rewrite <- app_assoc..|]. rewrite Eo2. f_equal.
    unfold sub_place. rewrite flat_map_app, ops_size_app. cbn [flat_map]. rewrite app_nil_r. fold ops. lia.
Qed.

Lemma tree_walk t :
  holds ([], t) → ∃ root, block_at m fdt 0 (Some root) ∧ readable_tree m fdt ∧ valid_tree m fdt ∧
    Forall2 same_place (tree_nodes 0 root) (positions [] t).
Proof using Type.
  intros H. destruct t as [nm props subs] eqn:Et. rewrite <- Et in *.
  destruct (node_at_reads _ _ _ _ _ _ _ _ _ _ _ H) as (Hr & _ & _ & _ & root & Hb & _).
  pose proof (node_valid _ _ _ _ _ _ _ _ _ _ _ H) as Hv. exists root. split_and!; [done..|].
  destruct (block_walk m fdt (names_blob m fdt Hr Hv) 0 _ Hb ltac:(by unfold valid_offset)) as (_ & _ & Hroot).
  apply (walk_positions t [] root 0 _ H Hroot). subst t.
  destruct (stop_here _ _ _ _ _ _ _ _ _ _ _ _ _ H) as (d & ? & ? & _ & _ & (n & _ & _ & Ht & _) & Ed & _).
  rewrite Ed in Ht. change (pos_place ([], DTree nm props subs)) with 0 in Ht.
  inversion Hb; subst; same_tag. done.
Qed.

(** A search for the first node with some property finds the first position with it. *)
Lemma first_position f g t root :
  Forall2 same_place (tree_nodes 0 root) (positions [] t) →
  (∀ e depth p, (e, depth) ∈ tree_nodes 0 root → same_place (e, depth) p → f e = g p.2) →
  first_off f (fst <$> tree_nodes 0 root) =
  from_option pos_place (- FDT_ERR_NOTFOUND) (head (filter (λ p, Is_true (g p.2)) (positions [] t))).
Proof using Type.
  generalize (tree_nodes 0 root) (positions [] t). induction 1 as [|[e depth] p l1 l2 Hp _ IH]; intros Hf; [done|].
  rewrite fmap_cons, first_off_cons, filter_cons. cbn [fst].
  rewrite (Hf e depth p) by (done || left).
  destruct (decide (Is_true (g p.2))) as [Hg|Hg]; destruct (g p.2); try done.
  - cbn [head from_option]. by destruct Hp.
  - apply IH. intros e' d' p' Hin. apply Hf. by right.
Qed.
End places.

(* ------------------------------------------------------------------ *)
(** * Properties by name *)

(** The first property of a name. *)
Definition tree_prop (props : list (list Z * list Z)) (name : list Z) : option (list Z) :=
  snd <$> head (filter (λ p, p.1 = name) props).

(** The number that bytes spell, the most significant first. *)
Definition be_value (bs : list Z) : Z := foldl (λ n b, 256 * n + b) 0 bs.

(** The phandle of a node, 0 if it has none. *)
Definition tree_word (props : list (list Z * list Z)) (name : list Z) : option Z :=
  v ← tree_prop props name; if Z.of_nat (length v) =? 4 then Some (be_value v) else None.
Definition tree_phandle (t : dtree) : Z :=
  let 'DTree _ props _ := t in
  default (default 0 (tree_word props (chars "linux,phandle"))) (tree_word props (chars "phandle")).

Lemma find_prop_tree m fdt offs name :
  prop_bytes m fdt <$> find_prop m fdt offs name =
  tree_prop (map (λ p, (prop_name m fdt p, prop_bytes m fdt p)) offs) name.
Proof.
  unfold find_prop, tree_prop. induction offs as [|o offs IH]; [done|]. cbn [map]. rewrite !filter_cons. cbn [fst].
  by destruct (decide (prop_name m fdt o = name)).
Qed.

Lemma be32_be_value b0 b1 b2 b3 :
  is_u8 b0 → is_u8 b1 → is_u8 b2 → is_u8 b3 →
  be32 (be_value [b0; b1; b2; b3]) = [b0; b1; b2; b3] ∧ is_u32 (be_value [b0; b1; b2; b3]).
Proof.
  unfold is_u8, is_u32. intros. unfold be_value. cbn [foldl]. split; [|lia].
  unfold be32. rewrite !byte_of_div by lia.
  repeat f_equal; cbn -[Z.pow Z.div Z.modulo Z.mul]; Z.div_mod_to_equations; lia.
Qed.

Section properties.
Context `{Platform} (m : mem) (fdt : Z).
Context (Hr : readable_tree m fdt) (Hval : valid_tree m fdt).

Lemma word_of_tree e depth l nm props subs name :
  at_node m fdt e depth l → read_tree m fdt e = DTree nm props subs → word_of m fdt e name = tree_word props name.
Proof using Hr Hval.
  intros He Et. assert (map (λ p, (prop_name m fdt p, prop_bytes m fdt p)) (node_props e) = props) as <-
    by (destruct e; by injection Et).
  unfold word_of, tree_word. rewrite <- find_prop_tree.
  destruct (find_prop m fdt (node_props e) name) as [p|] eqn:Ef; cbn [fmap option_fmap option_map mbind option_bind]; [|done].
  destruct (found_value m fdt Hr Hval _ _ _ _ _ He Ef) as (Hb & -> & _).
  destruct (Z.eqb_spec (prop_len m fdt p) 4) as [El|]; [|done]. f_equal.
  destruct (found_word m fdt Hr Hval _ _ _ _ _ He Ef ltac:(lia)) as [Hw Hal].
  destruct (found_value m fdt Hr Hval _ _ _ _ _ He Ef) as (_ & Hlen & _). rewrite El in Hlen.
  destruct (prop_bytes m fdt p) as [|b0 [|b1 [|b2 [|b3 [|]]]]]; cbn in Hlen; try lia.
  destruct Hr as (Hmb & _).
  assert (∀ i b, [b0; b1; b2; b3] !! i = Some b → is_u8 b) as Hu8 by (intros i b Hi; eapply Hmb, Hb, Hi).
  destruct (be32_be_value b0 b1 b2 b3) as [E32 Hu32];
    [apply (Hu8 0%nat)|apply (Hu8 1%nat)|apply (Hu8 2%nat)|apply (Hu8 3%nat)|]; [done..|].
  rewrite <- E32 in Hb. rewrite (fdt32_ld__bytes m _ _ Hb Hu32 Hal) in Hw. by injection Hw.
Qed.

(** The value of a property, where a lookup finds it. *)
Definition value_at (d : Z) (v : list Z) : Prop :=
  bytes_at m d v ∧ 0 < fdt <= d ∧ d + Z.of_nat (length v) <= fdt + hdr m fdt 4 ∧
  (length v = 4%nat → fdt32_ld_ m d = Ok (be_value v)).

Lemma getprop_tree e depth l nm props subs s name :
  at_node m fdt e depth l → read_tree m fdt e = DTree nm props subs → c_name m s name →
  match tree_prop props name with
  | Some v => ∃ d, fdt_getprop m fdt (node_off e) s = Ok (d, Z.of_nat (length v)) ∧ value_at d v
  | None => fdt_getprop m fdt (node_off e) s = Ok (0, - FDT_ERR_NOTFOUND)
  end.
Proof using Hr Hval.
  intros He Et Hs. pose proof (names_blob m fdt Hr Hval) as Hbl. pose proof Hr as (_ & Hw & _ & _ & _ & _ & Htt & Hver).
  rewrite (getprop_ok m fdt Hbl Hver Hw Htt e depth l s name He Hs).
  pose proof (word_of_tree e depth l nm props subs name He Et) as Hword. unfold word_of, tree_word in Hword.
  assert (map (λ p, (prop_name m fdt p, prop_bytes m fdt p)) (node_props e) = props) as Ep by (destruct e; by injection Et).
  rewrite <- Ep, <- find_prop_tree in Hword |- *.
  destruct (find_prop m fdt (node_props e) name) as [p|] eqn:Ef; cbn [fmap option_fmap option_map mbind option_bind] in *; [|done].
  destruct (found_value m fdt Hr Hval _ _ _ _ _ He Ef) as (Hb & Hlen & Hd).
  exists (prop_value m fdt p). rewrite Hlen. split; [done|]. unfold value_at. rewrite Hlen. split_and!; [done|lia..|].
  intros E4. rewrite E4 in Hlen. destruct (found_word m fdt Hr Hval _ _ _ _ _ He Ef ltac:(lia)) as [-> _].
  rewrite <- Hlen, E4 in Hword. cbn in Hword. by injection Hword as ->.
Qed.

Lemma phandle_of_tree e depth l :
  at_node m fdt e depth l → phandle_of m fdt e = tree_phandle (read_tree m fdt e).
Proof using Hr Hval.
  intros He. destruct (read_tree m fdt e) as [nm props subs] eqn:Et. unfold phandle_of, tree_phandle.
  by rewrite !(word_of_tree e depth l nm props subs).
Qed.
End properties.

(** [fdt_node_offset_by_phandle] finds the first position with that phandle. *)
Definition find_phandle (t : dtree) (phandle : Z) : option position :=
  head (filter (λ p, Is_true (tree_phandle p.2 =? phandle)) (positions [] t)).

Lemma find_phandle_plug t phandle q : find_phandle t phandle = Some q → t = plug q.1 q.2.
Proof.
  intros Hq%head_Some_elem_of. apply list_elem_of_filter in Hq as [_ Hq]. by rewrite (positions_plug t [] q Hq).
Qed.

Lemma by_phandle_position `{Platform} fdt size total r0 cpuid rsv m used t phandle :
  c_name m (rodata "phandle") (chars "phandle") → c_name m (rodata "linux,phandle") (chars "linux,phandle") →
  holds fdt size total r0 cpuid rsv m used ([], t) → phandle ≠ 0 → phandle ≠ UINT_MAX →
  fdt_node_offset_by_phandle m fdt phandle =
  Ok (from_option pos_place (- FDT_ERR_NOTFOUND) (find_phandle t phandle)).
Proof.
  intros H1 H2 Ht Hp0 Hpm. destruct (tree_walk _ _ _ _ _ _ _ _ _ Ht) as (root & Hb & Hr & Hv & Hw).
  rewrite (by_phandle_ok m fdt Hr Hv H1 H2 root phandle Hb). rewrite decide_False by tauto. f_equal.
  apply (first_position fdt m _ (λ u, tree_phandle u =? phandle) _ _ Hw). intros e depth p Hin [_ Ht']. cbn [fst] in Ht'.
  rewrite <- Ht'. destruct (at_tree_node m fdt root e depth (names_blob m fdt Hr Hv) Hb Hin) as [l He].
  by rewrite (phandle_of_tree m fdt Hr Hv e depth l He).
Qed.

(** The lookups at a position: a property, a subnode, an absolute path. *)
Section at_position.
Context `{Platform} (fdt size total r0 cpuid : Z) (rsv : list (Z * Z)) (m : mem) (used : Z).
#[local] Abbreviation holds := (holds fdt size total r0 cpuid rsv m used).

Lemma holds_readable p : holds p → readable_tree m fdt ∧ valid_tree m fdt ∧ hdr m fdt 4 = total ∧ total <= size ∧ fdt + size + 4 < 2 ^ 32.
Proof using Type.
  intros Hp. pose proof Hp as (strings & xs & zs & ys & Him & _ & _ & _ & _ & _ & Hsz & _).
  destruct (image_header _ _ _ _ _ _ _ _ _ Him Hsz) as (_ & E4 & _). pose proof (im_fits _ _ _ _ _ _ _ _ _ Him).
  split_and!; [by eapply image_readable|by eapply node_valid|done|lia|apply Him].
Qed.

Lemma position_prop c nm props subs s name :
  holds (c, DTree nm props subs) → c_name m s name →
  match tree_prop props name with
  | Some v => ∃ d, fdt_getprop m fdt (node_place c) s = Ok (d, Z.of_nat (length v)) ∧ value_at m fdt d v
  | None => fdt_getprop m fdt (node_place c) s = Ok (0, - FDT_ERR_NOTFOUND)
  end.
Proof using Type.
  intros Hp Hs. destruct (stop_here _ _ _ _ _ _ _ _ _ _ _ _ _ Hp) as (e & depth & l & Hr & Hv & He & Eo & Et & _).
  change (pos_place (c, DTree nm props subs)) with (node_place c) in Eo. rewrite <- Eo.
  by apply (getprop_tree m fdt Hr Hv e depth l nm props subs).
Qed.

Lemma position_subnode p s name :
  holds p → c_name m s name →
  fdt_subnode_offset m fdt (pos_place p) s = Ok (from_option pos_place (- FDT_ERR_NOTFOUND) (pos_child p name)).
Proof using Type.
  intros Hp (Hs & Hs0 & Hst & Hl). destruct (holds_readable p Hp) as ((Hmb & Hwb & _) & _).
  unfold fdt_subnode_offset. rewrite (strlen_ok m s name Hs) by (done || lia). cbn [mbind res_bind].
  rewrite s32_small by (unfold is_s32; lia). apply (child_found m (place := pos_place) (child := pos_child) (good := holds) p s name); [done|apply Hs|done|lia].
Qed.

Lemma position_path t s cs :
  holds ([], t) → c_name m s cs → head cs = Some slash →
  fdt_path_offset m fdt s =
  Ok (from_option pos_place (- FDT_ERR_NOTFOUND) (descend pos_child ([], t) (components cs))).
Proof using Type.
  intros Hp (Hs & Hs0 & Hst & Hl) Hc. destruct (holds_readable _ Hp) as (Hr & Hv & _). pose proof Hr as (Hmb & Hwb & _).
  unfold fdt_path_offset. rewrite (strlen_ok m s cs Hs) by (done || lia). cbn [mbind res_bind].
  rewrite s32_small by (unfold is_s32; lia).
  apply (absolute_from m fdt Hr Hv pos_place pos_child holds); [done|done|apply Hs|done|lia|done].
Qed.

Lemma position_phandle p :
  holds p → c_name m (rodata "phandle") (chars "phandle") → c_name m (rodata "linux,phandle") (chars "linux,phandle") →
  fdt_get_phandle m fdt (pos_place p) = Ok (tree_phandle p.2).
Proof using Type.
  intros Hp H1 H2. destruct p as [c [nm props subs]].
  destruct (stop_here _ _ _ _ _ _ _ _ _ _ _ _ _ Hp) as (e & depth & l & Hr & Hv & He & <- & Et & _).
  rewrite (get_phandle_ok m fdt Hr Hv H1 H2 e depth l He), (phandle_of_tree m fdt Hr Hv e depth l He). by rewrite Et.
Qed.
End at_position.
