(* ===== verification/FdtInplace.v ===== *)
(** Edits in place, src/libfdt/fdt_wip.c: bytes of a property are overwritten where they
    lie, so the tree keeps its shape and every offset. *)
From S2P Require Import Prelude Machine Crt0 SampleTree Fdt FdtRo FdtCheck FdtTree FdtLookup FdtPath FdtWrite FdtSw FdtRw FdtImage FdtBuild FdtFinish FdtRead FdtEdit FdtNode FdtChildren FdtPack FdtTreeEdit FdtPositions.
From stdpp Require Import base list gmap.
From Stdlib Require Import ZArith Lia.
#[local] Open Scope Z_scope.

(** The value of a property with bytes from [i] on replaced. *)
Definition overwrite (v : list Z) (i : nat) (bs : list Z) : list Z := take i v ++ bs ++ drop (i + length bs) v.

Lemma overwrite_all v bs : length v = length bs → overwrite v 0 bs = bs.
Proof. intros Hl. unfold overwrite. rewrite drop_ge by lia. cbn [take app]. by rewrite app_nil_r. Qed.

Lemma length_overwrite v i bs : (i + length bs <= length v)%nat → length (overwrite v i bs) = length v.
Proof. intros Hl. unfold overwrite. rewrite !length_app, length_take, length_drop. lia. Qed.

(** [fdt32_st] writes the word, whatever the alignment. *)
Lemma fdt32_st_map m p v :
  0 <= p → p + 4 <= 2 ^ 32 → is_u32 v → mapped m p 4 → fdt32_st p v m = Ok (map_bytes p (be32 v) m).
Proof.
  intros Hp Ht Hv Hm. rewrite fdt32_st_bytes by done.
  destruct (store_bytes_ok p (be_bytes 4 v) m) as (m' & -> & Hs & Hb); [done|by apply be_bytes_u8|].
  f_equal. by apply map_bytes_intro.
Qed.

(** The first property of a name, in the list. *)
Lemma tree_prop_none props name : name ∉ props.*1 → tree_prop props name = None.
Proof.
  unfold tree_prop. induction props as [|[n v] props IH]; [done|]. rewrite fmap_cons, not_elem_of_cons. intros [Hne Hn].
  cbn in Hne. rewrite filter_cons, decide_False by (cbn; congruence). by apply IH.
Qed.

Lemma tree_prop_some l v r name : name ∉ l.*1 → tree_prop (l ++ (name, v) :: r) name = Some v.
Proof.
  unfold tree_prop. induction l as [|[n w] l IH]; [cbn; by rewrite decide_True|]. rewrite fmap_cons, not_elem_of_cons.
  intros [Hne Hn]. cbn [app]. rewrite filter_cons, decide_False by (cbn in *; congruence). by apply IH.
Qed.

Lemma set_prop_some l v r name val : name ∉ l.*1 → set_prop (l ++ (name, v) :: r) name val = l ++ (name, val) :: r.
Proof. intros Hn. unfold set_prop. by rewrite replace_some. Qed.

Section inplace.
Context (fdt size total r0 cpuid : Z) (rsv : list (Z * Z)).
#[local] Abbreviation node_at := (node_at fdt size total r0 cpuid rsv).

#[local] Abbreviation value_place := (value_place fdt r0 rsv).

(** The parts of an image around a property. *)
Lemma property_parts m c nm l name v r subs off used :
  node_at m c (DTree nm (l ++ (name, v) :: r) subs) off used →
  ∃ strings xs ys pl no pr ss, let its := λ v', xs ++ (IBegin nm :: (pl ++ IProp no v' :: pr) ++ ss ++ [IEnd]) ++ ys in
    image total r0 cpuid rsv (its v) strings m fdt size ∧ total < INT_MAX ∧ off = items_size xs ∧
    used = image_strings r0 rsv (its v) + Z.of_nat (length strings) ∧
    Forall2 (spells (string_at strings)) xs (ops_before c) ∧ Forall2 (spells (string_at strings)) ys (ops_after c) ∧
    Forall2 (spells (string_at strings)) pl (map (prop_op (λ _, 0)) l) ∧
    Forall2 (spells (string_at strings)) pr (map (prop_op (λ _, 0)) r) ∧
    Forall2 (spells (string_at strings)) ss (flat_map ops subs) ∧ string_at strings no name ∧
    root_name (plug c (DTree nm [] [])) = [] ∧
    (∃ rsvs, rsv = rsvs ++ [(0, 0)] ∧ Forall (λ r, is_u64 r.1 ∧ is_u64 r.2) rsvs) ∧
    value_place off nm l = fdt + image_struct r0 rsv + items_size (xs ++ IBegin nm :: pl) + 12.
Proof using Type.
  intros (strings & xs & zs & ys & Him & Hx & Hz & Hy & -> & -> & Hsz & Hroot & Hrsv).
  apply node_items in Hz as (ps & ss & -> & Hp & Hss). apply prop_items in Hp as (pl & no & pr & -> & Hl & Hno & Hr).
  exists strings, xs, ys, pl, no, pr, ss. cbv zeta. split_and!; try done.
  - by rewrite <- Hroot; apply root_name_plug.
  - unfold value_place. rewrite (size_of_node nm _ xs pl l Hl). lia.
Qed.

Lemma value_found m c nm l name v r subs off used s :
  node_at m c (DTree nm (l ++ (name, v) :: r) subs) off used → name ∉ l.*1 →
  bytes_at m s name → 0 < s → s + Z.of_nat (length name) < 2 ^ 32 →
  fdt_getprop_namelen m fdt off s (Z.of_nat (length name)) = Ok (value_place off nm l, Z.of_nat (length v)).
Proof using Type.
  intros Hat Hn Hs Hs0 Hst.
  destruct (property_parts _ _ _ _ _ _ _ _ _ _ Hat) as (strings & xs & ys & pl & no & pr & ss & Him & Hsz & Eo & _ & _ & _ & Hl & Hr & Hss & Hno & _ & _ & ->).
  rewrite Eo. clear Eo. cbv beta in Him. pose proof (get_version _ _ _ _ _ _ _ _ _ Him Hsz) as Hver.
  assert (fdt_get_property_namelen m fdt (items_size xs) s (Z.of_nat (length name)) =
    Ok (fdt + image_struct r0 rsv + items_size (xs ++ IBegin nm :: pl), Z.of_nat (length v))) as Hg.
  { eapply (get_property_some _ _ _ _ _ _ _ _ _ Him Hsz); [|done..]. by app_norm. }
  destruct (item_address _ _ _ _ _ _ _ _ _ Him Hsz (xs ++ IBegin nm :: pl) ([IProp no v] ++ pr ++ ss ++ IEnd :: ys))
    as (_ & H1 & H2 & H3 & H4); [by app_norm|].
  rewrite (items_size_app [IProp no v]), items_size_one, item_size_prop in H2. pose proof (items_size_pos (pr ++ ss ++ IEnd :: ys)).
  pose proof (align4_ge (Z.of_nat (length v)) ltac:(lia)). destruct (im_buffer _ _ _ _ _ _ _ _ _ Him) as [_ _ [? _] _ _].
  unfold fdt_get_property_namelen in Hg. rewrite Hver in Hg. cbn [mbind res_bind] in Hg. change (17 <? 16) with false in Hg. cbv iota in Hg.
  unfold fdt_getprop_namelen. destruct (fdt_get_property_namelen_ _ _ _ _ _) as [[[p len] po]| |]; [|done..].
  cbn [mbind res_bind] in Hg |- *. injection Hg as -> ->. destruct (Z.eqb_spec (fdt + image_struct r0 rsv + items_size (xs ++ IBegin nm :: pl)) 0); [lia|].
  unfold property_data. rewrite Hver. cbn [mbind res_bind]. change (17 <? 16) with false. cbn [andb mbind res_bind].
  by rewrite u32_small by (unfold is_u32; lia).
Qed.

Lemma value_absent m c nm props name subs off used s :
  node_at m c (DTree nm props subs) off used → name ∉ props.*1 →
  bytes_at m s name → 0 < s → s + Z.of_nat (length name) < 2 ^ 32 →
  fdt_getprop_namelen m fdt off s (Z.of_nat (length name)) = Ok (0, - FDT_ERR_NOTFOUND).
Proof using Type.
  intros (strings & xs & zs & ys & Him & Hx & Hz & Hy & -> & _ & Hsz & _) Hn Hs Hs0 Hst.
  apply node_items in Hz as (ps & ss & -> & Hp & Hss). pose proof (get_version _ _ _ _ _ _ _ _ _ Him Hsz) as Hver.
  assert (fdt_get_property_namelen m fdt (items_size xs) s (Z.of_nat (length name)) = Ok (0, - FDT_ERR_NOTFOUND)) as Hg.
  { eapply (get_property_none _ _ _ _ _ _ _ _ _ Him Hsz); [|done..]. by app_norm. }
  unfold fdt_get_property_namelen in Hg. rewrite Hver in Hg. cbn [mbind res_bind] in Hg. change (17 <? 16) with false in Hg. cbv iota in Hg.
  unfold fdt_getprop_namelen. destruct (fdt_get_property_namelen_ _ _ _ _ _) as [[[p len] po]| |]; [|done..].
  cbn [mbind res_bind] in Hg |- *. by injection Hg as -> ->.
Qed.

(** The value there, and what writing into it does. *)
Lemma value_write m c nm l name v r subs off used i bs :
  node_at m c (DTree nm (l ++ (name, v) :: r) subs) off used →
  (i + length bs <= length v)%nat → Forall is_u8 bs →
  let d := value_place off nm l + Z.of_nat i in
  node_at (map_bytes d bs m) c (DTree nm (l ++ (name, overwrite v i bs) :: r) subs) off used ∧
  same_outside fdt size m (map_bytes d bs m) ∧ mapped m d (Z.of_nat (length bs)).
Proof using Type.
  intros Hat Hl Hu.
  destruct (property_parts _ _ _ _ _ _ _ _ _ _ Hat) as (strings & xs & ys & pl & no & pr & ss & Him & Hsz & -> & -> & Hx & Hy & Hpl & Hpr & Hss & Hno & Hroot & Hrsv & ->).
  cbv beta in Him. set (its := λ v', xs ++ (IBegin nm :: (pl ++ IProp no v' :: pr) ++ ss ++ [IEnd]) ++ ys).
  assert (∀ v', its v' = (xs ++ IBegin nm :: pl) ++ [IProp no v'] ++ pr ++ ss ++ IEnd :: ys) as Eg.
  { intros v'. unfold its. by app_norm. }
  assert (v = take i v ++ take (length bs) (drop i v) ++ drop (i + length bs) v) as Ev.
  { by rewrite <- drop_drop, take_drop, take_drop. }
  assert (length (take (length bs) (drop i v)) = length bs) as El by (rewrite length_take, length_drop; lia).
  assert (length (take i v) = i) as Eli by (rewrite length_take; lia).
  pose proof (patch_item _ _ _ _ _ _ _ _ _ Him Hsz (xs ++ IBegin nm :: pl) no (take i v)
    (take (length bs) (drop i v)) (drop (i + length bs) v) bs (pr ++ ss ++ IEnd :: ys)) as Hw.
  rewrite <- Ev, Eli in Hw. destruct (Hw (Eg v) El Hu) as (Him' & Hs & _ & _ & Hm). split_and!; [|exact Hs|exact Hm].
  cbv beta in Him'. fold (overwrite v i bs) in Him'. rewrite <- Eg in Him'.
  exists strings, xs, (IBegin nm :: (pl ++ IProp no (overwrite v i bs) :: pr) ++ ss ++ [IEnd]), ys. split_and!; try done.
  - apply node_items. exists (pl ++ IProp no (overwrite v i bs) :: pr), ss. split_and!; [done| |done].
    apply prop_items. by exists pl, no, pr.
  - change (image_strings r0 rsv (its v) + Z.of_nat (length strings) = image_strings r0 rsv (its (overwrite v i bs)) + Z.of_nat (length strings)).
    unfold image_strings. rewrite !Eg, !items_size_app, !items_size_one, !item_size_prop, length_overwrite by done. done.
  - by rewrite (root_name_plug _ _ (DTree nm [] [])).
Qed.

Lemma value_here m c nm l name v r subs off used :
  node_at m c (DTree nm (l ++ (name, v) :: r) subs) off used →
  let d := value_place off nm l in
  bytes_at m d v ∧ 0 < fdt < d ∧ d + Z.of_nat (length v) <= fdt + total ∧ fdt + total + 4 < 2 ^ 32 ∧ total <= size ∧
  d mod 4 = 0 ∧ Forall is_u8 v ∧ Z.of_nat (length v) < 2 ^ 30.
Proof using Type.
  intros Hat.
  destruct (property_parts _ _ _ _ _ _ _ _ _ _ Hat) as (strings & xs & ys & pl & no & pr & ss & Him & Hsz & -> & -> & _ & _ & _ & _ & _ & _ & _ & _ & ->).
  cbv beta in Him. cbv zeta. set (its := xs ++ (IBegin nm :: (pl ++ IProp no v :: pr) ++ ss ++ [IEnd]) ++ ys) in *.
  assert (its = (xs ++ IBegin nm :: pl) ++ [IProp no v] ++ pr ++ ss ++ IEnd :: ys) as Eg by (unfold its; by app_norm).
  destruct (item_address _ _ _ _ _ _ _ _ _ Him Hsz _ _ Eg) as (Hp4 & H1 & H2 & H3 & H4).
  rewrite (items_size_app [IProp no v]), items_size_one, item_size_prop in H2. pose proof (items_size_pos (pr ++ ss ++ IEnd :: ys)).
  pose proof (align4_ge (Z.of_nat (length v)) ltac:(lia)). pose proof (im_buffer _ _ _ _ _ _ _ _ _ Him) as [Hmb _ [? _] _ _].
  pose proof (im_fits _ _ _ _ _ _ _ _ _ Him). pose proof (im_items _ _ _ _ _ _ _ _ _ Him) as Hits.
  pose proof (im_ok _ _ _ _ _ _ _ _ _ Him) as Hok. rewrite Eg, !Forall_app in Hok. destruct Hok as (_ & [[_ ?] _]%Forall_cons & _).
  rewrite Eg, !items_at_app in Hits. destruct Hits as (_ & Hv & _). apply prop_at in Hv as (_ & _ & _ & Hv).
  split_and!; try (done || lia); [clear -Hp4; Z.div_mod_to_equations; lia|by eapply bytes_at_u8].
Qed.

(** A name, and what a lookup by it finds. *)
Lemma getprop_c_name m off s name :
  mem_bytes m → word_backed m → c_name m s name →
  fdt_getprop m fdt off s = fdt_getprop_namelen m fdt off s (Z.of_nat (length name)).
Proof using Type.
  intros Hb Hw Hs. unfold fdt_getprop. rewrite (strlen_name _ _ _ Hs Hb Hw). cbn [mbind res_bind].
  destruct Hs as (_ & _ & _ & ?). by rewrite s32_small by (unfold is_s32; lia).
Qed.

Lemma node_mem m c t off used : node_at m c t off used → mem_bytes m ∧ word_backed m.
Proof using Type. intros (strings & xs & zs & ys & Him & _). by destruct (im_buffer _ _ _ _ _ _ _ _ _ Him). Qed.

Lemma setprop_inplace_partial_ok m c nm props subs off used s name i v val :
  node_at m c (DTree nm props subs) off used →
  bytes_at m s name → 0 < s → s + Z.of_nat (length name) < 2 ^ 32 →
  data_arg fdt size m v val → Z.of_nat i + Z.of_nat (length val) < 2 ^ 32 →
  ∃ rc m', fdt_setprop_inplace_namelen_partial fdt off s (Z.of_nat (length name)) (Z.of_nat i) v (Z.of_nat (length val)) m = Ok (rc, m') ∧
    same_outside fdt size m m' ∧
    match tree_prop props name with
    | None => rc = - FDT_ERR_NOTFOUND ∧ m' = m
    | Some old =>
        if (length old <? i + length val)%nat then rc = - FDT_ERR_NOSPACE ∧ m' = m
        else rc = 0 ∧ node_at m' c (DTree nm (set_prop props name (overwrite old i val)) subs) off used
    end.
Proof using Type.
  intros Hat Hsb Hs0 Hst (Hv & Hap & Hv0 & Hvt & Hv30) Hi. unfold fdt_setprop_inplace_namelen_partial.
  destruct (node_mem _ _ _ _ _ Hat) as [Hmb _].
  destruct (prop_cases props name) as [Hn|(l & old & r & -> & Hn)].
  - rewrite (wbind_rd _ _ _ _ (value_absent _ _ _ _ _ _ _ _ _ Hat Hn Hsb Hs0 ltac:(lia))). cbv iota beta.
    rewrite Z.eqb_refl, (tree_prop_none _ _ Hn). by exists (- FDT_ERR_NOTFOUND), m.
  - rewrite (wbind_rd _ _ _ _ (value_found _ _ _ _ _ _ _ _ _ _ _ Hat Hn Hsb Hs0 ltac:(lia))). cbv iota beta.
    rewrite (tree_prop_some _ _ _ _ Hn). destruct (value_here _ _ _ _ _ _ _ _ _ _ Hat) as (_ & Hf & Hd & Ht & Hs & _ & _ & Hold).
    destruct (Z.eqb_spec (value_place off nm l) 0); [lia|].
    rewrite !u32_small by (unfold is_u32; lia). destruct (Nat.ltb_spec (length old) (i + length val)).
    + destruct (Z.ltb_spec (Z.of_nat (length old)) (Z.of_nat (length val) + Z.of_nat i)); [|lia].
      by exists (- FDT_ERR_NOSPACE), m.
    + destruct (Z.ltb_spec (Z.of_nat (length old)) (Z.of_nat (length val) + Z.of_nat i)); [lia|].
      destruct (value_write _ _ _ _ _ _ _ _ _ _ i val Hat ltac:(lia)) as (Hat' & Hs' & Hm); [by eapply bytes_at_u8|].
      unfold apart in Hap. rewrite !u32_small by (unfold is_u32; lia).
      exists 0, (map_bytes (value_place off nm l + Z.of_nat i) val m). split_and!; [|done|done|by rewrite set_prop_some].
      erewrite wbind_ok; [done|]. apply memcpy_map; (done || (by eapply bytes_at_u8) || lia).
Qed.

Lemma setprop_inplace_ok m c nm props subs off used s name v val :
  node_at m c (DTree nm props subs) off used → c_name m s name → data_arg fdt size m v val →
  ∃ rc m', fdt_setprop_inplace fdt off s v (Z.of_nat (length val)) m = Ok (rc, m') ∧ same_outside fdt size m m' ∧
    match tree_prop props name with
    | None => rc = - FDT_ERR_NOTFOUND ∧ m' = m
    | Some old =>
        if (length old =? length val)%nat then rc = 0 ∧ node_at m' c (DTree nm (set_prop props name val) subs) off used
        else rc = - FDT_ERR_NOSPACE ∧ m' = m
    end.
Proof using Type.
  intros Hat Hs Hv. destruct (node_mem _ _ _ _ _ Hat) as [Hmb Hwb]. pose proof Hs as ((Hsb & _) & Hs0 & Hst & Hl).
  unfold fdt_setprop_inplace.
  assert (∀ x (k : Z * Z → W Z), fdt_getprop_namelen m fdt off s (Z.of_nat (length name)) = Ok x →
    (rd (λ m, fdt_getprop m fdt off s) ≫= k) m = k x m) as Hgo.
  { intros x k Hx. apply wbind_rd. by rewrite (getprop_c_name _ _ _ _ Hmb Hwb Hs). }
  destruct (prop_cases props name) as [Hn|(l & old & r & -> & Hn)].
  - rewrite (Hgo _ _ (value_absent _ _ _ _ _ _ _ _ _ Hat Hn Hsb Hs0 ltac:(lia))). cbv iota beta.
    rewrite Z.eqb_refl, (tree_prop_none _ _ Hn). by exists (- FDT_ERR_NOTFOUND), m.
  - rewrite (Hgo _ _ (value_found _ _ _ _ _ _ _ _ _ _ _ Hat Hn Hsb Hs0 ltac:(lia))). cbv iota beta.
    rewrite (tree_prop_some _ _ _ _ Hn). destruct (value_here _ _ _ _ _ _ _ _ _ _ Hat) as (_ & Hf & _).
    destruct (Z.eqb_spec (value_place off nm l) 0); [lia|].
    destruct (Nat.eqb_spec (length old) (length val)) as [El|].
    2: { destruct (Z.eqb_spec (Z.of_nat (length old)) (Z.of_nat (length val))); [lia|]. by exists (- FDT_ERR_NOSPACE), m. }
    rewrite El, Z.eqb_refl. cbn [negb]. rewrite (wbind_rd _ _ _ _ (strlen_name _ _ _ Hs Hmb Hwb)).
    rewrite s32_small by (unfold is_s32; lia).
    destruct (setprop_inplace_partial_ok m c nm _ subs off used s name 0 v val Hat Hsb Hs0 ltac:(lia) Hv
      ltac:(destruct Hv as (_ & _ & _ & _ & ?); lia)) as (rc & m' & He & Hs' & Hr).
    rewrite (tree_prop_some _ _ _ _ Hn), El, Nat.ltb_irrefl, overwrite_all in Hr by done. by exists rc, m'.
Qed.

(** C25: [fdt_setprop_inplace] replaces the value of a property by another one of the same
    length.  The tree keeps its shape: every node stays at its offset, no more bytes are
    taken and nothing outside the buffer changes.  If the property is missing or of
    another length, memory is as before. *)
Theorem fdt_setprop_inplace_spec m c nm props subs off used s name v val :
  node_at m c (DTree nm props subs) off used → c_name m s name → data_arg fdt size m v val →
  ∃ rc m', fdt_setprop_inplace fdt off s v (Z.of_nat (length val)) m = Ok (rc, m') ∧ same_outside fdt size m m' ∧
    match tree_prop props name with
    | None => rc = - FDT_ERR_NOTFOUND ∧ m' = m
    | Some old =>
        if (length old =? length val)%nat then rc = 0 ∧ node_at m' c (DTree nm (set_prop props name val) subs) off used
        else rc = - FDT_ERR_NOSPACE ∧ m' = m
    end.
Proof using Type. apply setprop_inplace_ok. Qed.
End inplace.

(* ------------------------------------------------------------------ *)
(** * Examples *)

(** A value of the same length, taken from the literal "compatible". *)
Definition compat : list Z := chars "compat".

Lemma compat_data : data_arg tree_addr 512 sw_memory (sw_place compat) compat.
Proof.
  split; [apply memory_bytes; vm_compute; reflexivity|]. split; [left; vm_compute; discriminate|]. by split_and!.
Qed.

Lemma fdt_setprop_inplace_spec_witness :
  ∃ m m' used, fdt_setprop_inplace tree_addr 0 (sw_place reg) (sw_place compat) 6 m = Ok (0, m') ∧
    node_at tree_addr 512 512 48 0 [(0, 0)] m' [] (DTree [] [(reg, compat)] []) 0 used.
Proof.
  destruct property_sample as (m & used & Hat & _ & Hs).
  destruct (fdt_setprop_inplace_spec tree_addr 512 512 48 0 [(0, 0)] m [] [] [(reg, memory)] [] 0 used (sw_place reg) reg
    (sw_place compat) compat Hat) as (rc & m' & He & _ & Hr);
    [eapply name_arg_same, reg_arg; exact Hs|eapply data_arg_same, compat_data; exact Hs|].
  destruct Hr as [-> Hat']. exists m, m', used. split; [exact He|exact Hat'].
Defined.

(** The index of [fdt_setprop_inplace_namelen_partial] is unsigned, and so is
    [len + idx]: four bytes at the index 2^32 - 4 pass its test, and overwrite the word in
    front of the value, which says what the name of the property is.  The index of a fixup
    gets here as [overlay_fixup_phandle] reads it. *)
Lemma inplace_index_wraps :
  match fdt_getprop sample_tree_mem tree_addr 112 (@rodata qemu_literals "reg"),
    fdt_setprop_inplace_namelen_partial tree_addr 112 (@rodata qemu_literals "reg") 3 (2 ^ 32 - 4)
      (@rodata qemu_literals "memory") 4 sample_tree_mem with
  | Ok (value, 16), Ok (rc, m') =>
      rc = 0 ∧ read_bytes 4 (value - 4) m' = Ok (chars "memo") ∧
      fdt_getprop m' tree_addr 112 (@rodata qemu_literals "reg") = Ok (0, - FDT_ERR_NOTFOUND)
  | _, _ => False
  end.
Proof. vm_compute. by split_and!. Qed.
