(* ===== verification/FdtKept.v ===== *)
(** What the readers of libfdt see of a tree part of whose structure block has been
    overwritten: they depend only on the bytes of what they read, so headers, strings,
    the reservation map and every tag that is not in that part read as before. *)
From S2P Require Import Prelude Machine Crt0 SampleTree Fdt FdtRo FdtCheck FdtTree FdtImage.
From stdpp Require Import base list gmap.
From Stdlib Require Import ZArith Lia.
#[local] Open Scope Z_scope.

(** The blocks of the tree at [fdt] do not overlap: neither the strings nor the
    reservation map, with the entry that ends it, reach into the structure block. *)
Record blocks_apart (m : mem) (fdt : Z) : Prop := {
  ap_version : 17 <= hdr m fdt 20;
  ap_struct : 40 <= hdr m fdt 8 ∧ hdr m fdt 8 + hdr m fdt 36 <= hdr m fdt 4;
  ap_strings : hdr m fdt 12 + hdr m fdt 32 <= hdr m fdt 8 ∨ hdr m fdt 8 + hdr m fdt 36 <= hdr m fdt 12;
  ap_rsvmap : ∀ n, fdt_num_mem_rsv m fdt = Ok n →
    hdr m fdt 16 + 16 * (n + 1) <= hdr m fdt 8 ∨ hdr m fdt 8 + hdr m fdt 36 <= hdr m fdt 16;
}.

(* ------------------------------------------------------------------ *)
(** * Readers of what has not changed *)

(** [m'] is [m] but for the bytes from [lo] to [hi] of the structure block. *)
Record part_changed (m m' : mem) (fdt lo hi : Z) : Prop := {
  pc_blob : blob m fdt;
  pc_header : header_ok m fdt;
  pc_apart : blocks_apart m fdt;
  pc_words : word_backed m;
  pc_top : fdt + hdr m fdt 4 + 4 < 2 ^ 32;
  pc_range : 0 <= lo ∧ lo <= hi ∧ hi <= hdr m fdt 36;
  pc_same : same_outside (fdt + hdr m fdt 8 + lo) (hi - lo) m m';
  pc_cells : same_cells m m';
  pc_bytes : mem_bytes m';
}.

Section kept.
Context (m m' : mem) (fdt lo hi : Z) (Hpc : part_changed m m' fdt lo hi).

Let Hbl := pc_blob _ _ _ _ _ Hpc.
Let Hok := pc_header _ _ _ _ _ Hpc.
Let Hap := pc_apart _ _ _ _ _ Hpc.
Let Hwb := pc_words _ _ _ _ _ Hpc.
Let Htop4 := pc_top _ _ _ _ _ Hpc.
Let Hreg := pc_range _ _ _ _ _ Hpc.
Let Hsame := pc_same _ _ _ _ _ Hpc.
Let Hdom := pc_cells _ _ _ _ _ Hpc.
Let Hby := pc_bytes _ _ _ _ _ Hpc.

#[local] Abbreviation total := (hdr m fdt 4).
#[local] Abbreviation strct := (hdr m fdt 8).

(** The [n] bytes at [a] are not among those that changed. *)
Definition aside (a n : Z) : Prop := a + n <= fdt + strct + lo ∨ fdt + strct + hi <= a.

Lemma load8_kept a : aside a 1 → load8 m' a = load8 m a.
Proof using All. intros Ha. unfold load8. rewrite Hsame; [done|]. unfold aside in Ha. lia. Qed.

Lemma load32_kept a : aside a 4 → load32 m' a = load32 m a.
Proof using All. intros Ha. apply (load32_same_outside _ _ _ _ _ Hsame). unfold aside in Ha. lia. Qed.

Lemma fdt32_ld__kept a : aside a 4 → fdt32_ld_ m' a = fdt32_ld_ m a.
Proof using All. intros Ha. unfold fdt32_ld_. by rewrite load32_kept. Qed.

Lemma mapped_kept a n : mapped m a n → mapped m' a n.
Proof using All. intros Ha x Hx. by apply Hdom, Ha. Qed.

Lemma bytes_kept a bs : bytes_at m a bs → aside a (Z.of_nat (length bs)) → bytes_at m' a bs.
Proof using All.
  intros Hb Ha i b Hi. pose proof (lookup_lt_Some _ _ _ Hi). rewrite Hsame; [by apply Hb|]. unfold aside in Ha. lia.
Qed.

Lemma cstr_kept a cs : cstr_at m a cs → aside a (Z.of_nat (length cs) + 1) → cstr_at m' a cs.
Proof using All.
  intros (Hb & Hnz & Hz) Ha. split; [|split; [done|]].
  - apply bytes_kept; [done|]. unfold aside in *. lia.
  - rewrite Hsame; [done|]. unfold aside in Ha. lia.
Qed.

Lemma get_header_kept o : 0 <= o <= 36 → fdt_get_header m' fdt o = fdt_get_header m fdt o.
Proof using All.
  intros Ho. destruct (ap_struct _ _ Hap) as [Hs _], (bl_addr _ _ Hbl), (bl_header _ _ Hbl).
  unfold fdt_get_header. rewrite !(u32_small (fdt + o)) by (unfold is_u32; lia). unfold fdt32_ld.
  rewrite !(u32_small (fdt + o + _)) by (unfold is_u32; lia).
  by rewrite !load8_kept by (unfold aside; lia).
Qed.

Lemma hdr_kept o : 0 <= o <= 36 → hdr m' fdt o = hdr m fdt o.
Proof using All. intros Ho. unfold hdr. by rewrite get_header_kept. Qed.

Lemma blob_kept : blob m' fdt.
Proof using All.
  destruct Hbl as [H1 H2 [H3 H4] [H5 H6] H7 H8].
  constructor; rewrite ?hdr_kept by lia; try done; split; try done; by apply mapped_kept.
Qed.

Lemma offset_ptr_kept off len : fdt_offset_ptr m' fdt off len = fdt_offset_ptr m fdt off len.
Proof using All.
  unfold fdt_offset_ptr, fdt_offset_ptr_, fdt_off_dt_struct, fdt_totalsize, fdt_version, fdt_size_dt_struct.
  by rewrite !get_header_kept by lia.
Qed.

Lemma tree_fuel_kept : tree_fuel m' fdt = tree_fuel m fdt.
Proof using All. unfold tree_fuel, fdt_totalsize. by rewrite get_header_kept by lia. Qed.

Lemma skip_name_kept off p o :
  0 <= off → strct + off <= total → skip_name m fdt off = Ok (p, o) → p ≠ 0 → o <= lo ∨ hi <= off →
  skip_name m' fdt off = Ok (p, o).
Proof using All.
  intros Ho Ht Hs Hp Ha. unfold skip_name in *. rewrite tree_fuel_kept. revert Hs.
  apply (loop_agree _ _ (λ s, 0 <= s ∧ strct + s <= total ∧ (o <= lo ∨ hi <= s))); [|done].
  intros s k (Hs0 & Hst & Hsa) Hl. rewrite offset_ptr_kept.
  assert (s < o) as Hlt.
  { pose proof (skip_name_ok m fdt Hbl s Hs0 Hst) as Hy. unfold skip_name in Hy.
    destruct (loop (tree_fuel m fdt) _ s) as [[p' o']| |] eqn:E; [|done..].
    rewrite <- (loop_det _ _ _ _ _ _ Hl E) in Hy. destruct (Hy Hp) as (cs & _ & -> & _). lia. }
  pose proof (bl_size _ _ Hbl). unfold INT_MAX in *. destruct (ap_struct _ _ Hap).
  rewrite offset_ptr_eq by (done || unfold is_s32, is_u32; lia). cbn [mbind res_bind].
  destruct (in_range m fdt s 1) eqn:Hin; [|by split].
  destruct (in_range_ok m fdt Hbl s 1 Hin ltac:(lia)) as (_ & Hle & _ & _ & Hadr & Hnz & _). rewrite Hadr.
  destruct (Z.eqb_spec (fdt + strct + s) 0); [done|]. rewrite load8_kept by (unfold aside; lia).
  split; [done|]. intros s'. destruct (load8 m (fdt + strct + s)) as [c| |]; [|done..]. cbn [mbind res_bind].
  rewrite s32_small by (unfold is_s32; lia). destruct (c =? 0); [done|]. intros [= <-]. lia.
Qed.

Lemma payload_kept tag off o :
  0 <= off → strct + off <= total → off mod 4 = 0 → tag_payload m fdt tag off = Ok (Some o) →
  o <= lo ∨ hi <= off → (tag = FDT_PROP → off + 4 <= lo ∨ hi <= off) →
  tag_payload m' fdt tag off = Ok (Some o).
Proof using All.
  intros Ho Ht H4 Hp Ha Hq. pose proof (bl_size _ _ Hbl). destruct (ap_struct _ _ Hap).
  unfold INT_MAX in *. unfold tag_payload in *. destruct (tag =? FDT_BEGIN_NODE).
  - destruct (skip_name m fdt off) as [[p o']| |] eqn:Es; cbn [mbind res_bind] in Hp; [|done..].
    destruct (Z.eqb_spec p 0); [done|]. injection Hp as ->.
    rewrite (skip_name_kept off p o) by done. cbn [mbind res_bind]. by destruct (Z.eqb_spec p 0).
  - destruct (Z.eqb_spec tag FDT_PROP) as [->|]; [|done]. specialize (Hq eq_refl).
    rewrite offset_ptr_kept. revert Hp. rewrite offset_ptr_eq by (done || unfold is_s32, is_u32; lia).
    cbn [mbind res_bind]. destruct (in_range m fdt off 4) eqn:Hin; [|done].
    destruct (in_range_ok m fdt Hbl off 4 Hin ltac:(lia)) as (_ & Hle & _ & _ & Hadr & _). rewrite Hadr.
    destruct (Z.eqb_spec (fdt + strct + off) 0); [done|]. rewrite fdt32_ld__kept by (unfold aside; lia).
    unfold fdt_version. by rewrite get_header_kept by lia.
Qed.

(** A tag outside the region, with what belongs to it. *)
Lemma next_tag_kept off tag next :
  valid_offset off → tag_at m fdt off tag next → next <= lo ∨ hi <= off → tag_at m' fdt off tag next.
Proof using All.
  intros Hv [Ht Hn] Ha. pose proof (next_tag_valid m fdt Hbl off Hv) as Hr. rewrite Ht in Hr.
  destruct Hr as [(? & _)|(_ & Hge & Hal & Htop & Htag & Hle & _)]; [lia|]. split; [|done].
  destruct Hv as (Hv0 & Hv4 & Hv31). pose proof (bl_size _ _ Hbl). destruct (ap_struct _ _ Hap).
  unfold INT_MAX in *. revert Ht. unfold fdt_next_tag, FDT_TAGSIZE. rewrite offset_ptr_kept.
  rewrite offset_ptr_eq by (done || unfold is_s32, is_u32; lia). cbn [mbind res_bind].
  destruct (in_range m fdt off 4) eqn:Hin; [|done].
  destruct (in_range_ok m fdt Hbl off 4 Hin ltac:(lia)) as (_ & _ & _ & _ & Hadr & Hnz & _). rewrite Hadr.
  destruct (Z.eqb_spec (fdt + strct + off) 0); [done|].
  rewrite fdt32_ld__kept by (unfold aside; lia). rewrite Htag. cbn [mbind res_bind].
  rewrite s32_small by (unfold is_s32; lia).
  destruct (tag_payload m fdt tag (off + 4)) as [[o|]| |] eqn:Ep; cbn [mbind res_bind];
    [|intros [= _ E]; unfold FDT_ERR_BADSTRUCTURE in E; lia|done..].
  assert (strct + (off + 4) <= total ∧ 0 <= off + 4 ∧ (off + 4) mod 4 = 0) as (Hb1 & Hb2 & Hb3)
    by (split_and!; [lia..|Z.div_mod_to_equations; lia]).
  assert (is_u32 tag) as Htu.
  { unfold fdt32_ld_ in Htag. apply bind_ok in Htag as (w & _ & [= <-]). apply fdt32_to_cpu_u32. }
  pose proof (tag_payload_ok m fdt Hbl tag (off + 4) Hb2 Hb3 Hb1 Htu) as Hy. rewrite Ep in Hy.
  destruct (Hy o eq_refl) as (_ & o' & Ho' & -> & _ & Hprop).
  assert (u32 (s32 o' - off) = o' - off) as Hlen.
  { replace (s32 o' - off) with (s32 o' + - off) by lia. rewrite <- u32_add_l, u32_s32.
    rewrite u32_add_l. apply u32_small. unfold is_u32. lia. }
  rewrite Hlen, offset_ptr_eq by (done || (unfold is_s32, is_u32; lia)). cbn [mbind res_bind].
  destruct (in_range m fdt off (o' - off)) eqn:Hin'; [|intros [= _ E]; unfold FDT_ERR_BADSTRUCTURE in E; lia].
  destruct (in_range_ok m fdt Hbl off (o' - off) Hin' ltac:(lia)) as (_ & Hle' & _). rewrite Hadr.
  destruct (Z.eqb_spec (fdt + strct + off) 0); [done|].
  rewrite (s32_small o') in * by (unfold is_s32; lia). rewrite tagalign_eq by lia.
  rewrite s32_small by (unfold is_s32; Z.div_mod_to_equations; lia). intros [= Hnx].
  assert (o' <= next) by (rewrite <- Hnx; Z.div_mod_to_equations; lia).
  rewrite (payload_kept tag (off + 4) o') by (done || lia || (intros ->; destruct (Hprop eq_refl) as (? & _ & ? & ?); lia)).
  cbn [mbind res_bind]. rewrite Hlen, offset_ptr_kept, offset_ptr_eq by (done || (unfold is_s32, is_u32; lia)).
  cbn [mbind res_bind]. rewrite Hin', Hadr. destruct (Z.eqb_spec (fdt + strct + off) 0); [done|].
  rewrite tagalign_eq by lia. rewrite s32_small by (unfold is_s32; Z.div_mod_to_equations; lia). by rewrite Hnx.
Qed.

(** Strings of the strings block. *)

Lemma memchr_kept n p ch : 0 <= p → p + Z.of_nat n <= 2 ^ 32 → aside p (Z.of_nat n) →
  memchr_from n p ch m' = memchr_from n p ch m.
Proof using All.
  revert p. induction n as [|n IH]; intros p Hp Ht Ha; [done|]. unfold aside in *. cbn [memchr_from].
  rewrite load8_kept by (unfold aside; lia). destruct (load8 m p) as [c| |]; [|done..]. cbn [mbind res_bind].
  destruct (c =? ch); [done|]. destruct n as [|n]; [done|]. rewrite u32_small by (unfold is_u32; lia). apply IH; lia.
Qed.

Ltac kept_header := unfold fdt_magic, fdt_totalsize, fdt_off_dt_struct, fdt_off_dt_strings, fdt_off_mem_rsvmap,
  fdt_version, fdt_last_comp_version, fdt_size_dt_strings, fdt_size_dt_struct;
  rewrite ?get_header_kept by lia.

Lemma ro_probe_kept : fdt_ro_probe_ m' fdt = fdt_ro_probe_ m fdt.
Proof using All. unfold fdt_ro_probe_. by kept_header. Qed.

Lemma get_string_kept x : fdt_get_string m' fdt x = fdt_get_string m fdt x.
Proof using All.
  unfold fdt_get_string. rewrite ro_probe_kept. destruct (fdt_ro_probe_ m fdt) as [t| |]; [|done..].
  cbn [mbind res_bind]. destruct (t <? 0); [done|]. unfold string_limit. kept_header.
  pose proof (header_eq m fdt Hbl 12 ltac:(lia)) as [-> Hs]. pose proof (header_eq m fdt Hbl 0 ltac:(lia)) as [-> _].
  pose proof (header_eq m fdt Hbl 20 ltac:(lia)) as [-> _]. pose proof (header_eq m fdt Hbl 32 ltac:(lia)) as [-> Hz].
  cbn [mbind res_bind]. rewrite (ho_magic _ _ Hok). rewrite Z.eqb_refl.
  destruct (t <=? u32 (x + hdr m fdt 12)); [done|]. destruct (Z.ltb_spec x 0); [done|]. cbn [mbind res_bind].
  pose proof (ap_version _ _ Hap). destruct (Z.leb_spec 17 (hdr m fdt 20)); [|lia].
  destruct (Z.leb_spec (hdr m fdt 32) x); [done|]. cbn [mbind res_bind].
  destruct (ho_strings _ _ Hok) as [_ Hst], (bl_mapped _ _ Hbl) as [_ Ht], (bl_addr _ _ Hbl) as [Hf _].
  destruct (header_eq m fdt Hbl 8 ltac:(lia)) as [_ Hs8]. destruct (ap_struct _ _ Hap) as [_ Hend].
  pose proof (bl_size _ _ Hbl). unfold is_u32, INT_MAX in *.
  rewrite (u32_small (x + _)), (u32_small (fdt + _)), (u32_small (hdr m fdt 32 - x)) by (unfold is_u32; lia).
  set (n := if _ <? _ then _ else _). assert (n <= hdr m fdt 32 - x) as Hn.
  { unfold n. destruct (Z.ltb_spec (hdr m fdt 32 - x) (u32 (t - (x + hdr m fdt 12)))); lia. }
  assert (0 <= n) as Hn0.
  { unfold n. pose proof (u32_range (t - (x + hdr m fdt 12))) as Hr. unfold is_u32 in Hr. case_match; lia. }
  clearbody n. unfold memchr. rewrite memchr_kept; [done|lia|lia|].
  rewrite Z2Nat.id by lia. unfold aside. destruct (ap_strings _ _ Hap); lia.
Qed.

Lemma prop_next off next : valid_offset off → tag_at m fdt off FDT_PROP next → off + 12 <= next.
Proof using All.
  intros Hv [Ht Hn]. pose proof (next_tag_valid m fdt Hbl off Hv) as Hr. rewrite Ht in Hr.
  destruct Hr as [(? & _)|(_ & _ & _ & _ & _ & _ & _ & Hp)]; [lia|]. destruct (Hp eq_refl) as (? & _ & ? & ?). lia.
Qed.

Lemma good_property_kept off next :
  valid_offset off → tag_at m fdt off FDT_PROP next → next <= lo ∨ hi <= off →
  good_property m fdt off → good_property m' fdt off.
Proof using All.
  intros Hv Ht Ha (p & len & name & He & Hp). exists p, len, name. split; [|done]. rewrite <- He.
  pose proof (prop_next off next Hv Ht) as Hn. pose proof (next_tag_kept off _ next Hv Ht Ha) as [Ht' _].
  destruct Ht as [Ht Hn0]. destruct Hv as (Hv0 & Hv4 & Hv31).
  pose proof (next_tag_valid m fdt Hbl off ltac:(by split_and!)) as Hr. rewrite Ht in Hr.
  destruct Hr as [(? & _)|(_ & _ & _ & _ & _ & Hle & _ & Hpr)]; [lia|]. destruct (Hpr eq_refl) as (l & Hl & Hl0 & Hlt & _).
  destruct (header_eq m fdt Hbl 8 ltac:(lia)) as [Es Hs8], (bl_mapped _ _ Hbl) as [_ Htop], (bl_addr _ _ Hbl).
  unfold is_u32 in *. unfold fdt_getprop_by_offset, fdt_get_property_by_offset_, fdt_check_prop_offset_.
  rewrite Ht, Ht'. destruct (_ || _); [done|]. cbn [mbind res_bind negb Z.eqb]. rewrite Z.eqb_refl. cbn [negb].
  destruct (next <? 0); [done|]. unfold fdt_offset_ptr_, property_data. kept_header. rewrite Es. cbn [mbind res_bind].
  rewrite (u32_small (fdt + strct + off)), (u32_small (_ + 4)) by (unfold is_u32; lia).
  rewrite (fdt32_ld__kept (_ + 4)) by (unfold aside; lia). rewrite Hl. cbn [mbind res_bind].
  rewrite !(u32_small (_ + 4)), !(u32_small (_ + 8)) by (unfold is_u32; lia).
  rewrite !(fdt32_ld__kept (_ + 4)), !(fdt32_ld__kept (_ + 8)) by (unfold aside; lia).
  destruct (_ =? 0); [done|]. destruct (fdt32_ld_ m (fdt + strct + off + 8)) as [no| |]; [|done..].
  cbn [mbind res_bind]. rewrite get_string_kept.
  destruct (fdt_get_string m fdt (s32 no)) as [[nm nl]| |]; [|done..]. reflexivity.
Qed.


Lemma word_backed_kept : word_backed m'.
Proof using All. intros a Ha x Hx. apply Hdom. apply (Hwb a); [by apply Hdom|done]. Qed.

Lemma empty_name_kept off next :
  valid_offset off → tag_at m fdt off FDT_BEGIN_NODE next → next <= lo ∨ hi <= off →
  empty_name m fdt off → empty_name m' fdt off.
Proof using All.
  intros Hv Ht Ha (name & He & Hnz & Hl). exists name.
  pose proof (next_tag_kept off _ next Hv Ht Ha) as [Ht' _]. destruct Ht as [Ht Hn0].
  pose proof (next_tag_valid m fdt Hbl off Hv) as Hr. rewrite Ht in Hr.
  destruct Hr as [(? & _)|(_ & Hge & _ & _ & _ & Hle & Hnm & _)]; [lia|]. destruct (Hnm eq_refl) as (cs & Hcs & Hlt & Hnx).
  destruct Hv as (Hv0 & Hv4 & Hv31).
  destruct (header_eq m fdt Hbl 8 ltac:(lia)) as [Es Hs8], (header_eq m fdt Hbl 20 ltac:(lia)) as [Ev _].
  destruct (bl_mapped _ _ Hbl) as [_ Htop], (bl_addr _ _ Hbl). pose proof (ap_version _ _ Hap). unfold is_u32 in *.
  revert He. unfold fdt_get_name, fdt_offset_ptr_, fdt_check_node_offset_. rewrite Ht, Ht', ro_probe_kept.
  kept_header. rewrite Es, Ev. cbn [mbind res_bind].
  destruct (fdt_ro_probe_ m fdt) as [r| |]; [|done..]. cbn [mbind res_bind]. destruct (r <? 0); [by intros [= <-]|].
  destruct (_ || _); [by intros [= <-]|]. cbn [mbind res_bind]. rewrite Z.eqb_refl. cbn [negb].
  destruct (next <? 0); [by intros [= <-]|]. destruct (Z.ltb_spec (hdr m fdt 20) 16); [lia|]. cbn [mbind res_bind].
  rewrite (u32_small (fdt + strct + off)), (u32_small (_ + 4)) by (unfold is_u32; lia).
  destruct (Z.eqb_spec (fdt + strct + off + 4) 0); [lia|].
  assert (aside (fdt + strct + off + 4) (Z.of_nat (length cs) + 1)) as Has by (unfold aside; lia).
  pose proof word_backed_kept. rewrite (strlen_ok m _ cs Hcs) by (apply Hbl || done || lia).
  rewrite (strlen_ok m' _ cs (cstr_kept _ _ Hcs Has)) by (done || lia).
  cbn [mbind res_bind]. intros [= <- Hlen]. rewrite Hlen. split; [done|]. split; [done|].
  rewrite load8_kept; [done|]. unfold aside in *. lia.
Qed.

Lemma mem_rsv_kept i : fdt_mem_rsv m' fdt i = fdt_mem_rsv m fdt i.
Proof using All. unfold fdt_mem_rsv. by kept_header. Qed.

Lemma scan_fuel_kept : scan_fuel m' = scan_fuel m.
Proof using All.
  unfold scan_fuel. enough (size m' = size m) as -> by done.
  rewrite <- !size_dom. f_equal. apply set_eq. intros x. rewrite !elem_of_dom. apply Hdom.
Qed.

(** The reservation map: no entry behind its end is read. *)
Lemma num_mem_rsv_kept n : fdt_num_mem_rsv m fdt = Ok n → 0 <= n → fdt_num_mem_rsv m' fdt = Ok n.
Proof using All.
  intros Hn Hn0. pose proof (ap_rsvmap _ _ Hap n Hn) as Har.
  destruct (ho_rsvmap _ _ Hok) as [Hr8 [_ Hrt]], (ho_size _ _ Hok) as [Hsz1 _].
  pose proof (ap_version _ _ Hap). pose proof (ho_struct _ _ Hok) as (_ & Hst & _). destruct (ap_struct _ _ Hap).
  revert Hn. unfold fdt_num_mem_rsv, FDT_RO_PROBE. rewrite ro_probe_kept, tree_fuel_kept, scan_fuel_kept.
  destruct (fdt_ro_probe_ m fdt) as [r| |]; [|done..]. cbn [mbind res_bind]. destruct (r <? 0); [done|].
  set (body := λ i, _). assert (∀ k i, loop k body i = Ok n → i <= n) as Hup.
  { assert (∀ i, match body i with Ok (inl i') => i' = i + 1 | Ok (inr v) => v = i ∨ v < 0 | _ => True end) as Hb.
    { intros i. unfold body. destruct (fdt_mem_rsv m fdt i) as [re| |]; [|done..]. cbn [mbind res_bind].
      destruct (re =? 0); [by right|]. destruct (fdt64_ld_ _ _) as [sz| |]; [|done..]. cbn [mbind res_bind].
      destruct (sz =? 0); [by left|done]. }
    clearbody body. induction k as [|k IH]; intros i; [done|]. cbn [loop]. specialize (Hb i).
    destruct (body i) as [[i'|v]| |]; [|..|done|done]; cbn [mbind res_bind].
    - intros Hl%IH. lia.
    - intros [= ->]. lia. }
  apply (loop_agree _ _ (λ i, 0 <= i ∧ hdr m fdt 16 + 16 * i <= total + 16)); [|lia].
  intros i k [Hi Hle] Hl. rewrite mem_rsv_kept.
  destruct (mem_rsv_ok m fdt Hbl i Hi ltac:(lia) Hle) as (re & Hre & Hin).
  destruct (decide (re = 0)) as [->|Hre0]; [unfold body; rewrite Hre; by split|]. destruct (Hin Hre0) as [-> Hlt].
  pose proof (Hup k i Hl) as Hin'. clear Hl Hup Hin. unfold body. rewrite Hre. cbn [mbind res_bind].
  destruct (Z.eqb_spec (fdt + hdr m fdt 16 + 16 * i) 0); [done|].
  destruct (bl_addr _ _ Hbl), (header_eq m fdt Hbl 16 ltac:(lia)) as [_ Hr]. unfold is_u32 in Hr.
  rewrite u32_small by (unfold is_u32; lia). unfold fdt64_ld_. rewrite u32_small by (unfold is_u32; lia).
  rewrite !fdt32_ld__kept by (unfold aside; destruct Har; lia). split; [done|].
  intros s' (v & _ & E)%bind_ok. destruct (v =? 0); [done|]. injection E as <-. lia.
Qed.

Lemma header_ok_kept : header_ok m' fdt.
Proof using All. destruct Hok. constructor; by rewrite ?hdr_kept by lia. Qed.

Lemma readable_kept : readable_tree m fdt → readable_tree m' fdt.
Proof using All.
  intros (_ & _ & Hf & Hm & Ht & Hmt & Htt & Hv). unfold readable_tree. rewrite !hdr_kept by lia.
  split_and!; try done; [apply word_backed_kept|by apply mapped_kept..].
Qed.
End kept.
