(* ===== verification/FdtNop.v ===== *)
(** Blanking parts of a tree with FDT_NOP: [fdt_nop_node] and [fdt_nop_property] of
    src/libfdt/fdt_wip.c.  Nothing moves, so the tree that the block spells is the same
    but for the part. *)
From S2P Require Import Prelude Machine Crt0 SampleTree Fdt FdtRo FdtCheck FdtTree FdtLookup FdtWrite FdtImage FdtBuild FdtFinish FdtKept.
From stdpp Require Import base list gmap.
From Stdlib Require Import ZArith Lia.
#[local] Open Scope Z_scope.

(** A tree without its subnodes at the offset [o]. *)
Fixpoint prune (o : Z) (t : dnode) : dnode :=
  let 'Node off props subs := t in
  Node off props (flat_map (λ u, if node_off u =? o then [] else [prune o u]) subs).
Definition prune_all (o : Z) (ts : list dnode) : list dnode :=
  flat_map (λ u, if node_off u =? o then [] else [prune o u]) ts.

(** A tree without the property at the offset [o]. *)
Fixpoint drop_prop (o : Z) (t : dnode) : dnode :=
  let 'Node off props subs := t in Node off (filter (λ p, p ≠ o) props) (map (drop_prop o) subs).

(* ------------------------------------------------------------------ *)
(** * The way to a tag *)

Section reach.
Context (m : mem) (fdt : Z) (Hbl : blob m fdt).

(** [last] is a tag of the block that [off] comes before. *)
Inductive reach : Z → Z → Prop :=
| reach_here off : reach off off
| reach_step off tag next last :
    tag_at m fdt off tag next → tag ≠ FDT_END → reach next last → reach off last.

Lemma reach_trans a b c : reach a b → reach b c → reach a c.
Proof using Type. induction 1; [done|]. intros. econstructor; eauto. Qed.

Lemma reach_bound off last : reach off last → valid_offset off → off <= last ∧ valid_offset last.
Proof using Hbl.
  induction 1 as [off|off tag next last Ht _ _ IH]; intros Hv; [done|].
  destruct (tag_at_valid m fdt Hbl _ _ _ Hv Ht) as [Hvn Hlt]. destruct (IH Hvn). split; [lia|done].
Qed.

Lemma reach_next off last tag next : reach off last → off ≠ last → tag_at m fdt off tag next → reach next last.
Proof using Type.
  destruct 1 as [off|off tag' next' last Ht' _ Hr]; [done|]. intros _ Ht.
  by destruct (tag_at_unique m fdt _ _ _ _ _ Ht Ht') as [_ ->].
Qed.

(** Nothing lies behind the end of the block. *)
Lemma closing_reach off last tag next :
  closing m fdt off → reach off last → tag_at m fdt last tag next → tag = FDT_NOP ∨ tag = FDT_END.
Proof using Type.
  intros Hc. revert last. induction Hc as [off nx Hn _ IH|off nx Hn]; intros last Hr Ht;
    (destruct (decide (off = last)) as [->|Hne]; [destruct (tag_at_unique m fdt _ _ _ _ _ Ht Hn); auto|]).
  - eapply IH; [by eapply reach_next|done].
  - destruct Hr as [off|off tag' next' last Ht' Hne' _]; [done|].
    by destruct (tag_at_unique m fdt _ _ _ _ _ Hn Ht').
Qed.

Lemma props_reach off props p : props_at m fdt off props → p ∈ props → reach off p.
Proof using Type.
  induction 1 as [off tag next Ht Hor|off next props Ht _ IH|off next props Ht Hg _ IH].
  - by intros ?%elem_of_nil.
  - intros Hin. econstructor; [exact Ht|done|by apply IH].
  - intros [->|Hin]%elem_of_cons; [constructor|]. econstructor; [exact Ht|done|by apply IH].
Qed.

Lemma subs_unique off ts after : subs_at m fdt off ts after →
  ∀ ts' after', subs_at m fdt off ts' after' → after' = after.
Proof using Type.
  induction 1 as [off after Ht|off next ts after Ht _ IH|off next ts after Ht _ _ IH|
    off next props ss mid ts after Ht _ _ IH1 _ IH2]; intros ts' after' Hs;
    inversion Hs as [? ? Ht'|? ? ? ? Ht'|? ? ? ? Ht'|? ? ? ? ? ? ? Ht' Hp Hss]; subst;
    destruct (tag_at_unique m fdt _ _ _ _ _ Ht Ht') as [E1 E2]; try discriminate; subst; eauto.
  rewrite (IH1 _ _ Hss) in *. eauto.
Qed.

Lemma subs_reach off ts after : subs_at m fdt off ts after →
  reach off after ∧ ∀ d t e, (t, e) ∈ flat_map (tree_nodes d) ts →
    reach off (node_off t) ∧ ∃ next after', tag_at m fdt (node_off t) FDT_BEGIN_NODE next ∧
      props_at m fdt next (node_props t) ∧ subs_at m fdt next (node_subs t) after'.
Proof using Type.
  induction 1 as [off after Ht|off next ts after Ht _ [IH1 IH2]|off next ts after Ht _ _ [IH1 IH2]|
    off next props ss mid ts after Ht Hp Hss [IH1 IH2] _ [IH3 IH4]].
  - split; [|by intros d t e ?%elem_of_nil]. econstructor; [done..|constructor].
  - split; [by econstructor|]. intros d t e Hin. destruct (IH2 d t e Hin). split; [by econstructor|done].
  - split; [by econstructor|]. intros d t e Hin. destruct (IH2 d t e Hin). split; [by econstructor|done].
  - assert (reach off mid) as Hm by by econstructor. split; [by eapply reach_trans|].
    intros d t e. cbn [flat_map tree_nodes]. rewrite elem_of_app, elem_of_cons.
    intros [[[= -> ->]|Hin]|Hin]; cbn [node_off node_props node_subs].
    + split; [constructor|]. eauto 10.
    + destruct (IH2 _ _ _ Hin). split; [by econstructor|done].
    + destruct (IH4 _ _ _ Hin). split; [by eapply reach_trans|done].
Qed.

Lemma closing_block off : closing m fdt off → block_at m fdt off None.
Proof using Type. induction 1; [by eapply block_nop|by eapply block_empty]. Qed.

Lemma block_reach off root : block_at m fdt off (Some root) →
  ∀ t e, (t, e) ∈ tree_nodes 0 root →
    reach off (node_off t) ∧ ∃ next after', tag_at m fdt (node_off t) FDT_BEGIN_NODE next ∧
      props_at m fdt next (node_props t) ∧ subs_at m fdt next (node_subs t) after'.
Proof using Type.
  remember (Some root) as o eqn:Eo. induction 1 as [off next o Ht _ IH|off next o Ht _ _ IH|off next Ht|
    off next props ss after Ht He Hp Hs Hc]; [..|done|]; intros t e Hin.
  - destruct (IH Eo t e Hin). split; [by econstructor|done].
  - destruct (IH Eo t e Hin). split; [by econstructor|done].
  - injection Eo as <-. revert Hin. cbn [tree_nodes]. rewrite elem_of_cons.
    intros [[= -> ->]|Hin]; cbn [node_off node_props node_subs].
    + split; [constructor|]. eauto 10.
    + destruct (subs_reach _ _ _ Hs) as [_ Hr]. destruct (Hr _ _ _ Hin). split; [by econstructor|done].
Qed.
End reach.

(* ------------------------------------------------------------------ *)
(** * A part of the block that has become FDT_NOP tags *)

Section blanked.
Context (m m' : mem) (fdt lo hi : Z) (Hpc : part_changed m m' fdt lo hi).
Context (Hlo : valid_offset lo) (Hhi : valid_offset hi).
Context (Hnop : ∀ o, lo <= o < hi → o mod 4 = 0 → tag_at m' fdt o FDT_NOP (o + 4)).

#[local] Abbreviation reach := (reach m fdt).
#[local] Abbreviation tag := (tag_at m fdt).

Let Hbl := pc_blob _ _ _ _ _ Hpc.

(** What holds behind the part holds in front of it. *)
Lemma over_nops (P : Z → Prop) :
  (∀ off next, tag_at m' fdt off FDT_NOP next → P next → P off) → P hi → P lo.
Proof using All.
  intros Hstep Hp. destruct (pc_range _ _ _ _ _ Hpc) as (_ & Hle & _).
  destruct Hlo as (_ & Hl4 & _), Hhi as (_ & Hh4 & _).
  assert (∀ n : nat, lo <= hi - 4 * Z.of_nat n → P (hi - 4 * Z.of_nat n)) as Hn.
  { induction n as [|n IH]; intros Hge; [by rewrite Z.sub_0_r|].
    eapply Hstep; [apply Hnop; [lia|Z.div_mod_to_equations; lia]|].
    replace (hi - 4 * Z.of_nat (S n) + 4) with (hi - 4 * Z.of_nat n) by lia. apply IH. lia. }
  replace lo with (hi - 4 * Z.of_nat (Z.to_nat ((hi - lo) / 4))) by (Z.div_mod_to_equations; lia).
  apply Hn. Z.div_mod_to_equations; lia.
Qed.

(** A tag is in front of the part, or it is where the part begins, or behind it. *)
Definition placed (off : Z) : Prop := hi <= off ∨ reach off lo.

Lemma placed_next off t next : valid_offset off → tag off t next → placed off → off ≠ lo →
  valid_offset next ∧ (next <= lo ∨ hi <= off) ∧ placed next.
Proof using All.
  intros Hv Ht Hp Hne. destruct (tag_at_valid m fdt Hbl _ _ _ Hv Ht) as [Hvn Hlt]. split; [done|].
  destruct Hp as [Hp|Hp]; [split; [by right|left; lia]|].
  pose proof (reach_next m fdt _ _ _ _ Hp Hne Ht) as Hr.
  destruct (reach_bound m fdt Hbl _ _ Hr Hvn). split; [by left|by right].
Qed.

Lemma placed_tag off t next : valid_offset off → tag off t next → placed off → off ≠ lo →
  tag_at m' fdt off t next.
Proof using All.
  intros Hv Ht Hp Hne. destruct (placed_next _ _ _ Hv Ht Hp Hne) as (_ & Ha & _).
  by apply (next_tag_kept m m' fdt lo hi Hpc).
Qed.

Lemma placed_prop off next : valid_offset off → tag off FDT_PROP next → placed off → off ≠ lo →
  good_property m fdt off → good_property m' fdt off.
Proof using All.
  intros Hv Ht Hp Hne. destruct (placed_next _ _ _ Hv Ht Hp Hne) as (_ & Ha & _).
  by apply (good_property_kept m m' fdt lo hi Hpc off next).
Qed.

Lemma behind off : lo < hi → hi <= off → placed off ∧ off ≠ lo.
Proof using Type. intros. split; [by left|lia]. Qed.

Lemma closing_blank off : closing m fdt off → valid_offset off → lo < hi → hi <= off → closing m' fdt off.
Proof using All.
  intros Hc. induction Hc as [off next Ht _ IH|off next Ht]; intros Hv Hlt Hge;
    destruct (behind off Hlt Hge) as [Hp Hne]; pose proof (placed_tag _ _ _ Hv Ht Hp Hne) as Ht'.
  - destruct (tag_at_valid m fdt Hbl _ _ _ Hv Ht). eapply closing_nop; [done|]. apply IH; [done|done|lia].
  - by eapply closing_end.
Qed.

(* ------------------------------------------------------------------ *)
(** ** The part is a node *)

Section node.
Context (first : Z) (ss : list dnode).
Context (Hbegin : tag lo FDT_BEGIN_NODE first) (Hsubs : subs_at m fdt first ss hi).

Lemma part_nonempty : lo < hi ∧ lo < first.
Proof using All.
  clear Hnop. destruct (tag_at_valid m fdt Hbl _ _ _ Hlo Hbegin) as [Hv Hlt].
  destruct (subs_bound m fdt Hbl _ _ _ Hsubs Hv). lia.
Qed.

Section after.
(** No property follows the node. *)
Context (Hafter : props_at m fdt hi []).

Lemma props_behind off props : props_at m fdt off props → valid_offset off → hi <= off → props_at m' fdt off props.
Proof using All.
  destruct part_nonempty as [Hlt _]. induction 1 as [off t next Ht Hor|off next props Ht _ IH|off next props Ht Hg _ IH];
    intros Hv Hge; destruct (behind off Hlt Hge) as [Hp Hne]; pose proof (placed_tag _ _ _ Hv Ht Hp Hne) as Ht';
    destruct (tag_at_valid m fdt Hbl _ _ _ Hv Ht) as [Hvn Hlt'].
  - by eapply props_end.
  - eapply props_nop; [done|]. apply IH; [done|lia].
  - eapply props_prop; [done|by eapply placed_prop|]. apply IH; [done|lia].
Qed.

Lemma props_blank off props : props_at m fdt off props → valid_offset off → placed off → props_at m' fdt off props.
Proof using All.
  induction 1 as [off t next Ht Hor|off next props Ht _ IH|off next props Ht Hg _ IH]; intros Hv Hp;
    (destruct (decide (off = lo)) as [->|Hne]; [destruct (tag_at_unique m fdt _ _ _ _ _ Hbegin Ht) as [E _]; try discriminate|
      pose proof (placed_tag _ _ _ Hv Ht Hp Hne) as Ht'; destruct (placed_next _ _ _ Hv Ht Hp Hne) as (Hvn & _ & Hpn)]).
  - apply over_nops; [intros; by eapply props_nop|]. by apply props_behind.
  - by eapply props_end.
  - eapply props_nop; [done|]. by apply IH.
  - eapply props_prop; [done|by eapply placed_prop|]. by apply IH.
Qed.

Lemma subs_behind off ts after : subs_at m fdt off ts after → valid_offset off → hi <= off →
  subs_at m' fdt off ts after ∧ prune_all lo ts = ts.
Proof using All.
  destruct part_nonempty as [Hlt _]. induction 1 as [off after Ht|off next ts after Ht _ IH|off next ts after Ht Hg _ IH|
    off next props ss' mid ts after Ht Hps Hss IH1 _ IH2]; intros Hv Hge;
    destruct (behind off Hlt Hge) as [Hp Hne]; pose proof (placed_tag _ _ _ Hv Ht Hp Hne) as Ht';
    destruct (tag_at_valid m fdt Hbl _ _ _ Hv Ht) as [Hvn Hlt'].
  - split; [by apply subs_end|done].
  - destruct IH; [done|lia|]. split; [by eapply subs_nop|done].
  - destruct IH; [done|lia|]. split; [eapply subs_prop; [done|by eapply placed_prop|done]|done].
  - destruct IH1 as [? E1]; [done|lia|]. destruct (subs_bound m fdt Hbl _ _ _ Hss Hvn) as [Hvm ?].
    destruct IH2 as [? E2]; [done|lia|]. split.
    + eapply subs_node; [done| |done|done]. apply props_behind; [done|done|lia].
    + unfold prune_all in *. cbn [flat_map node_off prune]. destruct (Z.eqb_spec off lo); [lia|]. by rewrite E1, E2.
Qed.

(** The contents of a node lose the part, if it is in them. *)
Lemma subs_blank off ts after : subs_at m fdt off ts after → valid_offset off → reach off lo →
  if decide (after <= lo) then reach after lo ∧ subs_at m' fdt off ts after ∧ prune_all lo ts = ts
  else hi <= after ∧ subs_at m' fdt off (prune_all lo ts) after.
Proof using All.
  destruct part_nonempty as [Hlt _]. induction 1 as [off after Ht|off next ts after Ht _ IH|off next ts after Ht Hg _ IH|
    off next props ss' mid ts after Ht Hps Hss IH1 Hts IH2]; intros Hv Hr;
    (destruct (decide (off = lo)) as [->|Hne]; [destruct (tag_at_unique m fdt _ _ _ _ _ Hbegin Ht) as [E E']; try discriminate|
      pose proof (placed_tag _ _ _ Hv Ht (or_intror Hr) Hne) as Ht';
      destruct (placed_next _ _ _ Hv Ht (or_intror Hr) Hne) as (Hvn & _ & _);
      pose proof (reach_next m fdt _ _ _ _ Hr Hne Ht) as Hrn]).
  - destruct (reach_bound m fdt Hbl _ _ Hrn Hvn). rewrite decide_True by done. split; [done|]. split; [by apply subs_end|done].
  - specialize (IH Hvn Hrn). destruct (decide (after <= lo)).
    + destruct IH as (? & ? & ?). split_and!; [done|by eapply subs_nop|done].
    + destruct IH. split; [done|by eapply subs_nop].
  - specialize (IH Hvn Hrn). assert (good_property m' fdt off) by (eapply placed_prop; eauto; by right).
    destruct (decide (after <= lo)).
    + destruct IH as (? & ? & ?). split_and!; [done|by eapply subs_prop|done].
    + destruct IH. split; [done|by eapply subs_prop].
  - subst next. rewrite (subs_unique m fdt _ _ _ Hsubs _ _ Hss) in *. destruct (subs_bound m fdt Hbl _ _ _ Hts Hhi) as [_ ?].
    rewrite decide_False by lia. split; [lia|]. destruct (subs_behind _ _ _ Hts Hhi) as [Hts' Hpr]; [lia|].
    unfold prune_all in *. cbn [flat_map node_off]. rewrite Z.eqb_refl. cbn [app]. rewrite Hpr.
    apply over_nops; [|done]. intros. by eapply subs_nop.
  - specialize (IH1 Hvn Hrn). destruct (subs_bound m fdt Hbl _ _ _ Hss Hvn) as [Hvm ?].
    assert (props_at m' fdt next props) as Hps' by (apply props_blank; [done|done|by right]).
    assert (∀ ss'' ts'', prune_all lo ss' = ss'' → prune_all lo ts = ts'' →
      prune_all lo (Node off props ss' :: ts) = Node off props ss'' :: ts'') as Hpr.
    { intros ss'' ts'' <- <-. unfold prune_all. cbn [flat_map node_off prune]. by destruct (Z.eqb_spec off lo). }
    destruct (decide (mid <= lo)).
    + destruct IH1 as (Hrm & Hss' & E1). specialize (IH2 Hvm Hrm). destruct (decide (after <= lo)).
      * destruct IH2 as (? & ? & E2). split_and!; [done|by eapply subs_node|by apply Hpr].
      * destruct IH2 as [? ?]. split; [done|]. rewrite (Hpr _ _ E1 eq_refl). by eapply subs_node.
    + destruct IH1 as [Hge Hss']. destruct (subs_behind _ _ _ Hts Hvm Hge) as [Hts' E2].
      destruct (subs_bound m fdt Hbl _ _ _ Hts Hvm). rewrite decide_False by lia. split; [lia|].
      rewrite (Hpr _ _ eq_refl E2). by eapply subs_node.
Qed.
End after.

Lemma block_blank off root :
  block_at m fdt off (Some root) → valid_offset off → reach off lo → (node_off root ≠ lo → props_at m fdt hi []) →
  block_at m' fdt off (if node_off root =? lo then None else Some (prune lo root)).
Proof using All.
  destruct part_nonempty as [Hlt _]. remember (Some root) as o eqn:Eo.
  induction 1 as [off next o Ht _ IH|off next o Ht Hg _ IH|off next Ht|off next props ss' after Ht He Hp Hs Hc];
    intros Hv Hr Haf; [..|done|];
    (destruct (decide (off = lo)) as [->|Hne]; [destruct (tag_at_unique m fdt _ _ _ _ _ Hbegin Ht) as [E E']; try discriminate|
      pose proof (placed_tag _ _ _ Hv Ht (or_intror Hr) Hne) as Ht';
      destruct (placed_next _ _ _ Hv Ht (or_intror Hr) Hne) as (Hvn & Ha & _);
      pose proof (reach_next m fdt _ _ _ _ Hr Hne Ht) as Hrn]).
  - eapply block_nop; [done|]. by apply IH.
  - eapply block_prop; [done|eapply placed_prop; eauto; by right|]. by apply IH.
  - injection Eo as <-. subst next. cbn [node_off]. rewrite Z.eqb_refl. rewrite (subs_unique m fdt _ _ _ Hsubs _ _ Hs) in *.
    apply over_nops; [intros; by eapply block_nop|]. apply closing_block, closing_blank; done || lia.
  - injection Eo as <-. cbn [node_off] in *. destruct (Z.eqb_spec off lo) as [|_]; [done|]. specialize (Haf Hne).
    pose proof (subs_blank Haf _ _ _ Hs Hvn Hrn) as Hsb. destruct (subs_bound m fdt Hbl _ _ _ Hs Hvn) as [Hva ?].
    destruct (decide (after <= lo)).
    { destruct Hsb as [Hra _]. by destruct (closing_reach m fdt _ _ _ _ Hc Hra Hbegin). }
    destruct Hsb as [Hge Hss]. cbn [prune]. fold (prune_all lo ss'). eapply block_root; [done| | |done|].
    + by apply (empty_name_kept m m' fdt lo hi Hpc off next).
    + apply props_blank; [done|done|done|by right].
    + apply closing_blank; done || lia.
Qed.
End node.

(* ------------------------------------------------------------------ *)
(** ** The part is a property *)

Section property.
Context (Hprop : tag lo FDT_PROP hi).

Lemma prop_nonempty : lo < hi.
Proof using All. clear Hnop. destruct (tag_at_valid m fdt Hbl _ _ _ Hlo Hprop). lia. Qed.

Lemma props_dropped off props : props_at m fdt off props → valid_offset off → placed off →
  props_at m' fdt off (filter (λ p, p ≠ lo) props).
Proof using All.
  pose proof prop_nonempty as Hlt. induction 1 as [off t next Ht Hor|off next props Ht _ IH|off next props Ht Hg _ IH]; intros Hv Hp;
    (destruct (decide (off = lo)) as [->|Hne]; [destruct (tag_at_unique m fdt _ _ _ _ _ Hprop Ht) as [E E']; try discriminate|
      pose proof (placed_tag _ _ _ Hv Ht Hp Hne) as Ht'; destruct (placed_next _ _ _ Hv Ht Hp Hne) as (Hvn & _ & Hpn)]).
  - subst. by destruct Hor.
  - by eapply props_end.
  - eapply props_nop; [done|]. by apply IH.
  - subst next. rewrite filter_cons, decide_False by (by intros []).
    apply (over_nops (λ o, props_at m' fdt o (filter (λ p, p ≠ lo) props))); [intros; by eapply props_nop|].
    apply IH; [done|by left].
  - rewrite filter_cons, decide_True by done. eapply props_prop; [done|by eapply placed_prop|]. by apply IH.
Qed.

Lemma subs_dropped off ts after : subs_at m fdt off ts after → valid_offset off → placed off →
  placed after ∧ subs_at m' fdt off (map (drop_prop lo) ts) after.
Proof using All.
  pose proof prop_nonempty as Hlt. induction 1 as [off after Ht|off next ts after Ht _ IH|off next ts after Ht Hg _ IH|
    off next props ss' mid ts after Ht Hps Hss IH1 Hts IH2]; intros Hv Hp;
    (destruct (decide (off = lo)) as [->|Hne]; [destruct (tag_at_unique m fdt _ _ _ _ _ Hprop Ht) as [E E']; try discriminate|
      pose proof (placed_tag _ _ _ Hv Ht Hp Hne) as Ht'; destruct (placed_next _ _ _ Hv Ht Hp Hne) as (Hvn & _ & Hpn)]).
  - split; [done|by apply subs_end].
  - destruct IH; [done..|]. split; [done|by eapply subs_nop].
  - subst next. destruct IH as [Ha Hs]; [done|by left|]. split; [done|].
    apply (over_nops (λ o, subs_at m' fdt o (map (drop_prop lo) ts) after)); [intros; by eapply subs_nop|done].
  - destruct IH; [done..|]. split; [done|]. eapply subs_prop; [done|by eapply placed_prop|done].
  - destruct IH1 as [Hpm Hs1]; [done..|]. destruct (subs_bound m fdt Hbl _ _ _ Hss Hvn) as [Hvm _].
    destruct IH2 as [Hpa Hs2]; [done..|]. split; [done|]. cbn [map drop_prop].
    eapply subs_node; [done|by apply props_dropped|done|done].
Qed.

Lemma closing_dropped off : closing m fdt off → valid_offset off → placed off → closing m' fdt off.
Proof using All.
  pose proof prop_nonempty as Hlt. induction 1 as [off next Ht _ IH|off next Ht]; intros Hv Hp;
    (destruct (decide (off = lo)) as [->|Hne]; [by destruct (tag_at_unique m fdt _ _ _ _ _ Hprop Ht)|
      pose proof (placed_tag _ _ _ Hv Ht Hp Hne) as Ht'; destruct (placed_next _ _ _ Hv Ht Hp Hne) as (Hvn & _ & Hpn)]).
  - eapply closing_nop; [done|]. by apply IH.
  - by eapply closing_end.
Qed.

Lemma block_dropped off o : block_at m fdt off o → valid_offset off → placed off →
  block_at m' fdt off (drop_prop lo <$> o).
Proof using All.
  pose proof prop_nonempty as Hlt.
  induction 1 as [off next o Ht _ IH|off next o Ht Hg _ IH|off next Ht|off next props ss' after Ht He Hp Hs Hc];
    intros Hv Hpl;
    (destruct (decide (off = lo)) as [->|Hne]; [destruct (tag_at_unique m fdt _ _ _ _ _ Hprop Ht) as [E E']; try discriminate|
      pose proof (placed_tag _ _ _ Hv Ht Hpl Hne) as Ht';
      destruct (placed_next _ _ _ Hv Ht Hpl Hne) as (Hvn & Ha & Hpn)]).
  - eapply block_nop; [done|]. by apply IH.
  - subst next. apply (over_nops (λ x, block_at m' fdt x (drop_prop lo <$> o))); [intros; by eapply block_nop|].
    apply IH; [done|by left].
  - eapply block_prop; [done|by eapply placed_prop|]. by apply IH.
  - by eapply block_empty.
  - destruct (subs_dropped _ _ _ Hs Hvn Hpn) as [Hpa Hs']. destruct (subs_bound m fdt Hbl _ _ _ Hs Hvn) as [Hva _].
    eapply block_root; [done| |by apply props_dropped|done|by apply closing_dropped].
    by apply (empty_name_kept m m' fdt lo hi Hpc off next).
Qed.
End property.
End blanked.

(* ------------------------------------------------------------------ *)
(** * The end of a node *)

Section node_end.
Context (m : mem) (fdt : Z) (Hbl : blob m fdt).

#[local] Abbreviation nodes_from := (next_node_loop m fdt).

Definition end_round (st : Z * Z) : res (Z * Z + Z) :=
  let '(offset, depth) := st in
  if (0 <=? offset) && (0 <=? depth) then
    '(offset, depth') ← fdt_next_node m fdt offset (Some depth); Ok (inl (offset, default 0 depth'))
  else Ok (inr offset).

(** The loop of [fdt_node_end_offset_] gives [e] from a state, and from the middle of
    one of its steps. *)
Definition goes (st : Z * Z) (e : Z) : Prop := ∃ k, loop k end_round st = Ok e.
Definition scans (off d e : Z) : Prop := ∃ o d', nodes_from off (Some d) = Ok (o, Some d') ∧ goes (o, d') e.

Lemma goes_step off first d e :
  valid_offset off → tag_at m fdt off FDT_BEGIN_NODE first → 0 <= d → scans first d e → goes (off, d) e.
Proof using Type.
  intros (H0 & H4 & _) [Ht Hn] Hd (o & d' & He & k & Hk). exists (S k).
  assert (fdt_next_node m fdt off (Some d) = nodes_from first (Some d)) as Hnx.
  { unfold fdt_next_node, fdt_check_node_offset_, FDT_TAGSIZE.
    destruct (Z.leb_spec 0 off), (Z.ltb_spec off 0); try lia. rewrite H4. cbn [Z.eqb negb orb].
    rewrite Ht. cbn [mbind res_bind]. rewrite Z.eqb_refl. cbn [negb]. by destruct (Z.ltb_spec first 0); [lia|]. }
  assert (end_round (off, d) = Ok (inl (o, d'))) as Hr.
  { unfold end_round. destruct (Z.leb_spec 0 off), (Z.leb_spec 0 d); [|lia..]. cbn [andb]. by rewrite Hnx, He. }
  cbn [loop]. by rewrite Hr.
Qed.

(** From inside [d] more nodes. *)
Lemma subs_scans off ts after : subs_at m fdt off ts after → ∀ d e, valid_offset off → 0 <= d <= off →
  (if d =? 0 then e = after else scans after (d - 1) e) → scans off d e.
Proof using Hbl.
  induction 1 as [off after Ht|off next ts after Ht _ IH|off next ts after Ht _ _ IH|
    off next props ss mid ts after Ht _ Hss IH1 Hts IH2]; intros d e Hv Hd He;
    destruct (tag_at_valid m fdt Hbl _ _ _ Hv Ht) as [Hvn Hlt]; pose proof Hv as (? & ? & ?).
  - unfold scans. rewrite (nodes_from_end_node m fdt Hbl off after) by (done || unfold is_s32; lia).
    destruct (Z.ltb_spec (d - 1) 0), (Z.eqb_spec d 0) as [->|]; try lia; [|done].
    subst e. exists after, (0 - 1). split; [done|]. exists 1%nat. cbn. by destruct (0 <=? after).
  - unfold scans. rewrite (nodes_from_skip m fdt Hbl off FDT_NOP next) by auto. by apply IH; [|lia|].
  - unfold scans. rewrite (nodes_from_skip m fdt Hbl off FDT_PROP next) by auto. by apply IH; [|lia|].
  - exists off, (d + 1). rewrite (nodes_from_begin m fdt Hbl off next) by done.
    cbn [fmap option_fmap option_map]. rewrite s32_small by (destruct Hvn; unfold is_s32; lia). split; [done|].
    destruct (subs_bound m fdt Hbl _ _ _ Hss Hvn) as [Hvm ?].
    eapply goes_step; [done|exact Ht|lia|]. apply IH1; [done|lia|].
    destruct (Z.eqb_spec (d + 1) 0); [lia|]. replace (d + 1 - 1) with d by lia. apply IH2; [done|lia|done].
Qed.

(** The loop leaves within its fuel. *)
Lemma end_loop_total off : valid_offset off → ∃ e, fdt_node_end_offset_ fdt m off = Ok e.
Proof using Hbl.
  intros Hv. unfold fdt_node_end_offset_. rewrite tree_fuel_eq by done.
  match goal with |- ∃ e, ?l = Ok e => assert (yields l (λ _, True)) as Hy; [|destruct l; [by eexists|done..]] end.
  destruct (header_eq m fdt Hbl 4 ltac:(lia)) as [_ Ht]. unfold is_u32 in Ht.
  apply (loop_yields (λ '(o, d), 0 <= o → 0 <= d → valid_offset o)
    (λ '(o, d), if (0 <=? o) && (0 <=? d) then S (Z.to_nat (hdr m fdt 4 - o)) else 0%nat)); [|done|].
  - intros [o d] Hinv. destruct (Z.leb_spec 0 o), (Z.leb_spec 0 d); cbn [andb]; try done.
    destruct (Hinv ltac:(lia) ltac:(lia)) as (? & ? & ?).
    eapply yields_bind; [apply (next_node_ok m fdt Hbl o (Some d)); unfold is_s32; lia|].
    intros [o' d'] Hr. rewrite Z.max_l in Hr by lia. cbn [yields]. destruct Hr as [Hneg|(Hlt & Hv' & Htop & _)].
    + destruct (Z.leb_spec 0 o'); [lia|]. cbn [andb]. split; [intros; lia|lia].
    + split; [done|]. destruct (_ && _); lia.
  - destruct Hv as (? & ? & ?). destruct (_ && _); lia.
Qed.

Lemma node_end_ok off first ts after :
  valid_offset off → tag_at m fdt off FDT_BEGIN_NODE first → subs_at m fdt first ts after →
  fdt_node_end_offset_ fdt m off = Ok after.
Proof using Hbl.
  intros Hv Ht Hs. destruct (tag_at_valid m fdt Hbl _ _ _ Hv Ht) as [Hvf Hlt].
  destruct (goes_step off first 0 after Hv Ht) as [k Hk]; [done| |].
  { apply (subs_scans _ _ _ Hs); [done|destruct Hv; lia|done]. }
  destruct (end_loop_total off Hv) as [e He]. rewrite He. f_equal. exact (loop_det _ _ _ _ _ _ He Hk).
Qed.
End node_end.

(* ------------------------------------------------------------------ *)
(** * Writing the tags *)

(** [m'] has [n] FDT_NOP words at [p] and is [m] elsewhere. *)
Definition nops_written (m m' : mem) (p : Z) (n : nat) : Prop :=
  same_outside p (4 * Z.of_nat n) m m' ∧ same_cells m m' ∧ mem_bytes m' ∧
  ∀ i : nat, (i < n)%nat → bytes_at m' (p + 4 * Z.of_nat i) (be32 FDT_NOP).

Lemma nop_region_loop n fuel p stop m :
  (n < fuel)%nat → p mod 4 = 0 → 0 <= p → p + 4 * Z.of_nat n < 2 ^ 32 →
  p + 4 * Z.of_nat n - 4 < stop <= p + 4 * Z.of_nat n → mapped m p (4 * Z.of_nat n) → mem_bytes m →
  ∃ m', wloop fuel (λ p, if p <? stop then fdt32_put p FDT_NOP;; mret (inl (u32 (p + 4))) else mret (inr tt)) p m =
    Ok (tt, m') ∧ nops_written m m' p n.
Proof.
  revert fuel p m. induction n as [|n IH]; intros fuel p m Hf H4 Hp Ht Hs Hm Hb;
    (destruct fuel as [|fuel]; [lia|]); rewrite wloop_step.
  - destruct (Z.ltb_spec p stop); [lia|]. exists m. split; [done|]. split_and!; [done|done|done|lia].
  - destruct (Z.ltb_spec p stop); [|lia]. assert (mapped m p 4) as Hm4 by (intros x Hx; apply Hm; lia).
    rewrite (wbind_ok _ _ _ _ _ (fdt32_put_map m p FDT_NOP H4 Hm4)). cbn.
    rewrite u32_small by (unfold is_u32; lia).
    pose proof (map_bytes_cells p (be32 FDT_NOP) m Hm4) as Hc.
    destruct (IH fuel (p + 4) (map_bytes p (be32 FDT_NOP) m)) as (m' & He & Hs' & Hc' & Hb' & Hn); try lia.
    { Z.div_mod_to_equations; lia. }
    { intros x Hx. apply Hc, Hm. lia. }
    { apply map_bytes_bytes; [apply be32_u8|done]. }
    exists m'. split; [done|]. split_and!; [|by eapply same_cells_trans|done|].
    + intros x Hx. rewrite Hs' by lia. apply map_bytes_other. rewrite length_be32. lia.
    + intros [|i] Hi.
      * apply (bytes_at_outside _ _ _ _ _ _ Hs'); [|rewrite length_be32; lia].
        replace (p + 4 * Z.of_nat 0) with p by lia. apply map_bytes_at.
      * replace (p + 4 * Z.of_nat (S i)) with (p + 4 + 4 * Z.of_nat i) by lia. apply Hn. lia.
Qed.

Lemma nop_region_ok m start len n :
  start mod 4 = 0 → 0 <= start → start + 4 * Z.of_nat n < 2 ^ 32 → 4 * Z.of_nat n - 4 < len <= 4 * Z.of_nat n →
  mapped m start (4 * Z.of_nat n) → mem_bytes m →
  0 <= len → ∃ m', fdt_nop_region_ start len m = Ok (tt, m') ∧ nops_written m m' start n.
Proof.
  intros H4 Hp Ht Hl Hm Hb Hl0. unfold fdt_nop_region_. rewrite u32_small by (unfold is_u32; lia).
  apply nop_region_loop; done || lia.
Qed.

(** A part of the block between two tags, blanked. *)
Section write.
Context (m : mem) (fdt lo hi : Z).
Context (Hr : readable_tree m fdt) (Hval : valid_tree m fdt) (Hap : blocks_apart m fdt).
Context (Hlo : valid_offset lo) (Hhi : valid_offset hi) (Hlt : lo < hi) (t next : Z) (Htag : tag_at m fdt hi t next).

#[local] Abbreviation strct := (hdr m fdt 8).

Let Hbl := readable_blob m fdt Hr (proj1 Hval).

(** The tag behind the part lies in the block, so all of the part does. *)
Lemma part_inside : hi + 4 <= hdr m fdt 36 ∧ strct + hi + 4 <= hdr m fdt 4.
Proof using All.
  destruct Htag as [Ht Hn]. unfold fdt_next_tag, FDT_TAGSIZE in Ht. destruct Hhi as (? & ? & ?).
  rewrite (offset_ptr_eq m fdt Hbl) in Ht by (done || unfold is_s32, is_u32; lia). cbn [mbind res_bind] in Ht.
  pose proof (ap_version _ _ Hap). destruct (in_range m fdt hi 4) eqn:E.
  - unfold in_range in E. rewrite !andb_true_iff, orb_true_iff, !Z.leb_le, Z.ltb_lt in E. lia.
  - injection Ht as _ <-. unfold FDT_ERR_TRUNCATED in Hn. lia.
Qed.

Lemma part_written len : hi - lo - 4 < len <= hi - lo → 0 <= len →
  ∃ m', fdt_nop_region_ (fdt + strct + lo) len m = Ok (tt, m') ∧ part_changed m m' fdt lo hi ∧
    ∀ o, lo <= o < hi → o mod 4 = 0 → tag_at m' fdt o FDT_NOP (o + 4).
Proof using All.
  intros Hl Hl0. destruct part_inside as [Hz Ht]. pose proof Hr as (Hb & Hw & _ & _ & _ & _ & Htop & _).
  destruct (bl_struct _ _ Hbl) as [Hs4 _], (bl_addr _ _ Hbl) as [Hf Hf8], Hlo as (Hl1 & Hl4 & _), Hhi as (_ & Hh4 & _).
  destruct (bl_mapped _ _ Hbl) as [Hm _]. destruct (ap_struct _ _ Hap) as [Hs _].
  assert (Z.of_nat (Z.to_nat ((hi - lo) / 4)) = (hi - lo) / 4 ∧ 4 * ((hi - lo) / 4) = hi - lo) as [En En4].
  { rewrite Z2Nat.id by (Z.div_mod_to_equations; lia). split; [done|]. Z.div_mod_to_equations; lia. }
  destruct (nop_region_ok m (fdt + strct + lo) len (Z.to_nat ((hi - lo) / 4))) as (m' & He & Hsame & Hc & Hb' & Hn);
    rewrite ?En, ?En4; try lia; try done.
  { Z.div_mod_to_equations; lia. }
  { intros x Hx. apply Hm. lia. }
  rewrite En, En4 in Hsame. assert (part_changed m m' fdt lo hi) as Hpc.
  { constructor; try done; [apply Hval|lia]. }
  exists m'. split; [done|]. split; [done|]. intros o Ho Ho4. split; [|lia].
  apply next_tag_word; [by eapply blob_kept|by right| |]; rewrite ?(hdr_kept m m' fdt lo hi Hpc) by lia.
  - unfold inside. rewrite !(hdr_kept m m' fdt lo hi Hpc) by lia. pose proof (ap_version _ _ Hap). lia.
  - replace (fdt + strct + o) with (fdt + strct + lo + 4 * Z.of_nat (Z.to_nat ((o - lo) / 4))).
    { apply Hn. apply Z2Nat.inj_lt; Z.div_mod_to_equations; lia. }
    rewrite Z2Nat.id by (Z.div_mod_to_equations; lia). Z.div_mod_to_equations; lia.
Qed.
End write.

(* ------------------------------------------------------------------ *)
(** * What the functions do *)

Section nop.
Context (m : mem) (fdt : Z) (root : dnode).
Context (Hr : readable_tree m fdt) (Hval : valid_tree m fdt) (Hap : blocks_apart m fdt).
Context (Hb : block_at m fdt 0 (Some root)).

#[local] Abbreviation strct := (hdr m fdt 8).

(** A tree that still reads after a part of its block has been blanked. *)
Lemma blanked_valid m' lo hi o :
  part_changed m m' fdt lo hi → block_at m' fdt 0 o → readable_tree m' fdt ∧ valid_tree m' fdt.
Proof using Hr Hval.
  intros Hpc Hb'. split; [by apply (readable_kept m m' fdt lo hi)|]. destruct Hval as (_ & (n & Hn & Hn0) & _).
  split; [by apply (header_ok_kept m m' fdt lo hi)|]. split; [|apply well_nested_block; by exists o].
  exists n. split; [|done]. by apply (num_mem_rsv_kept m m' fdt lo hi).
Qed.

Lemma offset_pointer off n : 0 <= off → 0 <= n → strct + off + n <= hdr m fdt 4 → off + n <= hdr m fdt 36 →
  fdt_offset_ptr m fdt off n = Ok (fdt + strct + off).
Proof using Hr Hval Hap.
  intros Ho Hn Ht Hz. pose proof (readable_blob m fdt Hr (proj1 Hval)) as Hbl. pose proof (bl_size _ _ Hbl).
  destruct (bl_addr _ _ Hbl), (bl_mapped _ _ Hbl), (header_eq m fdt Hbl 8 ltac:(lia)) as [_ Hs]. unfold INT_MAX, is_u32 in *.
  rewrite (offset_ptr_eq m fdt Hbl) by (unfold is_s32, is_u32; lia).
  assert (in_range m fdt off n = true) as ->.
  { unfold in_range. rewrite !andb_true_iff, orb_true_iff, !Z.leb_le. lia. }
  by rewrite u32_small by (unfold is_u32; lia).
Qed.

(** A property takes its length and its header, rounded up to words. *)
Lemma prop_extent p next : valid_offset p → tag_at m fdt p FDT_PROP next →
  next = p + align4 (12 + prop_len m fdt p) ∧ p + 12 + prop_len m fdt p <= next < p + 16 + prop_len m fdt p.
Proof using Hr Hval.
  intros Hv [Ht Hn]. pose proof (readable_blob m fdt Hr (proj1 Hval)) as Hbl. pose proof Hr as (_ & _ & _ & _ & _ & _ & _ & Hver).
  pose proof (next_tag_valid m fdt Hbl p Hv) as Hy. rewrite Ht in Hy.
  destruct Hy as [(? & _)|(_ & _ & H4 & Htop & _ & _ & _ & Hp)]; [lia|].
  destruct (Hp eq_refl) as (len & Hld & Hl0 & Hle & Hge & Hlt). specialize (Hlt Hver).
  destruct Hv as (Hv0 & Hv4 & _), (bl_addr _ _ Hbl), (bl_mapped _ _ Hbl), (header_eq m fdt Hbl 8 ltac:(lia)) as [_ Hs].
  unfold is_u32 in Hs. assert (prop_len m fdt p = len) as ->.
  { unfold prop_len. by rewrite Hld. }
  split; [|lia]. unfold align4. Z.div_mod_to_equations; lia.
Qed.

(** A node of the tree, where it ends, and a tag behind it. *)
Lemma node_extent t d : (t, d) ∈ tree_nodes 0 root →
  ∃ first stop tag next, valid_offset (node_off t) ∧ reach m fdt 0 (node_off t) ∧
    tag_at m fdt (node_off t) FDT_BEGIN_NODE first ∧ subs_at m fdt first (node_subs t) stop ∧
    valid_offset stop ∧ tag_at m fdt stop tag next ∧
    (node_off root ≠ node_off t → ∃ props, props_at m fdt stop props).
Proof using Hr Hval Hb.
  intros Hin. pose proof (readable_blob m fdt Hr (proj1 Hval)) as Hbl.
  destruct (block_reach m fdt 0 root Hb t d Hin) as [Hre _].
  destruct (at_tree_node m fdt root t d Hbl Hb Hin) as [l (first & pending & Hv & Ht & _ & Hrest & Hd & _)].
  inversion Hrest as [|? ? stop ? Hs Hrest']; subst. destruct (tag_at_valid m fdt Hbl _ _ _ Hv Ht) as [Hvf _].
  destruct (subs_bound m fdt Hbl _ _ _ Hs Hvf) as [Hvs _].
  destruct Hrest' as [stop Hc|stop ts after pending Hts _].
  - exists first, stop. assert (∃ tag next, tag_at m fdt stop tag next) as (tg & nx & Htg) by (destruct Hc; eauto).
    exists tg, nx. split_and!; try done. intros Hne. exfalso. apply Hne. destruct root as [o ps ss].
    cbn [tree_nodes] in Hin. apply elem_of_cons in Hin as [[= ->]|Hin]; [done|].
    pose proof (preorders_depth ss (0 + 1)) as Hall. rewrite Forall_forall in Hall. specialize (Hall _ Hin). cbn in Hall. lia.
  - exists first, stop. assert (∃ tag next, tag_at m fdt stop tag next) as (tg & nx & Htg) by (destruct Hts; eauto).
    exists tg, nx. split_and!; try done. intros _. by apply (props_exist m fdt _ _ _ Hts).
Qed.

Lemma nop_node_ok t d : (t, d) ∈ tree_nodes 0 root →
  ∃ stop m', fdt_node_end_offset_ fdt m (node_off t) = Ok stop ∧
    fdt_nop_node fdt (node_off t) m = Ok (0, m') ∧
    same_outside (fdt + strct + node_off t) (stop - node_off t) m m' ∧
    ((∀ props, props_at m fdt stop props → props = []) →
     readable_tree m' fdt ∧ valid_tree m' fdt ∧
     block_at m' fdt 0 (if node_off root =? node_off t then None else Some (prune (node_off t) root))).
Proof using All.
  intros Hin. pose proof (readable_blob m fdt Hr (proj1 Hval)) as Hbl.
  destruct (node_extent t d Hin) as (first & stop & tag & next & Hv & Hre & Ht & Hs & Hvs & Htag & Hps).
  destruct (tag_at_valid m fdt Hbl _ _ _ Hv Ht) as [Hvf Hlt]. destruct (subs_bound m fdt Hbl _ _ _ Hs Hvf) as [_ Hlt'].
  destruct (part_inside m fdt (node_off t) stop Hr Hval Hap Hv Hvs ltac:(lia) tag next Htag) as [Hz Hst].
  destruct (part_written m fdt (node_off t) stop Hr Hval Hap Hv Hvs ltac:(lia) tag next Htag
    (stop - node_off t)) as (m' & Hnop & Hpc & Hn); [lia|lia|].
  pose proof (node_end_ok m fdt Hbl _ _ _ _ Hv Ht Hs) as He. exists stop, m'. pose proof Hv as (Hv0 & _ & _).
  split; [done|]. split; [|split; [apply (pc_same _ _ _ _ _ Hpc)|]].
  - unfold fdt_nop_node. rewrite (wbind_rd _ _ _ _ He). destruct (Z.ltb_spec stop 0); [lia|].
    rewrite (wbind_rd _ _ _ _ (offset_pointer (node_off t) 0 ltac:(lia) ltac:(lia) ltac:(lia) ltac:(lia))).
    destruct Hvs as (_ & _ & ?). rewrite s32_small by (unfold is_s32; lia). by rewrite (wbind_ok _ _ _ _ _ Hnop).
  - intros Hnone. assert (block_at m' fdt 0 (if node_off root =? node_off t then None else Some (prune (node_off t) root))) as Hb'.
    { apply (block_blank m m' fdt (node_off t) stop Hpc Hv Hvs Hn first (node_subs t) Ht Hs 0 root Hb); [done|done|].
      intros Hne. destruct (Hps Hne) as [props Hp]. by rewrite (Hnone _ Hp) in Hp. }
    destruct (blanked_valid _ _ _ _ Hpc Hb'). done.
Qed.

Lemma nop_property_ok t d s name : (t, d) ∈ tree_nodes 0 root → c_name m s name →
  match find_prop m fdt (node_props t) name with
  | None => fdt_nop_property fdt (node_off t) s m = Ok (- FDT_ERR_NOTFOUND, m)
  | Some p => ∃ m', fdt_nop_property fdt (node_off t) s m = Ok (0, m') ∧
      same_outside (fdt + strct + p) (align4 (12 + prop_len m fdt p)) m m' ∧
      readable_tree m' fdt ∧ valid_tree m' fdt ∧ block_at m' fdt 0 (Some (drop_prop p root))
  end.
Proof using All.
  intros Hin Hs. pose proof (readable_blob m fdt Hr (proj1 Hval)) as Hbl. pose proof Hr as (_ & Hw & _ & _ & _ & _ & Htt & Hver).
  destruct (at_tree_node m fdt root t d Hbl Hb Hin) as [l Hat].
  pose proof (get_property_ok m fdt Hbl Hver Hw Htt t d l s name Hat Hs) as Hg. unfold fdt_nop_property.
  destruct (find_prop m fdt (node_props t) name) as [p|] eqn:Ef; rewrite (wbind_rd _ _ _ _ Hg); [|done].
  destruct (find_prop_found m fdt Hbl t d l name p Hat Ef) as (Hpin & rest & Hp).
  destruct (prop_found m fdt Hbl Htt p rest Hp) as (_ & Hl0 & Hst0 & Hle & Hnz).
  destruct (Z.eqb_spec (fdt + strct + p) 0); [done|]. destruct Hp as (Hvp & Hgood & hi & Ht & Hrest).
  destruct (prop_extent p hi Hvp Ht) as [Hhi Hlt]. destruct (tag_at_valid m fdt Hbl _ _ _ Hvp Ht) as [Hvhi _].
  assert (∃ tag next, tag_at m fdt hi tag next) as (tag & next & Htag) by (destruct Hrest; eauto).
  destruct (part_written m fdt p hi Hr Hval Hap Hvp Hvhi ltac:(lia) tag next Htag (prop_len m fdt p + 12))
    as (m' & Hnop & Hpc & Hn); [lia|lia|].
  exists m'. pose proof Hvhi as (_ & _ & ?). pose proof Hvp as (? & _ & _). rewrite s32_small by (unfold is_s32; lia).
  split; [by rewrite (wbind_ok _ _ _ _ _ Hnop)|]. rewrite Hhi in Hpc.
  split; [pose proof (pc_same _ _ _ _ _ Hpc) as Hsm; by rewrite Z.add_simpl_l in Hsm|]. rewrite <- Hhi in Hpc.
  assert (block_at m' fdt 0 (Some (drop_prop p root))) as Hb'.
  { apply (block_dropped m m' fdt p hi Hpc Hvp Hvhi Hn Ht 0 (Some root) Hb); [done|]. right.
    destruct (block_reach m fdt 0 root Hb t d Hin) as [Hre (first & after & Hbg & Hps & _)].
    eapply reach_trans; [exact Hre|]. eapply reach_step; [exact Hbg|done|]. by eapply props_reach. }
  destruct (blanked_valid _ _ _ _ Hpc Hb'). done.
Qed.

(** C26: [fdt_nop_node] takes any node out of a tree that [fdt_check_full] accepts, of version
    17 or later, in which the structure block overlaps neither the strings nor the reservation map
    nor the header, with all that is below the node, by writing FDT_NOP over its bytes and
    nothing else: the rest of the tree stays where it is, is still accepted, and is the tree
    without the node (none at all, when it was the root).  Only a property behind the node,
    which the check lets pass and no lookup finds, would change its meaning, so there must
    not be one. *)
Theorem fdt_nop_node_spec t d : (t, d) ∈ tree_nodes 0 root →
  ∃ stop m', fdt_node_end_offset_ fdt m (node_off t) = Ok stop ∧
    fdt_nop_node fdt (node_off t) m = Ok (0, m') ∧
    same_outside (fdt + strct + node_off t) (stop - node_off t) m m' ∧
    ((∀ props, props_at m fdt stop props → props = []) →
     readable_tree m' fdt ∧ valid_tree m' fdt ∧
     block_at m' fdt 0 (if node_off root =? node_off t then None else Some (prune (node_off t) root))).
Proof using All. apply nop_node_ok. Qed.

(** [fdt_nop_property] takes the first property of the name out of the node, by
    writing FDT_NOP over its header, its value and the padding behind it and nothing
    else; without one it gives [-FDT_ERR_NOTFOUND] and leaves memory alone. *)
Theorem fdt_nop_property_spec t d s name : (t, d) ∈ tree_nodes 0 root → c_name m s name →
  match find_prop m fdt (node_props t) name with
  | None => fdt_nop_property fdt (node_off t) s m = Ok (- FDT_ERR_NOTFOUND, m)
  | Some p => ∃ m', fdt_nop_property fdt (node_off t) s m = Ok (0, m') ∧
      same_outside (fdt + strct + p) (align4 (12 + prop_len m fdt p)) m m' ∧
      readable_tree m' fdt ∧ valid_tree m' fdt ∧ block_at m' fdt 0 (Some (drop_prop p root))
  end.
Proof using All. apply nop_property_ok. Qed.
End nop.

(* ------------------------------------------------------------------ *)
(** * On the sample tree *)

Lemma sample_apart : blocks_apart sample_tree_mem tree_addr.
Proof.
  assert (fdt_num_mem_rsv sample_tree_mem tree_addr = Ok 0) as Hn by (vm_compute; reflexivity).
  constructor; [vm_compute; discriminate|split; vm_compute; discriminate|right; vm_compute; discriminate|].
  intros n Hn'. rewrite Hn in Hn'. injection Hn' as <-. left. vm_compute. discriminate.
Qed.

Lemma props_none m fdt off tag next props :
  tag_at m fdt off tag next → tag = FDT_BEGIN_NODE ∨ tag = FDT_END_NODE → props_at m fdt off props → props = [].
Proof.
  intros Ht Hor Hp. destruct Hp as [| off nx props Ht' _|off nx props Ht' _ _]; [done|..];
    destruct (tag_at_unique m fdt _ _ _ _ _ Ht Ht') as [-> _]; by destruct Hor.
Qed.

(** Without the CLINT; and without the compatible property of the UART. *)
Lemma fdt_nop_node_spec_witness :
  ∃ m', fdt_nop_node tree_addr 112 sample_tree_mem = Ok (0, m') ∧ valid_tree m' tree_addr ∧
    block_at m' tree_addr 0 (Some (Node 0 [8; 24] [sample_memory; sample_uart])).
Proof.
  destruct (fdt_nop_node_spec sample_tree_mem tree_addr sample_root sample_readable sample_valid sample_apart sample_block
    sample_clint 1) as (stop & m' & He & Hn & _ & Hv).
  { apply (list_elem_of_lookup_2 _ 2). reflexivity. }
  assert (fdt_node_end_offset_ tree_addr sample_tree_mem 112 = Ok 204) as E by (vm_compute; reflexivity).
  cbn [node_off sample_clint] in He. rewrite E in He. injection He as <-.
  exists m'. split; [exact Hn|]. apply Hv. intros props. apply (props_none _ _ _ FDT_BEGIN_NODE 224); [|by left].
  split; [vm_compute; reflexivity|discriminate].
Defined.

Lemma fdt_nop_property_spec_witness :
  ∃ m', fdt_nop_property tree_addr 204 (@rodata qemu_literals "reg") sample_tree_mem = Ok (0, m') ∧
    block_at m' tree_addr 0 (Some (Node 0 [8; 24] [sample_memory; sample_clint; Node 204 [224] []])).
Proof.
  pose proof (fdt_nop_property_spec sample_tree_mem tree_addr sample_root sample_readable sample_valid sample_apart
    sample_block sample_uart 1 (@rodata qemu_literals "reg") ascii_reg) as Hp.
  assert (find_prop sample_tree_mem tree_addr (node_props sample_uart) ascii_reg = Some 248) as E by (vm_compute; reflexivity).
  rewrite E in Hp. destruct Hp as (m' & Hn & _ & _ & _ & Hb).
  - apply (list_elem_of_lookup_2 _ 3). reflexivity.
  - apply memory_string; vm_compute; reflexivity.
  - exists m'. by split.
Defined.
