(* ===== verification/FdtOverlay.v ===== *)
(** src/libfdt/fdt_overlay.c: merging an overlay into a device tree.  Both trees lie in
    the same memory.  [tmp] is the stack slot of the variables whose address the code
    takes; a recursion over nodes gets the fuel of its tree, since every level is a tag
    further in. *)
From S2P Require Import Prelude Machine Crt0 SampleTree Fdt FdtRo FdtCheck FdtTree FdtLookup FdtWrite FdtSw FdtRw FdtImage FdtBuild FdtFinish FdtRead.
From stdpp Require Import base list gmap.
From Stdlib Require Import ZArith Lia.
From Stdlib Require String.
#[local] Open Scope Z_scope.

(* ------------------------------------------------------------------ *)
(** * The C library *)

(** The first [ch] of a string, its NUL included, or the null pointer. *)
Definition strchr (s ch : Z) (m : mem) : res Z :=
  loop (scan_fuel m)
    (fun p =>
       c ← load8 m p;
       Ok (if c =? ch then inr p else if c =? 0 then inr 0 else inl (u32 (p + 1))))
    s.

Definition is_space (c : Z) : bool := (c =? 32) || ((9 <=? c) && (c <=? 13)).

(** The address of the first byte from [p] on that is not white space. *)
Definition skip_spaces (p : Z) (m : mem) : res Z :=
  loop (scan_fuel m) (fun p => c ← load8 m p; Ok (if is_space c then inl (u32 (p + 1)) else inr p)) p.

(** The value of the digits from [p] on, and where they end. *)
Definition read_digits (p : Z) (m : mem) : res (Z * Z) :=
  loop (scan_fuel m)
    (fun '(p, n) =>
       c ← load8 m p;
       Ok (if (48 <=? c) && (c <=? 57) then inl (u32 (p + 1), 10 * n + (c - 48)) else inr (n, p)))
    (p, 0).

(** [strtoul(s, &endptr, 10)]: the number, capped at [ULONG_MAX], and [endptr]. *)
Definition strtoul (s : Z) (m : mem) : res (Z * Z) :=
  p ← skip_spaces s m;
  c ← load8 m p;
  let digits := if (c =? 43) || (c =? 45) then u32 (p + 1) else p in
  '(n, stop) ← read_digits digits m;
  Ok (if stop =? digits then (0, s)
      else (if UINT_MAX <? n then UINT_MAX else if c =? 45 then u32 (- n) else n, stop)).

(* ------------------------------------------------------------------ *)
(** * The loops of libfdt.h *)

(** [for (x = first; x >= 0; x = next(x)) body]; [Some] is a return from the
    function. *)
Definition for_offsets (fuel : nat) (first : mem → res Z) (next : Z → mem → res Z)
    (body : Z → W (option Z)) : W (option Z) :=
  x ← rd first;
  wloop fuel
    (fun x =>
       if 0 <=? x then
         ret ← body x;
         match ret with
         | Some r => mret (inr (Some r))
         | None => x ← rd (next x); mret (inl x)
         end
       else mret (inr None))
    x.

Definition fdt_for_each_subnode (fdt parent : Z) (body : Z → W (option Z)) : W (option Z) := fun m0 =>
  for_offsets (tree_fuel m0 fdt) (fun m => fdt_first_subnode m fdt parent)
    (fun x m => fdt_next_subnode m fdt x) body m0.
Definition fdt_for_each_property_offset (fdt node : Z) (body : Z → W (option Z)) : W (option Z) := fun m0 =>
  for_offsets (tree_fuel m0 fdt) (fun m => fdt_first_property_offset m fdt node)
    (fun x m => fdt_next_property_offset m fdt x) body m0.

(** [if (ret) return ret;] *)
Definition return_if (ret : Z) : option Z := if ret =? 0 then None else Some ret.

(** A recursion over the nodes of a tree. *)
Definition with_fuel {A} (fdt : Z) (k : nat → W A) : W A := fun m => k (tree_fuel m fdt) m.

(** Run [k], and go on with [rest] unless it returned. *)
Definition or_return (k : W (option Z)) (rest : W Z) : W Z :=
  r ← k; match r with Some ret => mret ret | None => rest end.

Section overlay.
Context `{Platform} (tmp : Z).

Definition overlay_get_target_phandle (m : mem) (fdto fragment : Z) : res Z :=
  '(val, len) ← fdt_getprop m fdto fragment (rodata "target");
  if val =? 0 then Ok 0
  else if negb (len =? 4) then Ok UINT_MAX
  else
    v ← fdt32_ld_ m val;
    if v =? UINT_MAX then Ok UINT_MAX else fdt32_ld_ m val.

(** The result and the path, which the function stores unless it fails. *)
Definition fdt_overlay_target_offset (m : mem) (fdt fdto fragment_offset : Z) : res (Z * Z) :=
  phandle ← overlay_get_target_phandle m fdto fragment_offset;
  if phandle =? UINT_MAX then Ok (- FDT_ERR_BADPHANDLE, 0)
  else
    '(ret, path, path_len) ←
      (if phandle =? 0 then
         '(path, path_len) ← fdt_getprop m fdto fragment_offset (rodata "target-path");
         if negb (path =? 0) then ret ← fdt_path_offset m fdt path; Ok (ret, path, path_len)
         else Ok (path_len, path, path_len)
       else ret ← fdt_node_offset_by_phandle m fdt phandle; Ok (ret, 0, 0));
    let ret := if (ret <? 0) && (path_len =? - FDT_ERR_NOTFOUND) then - FDT_ERR_BADOVERLAY else ret in
    Ok (ret, path).

(* ------------------------------------------------------------------ *)
(** * Phandles of the overlay *)

Definition overlay_phandle_add_offset (fdt node name delta : Z) : W Z :=
  '(valp, len) ← rd (fun m => fdt_getprop m fdt node name);
  if valp =? 0 then mret len
  else if negb (len =? 4) then mret (- FDT_ERR_BADPHANDLE)
  else
    val ← rd (fun m => fdt32_ld m valp);
    if (u32 (val + delta) <? val) || (u32 (val + delta) =? UINT_MAX) then mret (- FDT_ERR_NOPHANDLES)
    else wr (fdt32_st valp (u32 (val + delta)));; mret 0.

Fixpoint overlay_adjust_node_phandles (fuel : nat) (fdto node delta : Z) : W Z :=
  match fuel with
  | O => fun _ => NoFuel
  | S fuel' =>
      ret ← overlay_phandle_add_offset fdto node (rodata "phandle") delta;
      if negb (ret =? 0) && negb (ret =? - FDT_ERR_NOTFOUND) then mret ret
      else
        ret ← overlay_phandle_add_offset fdto node (rodata "linux,phandle") delta;
        if negb (ret =? 0) && negb (ret =? - FDT_ERR_NOTFOUND) then mret ret
        else
          or_return
            (fdt_for_each_subnode fdto node (fun child =>
               ret ← overlay_adjust_node_phandles fuel' fdto child delta; mret (return_if ret)))
            (mret 0)
  end.

Definition overlay_adjust_local_phandles (fdto delta : Z) : W Z :=
  with_fuel fdto (fun fuel => overlay_adjust_node_phandles fuel fdto 0 delta).

(** The walk that [overlay_update_local_node_references] and
    [overlay_update_node_conflicting_references] write out twice: [fix_ref] is what they
    do to the reference at an address. *)
Definition fixup_refs (fix_ref : Z → W unit) (tree_val fixup_val fixup_len : Z) : W unit :=
  wloop (S (Z.to_nat fixup_len))
    (fun i =>
       if i <? fixup_len then
         off ← rd (fun m => fdt32_ld_ m (u32 (fixup_val + 4 * i)));
         fix_ref (u32 (tree_val + off));;
         mret (inl (i + 1))
       else mret (inr tt))
    0.

Definition fixup_property (fix_ref : Z → W unit) (fdto tree_node fixup_prop : Z) : W (option Z) :=
  '(fixup_val, fixup_len, name) ← rd (fun m => fdt_getprop_by_offset m fdto fixup_prop true);
  if fixup_val =? 0 then mret (Some fixup_len)
  else if negb (u32 fixup_len mod 4 =? 0) then mret (Some (- FDT_ERR_BADOVERLAY))
  else
    let fixup_len := s32 (u32 fixup_len / 4) in
    '(tree_val, tree_len) ← rd (fun m => fdt_getprop m fdto tree_node name);
    if tree_val =? 0 then
      mret (Some (if tree_len =? - FDT_ERR_NOTFOUND then - FDT_ERR_BADOVERLAY else tree_len))
    else fixup_refs fix_ref tree_val fixup_val fixup_len;; mret None.

Fixpoint fixup_node_refs (fix_ref : Z → W unit) (fuel : nat) (fdto tree_node fixup_node : Z) : W Z :=
  match fuel with
  | O => fun _ => NoFuel
  | S fuel' =>
      or_return
        (fdt_for_each_property_offset fdto fixup_node (fixup_property fix_ref fdto tree_node))
        (or_return
           (fdt_for_each_subnode fdto fixup_node (fun fixup_child =>
              '(fixup_child_name, _) ← rd (fun m => fdt_get_name m fdto fixup_child);
              tree_child ← rd (fun m => fdt_subnode_offset m fdto tree_node fixup_child_name);
              if tree_child =? - FDT_ERR_NOTFOUND then mret (Some (- FDT_ERR_BADOVERLAY))
              else if tree_child <? 0 then mret (Some tree_child)
              else ret ← fixup_node_refs fix_ref fuel' fdto tree_child fixup_child; mret (return_if ret)))
           (mret 0))
  end.

(** [fdt32_st(refp, fdt32_ld(refp) + delta)]. *)
Definition add_to_ref (delta refp : Z) : W unit :=
  v ← rd (fun m => fdt32_ld m refp); wr (fdt32_st refp (u32 (v + delta))).
(** [if (valp == fdto_phandle) fdt32_st(refp, fdt_phandle)]. *)
Definition replace_ref (fdt_phandle fdto_phandle refp : Z) : W unit :=
  valp ← rd (fun m => fdt32_ld m refp);
  if valp =? fdto_phandle then wr (fdt32_st refp fdt_phandle) else mret tt.

Definition overlay_update_local_node_references (fuel : nat) (fdto tree_node fixup_node delta : Z) : W Z :=
  fixup_node_refs (add_to_ref delta) fuel fdto tree_node fixup_node.

Definition overlay_update_local_references (fdto delta : Z) : W Z :=
  fixups ← rd (fun m => fdt_path_offset m fdto (rodata "/__local_fixups__"));
  if fixups <? 0 then mret (if fixups =? - FDT_ERR_NOTFOUND then 0 else fixups)
  else with_fuel fdto (fun fuel => overlay_update_local_node_references fuel fdto 0 fixups delta).

(* ------------------------------------------------------------------ *)
(** * References into the base tree *)

Definition overlay_fixup_one_phandle (fdto symbols_off path path_len name name_len poffset phandle : Z) : W Z :=
  if symbols_off <? 0 then mret symbols_off
  else
    fixup_off ← rd (fun m => fdt_path_offset_namelen m fdto 3 path (s32 path_len));
    if fixup_off =? - FDT_ERR_NOTFOUND then mret (- FDT_ERR_BADOVERLAY)
    else if fixup_off <? 0 then mret fixup_off
    else
      fdt32_put tmp phandle;;
      fdt_setprop_inplace_namelen_partial fdto fixup_off name (s32 name_len) (u32 poffset) tmp 4.

(** The fixup string at [value]: path, property, offset and what is left to read;
    [inr] is a return. *)
Record fixup := Fixup {
  fx_path : Z; fx_path_len : Z; fx_name : Z; fx_name_len : Z; fx_poffset : Z;
  fx_value : Z; fx_len : Z;
}.

Definition parse_fixup (value len : Z) (m : mem) : res (fixup + Z) :=
  let bad := Ok (inr (- FDT_ERR_BADOVERLAY)) in
  fixup_end ← memchr value 0 (u32 len) m;
  if fixup_end =? 0 then bad
  else
    let fixup_len := u32 (fixup_end - value) in
    let rest := s32 (len - (fixup_len + 1)) in
    let next := u32 (value + (fixup_len + 1)) in
    let path := value in
    sep ← memchr value 58 fixup_len m;
    colon ← (if sep =? 0 then Ok 0 else load8 m sep);
    if (sep =? 0) || negb (colon =? 58) then bad
    else
      let path_len := u32 (sep - path) in
      if path_len =? u32 (fixup_len - 1) then bad
      else
        let fixup_len := u32 (fixup_len - (path_len + 1)) in
        let name := u32 (sep + 1) in
        sep ← memchr name 58 fixup_len m;
        colon ← (if sep =? 0 then Ok 0 else load8 m sep);
        if (sep =? 0) || negb (colon =? 58) then bad
        else
          let name_len := u32 (sep - name) in
          if name_len =? 0 then bad
          else
            '(poffset, endptr) ← strtoul (u32 (sep + 1)) m;
            c ← load8 m endptr;
            if negb (c =? 0) || (endptr <=? u32 (sep + 1)) then bad
            else Ok (inl (Fixup path path_len name name_len (s32 poffset) next rest)).

Definition overlay_fixup_phandle (fdt fdto symbols_off property : Z) : W Z :=
  '(value, len, label) ← rd (fun m => fdt_getprop_by_offset m fdto property true);
  if value =? 0 then mret (if len =? - FDT_ERR_NOTFOUND then - FDT_ERR_INTERNAL else len)
  else
    '(symbol_path, prop_len) ← rd (fun m => fdt_getprop m fdt symbols_off label);
    if symbol_path =? 0 then mret prop_len
    else
      symbol_off ← rd (fun m => fdt_path_offset m fdt symbol_path);
      if symbol_off <? 0 then mret symbol_off
      else
        phandle ← rd (fun m => fdt_get_phandle m fdt symbol_off);
        if phandle =? 0 then mret (- FDT_ERR_NOTFOUND)
        else
          wloop (S (Z.to_nat len))
            (fun '(value, len) =>
               parts ← rd (parse_fixup value len);
               match parts with
               | inr err => mret (inr err)
               | inl fx =>
                   ret ← overlay_fixup_one_phandle fdto symbols_off (fx_path fx) (fx_path_len fx)
                           (fx_name fx) (fx_name_len fx) (fx_poffset fx) phandle;
                   mret (if negb (ret =? 0) then inr ret
                         else if 0 <? fx_len fx then inl (fx_value fx, fx_len fx)
                         else inr 0)
               end)
            (value, len).

Definition overlay_fixup_phandles (fdt fdto : Z) : W Z :=
  fixups_off ← rd (fun m => fdt_path_offset m fdto (rodata "/__fixups__"));
  if fixups_off =? - FDT_ERR_NOTFOUND then mret 0
  else if fixups_off <? 0 then mret fixups_off
  else
    symbols_off ← rd (fun m => fdt_path_offset m fdt (rodata "/__symbols__"));
    if (symbols_off <? 0) && negb (symbols_off =? - FDT_ERR_NOTFOUND) then mret symbols_off
    else
      or_return
        (fdt_for_each_property_offset fdto fixups_off (fun property =>
           ret ← overlay_fixup_phandle fdt fdto symbols_off property; mret (return_if ret)))
        (mret 0).

(* ------------------------------------------------------------------ *)
(** * Phandles that both trees define *)

(** [if (php && len == sizeof( *php)) ret = fdt_setprop_inplace_u32(...)]. *)
Definition overwrite_phandle (fdto node name fdt_phandle : Z) : W Z :=
  '(php, len) ← rd (fun m => fdt_getprop m fdto node name);
  if negb (php =? 0) && (len =? 4) then fdt_setprop_inplace_u32 fdto tmp node name fdt_phandle
  else mret 0.

Definition overlay_adjust_local_conflicting_phandle (fdto node fdt_phandle : Z) : W Z :=
  and_then (overwrite_phandle fdto node (rodata "phandle") fdt_phandle)
    (and_then (overwrite_phandle fdto node (rodata "linux,phandle") fdt_phandle) (mret 0)).

Definition overlay_update_node_conflicting_references (fuel : nat)
    (fdto tree_node fixup_node fdt_phandle fdto_phandle : Z) : W Z :=
  fixup_node_refs (replace_ref fdt_phandle fdto_phandle) fuel fdto tree_node fixup_node.

Definition overlay_update_local_conflicting_references (fdto fdt_phandle fdto_phandle : Z) : W Z :=
  fixups ← rd (fun m => fdt_path_offset m fdto (rodata "/__local_fixups__"));
  if fixups =? - FDT_ERR_NOTFOUND then mret 0
  else if fixups <? 0 then mret fixups
  else with_fuel fdto (fun fuel =>
         overlay_update_node_conflicting_references fuel fdto 0 fixups fdt_phandle fdto_phandle).

Fixpoint overlay_prevent_phandle_overwrite_node (fuel : nat) (fdt fdtnode fdto fdtonode : Z) : W Z :=
  match fuel with
  | O => fun _ => NoFuel
  | S fuel' =>
      fdt_phandle ← rd (fun m => fdt_get_phandle m fdt fdtnode);
      fdto_phandle ← rd (fun m => fdt_get_phandle m fdto fdtonode);
      and_then
        (if negb (fdt_phandle =? 0) && negb (fdto_phandle =? 0) then
           and_then (overlay_adjust_local_conflicting_phandle fdto fdtonode fdt_phandle)
             (overlay_update_local_conflicting_references fdto fdt_phandle fdto_phandle)
         else mret 0)
        (or_return
           (fdt_for_each_subnode fdto fdtonode (fun fdtochild =>
              '(name, _) ← rd (fun m => fdt_get_name m fdto fdtochild);
              fdtchild ← rd (fun m => fdt_subnode_offset m fdt fdtnode name);
              if fdtchild =? - FDT_ERR_NOTFOUND then mret None
              else
                ret ← overlay_prevent_phandle_overwrite_node fuel' fdt fdtchild fdto fdtochild;
                mret (return_if ret)))
           (mret 0))
  end.

(** What [overlay_prevent_phandle_overwrite] and [overlay_merge] do with every fragment
    that has an [__overlay__] node: [skip] says whether a missing target is passed
    over. *)
Definition for_each_fragment (skip : bool) (fdt fdto : Z) (apply : Z → Z → W Z) : W Z :=
  or_return
    (fdt_for_each_subnode fdto 0 (fun fragment =>
       overlay ← rd (fun m => fdt_subnode_offset m fdto fragment (rodata "__overlay__"));
       if overlay =? - FDT_ERR_NOTFOUND then mret None
       else if overlay <? 0 then mret (Some overlay)
       else
         '(target, _) ← rd (fun m => fdt_overlay_target_offset m fdt fdto fragment);
         if skip && (target =? - FDT_ERR_NOTFOUND) then mret None
         else if target <? 0 then mret (Some target)
         else ret ← apply target overlay; mret (return_if ret)))
    (mret 0).

Definition overlay_prevent_phandle_overwrite (fdt fdto : Z) : W Z :=
  for_each_fragment true fdt fdto (fun target overlay =>
    with_fuel fdto (fun fuel => overlay_prevent_phandle_overwrite_node fuel fdt target fdto overlay)).

(* ------------------------------------------------------------------ *)
(** * Merging *)

Fixpoint overlay_apply_node (fuel : nat) (fdt target fdto node : Z) : W Z :=
  match fuel with
  | O => fun _ => NoFuel
  | S fuel' =>
      or_return
        (fdt_for_each_property_offset fdto node (fun property =>
           '(prop, prop_len, name) ← rd (fun m => fdt_getprop_by_offset m fdto property true);
           if prop_len =? - FDT_ERR_NOTFOUND then mret (Some (- FDT_ERR_INTERNAL))
           else if prop_len <? 0 then mret (Some prop_len)
           else ret ← fdt_setprop fdt target name prop prop_len; mret (return_if ret)))
        (or_return
           (fdt_for_each_subnode fdto node (fun subnode =>
              '(name, _) ← rd (fun m => fdt_get_name m fdto subnode);
              nnode ← fdt_add_subnode fdt target name;
              nnode ← (if nnode =? - FDT_ERR_EXISTS then
                         nnode ← rd (fun m => fdt_subnode_offset m fdt target name);
                         mret (if nnode =? - FDT_ERR_NOTFOUND then - FDT_ERR_INTERNAL else nnode)
                       else mret nnode);
              if nnode <? 0 then mret (Some nnode)
              else ret ← overlay_apply_node fuel' fdt nnode fdto subnode; mret (return_if ret)))
           (mret 0))
  end.

Definition overlay_merge (fdt fdto : Z) : W Z :=
  for_each_fragment false fdt fdto (fun target overlay =>
    with_fuel fdto (fun fuel => overlay_apply_node fuel fdt target fdto overlay)).

(* ------------------------------------------------------------------ *)
(** * Symbols *)

(** Up to the root, which has no name. *)
Definition get_path_len (m : mem) (fdt nodeoffset : Z) : res Z :=
  FDT_RO_PROBE m fdt id
    (loop (tree_fuel m fdt)
       (fun '(nodeoffset, len) =>
          '(name, namelen) ← fdt_get_name m fdt nodeoffset;
          if name =? 0 then Ok (inr namelen)
          else if namelen =? 0 then Ok (inr (if len =? 0 then len + 1 else len))
          else
            nodeoffset ← fdt_parent_offset m fdt nodeoffset;
            if nodeoffset <? 0 then Ok (inr nodeoffset)
            else Ok (inl (nodeoffset, s32 (len + (namelen + 1)))))
       (nodeoffset, 0)).

(** Where a symbol's path leads: [inr] is an early end of the round, otherwise the
    name of the fragment and the path below its [__overlay__] node. *)
Definition split_symbol (path path_len : Z) (m : mem) : res ((Z * Z * Z * Z) + option Z) :=
  bad ← (if path_len <? 1 then Ok true
         else p ← memchr path 0 (u32 path_len) m; Ok (negb (p =? u32 (path + path_len - 1))));
  if bad : bool then Ok (inr (Some (- FDT_ERR_BADVALUE)))
  else
    let e := u32 (path + path_len) in
    c ← load8 m path;
    if negb (c =? 47) then Ok (inr (Some (- FDT_ERR_BADVALUE)))
    else
      s ← strchr (u32 (path + 1)) 47 m;
      if s =? 0 then Ok (inr None)
      else
        let frag_name := u32 (path + 1) in
        let frag_name_len := s32 (s - path - 1) in
        let len := 13 in
        below ← (if len <? e - s then c ← memcmp s (rodata "/__overlay__/") len m; Ok (c =? 0)
                 else Ok false);
        if below : bool then
          Ok (inl (frag_name, frag_name_len, u32 (s + len), s32 (e - u32 (s + len) - 1)))
        else
          at_node ← (if e - s =? len then c ← memcmp s (rodata "/__overlay__") (len - 1) m; Ok (c =? 0)
                     else Ok false);
          Ok (if at_node : bool then inl (frag_name, frag_name_len, rodata "", 0) else inr None).

(** The path of a symbol in the base tree, written behind the name of the target. *)
Definition write_symbol (fdt target target_path len rel_path rel_path_len buf : Z) : W (option Z) :=
  r ← (if 1 <? len then
         if target_path =? 0 then
           ret ← fdt_get_path fdt target buf (s32 (len + 1));
           mret (if ret <? 0 then inr ret else inl len)
         else memcpy buf target_path (u32 (len + 1));; mret (inl len)
       else mret (inl (s32 (len - 1))) : W (Z + Z));
  match r with
  | inr ret => mret (Some ret)
  | inl len =>
      wr (fun m => store8 m (u32 (buf + len)) 47);;
      memcpy (u32 (buf + len + 1)) rel_path (u32 rel_path_len);;
      wr (fun m => store8 m (u32 (buf + len + 1 + rel_path_len)) 0);;
      mret None
  end.

Definition update_symbol (fdt fdto root_sym prop : Z) : W (option Z) :=
  '(path, path_len, name) ← rd (fun m => fdt_getprop_by_offset m fdto prop true);
  if path =? 0 then mret (Some path_len)
  else
    parts ← rd (split_symbol path path_len);
    match parts with
    | inr ret => mret ret
    | inl (frag_name, frag_name_len, rel_path, rel_path_len) =>
        fragment ← rd (fun m => fdt_subnode_offset_namelen m fdto 0 frag_name frag_name_len);
        if fragment <? 0 then mret (Some (- FDT_ERR_BADOVERLAY))
        else
          ret ← rd (fun m => fdt_subnode_offset m fdto fragment (rodata "__overlay__"));
          if ret <? 0 then mret (Some (- FDT_ERR_BADOVERLAY))
          else
            '(target, target_path) ← rd (fun m => fdt_overlay_target_offset m fdt fdto fragment);
            if target <? 0 then mret (Some target)
            else
              len ← rd (fun m => if target_path =? 0 then get_path_len m fdt target
                                 else n ← strlen target_path m; Ok (s32 n));
              if (target_path =? 0) && (len <? 0) then mret (Some len)
              else
                '(ret, buf) ← fdt_setprop_placeholder fdt root_sym name
                                (s32 (len + (if 1 <? len then 1 else 0) + rel_path_len + 1));
                if ret <? 0 then mret (Some ret)
                else
                  '(target, target_path) ←
                    (if target_path =? 0 then rd (fun m => fdt_overlay_target_offset m fdt fdto fragment)
                     else mret (target, target_path));
                  if target <? 0 then mret (Some target)
                  else write_symbol fdt target target_path len rel_path rel_path_len buf
    end.

Definition overlay_symbol_update (fdt fdto : Z) : W Z :=
  ov_sym ← rd (fun m => fdt_subnode_offset m fdto 0 (rodata "__symbols__"));
  if ov_sym <? 0 then mret 0
  else
    root_sym ← rd (fun m => fdt_subnode_offset m fdt 0 (rodata "__symbols__"));
    root_sym ← (if root_sym =? - FDT_ERR_NOTFOUND then fdt_add_subnode fdt 0 (rodata "__symbols__")
                else mret root_sym);
    if root_sym <? 0 then mret root_sym
    else
      or_return (fdt_for_each_property_offset fdto ov_sym (update_symbol fdt fdto root_sym)) (mret 0).

(** The steps up to [err]. *)
Definition overlay_steps (fdt fdto : Z) : W Z :=
  '(ret, delta) ← rd (fun m => fdt_find_max_phandle m fdt);
  if negb (ret =? 0) then mret ret
  else
    and_then (overlay_adjust_local_phandles fdto delta)
      (and_then (overlay_update_local_references fdto delta)
        (and_then (overlay_fixup_phandles fdt fdto)
          (and_then (overlay_prevent_phandle_overwrite fdt fdto)
            (and_then (overlay_merge fdt fdto) (overlay_symbol_update fdt fdto))))).

Definition fdt_overlay_apply (fdt fdto : Z) : W Z :=
  probe ← rd (fun m => fdt_ro_probe_ m fdt);
  if probe <? 0 then mret probe
  else
    probe ← rd (fun m => fdt_ro_probe_ m fdto);
    if probe <? 0 then mret probe
    else
      ret ← overlay_steps fdt fdto;
      if ret =? 0 then fdt_set_magic fdto UINT_MAX;; mret 0
      else fdt_set_magic fdto UINT_MAX;; fdt_set_magic fdt UINT_MAX;; mret ret.
End overlay.

(* ------------------------------------------------------------------ *)
(** * The end of an application *)

Lemma store8_mapped m a v m' : store8 m a v = Ok m' → is_Some (m !! a) ∧ same_cells m m'.
Proof.
  unfold store8. destruct (m !! a) as [b|] eqn:E; [|done]. intros [= <-]. split; [by exists b|].
  intros x. destruct (decide (x = a)) as [-> |Hne]; [rewrite lookup_insert|by rewrite lookup_insert_ne].
  rewrite decide_True by done. split; intros _; [by rewrite E|done].
Qed.

Lemma fdt32_put_inv p v m m' :
  fdt32_put p v m = Ok (tt, m') → p mod 4 = 0 ∧ m' = map_bytes p (be32 v) m ∧ mapped m p 4.
Proof.
  intros He. assert (p mod 4 = 0 ∧ mapped m p 4) as [Ha Hm].
  - unfold fdt32_put, wr, store32 in He. destruct (Z.eqb_spec (p mod 4) 0); [|done]. split; [done|].
    destruct (store8 m p _) as [m1| |] eqn:E1; [|done..]. cbn [mbind res_bind] in He.
    destruct (store8 m1 (p + 1) _) as [m2| |] eqn:E2; [|done..]. cbn [mbind res_bind] in He.
    destruct (store8 m2 (p + 2) _) as [m3| |] eqn:E3; [|done..]. cbn [mbind res_bind] in He.
    destruct (store8 m3 (p + 3) _) as [m4| |] eqn:E4; [|done..].
    apply store8_mapped in E1 as [H1 C1], E2 as [H2 C2], E3 as [H3 C3], E4 as [H4 _].
    intros x Hx. assert (x = p ∨ x = p + 1 ∨ x = p + 2 ∨ x = p + 3) as [->|[->|[->| ->]]] by lia; [done|..].
    + by apply C1.
    + by apply C1, C2.
    + by apply C1, C2, C3.
  - rewrite fdt32_put_map in He by done. split_and!; [done|congruence|done].
Qed.

(** Setting the magic of one tree, and what that does to the magic of another. *)
Lemma set_magic_ok fdt m m' :
  fdt_set_magic fdt UINT_MAX m = Ok (tt, m') → is_u32 fdt →
  fdt mod 4 = 0 ∧ m' = map_bytes fdt (be32 UINT_MAX) m ∧
  (fdt + 4 <= 2 ^ 32 → fdt_magic m' fdt = Ok UINT_MAX).
Proof.
  unfold fdt_set_magic, fdt_set_header. rewrite Z.add_0_r. intros He Hu. rewrite u32_small in He by done.
  apply fdt32_put_inv in He as (Ha & -> & _). split_and!; [done|done|]. intros Ht.
  unfold fdt_magic, fdt_get_header. rewrite Z.add_0_r, u32_small by done.
  apply (fdt32_ld_bytes _ _ UINT_MAX); [apply map_bytes_at|done|unfold is_u32 in Hu; lia|lia].
Qed.

(** [fdt_overlay_apply] leaves no half-merged tree behind that could be taken for a
    good one: if both trees pass the probe, the magic of the overlay is overwritten in
    any case, and that of the base whenever the result is an error; if one does not,
    nothing is written. *)
Theorem fdt_overlay_apply_magic `{Platform} tmp m fdt fdto r m' p q :
  is_u32 fdt → is_u32 fdto → fdt + 4 <= 2 ^ 32 → fdto + 4 <= 2 ^ 32 →
  fdt_ro_probe_ m fdt = Ok p → fdt_ro_probe_ m fdto = Ok q →
  fdt_overlay_apply tmp fdt fdto m = Ok (r, m') →
  if (p <? 0) || (q <? 0) then m' = m ∧ r < 0
  else fdt_magic m' fdto = Ok UINT_MAX ∧ (r ≠ 0 → fdt_magic m' fdt = Ok UINT_MAX).
Proof.
  intros Hu Huo Ht Hto Hp Hq. unfold fdt_overlay_apply. rewrite (wbind_rd _ _ _ _ Hp).
  destruct (Z.ltb_spec p 0); cbn [orb]; [by intros [= <- <-]|].
  rewrite (wbind_rd _ _ _ _ Hq). destruct (Z.ltb_spec q 0); [by intros [= <- <-]|].
  unfold mbind at 1, W_bind. destruct (overlay_steps tmp fdt fdto m) as [[r1 m1]| |]; [|done..].
  destruct (Z.eqb_spec r1 0) as [->|Hne]; unfold mbind, W_bind;
    (destruct (fdt_set_magic fdto UINT_MAX m1) as [[[] m2]| |] eqn:E2; [|done..]);
    destruct (set_magic_ok _ _ _ E2 Huo) as (Hao & -> & Hmo).
  - intros [= <- <-]. split; [by apply Hmo|done].
  - destruct (fdt_set_magic fdt UINT_MAX _) as [[[] m3]| |] eqn:E3; [|done..].
    destruct (set_magic_ok _ _ _ E3 Hu) as (Ha & -> & Hm). intros [= <- <-]. split; [|by intros _; apply Hm].
    assert (bytes_at (map_bytes fdt (be32 UINT_MAX) (map_bytes fdto (be32 UINT_MAX) m1)) fdto (be32 UINT_MAX)) as Hb.
    { destruct (decide (fdt = fdto)) as [-> |Hd]; [apply map_bytes_at|].
      apply bytes_at_other; [apply map_bytes_at|]. rewrite !length_be32. Z.div_mod_to_equations; lia. }
    unfold fdt_magic, fdt_get_header. rewrite Z.add_0_r, u32_small by done.
    unfold is_u32 in Huo. by apply (fdt32_ld_bytes _ _ UINT_MAX Hb); [|lia|lia].
Qed.

(* ------------------------------------------------------------------ *)
(** * An overlay *)

#[local] Open Scope string_scope.

Definition overlay_literals : list String.string :=
  ["phandle"; "linux,phandle"; "target"; "target-path"; "/__local_fixups__"; "/__fixups__"; "/__symbols__";
   "__overlay__"; "__symbols__"; "/__overlay__/"; "/__overlay__"; "/aliases"; ""; "/soc/dev"; "dev"; "ref"; "reg"].

Definition overlay_platform : Platform := {|
  ndebug := false;
  kernel_physical_start := 0x80000000;
  kernel_physical_end := 0x80006000;
  m_mode_handle_addr := 0x80000400;
  s_mode_handle_addr := 0x80000500;
  test_addr := 0x80000600;
  hw_clint := 0x2000000;
  rodata := place_literal overlay_literals 0x1000
|}.

(** The strings blocks, and a tag stream over them. *)
Definition base_strings : list Z := cstr "phandle" ++ cstr "soc".
Definition base_struct : list Z :=
  node_begin "" ++
    node_begin "soc" ++ prop_tag 0 (be32 5) ++ node_end ++
    node_begin "__symbols__" ++ prop_tag 8 (cstr "/soc") ++ node_end ++
  node_end ++ be32 9.

(** [fragment@0] has the target [&soc], resolved through [__fixups__]; its node [dev]
    has phandle 1, and [ref] refers to it. *)
Definition overlay_strings : list Z :=
  cstr "phandle" ++ cstr "soc" ++ cstr "target" ++ cstr "ref" ++ cstr "dev".
Definition overlay_struct : list Z :=
  node_begin "" ++
    node_begin "fragment@0" ++ prop_tag 12 (be32 0xffffffff) ++
      node_begin "__overlay__" ++ prop_tag 19 (be32 1) ++
        node_begin "dev" ++ prop_tag 0 (be32 1) ++ node_end ++ node_end ++ node_end ++
    node_begin "__symbols__" ++ prop_tag 23 (cstr "/fragment@0/__overlay__/dev") ++ node_end ++
    node_begin "__fixups__" ++ prop_tag 8 (cstr "/fragment@0:target:0") ++ node_end ++
    node_begin "__local_fixups__" ++
      node_begin "fragment@0" ++ node_begin "__overlay__" ++ prop_tag 19 (be32 0) ++ node_end ++ node_end ++
    node_end ++
  node_end ++ be32 9.

#[local] Close Scope string_scope.

(** Literals at 0x1000, a stack slot at 0x3000, the base at 0x4000, the overlay at
    0x5000 and room for the result at 0x6000. *)
Definition overlay_memory : mem :=
  map_bytes 0x1000 (pad4 (concat (map cstr overlay_literals)))
    (map_zeros 0x3000 4
      (map_bytes 0x4000 (pad4 (tree_blob base_struct base_strings))
        (map_bytes 0x5000 (pad4 (tree_blob overlay_struct overlay_strings)) (map_zeros 0x6000 512 ∅)))).

Definition merge_sample : res (Z * mem) :=
  (and_then (fdt_open_into 0x4000 0x6000 512) (@fdt_overlay_apply overlay_platform 0x3000 0x6000 0x5000)) overlay_memory.

(** The merged tree, by the offsets of its nodes and properties. *)
Definition merged_nodes : dnode :=
  Node 0 [] [Node 8 [16; 32] [Node 48 [56] []]; Node 80 [96; 120] []].

#[local] Open Scope string_scope.

(** Applying an overlay, run on a sample: the node [dev] of the overlay appears under
    the node that its fixup names, with its phandle moved past those of the base and the
    reference [ref] to it following; its symbol is added to the base with its new path;
    the result passes [fdt_check_full], and the overlay is marked as used up. *)
Theorem fdt_overlay_apply_sample :
  match merge_sample with
  | Ok (r, m') =>
      r = 0 ∧ fdt_check_full m' 0x6000 512 = Ok 0 ∧
      read_tree m' 0x6000 merged_nodes =
        DTree [] []
          [DTree (chars "soc") [(chars "ref", be32 6); (chars "phandle", be32 5)]
             [DTree (chars "dev") [(chars "phandle", be32 6)] []];
           DTree (chars "__symbols__") [(chars "dev", cstr "/soc/dev"); (chars "soc", cstr "/soc")] []] ∧
      @fdt_path_offset overlay_platform m' 0x6000 (@rodata overlay_platform "/soc/dev") = Ok 48 ∧
      fdt_ro_probe_ m' 0x5000 = Ok (- FDT_ERR_BADMAGIC)
  | _ => False
  end.
Proof. vm_compute. repeat split. Qed.

(** In its own memory the base has no byte to spare, so the merge fails. *)
Lemma fdt_overlay_apply_magic_witness :
  ∃ m', @fdt_overlay_apply overlay_platform 0x3000 0x4000 0x5000 overlay_memory = Ok (- FDT_ERR_NOSPACE, m') ∧
    fdt_magic m' 0x5000 = Ok UINT_MAX ∧ fdt_magic m' 0x4000 = Ok UINT_MAX.
Proof.
  assert (match @fdt_overlay_apply overlay_platform 0x3000 0x4000 0x5000 overlay_memory with
          | Ok (r, _) => r = - FDT_ERR_NOSPACE | _ => False end) as Hr by (vm_compute; reflexivity).
  destruct (@fdt_overlay_apply overlay_platform 0x3000 0x4000 0x5000 overlay_memory) as [[r m']| |] eqn:E;
    [|destruct Hr|destruct Hr].
  subst r. exists m'. split; [reflexivity|].
  destruct (@fdt_overlay_apply_magic overlay_platform 0x3000 overlay_memory 0x4000 0x5000 (- FDT_ERR_NOSPACE) m' 152 399)
    as [H1 H2]; [unfold is_u32; lia|unfold is_u32; lia|lia|lia|vm_compute; reflexivity|vm_compute; reflexivity|exact E|].
  split; [exact H1|]. apply H2. discriminate.
Defined.
