(* ===== verification/FdtParse.v ===== *)
(** The strings below __fixups__, as src/libfdt/fdt_overlay.c reads them: the path of a
    node, the name of a property and an offset in it, separated by colons. *)
From S2P Require Import Prelude Machine Crt0 SampleTree Fdt FdtRo FdtCheck FdtTree FdtLookup FdtPath FdtWrite FdtSw FdtRw FdtImage FdtOverlay.
From stdpp Require Import base list gmap.
From Stdlib Require Import ZArith Lia.
From Stdlib Require String.
#[local] Open Scope Z_scope.

(* ------------------------------------------------------------------ *)
(** * The grammar *)

(** A decimal number as [strtoul] reads it, with nothing behind it. *)
Definition is_digit (c : Z) : bool := (48 <=? c) && (c <=? 57).
Definition digits_value (n : Z) (ds : list Z) : Z := foldl (λ n c, 10 * n + (c - 48)) n ds.
Definition clip (c n : Z) : Z := if UINT_MAX <? n then UINT_MAX else if c =? 45 then u32 (- n) else n.
Definition unsigned (o : list Z) : list Z := match o with c :: r => if (c =? 43) || (c =? 45) then r else o | [] => [] end.
Definition number_of (o : list Z) : option Z :=
  let o := (span is_space o).2 in
  match span is_digit (unsigned o) with
  | (c :: d, []) => Some (clip (default 0 (head o)) (digits_value 0 (c :: d)))
  | _ => None
  end.

(** One of the strings. *)
Definition parse_string (s : list Z) : option (list Z * list Z * Z) :=
  '(path, rest) ← split_at 58 s;
  '(name, o) ← (if bool_decide (rest = []) then None else split_at 58 rest);
  n ← (if bool_decide (name = []) then None else number_of o);
  Some (path, name, n).

(* ------------------------------------------------------------------ *)
(** * The scans *)

Section scans.
Context (m : mem).

Lemma byte_behind p o : bytes_at m p (o ++ [0]) → load8 m p = Ok (default 0 (head o)).
Proof using Type. intros Hb. destruct o as [|c o]; apply bytes_at_cons in Hb as [Hc _]; by rewrite (load8_ok _ _ _ Hc). Qed.

Lemma scan_enough p o : bytes_at m p (o ++ [0]) → (length o < scan_fuel m)%nat.
Proof using Type.
  intros Hb. assert (Z.of_nat (length (o ++ [0])) <= Z.of_nat (size m)) as Hs.
  { apply (mapped_size m p); [lia|]. by apply bytes_at_mapped. }
  rewrite length_app in Hs. cbn in Hs. unfold scan_fuel. lia.
Qed.

Lemma skip_spaces_ok p o :
  bytes_at m p (o ++ [0]) → 0 <= p → p + Z.of_nat (length o) + 1 < 2 ^ 32 →
  skip_spaces p m = Ok (p + Z.of_nat (length (span is_space o).1)).
Proof using Type.
  intros Hb. unfold skip_spaces. pose proof (scan_enough p o Hb) as Hf. revert p Hb Hf. generalize (scan_fuel m). intros fuel p.
  revert fuel p. induction o as [|c o IH]; intros [|fuel] p Hb Hf Hp Ht; cbn [length] in *; try lia; cbn [loop];
    rewrite (byte_behind _ _ Hb); cbn [mbind res_bind span].
  - cbn. by rewrite Z.add_0_r.
  - change (default 0 (head (c :: o))) with c. destruct (is_space c); [|cbn; by rewrite Z.add_0_r].
    rewrite u32_small by (unfold is_u32; lia). cbn [app] in Hb. apply bytes_at_cons in Hb as [_ Hb]. rewrite IH by (done || lia).
    destruct (span is_space o). cbn [fst length]. f_equal. lia.
Qed.

Lemma read_digits_ok p o :
  bytes_at m p (o ++ [0]) → 0 <= p → p + Z.of_nat (length o) + 1 < 2 ^ 32 →
  read_digits p m = Ok (digits_value 0 (span is_digit o).1, p + Z.of_nat (length (span is_digit o).1)).
Proof using Type.
  intros Hb. unfold read_digits. pose proof (scan_enough p o Hb) as Hf. revert p Hb Hf. generalize (scan_fuel m).
  assert (∀ fuel n p, bytes_at m p (o ++ [0]) → (length o < fuel)%nat → 0 <= p → p + Z.of_nat (length o) + 1 < 2 ^ 32 →
    loop fuel (λ '(p, n), c ← load8 m p;
      Ok (if (48 <=? c) && (c <=? 57) then inl (u32 (p + 1), 10 * n + (c - 48)) else inr (n, p))) (p, n)
    = Ok (digits_value n (span is_digit o).1, p + Z.of_nat (length (span is_digit o).1))) as Hgo; [|intros fuel p; apply Hgo].
  induction o as [|c o IH]; intros [|fuel] n p Hb Hf Hp Ht; cbn [length] in *; try lia; cbn [loop];
    rewrite (byte_behind _ _ Hb); cbn [mbind res_bind span].
  - cbn. by rewrite Z.add_0_r.
  - change (default 0 (head (c :: o))) with c. fold (is_digit c). destruct (is_digit c); [|cbn; by rewrite Z.add_0_r].
    rewrite u32_small by (unfold is_u32; lia). cbn [app] in Hb. apply bytes_at_cons in Hb as [_ Hb]. rewrite IH by (done || lia).
    destruct (span is_digit o) as [a b]. cbn [fst length]. do 2 f_equal. lia.
Qed.

(** [strtoul] finds the number, or does not come to the end. *)
Lemma strtoul_ok p o :
  bytes_at m p (o ++ [0]) → Forall (λ c, c ≠ 0) o → 0 <= p → p + Z.of_nat (length o) + 1 < 2 ^ 32 →
  ∃ n e c, strtoul p m = Ok (n, e) ∧ load8 m e = Ok c ∧
    match number_of o with
    | Some k => n = k ∧ c = 0 ∧ p < e
    | None => c ≠ 0 ∨ e <= p
    end.
Proof using Type.
  intros Hb Hnz Hp Ht. unfold strtoul, number_of. rewrite (skip_spaces_ok p o Hb Hp Ht). cbn [mbind res_bind].
  destruct (span_spec is_space o) as (Eo & _ & _). destruct (span is_space o) as [sp o1]. cbn [fst snd] in *. subst o.
  rewrite <- app_assoc in Hb. apply bytes_at_app in Hb as [Hsp Hb]. apply Forall_app in Hnz as [_ Hnz]. rewrite length_app in Ht.
  rewrite (byte_behind _ _ Hb). cbn [mbind res_bind]. set (c1 := default 0 (head o1)). set (q := p + Z.of_nat (length sp)) in *.
  set (o2 := unsigned o1).
  assert (∃ k, 0 <= k ∧ (if (c1 =? 43) || (c1 =? 45) then u32 (q + 1) else q) = q + k ∧ bytes_at m (q + k) (o2 ++ [0]) ∧
    k + Z.of_nat (length o2) = Z.of_nat (length o1) ∧ Forall (λ c, c ≠ 0) o2) as (k & Hk & -> & Hb2 & El & Hnz2).
  { unfold o2, unsigned, c1. destruct o1 as [|c o1]; [exists 0; rewrite Z.add_0_r; by split_and!|].
    change (default 0 (head (c :: o1))) with c. destruct (_ || _).
    - exists 1. apply bytes_at_cons in Hb as [_ Hb]. apply Forall_cons in Hnz as [_ Hnz]. cbn [length] in *.
      rewrite u32_small by (unfold is_u32, q; lia). split_and!; (done || lia).
    - exists 0. rewrite !Z.add_0_r. by split_and!. }
  rewrite (read_digits_ok (q + k) o2 Hb2) by (unfold q; lia). cbn [mbind res_bind].
  destruct (span_spec is_digit o2) as (E2 & _ & _). destruct (span is_digit o2) as [d r]. cbn [fst snd] in *.
  destruct d as [|x d].
  - cbn [length Z.of_nat]. rewrite Z.add_0_r, Z.eqb_refl.
    assert (∃ c, load8 m p = Ok c) as [c Hc].
    { destruct sp as [|y sp]; [|apply bytes_at_cons in Hsp as [Hy _]; exists y; by apply load8_ok].
      unfold q in Hb. cbn [length Z.of_nat] in Hb. rewrite Z.add_0_r in Hb. eexists. by apply byte_behind. }
    exists 0, p, c. split_and!; [done|done|]. right. lia.
  - destruct (Z.eqb_spec (q + k + Z.of_nat (length (x :: d))) (q + k)); [cbn [length] in *; lia|].
    rewrite E2, <- app_assoc in Hb2. apply bytes_at_app in Hb2 as [_ Hr]. do 3 eexists. split_and!; [done|by apply (byte_behind _ r)|].
    rewrite E2 in Hnz2. apply Forall_app in Hnz2 as [_ Hnzr]. destruct r as [|y r].
    + split_and!; [done|done|]. unfold q. cbn [length]. lia.
    + left. by apply Forall_cons in Hnzr as [? _].
Qed.

(* ------------------------------------------------------------------ *)
(** * One string *)

Lemma parse_fixup_ok value v :
  bytes_at m value v → 0 < value → value + Z.of_nat (length v) + 1 < 2 ^ 32 → Z.of_nat (length v) < 2 ^ 31 →
  parse_fixup value (Z.of_nat (length v)) m =
  Ok (match split_at 0 v with
      | None => inr (- FDT_ERR_BADOVERLAY)
      | Some (s, rest) =>
          match parse_string s with
          | None => inr (- FDT_ERR_BADOVERLAY)
          | Some (path, name, n) =>
              inl (Fixup value (Z.of_nat (length path)) (value + Z.of_nat (length path) + 1) (Z.of_nat (length name)) (s32 n)
                     (value + Z.of_nat (length s) + 1) (Z.of_nat (length rest)))
          end
      end).
Proof using Type.
  intros Hb Hv0 Hvt Hv31. unfold parse_fixup. rewrite u32_small by (unfold is_u32; lia).
  rewrite (memchr_split m value 0 v Hb) by lia. pose proof (split_at_spec 0 v) as Hs. destruct (split_at 0 v) as [[s rest]|]; [|done].
  destruct Hs as [-> Hnz]. cbn [mbind res_bind]. destruct (Z.eqb_spec (value + Z.of_nat (length s)) 0); [lia|].
  apply bytes_at_app in Hb as [Hb Hb0]. apply bytes_at_cons in Hb0 as [Hb0 _]. rewrite length_app in *. cbn [length] in *.
  replace (value + Z.of_nat (length s) - value) with (Z.of_nat (length s)) by lia.
  rewrite (u32_small (Z.of_nat (length s))), (u32_small (value + (Z.of_nat (length s) + 1))) by (unfold is_u32; lia).
  rewrite (s32_small (_ - (Z.of_nat (length s) + 1))) by (unfold is_s32; lia).
  rewrite (memchr_split m value 58 s Hb) by lia. unfold parse_string.
  pose proof (split_at_spec 58 s) as H1. destruct (split_at 58 s) as [[path r1]|]; [|done]. destruct H1 as [-> Hpath]. cbn [mbind res_bind option_bind].
  destruct (Z.eqb_spec (value + Z.of_nat (length path)) 0); [lia|]. apply bytes_at_app in Hb as [Hb1 Hb2]. apply bytes_at_cons in Hb2 as [Hc Hb2].
  rewrite (load8_ok _ _ _ Hc). cbn [mbind res_bind]. rewrite Z.eqb_refl. cbn [negb orb]. rewrite length_app in *. cbn [length] in *.
  replace (value + Z.of_nat (length path) - value) with (Z.of_nat (length path)) by lia.
  rewrite (u32_small (Z.of_nat (length path))), (u32_small (Z.of_nat _ - 1)), (u32_small (Z.of_nat _ - (_ + 1))), (u32_small (value + Z.of_nat (length path) + 1)) by (unfold is_u32; lia).
  destruct (Z.eqb_spec (Z.of_nat (length path)) (Z.of_nat (length path + S (length r1)) - 1)) as [E|Hne].
  { rewrite bool_decide_eq_true_2; [done|]. destruct r1; [done|cbn [length] in E; lia]. }
  rewrite bool_decide_eq_false_2 by (intros ->; cbn in Hne; lia).
  replace (Z.of_nat (length path + S (length r1)) - (Z.of_nat (length path) + 1)) with (Z.of_nat (length r1)) by lia.
  rewrite (memchr_split m _ 58 r1 Hb2) by lia.
  pose proof (split_at_spec 58 r1) as H2. destruct (split_at 58 r1) as [[name o]|]; [|done]. destruct H2 as [-> Hname]. cbn [mbind res_bind option_bind].
  set (q := value + Z.of_nat (length path) + 1) in *. rewrite length_app in *. cbn [length] in *.
  destruct (Z.eqb_spec (q + Z.of_nat (length name)) 0); [lia|]. apply bytes_at_app in Hb2 as [Hb2 Hb3]. apply bytes_at_cons in Hb3 as [Hc2 Hb3].
  rewrite (load8_ok _ _ _ Hc2). cbn [mbind res_bind]. rewrite Z.eqb_refl. cbn [negb orb].
  replace (q + Z.of_nat (length name) - q) with (Z.of_nat (length name)) by lia.
  rewrite (u32_small (Z.of_nat (length name))), (u32_small (q + Z.of_nat (length name) + 1)) by (unfold is_u32, q; lia).
  destruct (Z.eqb_spec (Z.of_nat (length name)) 0) as [E|Hne2].
  { rewrite bool_decide_eq_true_2; [done|]. by destruct name. }
  rewrite bool_decide_eq_false_2 by (by intros ->). rewrite !Forall_app, !Forall_cons, Forall_app, Forall_cons in Hnz.
  assert (bytes_at m (q + Z.of_nat (length name) + 1) (o ++ [0])) as Ho.
  { apply bytes_at_app. split; [done|]. apply bytes_at_cons. split; [|done]. rewrite <- Hb0. f_equal. unfold q. lia. }
  destruct (strtoul_ok _ o Ho ltac:(tauto) ltac:(unfold q; lia) ltac:(unfold q; lia)) as (k0 & e & c & -> & Hce & Hr). cbn [mbind res_bind].
  rewrite Hce. cbn [mbind res_bind]. destruct (number_of o) as [k|]; cbn [mbind option_bind].
  - destruct Hr as (-> & -> & Hlt). destruct (Z.leb_spec e (q + Z.of_nat (length name) + 1)); [lia|]. cbn [Z.eqb negb orb]. do 3 f_equal; unfold q; lia.
  - destruct (Z.eqb_spec c 0) as [-> |]; [|done]. destruct Hr as [Hr|Hr]; [done|]. by destruct (Z.leb_spec e (q + Z.of_nat (length name) + 1)); [|lia].
Qed.
End scans.

(* ------------------------------------------------------------------ *)
(** * Examples *)

#[local] Open Scope string_scope.
Example parse_sample : parse_string (chars "/fragment@0:target:12") = Some (chars "/fragment@0", chars "target", 12).
Proof. vm_compute. reflexivity. Qed.

(** [strtoul] takes a sign, and a number that is too large for the largest one; as an [int]
    this is -1. *)
Example parse_offsets :
  (λ p : list Z * list Z * Z, p.2) <$> parse_string (chars "/n:p:-4") = Some (2 ^ 32 - 4) ∧
  (λ p : list Z * list Z * Z, p.2) <$> parse_string (chars "/n:p:99999999999") = Some UINT_MAX ∧
  parse_string (chars "/n:p:") = None ∧ parse_string (chars "/n:p:4x") = None ∧ parse_string (chars "/n::4") = None.
Proof. vm_compute. by split_and!. Qed.
#[local] Close Scope string_scope.
