(* ===== verification/FdtMerge.v ===== *)
(** What applying an overlay means: [overlay_apply_node] of src/libfdt/fdt_overlay.c
    merges one tree into another. *)
From S2P Require Import Prelude Machine Crt0 SampleTree Fdt FdtRo FdtCheck FdtTree FdtLookup FdtWrite FdtSw FdtRw FdtImage FdtBuild FdtFinish FdtRead FdtEdit FdtNode FdtChildren FdtPack FdtTreeEdit FdtOverlay.
From stdpp Require Import base list gmap.
From Stdlib Require Import ZArith Lia.
#[local] Open Scope Z_scope.

(* ------------------------------------------------------------------ *)
(** * The merge of two trees *)

(** Change the first node that the name matches. *)
Fixpoint merge_into (f : dtree → dtree) (name : list Z) (subs : list dtree) : option (list dtree) :=
  match subs with
  | [] => None
  | s :: subs =>
      if name_matches name (root_name s) then Some (f s :: subs) else cons s <$> merge_into f name subs
  end.

Definition set_props (props uprops : list (list Z * list Z)) : list (list Z * list Z) :=
  foldl (λ ps p, set_prop ps p.1 p.2) props uprops.

(** The node [t] with the properties of [u] set and the subnodes of [u] merged into its
    own; those that it has not got become its first ones. *)
Fixpoint merge_node (u t : dtree) : dtree :=
  let 'DTree _ uprops usubs := u in
  let 'DTree nm props subs := t in
  DTree nm (set_props props uprops)
    (foldl (λ ss v, default (merge_node v (DTree (root_name v) [] []) :: ss) (merge_into (merge_node v) (root_name v) ss))
       subs usubs).
Definition merge_sub (ss : list dtree) (v : dtree) : list dtree :=
  default (merge_node v (DTree (root_name v) [] []) :: ss) (merge_into (merge_node v) (root_name v) ss).

(** The bytes that the merge of [u] may take. *)
Definition props_cost (uprops : list (list Z * list Z)) : Z :=
  foldr (λ p n, growth p.1 (Z.of_nat (length p.2)) + n) 0 uprops.
Fixpoint merge_cost (u : dtree) : Z :=
  let 'DTree _ uprops usubs := u in
  props_cost uprops + foldr (λ v n, 8 + align4 (Z.of_nat (length (root_name v)) + 1) + merge_cost v + n) 0 usubs.
Definition subs_cost (usubs : list dtree) : Z :=
  foldr (λ v n, 8 + align4 (Z.of_nat (length (root_name v)) + 1) + merge_cost v + n) 0 usubs.

Lemma merge_into_split f name subs :
  if existsb (λ t, name_matches name (root_name t)) subs then
    ∃ l s r, subs = l ++ s :: r ∧ existsb (λ t, name_matches name (root_name t)) l = false ∧
      name_matches name (root_name s) = true ∧ merge_into f name subs = Some (l ++ f s :: r)
  else merge_into f name subs = None.
Proof.
  induction subs as [|s subs IH]; [done|]. cbn [existsb merge_into]. destruct (name_matches name (root_name s)) eqn:E; cbn [orb].
  - exists [], s, subs. by split_and!.
  - destruct (existsb _ subs).
    + destruct IH as (l & s' & r & -> & Hl & Hs & ->). exists (s :: l), s', r. split_and!; [done| |done|done].
      cbn [existsb]. by rewrite E.
    + by rewrite IH.
Qed.

Lemma growth_nonneg name len : 0 <= len → 0 <= growth name len.
Proof. intros H. unfold growth. pose proof (align4_ge len). lia. Qed.

Lemma props_cost_nonneg uprops : 0 <= props_cost uprops.
Proof.
  induction uprops as [|p l IH]; [done|]. cbn [props_cost foldr]. fold (props_cost l).
  pose proof (growth_nonneg p.1 (Z.of_nat (length p.2))). lia.
Qed.

Lemma props_cost_app l1 l2 : props_cost (l1 ++ l2) = props_cost l1 + props_cost l2.
Proof. unfold props_cost. induction l1 as [|p l1 IH]; cbn [app foldr]; lia. Qed.

Lemma subs_cost_app l1 l2 : subs_cost (l1 ++ l2) = subs_cost l1 + subs_cost l2.
Proof. unfold subs_cost. induction l1 as [|v l1 IH]; cbn [app foldr]; lia. Qed.

Lemma merge_cost_nonneg u : 0 <= merge_cost u.
Proof.
  induction u as [nm uprops usubs IH] using dtree_ind'. cbn [merge_cost]. pose proof (props_cost_nonneg uprops).
  fold (subs_cost usubs). assert (0 <= subs_cost usubs); [|lia]. induction IH as [|v l Hv _ IH]; [done|].
  cbn [subs_cost foldr]. fold (subs_cost l). pose proof (align4_ge (Z.of_nat (length (root_name v)) + 1) ltac:(lia)). lia.
Qed.

(* ------------------------------------------------------------------ *)
(** * Loops over the children *)

(** A loop over offsets visits the elements of a list one by one, [at_ l] being where
    the list that is left starts. *)
Lemma for_offsets_ok {B} (at_ : list B → Z) (I : list B → mem → Prop) (Q : Z → mem → Prop) fuel first next body l m :
  (length l < fuel)%nat → first m = Ok (at_ l) → I l m → at_ [] < 0 →
  (∀ b l m, I (b :: l) m → 0 <= at_ (b :: l) ∧
     ∃ r m', body (at_ (b :: l)) m = Ok (r, m') ∧
       match r with Some r => Q r m' | None => I l m' ∧ next (at_ (b :: l)) m' = Ok (at_ l) end) →
  ∃ r m', for_offsets fuel first next body m = Ok (r, m') ∧ match r with Some r => Q r m' | None => I [] m' end.
Proof.
  intros Hf Hfirst HI Hend Hbody. unfold for_offsets. rewrite (wbind_rd _ _ _ _ Hfirst). clear Hfirst.
  revert l m Hf HI. induction fuel as [|fuel IH]; intros l m Hf HI; [lia|]. rewrite wloop_step.
  destruct l as [|b l].
  - destruct (Z.leb_spec 0 (at_ [])); [lia|]. by exists None, m.
  - destruct (Hbody b l m HI) as (H0 & r & m' & He & Hr). destruct (Z.leb_spec 0 (at_ (b :: l))); [|lia].
    rewrite (wbind_ok _ _ _ _ _ He). destruct r as [r|]; [by exists (Some r), m'|]. destruct Hr as [HI' Hn].
    rewrite (wbind_rd _ _ _ _ Hn). cbn [length] in Hf. apply (IH l m'); [lia|done].
Qed.

(** ** The children of a node *)

Lemma ops_size_props l : 12 * Z.of_nat (length l) <= ops_size (map (prop_op (λ _, 0)) l).
Proof.
  induction l as [|p l IH]; [done|]. cbn [map ops_size foldr length op_size prop_op].
  fold (ops_size (map (prop_op (λ _, 0)) l)). rewrite item_size_prop. pose proof (align4_ge (Z.of_nat (length p.2)) ltac:(lia)). lia.
Qed.

Lemma ops_size_node nm props subs :
  ops_size (ops (DTree nm props subs)) =
  item_size (IBegin nm) + ops_size (map (prop_op (λ _, 0)) props) + ops_size (flat_map ops subs) + 4.
Proof.
  rewrite ops_node, !ops_size_app. unfold node_ops. cbn [ops_size foldr op_size].
  change (item_size IEnd) with 4. fold (ops_size (map (prop_op (λ _, 0)) props)). lia.
Qed.

Lemma ops_size_subs l : 8 * Z.of_nat (length l) <= ops_size (flat_map ops l).
Proof.
  induction l as [|[nm props subs] l IH]; [done|]. cbn [flat_map length]. rewrite ops_size_app, ops_size_node.
  pose proof (ops_size_nonneg (map (prop_op (λ _, 0)) props)). pose proof (ops_size_nonneg (flat_map ops subs)).
  rewrite item_size_begin. pose proof (align4_ge (Z.of_nat (length nm) + 1) ltac:(lia)). lia.
Qed.

Section loops.
Context (fdt size total r0 cpuid : Z) (rsv : list (Z * Z)).
#[local] Abbreviation node_at := (node_at fdt size total r0 cpuid rsv).

Lemma tree_fuel_node m c t off used : node_at m c t off used → ∃ n, tree_fuel m fdt = S n ∧ total <= Z.of_nat n.
Proof using Type.
  intros (strings & xs & zs & ys & Him & _ & _ & _ & _ & _ & Hsz & _).
  rewrite (tree_fuel_eq m fdt (image_blob _ _ _ _ _ _ _ _ _ Him Hsz)).
  destruct (image_header _ _ _ _ _ _ _ _ _ Him Hsz) as (_ & -> & _). eexists. split; [done|lia].
Qed.

Lemma node_off_nonneg m c t off used : node_at m c t off used → 0 <= off.
Proof using Type. intros H. destruct t. rewrite (node_at_place _ _ _ _ _ _ _ _ _ _ _ _ _ H). apply ops_size_nonneg. Qed.

(** The node stays where it is, but what is around it may change. *)
Definition stays (t : dtree) (off used : Z) (m : mem) : Prop := ∃ c, node_at m c t off used.

(** A loop over the properties of such a node: [J l] holds when the properties [l] have
    been visited. *)
Lemma for_each_property_stays (J : list (list Z * list Z) → mem → Prop) (Q : Z → mem → Prop) body m nm props subs off used :
  stays (DTree nm props subs) off used m → J [] m →
  (∀ l n v r m, props = l ++ (n, v) :: r → stays (DTree nm props subs) off used m → J l m →
     ∃ ret m', body (off + prop_place nm l) m = Ok (ret, m') ∧
       match ret with Some rc => Q rc m' | None => stays (DTree nm props subs) off used m' ∧ J (l ++ [(n, v)]) m' end) →
  ∃ ret m', fdt_for_each_property_offset fdt off body m = Ok (ret, m') ∧
    match ret with Some rc => Q rc m' | None => J props m' end.
Proof using Type.
  intros [c Hat] HJ Hbody. unfold fdt_for_each_property_offset. destruct (tree_fuel_node _ _ _ _ _ Hat) as (fuel & -> & Hfuel).
  pose proof (node_at_total _ _ _ _ _ _ _ _ _ _ _ _ _ Hat) as Htot. rewrite ops_size_node in Htot.
  pose proof (ops_size_props props). pose proof (ops_size_nonneg (flat_map ops subs)). pose proof (item_size_pos (IBegin nm)).
  pose proof (node_off_nonneg _ _ _ _ _ Hat) as Hoff.
  pose (at_ := λ r, unless_done r (off + prop_place nm props - ops_size (map (prop_op (λ _, 0)) r))).
  assert (∀ l r, props = l ++ r → at_ r = unless_done r (off + prop_place nm l)) as Hat_.
  { intros l r ->. unfold at_. destruct r; [done|]. unfold unless_done, prop_place, node_ops. rewrite map_app.
    rewrite app_comm_cons, ops_size_app. lia. }
  destruct (for_offsets_ok at_ (λ r mi, stays (DTree nm props subs) off used mi ∧ ∃ l, props = l ++ r ∧ J l mi) Q
    (S fuel) (λ m, fdt_first_property_offset m fdt off) (λ x m, fdt_next_property_offset m fdt x) body props m)
    as (ret & m' & He & Hr).
  - lia.
  - rewrite (Hat_ [] props eq_refl). by apply (first_property _ _ _ _ _ _ _ _ _ _ _ _ _ Hat).
  - split; [by exists c|]. by exists [].
  - done.
  - intros [n v] r mi (Hi & l & El & HJi). rewrite (Hat_ _ _ El). cbn [unless_done].
    split; [pose proof (ops_size_nonneg (node_ops nm l)); unfold prop_place; lia|].
    destruct (Hbody l n v r mi El Hi HJi) as (ret & m' & He & Hr). exists ret, m'. split; [done|].
    destruct ret as [rc|]; [done|]. destruct Hr as [[c' Hat'] HJ']. split.
    + split; [by exists c'|]. exists (l ++ [(n, v)]). split; [by rewrite <- app_assoc|done].
    + rewrite (Hat_ (l ++ [(n, v)]) r) by (by rewrite <- app_assoc).
      by apply (next_property _ _ _ _ _ _ _ _ _ _ _ _ _ Hat').
  - exists ret, m'. split; [done|]. destruct ret as [rc|]; [done|]. destruct Hr as (_ & l & El & HJ').
    by rewrite El, app_nil_r.
Qed.

(** The same shape, as far as the loop over subnodes is concerned: the properties, and
    each of the subnodes, take as many bytes. *)
Definition props_size (props : list (list Z * list Z)) : Z := ops_size (map (prop_op (λ _, 0)) props).
Definition sub_sizes (subs : list dtree) : list Z := map (λ t, ops_size (ops t)) subs.
Definition sized (nm : list Z) (props : list (list Z * list Z)) (subs : list dtree) (off used : Z) (m : mem) : Prop :=
  ∃ c props' subs', node_at m c (DTree nm props' subs') off used ∧
    props_size props' = props_size props ∧ sub_sizes subs' = sub_sizes subs.

Lemma sub_sizes_place nm props props' subs subs' :
  props_size props' = props_size props → sub_sizes subs' = sub_sizes subs → sub_place nm props' subs' = sub_place nm props subs.
Proof using Type.
  unfold sub_place, prop_place, node_ops, props_size. cbn [ops_size foldr op_size].
  fold (ops_size (map (prop_op (λ _, 0)) props)) (ops_size (map (prop_op (λ _, 0)) props')). intros -> Hs. f_equal.
  revert subs' Hs. induction subs as [|t subs IH]; intros [|t' subs']; [done..|]. cbn [sub_sizes map flat_map].
  intros [= Ht Hs]. rewrite !ops_size_app, Ht. f_equal. by apply IH.
Qed.

(** A loop over the subnodes: [J l] holds when the subnodes [l] have been visited. *)
Lemma for_each_subnode_sized (J : list dtree → mem → Prop) (Q : Z → mem → Prop) body m nm props subs off used :
  (∀ l m, J l m → sized nm props subs off used m) → J [] m →
  (∀ l v r m, subs = l ++ v :: r → J l m →
     ∃ ret m', body (off + sub_place nm props l) m = Ok (ret, m') ∧
       match ret with Some rc => Q rc m' | None => J (l ++ [v]) m' end) →
  ∃ ret m', fdt_for_each_subnode fdt off body m = Ok (ret, m') ∧
    match ret with Some rc => Q rc m' | None => J subs m' end.
Proof using Type.
  intros HJs HJ Hbody. destruct (HJs _ _ HJ) as (c & props0 & subs0 & Hat & Hp0 & Hs0). unfold fdt_for_each_subnode.
  destruct (tree_fuel_node _ _ _ _ _ Hat) as (fuel & -> & Hfuel).
  pose proof (node_at_total _ _ _ _ _ _ _ _ _ _ _ _ _ Hat) as Htot. rewrite ops_size_node in Htot.
  pose proof (ops_size_nonneg (map (prop_op (λ _, 0)) props0)). pose proof (ops_size_subs subs0). pose proof (item_size_pos (IBegin nm)).
  pose proof (node_off_nonneg _ _ _ _ _ Hat) as Hoff.
  assert (length subs0 = length subs) as Hlen by (apply (f_equal length) in Hs0; unfold sub_sizes in Hs0; by rewrite !length_map in Hs0).
  pose (at_ := λ r, unless_done r (off + sub_place nm props subs - ops_size (flat_map ops r))).
  assert (∀ l r, subs = l ++ r → at_ r = unless_done r (off + sub_place nm props l)) as Hat_.
  { intros l r ->. unfold at_. destruct r; [done|]. unfold unless_done, sub_place. rewrite flat_map_app, ops_size_app. lia. }
  destruct (for_offsets_ok at_ (λ r mi, ∃ l, subs = l ++ r ∧ J l mi) Q
    (S fuel) (λ m, fdt_first_subnode m fdt off) (λ x m, fdt_next_subnode m fdt x) body subs m) as (ret & m' & He & Hr).
  - lia.
  - rewrite (Hat_ [] subs eq_refl), (first_subnode _ _ _ _ _ _ _ _ _ _ _ _ _ Hat).
    rewrite (sub_sizes_place nm props props0 [] [] Hp0 eq_refl). by destruct subs, subs0.
  - by exists [].
  - done.
  - intros v r mi (l & El & HJi). rewrite (Hat_ _ _ El). cbn [unless_done].
    split; [pose proof (ops_size_nonneg (node_ops nm props)); pose proof (ops_size_nonneg (flat_map ops l)); unfold sub_place, prop_place; lia|].
    destruct (Hbody l v r mi El HJi) as (ret & m' & He & Hr). exists ret, m'. split; [done|].
    destruct ret as [rc|]; [done|]. split; [exists (l ++ [v]); by rewrite <- app_assoc|].
    rewrite (Hat_ (l ++ [v]) r) by (by rewrite <- app_assoc).
    destruct (HJs _ _ Hr) as (c' & props' & subs' & Hat' & Hp' & Hs'). unfold sub_sizes in Hs'. rewrite El, map_app in Hs'.
    apply map_eq_app in Hs' as (l' & r1 & -> & Hl & Hr1). cbn [map] in Hr1. apply map_eq_cons in Hr1 as (v' & r' & -> & Hv & Hr').
    pose proof (next_subnode _ _ _ _ _ _ _ _ _ _ _ _ _ Hat' l' v' r' eq_refl) as Hn.
    rewrite (sub_sizes_place nm props props' l l' Hp' Hl), (sub_sizes_place nm props props' (l ++ [v]) (l' ++ [v']) Hp') in Hn
      by (unfold sub_sizes; rewrite !map_app; cbn [map]; by rewrite Hl, Hv).
    rewrite Hn. by destruct r, r'.
  - exists ret, m'. split; [done|]. destruct ret as [rc|]; [done|]. destruct Hr as (l & El & HJ').
    by rewrite El, app_nil_r.
Qed.

(** The same where the subnodes do not change. *)
Lemma for_each_subnode_stays (J : list dtree → mem → Prop) (Q : Z → mem → Prop) body m nm props subs off used :
  stays (DTree nm props subs) off used m → J [] m →
  (∀ l v r m, subs = l ++ v :: r → stays (DTree nm props subs) off used m → J l m →
     ∃ ret m', body (off + sub_place nm props l) m = Ok (ret, m') ∧
       match ret with Some rc => Q rc m' | None => stays (DTree nm props subs) off used m' ∧ J (l ++ [v]) m' end) →
  ∃ ret m', fdt_for_each_subnode fdt off body m = Ok (ret, m') ∧
    match ret with Some rc => Q rc m' | None => J subs m' end.
Proof using Type.
  intros Hst HJ Hbody.
  destruct (for_each_subnode_sized (λ l mi, stays (DTree nm props subs) off used mi ∧ J l mi) Q body m nm props subs off used)
    as (ret & m' & He & Hr); [by intros l mi [[c Hat] _]; exists c, props, subs|done| |].
  - intros l v r mi El [Hst' HJi]. by apply (Hbody l v r mi El Hst').
  - exists ret, m'. split; [done|]. destruct ret as [rc|]; [done|]. by destruct Hr.
Qed.

(** The same for a node in surroundings that do not change. *)
Lemma for_each_property_ok (J : list (list Z * list Z) → mem → Prop) (Q : Z → mem → Prop) body m c nm props subs off used :
  node_at m c (DTree nm props subs) off used → J [] m →
  (∀ l n v r m, props = l ++ (n, v) :: r → node_at m c (DTree nm props subs) off used → J l m →
     ∃ ret m', body (off + prop_place nm l) m = Ok (ret, m') ∧
       match ret with Some rc => Q rc m' | None => node_at m' c (DTree nm props subs) off used ∧ J (l ++ [(n, v)]) m' end) →
  ∃ ret m', fdt_for_each_property_offset fdt off body m = Ok (ret, m') ∧
    match ret with Some rc => Q rc m' | None => J props m' end.
Proof using Type.
  intros Hat HJ Hbody.
  destruct (for_each_property_stays (λ l mi, node_at mi c (DTree nm props subs) off used ∧ J l mi) Q body m nm props subs off used)
    as (ret & m' & He & Hr); [by exists c|done| |].
  - intros l n v r mi El _ [Hi HJi]. destruct (Hbody l n v r mi El Hi HJi) as (ret & m' & He & Hr).
    exists ret, m'. split; [done|]. destruct ret as [rc|]; [done|]. destruct Hr as [Hat' HJ']. split; [by exists c|done].
  - exists ret, m'. split; [done|]. destruct ret as [rc|]; [done|]. by destruct Hr.
Qed.

(** A loop over its subnodes that may change each of them where it lies: [J l l'] holds
    when the subnodes [l] have been visited and are now [l']. *)
Lemma for_each_subnode_edit (J : list dtree → list dtree → mem → Prop) (Q : Z → mem → Prop) body m c nm props subs off used :
  node_at m c (DTree nm props subs) off used → J [] [] m →
  (∀ l l' v r m, subs = l ++ v :: r → node_at m c (DTree nm props (l' ++ v :: r)) off used → J l l' m →
     sub_place nm props l' = sub_place nm props l →
     ∃ ret m', body (off + sub_place nm props l) m = Ok (ret, m') ∧
       match ret with
       | Some rc => Q rc m'
       | None => ∃ v', ops_size (ops v') = ops_size (ops v) ∧
           node_at m' c (DTree nm props (l' ++ v' :: r)) off used ∧ J (l ++ [v]) (l' ++ [v']) m'
       end) →
  ∃ ret m', fdt_for_each_subnode fdt off body m = Ok (ret, m') ∧
    match ret with
    | Some rc => Q rc m'
    | None => ∃ subs', node_at m' c (DTree nm props subs') off used ∧ J subs subs' m'
    end.
Proof using Type.
  intros Hat HJ Hbody.
  destruct (for_each_subnode_sized (λ l mi, ∃ l' r, subs = l ++ r ∧ sub_sizes l' = sub_sizes l ∧
      node_at mi c (DTree nm props (l' ++ r)) off used ∧ J l l' mi) Q body m nm props subs off used) as (ret & m' & He & Hr).
  - intros l mi (l' & r & -> & Hl & Hi & _). exists c, props, (l' ++ r). unfold sub_sizes in *. by rewrite !map_app, Hl.
  - by exists [], subs.
  - intros l v r mi El (l' & r1 & El' & Hl & Hi & HJi). rewrite El in El'. apply app_inv_head in El' as <-.
    destruct (Hbody l l' v r mi El Hi HJi (sub_sizes_place nm props props l l' eq_refl Hl)) as (ret & m' & He & Hr).
    exists ret, m'. split; [done|]. destruct ret as [rc|]; [done|]. destruct Hr as (v' & Ev & Hat' & HJ').
    exists (l' ++ [v']), r. rewrite <- !app_assoc. unfold sub_sizes in *. rewrite !map_app. cbn [map app]. by rewrite Hl, Ev.
  - exists ret, m'. split; [done|]. destruct ret as [rc|]; [done|]. destruct Hr as (subs' & r & Er & _ & Hat' & HJ').
    rewrite <- (app_nil_r subs) in Er at 1. apply app_inv_head in Er as <-. rewrite app_nil_r in Hat'. by exists subs'.
Qed.

(** A loop that leaves them as they are. *)
Lemma for_each_subnode_ok (J : list dtree → mem → Prop) (Q : Z → mem → Prop) body m c nm props subs off used :
  node_at m c (DTree nm props subs) off used → J [] m →
  (∀ l v r m, subs = l ++ v :: r → node_at m c (DTree nm props subs) off used → J l m →
     ∃ ret m', body (off + sub_place nm props l) m = Ok (ret, m') ∧
       match ret with Some rc => Q rc m' | None => node_at m' c (DTree nm props subs) off used ∧ J (l ++ [v]) m' end) →
  ∃ ret m', fdt_for_each_subnode fdt off body m = Ok (ret, m') ∧
    match ret with Some rc => Q rc m' | None => J subs m' end.
Proof using Type.
  intros Hat HJ Hbody.
  destruct (for_each_subnode_stays (λ l mi, node_at mi c (DTree nm props subs) off used ∧ J l mi) Q body m nm props subs off used)
    as (ret & m' & He & Hr); [by exists c|done| |].
  - intros l v r mi El _ [Hi HJi]. destruct (Hbody l v r mi El Hi HJi) as (ret & m' & He & Hr).
    exists ret, m'. split; [done|]. destruct ret as [rc|]; [done|]. destruct Hr as [Hat' HJ']. split; [by exists c|done].
  - exists ret, m'. split; [done|]. destruct ret as [rc|]; [done|]. by destruct Hr.
Qed.
End loops.

(* ------------------------------------------------------------------ *)
(** * Merging in memory *)

(** A tree is as it was after a change of another buffer. *)
Lemma node_at_beside fdt size total r0 cpuid rsv m m' c t off used buf bufsize :
  apart fdt size buf bufsize → buffer m' buf bufsize → same_outside buf bufsize m m' →
  node_at fdt size total r0 cpuid rsv m c t off used → node_at fdt size total r0 cpuid rsv m' c t off used.
Proof.
  intros Hap Hb Hs (strings & xs & zs & ys & Him & Hx & Hz & Hy & -> & -> & Hsz & Hr & Hrsv).
  exists strings, xs, zs, ys. split_and!; try done. pose proof (im_fits _ _ _ _ _ _ _ _ _ Him). pose proof (im_size _ _ _ _ _ _ _ _ _ Him).
  apply (image_move m _ _ _ _ _ _ _ _ Him Hsz); [|lia|].
  - eapply buffer_beside; [apply Him|apply Hb|done].
  - intros x Hr'. rewrite Z.sub_diag, Z.add_0_r. apply Hs. unfold apart in Hap. lia.
Qed.

Section merge.
(** The base, and an overlay in another buffer. *)
Context (fdt size total r0 cpuid : Z) (rsv : list (Z * Z)).
Context (fdto sizeo totalo r0o cpuido : Z) (rsvo : list (Z * Z)).
Context (Hap : apart fdto sizeo fdt size) (Hto : totalo <= fdt) (H30 : totalo <= 2 ^ 30).

#[local] Abbreviation base := (node_at fdt size total r0 cpuid rsv).
#[local] Abbreviation over := (node_at fdto sizeo totalo r0o cpuido rsvo).
#[local] Abbreviation same := (same_outside fdt size).

(** The overlay is as it was after a change of the base. *)
Lemma over_same m m' cu u offu usedu c t off used :
  base m' c t off used → same m m' → over m cu u offu usedu → over m' cu u offu usedu.
Proof using Hap. intros (? & ? & ? & ? & Hbase & _) Hs. by apply node_at_beside with fdt size; [|apply Hbase|]. Qed.

(** What the overlay holds can be put into the base. *)
Lemma over_bounds m cu u offu usedu : over m cu u offu usedu → totalo <= sizeo ∧ 0 < fdto ∧ fdto + sizeo + 4 < 2 ^ 32.
Proof using Type.
  intros (strings & xs & zs & ys & Him & _). destruct (im_fits _ _ _ _ _ _ _ _ _ Him) as [_ ?].
  destruct (im_buffer _ _ _ _ _ _ _ _ _ Him) as [_ _ [? _] ? _]. by split_and!.
Qed.

Lemma over_data m cu u offu usedu d v :
  over m cu u offu usedu → inside fdto totalo m d v → data_arg fdt size m d v.
Proof using Hap H30.
  intros Ho (Hb & H0 & H1). pose proof (over_bounds _ _ _ _ _ Ho). unfold data_arg, apart in *. split_and!; [done|lia..].
Qed.

Lemma over_name m cu u offu usedu s n :
  over m cu u offu usedu → inside fdto totalo m s (n ++ [0]) → Forall (λ b, b ≠ 0) n → name_arg fdt size m s n.
Proof using Hap Hto H30.
  intros Ho (Hb & H0 & H1) Hnz. pose proof (over_bounds _ _ _ _ _ Ho). rewrite length_app in H1. cbn [length] in H1.
  apply bytes_at_app in Hb as [Hb Hz]. apply bytes_at_cons in Hz as [Hz _]. unfold name_arg, c_name, cstr_at, apart in *.
  split_and!; (done || lia).
Qed.

(** ** Properties *)

(** What is left after an unsuccessful merge at [c]: no space, but still a tree. *)
Definition out_of_space (c : list frame) (off used cost : Z) (rc : Z) (m' : mem) : Prop :=
  rc = - FDT_ERR_NOSPACE ∧ total < used + cost ∧ ∃ t used', base m' c t off used'.

Lemma out_of_space_more c off used cost rc m' used2 cost2 :
  used + cost <= used2 + cost2 → out_of_space c off used cost rc m' → out_of_space c off used2 cost2 rc m'.
Proof using Type. intros Hle (-> & Hlt & Ht). split_and!; [done|lia|done]. Qed.

(** One property of the overlay. *)
Definition apply_property (target property : Z) : W (option Z) :=
  '(prop, prop_len, name) ← rd (fun m => fdt_getprop_by_offset m fdto property true);
  if prop_len =? - FDT_ERR_NOTFOUND then mret (Some (- FDT_ERR_INTERNAL))
  else if prop_len <? 0 then mret (Some prop_len)
  else ret ← fdt_setprop fdt target name prop prop_len; mret (return_if ret).

Lemma apply_property_ok m c nm props subs off used cu unm uprops usubs offu usedu l n v r :
  base m c (DTree nm props subs) off used → over m cu (DTree unm uprops usubs) offu usedu → uprops = l ++ (n, v) :: r →
  ∃ ret m', apply_property off (offu + prop_place unm l) m = Ok (ret, m') ∧ same m m' ∧
    let cost := growth n (Z.of_nat (length v)) in
    match ret with
    | None => ∃ used', used' <= used + cost ∧ base m' c (DTree nm (set_prop props n v) subs) off used'
    | Some rc => out_of_space c off used cost rc m'
    end.
Proof using Hap Hto H30.
  intros Hb Ho El. unfold apply_property.
  destruct (getprop_here _ _ _ _ _ _ _ _ _ _ _ _ _ Ho l n v r El) as (d & s & Hg & Hd & Hs & Hnz).
  rewrite (wbind_rd _ _ _ _ Hg). cbv iota beta.
  destruct (Z.eqb_spec (Z.of_nat (length v)) (- FDT_ERR_NOTFOUND)); [unfold FDT_ERR_NOTFOUND in *; lia|].
  destruct (Z.ltb_spec (Z.of_nat (length v)) 0); [lia|].
  destruct (setprop_ok _ _ _ _ _ _ m c nm props subs off used s n d v Hb (over_name _ _ _ _ _ _ _ Ho Hs Hnz) (over_data _ _ _ _ _ _ _ Ho Hd))
    as (rc & m' & He & Hs' & Hr).
  rewrite (wbind_ok _ _ _ _ _ He). unfold return_if. destruct (rc =? 0) eqn:Erc.
  - by exists None, m'.
  - destruct Hr as (-> & Hlt & Hb'). exists (Some (- FDT_ERR_NOSPACE)), m'. split_and!; [done|done|]. split_and!; [done|done|].
    by eexists _, _.
Qed.

(** All of them. *)
Lemma apply_properties_ok m c nm props subs off used cu unm uprops usubs offu usedu :
  base m c (DTree nm props subs) off used → over m cu (DTree unm uprops usubs) offu usedu →
  ∃ ret m', fdt_for_each_property_offset fdto offu (apply_property off) m = Ok (ret, m') ∧
    match ret with
    | None => same m m' ∧ ∃ used', used' <= used + props_cost uprops ∧ base m' c (DTree nm (set_props props uprops) subs) off used'
    | Some rc => same m m' ∧ out_of_space c off used (props_cost uprops) rc m'
    end.
Proof using Hap Hto H30.
  intros Hb Ho. apply (for_each_property_ok _ _ _ _ _ _
    (λ l mi, same m mi ∧ ∃ used', used' <= used + props_cost l ∧ base mi c (DTree nm (set_props props l) subs) off used')
    (λ rc m', same m m' ∧ out_of_space c off used (props_cost uprops) rc m') _ _ _ _ _ _ _ _ Ho).
  { split; [done|]. exists used. split; [cbn; lia|done]. }
  intros l n v r mi El Hoi (Hsi & ui & Hui & Hbi).
  assert (props_cost l + growth n (Z.of_nat (length v)) <= props_cost uprops) as Hcost.
  { rewrite El, props_cost_app. cbn [props_cost foldr fst snd]. fold (props_cost r). pose proof (props_cost_nonneg r). lia. }
  destruct (apply_property_ok _ _ _ _ _ _ _ _ _ _ _ _ _ _ _ _ _ Hbi Hoi El) as (ret & m' & He & Hs' & Hr).
  exists ret, m'. split; [done|]. assert (same m m') as Hs2 by (intros x Hx; rewrite Hs', Hsi; done).
  destruct ret as [rc|]; [split; [done|]; eapply out_of_space_more, Hr; lia|].
  destruct Hr as (u' & Hu' & Hb'). split; [by eapply over_same|]. split; [done|]. exists u'.
  unfold set_props in *. rewrite foldl_snoc, props_cost_app. cbn [props_cost foldr fst snd]. split; [lia|done].
Qed.

(** ** Subnodes *)

(** A node of the base that takes what the overlay's node holds. *)
Definition merges (u : dtree) : Prop := ∀ fuel m c cu t off used offu usedu,
  ops_size (ops u) <= 4 * Z.of_nat fuel → base m c t off used → over m cu u offu usedu →
  ∃ rc m', overlay_apply_node fuel fdt off fdto offu m = Ok (rc, m') ∧ same m m' ∧
    if rc =? 0 then ∃ used', used' <= used + merge_cost u ∧ base m' c (merge_node u t) off used'
    else out_of_space c off used (merge_cost u) rc m'.

(** One subnode of the overlay. *)
Definition apply_subnode (fuel : nat) (target subnode : Z) : W (option Z) :=
  '(name, _) ← rd (fun m => fdt_get_name m fdto subnode);
  nnode ← fdt_add_subnode fdt target name;
  nnode ← (if nnode =? - FDT_ERR_EXISTS then
             nnode ← rd (fun m => fdt_subnode_offset m fdt target name);
             mret (if nnode =? - FDT_ERR_NOTFOUND then - FDT_ERR_INTERNAL else nnode)
           else mret nnode);
  if nnode <? 0 then mret (Some nnode)
  else ret ← overlay_apply_node fuel fdt nnode fdto subnode; mret (return_if ret).

Definition sub_cost (v : dtree) : Z := 8 + align4 (Z.of_nat (length (root_name v)) + 1) + merge_cost v.

(** Back at the parent, which lies where it lay. *)
Lemma base_up m f c t off used off0 t0 m0 used0 :
  base m0 c t0 off0 used0 → base m (f :: c) t off used → base m c (plug1 t f) off0 used.
Proof using Type.
  intros H0 (off' & Hp)%node_at_up. destruct t0 as [nm0 ps0 ss0]. rewrite (node_at_place _ _ _ _ _ _ _ _ _ _ _ _ _ H0).
  destruct (plug1 t f) as [nm ps ss] eqn:E. by rewrite (node_at_place _ _ _ _ _ _ _ _ _ _ _ _ _ Hp) in Hp.
Qed.

(** The recursive call, at a subnode [s] of the base. *)
Lemma apply_below fuel v m c nm props l s r off used offs cu offv usedv off0 used0 m0 :
  merges v → ops_size (ops v) <= 4 * Z.of_nat fuel →
  base m0 c (DTree nm props off0) off used0 → base m (Frame nm props l r :: c) s offs used → over m cu v offv usedv →
  ∃ ret m', (ret ← overlay_apply_node fuel fdt offs fdto offv; mret (return_if ret)) m = Ok (ret, m') ∧ same m m' ∧
    match ret with
    | None => ∃ used', used' <= used + merge_cost v ∧ base m' c (DTree nm props (l ++ merge_node v s :: r)) off used'
    | Some rc => out_of_space c off used (merge_cost v) rc m'
    end.
Proof using Type.
  intros Hv Hf H0 Hb Ho. destruct (Hv fuel m _ cu s offs used offv usedv Hf Hb Ho) as (rc & m' & He & Hs & Hr).
  rewrite (wbind_ok _ _ _ _ _ He). unfold return_if. destruct (rc =? 0) eqn:Erc.
  - destruct Hr as (u' & Hu & Hb'). exists None, m'. split_and!; [done|done|]. exists u'. split; [done|].
    by apply (base_up _ _ _ _ _ _ _ _ _ _ H0) in Hb'.
  - destruct Hr as (-> & Hlt & t & u' & Hb'). exists (Some (- FDT_ERR_NOSPACE)), m'. split_and!; [done|done|].
    split_and!; [done|done|]. apply (base_up _ _ _ _ _ _ _ _ _ _ H0) in Hb'. by eexists _, _.
Qed.

Lemma apply_subnode_ok fuel v m c nm props subs off used cu offv usedv :
  merges v → ops_size (ops v) <= 4 * Z.of_nat fuel →
  base m c (DTree nm props subs) off used → over m cu v offv usedv →
  ∃ ret m', apply_subnode fuel off offv m = Ok (ret, m') ∧ same m m' ∧
    match ret with
    | None => ∃ used', used' <= used + sub_cost v ∧ base m' c (DTree nm props (merge_sub subs v)) off used'
    | Some rc => out_of_space c off used (sub_cost v) rc m'
    end.
Proof using Hap Hto H30.
  intros Hv Hf Hb Ho. unfold apply_subnode, sub_cost, merge_sub. destruct v as [vn vprops vsubs] eqn:Ev. rewrite <- Ev in *.
  assert (root_name v = vn) as Hvn by (by subst v). rewrite Hvn.
  assert (over m cu (DTree vn vprops vsubs) offv usedv) as Ho' by (by rewrite <- Ev).
  destruct (name_here _ _ _ _ _ _ _ _ _ _ _ _ _ Ho') as (s & Hg & Hs & Hnz).
  rewrite (wbind_rd _ _ _ _ Hg). cbv iota beta.
  pose proof (over_name _ _ _ _ _ _ _ Ho Hs Hnz) as Harg.
  destruct (add_subnode_ok _ _ _ _ _ _ m c nm props subs off used s vn Hb Harg) as (r & m1 & He & Hs1 & Hr).
  rewrite (wbind_ok _ _ _ _ _ He). pose proof (align4_ge (Z.of_nat (length vn) + 1) ltac:(lia)) as Hal.
  pose proof (merge_into_split (merge_node v) vn subs) as Hsplit. pose proof (merge_cost_nonneg v) as Hcost.
  destruct (existsb _ subs).
  - destruct Hr as [-> ->]. destruct Hsplit as (l & b & rr & Es & Hl & Hm & ->). rewrite Z.eqb_refl. cbn [default]. unfold id.
    pose proof (strlen_arg _ _ _ _ _ _ _ _ _ _ _ _ _ Hb Harg) as Hlen.
    pose proof Harg as ((Hcs & Hs0 & Hst & Hn31) & _). destruct Hcs as (Hbs & _).
    pose proof (subnode_found _ _ _ _ _ _ _ _ _ _ _ _ _ Hb s vn l b rr Es Hl Hm Hlen Hbs Hs0 ltac:(lia) ltac:(lia)) as Hfound.
    pose proof (node_at_down _ _ _ _ _ _ _ _ _ _ _ _ _ Hb l b rr Es) as Hdown.
    assert (0 <= off + sub_place nm props l) as Hpos.
    { rewrite (node_at_place _ _ _ _ _ _ _ _ _ _ _ _ _ Hb). unfold sub_place, prop_place, node_place.
      pose proof (ops_size_nonneg (ops_before c)). pose proof (ops_size_nonneg (node_ops nm props)).
      pose proof (ops_size_nonneg (flat_map ops l)). lia. }
    rewrite (wbind_ok _ _ m (off + sub_place nm props l) m).
    2: { rewrite (wbind_rd _ _ _ _ Hfound). destruct (Z.eqb_spec (off + sub_place nm props l) (- FDT_ERR_NOTFOUND)); [|done].
         unfold FDT_ERR_NOTFOUND in *. lia. }
    destruct (Z.ltb_spec (off + sub_place nm props l) 0); [lia|].
    destruct (apply_below fuel v m c nm props l b rr off used _ cu offv usedv subs used m Hv Hf Hb Hdown Ho) as (ret & m' & He' & Hs' & Hr').
    exists ret, m'. split_and!; [done|done|]. destruct ret as [rc|].
    + eapply out_of_space_more, Hr'. lia.
    + destruct Hr' as (u' & Hu & Hb'). exists u'. split; [lia|done].
  - rewrite Hsplit. cbn [default]. unfold id. cbv zeta in Hr.
    destruct (Z.leb_spec (used + (8 + align4 (Z.of_nat (length vn) + 1))) total).
    + destruct Hr as [Hr0 Hb1]. destruct (Z.eqb_spec r (- FDT_ERR_EXISTS)); [unfold FDT_ERR_EXISTS in *; lia|].
      rewrite (wbind_ok _ _ m1 r m1 eq_refl). destruct (Z.ltb_spec r 0); [lia|].
      pose proof (over_same _ _ _ _ _ _ _ _ _ _ Hb1 Hs1 Ho) as Ho1.
      destruct (apply_below fuel v m1 c nm props [] _ subs off _ r cu offv usedv subs used m Hv Hf Hb Hb1 Ho1)
        as (ret & m' & He' & Hs' & Hr').
      exists ret, m'. split; [done|]. split; [intros x Hx; rewrite Hs', Hs1; done|]. destruct ret as [rc|].
      * eapply out_of_space_more, Hr'. lia.
      * destruct Hr' as (u' & Hu & Hb'). exists u'. split; [lia|done].
    + destruct Hr as [-> ->]. change (- FDT_ERR_NOSPACE =? - FDT_ERR_EXISTS) with false. cbv iota.
      rewrite (wbind_ok _ _ m (- FDT_ERR_NOSPACE) m eq_refl). change (- FDT_ERR_NOSPACE <? 0) with true. cbv iota.
      exists (Some (- FDT_ERR_NOSPACE)), m. split_and!; [done|done|]. split_and!; [done|lia|]. by eexists _, _.
Qed.

Lemma subs_cost_nonneg usubs : 0 <= subs_cost usubs.
Proof using Type. pose proof (merge_cost_nonneg (DTree [] [] usubs)) as H. cbn [merge_cost] in H. exact H. Qed.

(** All of them. *)
Lemma apply_subnodes_ok fuel m c nm props subs off used cu unm uprops usubs offu usedu :
  Forall merges usubs → ops_size (flat_map ops usubs) <= 4 * Z.of_nat fuel →
  base m c (DTree nm props subs) off used → over m cu (DTree unm uprops usubs) offu usedu →
  ∃ ret m', fdt_for_each_subnode fdto offu (apply_subnode fuel off) m = Ok (ret, m') ∧
    match ret with
    | None => same m m' ∧ ∃ used', used' <= used + subs_cost usubs ∧ base m' c (DTree nm props (foldl merge_sub subs usubs)) off used'
    | Some rc => same m m' ∧ out_of_space c off used (subs_cost usubs) rc m'
    end.
Proof using Hap Hto H30.
  intros Hall Hf Hb Ho. apply (for_each_subnode_ok _ _ _ _ _ _
    (λ l mi, same m mi ∧ ∃ used', used' <= used + subs_cost l ∧ base mi c (DTree nm props (foldl merge_sub subs l)) off used')
    (λ rc m', same m m' ∧ out_of_space c off used (subs_cost usubs) rc m') _ _ _ _ _ _ _ _ Ho).
  { split; [done|]. exists used. split; [cbn; lia|done]. }
  intros l v r mi El Hoi (Hsi & ui & Hui & Hbi).
  assert (subs_cost l + sub_cost v <= subs_cost usubs) as Hcost.
  { rewrite El, subs_cost_app. change (subs_cost (v :: r)) with (sub_cost v + subs_cost r). pose proof (subs_cost_nonneg r). lia. }
  assert (merges v ∧ ops_size (ops v) <= 4 * Z.of_nat fuel) as [Hv Hfv].
  { rewrite El in Hall. apply Forall_app in Hall as [_ [Hv _]%Forall_cons]. split; [done|].
    revert Hf. rewrite El, flat_map_app, ops_size_app. cbn [flat_map]. rewrite ops_size_app.
    pose proof (ops_size_nonneg (flat_map ops l)). pose proof (ops_size_nonneg (flat_map ops r)). lia. }
  pose proof (node_at_down _ _ _ _ _ _ _ _ _ _ _ _ _ Hoi l v r El) as Hov.
  destruct (apply_subnode_ok fuel v mi c nm props _ off ui _ _ usedu Hv Hfv Hbi Hov) as (ret & m' & He & Hs' & Hr).
  exists ret, m'. split; [done|]. assert (same m m') as Hs2 by (intros x Hx; rewrite Hs', Hsi; done).
  destruct ret as [rc|]; [split; [done|]; eapply out_of_space_more, Hr; lia|].
  destruct Hr as (u' & Hu' & Hb'). split; [by eapply over_same|]. split; [done|]. exists u'.
  rewrite foldl_snoc, subs_cost_app. change (subs_cost [v]) with (sub_cost v + 0). split; [lia|done].
Qed.

(** ** The whole node *)

Lemma merges_all u : merges u.
Proof using Hap Hto H30.
  induction u as [unm uprops usubs IH] using dtree_ind'. intros fuel m c cu [nm props subs] off used offu usedu Hf Hb Ho.
  rewrite ops_size_node in Hf. pose proof (item_size_pos (IBegin unm)).
  pose proof (ops_size_nonneg (map (prop_op (λ _, 0)) uprops)). pose proof (ops_size_nonneg (flat_map ops usubs)).
  destruct fuel as [|fuel]; [lia|]. cbn [overlay_apply_node].
  destruct (apply_properties_ok _ _ _ _ _ _ _ _ _ _ _ _ _ Hb Ho) as (ret1 & m1 & He1 & Hr1).
  pose proof (subs_cost_nonneg usubs). pose proof (props_cost_nonneg uprops).
  assert (merge_cost (DTree unm uprops usubs) = props_cost uprops + subs_cost usubs) as Ec by done. rewrite Ec.
  unfold or_return at 1. rewrite (wbind_ok _ _ _ _ _ He1). destruct ret1 as [rc|]; destruct Hr1 as [Hs1 Hr1].
  { exists rc, m1. split_and!; [done|done|]. pose proof Hr1 as (-> & _). change (- FDT_ERR_NOSPACE =? 0) with false. cbv iota.
    eapply out_of_space_more, Hr1. lia. }
  destruct Hr1 as (u1 & Hu1 & Hb1). pose proof (over_same _ _ _ _ _ _ _ _ _ _ Hb1 Hs1 Ho) as Ho1.
  assert (ops_size (flat_map ops usubs) <= 4 * Z.of_nat fuel) as Hf1 by lia.
  destruct (apply_subnodes_ok fuel _ _ _ _ _ _ _ _ _ _ _ _ _ IH Hf1 Hb1 Ho1) as (ret2 & m2 & He2 & Hr2).
  assert (same m m2) as Hs by (destruct ret2; destruct Hr2 as [Hs2 _]; intros x Hx; rewrite Hs2, Hs1; done).
  unfold or_return. rewrite (wbind_ok _ _ _ _ _ He2). destruct ret2 as [rc|]; destruct Hr2 as [_ Hr2].
  - exists rc, m2. split_and!; [done|done|]. pose proof Hr2 as (-> & _). change (- FDT_ERR_NOSPACE =? 0) with false. cbv iota.
    eapply out_of_space_more, Hr2. lia.
  - destruct Hr2 as (u2 & Hu2 & Hb2). exists 0, m2. split_and!; [done|done|]. exists u2. split; [lia|]. exact Hb2.
Qed.

Lemma apply_node_ok m c t off used cu u offu usedu :
  base m c t off used → over m cu u offu usedu →
  ∃ rc m', with_fuel fdto (λ fuel, overlay_apply_node fuel fdt off fdto offu) m = Ok (rc, m') ∧ same m m' ∧
    if rc =? 0 then ∃ used', used' <= used + merge_cost u ∧ base m' c (merge_node u t) off used'
    else rc = - FDT_ERR_NOSPACE ∧ total < used + merge_cost u ∧ ∃ t' used', base m' c t' off used'.
Proof using Hap Hto H30.
  intros Hb Ho. unfold with_fuel. destruct (tree_fuel_node _ _ _ _ _ _ _ _ _ _ _ Ho) as (n & -> & Hn).
  apply (merges_all u) with cu usedu; [|done..]. destruct u as [unm uprops usubs].
  pose proof (node_at_total _ _ _ _ _ _ _ _ _ _ _ _ _ Ho).
  rewrite (node_at_place _ _ _ _ _ _ _ _ _ _ _ _ _ Ho) in H. pose proof (ops_size_nonneg (ops_before cu)).
  unfold node_place in H. lia.
Qed.

(** C10: [overlay_apply_node] merges trees.  For a node of the base and a node of an overlay in
    another buffer, it ends, changes nothing outside the buffer of the base, and the node
    becomes [merge_node] of the two: every property of the overlay is set, every subnode
    merged into the first one that its name matches, or into a new one, down to the
    leaves.  There is space if [merge_cost] bytes are free; if there is none,
    [-FDT_ERR_NOSPACE] is returned, and the base is still a tree. *)
Theorem overlay_apply_node_merges m c t off used cu u offu usedu :
  base m c t off used → over m cu u offu usedu →
  ∃ rc m', with_fuel fdto (λ fuel, overlay_apply_node fuel fdt off fdto offu) m = Ok (rc, m') ∧ same m m' ∧
    if rc =? 0 then ∃ used', used' <= used + merge_cost u ∧ base m' c (merge_node u t) off used'
    else rc = - FDT_ERR_NOSPACE ∧ total < used + merge_cost u ∧ ∃ t' used', base m' c t' off used'.
Proof using Hap Hto H30. apply apply_node_ok. Qed.
End merge.

(* ------------------------------------------------------------------ *)
(** * Examples *)

(** In one memory an empty base, and an overlay with a property and a subnode. *)
Definition overlay_addr : Z := tree_addr + 256.
Definition sample_overlay : dtree := DTree [] [(reg, memory)] [DTree memory [] []].

#[local] Abbreviation base_at := (node_at tree_addr 256 256 48 0 [(0, 0)]).
#[local] Abbreviation over_at := (node_at overlay_addr 256 256 48 0 [(0, 0)]).

(** The strings of [sw_memory] are still there, behind both buffers or in front of them. *)
Definition strings_kept (m : mem) : Prop := same_outside tree_addr 512 sw_memory m.

Lemma strings_kept_over m m' : strings_kept m → same_outside overlay_addr 256 m m' → strings_kept m'.
Proof. intros Hs Hs' x Hx. rewrite Hs' by (unfold overlay_addr; lia). by apply Hs. Qed.

Lemma kept_name m s name : strings_kept m → name_arg tree_addr 512 sw_memory s name → name_arg overlay_addr 256 m s name.
Proof.
  intros Hs Ha. apply (name_arg_same _ _ _ _ _ _ Hs) in Ha. destruct Ha as (Hn & Hap & H1 & H2).
  unfold name_arg, overlay_addr, apart in *. split_and!; [done|lia..].
Qed.

Lemma kept_data m v val : strings_kept m → data_arg tree_addr 512 sw_memory v val → data_arg overlay_addr 256 m v val.
Proof.
  intros Hs Ha. apply (data_arg_same _ _ _ _ _ _ Hs) in Ha. destruct Ha as (Hb & Hap & H0 & H1 & H2).
  unfold data_arg, overlay_addr, apart in *. split_and!; [done|lia..].
Qed.

Lemma base_kept m m' c t off used c' t' off' used' :
  base_at m c t off used → over_at m' c' t' off' used' → same_outside overlay_addr 256 m m' → base_at m' c t off used.
Proof.
  intros Hb (? & ? & ? & ? & Him & _) Hs.
  apply (node_at_beside _ _ _ _ _ _ m m' _ _ _ _ overlay_addr 256); [left; done|apply Him|done|done].
Qed.

Lemma empty_trees :
  ∃ m, base_at m [] (DTree [] [] []) 0 80 ∧ over_at m [] (DTree [] [] []) 0 80 ∧ strings_kept m.
Proof.
  destruct (empty_sample 256 ltac:(lia)) as (m & Hat & Hs).
  assert (strings_kept m) as Hs0 by (intros x Hx; apply Hs; lia).
  assert (buffer m overlay_addr 256) as Hb.
  { apply (buffer_beside sw_memory m tree_addr 256); [|by destruct Hat as (? & ? & ? & ? & Him & _); apply Him|exact Hs].
    pose proof (sw_buffer 512 ltac:(lia)) as [H1 H2 H3 H4 H5]. split; [done|done|by split|done|].
    intros x Hx. apply H5. unfold overlay_addr in Hx. lia. }
  destruct (empty_string_arg 512) as [Hname Hap].
  destruct (@create_empty_tree_ok edit_platform m overlay_addr 256) as (m1 & _ & Hs1 & Hat1);
    [exact Hb|unfold INT_MAX; lia|by eapply c_name_outside|left; vm_compute; discriminate|].
  specialize (Hat1 ltac:(lia)). exists m1. split; [by eapply base_kept|]. split; [exact Hat1|]. by eapply strings_kept_over.
Qed.

Lemma overlay_sample :
  ∃ m useda, base_at m [] (DTree [] [] []) 0 80 ∧ over_at m [] sample_overlay 0 useda.
Proof.
  destruct empty_trees as (m & Hb & Ho & Hk).
  destruct (setprop_ok overlay_addr 256 256 48 0 [(0, 0)] m [] [] [] [] 0 80 (sw_place reg) reg (sw_place memory) memory Ho)
    as (rc & m1 & _ & Hs1 & Hr); [by apply kept_name, reg_arg|by apply kept_data, memory_data|].
  destruct (Z.eqb_spec rc 0); [|by destruct Hr as (_ & Hlt & _)]. destruct Hr as (u1 & Hu1 & Ho1).
  pose proof (strings_kept_over _ _ Hk Hs1) as Hk1. pose proof (base_kept _ _ _ _ _ _ _ _ _ _ Hb Ho1 Hs1) as Hb1.
  destruct (add_subnode_ok overlay_addr 256 256 48 0 [(0, 0)] m1 [] [] [(reg, memory)] [] 0 u1 (sw_place memory) memory Ho1)
    as (r & m2 & _ & Hs2 & Hr); [by apply kept_name, memory_arg|].
  cbn [existsb] in Hr. cbv zeta in Hr. change (growth reg (Z.of_nat (length memory))) with 24 in Hu1.
  change (8 + align4 (Z.of_nat (length memory) + 1)) with 16 in Hr.
  destruct (Z.leb_spec (u1 + 16) 256); [|lia]. destruct Hr as [_ Ho2].
  exists m2, (u1 + 16). split; [by eapply base_kept|].
  by apply (base_up _ _ _ _ _ _ _ (Frame [] [(reg, memory)] [] []) [] _ _ _ _ _ _ _ Ho1) in Ho2.
Qed.

(** The overlay merged into the empty base, which then reads as the overlay. *)
Lemma overlay_apply_node_merges_witness :
  ∃ m m', with_fuel overlay_addr (λ fuel, overlay_apply_node fuel tree_addr 0 overlay_addr 0) m = Ok (0, m') ∧
    fdt_check_full m' tree_addr 256 = Ok 0 ∧
    ∃ d, block_at m' tree_addr 0 (Some d) ∧ read_tree m' tree_addr d = sample_overlay.
Proof.
  destruct overlay_sample as (m & useda & Hb & Ho).
  destruct (overlay_apply_node_merges tree_addr 256 256 48 0 [(0, 0)] overlay_addr 256 256 48 0 [(0, 0)]
    ltac:(right; reflexivity) ltac:(vm_compute; discriminate) ltac:(vm_compute; discriminate) m [] _ 0 80 [] sample_overlay 0 useda Hb Ho)
    as (rc & m' & He & _ & Hr).
  exists m, m'. destruct (Z.eqb_spec rc 0) as [-> |].
  - destruct Hr as (used' & _ & Hat'). destruct (node_at_reads _ _ _ _ _ _ _ _ _ _ _ Hat') as (_ & Hc & _ & _ & Hd).
    split; [exact He|]. split; [exact Hc|exact Hd].
  - destruct Hr as (_ & Hlt & _). vm_compute in Hlt. discriminate.
Defined.
