(* ===== verification/FdtFragments.v ===== *)
(** The fragments of an overlay, second part of the proofs about
    src/libfdt/fdt_overlay.c: where a fragment goes, and what [overlay_merge] makes of a
    tree. *)
From S2P Require Import Prelude Machine Crt0 SampleTree Fdt FdtRo FdtCheck FdtTree FdtLookup FdtPath FdtWrite FdtSw FdtRw FdtImage FdtBuild FdtFinish FdtRead FdtEdit FdtNode FdtEncode FdtChildren FdtPack FdtTreeEdit FdtPositions FdtOverlay FdtMerge.
From stdpp Require Import base list gmap.
From Stdlib Require Import ZArith Lia.
From Stdlib Require String.
#[local] Open Scope Z_scope.

(* ------------------------------------------------------------------ *)
(** * Targets *)

(** The phandle of a fragment's target: 0 without one, the largest word for a property of
    another length. *)
Definition target_code (props : list (list Z * list Z)) : Z :=
  match tree_prop props (chars "target") with
  | Some v => if Z.of_nat (length v) =? 4 then be_value v else UINT_MAX
  | None => 0
  end.

(** Where a fragment goes in the base: the node with the phandle in "target" or, without
    one, the node that the path in "target-path" leads to; or an error. *)
Definition overlay_target (frag base : dtree) : position + Z :=
  let 'DTree _ props _ := frag in
  let found := from_option inl (inr (- FDT_ERR_NOTFOUND)) in
  if target_code props =? UINT_MAX then inr (- FDT_ERR_BADPHANDLE)
  else if target_code props =? 0 then
    match tree_prop props (chars "target-path") with
    | Some v => found (descend pos_child ([], base) (components (c_string v)))
    | None => inr (- FDT_ERR_BADOVERLAY)
    end
  else found (find_phandle base (target_code props)).

(** The path that names the target, where no phandle does. *)
Definition target_string (frag : dtree) : option (list Z) :=
  let 'DTree _ props _ := frag in
  if target_code props =? 0 then c_string <$> tree_prop props (chars "target-path") else None.

(** The path is a string, and an absolute one. *)
Definition path_ok (frag : dtree) : Prop :=
  let 'DTree _ props _ := frag in
  match tree_prop props (chars "target-path") with
  | Some v => 0 ∈ v ∧ head v = Some slash
  | None => True
  end.

(** The node of a fragment that is merged. *)
Definition overlay_of (frag : dtree) : option dtree := snd <$> pos_child ([], frag) (chars "__overlay__").

(** The base after the fragments, one after the other, and how it ends: 0, or the error of
    the first target that is not there. *)
Fixpoint merge_fragments (frags : list dtree) (base : dtree) : dtree * Z :=
  match frags with
  | [] => (base, 0)
  | f :: fs =>
      match overlay_of f with
      | None => merge_fragments fs base
      | Some u =>
          match overlay_target f base with
          | inl (c, t) => merge_fragments fs (plug c (merge_node u t))
          | inr err => (base, err)
          end
      end
  end.

Definition fragment_cost (frag : dtree) : Z := from_option merge_cost 0 (overlay_of frag).
Definition fragments_cost (frags : list dtree) : Z := foldr (λ f n, fragment_cost f + n) 0 frags.

Lemma overlay_target_error frag base err : overlay_target frag base = inr err → err < 0.
Proof.
  destruct frag as [nm props subs]. cbn [overlay_target]. destruct (target_code props =? UINT_MAX); [by intros [= <-]|].
  destruct (target_code props =? 0); [|by destruct (find_phandle _ _); intros [= <-]].
  destruct (tree_prop props _); [|by intros [= <-]]. by destruct (descend _ _ _); intros [= <-].
Qed.

(** A target is a position of the base. *)
Lemma overlay_target_plug frag base c t : overlay_target frag base = inl (c, t) → base = plug c t.
Proof.
  destruct frag as [nm props subs]. cbn [overlay_target]. destruct (target_code props =? UINT_MAX); [done|].
  assert (∀ o, from_option inl (inr (- FDT_ERR_NOTFOUND)) o = inl (c, t) → o = Some (c, t)) as Hfound
    by (intros [p|]; cbn; [by intros [= ->]|done]).
  destruct (target_code props =? 0).
  - destruct (tree_prop props _) as [v|]; [|done]. intros Hd%Hfound. by apply descend_plug in Hd.
  - intros Hp%Hfound. by apply find_phandle_plug in Hp.
Qed.

Lemma merge_fragments_app l r base :
  (merge_fragments l base).2 = 0 → merge_fragments (l ++ r) base = merge_fragments r (merge_fragments l base).1.
Proof.
  revert base. induction l as [|f l IH]; intros base; [done|]. cbn [app merge_fragments].
  destruct (overlay_of f) as [u|]; [|apply IH]. destruct (overlay_target f base) as [[c t]|err] eqn:E; [apply IH|].
  apply overlay_target_error in E. cbn. lia.
Qed.

Lemma merge_fragments_stop l f r base u err :
  (merge_fragments l base).2 = 0 → overlay_of f = Some u → overlay_target f (merge_fragments l base).1 = inr err →
  merge_fragments (l ++ f :: r) base = ((merge_fragments l base).1, err).
Proof. intros H0 Hu Ht. rewrite merge_fragments_app by done. cbn [merge_fragments]. by rewrite Hu, Ht. Qed.

Lemma fragment_cost_nonneg f : 0 <= fragment_cost f.
Proof. unfold fragment_cost. destruct (overlay_of f); [apply merge_cost_nonneg|done]. Qed.

Lemma fragments_cost_app l1 l2 : fragments_cost (l1 ++ l2) = fragments_cost l1 + fragments_cost l2.
Proof. unfold fragments_cost. induction l1 as [|f l1 IH]; cbn [app foldr]; lia. Qed.

Lemma fragments_cost_nonneg l : 0 <= fragments_cost l.
Proof.
  induction l as [|f l IH]; [done|]. cbn [fragments_cost foldr]. fold (fragments_cost l).
  pose proof (fragment_cost_nonneg f). lia.
Qed.

Lemma overlay_of_child c frag : snd <$> pos_child (c, frag) (chars "__overlay__") = overlay_of frag.
Proof. destruct frag as [nm props subs]. apply child_from_snd. Qed.

(* ------------------------------------------------------------------ *)
(** * Merging the fragments *)

#[local] Open Scope string_scope.
Definition merge_literals : list String.string :=
  ["target"; "target-path"; "phandle"; "linux,phandle"; "__overlay__"].
#[local] Close Scope string_scope.

Section fragments.
Context `{Platform} (fdt size total r0 cpuid : Z) (rsv : list (Z * Z)).
Context (fdto sizeo totalo r0o cpuido : Z) (rsvo : list (Z * Z)).
Context (Hap : apart fdto sizeo fdt size) (Hto : totalo <= fdt) (H30 : totalo <= 2 ^ 30).

#[local] Abbreviation base := (node_at fdt size total r0 cpuid rsv).
#[local] Abbreviation over := (node_at fdto sizeo totalo r0o cpuido rsvo).
#[local] Abbreviation same := (same_outside fdt size).

(** The literals of the code, outside the base. *)
Definition literals_apart (m : mem) : Prop := ∀ s, s ∈ merge_literals → name_arg fdt size m (rodata s) (chars s).

Lemma literals_same m m' : same m m' → literals_apart m → literals_apart m'.
Proof using Type. intros Hs Hl s Hin. eapply name_arg_same, Hl, Hin. done. Qed.

Lemma literal m s : literals_apart m → s ∈ merge_literals → c_name m (rodata s) (chars s).
Proof using Type. intros Hl Hs. apply (Hl s Hs). Qed.
#[local] Arguments literal m s%_string_scope.

Ltac is_literal := by unfold merge_literals; repeat constructor.

Lemma target_phandle_ok m cu nm props subs usedo :
  holds fdto sizeo totalo r0o cpuido rsvo m usedo (cu, DTree nm props subs) → literals_apart m →
  overlay_get_target_phandle m fdto (node_place cu) = Ok (target_code props).
Proof using Type.
  intros Ho Hl. unfold overlay_get_target_phandle, target_code.
  pose proof (position_prop _ _ _ _ _ _ _ _ _ _ _ _ _ _ Ho (literal m "target" Hl ltac:(is_literal))) as Hp.
  destruct (tree_prop props (chars "target")) as [v|]; [|by rewrite Hp].
  destruct Hp as (d & -> & _ & Hd & _ & Hw). cbn [mbind res_bind]. destruct (Z.eqb_spec d 0); [lia|].
  destruct (Z.eqb_spec (Z.of_nat (length v)) 4) as [E4|]; cbn [negb]; [|done].
  rewrite Hw by lia. cbn [mbind res_bind]. by destruct (Z.eqb_spec (be_value v) UINT_MAX) as [->|].
Qed.

(** A value that ends where a string does. *)
Lemma value_name f s tt r c rv m used p d v :
  holds f s tt r c rv m used p → value_at m f d v → 0 ∈ v → c_name m d (c_string v).
Proof using Type.
  intros Hh (Hb & Hd & Hdt & _) H0. destruct (holds_readable _ _ _ _ _ _ _ _ _ Hh) as (_ & _ & E4 & ? & ?).
  destruct (c_string_in v H0) as (rest & Er & Hnz). pose proof (f_equal length Er) as El. rewrite length_app, length_cons in El.
  destruct Hh as (strings & xs & zs & ys & _ & _ & _ & _ & _ & _ & Hsz & _). rewrite Er in Hb.
  apply bytes_at_app in Hb as [Hb1 Hb2]. apply bytes_at_cons in Hb2 as [Hb2 _]. unfold INT_MAX in *.
  split_and!; [split_and!|..]; (done || lia).
Qed.

(** A string of the overlay. *)
Definition over_string (m : mem) (d : Z) (s : list Z) : Prop :=
  bytes_at m d (s ++ [0]) ∧ 0 < fdto <= d ∧ d + Z.of_nat (length s) + 1 <= fdto + totalo.

(** [fdt_overlay_target_offset] finds the target, and the path if it has one, or says what
    is wrong. *)
Lemma target_ok m cu frag usedo t used :
  base m [] t 0 used → holds fdto sizeo totalo r0o cpuido rsvo m usedo (cu, frag) → literals_apart m → path_ok frag →
  ∃ path, fdt_overlay_target_offset m fdt fdto (node_place cu) =
    Ok (match overlay_target frag t with inl p => pos_place p | inr err => err end, path) ∧
    match overlay_target frag t with
    | inl _ => match target_string frag with Some s => over_string m path s | None => path = 0 end
    | inr _ => True
    end.
Proof using Hap H30.
  intros Hb Ho Hl Hpath. destruct frag as [nm props subs]. unfold fdt_overlay_target_offset.
  rewrite (target_phandle_ok m cu nm props subs usedo Ho Hl). cbn [mbind res_bind overlay_target target_string].
  destruct (Z.eqb_spec (target_code props) UINT_MAX) as [|Hmax]; [by eexists|].
  assert (holds fdt size total r0 cpuid rsv m used ([], t)) as Hb' by (by destruct (holds_node _ _ _ _ _ _ _ _ _ _ _ Hb)).
  assert (∀ o : option position, (from_option pos_place (- FDT_ERR_NOTFOUND) o <? 0) && false = false) as Hno
    by (intros; apply andb_false_r).
  assert (∀ o : option position, match from_option inl (inr (- FDT_ERR_NOTFOUND)) o with inl p => pos_place p | inr err => err end
    = from_option pos_place (- FDT_ERR_NOTFOUND) o) as Hfound by (by intros []).
  destruct (Z.eqb_spec (target_code props) 0).
  - pose proof (position_prop _ _ _ _ _ _ _ _ _ _ _ _ _ _ Ho (literal m "target-path" Hl ltac:(is_literal))) as Hp.
    cbn [path_ok] in Hpath. destruct (tree_prop props (chars "target-path")) as [v|].
    + destruct Hp as (d & -> & Hval). pose proof Hval as (_ & Hd & _). cbn [mbind res_bind]. destruct (Z.eqb_spec d 0); [lia|]. cbn [negb].
      destruct Hpath as [H0 Hslash]. pose proof (value_name _ _ _ _ _ _ _ _ _ _ _ Ho Hval H0) as Hname.
      rewrite (position_path _ _ _ _ _ _ _ _ t d (c_string v) Hb' Hname) by (by destruct v as [|c v]; [|injection Hslash as ->]).
      cbn [mbind res_bind]. destruct (Z.eqb_spec (Z.of_nat (length v)) (- FDT_ERR_NOTFOUND)); [unfold FDT_ERR_NOTFOUND in *; lia|].
      rewrite Hno, Hfound. eexists. split; [done|]. cbn [fmap option_fmap option_map]. destruct (from_option _ _ _); [|done].
      pose proof Hval as (Hbv & _ & Hdt & _). destruct (holds_readable _ _ _ _ _ _ _ _ _ Ho) as (_ & _ & E4 & _).
      destruct (c_string_in v H0) as (rest & Er & _). pose proof (f_equal length Er) as El. rewrite length_app, length_cons in El.
      rewrite Er in Hbv. rewrite (cons_middle 0), app_assoc in Hbv. apply bytes_at_app in Hbv as [Hbv _]. split_and!; [done|lia..].
    + rewrite Hp. cbn [mbind res_bind Z.eqb negb]. by eexists.
  - rewrite (by_phandle_position fdt size total r0 cpuid rsv m used t) by
      (done || (apply literal; [done|is_literal])).
    cbn [mbind res_bind]. change (0 =? - FDT_ERR_NOTFOUND) with false. rewrite Hno, Hfound. eexists. split; [done|]. by destruct (from_option _ _ _).
Qed.

(** What a merge leaves: the base with the fragments merged into it, or no space for
    them and still a tree. *)
Definition merge_result (t : dtree) (used cost rc : Z) (outcome : dtree * Z) (m' : mem) : Prop :=
  (rc = outcome.2 ∧ ∃ used', used' <= used + cost ∧ base m' [] outcome.1 0 used') ∨
  (rc = - FDT_ERR_NOSPACE ∧ total < used + cost ∧ ∃ t' used', base m' [] t' 0 used').

(** One fragment. *)
Definition apply_fragment (fragment : Z) : W (option Z) :=
  overlay ← rd (fun m => fdt_subnode_offset m fdto fragment (rodata "__overlay__"));
  if overlay =? - FDT_ERR_NOTFOUND then mret None
  else if overlay <? 0 then mret (Some overlay)
  else
    '(target, _) ← rd (fun m => fdt_overlay_target_offset m fdt fdto fragment);
    if false && (target =? - FDT_ERR_NOTFOUND) then mret None
    else if target <? 0 then mret (Some target)
    else ret ← with_fuel fdto (fun fuel => overlay_apply_node fuel fdt target fdto overlay); mret (return_if ret).

Lemma base_holds m t used c u : base m [] t 0 used → t = plug c u → base m c u (node_place c) used.
Proof using Type.
  intros Hb ->. exact (proj1 (holds_whole _ _ _ _ _ _ _ _ c u) Hb).
Qed.

Lemma holds_base m c u used off : base m c u off used → base m [] (plug c u) 0 used.
Proof using Type.
  intros Hb. destruct (holds_node _ _ _ _ _ _ _ _ _ _ _ Hb) as [_ Hh]. exact (proj2 (holds_whole _ _ _ _ _ _ _ _ c u) Hh).
Qed.

Lemma apply_fragment_ok m cu frag usedo t used :
  base m [] t 0 used → holds fdto sizeo totalo r0o cpuido rsvo m usedo (cu, frag) → literals_apart m → path_ok frag →
  ∃ ret m', apply_fragment (node_place cu) m = Ok (ret, m') ∧ same m m' ∧
    match overlay_of frag with
    | None => ret = None ∧ m' = m
    | Some u =>
        match overlay_target frag t with
        | inr err => ret = Some err ∧ m' = m
        | inl (c, v) =>
            match ret with
            | None => ∃ used', used' <= used + merge_cost u ∧ base m' [] (plug c (merge_node u v)) 0 used'
            | Some rc => out_of_space fdt size total r0 cpuid rsv [] 0 used (merge_cost u) rc m'
            end
        end
    end.
Proof using Hap Hto H30.
  intros Hb Ho Hl Hpath. unfold apply_fragment.
  pose proof (position_subnode _ _ _ _ _ _ _ _ _ _ _ Ho (literal m "__overlay__" Hl ltac:(is_literal))) as Hsub.
  change (pos_place (cu, frag)) with (node_place cu) in Hsub. rewrite (wbind_rd _ _ _ _ Hsub).
  pose proof (overlay_of_child cu frag) as Hov.
  destruct (pos_child (cu, frag) (chars "__overlay__")) as [[cv u]|] eqn:Ec; cbn [fmap option_fmap option_map snd] in Hov; rewrite <- Hov.
  2: { by exists None, m. }
  assert (holds fdto sizeo totalo r0o cpuido rsvo m usedo (cv, u)) as Hu
    by (eapply child_good; [apply positions_descend|exact Ho|exact Ec]).
  cbn [from_option]. unfold pos_place at 1 2. cbn [fst]. pose proof (ops_size_nonneg (ops_before cv)) as Hcv. fold (node_place cv) in Hcv.
  destruct (Z.eqb_spec (node_place cv) (- FDT_ERR_NOTFOUND)); [unfold FDT_ERR_NOTFOUND in *; lia|].
  destruct (Z.ltb_spec (node_place cv) 0); [lia|].
  destruct (target_ok m cu frag usedo t used Hb Ho Hl Hpath) as (path & Htarget & _). rewrite (wbind_rd _ _ _ _ Htarget).
  cbv iota beta. cbn [andb]. destruct (overlay_target frag t) as [[c v]|err] eqn:Et.
  2: { pose proof (overlay_target_error _ _ _ Et). destruct (Z.ltb_spec err 0); [|lia]. by exists (Some err), m. }
  unfold pos_place. cbn [fst]. pose proof (ops_size_nonneg (ops_before c)) as Hc. fold (node_place c) in Hc.
  destruct (Z.ltb_spec (node_place c) 0); [lia|].
  destruct (apply_node_ok fdt size total r0 cpuid rsv fdto sizeo totalo r0o cpuido rsvo Hap Hto H30 m c v (node_place c) used cv u (node_place cv) usedo) as (rc & m' & He & Hs & Hr);
    [by apply (base_holds _ t); [|apply overlay_target_plug in Et]|exact Hu|].
  change (pos_place (cv, u)) with (node_place cv). rewrite (wbind_ok _ _ _ _ _ He). unfold return_if. destruct (rc =? 0) eqn:Erc.
  - exists None, m'. split_and!; [done|done|]. destruct Hr as (used' & Hu' & Hb'). exists used'. split; [done|]. by eapply holds_base.
  - exists (Some rc), m'. split_and!; [done|done|]. destruct Hr as (-> & Hlt & t' & used' & Hb'). split_and!; [done|done|].
    apply holds_base in Hb'. by eexists _, _.
Qed.

Lemma out_of_space_result t used cost used0 cost0 rc outcome m' :
  used0 + cost0 <= used + cost → out_of_space fdt size total r0 cpuid rsv [] 0 used0 cost0 rc m' →
  merge_result t used cost rc outcome m'.
Proof using Type. intros Hle (-> & Hlt & Ht). right. split_and!; [done|lia|done]. Qed.

Lemma overlay_merge_ok m t used nmo propso frags usedo :
  base m [] t 0 used → over m [] (DTree nmo propso frags) 0 usedo → literals_apart m → Forall path_ok frags →
  ∃ rc m', overlay_merge fdt fdto m = Ok (rc, m') ∧ same m m' ∧
    merge_result t used (fragments_cost frags) rc (merge_fragments frags t) m'.
Proof using Hap Hto H30.
  intros Hb Ho Hl Hpaths. change (overlay_merge fdt fdto m) with (or_return (fdt_for_each_subnode fdto 0 apply_fragment) (mret 0) m).
  destruct (for_each_subnode_ok fdto sizeo totalo r0o cpuido rsvo
    (λ l mi, same m mi ∧ (merge_fragments l t).2 = 0 ∧
       ∃ used', used' <= used + fragments_cost l ∧ base mi [] (merge_fragments l t).1 0 used')
    (λ rc m', same m m' ∧ merge_result t used (fragments_cost frags) rc (merge_fragments frags t) m')
    apply_fragment m [] nmo propso frags 0 usedo Ho) as (ret & m' & He & Hr).
  - split_and!; [done..|]. exists used. split; [cbn; lia|done].
  - intros l v r mi El Hoi (Hsi & Hi0 & ui & Hui & Hbi).
    assert (holds fdto sizeo totalo r0o cpuido rsvo mi usedo ([Frame nmo propso l r], v)) as Hov.
    { apply holds_below. rewrite <- El. exact Hoi. }
    assert (path_ok v) as Hpath by (rewrite El in Hpaths; by apply Forall_app in Hpaths as [_ [? _]%Forall_cons]).
    destruct (apply_fragment_ok mi _ v usedo _ ui Hbi Hov (literals_same _ _ Hsi Hl) Hpath) as (ret & m' & He & Hs' & Hr).
    rewrite node_place_below in He. change (node_place []) with 0 in He.
    exists ret, m'. split; [done|]. assert (same m m') as Hs2 by (intros x Hx; rewrite Hs', Hsi; done).
    assert (fragments_cost frags = fragments_cost l + fragment_cost v + fragments_cost r) as Ecost.
    { rewrite El, fragments_cost_app. change (fragments_cost (v :: r)) with (fragment_cost v + fragments_cost r). lia. }
    pose proof (fragments_cost_nonneg r). assert (fragments_cost (l ++ [v]) = fragments_cost l + fragment_cost v) as Esnoc.
    { rewrite fragments_cost_app. change (fragments_cost [v]) with (fragment_cost v + 0). lia. }
    rewrite Esnoc, merge_fragments_app by done. cbn [merge_fragments]. unfold fragment_cost in *.
    destruct (overlay_of v) as [u|] eqn:Eu; cbn [from_option] in *.
    2: { destruct Hr as [-> ->]. split; [done|]. split_and!; [done..|]. exists ui. split; [lia|done]. }
    destruct (overlay_target v _) as [[c w]|err] eqn:Et.
    2: { destruct Hr as [-> ->]. split; [done|]. left.
         assert (merge_fragments frags t = ((merge_fragments l t).1, err)) as -> by (rewrite El; by eapply merge_fragments_stop).
         split; [done|]. exists ui. pose proof (merge_cost_nonneg u). split; [lia|done]. }
    destruct ret as [rc|]; [split; [done|]; eapply out_of_space_result, Hr; lia|].
    destruct Hr as (u' & Hu' & Hb'). split; [by eapply over_same|]. split_and!; [done..|]. exists u'. split; [lia|done].
  - unfold or_return. rewrite (wbind_ok _ _ _ _ _ He). destruct ret as [rc|]; [by exists rc, m'|].
    destruct Hr as (Hs & H0 & Hb'). exists 0, m'. split_and!; [done|done|]. by left.
Qed.

(** [overlay_merge] merges an overlay into a base: every fragment with an __overlay__
    node goes where its phandle or its path leads in the base as it is then, and ends in
    the first target that is not there with the error of that target.  Nothing outside
    the buffer of the base changes.  There is space if [fragments_cost] bytes are free;
    if there is none, [-FDT_ERR_NOSPACE] is returned, and the base is still a tree. *)
Theorem overlay_merge_spec m t used nmo propso frags usedo :
  base m [] t 0 used → over m [] (DTree nmo propso frags) 0 usedo → literals_apart m → Forall path_ok frags →
  ∃ rc m', overlay_merge fdt fdto m = Ok (rc, m') ∧ same m m' ∧
    let '(t', err) := merge_fragments frags t in
    let cost := fragments_cost frags in
    (rc = err ∧ ∃ used', used' <= used + cost ∧ base m' [] t' 0 used') ∨
    (rc = - FDT_ERR_NOSPACE ∧ total < used + cost ∧ ∃ t'' used', base m' [] t'' 0 used').
Proof using Hap Hto H30.
  intros Hb Ho Hl Hp. destruct (overlay_merge_ok m t used nmo propso frags usedo Hb Ho Hl Hp) as (rc & m' & He & Hs & Hr).
  exists rc, m'. split_and!; [done|done|]. by destruct (merge_fragments frags t).
Qed.
End fragments.

(* ------------------------------------------------------------------ *)
(** * Two trees in memory *)

Definition pad_to (n : nat) (bs : list Z) : list Z := bs ++ replicate (n - length bs) 0.

(** The literals of the overlay code at 0x1000, a stack slot at 0x3000, a base at 0x4000
    and an overlay at 0x5000, with 512 bytes each. *)
Definition base_addr : Z := 0x4000.
Definition over_addr : Z := 0x5000.
Definition two_trees (strings : list Z) (t u : dtree) : mem :=
  map_bytes 0x1000 (pad4 (concat (map cstr overlay_literals)))
    (map_bytes 0x3000 [0; 0; 0; 0]
      (map_bytes base_addr (pad_to 512 (tree_image strings 512 t))
        (map_bytes over_addr (pad_to 512 (tree_image strings 512 u)) ∅))).

Definition bytes_ok (bs : list Z) : bool := forallb (λ b, (0 <=? b) && (b <? 256)) bs.
Definition tree_fits (strings : list Z) (t : dtree) : bool :=
  (length (pad_to 512 (tree_image strings 512 t)) =? 512)%nat && bytes_ok (tree_image strings 512 t) &&
  tree_placed strings t && forallb item_fits (tree_items strings t) && bool_decide (root_name t = []) &&
  (tree_used strings t <=? 512).

Lemma pad_to_u8 n bs : bytes_ok bs = true → Forall is_u8 (pad_to n bs).
Proof. intros Hb. apply Forall_app. split; [by apply u8_list|]. apply Forall_replicate. unfold is_u8. lia. Qed.

Lemma two_trees_at strings t u :
  tree_fits strings t = true → tree_fits strings u = true →
  node_at base_addr 512 512 40 0 [(0, 0)] (two_trees strings t u) [] t 0 (tree_used strings t) ∧
  node_at over_addr 512 512 40 0 [(0, 0)] (two_trees strings t u) [] u 0 (tree_used strings u).
Proof.
  unfold tree_fits. rewrite !andb_true_iff, !Nat.eqb_eq, !Z.leb_le, !bool_decide_eq_true.
  intros (((((Lt & Bt) & Pt) & It) & Rt) & Ut) (((((Lu & Bu) & Pu) & Iu) & Ru) & Uu).
  assert (Z.of_nat (length (pad4 (concat (map cstr overlay_literals)))) <= 0x1000) as Hl by (vm_compute; discriminate).
  assert (mem_bytes (two_trees strings t u)) as Hb.
  { repeat apply map_bytes_bytes; [apply u8_list; vm_compute; reflexivity|apply u8_list; reflexivity|by apply pad_to_u8..|apply mem_bytes_empty]. }
  assert (word_backed (two_trees strings t u)) as Hw.
  { apply map_bytes_word_backed; [reflexivity|vm_compute; reflexivity|]. apply map_bytes_word_backed; [reflexivity..|].
    apply map_bytes_word_backed; [reflexivity|by rewrite Lt|]. apply map_bytes_word_backed; [reflexivity|by rewrite Lu|apply word_backed_empty]. }
  assert (bytes_at (two_trees strings t u) base_addr (pad_to 512 (tree_image strings 512 t))) as Hbt.
  { unfold two_trees. apply bytes_at_other; [apply bytes_at_other; [apply map_bytes_at|]|]; unfold base_addr; cbn [length]; lia. }
  assert (bytes_at (two_trees strings t u) over_addr (pad_to 512 (tree_image strings 512 u))) as Hbu.
  { unfold two_trees. repeat (apply bytes_at_other; [|unfold base_addr, over_addr; rewrite ?Lt, ?Lu; cbn [length]; lia]).
    apply map_bytes_at. }
  assert (∀ a bs, a = base_addr ∨ a = over_addr → length bs = 512%nat → bytes_at (two_trees strings t u) a bs →
    buffer (two_trees strings t u) a 512) as Hbuf.
  { intros a bs Ha Hlen Hbs. split; [done|done|by destruct Ha as [-> | ->]|destruct Ha as [-> | ->]; unfold base_addr, over_addr; lia|].
    apply bytes_at_mapped in Hbs. by rewrite Hlen in Hbs. }
  split; apply tree_image_at; try (done || unfold INT_MAX; lia); [exact (Hbuf _ _ (or_introl eq_refl) Lt Hbt)| |exact (Hbuf _ _ (or_intror eq_refl) Lu Hbu)|].
  - by apply bytes_at_app in Hbt as [? _].
  - by apply bytes_at_app in Hbu as [? _].
Qed.

(** A base with a phandle, and an overlay with a fragment for a path and one for the
    phandle. *)
#[local] Open Scope string_scope.
Definition sample_strings : list Z := cstr "phandle" ++ cstr "target-path" ++ cstr "target" ++ cstr "ref".
Definition sample_base : dtree := DTree [] [] [DTree (chars "soc") [(chars "phandle", be32 5)] []].
Definition sample_fragments : dtree :=
  DTree [] []
    [DTree (chars "fragment@0") [(chars "target-path", cstr "/soc")]
       [DTree (chars "__overlay__") [(chars "ref", be32 1)] [DTree (chars "dev") [] []]];
     DTree (chars "fragment@1") [(chars "target", be32 5)] [DTree (chars "__overlay__") [(chars "ref", be32 2)] []];
     DTree (chars "fragment@2") [(chars "target-path", cstr "/none")] [DTree (chars "__overlay__") [] []]].
#[local] Close Scope string_scope.

Lemma fragment_literals s :
  s ∈ merge_literals →
  name_arg base_addr 512 (two_trees sample_strings sample_base sample_fragments) (@rodata overlay_platform s) (chars s).
Proof.
  unfold merge_literals. rewrite !elem_of_cons, elem_of_nil.
  intros [->|[->|[->|[->|[->|[]]]]]]; (split; [apply memory_string; vm_compute; reflexivity|]);
    (split; [left; vm_compute; discriminate|by split]).
Qed.

(** The two targets that are there get their parts, the third one ends the merge. *)
Lemma overlay_merge_spec_witness :
  ∃ m', @overlay_merge overlay_platform base_addr over_addr (two_trees sample_strings sample_base sample_fragments)
      = Ok (- FDT_ERR_NOTFOUND, m') ∧
    ∃ used, node_at base_addr 512 512 40 0 [(0, 0)] m' []
      (DTree [] [] [DTree (chars "soc") [(chars "ref", be32 2); (chars "phandle", be32 5)] [DTree (chars "dev") [] []]]) 0 used.
Proof.
  destruct (two_trees_at sample_strings sample_base sample_fragments) as [Hb Ho]; [vm_compute; reflexivity..|].
  destruct (@overlay_merge_spec overlay_platform base_addr 512 512 40 0 [(0, 0)] over_addr 512 512 40 0 [(0, 0)]
    ltac:(right; vm_compute; discriminate) ltac:(vm_compute; discriminate) ltac:(vm_compute; discriminate)
    _ _ _ [] [] _ _ Hb Ho fragment_literals) as (rc & m' & He & _ & Hr).
  { repeat constructor; vm_compute; tauto. }
  exists m'. destruct Hr as [[-> (used & _ & Hat)]|(_ & Hlt & _)]; [|vm_compute in Hlt; discriminate].
  split; [exact He|]. exists used. exact Hat.
Defined.
