(* ===== verification/FdtPhandles.v ===== *)
(** Phandles of an overlay, src/libfdt/fdt_overlay.c: before it is merged, every phandle
    of the overlay is moved past those of the base, where it lies. *)
From S2P Require Import Prelude Machine Crt0 SampleTree Fdt FdtRo FdtCheck FdtTree FdtLookup FdtPath FdtWrite FdtSw FdtRw FdtImage FdtBuild FdtFinish FdtRead FdtEdit FdtNode FdtEncode FdtChildren FdtPack FdtTreeEdit FdtPositions FdtInplace FdtOverlay FdtMerge FdtFragments.
From stdpp Require Import base list gmap.
From Stdlib Require Import ZArith Lia.
From Stdlib Require String.
#[local] Open Scope Z_scope.

(* ------------------------------------------------------------------ *)
(** * The shift, on trees *)

(** A step that may fail, over a list: the error, and the list as it is then. *)
Definition map_until {A} (f : A → Z * A) : list A → Z * list A :=
  fix go l :=
    match l with
    | [] => (0, [])
    | x :: l =>
        let '(rc, y) := f x in
        if rc =? 0 then let '(rc, l) := go l in (rc, y :: l) else (rc, y :: l)
    end.

(** [delta] is added to the word in a property. *)
Definition shift_prop (delta : Z) (props : list (list Z * list Z)) (name : list Z) : Z * list (list Z * list Z) :=
  match tree_prop props name with
  | None => (- FDT_ERR_NOTFOUND, props)
  | Some v =>
      if negb (Z.of_nat (length v) =? 4) then (- FDT_ERR_BADPHANDLE, props)
      else
        let val := u32 (be_value v + delta) in
        if (val <? be_value v) || (val =? UINT_MAX) then (- FDT_ERR_NOPHANDLES, props)
        else (0, set_prop props name (be32 val))
  end.

(** The phandles of a node, under both names, and of the nodes below it. *)
Definition or_absent (r : Z * list (list Z * list Z)) : Z * list (list Z * list Z) :=
  (if r.1 =? - FDT_ERR_NOTFOUND then 0 else r.1, r.2).
Definition shift_props (delta : Z) (props : list (list Z * list Z)) : Z * list (list Z * list Z) :=
  let '(rc, props) := or_absent (shift_prop delta props (chars "phandle")) in
  if rc =? 0 then or_absent (shift_prop delta props (chars "linux,phandle")) else (rc, props).
Fixpoint shift_phandles (delta : Z) (t : dtree) : Z * dtree :=
  let 'DTree nm props subs := t in
  let '(rc, props) := shift_props delta props in
  if rc =? 0 then let '(rc, subs) := map_until (shift_phandles delta) subs in (rc, DTree nm props subs)
  else (rc, DTree nm props subs).

Lemma map_until_app {A} (f : A → Z * A) l r :
  (map_until f l).1 = 0 → map_until f (l ++ r) = ((map_until f r).1, (map_until f l).2 ++ (map_until f r).2).
Proof.
  induction l as [|x l IH]; [intros _; cbn [app map_until snd]; by destruct (map_until f r)|]. cbn [app map_until]. destruct (f x) as [rc y].
  destruct (Z.eqb_spec rc 0) as [-> |Hne]; [|by cbn; intros ->]. destruct (map_until f l) as [rc' l'] eqn:El. cbn [fst snd] in *.
  intros ->. by rewrite IH.
Qed.

Lemma map_until_map {A} (g : A → A) l : map_until (λ x, (0, g x)) l = (0, map g l).
Proof. induction l as [|x l IH]; [done|]. cbn [map_until map]. by rewrite IH. Qed.

(** If the names stay, they stay where a step fails, too. *)
Lemma map_until_names (f : dtree → Z * dtree) l :
  (∀ t, root_name (f t).2 = root_name t) → map root_name (map_until f l).2 = map root_name l.
Proof.
  intros Hf. induction l as [|t l IH]; [done|]. cbn [map_until]. specialize (Hf t). destruct (f t) as [rc t'].
  destruct (map_until f l) as [rc' l']. cbn [snd] in *. destruct (rc =? 0); cbn [snd map]; [by rewrite Hf, IH|].
  by rewrite Hf.
Qed.

Section until.
Context (fdt size total r0 cpuid : Z) (rsv : list (Z * Z)).
#[local] Abbreviation node_at := (node_at fdt size total r0 cpuid rsv).

(** A loop over subnodes that does [f] to each of them; [K] is what it leaves alone. *)
Lemma for_each_until (f : dtree → Z * dtree) (K : mem → mem → Prop) body m c nm props subs off used :
  (∀ m, K m m) → (∀ m1 m2 m3, K m1 m2 → K m2 m3 → K m1 m3) → (∀ v, ops_size (ops (f v).2) = ops_size (ops v)) →
  node_at m c (DTree nm props subs) off used →
  (∀ l v r mi, subs = l ++ v :: r → K m mi →
     let below := Frame nm props (map_until f l).2 r :: c in let place := off + sub_place nm props l in
     node_at mi below v place used →
     ∃ m', body place mi = Ok (return_if (f v).1, m') ∧ K mi m' ∧ node_at m' below (f v).2 place used) →
  ∃ m', fdt_for_each_subnode fdt off body m = Ok (return_if (map_until f subs).1, m') ∧ K m m' ∧
    node_at m' c (DTree nm props (map_until f subs).2) off used.
Proof using Type.
  intros HK1 HK2 Hsize Hat Hbody.
  destruct (for_each_subnode_edit _ _ _ _ _ _ (λ l l' mi, K m mi ∧ map_until f l = (0, l'))
    (λ rc m', K m m' ∧ rc = (map_until f subs).1 ∧ rc ≠ 0 ∧ node_at m' c (DTree nm props (map_until f subs).2) off used)
    body m c nm props subs off used Hat) as (ret & m' & He & Hr); [done| |].
  - intros l l' v r mi El Hi [Hsi HJ] Ep.
    pose proof (node_at_down _ _ _ _ _ _ _ _ _ _ _ _ _ Hi l' v r eq_refl) as Hd. rewrite Ep in Hd.
    destruct (Hbody l v r mi El Hsi) as (m' & He & Hs' & Hat'); [by rewrite HJ|]. rewrite HJ in Hat'. cbn [snd] in Hat'.
    pose proof (base_up _ _ _ _ _ _ _ _ _ _ _ _ _ _ _ _ Hi Hat') as Hup.
    assert (map_until f subs = (if (f v).1 =? 0 then (map_until f (v :: r)).1 else (f v).1, l' ++ (map_until f (v :: r)).2)) as Eall.
    { rewrite El, map_until_app by (by rewrite HJ). rewrite HJ. cbn [fst snd map_until].
      destruct (f v) as [rc v']. cbn [fst]. destruct (rc =? 0); [|done]. by destruct (map_until f r). }
    exists (return_if (f v).1), m'. split; [exact He|]. specialize (Hsize v). rewrite Eall. cbn [map_until]. unfold return_if.
    destruct (f v) as [rc v'] eqn:Ev. cbn [fst snd] in *. destruct (Z.eqb_spec rc 0) as [-> |Hne].
    + exists v'. split_and!; [done|exact Hup|by eapply HK2|]. rewrite map_until_app by (by rewrite HJ). rewrite HJ.
      cbn [map_until]. by rewrite Ev.
    + cbn [fst snd]. split_and!; (done || by eapply HK2).
  - exists m'. destruct ret as [rc|].
    + destruct Hr as (Hs & -> & Hne & Hat'). split_and!; [|done|done]. rewrite He. unfold return_if.
      by destruct (Z.eqb_spec (map_until f subs).1 0).
    + destruct Hr as (subs' & Hat' & Hs & E). rewrite E. by split_and!.
Qed.

(** What holds of all subnodes holds of each, and a recursion has the fuel for it. *)
Lemma below_fuel fuel (P : dtree → Prop) subs l v r :
  subs = l ++ v :: r → Forall P subs → ops_size (flat_map ops subs) <= 4 * Z.of_nat fuel →
  P v ∧ ops_size (ops v) <= 4 * Z.of_nat fuel.
Proof using Type.
  intros -> Hall. apply Forall_app in Hall as [_ [Hv _]%Forall_cons]. rewrite flat_map_app, ops_size_app. cbn [flat_map].
  rewrite ops_size_app. pose proof (ops_size_nonneg (flat_map ops l)). pose proof (ops_size_nonneg (flat_map ops r)). by split; [|lia].
Qed.
End until.

(** ** Sizes *)

(** A change of values by others of their length: names and sizes stay. *)
Lemma props_size_set props name v val :
  tree_prop props name = Some v → length v = length val →
  ops_size (map (prop_op (λ _, 0)) (set_prop props name val)) = ops_size (map (prop_op (λ _, 0)) props).
Proof.
  intros Hv Hl. destruct (prop_cases props name) as [Hn|(l & w & r & -> & Hn)].
  - by rewrite (tree_prop_none _ _ Hn) in Hv.
  - rewrite (tree_prop_some _ _ _ _ Hn) in Hv. injection Hv as ->. rewrite set_prop_some, !map_app, !ops_size_app by done.
    cbn [map ops_size foldr op_size prop_op fst snd]. by rewrite !item_size_prop, Hl.
Qed.

Lemma node_size nm props props' subs subs' :
  ops_size (map (prop_op (λ _, 0)) props') = ops_size (map (prop_op (λ _, 0)) props) →
  ops_size (flat_map ops subs') = ops_size (flat_map ops subs) →
  ops_size (ops (DTree nm props' subs')) = ops_size (ops (DTree nm props subs)).
Proof. intros Hp Hs. rewrite !ops_size_node. lia. Qed.

Lemma shift_prop_size delta props name :
  ops_size (map (prop_op (λ _, 0)) (shift_prop delta props name).2) = ops_size (map (prop_op (λ _, 0)) props).
Proof.
  unfold shift_prop. destruct (tree_prop props name) as [v|] eqn:Ev; [|done].
  destruct (Z.eqb_spec (Z.of_nat (length v)) 4); cbn [negb]; [|done]. cbv zeta. destruct (_ || _); [done|].
  apply (props_size_set _ _ v); [done|]. rewrite length_be32. lia.
Qed.

Lemma shift_props_size delta props :
  ops_size (map (prop_op (λ _, 0)) (shift_props delta props).2) = ops_size (map (prop_op (λ _, 0)) props).
Proof.
  unfold shift_props, or_absent. pose proof (shift_prop_size delta props (chars "phandle")) as H1.
  destruct (shift_prop delta props (chars "phandle")) as [rc1 ps1]. cbn [fst snd] in *. destruct (_ =? 0); [|done].
  by rewrite <- H1, <- (shift_prop_size delta ps1 (chars "linux,phandle")).
Qed.

Lemma shift_size delta t : ops_size (ops (shift_phandles delta t).2) = ops_size (ops t).
Proof.
  induction t as [nm props subs IH] using dtree_ind'. cbn [shift_phandles]. pose proof (shift_props_size delta props) as Hp.
  destruct (shift_props delta props) as [rc ps]. cbn [snd] in Hp. destruct (rc =? 0); [|by apply node_size].
  assert (ops_size (flat_map ops (map_until (shift_phandles delta) subs).2) = ops_size (flat_map ops subs)) as Hs.
  2: { destruct (map_until _ subs). by apply node_size. }
  induction IH as [|t subs Ht _ IH]; [done|]. cbn [map_until]. destruct (shift_phandles delta t) as [rc1 t'].
  destruct (map_until _ subs) as [rc2 subs']. cbn [snd] in *. destruct (rc1 =? 0); cbn [snd flat_map];
    rewrite !ops_size_app; lia.
Qed.

(** A value of four bytes. *)
Lemma be_value_word v : Z.of_nat (length v) = 4 → Forall is_u8 v → be32 (be_value v) = v ∧ is_u32 (be_value v).
Proof.
  destruct v as [|b0 [|b1 [|b2 [|b3 [|]]]]]; cbn [length]; try lia. rewrite !Forall_cons.
  intros _ (? & ? & ? & ? & _). by apply be32_be_value.
Qed.

(* ------------------------------------------------------------------ *)
(** * The shift, in memory *)

#[local] Open Scope string_scope.
Definition phandle_literals : list String.string := ["phandle"; "linux,phandle"].
#[local] Close Scope string_scope.

Section phandles.
Context `{Platform} (fdt size total r0 cpuid : Z) (rsv : list (Z * Z)).
#[local] Abbreviation node_at := (node_at fdt size total r0 cpuid rsv).
#[local] Abbreviation same := (same_outside fdt size).

(** A lookup of a word by name, in any case. *)
Lemma getprop_cases m c nm props subs off used s name :
  node_at m c (DTree nm props subs) off used → c_name m s name →
  match tree_prop props name with
  | None => fdt_getprop m fdt off s = Ok (0, - FDT_ERR_NOTFOUND)
  | Some v => ∃ l r, props = l ++ (name, v) :: r ∧ (name ∉ l.*1) ∧
      fdt_getprop m fdt off s = Ok (value_place fdt r0 rsv off nm l, Z.of_nat (length v))
  end.
Proof using Type.
  intros Hat Hs. destruct (node_mem _ _ _ _ _ _ _ _ _ _ _ Hat) as [Hmb Hwb]. rewrite (getprop_c_name _ _ _ _ _ Hmb Hwb Hs).
  destruct Hs as ((Hsb & _) & Hs0 & Hst & _). destruct (prop_cases props name) as [Hn|(l & v & r & -> & Hn)].
  - rewrite (tree_prop_none _ _ Hn). by apply (value_absent _ _ _ _ _ _ _ _ _ _ _ _ _ _ _ Hat Hn Hsb Hs0 ltac:(lia)).
  - rewrite (tree_prop_some _ _ _ _ Hn). exists l, r. split_and!; [done|done|].
    by apply (value_found _ _ _ _ _ _ _ _ _ _ _ _ _ _ _ _ _ Hat Hn Hsb Hs0 ltac:(lia)).
Qed.

(** A word in a property is read and written. *)
Lemma word_write m c nm l name v r subs off used i w :
  node_at m c (DTree nm (l ++ (name, v) :: r) subs) off used → (i + 4 <= length v)%nat → is_u32 w →
  let d := value_place fdt r0 rsv off nm l + Z.of_nat i in
  fdt32_ld m d = Ok (be_value (take 4 (drop i v))) ∧
  ∃ m', fdt32_st d w m = Ok m' ∧ same m m' ∧
    node_at m' c (DTree nm (l ++ (name, overwrite v i (be32 w)) :: r) subs) off used.
Proof using Type.
  intros Hat Hi Hw. destruct (value_here _ _ _ _ _ _ _ _ _ _ _ _ _ _ _ _ Hat) as (Hb & Hf & Hd & Ht & _ & _ & Hu & _).
  set (d := value_place fdt r0 rsv off nm l) in *. cbv zeta.
  destruct (be_value_word (take 4 (drop i v))) as [Ew Hwu].
  { rewrite length_take, length_drop. lia. }
  { by apply Forall_take, Forall_drop. }
  assert (v = take i v ++ take 4 (drop i v) ++ drop 4 (drop i v)) as Ev by (by rewrite take_drop, take_drop).
  assert (length (take i v) = i) as Eli by (rewrite length_take; lia).
  rewrite Ev, bytes_at_app, Eli in Hb. destruct Hb as [_ Hb]. apply bytes_at_app in Hb as [Hb _].
  destruct (value_write _ _ _ _ _ _ _ _ _ _ _ _ _ _ _ _ i (be32 w) Hat) as (Hat' & Hs & Hm); [rewrite length_be32; lia|apply be32_u8|].
  cbv zeta in Hm. rewrite length_be32 in Hm. fold d in Hat', Hs, Hm. split.
  - rewrite <- Ew in Hb. apply (fdt32_ld_bytes m _ _ Hb); [done|lia|lia].
  - exists (map_bytes (d + Z.of_nat i) (be32 w) m). split_and!; [apply fdt32_st_map; (done || lia)|done|done].
Qed.

Lemma phandle_add_offset_ok m c nm props subs off used s name delta :
  node_at m c (DTree nm props subs) off used → c_name m s name →
  ∃ m', overlay_phandle_add_offset fdt off s delta m = Ok ((shift_prop delta props name).1, m') ∧ same m m' ∧
    node_at m' c (DTree nm (shift_prop delta props name).2 subs) off used.
Proof using Type.
  intros Hat Hs. unfold overlay_phandle_add_offset, shift_prop. pose proof (getprop_cases _ _ _ _ _ _ _ _ _ Hat Hs) as Hg.
  destruct (tree_prop props name) as [v|].
  2: { rewrite (wbind_rd _ _ _ _ Hg). by exists m. }
  destruct Hg as (l & r & -> & Hn & Hg). rewrite (wbind_rd _ _ _ _ Hg). cbv iota beta.
  destruct (value_here _ _ _ _ _ _ _ _ _ _ _ _ _ _ _ _ Hat) as (_ & Hf & _).
  destruct (Z.eqb_spec (value_place fdt r0 rsv off nm l) 0); [lia|].
  destruct (Z.eqb_spec (Z.of_nat (length v)) 4) as [E4|]; cbn [negb]; [|by exists m]. cbv zeta.
  destruct (word_write _ _ _ _ _ _ _ _ _ _ 0 (u32 (be_value v + delta)) Hat ltac:(lia) ltac:(apply u32_range)) as (Hld & m' & Hst & Hs' & Hat').
  rewrite Z.add_0_r in Hld, Hst. rewrite drop_0, take_ge in Hld by lia. rewrite overwrite_all in Hat' by (rewrite length_be32; lia).
  rewrite (wbind_rd _ _ _ _ Hld). destruct (_ || _); [by exists m|]. cbn [fst snd]. exists m'.
  split_and!; [|done|by rewrite set_prop_some]. unfold wr. erewrite wbind_ok; [done|]. by rewrite Hst.
Qed.

(** The literals of the code, outside the tree. *)
Definition phandle_names (m : mem) : Prop := ∀ s, s ∈ phandle_literals → name_arg fdt size m (rodata s) (chars s).

Lemma phandle_names_same m m' : same m m' → phandle_names m → phandle_names m'.
Proof using Type. intros Hs Hl s Hin. eapply name_arg_same, Hl, Hin. done. Qed.

Lemma phandle_name m : phandle_names m → c_name m (rodata "phandle") (chars "phandle").
Proof using Type. intros Hl. by destruct (Hl _ (list_elem_of_here _ _)). Qed.
Lemma linux_name m : phandle_names m → c_name m (rodata "linux,phandle") (chars "linux,phandle").
Proof using Type. intros Hl. by destruct (Hl _ (list_elem_of_further _ _ _ (list_elem_of_here _ _))). Qed.

(** ** A node and all below it *)

Definition shifts (delta : Z) (t : dtree) : Prop := ∀ fuel m c off used,
  ops_size (ops t) <= 4 * Z.of_nat fuel → node_at m c t off used → phandle_names m →
  ∃ m', overlay_adjust_node_phandles fuel fdt off delta m = Ok ((shift_phandles delta t).1, m') ∧ same m m' ∧
    node_at m' c (shift_phandles delta t).2 off used.

Definition shift_child (fuel : nat) (delta child : Z) : W (option Z) :=
  ret ← overlay_adjust_node_phandles fuel fdt child delta; mret (return_if ret).

Lemma shift_children_ok fuel delta m c nm props subs off used :
  Forall (shifts delta) subs → ops_size (flat_map ops subs) <= 4 * Z.of_nat fuel →
  node_at m c (DTree nm props subs) off used → phandle_names m →
  ∃ m', fdt_for_each_subnode fdt off (shift_child fuel delta) m =
      Ok (return_if (map_until (shift_phandles delta) subs).1, m') ∧ same m m' ∧
    node_at m' c (DTree nm props (map_until (shift_phandles delta) subs).2) off used.
Proof using Type.
  intros Hall Hf Hat Hl.
  apply (for_each_until fdt size total r0 cpuid rsv (shift_phandles delta) same); [apply same_outside_refl|apply same_outside_trans|apply shift_size|done|].
  intros l v r mi Hin Hsi below place Hd. destruct (below_fuel fuel (shifts delta) subs l v r Hin Hall Hf) as [Hv Hfv].
  destruct (Hv fuel mi _ _ used Hfv Hd (phandle_names_same _ _ Hsi Hl)) as (m' & He & Hs' & Hat').
  exists m'. split_and!; [|done|done]. unfold shift_child. by rewrite (wbind_ok _ _ _ _ _ He).
Qed.

(** One of the names; then [k]. *)
Definition shift_step (off s delta : Z) (k : W Z) : W Z :=
  ret ← overlay_phandle_add_offset fdt off s delta;
  if negb (ret =? 0) && negb (ret =? - FDT_ERR_NOTFOUND) then mret ret else k.

Lemma shift_step_ok m c nm props subs off used s name delta k :
  node_at m c (DTree nm props subs) off used → c_name m s name →
  let '(rc, props') := or_absent (shift_prop delta props name) in
  ∃ m', shift_step off s delta k m = (if rc =? 0 then k else mret rc) m' ∧ same m m' ∧
    node_at m' c (DTree nm props' subs) off used.
Proof using Type.
  intros Hat Hs. destruct (phandle_add_offset_ok _ _ _ _ _ _ _ _ _ delta Hat Hs) as (m' & He & Hs' & Hat').
  unfold or_absent. destruct (shift_prop delta props name) as [rc props']. cbn [fst snd] in *. exists m'.
  split_and!; [|done|done]. unfold shift_step. rewrite (wbind_ok _ _ _ _ _ He).
  destruct (Z.eqb_spec rc (- FDT_ERR_NOTFOUND)) as [-> |]; [done|]. by destruct (rc =? 0).
Qed.

Lemma adjust_node_step fuel off delta :
  overlay_adjust_node_phandles (S fuel) fdt off delta =
  shift_step off (rodata "phandle") delta
    (shift_step off (rodata "linux,phandle") delta
      (or_return (fdt_for_each_subnode fdt off (shift_child fuel delta)) (mret 0))).
Proof using Type. done. Qed.

Lemma shifts_all delta t : shifts delta t.
Proof using Type.
  induction t as [nm props subs IH] using dtree_ind'. intros fuel m c off used Hf Hat Hl.
  rewrite ops_size_node in Hf. pose proof (item_size_pos (IBegin nm)).
  pose proof (ops_size_nonneg (map (prop_op (λ _, 0)) props)). pose proof (ops_size_nonneg (flat_map ops subs)).
  destruct fuel as [|fuel]; [lia|]. rewrite adjust_node_step. cbn [shift_phandles]. unfold shift_props.
  set (children := or_return (fdt_for_each_subnode fdt off (shift_child fuel delta)) (mret 0)).
  pose proof (shift_step_ok _ _ _ _ _ _ _ _ _ delta (shift_step off (rodata "linux,phandle") delta children) Hat (phandle_name m Hl)) as Hk1.
  destruct (or_absent (shift_prop delta props (chars "phandle"))) as [rc1 props1]. destruct Hk1 as (m1 & -> & Hs1 & Hat1).
  destruct (Z.eqb_spec rc1 0) as [-> |Hne1]; [|apply Z.eqb_neq in Hne1; rewrite Hne1; by exists m1].
  pose proof (phandle_names_same _ _ Hs1 Hl) as Hl1.
  pose proof (shift_step_ok _ _ _ _ _ _ _ _ _ delta children Hat1 (linux_name m1 Hl1)) as Hk2.
  destruct (or_absent (shift_prop delta props1 (chars "linux,phandle"))) as [rc2 props2]. destruct Hk2 as (m2 & -> & Hs2 & Hat2).
  assert (same m m2) as Hs02 by (intros x Hx; rewrite Hs2, Hs1; done).
  destruct (Z.eqb_spec rc2 0) as [-> |Hne2]; [|by exists m2].
  destruct (shift_children_ok fuel delta m2 c nm props2 subs off used IH ltac:(lia) Hat2 (phandle_names_same _ _ Hs2 Hl1))
    as (m' & He & Hs' & Hat').
  assert (same m m') as Hs by (intros x Hx; rewrite Hs', Hs02; done).
  destruct (map_until _ subs) as [rc subs']. cbn [fst snd] in *. exists m'. split_and!; [|done|done].
  unfold children, or_return. rewrite (wbind_ok _ _ _ _ _ He). unfold return_if. by destruct (Z.eqb_spec rc 0) as [-> |].
Qed.

Lemma adjust_local_phandles_ok m t used delta :
  node_at m [] t 0 used → phandle_names m →
  ∃ m', overlay_adjust_local_phandles fdt delta m = Ok ((shift_phandles delta t).1, m') ∧ same m m' ∧
    node_at m' [] (shift_phandles delta t).2 0 used.
Proof using Type.
  intros Hat Hl. unfold overlay_adjust_local_phandles, with_fuel. destruct (tree_fuel_node _ _ _ _ _ _ _ _ _ _ _ Hat) as (n & -> & Hn).
  apply shifts_all; [|done|done]. destruct t. pose proof (node_at_total _ _ _ _ _ _ _ _ _ _ _ _ _ Hat). lia.
Qed.

(** C11: [overlay_adjust_local_phandles] adds [delta] to the phandles of all nodes, in preorder, under
    both names of the property, and changes nothing else: every node and property of the
    tree stays where it is.  It stops at a phandle that is not four bytes long
    ([-FDT_ERR_BADPHANDLE]) or would be no phandle any more ([-FDT_ERR_NOPHANDLES]); the
    phandles up to there have been changed then. *)
Theorem overlay_adjust_local_phandles_spec m t used delta :
  node_at m [] t 0 used → phandle_names m →
  ∃ m', overlay_adjust_local_phandles fdt delta m = Ok ((shift_phandles delta t).1, m') ∧ same m m' ∧
    node_at m' [] (shift_phandles delta t).2 0 used.
Proof using Type. apply adjust_local_phandles_ok. Qed.
End phandles.

(* ------------------------------------------------------------------ *)
(** * Example *)

(** Two phandles, the second one [n]. *)
#[local] Open Scope string_scope.
Definition phandle_tree (m n : Z) : dtree :=
  DTree [] [] [DTree (chars "dev") [(chars "phandle", be32 m)] [DTree (chars "ref") [(chars "phandle", be32 n)] []]].
#[local] Close Scope string_scope.

(** There is nothing above the largest phandle; the first one has been moved by then. *)
Example shift_past_the_last :
  shift_phandles 5 (phandle_tree 1 FDT_MAX_PHANDLE) = (- FDT_ERR_NOPHANDLES, phandle_tree 6 FDT_MAX_PHANDLE).
Proof. vm_compute. reflexivity. Qed.

Lemma sample_phandle_names :
  @phandle_names overlay_platform over_addr 512 (two_trees sample_strings sample_base (phandle_tree 1 2)).
Proof.
  intros s. unfold phandle_literals. rewrite !elem_of_cons, elem_of_nil. intros [->|[->|[]]];
    (split; [apply memory_string; vm_compute; reflexivity|]);
    (split; [left; vm_compute; discriminate|by split]).
Qed.

Lemma overlay_adjust_local_phandles_spec_witness :
  ∃ m m' used, @overlay_adjust_local_phandles overlay_platform over_addr 5 m = Ok (0, m') ∧
    node_at over_addr 512 512 40 0 [(0, 0)] m' []
      (phandle_tree 6 7) 0 used.
Proof.
  destruct (two_trees_at sample_strings sample_base (phandle_tree 1 2)) as [_ Ho]; [vm_compute; reflexivity..|].
  destruct (@overlay_adjust_local_phandles_spec overlay_platform over_addr 512 512 40 0 [(0, 0)] _ _ _ 5 Ho
    sample_phandle_names) as (m' & He & _ & Hat).
  eexists _, m', _. split; [exact He|exact Hat].
Defined.
