(* ===== verification/FdtRefs.v ===== *)
(** References of an overlay to its own nodes, src/libfdt/fdt_overlay.c: the tree below
    __local_fixups__ says where in the overlay phandles are stored, and one walk over both
    trees, which share a buffer, changes them there. *)
From S2P Require Import Prelude Machine Crt0 SampleTree Fdt FdtRo FdtCheck FdtTree FdtLookup FdtPath FdtWrite FdtSw FdtRw FdtImage FdtBuild FdtFinish FdtRead FdtEdit FdtNode FdtEncode FdtChildren FdtPack FdtTreeEdit FdtPositions FdtInplace FdtOverlay FdtMerge FdtFragments FdtPhandles.
From stdpp Require Import base list gmap.
From Stdlib Require Import ZArith Lia.
From Stdlib Require String.
#[local] Open Scope Z_scope.

(* ------------------------------------------------------------------ *)
(** * On trees *)

(** Steps that may fail, one for each element of a list and its number: the error, and
    what has been made. *)
Definition fold_from {A B} (f : nat → A → B → Z * A) : nat → A → list B → Z * A :=
  fix go i a l :=
    match l with
    | [] => (0, a)
    | b :: l => let '(rc, a) := f i a b in if rc =? 0 then go (S i) a l else (rc, a)
    end.
Definition fold_until {A B} (f : A → B → Z * A) : A → list B → Z * A := fold_from (λ _, f) 0.

(** The words that a value consists of, a rest of less than four bytes left out. *)
Definition words_of (v : list Z) : list Z := map (λ i, be_value (take 4 (drop (4 * i) v))) (seq 0 (length v / 4)).

(** [g] changes the word at an offset of a value, those at some offsets. *)
Definition fix_word (g : Z → Z) (v : list Z) (o : Z) : list Z :=
  let i := Z.to_nat o in overwrite v i (be32 (g (be_value (take 4 (drop i v))))).
Definition fix_value (g : Z → Z) (v : list Z) (os : list Z) : list Z := foldl (fix_word g) v os.

(** A property of the fixups: the offsets of references in the property of its name. *)
Definition fix_prop (g : Z → Z) (props : list (list Z * list Z)) (p : list Z * list Z) : Z * list (list Z * list Z) :=
  if negb (Z.of_nat (length p.2) mod 4 =? 0) then (- FDT_ERR_BADOVERLAY, props)
  else
    match tree_prop props p.1 with
    | None => (- FDT_ERR_BADOVERLAY, props)
    | Some v => (0, set_prop props p.1 (fix_value g v (words_of p.2)))
    end.

(** A change of the first subnode that a name matches. *)
Definition fix_child (f : dtree → Z * dtree) (t : dtree) (name : list Z) : Z * dtree :=
  match pos_child ([], t) name with
  | Some (fr :: _, s) => let '(rc, s) := f s in (rc, plug1 s fr)
  | _ => (- FDT_ERR_BADOVERLAY, t)
  end.

(** What the fixups [fx] make of the node [t]. *)
Fixpoint fix_refs (g : Z → Z) (fx t : dtree) : Z * dtree :=
  let 'DTree _ fprops fsubs := fx in
  let 'DTree nm props subs := t in
  let '(rc, props) := fold_until (fix_prop g) props fprops in
  if rc =? 0 then fold_until (λ t v, fix_child (fix_refs g v) t (root_name v)) (DTree nm props subs) fsubs
  else (rc, DTree nm props subs).

(** What [overlay_update_local_references] makes of an overlay. *)
Definition fix_local (g : Z → Z) (u : dtree) : Z * dtree :=
  match tree_child u (chars "__local_fixups__") with Some fx => fix_refs g fx u | None => (0, u) end.

(** The references that [fx] lists lie inside the properties of [t], which the code does
    not check, and none is in a target's path. *)
Definition offset_inside (v : list Z) (o : Z) : bool := (0 <=? o) && (o + 4 <=? Z.of_nat (length v)).
Definition prop_inside (props : list (list Z * list Z)) (p : list Z * list Z) : bool :=
  negb (bool_decide (p.1 = chars "target-path")) &&
  match tree_prop props p.1 with Some v => forallb (offset_inside v) (words_of p.2) | None => true end.
Fixpoint refs_inside (fx t : dtree) : bool :=
  let 'DTree _ fprops fsubs := fx in
  let 'DTree _ props _ := t in
  forallb (prop_inside props) fprops &&
  forallb (λ v, match tree_child t (root_name v) with Some s => refs_inside v s | None => true end) fsubs.

(** No fixup is for the fixups themselves, and they are no fragment. *)
Definition not_for_itself (fx : dtree) : bool :=
  let 'DTree fnm _ fsubs := fx in
  forallb (λ v, negb (name_matches (root_name v) fnm) && negb (name_matches (chars "__overlay__") (root_name v))) fsubs.
Definition good_fixups (u : dtree) : bool :=
  match tree_child u (chars "__local_fixups__") with Some fx => not_for_itself fx && refs_inside fx u | None => true end.

(** ** Trees up to the bytes in their values *)

(** The values become zeros, except where a target is named. *)
Definition blank_value (name v : list Z) : list Z :=
  if bool_decide (name = chars "target-path") then v else replicate (length v) 0.
Definition blank (props : list (list Z * list Z)) : list (list Z * list Z) := map (λ p, (p.1, blank_value p.1 p.2)) props.
Fixpoint shape (t : dtree) : dtree := let 'DTree nm props subs := t in DTree nm (blank props) (map shape subs).
Definition alike (t t' : dtree) : Prop := shape t = shape t'.
#[export] Instance alike_equiv : Equivalence alike.
Proof. split; unfold alike; [done|by intros ? ?|intros ? ? ?; congruence]. Qed.

Lemma length_blank_value name v : length (blank_value name v) = length v.
Proof. unfold blank_value. case_bool_decide; [done|apply length_replicate]. Qed.

Lemma blank_prop props name : tree_prop (blank props) name = blank_value name <$> tree_prop props name.
Proof.
  unfold tree_prop, blank. induction props as [|[n v] props IH]; [done|]. cbn [map]. rewrite !filter_cons. cbn [fst snd].
  destruct (decide (n = name)) as [-> |]; done.
Qed.

Lemma blank_set props name v val :
  tree_prop props name = Some v → length v = length val → name ≠ chars "target-path" → blank (set_prop props name val) = blank props.
Proof.
  intros Hv Hl Hne. destruct (prop_cases props name) as [Hn|(l & w & r & -> & Hn)]; [by rewrite (tree_prop_none _ _ Hn) in Hv|].
  rewrite (tree_prop_some _ _ _ _ Hn) in Hv. injection Hv as ->. rewrite set_prop_some by done. unfold blank.
  rewrite !map_app. cbn [map fst snd]. unfold blank_value at 2 5. by rewrite !bool_decide_eq_false_2, Hl.
Qed.

Lemma root_name_shape t : root_name (shape t) = root_name t.
Proof. by destruct t. Qed.

Lemma shape_size t : ops_size (ops (shape t)) = ops_size (ops t).
Proof.
  induction t as [nm props subs IH] using dtree_ind'. cbn [shape]. apply node_size.
  - unfold blank. induction props as [|[n v] props IHp]; [done|]. cbn [map ops_size foldr op_size prop_op fst snd].
    rewrite !item_size_prop, length_blank_value. unfold ops_size in IHp. by rewrite IHp.
  - induction IH as [|t subs Ht _ IHs]; [done|]. cbn [map flat_map]. rewrite !ops_size_app. lia.
Qed.

Lemma alike_size t t' : alike t t' → ops_size (ops t) = ops_size (ops t').
Proof. intros H. by rewrite <- (shape_size t), <- (shape_size t'), H. Qed.
Lemma alike_root t t' : alike t t' → root_name t = root_name t'.
Proof. intros H. by rewrite <- (root_name_shape t), <- (root_name_shape t'), H. Qed.

Definition shape_frame (f : frame) : frame := Frame (f_name f) (blank (f_props f)) (map shape (f_left f)) (map shape (f_right f)).

Lemma shape_plug1 t f : shape (plug1 t f) = plug1 (shape t) (shape_frame f).
Proof. unfold plug1, shape_frame. cbn [shape f_name f_props f_left f_right]. by rewrite map_app. Qed.

Lemma alike_plug1 t t' f : alike t t' → alike (plug1 t f) (plug1 t' f).
Proof. unfold alike. intros H. by rewrite !shape_plug1, H. Qed.

Lemma child_from_shape name c nm props l r :
  child_from name c nm (blank props) (map shape l) (map shape r) =
  (λ '(cs, u), (match cs with f :: _ => shape_frame f :: c | [] => [] end, shape u)) <$> child_from name c nm props l r.
Proof.
  revert l. induction r as [|u r IH]; intros l; [done|]. cbn [map child_from]. rewrite root_name_shape.
  destruct (name_matches name (root_name u)); [done|]. specialize (IH (l ++ [u])). by rewrite map_app in IH.
Qed.

Lemma pos_child_alike t t' name f s :
  alike t t' → pos_child ([], t) name = Some ([f], s) → ∃ f' s', pos_child ([], t') name = Some ([f'], s') ∧ alike s s' ∧ shape_frame f = shape_frame f'.
Proof.
  destruct t as [nm props subs], t' as [nm' props' subs']. intros [= <- Hp Hs]. cbn [pos_child]. intros Hc.
  pose proof (child_from_shape name [] nm props [] subs) as E1. pose proof (child_from_shape name [] nm props' [] subs') as E2.
  rewrite Hp, Hs, E2, Hc in E1. destruct (pos_child_shape (DTree nm props' subs') name) as [E|(f' & s' & E & _)]; cbn [pos_child] in E.
  - by rewrite E in E1.
  - rewrite E in E1. exists f', s'. unfold alike. split; [done|]. cbn in E1. split; congruence.
Qed.

Lemma pos_child_none t t' name : alike t t' → pos_child ([], t) name = None → pos_child ([], t') name = None.
Proof.
  intros Ha Hn. destruct (pos_child_shape t' name) as [->|(f & s & E & _)]; [done|].
  destruct (pos_child_alike t' t name f s) as (f' & s' & E' & _); [by symmetry|done|]. by rewrite Hn in E'.
Qed.

(** ** What a change of references keeps *)

Lemma fold_from_keeps {A B} (I : A → Prop) (f : nat → A → B → Z * A) l : ∀ i a,
  (∀ i a b, b ∈ l → I a → I (f i a b).2) → I a → I (fold_from f i a l).2.
Proof.
  induction l as [|b l IH]; intros i a Hf Ha; [done|]. cbn [fold_from]. pose proof (Hf i a b (list_elem_of_here _ _) Ha) as Hb.
  destruct (f i a b) as [rc a']. destruct (rc =? 0); [|done]. apply IH; [|done]. intros j a'' b' Hin. apply Hf. by right.
Qed.

Lemma fold_from_app {A B} (f : nat → A → B → Z * A) l r : ∀ i a,
  (fold_from f i a l).1 = 0 → fold_from f i a (l ++ r) = fold_from f (i + length l) (fold_from f i a l).2 r.
Proof.
  induction l as [|b l IH]; intros i a; [cbn; by rewrite Nat.add_0_r|]. cbn [app fold_from length]. destruct (f i a b) as [rc a'].
  destruct (Z.eqb_spec rc 0); [|done]. intros. by rewrite IH, Nat.add_succ_comm.
Qed.

Lemma fix_word_length g v o : offset_inside v o = true → length (fix_word g v o) = length v.
Proof. unfold offset_inside, fix_word. intros. apply length_overwrite. rewrite length_be32. lia. Qed.

Lemma fix_value_length g os : ∀ v, forallb (offset_inside v) os = true → length (fix_value g v os) = length v.
Proof.
  induction os as [|o os IH]; intros v; [done|]. cbn [forallb fix_value foldl]. intros [Ho Hos]%andb_true_iff.
  fold (fix_value g (fix_word g v o) os). pose proof (fix_word_length g v o Ho) as El. rewrite IH; [done|].
  unfold offset_inside in *. by rewrite El.
Qed.

Lemma prop_inside_blank props props' p : blank props = blank props' → prop_inside props p = prop_inside props' p.
Proof.
  intros E. unfold prop_inside, offset_inside. f_equal. pose proof (blank_prop props p.1) as H1. rewrite E, blank_prop in H1.
  destruct (tree_prop props p.1) as [v|], (tree_prop props' p.1) as [v'|]; cbn in H1; try done. injection H1 as H1.
  assert (length v = length v') as -> by (by rewrite <- (length_blank_value p.1 v), <- H1, length_blank_value). done.
Qed.

Lemma fix_prop_blank g props p : prop_inside props p = true → blank (fix_prop g props p).2 = blank props.
Proof.
  unfold prop_inside, fix_prop. intros [Hne Hi]%andb_true_iff. apply negb_true_iff, bool_decide_eq_false_1 in Hne.
  destruct (negb _); [done|]. destruct (tree_prop props p.1) as [v|] eqn:E; [|done].
  eapply blank_set; [exact E|by rewrite fix_value_length|done].
Qed.

Lemma fix_props_blank g fprops props :
  forallb (prop_inside props) fprops = true → blank (fold_until (fix_prop g) props fprops).2 = blank props.
Proof.
  intros Hi. apply (fold_from_keeps (λ ps, blank ps = blank props)); [|done]. intros _ ps p Hp Eps. rewrite fix_prop_blank; [done|].
  rewrite forallb_forall in Hi. rewrite (prop_inside_blank _ props) by done. by apply Hi, list_elem_of_In.
Qed.

Lemma tree_child_alike t t' name :
  alike t t' → match tree_child t name with
               | Some s => ∃ s', tree_child t' name = Some s' ∧ alike s s'
               | None => tree_child t' name = None
               end.
Proof.
  intros Ha. unfold tree_child. destruct (pos_child_shape t name) as [E|(f & s & E & _)]; rewrite E; cbn [fmap option_fmap option_map snd].
  - by rewrite (pos_child_none t t').
  - destruct (pos_child_alike t t' name f s Ha E) as (f' & s' & -> & Hs & _). by exists s'.
Qed.

Lemma refs_inside_alike fx : ∀ t t', alike t t' → refs_inside fx t = refs_inside fx t'.
Proof.
  induction fx as [fnm fprops fsubs IH] using dtree_ind'. intros t t' Ha. pose proof (tree_child_alike t t') as Hc.
  destruct t as [nm props subs] eqn:Et, t' as [nm' props' subs'] eqn:Et'. rewrite <- Et, <- Et' in *. cbn [refs_inside].
  rewrite Et, Et'. cbn [refs_inside]. rewrite <- Et, <- Et'. f_equal.
  - assert (blank props = blank props') as E by (subst; by injection Ha). induction fprops as [|p fprops IHp]; [done|].
    cbn [forallb]. by rewrite (prop_inside_blank _ _ p E), IHp.
  - clear Et Et'. induction IH as [|v fsubs Hv _ IHs]; [done|]. cbn [forallb]. rewrite IHs. f_equal.
    specialize (Hc (root_name v) Ha). destruct (tree_child t (root_name v)) as [s|]; [|by rewrite Hc].
    destruct Hc as (s' & -> & Hs). by apply Hv.
Qed.

Lemma fix_child_alike f t name :
  (∀ s, tree_child t name = Some s → alike (f s).2 s) → alike (fix_child f t name).2 t.
Proof.
  unfold fix_child, tree_child. destruct (pos_child_shape t name) as [->|(fr & s & -> & <- & _)]; [done|].
  cbn [fmap option_fmap option_map snd]. intros Hf. specialize (Hf s eq_refl). destruct (f s) as [rc s']. by apply alike_plug1.
Qed.

Lemma fix_refs_alike g fx : ∀ t, refs_inside fx t = true → alike (fix_refs g fx t).2 t.
Proof.
  induction fx as [fnm fprops fsubs IH] using dtree_ind'. intros t Hi. destruct t as [nm props subs] eqn:Et. cbn [refs_inside] in Hi.
  rewrite <- Et in *. apply andb_true_iff in Hi as [Hp Hs]. rewrite Et at 1. cbn [fix_refs].
  pose proof (fix_props_blank g fprops props Hp) as Hb. destruct (fold_until (fix_prop g) props fprops) as [rc props']. cbn [snd] in Hb.
  assert (alike (DTree nm props' subs) t) as Ha by (unfold alike; subst t; cbn [shape]; by rewrite Hb).
  destruct (rc =? 0); [|done]. apply (fold_from_keeps (λ t', alike t' t)); [|done]. intros _ t' v Hv Ht'.
  rewrite forallb_forall in Hs. specialize (Hs v (proj1 (list_elem_of_In _ _) Hv)). rewrite Forall_forall in IH.
  etransitivity; [|exact Ht']. apply fix_child_alike. intros s Es. apply (IH v Hv).
  pose proof (tree_child_alike t' t (root_name v) Ht') as Hc. rewrite Es in Hc. destruct Hc as (s' & Es' & Has). rewrite Es' in Hs.
  by rewrite (refs_inside_alike v s s').
Qed.

(** ** What the walk stays in *)

(** [P] is a set of trees that the walk over [fx] does not leave. *)
Record closed (P : dtree → Prop) (fx : dtree) : Prop := {
  cl_props : ∀ nm props props' subs, P (DTree nm props subs) → blank props' = blank props → P (DTree nm props' subs);
  cl_child : ∀ t v f s s', v ∈ node_children fx → P t → pos_child ([], t) (root_name v) = Some ([f], s) → alike s' s → P (plug1 s' f);
}.

Lemma alike_closed t fx : closed (λ t', alike t' t) fx.
Proof.
  split.
  - intros nm props props' subs <- Hb. unfold alike. cbn [shape]. by rewrite Hb.
  - intros t' v f s s' _ Ht Hc Hs. destruct (pos_child_shape t' (root_name v)) as [E|(f' & s1 & E & Ef & _)]; [by rewrite E in Hc|].
    rewrite E in Hc. injection Hc as -> ->. rewrite <- Ht, <- Ef. by apply alike_plug1.
Qed.

(** A root with other values outside the subnode [fx]. *)
Definition around (nm : list Z) (props : list (list Z * list Z)) (l : list dtree) (fx t : dtree) : Prop :=
  ∃ props' l' r', t = DTree nm props' (l' ++ fx :: r') ∧ blank props' = blank props ∧ map shape l' = map shape l.

Lemma around_closed fx nm props l : not_for_itself fx = true → closed (around nm props l fx) fx.
Proof.
  intros Hn. split.
  - intros nm1 props1 props2 subs (props' & l' & r' & [= -> -> ->] & Hb & Hl) Hb'. exists props2, l', r'. split_and!; [done|congruence|done].
  - intros t v f s s' Hv (props' & l' & r' & -> & Hb & Hl) Hc Hs. cbn [pos_child] in Hc.
    pose proof (child_from_spec (root_name v) [] nm props' [] (l' ++ fx :: r')) as Hsp. rewrite Hc in Hsp.
    destruct Hsp as (r1 & w & r2 & El & [= -> ->] & _ & Hw). unfold plug1. cbn [f_name f_props f_left f_right app].
    assert (w ≠ fx) as Hne.
    { intros ->. destruct fx as [fnm fprops fsubs]. cbn [not_for_itself node_children root_name] in *.
      rewrite forallb_forall in Hn. specialize (Hn v (proj1 (list_elem_of_In _ _) Hv)). by rewrite Hw in Hn. }
    apply app_eq_inv in El as [([|x k] & -> & E2)|([|x k] & -> & E2)]; injection E2 as -> E2; [done| |done|].
    + subst r2. exists props', (r1 ++ s' :: k), r'. rewrite <- app_assoc. split_and!; [done|done|]. by rewrite <- Hl, !map_app, !map_cons, Hs.
    + subst r'. exists props', l', (k ++ s' :: r2). by rewrite <- app_assoc.
Qed.

Lemma fix_child_closed (P : dtree → Prop) fx f v t :
  closed P fx → v ∈ node_children fx → P t → (∀ s, tree_child t (root_name v) = Some s → alike (f s).2 s) →
  P (fix_child f t (root_name v)).2.
Proof.
  intros Hcl Hv Ht. unfold fix_child, tree_child. destruct (pos_child_shape t (root_name v)) as [->|(fr & s & E & _)]; [done|].
  rewrite E. cbn [fmap option_fmap option_map snd]. intros Hf. specialize (Hf s eq_refl). pose proof (cl_child _ _ Hcl t v fr s (f s).2 Hv Ht E Hf).
  by destruct (f s) as [rc s'].
Qed.

Lemma fix_refs_closed (P : dtree → Prop) g fx t : closed P fx → P t → refs_inside fx t = true → P (fix_refs g fx t).2.
Proof.
  intros Hcl Ht Hi. destruct fx as [fnm fprops fsubs] eqn:Efx, t as [nm props subs] eqn:Et. cbn [fix_refs refs_inside] in *.
  rewrite <- Et in Hi. apply andb_true_iff in Hi as [Hip His]. pose proof (fix_props_blank g fprops props Hip) as Hb.
  destruct (fold_until (fix_prop g) props fprops) as [rc props']. cbn [snd] in Hb.
  pose proof (cl_props _ _ Hcl nm props props' subs Ht Hb) as HP. destruct (rc =? 0); [|done].
  assert (alike (DTree nm props' subs) t) as Ha by (unfold alike; subst t; cbn [shape]; by rewrite Hb).
  apply (fold_from_keeps (λ ti, P ti ∧ alike ti t)); [|done]. intros _ ti v Hv [HPi Hai].
  assert (∀ s, tree_child ti (root_name v) = Some s → alike (fix_refs g v s).2 s) as Hs.
  { intros s Es. apply fix_refs_alike. rewrite forallb_forall in His. specialize (His v (proj1 (list_elem_of_In _ _) Hv)).
    pose proof (tree_child_alike ti t (root_name v) Hai) as Hc. rewrite Es in Hc. destruct Hc as (s' & E' & Has). rewrite E' in His.
    by rewrite (refs_inside_alike v s s'). }
  split; [by apply (fix_child_closed P (DTree fnm fprops fsubs))|]. etransitivity; [by apply fix_child_alike|done].
Qed.

(** The fixups of a tree that is like [u] are those of [u]. *)
Definition keeps (u u' : dtree) : Prop :=
  alike u' u ∧ tree_child u' (chars "__local_fixups__") = tree_child u (chars "__local_fixups__").

#[export] Instance keeps_preorder : PreOrder keeps.
Proof. split; unfold keeps; [done|]. intros u1 u2 u3 [H1 E1] [H2 E2]. split; [by etransitivity|congruence]. Qed.

Lemma keeps_good u u' : keeps u u' → good_fixups u = true → good_fixups u' = true.
Proof.
  unfold good_fixups. intros [Ha ->]. destruct (tree_child u _) as [fx|]; [|done]. by rewrite (refs_inside_alike fx u' u).
Qed.

Lemma around_child nm props l fx t name :
  existsb (λ t, name_matches name (root_name t)) l = false → name_matches name (root_name fx) = true →
  around nm props l fx t → tree_child t name = Some fx.
Proof.
  intros Hl Hfx (props' & l' & r' & -> & _ & Es).
  assert (existsb (λ t, name_matches name (root_name t)) l' = false) as Hl'.
  { rewrite <- Hl. clear -Es. revert l' Es. induction l as [|x l IH]; intros [|x' l']; [done..|]. cbn [map existsb]. intros [= Ex El].
    by rewrite (alike_root x' x Ex), (IH l'). }
  unfold tree_child. cbn [pos_child]. pose proof (child_from_spec name [] nm props' [] (l' ++ fx :: r')) as Hs.
  destruct (child_from name [] nm props' [] (l' ++ fx :: r')) as [p|].
  - destruct Hs as (r1 & u & r2 & E & -> & Hr1 & Hu). cbn [fmap option_fmap option_map snd]. f_equal.
    apply app_eq_inv in E as [([|x k] & -> & E2)|([|x k] & -> & E2)]; injection E2 as -> E2; try done.
    + exfalso. rewrite existsb_app in Hl'. cbn [existsb] in Hl'. by rewrite Hu, orb_true_r in Hl'.
    + exfalso. rewrite existsb_app in Hr1. cbn [existsb] in Hr1. by rewrite Hfx, orb_true_r in Hr1.
  - exfalso. rewrite existsb_app in Hs. cbn [existsb] in Hs. by rewrite Hfx, orb_true_r in Hs.
Qed.

Lemma fix_local_keeps g u : good_fixups u = true → keeps u (fix_local g u).2.
Proof.
  unfold good_fixups, fix_local. destruct (tree_child u (chars "__local_fixups__")) as [fx|] eqn:E; [|done].
  intros [Hself Hin]%andb_true_iff. split; [by apply fix_refs_alike|]. rewrite E. destruct u as [nm props subs].
  unfold tree_child in E. cbn [pos_child] in E. pose proof (child_from_spec (chars "__local_fixups__") [] nm props [] subs) as Hs.
  destruct (child_from _ [] nm props [] subs) as [p|]; [|done]. destruct Hs as (r1 & w & r2 & -> & -> & Hr1 & Hw). injection E as ->.
  apply (around_child nm props r1); [done|done|].
  apply fix_refs_closed; [by apply around_closed|by exists props, r1, r2|done].
Qed.

(* ------------------------------------------------------------------ *)
(** * In memory *)

(** What is done to a reference: [g] replaces the word there, or it would change nothing. *)
Definition changes_by (fix_ref : Z → W unit) (g : Z → Z) : Prop := ∀ m p w,
  fdt32_ld m p = Ok w → is_u32 w →
  is_u32 (g w) ∧ (fix_ref p m = wr (fdt32_st p (g w)) m ∨ g w = w ∧ fix_ref p m = Ok (tt, m)).

Lemma add_changes delta : changes_by (add_to_ref delta) (λ w, u32 (w + delta)).
Proof. intros m p w Hw _. split; [apply u32_range|]. left. unfold add_to_ref. by rewrite (wbind_rd _ _ _ _ Hw). Qed.

Definition replace_word (w' v w : Z) : Z := if w =? v then w' else w.
Lemma replace_changes w' v : is_u32 w' → changes_by (replace_ref w' v) (replace_word w' v).
Proof.
  intros Hw' m p w Hw Hu. unfold replace_ref, replace_word. rewrite (wbind_rd _ _ _ _ Hw).
  destruct (w =? v); [by split; [|left]|by split; [|right]].
Qed.

Section refs.
Context `{Platform} (fdt size total r0 cpuid : Z) (rsv : list (Z * Z)).
#[local] Abbreviation node_at := (node_at fdt size total r0 cpuid rsv).
#[local] Abbreviation stays := (stays fdt size total r0 cpuid rsv).
#[local] Abbreviation same := (same_outside fdt size).
#[local] Abbreviation value_place := (value_place fdt r0 rsv).

(** ** Two nodes of one tree *)

(** Whichever of the trees [P] stands at [ct], [fx] lies at [offx]. *)
Definition beside (P : dtree → Prop) (ct : list frame) (fx : dtree) (offx : Z) : Prop :=
  ∀ t, P t → ∃ cf, plug cf fx = plug ct t ∧ node_place cf = offx.

Lemma beside_here P ct fx offx m t off used : beside P ct fx offx → P t → node_at m ct t off used → stays fx offx used m.
Proof using Type.
  intros Hb Ht Hat. destruct (Hb t Ht) as (cf & E & <-). destruct (holds_node _ _ _ _ _ _ _ _ _ _ _ Hat) as [_ Hh].
  exists cf. apply holds_whole in Hh. rewrite <- E in Hh. exact (proj1 (holds_whole _ _ _ _ _ _ _ _ cf fx) Hh).
Qed.

Lemma beside_below P ct nm props l v r offx :
  beside P ct (DTree nm props (l ++ v :: r)) offx → beside P ct v (offx + sub_place nm props l).
Proof using Type.
  intros Hb t Ht. destruct (Hb t Ht) as (cf & E & <-). exists (Frame nm props l r :: cf). split; [exact E|apply node_place_below].
Qed.

Lemma beside_child (P : dtree → Prop) ct f s fx offx :
  beside P ct fx offx → (∀ s', alike s' s → P (plug1 s' f)) → beside (λ s', alike s' s) (f :: ct) fx offx.
Proof using Type. intros Hb Hs s' Ha. apply (Hb _ (Hs s' Ha)). Qed.

(** ** The references of one property *)

Lemma fix_word_ok fix_ref g m ct nm l n v r subs off used o :
  changes_by fix_ref g → node_at m ct (DTree nm (l ++ (n, v) :: r) subs) off used → offset_inside v o = true →
  ∃ m', fix_ref (u32 (value_place off nm l + o)) m = Ok (tt, m') ∧ same m m' ∧
    node_at m' ct (DTree nm (l ++ (n, fix_word g v o) :: r) subs) off used.
Proof using Type.
  intros Hg Hat [Ho Hi]%andb_true_iff. destruct (value_here _ _ _ _ _ _ _ _ _ _ _ _ _ _ _ _ Hat) as (_ & Hf & Hd & Ht & _ & _ & Hu8 & _).
  rewrite u32_small by (unfold is_u32; lia). unfold fix_word. set (i := Z.to_nat o).
  assert (value_place off nm l + o = value_place off nm l + Z.of_nat i) as -> by lia.
  set (w := be_value (take 4 (drop i v))).
  assert (is_u32 w) as Hwu.
  { apply be_value_word; [rewrite length_take, length_drop; lia|by apply Forall_take, Forall_drop]. }
  destruct (word_write _ _ _ _ _ _ _ _ _ _ _ _ _ _ _ _ i 0 Hat ltac:(lia) ltac:(done)) as (Hld & _).
  destruct (Hg m _ w Hld Hwu) as [Hgu [He|[Egw He]]].
  - destruct (word_write _ _ _ _ _ _ _ _ _ _ _ _ _ _ _ _ i (g w) Hat ltac:(lia) Hgu) as (_ & m' & Hst & Hs & Hat').
    exists m'. rewrite He. split_and!; [|done|done]. unfold wr. by rewrite Hst.
  - exists m. split_and!; [done|done|]. replace (overwrite v i (be32 (g w))) with v; [done|]. rewrite Egw. unfold w.
    destruct (be_value_word (take 4 (drop i v))) as [-> _]; [rewrite length_take, length_drop; lia|by apply Forall_take, Forall_drop|].
    unfold overwrite. rewrite length_take, length_drop, Nat.min_l, <- drop_drop, take_drop, take_drop by lia. done.
Qed.

Lemma read_word m d v i :
  bytes_at m d v → d mod 4 = 0 → Forall is_u8 v → (4 * i + 4 <= length v)%nat →
  fdt32_ld_ m (d + 4 * Z.of_nat i) = Ok (be_value (take 4 (drop (4 * i) v))).
Proof using Type.
  intros Hb Hd Hu Hi. destruct (be_value_word (take 4 (drop (4 * i) v))) as [Ew Hwu].
  { rewrite length_take, length_drop. lia. }
  { by apply Forall_take, Forall_drop. }
  apply fdt32_ld__bytes; [|done|Z.div_mod_to_equations; lia]. rewrite Ew.
  assert (v = take (4 * i) v ++ take 4 (drop (4 * i) v) ++ drop 4 (drop (4 * i) v)) as Ev by (by rewrite take_drop, take_drop).
  rewrite Ev, bytes_at_app, length_take in Hb. destruct Hb as [_ Hb]. apply bytes_at_app in Hb as [Hb _].
  by replace (d + 4 * Z.of_nat i) with (d + Z.of_nat ((4 * i) `min` length v)) by lia.
Qed.

Lemma fixup_refs_ok fix_ref g P m ct nm l n v r subs off used fnm fl offs fr fsubs offx :
  changes_by fix_ref g → beside P ct (DTree fnm (fl ++ (n, offs) :: fr) fsubs) offx →
  (∀ v', length v' = length v → P (DTree nm (l ++ (n, v') :: r) subs)) →
  node_at m ct (DTree nm (l ++ (n, v) :: r) subs) off used → forallb (offset_inside v) (words_of offs) = true →
  ∃ m', fixup_refs fix_ref (value_place off nm l) (value_place offx fnm fl) (Z.of_nat (length offs / 4)) m = Ok (tt, m') ∧
    same m m' ∧ node_at m' ct (DTree nm (l ++ (n, fix_value g v (words_of offs)) :: r) subs) off used.
Proof using Type.
  intros Hg Hbe HP. unfold fixup_refs, words_of. rewrite Nat2Z.id. set (word := λ i, be_value (take 4 (drop (4 * i) offs))).
  assert (∀ rest j v' m, (j + rest = length offs / 4)%nat → length v' = length v →
    node_at m ct (DTree nm (l ++ (n, v') :: r) subs) off used → forallb (offset_inside v') (map word (seq j rest)) = true →
    ∃ m', wloop (S rest) (λ i, if i <? Z.of_nat (length offs / 4) then
        o ← rd (λ m, fdt32_ld_ m (u32 (value_place offx fnm fl + 4 * i)));
        fix_ref (u32 (value_place off nm l + o));; mret (inl (i + 1)) else mret (inr tt)) (Z.of_nat j) m = Ok (tt, m') ∧
      same m m' ∧ node_at m' ct (DTree nm (l ++ (n, fix_value g v' (map word (seq j rest))) :: r) subs) off used) as Hgo.
  2: { intros Hat Hi. by apply (Hgo _ 0%nat v m). }
  induction rest as [|rest IH]; intros j v' m' Ej Hl Hat Hi; rewrite wloop_step.
  - destruct (Z.ltb_spec (Z.of_nat j) (Z.of_nat (length offs / 4))); [lia|]. by exists m'.
  - destruct (Z.ltb_spec (Z.of_nat j) (Z.of_nat (length offs / 4))); [|lia]. cbn [seq map forallb] in Hi.
    apply andb_true_iff in Hi as [Ho Hi].
    destruct (beside_here _ _ _ _ _ _ _ _ Hbe (HP v' Hl) Hat) as (cf & Hfx).
    destruct (value_here _ _ _ _ _ _ _ _ _ _ _ _ _ _ _ _ Hfx) as (Hb & Hf & Hd & Ht & _ & Hal & Hu8 & _).
    assert (4 * j + 4 <= length offs)%nat as Hj by (pose proof (Nat.Div0.mul_div_le (length offs) 4); lia).
    assert (fdt32_ld_ m' (u32 (value_place offx fnm fl + 4 * Z.of_nat j)) = Ok (word j)) as Hw.
    { rewrite u32_small by (unfold is_u32; lia). by apply read_word. }
    rewrite (wbind_rd _ _ _ _ Hw).
    destruct (fix_word_ok fix_ref g m' ct nm l n v' r subs off used (word j) Hg Hat Ho) as (m1 & He & Hs1 & Hat1).
    rewrite (wbind_ok _ _ _ _ _ He).
    assert (length (fix_word g v' (word j)) = length v') as El by (by apply fix_word_length).
    destruct (IH (S j) (fix_word g v' (word j)) m1) as (m2 & He2 & Hs2 & Hat2); [lia|congruence|done| |].
    { unfold offset_inside in *. by rewrite El. }
    exists m2. replace (Z.of_nat j + 1) with (Z.of_nat (S j)) by lia. split_and!; [exact He2| |exact Hat2].
    by eapply same_outside_trans.
Qed.

(** A name in the tree. *)
Lemma inside_name m ct t off used s n :
  node_at m ct t off used → inside fdt total m s (n ++ [0]) → Forall (λ b, b ≠ 0) n → c_name m s n.
Proof using Type.
  intros (strings & xs & zs & ys & Him & _ & _ & _ & _ & _ & Hsz & _) (Hb & H0 & H1) Hnz. rewrite length_app in H1. cbn [length] in H1.
  destruct (im_buffer _ _ _ _ _ _ _ _ _ Him) as [_ _ [? _] ? _]. pose proof (im_fits _ _ _ _ _ _ _ _ _ Him).
  apply bytes_at_app in Hb as [Hb Hz]. apply bytes_at_cons in Hz as [Hz _]. unfold c_name, cstr_at, INT_MAX in *. split_and!; (done || lia).
Qed.

Lemma fixup_property_ok fix_ref g P m ct nm props subs off used fnm fl n offs fr fsubs offx :
  changes_by fix_ref g → beside P ct (DTree fnm (fl ++ (n, offs) :: fr) fsubs) offx →
  (∀ props', blank props' = blank props → P (DTree nm props' subs)) →
  node_at m ct (DTree nm props subs) off used → prop_inside props (n, offs) = true →
  ∃ m', fixup_property fix_ref fdt off (offx + prop_place fnm fl) m = Ok (return_if (fix_prop g props (n, offs)).1, m') ∧
    same m m' ∧ node_at m' ct (DTree nm (fix_prop g props (n, offs)).2 subs) off used.
Proof using Type.
  intros Hg Hbe HP Hat Hi. destruct (beside_here _ _ _ _ _ _ _ _ Hbe (HP _ eq_refl) Hat) as (cf & Hfx).
  destruct (value_here _ _ _ _ _ _ _ _ _ _ _ _ _ _ _ _ Hfx) as (_ & Hf & _ & _ & _ & _ & _ & Hlen).
  destruct (getprop_place _ _ _ _ _ _ _ _ _ _ _ _ _ Hfx fl n offs fr eq_refl) as (s & Hgo & _ & Hs & Hnz).
  rewrite !Z.add_assoc in Hgo. fold (value_place offx fnm fl) in Hgo.
  unfold fixup_property, fix_prop, prop_inside in *. cbn [fst snd] in *. rewrite (wbind_rd _ _ _ _ Hgo). cbv iota beta.
  destruct (Z.eqb_spec (value_place offx fnm fl) 0); [lia|]. rewrite u32_small by (unfold is_u32; lia).
  apply andb_true_iff in Hi as [Hne Hi]. apply negb_true_iff, bool_decide_eq_false_1 in Hne.
  destruct (negb _); [by exists m|]. pose proof (getprop_cases _ _ _ _ _ _ _ _ _ _ _ _ _ _ _ Hat (inside_name _ _ _ _ _ _ _ Hfx Hs Hnz)) as Hv.
  rewrite s32_small, <- (Nat2Z.inj_div _ 4) by (unfold is_s32; Z.div_mod_to_equations; lia).
  destruct (tree_prop props n) as [v|].
  2: { rewrite (wbind_rd _ _ _ _ Hv). cbv iota beta. rewrite Z.eqb_refl. by exists m. }
  destruct Hv as (l & r & -> & Hn & Hv). rewrite (wbind_rd _ _ _ _ Hv). cbv iota beta.
  destruct (value_here _ _ _ _ _ _ _ _ _ _ _ _ _ _ _ _ Hat) as (_ & Hft & _). destruct (Z.eqb_spec (value_place off nm l) 0); [lia|].
  destruct (fixup_refs_ok fix_ref g P m ct nm l n v r subs off used fnm fl offs fr fsubs offx Hg Hbe) as (m' & He & Hs' & Hat'); [|done|done|].
  { intros v' Hl. apply HP. unfold blank. rewrite !map_app. cbn [map fst snd]. unfold blank_value at 2 5. by rewrite !bool_decide_eq_false_2, Hl. }
  exists m'. rewrite (wbind_ok _ _ _ _ _ He). cbn [fst snd]. rewrite set_prop_some by done. by split_and!.
Qed.

(** ** Loops *)

(** A loop that runs a step for every element of a list, [R] relating what has been made
    to memory, where the loop has the rule [Hrule]. *)
Lemma fold_loop {A B} (f : nat → A → B → Z * A) (R : A → mem → Prop) (V : mem → Prop) (run : W (option Z)) (body : Z → W (option Z))
    (place : list B → Z) a l m :
  (∀ (J : list B → mem → Prop) (Q : Z → mem → Prop), (∀ l m, J l m → V m) → J [] m →
     (∀ l1 b l2 m, l = l1 ++ b :: l2 → J l1 m → ∃ ret m', body (place l1) m = Ok (ret, m') ∧
        match ret with Some rc => Q rc m' | None => J (l1 ++ [b]) m' end) →
     ∃ ret m', run m = Ok (ret, m') ∧ match ret with Some rc => Q rc m' | None => J l m' end) →
  (∀ a m, R a m → V m) → R a m →
  (∀ l1 b l2 a1 m, l = l1 ++ b :: l2 → R a1 m → ∃ m', body (place l1) m = Ok (return_if (f (length l1) a1 b).1, m') ∧ R (f (length l1) a1 b).2 m') →
  ∃ m', run m = Ok (return_if (fold_from f 0 a l).1, m') ∧ R (fold_from f 0 a l).2 m'.
Proof using Type.
  intros Hrule HS Ha Hbody.
  destruct (Hrule (λ l1 mi, ∃ a1, fold_from f 0 a l1 = (0, a1) ∧ R a1 mi)
    (λ rc mi, rc = (fold_from f 0 a l).1 ∧ rc ≠ 0 ∧ R (fold_from f 0 a l).2 mi)) as (ret & m' & He & Hr).
  - intros l1 mi (a1 & _ & H1). by apply (HS a1).
  - by exists a.
  - intros l1 b l2 mi El (a1 & E1 & H1). destruct (Hbody l1 b l2 a1 mi El H1) as (m' & He & H2).
    exists (return_if (f (length l1) a1 b).1), m'. split; [done|].
    assert (∀ r, fold_from f 0 a (l1 ++ b :: r) = if (f (length l1) a1 b).1 =? 0 then fold_from f (S (length l1)) (f (length l1) a1 b).2 r else f (length l1) a1 b) as Ef.
    { intros r. rewrite fold_from_app by (by rewrite E1). rewrite E1. cbn [snd fold_from Nat.add]. by destruct (f (length l1) a1 b). }
    unfold return_if. rewrite El, !Ef. destruct (Z.eqb_spec (f (length l1) a1 b).1 0); [|done]. exists (f (length l1) a1 b).2. split; [done|exact H2].
  - exists m'. destruct ret as [rc|].
    + destruct Hr as (-> & Hne & H1). split; [|done]. rewrite He. unfold return_if. by destruct (Z.eqb_spec (fold_from f 0 a l).1 0).
    + destruct Hr as (a1 & E1 & H1). by rewrite E1.
Qed.

Lemma fixup_properties_ok fix_ref g P m ct nm props subs off used fnm fprops fsubs offx :
  changes_by fix_ref g → beside P ct (DTree fnm fprops fsubs) offx →
  (∀ props', blank props' = blank props → P (DTree nm props' subs)) →
  node_at m ct (DTree nm props subs) off used → forallb (prop_inside props) fprops = true →
  let '(rc, props') := fold_until (fix_prop g) props fprops in
  ∃ m', fdt_for_each_property_offset fdt offx (fixup_property fix_ref fdt off) m = Ok (return_if rc, m') ∧
    same m m' ∧ node_at m' ct (DTree nm props' subs) off used.
Proof using Type.
  intros Hg Hbe HP Hat Hi.
  destruct (fold_loop (λ _, fix_prop g) (λ ps mi, blank ps = blank props ∧ same m mi ∧ node_at mi ct (DTree nm ps subs) off used)
    (stays (DTree fnm fprops fsubs) offx used) (fdt_for_each_property_offset fdt offx (fixup_property fix_ref fdt off))
    (fixup_property fix_ref fdt off) (λ l, offx + prop_place fnm l) props fprops m) as (m' & He & _ & Hs & Hat').
  - intros J Q HJ H0 Hbody. destruct (beside_here _ _ _ _ _ _ _ _ Hbe (HP _ eq_refl) Hat) as (cf & Hfx).
    apply (for_each_property_stays fdt size total r0 cpuid rsv J Q _ _ fnm fprops fsubs offx used); [by exists cf|done|].
    intros l n v r mi El _ HJi. destruct (Hbody l (n, v) r mi El HJi) as (ret & m' & He & Hr). exists ret, m'. split; [done|].
    destruct ret; [done|]. split; [by eapply HJ|done].
  - intros ps mi (Eb & _ & Hi'). by apply (beside_here _ _ _ _ _ _ _ _ Hbe (HP _ Eb) Hi').
  - by split_and!.
  - intros l [n offs] r ps mi El (Eb & Hsi & Hati). rewrite El in Hbe.
    assert (prop_inside ps (n, offs) = true) as Hin.
    { rewrite (prop_inside_blank _ props) by done. rewrite El, forallb_app in Hi. cbn [forallb] in Hi. by repeat apply andb_true_iff in Hi as [? Hi]. }
    destruct (fixup_property_ok fix_ref g P mi ct nm ps subs off used fnm l n offs r fsubs offx Hg Hbe) as (m' & He & Hs' & Hat');
      [intros ps' Eb'; apply HP; congruence|done|done|].
    exists m'. split_and!; [done|by rewrite fix_prop_blank|by eapply same_outside_trans|done].
  - unfold fold_until. destruct (fold_from _ 0 props fprops). by exists m'.
Qed.

(** ** A node and all below it *)

Definition fixes (fix_ref : Z → W unit) (g : Z → Z) (fx : dtree) : Prop := ∀ fuel P m ct t off offx used,
  ops_size (ops fx) <= 4 * Z.of_nat fuel → closed P fx → beside P ct fx offx → P t → node_at m ct t off used →
  refs_inside fx t = true →
  ∃ m', fixup_node_refs fix_ref fuel fdt off offx m = Ok ((fix_refs g fx t).1, m') ∧ same m m' ∧
    node_at m' ct (fix_refs g fx t).2 off used.

Definition fix_subnode (fix_ref : Z → W unit) (fuel : nat) (tree_node fixup_child : Z) : W (option Z) :=
  '(fixup_child_name, _) ← rd (fun m => fdt_get_name m fdt fixup_child);
  tree_child ← rd (fun m => fdt_subnode_offset m fdt tree_node fixup_child_name);
  if tree_child =? - FDT_ERR_NOTFOUND then mret (Some (- FDT_ERR_BADOVERLAY))
  else if tree_child <? 0 then mret (Some tree_child)
  else ret ← fixup_node_refs fix_ref fuel fdt tree_child fixup_child; mret (return_if ret).

Lemma fix_subnode_ok fix_ref g fuel P m ct t off used fnm fprops l v r offx :
  let fx := DTree fnm fprops (l ++ v :: r) in
  fixes fix_ref g v → ops_size (ops v) <= 4 * Z.of_nat fuel →
  closed P fx → beside P ct fx offx → P t → node_at m ct t off used →
  match tree_child t (root_name v) with Some s => refs_inside v s | None => true end = true →
  let '(rc, t') := fix_child (fix_refs g v) t (root_name v) in
  ∃ m', fix_subnode fix_ref fuel off (offx + sub_place fnm fprops l) m = Ok (return_if rc, m') ∧ same m m' ∧ node_at m' ct t' off used ∧ P t'.
Proof using Type.
  cbv zeta. intros Hv Hf Hcl Hbe Ht Hat Hi. unfold fix_subnode, fix_child.
  destruct (beside_here _ _ _ _ _ _ _ _ Hbe Ht Hat) as (cf & Hfx).
  pose proof (node_at_down _ _ _ _ _ _ _ _ _ _ _ _ _ Hfx l v r eq_refl) as Hvx. pose proof (beside_below _ _ _ _ _ _ _ _ Hbe) as Hbv.
  destruct v as [vn vprops vsubs] eqn:Ev. destruct (name_here _ _ _ _ _ _ _ _ _ _ _ _ _ Hvx) as (s & Hg & Hs & Hnz).
  rewrite (wbind_rd _ _ _ _ Hg). cbv iota beta. rewrite <- Ev in *. replace (root_name v) with vn in * by (by subst v).
  destruct (holds_node _ _ _ _ _ _ _ _ _ _ _ Hat) as [Eoff Hh].
  pose proof (position_subnode _ _ _ _ _ _ _ _ _ _ _ Hh (inside_name _ _ _ _ _ _ _ Hvx Hs Hnz)) as Hsub.
  change (pos_place (ct, t)) with (node_place ct) in Hsub. rewrite <- Eoff in Hsub. rewrite (wbind_rd _ _ _ _ Hsub).
  rewrite (pos_child_context ct t). unfold tree_child in Hi.
  destruct (pos_child_shape t vn) as [E|(f & w & E & Ef & _)]; rewrite E in *; cbn [fmap option_fmap option_map from_option snd app] in *.
  { rewrite Z.eqb_refl. exists m. by split_and!. }
  unfold pos_place. cbn [fst]. pose proof (ops_size_nonneg (ops_before (f :: ct))) as Hct. fold (node_place (f :: ct)) in Hct.
  destruct (Z.eqb_spec (node_place (f :: ct)) (- FDT_ERR_NOTFOUND)); [unfold FDT_ERR_NOTFOUND in *; lia|].
  destruct (Z.ltb_spec (node_place (f :: ct)) 0); [lia|].
  assert (∀ s', alike s' w → P (plug1 s' f)) as HP.
  { intros s' Hs'. apply (cl_child _ _ Hcl t v f w s'); [apply elem_of_app; right; left|done|by subst v|done]. }
  assert (node_at m (f :: ct) w (node_place (f :: ct)) used) as Hw.
  { subst t. exact (proj1 (holds_whole _ _ _ _ _ _ _ _ (f :: ct) w) (proj2 (holds_whole _ _ _ _ _ _ _ _ ct _) Hh)). }
  destruct (Hv fuel (λ s', alike s' w) m (f :: ct) w (node_place (f :: ct)) (offx + sub_place fnm fprops l) used Hf)
    as (m' & He & Hs' & Hat'); [apply alike_closed|by eapply beside_child|done|done|done|].
  pose proof (fix_refs_alike g v w Hi) as Ha. destruct (fix_refs g v w) as [rc w']. cbn [fst snd] in *.
  exists m'. rewrite (wbind_ok _ _ _ _ _ He). split_and!; [done|done| |by apply HP].
  by eapply (base_up fdt size total r0 cpuid rsv).
Qed.

Lemma fixup_node_step fix_ref fuel off offx :
  fixup_node_refs fix_ref (S fuel) fdt off offx =
  or_return (fdt_for_each_property_offset fdt offx (fixup_property fix_ref fdt off))
    (or_return (fdt_for_each_subnode fdt offx (fix_subnode fix_ref fuel off)) (mret 0)).
Proof using Type. done. Qed.

Lemma fix_subnodes_ok fix_ref g fuel P m ct t off used fnm fprops fsubs offx :
  let fx := DTree fnm fprops fsubs in
  Forall (fixes fix_ref g) fsubs → ops_size (flat_map ops fsubs) <= 4 * Z.of_nat fuel →
  closed P fx → beside P ct fx offx → P t → node_at m ct t off used →
  forallb (λ v, match tree_child t (root_name v) with Some s => refs_inside v s | None => true end) fsubs = true →
  let '(rc, t') := fold_until (λ t v, fix_child (fix_refs g v) t (root_name v)) t fsubs in
  ∃ m', fdt_for_each_subnode fdt offx (fix_subnode fix_ref fuel off) m = Ok (return_if rc, m') ∧ same m m' ∧ node_at m' ct t' off used.
Proof using Type.
  cbv zeta. intros Hall Hf Hcl Hbe Ht Hat Hi.
  destruct (fold_loop (λ _ t v, fix_child (fix_refs g v) t (root_name v)) (λ ti mi, alike ti t ∧ P ti ∧ same m mi ∧ node_at mi ct ti off used)
    (stays (DTree fnm fprops fsubs) offx used) (fdt_for_each_subnode fdt offx (fix_subnode fix_ref fuel off))
    (fix_subnode fix_ref fuel off) (λ l, offx + sub_place fnm fprops l) t fsubs m) as (m' & He & _ & _ & Hs & Hat').
  - intros J Q HJ H0 Hbody. destruct (beside_here _ _ _ _ _ _ _ _ Hbe Ht Hat) as (cf & Hfx).
    apply (for_each_subnode_stays fdt size total r0 cpuid rsv J Q _ _ fnm fprops fsubs offx used); [by exists cf|done|].
    intros l v r mi El _ HJi. destruct (Hbody l v r mi El HJi) as (ret & m' & He & Hr). exists ret, m'. split; [done|].
    destruct ret; [done|]. split; [by eapply HJ|done].
  - intros ti mi (_ & HPi & _ & Hi'). by apply (beside_here _ _ _ _ _ _ _ _ Hbe HPi Hi').
  - by split_and!.
  - intros l v r ti mi El (Ha & HPi & Hsi & Hati). destruct (below_fuel fuel (fixes fix_ref g) fsubs l v r El Hall Hf) as [Hv Hfv].
    assert (match tree_child ti (root_name v) with Some s => refs_inside v s | None => true end = true) as Hin.
    { rewrite El, forallb_app in Hi. cbn [forallb] in Hi. apply andb_true_iff in Hi as [_ [Hin _]%andb_true_iff].
      pose proof (tree_child_alike ti t (root_name v) Ha) as Hc. destruct (tree_child ti (root_name v)) as [s|]; [|done].
      destruct Hc as (s' & E' & Has). rewrite E' in Hin. by rewrite (refs_inside_alike v s s'). }
    rewrite El in Hcl, Hbe.
    pose proof (fix_subnode_ok fix_ref g fuel P mi ct ti off used fnm fprops l v r offx Hv Hfv Hcl Hbe HPi Hati Hin) as Hk.
    assert (alike (fix_child (fix_refs g v) ti (root_name v)).2 ti) as Ha'.
    { apply fix_child_alike. intros s Es. apply fix_refs_alike. by rewrite Es in Hin. }
    destruct (fix_child (fix_refs g v) ti (root_name v)) as [rc t']. destruct Hk as (m' & He & Hs' & Hat' & HP'). cbn [fst snd] in *.
    exists m'. split_and!; [done|by etransitivity|done|by eapply same_outside_trans|done].
  - unfold fold_until. destruct (fold_from _ 0 t fsubs). by exists m'.
Qed.

Lemma fixes_all fix_ref g fx : changes_by fix_ref g → fixes fix_ref g fx.
Proof using Type.
  intros Hg. induction fx as [fnm fprops fsubs IH] using dtree_ind'. intros fuel P m ct t off offx used Hf Hcl Hbe Ht Hat Hi.
  rewrite ops_size_node in Hf. pose proof (item_size_pos (IBegin fnm)).
  pose proof (ops_size_nonneg (map (prop_op (λ _, 0)) fprops)). pose proof (ops_size_nonneg (flat_map ops fsubs)).
  destruct fuel as [|fuel]; [lia|]. rewrite fixup_node_step. destruct t as [nm props subs] eqn:Et. cbn [fix_refs refs_inside] in *.
  rewrite <- Et in Hi. apply andb_true_iff in Hi as [Hip His].
  assert (∀ props', blank props' = blank props → P (DTree nm props' subs)) as HP by (intros props'; by apply (cl_props _ _ Hcl)).
  pose proof (fixup_properties_ok fix_ref g P m ct nm props subs off used fnm fprops fsubs offx Hg Hbe HP Hat Hip) as Hprops.
  pose proof (fix_props_blank g fprops props Hip) as Hb. destruct (fold_until (fix_prop g) props fprops) as [rc props']. cbn [snd] in Hb.
  destruct Hprops as (m1 & He1 & Hs1 & Hat1). unfold or_return at 1. rewrite (wbind_ok _ _ _ _ _ He1). unfold return_if.
  destruct (Z.eqb_spec rc 0) as [-> |Hne]; [|by exists m1].
  assert (alike (DTree nm props' subs) t) as Ha by (unfold alike; subst t; cbn [shape]; by rewrite Hb).
  pose proof (fix_subnodes_ok fix_ref g fuel P m1 ct (DTree nm props' subs) off used fnm fprops fsubs offx IH ltac:(lia) Hcl Hbe (HP _ Hb) Hat1) as Hsubs.
  destruct (fold_until _ (DTree nm props' subs) fsubs) as [rc t'].
  destruct Hsubs as (m2 & He2 & Hs2 & Hat2).
  { rewrite forallb_forall in His |- *. intros v Hv. specialize (His v Hv).
    pose proof (tree_child_alike _ _ (root_name v) Ha) as Hc. destruct (tree_child (DTree nm props' subs) (root_name v)) as [s|]; [|done].
    destruct Hc as (s' & E' & Has). rewrite E' in His. by rewrite (refs_inside_alike v s s'). }
  exists m2. unfold or_return. rewrite (wbind_ok _ _ _ _ _ He2). cbn [fst snd]. unfold return_if.
  split_and!; [by destruct (Z.eqb_spec rc 0) as [-> |]|by eapply same_outside_trans|done].
Qed.

(** ** All references of an overlay *)

Lemma around_beside fx nm props l : beside (around nm props l fx) [] fx (node_place [Frame nm props l []]).
Proof using Type.
  intros t (props' & l' & r' & -> & Hb & Hl). exists [Frame nm props' l' r']. split; [done|].
  pose proof (shape_size (DTree nm props' l')) as E1. pose proof (shape_size (DTree nm props l)) as E2.
  cbn [shape] in E1, E2. rewrite Hb, Hl, E2, !ops_size_node in E1.
  rewrite !node_place_below. unfold sub_place, prop_place, node_ops. cbn [ops_size foldr op_size].
  fold (ops_size (map (prop_op (λ _, 0)) props)) (ops_size (map (prop_op (λ _, 0)) props')). lia.
Qed.

(** The walk from the root, whichever change it makes. *)
Lemma local_fixups_ok fix_ref g m u used s :
  changes_by fix_ref g → node_at m [] u 0 used → c_name m s (chars "/__local_fixups__") → good_fixups u = true →
  match tree_child u (chars "__local_fixups__") with
  | None => fdt_path_offset m fdt s = Ok (- FDT_ERR_NOTFOUND)
  | Some fx => ∃ offx m', fdt_path_offset m fdt s = Ok offx ∧ 0 <= offx ∧
      with_fuel fdt (λ fuel, fixup_node_refs fix_ref fuel fdt 0 offx) m = Ok ((fix_refs g fx u).1, m') ∧ same m m' ∧
      node_at m' [] (fix_refs g fx u).2 0 used
  end.
Proof using Type.
  intros Hg Hat Hs Hgood. destruct (holds_node _ _ _ _ _ _ _ _ _ _ _ Hat) as [_ Hh].
  pose proof (position_path _ _ _ _ _ _ _ _ _ _ _ Hh Hs eq_refl) as Hp.
  change (components (chars "/__local_fixups__")) with [chars "__local_fixups__"] in Hp. cbn [descend] in Hp.
  unfold good_fixups, tree_child in *. destruct (pos_child_shape u (chars "__local_fixups__")) as [E|(f & fx & E & Ef & _)];
    rewrite E in *; cbn [fmap option_fmap option_map snd from_option] in *; [done|].
  apply andb_true_iff in Hgood as [Hself Hin]. exists (node_place [f]). destruct f as [nm props l r]. unfold plug1 in Ef.
  cbn [f_name f_props f_left f_right] in Ef. unfold with_fuel. destruct (tree_fuel_node _ _ _ _ _ _ _ _ _ _ _ Hat) as (n & -> & Hn).
  destruct (fixes_all fix_ref g fx Hg (S n) (around nm props l fx) m [] u 0 (node_place [Frame nm props l r]) used)
    as (m' & He & Hs' & Hat'); [|by apply around_closed|exact (around_beside fx nm props l)|by exists props, l, r|done|done|].
  - destruct u as [unm uprops usubs]. injection Ef as -> -> Ef. pose proof (node_at_total _ _ _ _ _ _ _ _ _ _ _ _ _ Hat) as Htot.
    rewrite ops_size_node, <- Ef, flat_map_app, ops_size_app in Htot. cbn [flat_map] in Htot. rewrite ops_size_app in Htot.
    pose proof (ops_size_nonneg (flat_map ops l)). pose proof (ops_size_nonneg (flat_map ops r)).
    pose proof (ops_size_nonneg (map (prop_op (λ _, 0)) uprops)). pose proof (item_size_pos (IBegin unm)). lia.
  - exists m'. split_and!; [exact Hp|apply ops_size_nonneg|done|done|done].
Qed.

Lemma update_local_references_ok m u used delta :
  node_at m [] u 0 used → c_name m (rodata "/__local_fixups__") (chars "/__local_fixups__") → good_fixups u = true →
  let '(rc, u') := fix_local (λ w, u32 (w + delta)) u in
  ∃ m', overlay_update_local_references fdt delta m = Ok (rc, m') ∧ same m m' ∧ node_at m' [] u' 0 used.
Proof using Type.
  intros Hat Hs Hgood. unfold overlay_update_local_references, fix_local.
  pose proof (local_fixups_ok _ _ m u used _ (add_changes delta) Hat Hs Hgood) as Hl.
  destruct (tree_child u (chars "__local_fixups__")) as [fx|].
  2: { rewrite (wbind_rd _ _ _ _ Hl). by exists m. }
  destruct Hl as (offx & m' & Hp & H0 & He & Hs' & Hat'). rewrite (wbind_rd _ _ _ _ Hp). destruct (Z.ltb_spec offx 0); [lia|].
  destruct (fix_refs _ fx u) as [rc u']. by exists m'.
Qed.

Lemma update_conflicting_references_ok m u used w v :
  node_at m [] u 0 used → c_name m (rodata "/__local_fixups__") (chars "/__local_fixups__") → good_fixups u = true → is_u32 w →
  let '(rc, u') := fix_local (replace_word w v) u in
  ∃ m', overlay_update_local_conflicting_references fdt w v m = Ok (rc, m') ∧ same m m' ∧ node_at m' [] u' 0 used.
Proof using Type.
  intros Hat Hs Hgood Hw. unfold overlay_update_local_conflicting_references, fix_local.
  pose proof (local_fixups_ok _ _ m u used _ (replace_changes w v Hw) Hat Hs Hgood) as Hl.
  destruct (tree_child u (chars "__local_fixups__")) as [fx|].
  2: { rewrite (wbind_rd _ _ _ _ Hl). by exists m. }
  destruct Hl as (offx & m' & Hp & H0 & He & Hs' & Hat'). rewrite (wbind_rd _ _ _ _ Hp).
  destruct (Z.eqb_spec offx (- FDT_ERR_NOTFOUND)); [unfold FDT_ERR_NOTFOUND in *; lia|].
  destruct (Z.ltb_spec offx 0); [lia|]. destruct (fix_refs _ fx u) as [rc u']. by exists m'.
Qed.

(** C12: [overlay_update_local_references] adds [delta] to the references that the tree below
    __local_fixups__ lists, wherever they lie in their properties, and changes nothing
    else; it does nothing if there is no such tree.  It ends with [-FDT_ERR_BADOVERLAY]
    where a list of offsets is no list of words, or where the overlay has not got a node
    or a property that is listed; the references up to there have been changed then.  The
    references must lie inside their properties, which is not checked. *)
Theorem overlay_update_local_references_spec m u used delta :
  node_at m [] u 0 used → c_name m (rodata "/__local_fixups__") (chars "/__local_fixups__") → good_fixups u = true →
  let '(rc, u') := fix_local (λ w, u32 (w + delta)) u in
  ∃ m', overlay_update_local_references fdt delta m = Ok (rc, m') ∧ same m m' ∧ node_at m' [] u' 0 used ∧ alike u' u.
Proof using Type.
  intros Hat Hs Hgood. pose proof (update_local_references_ok m u used delta Hat Hs Hgood) as Hr.
  destruct (fix_local_keeps (λ w, u32 (w + delta)) u Hgood) as [Ha _]. destruct (fix_local _ u) as [rc u'].
  destruct Hr as (m' & He & Hs' & Hat'). by exists m'.
Qed.
End refs.

(* ------------------------------------------------------------------ *)
(** * Examples *)

(** A reference [w] in the second word of a property, and the fixup for it, at [o]. *)
#[local] Open Scope string_scope.
Definition fixup_tree (w o : Z) : dtree :=
  let node l := DTree (chars "fragment@0") [] [DTree (chars "__overlay__") l []] in
  DTree [] []
    [node [(chars "ref", be32 9 ++ be32 w)]; DTree (chars "__local_fixups__") [] [node [(chars "ref", be32 o)]]].
#[local] Close Scope string_scope.

Lemma overlay_update_local_references_spec_witness :
  ∃ m m' used, @overlay_update_local_references overlay_platform over_addr 5 m = Ok (0, m') ∧
    node_at over_addr 512 512 40 0 [(0, 0)] m' [] (fixup_tree 6 4) 0 used.
Proof.
  destruct (two_trees_at sample_strings sample_base (fixup_tree 1 4)) as [_ Ho]; [vm_compute; reflexivity..|].
  pose proof (@overlay_update_local_references_spec overlay_platform over_addr 512 512 40 0 [(0, 0)] _ _ _ 5 Ho) as Hr.
  change (fix_local (λ w, u32 (w + 5)) (fixup_tree 1 4)) with (0, fixup_tree 6 4) in Hr. destruct Hr as (m' & He & _ & Hat & _).
  - split; [apply memory_string; vm_compute; reflexivity|by split_and!].
  - vm_compute. reflexivity.
  - eexists _, m', _. split; [exact He|exact Hat].
Defined.

(** The offset is not compared with the length of the property: the offset 8 is that of the
    tag behind it, FDT_END_NODE, and adding to this one breaks the tree.  The result is 0. *)
Example fixup_offset_unchecked :
  let m := two_trees sample_strings sample_base (fixup_tree 1 8) in
  fdt_check_full m over_addr 512 = Ok 0 ∧
  match @overlay_update_local_references overlay_platform over_addr 5 m with
  | Ok (rc, m') => rc = 0 ∧ fdt_check_full m' over_addr 512 = Ok (- FDT_ERR_BADSTRUCTURE)
  | _ => False
  end.
Proof. vm_compute. by split_and!. Qed.
