(* ===== verification/FdtConflicts.v ===== *)
(** Phandles that both trees define, src/libfdt/fdt_overlay.c: where a fragment will meet
    a node of the base that has a phandle, the overlay's node takes that phandle, so that
    the merge does not break references in the base, and so do the overlay's references
    to the node. *)
From S2P Require Import Prelude Machine Crt0 SampleTree Fdt FdtRo FdtCheck FdtTree FdtLookup FdtPath FdtWrite FdtSw FdtRw FdtImage FdtBuild FdtFinish FdtRead FdtEdit FdtNode FdtEncode FdtChildren FdtPack FdtTreeEdit FdtPositions FdtInplace FdtOverlay FdtMerge FdtFragments FdtPhandles FdtRefs.
From stdpp Require Import base list gmap.
From Stdlib Require Import ZArith Lia.
From Stdlib Require String.
#[local] Open Scope Z_scope.

(* ------------------------------------------------------------------ *)
(** * On trees *)

(** A word replaces a property of four bytes. *)
Definition put_word_prop (w : Z) (props : list (list Z * list Z)) (name : list Z) : list (list Z * list Z) :=
  match tree_prop props name with
  | Some v => if Z.of_nat (length v) =? 4 then set_prop props name (be32 w) else props
  | None => props
  end.

(** The node, with its phandles replaced. *)
Definition put_phandles (w : Z) (u : dtree) : dtree :=
  let 'DTree nm props subs := u in
  DTree nm (put_word_prop w (put_word_prop w props (chars "phandle")) (chars "linux,phandle")) subs.

(** A node in a tree, by the numbers of the subnodes on the way to it, the last one
    first. *)
Definition nth_child (q : position) (i : nat) : option position :=
  let '(c, DTree nm props subs) := q in
  u ← subs !! i; Some (Frame nm props (take i subs) (drop (S i) subs) :: c, u).
Fixpoint at_path (p : list nat) (t : dtree) : option position :=
  match p with [] => Some ([], t) | i :: p => q ← at_path p t; nth_child q i end.

(** The node at [p] of the overlay [o] will be merged into the node [t]: it gets the
    phandle of [t], and so do all references to it. *)
Definition share_here (t : dtree) (p : list nat) (o : dtree) : Z * dtree :=
  match at_path p o with
  | Some (c, u) =>
      if negb (tree_phandle t =? 0) && negb (tree_phandle u =? 0)
      then fix_local (replace_word (tree_phandle t) (tree_phandle u)) (plug c (put_phandles (tree_phandle t) u))
      else (0, o)
  | None => (0, o)
  end.

(** The same below it, where [t] has the subnodes, too.  What the node and those below it
    are called is what [u] says. *)
Fixpoint share_phandles (u t : dtree) (p : list nat) (o : dtree) : Z * dtree :=
  let 'DTree _ _ usubs := u in
  let '(rc, o) := share_here t p o in
  if rc =? 0 then
    fold_from (λ i o v, match tree_child t (root_name v) with Some s => share_phandles v s (i :: p) o | None => (0, o) end)
      0 o usubs
  else (rc, o).
Definition share_child (t : dtree) (p : list nat) (i : nat) (o v : dtree) : Z * dtree :=
  match tree_child t (root_name v) with Some s => share_phandles v s (i :: p) o | None => (0, o) end.

(** The fragment [i] for the base [t]: nothing where it has no target. *)
Definition share_fragment (t : dtree) (i : nat) (o : dtree) : Z * dtree :=
  match at_path [i] o with
  | Some (c, frag) =>
      match pos_child ([], frag) (chars "__overlay__") with
      | Some (f :: _, u) =>
          match overlay_target frag t with
          | inl (_, v) => share_phandles u v [length (f_left f); i] o
          | inr err => (if err =? - FDT_ERR_NOTFOUND then 0 else err, o)
          end
      | _ => (0, o)
      end
  | None => (0, o)
  end.
Definition share_fragments (t o : dtree) : Z * dtree :=
  fold_from (λ i o (_ : dtree), share_fragment t i o) 0 o (node_children o).

(** ** Paths *)

Lemma at_path_plug p t : ∀ c u, at_path p t = Some (c, u) → plug c u = t.
Proof.
  induction p as [|i p IH]; cbn [at_path]; intros c u; [by intros [= <- <-]|].
  destruct (at_path p t) as [[c1 [nm props subs]]|]; [|done]. cbn [mbind option_bind nth_child].
  destruct (subs !! i) as [v|] eqn:Ei; [|done]. cbn [mbind option_bind]. intros [= <- <-].
  rewrite <- (IH c1 _ eq_refl). unfold plug. cbn [foldl]. unfold plug1 at 2. cbn [f_name f_props f_left f_right].
  by rewrite take_drop_middle.
Qed.

Lemma at_path_below p t c nm props l v r :
  at_path p t = Some (c, DTree nm props (l ++ v :: r)) → at_path (length l :: p) t = Some (Frame nm props l r :: c, v).
Proof.
  cbn [at_path]. intros ->. cbn [mbind option_bind nth_child]. rewrite list_lookup_middle by done. cbn [mbind option_bind].
  by rewrite take_app_length, cons_middle, app_assoc, drop_app_length' by (rewrite length_app; cbn; lia).
Qed.

Lemma blank_size props : props_size (blank props) = props_size props.
Proof.
  unfold props_size, blank. induction props as [|[n v] props IH]; [done|]. cbn [map ops_size foldr op_size prop_op fst snd].
  rewrite !item_size_prop, length_blank_value. unfold ops_size in IH. by rewrite IH.
Qed.

Lemma alike_sizes nm nm' props props' subs subs' :
  alike (DTree nm props subs) (DTree nm' props' subs') → props_size props = props_size props' ∧ sub_sizes subs = sub_sizes subs'.
Proof.
  intros [= _ Hp Hs]. split; [by rewrite <- (blank_size props), Hp, blank_size|]. unfold sub_sizes.
  rewrite <- (map_ext _ _ shape_size subs), <- (map_ext _ _ shape_size subs'), <- !(map_map shape (λ t, ops_size (ops t))).
  by rewrite Hs.
Qed.

(** A tree that differs in values has the same paths, and its nodes the same places. *)
Lemma at_path_alike t t' p : ∀ c u, alike t' t → at_path p t = Some (c, u) →
  ∃ c' u', at_path p t' = Some (c', u') ∧ alike u' u ∧ node_place c' = node_place c.
Proof.
  intros c u Ha. revert c u. induction p as [|i p IH]; cbn [at_path]; intros c u; [intros [= <- <-]; by exists [], t'|].
  destruct (at_path p t) as [[c1 [nm props subs]]|]; [|done]. destruct (IH c1 _ eq_refl) as (c1' & [nm' props' subs'] & -> & Ha1 & Ep).
  cbn [mbind option_bind nth_child]. destruct (subs !! i) as [v|] eqn:Ei; [|done]. cbn [mbind option_bind]. intros [= <- <-].
  pose proof Ha1 as [= -> Hb Hs]. assert (shape <$> subs' !! i = Some (shape v)) as Ei'.
  { rewrite <- list_lookup_fmap. change (fmap shape subs') with (map shape subs'). rewrite Hs.
    change (map shape subs) with (fmap shape subs). by rewrite list_lookup_fmap, Ei. }
  destruct (subs' !! i) as [v'|]; [|done]. injection Ei' as Ei'. cbn [mbind option_bind]. do 2 eexists. split_and!; [done|done|].
  rewrite !node_place_below, Ep. destruct (alike_sizes _ _ _ _ _ _ Ha1) as [Hps Hss]. f_equal. apply sub_sizes_place; [done|].
  unfold sub_sizes in *. change (@map dtree Z) with (@fmap list _ dtree Z) in *. by rewrite !fmap_take, Hss.
Qed.

(** ** What sharing phandles keeps *)

(** The subnode [i] of the root is not the one that [name] finds. *)
Definition outside (name : list Z) (o : dtree) (i : nat) : bool :=
  existsb (name_matches name) (take i (sub_names o)) || negb (from_option (name_matches name) false (sub_names o !! i)).
Definition local_fixups : list Z := chars "__local_fixups__".

Lemma alike_plug c : ∀ u u', alike u' u → alike (plug c u') (plug c u).
Proof. unfold plug. induction c as [|f c IH]; intros u u' H; [done|]. cbn [foldl]. by apply IH, alike_plug1. Qed.

Lemma alike_names t t' : alike t' t → sub_names t' = sub_names t.
Proof.
  destruct t as [nm props subs], t' as [nm' props' subs']. intros [= _ _ Hs]. cbn [sub_names].
  rewrite <- (map_ext _ _ root_name_shape subs), <- (map_ext _ _ root_name_shape subs'), <- !(map_map shape root_name). by rewrite Hs.
Qed.

Lemma put_word_blank w props name : name ≠ chars "target-path" → blank (put_word_prop w props name) = blank props.
Proof.
  intros Hne. unfold put_word_prop. destruct (tree_prop props name) as [v|] eqn:Ev; [|done].
  destruct (Z.eqb_spec (Z.of_nat (length v)) 4); [|done]. eapply blank_set; [exact Ev| |done]. rewrite length_be32. lia.
Qed.

Lemma put_phandles_alike w u : alike (put_phandles w u) u.
Proof. destruct u as [nm props subs]. unfold alike. cbn [put_phandles shape]. by rewrite !put_word_blank. Qed.

Lemma child_from_other name nm props nm' props' a b l u u' r :
  existsb (λ t, name_matches name (root_name t)) l = true ∨ name_matches name (root_name u) = false → root_name u' = root_name u →
  snd <$> child_from name [] nm props a (l ++ u' :: r) = snd <$> child_from name [] nm' props' b (l ++ u :: r).
Proof.
  intros Hn Er. revert a b. induction l as [|x l IH]; intros a b; cbn [app child_from existsb] in *.
  - destruct Hn as [Hn|Hn]; [done|]. rewrite Er, Hn. apply child_from_snd.
  - destruct (name_matches name (root_name x)); [done|]. apply IH. by destruct Hn; [left|right].
Qed.

Lemma existsb_names name l : existsb (name_matches name) (map root_name l) = existsb (λ t, name_matches name (root_name t)) l.
Proof. generalize (name_matches name). intros f. induction l as [|x l IH]; [done|]. cbn [map existsb]. by rewrite IH. Qed.

Lemma path_keeps_child name p o i : ∀ c u u', at_path p o = Some (c, u) → last p = Some i → outside name o i = true → root_name u' = root_name u →
  tree_child (plug c u') name = tree_child o name.
Proof.
  induction p as [|j p IH]; [done|]. cbn [at_path]. intros c u u' Hp Hl Ho Er.
  destruct (at_path p o) as [[c1 [nm props subs]]|] eqn:E; [|done]. cbn [mbind option_bind nth_child] in Hp.
  destruct (subs !! j) as [v|] eqn:Ej; [|done]. cbn [mbind option_bind] in Hp. injection Hp as <- <-. destruct p as [|k p].
  - injection E as <- ->. injection Hl as ->. unfold outside in Ho. cbn [sub_names] in Ho.
    change (map root_name subs) with (root_name <$> subs) in Ho. rewrite list_lookup_fmap, Ej, <- fmap_take in Ho. cbn [fmap option_fmap option_map from_option] in Ho.
    unfold plug. cbn [foldl]. unfold plug1, tree_child. cbn [f_name f_props f_left f_right pos_child].
    rewrite (child_from_other _ nm props nm props [] [] (take i subs) v u'), take_drop_middle; [done|done| |done].
    apply orb_true_iff in Ho as [Ho|Ho%negb_true_iff]; [left|by right]. by rewrite <- existsb_names.
  - exact (IH c1 _ (plug1 u' (Frame nm props (take j subs) (drop (S j) subs))) eq_refl Hl Ho eq_refl).
Qed.

Lemma outside_alike name o o' i : alike o' o → outside name o' i = outside name o i.
Proof. intros Ha. unfold outside. by rewrite (alike_names _ _ Ha). Qed.
Lemma outside_keeps o o' i : keeps o o' → outside local_fixups o i = true → outside local_fixups o' i = true.
Proof. intros [Ha _]. by rewrite (outside_alike _ _ _ _ Ha). Qed.

Lemma share_here_keeps t p o i :
  good_fixups o = true → last p = Some i → outside local_fixups o i = true → keeps o (share_here t p o).2.
Proof.
  intros Hg Hl Ho. unfold share_here. destruct (at_path p o) as [[c u]|] eqn:E; [|done]. destruct (_ && _); [|done].
  assert (keeps o (plug c (put_phandles (tree_phandle t) u))) as Hk.
  { split; [|by eapply path_keeps_child; [| | |destruct u]]. rewrite <- (at_path_plug _ _ _ _ E). apply alike_plug, put_phandles_alike. }
  etransitivity; [exact Hk|]. by apply fix_local_keeps, (keeps_good o).
Qed.

Lemma share_keeps i u : ∀ t p o, good_fixups o = true → last p = Some i → outside local_fixups o i = true → keeps o (share_phandles u t p o).2.
Proof.
  induction u as [un uprops usubs IH] using dtree_ind'. intros t p o Hg Hl Ho. cbn [share_phandles].
  pose proof (share_here_keeps t p o i Hg Hl Ho) as Hk. destruct (share_here t p o) as [rc o1]. cbn [snd] in Hk.
  destruct (rc =? 0); [|done]. apply (fold_from_keeps (keeps o)); [|done]. intros j o2 v Hv Hk2.
  destruct (tree_child t (root_name v)) as [s|]; [|done]. etransitivity; [exact Hk2|]. rewrite Forall_forall in IH.
  apply (IH v Hv); [by apply (keeps_good o)|by destruct p|by apply (outside_keeps o)].
Qed.

(** A fragment is not among the fixups, and its target is where it was. *)
Lemma not_outside name o i c v : outside name o i = false → at_path [i] o = Some (c, v) → tree_child o name = Some v.
Proof.
  intros Ho Hp. unfold outside in Ho. apply orb_false_iff in Ho as [Ho1 Ho2%negb_false_iff].
  destruct o as [nm props subs]. cbn [at_path mbind option_bind nth_child sub_names] in *.
  destruct (subs !! i) as [w|] eqn:Ei; [|done]. cbn [mbind option_bind] in Hp. injection Hp as _ ->.
  change (map root_name subs) with (root_name <$> subs) in *. rewrite list_lookup_fmap, Ei in Ho2. rewrite <- fmap_take in Ho1.
  cbn [fmap option_fmap option_map from_option] in Ho2.
  apply (around_child nm props (take i subs)); [by rewrite <- existsb_names|done|]. exists props, (take i subs), (drop (S i) subs).
  by rewrite take_drop_middle.
Qed.

Lemma fragment_outside o i c frag q :
  good_fixups o = true → at_path [i] o = Some (c, frag) → pos_child ([], frag) (chars "__overlay__") = Some q → outside local_fixups o i = true.
Proof.
  intros Hg Hp Hq. destruct (outside local_fixups o i) eqn:Ho; [done|exfalso]. pose proof (not_outside _ _ _ _ _ Ho Hp) as E.
  unfold good_fixups in Hg. unfold local_fixups in E. rewrite E in Hg. apply andb_true_iff in Hg as [Hself _].
  destruct (pos_child_shape frag (chars "__overlay__")) as [E2|(f & u & E2 & <- & Hu)]; [by rewrite E2 in Hq|].
  unfold plug1 in Hself. cbn [not_for_itself] in Hself. rewrite forallb_app in Hself. cbn [forallb] in Hself.
  rewrite Hu, andb_false_r in Hself. by rewrite andb_false_r in Hself.
Qed.

Lemma at_path_child p o c frag name f u :
  at_path p o = Some (c, frag) → pos_child ([], frag) name = Some ([f], u) → at_path (length (f_left f) :: p) o = Some (f :: c, u).
Proof.
  intros Hp Hc. destruct (pos_child_shape frag name) as [E|(f' & u' & E & <- & _)]; [by rewrite E in Hc|].
  rewrite E in Hc. injection Hc as -> ->. destruct f. by apply at_path_below.
Qed.

Lemma path_ok_alike v v' : alike v v' → path_ok v' → path_ok v.
Proof.
  destruct v as [nm props subs], v' as [nm' props' subs']. intros [= _ Hb _]. unfold path_ok.
  assert (tree_prop props (chars "target-path") = tree_prop props' (chars "target-path")) as ->; [|done].
  pose proof (blank_prop props (chars "target-path")) as E1. rewrite Hb, blank_prop in E1.
  unfold blank_value in E1. by destruct (tree_prop props _), (tree_prop props' _).
Qed.

Lemma paths_ok_alike o o' : alike o' o → Forall path_ok (node_children o) → Forall path_ok (node_children o').
Proof.
  destruct o as [nm props subs], o' as [nm' props' subs']. intros [= _ _ Hs]. cbn [node_children]. revert subs' Hs.
  induction subs as [|v subs IH]; intros [|v' subs']; cbn [map]; [done..|]. intros [= Hv Hs] [H1 H2]%Forall_cons.
  constructor; [by eapply path_ok_alike|by apply IH].
Qed.

Lemma share_fragment_keeps t i o : good_fixups o = true → keeps o (share_fragment t i o).2.
Proof.
  intros Hg. unfold share_fragment. destruct (at_path [i] o) as [[c frag]|] eqn:Ep; [|done].
  destruct (pos_child_shape frag (chars "__overlay__")) as [->|(f & u & E & _)]; [done|].
  pose proof (fragment_outside _ _ _ _ _ Hg Ep E) as Ho. rewrite E. destruct (overlay_target frag t) as [[c' v]|err]; [|done].
  by apply (share_keeps i).
Qed.

Lemma share_fragments_keeps t o : good_fixups o = true → keeps o (share_fragments t o).2.
Proof.
  intros Hg. apply (fold_from_keeps (keeps o)); [|done]. intros i o' _ _ Hk. etransitivity; [exact Hk|].
  by apply share_fragment_keeps, (keeps_good o).
Qed.

(* ------------------------------------------------------------------ *)
(** * In memory *)

(** A tree stays where its buffer stays as it was. *)
Lemma node_at_kept fdt size total r0 cpuid rsv m m' c t off used :
  (∀ x, fdt <= x < fdt + size → m' !! x = m !! x) → mem_bytes m' → word_backed m' →
  node_at fdt size total r0 cpuid rsv m c t off used → node_at fdt size total r0 cpuid rsv m' c t off used.
Proof.
  intros Hx Hb Hw (strings & xs & zs & ys & Him & Hxs & Hzs & Hys & -> & -> & Hsz & Hr & Hrsv).
  exists strings, xs, zs, ys. split_and!; try done. pose proof (im_fits _ _ _ _ _ _ _ _ _ Him). pose proof (im_size _ _ _ _ _ _ _ _ _ Him).
  apply (image_move m _ _ _ _ _ _ _ _ Him Hsz); [|lia|].
  - destruct (im_buffer _ _ _ _ _ _ _ _ _ Him) as [_ _ ? ? Hm]. split; try done. intros x Hr'. rewrite Hx by done. by apply Hm.
  - intros x Hr'. rewrite Z.sub_diag, Z.add_0_r. apply Hx. lia.
Qed.

Lemma node_buffer m f s tt r c rv cx t off used :
  node_at f s tt r c rv m cx t off used → buffer m f s ∧ 40 <= s.
Proof.
  intros (strings & xs & zs & ys & Him & _). split; [apply Him|]. pose proof (im_fits _ _ _ _ _ _ _ _ _ Him).
  pose proof (im_map _ _ _ _ _ _ _ _ _ Him). unfold image_strings, image_struct in *.
  pose proof (items_size_pos (xs ++ zs ++ ys)). lia.
Qed.

#[local] Open Scope string_scope.
Definition apply_literals : list String.string :=
  ["phandle"; "linux,phandle"; "target"; "target-path"; "__overlay__"; "/__local_fixups__"; "/__fixups__"; "/__symbols__"; "__symbols__";
   "/__overlay__/"; "/__overlay__"; ""].
#[local] Close Scope string_scope.

Section conflicts.
Context `{Platform} (tmp : Z).
(** The base, and an overlay in another buffer. *)
Context (fdt size total r0 cpuid : Z) (rsv : list (Z * Z)).
Context (fdto sizeo totalo r0o cpuido : Z) (rsvo : list (Z * Z)).
Context (Hap : apart fdto sizeo fdt size) (Hto : totalo <= fdt) (H30 : totalo <= 2 ^ 30).
(** The stack slot. *)
Context (Htmp : 0 < tmp ∧ tmp mod 4 = 0 ∧ tmp + 4 < 2 ^ 32) (Hapt : apart tmp 4 fdt size) (Hapo : apart tmp 4 fdto sizeo).

#[local] Abbreviation base := (node_at fdt size total r0 cpuid rsv).
#[local] Abbreviation over := (node_at fdto sizeo totalo r0o cpuido rsvo).

(** What a change of the overlay and of the slot leaves alone. *)
Definition changed (m m' : mem) : Prop :=
  (∀ x, (x < fdto ∨ fdto + sizeo <= x) → (x < tmp ∨ tmp + 4 <= x) → m' !! x = m !! x) ∧
  (mapped m tmp 4 → mapped m' tmp 4).

Lemma changed_refl m : changed m m.
Proof using Type. by split. Qed.

Lemma changed_trans m1 m2 m3 : changed m1 m2 → changed m2 m3 → changed m1 m3.
Proof using Type. clear Htmp. intros [H1 M1] [H2 M2]. split; [intros x Hx Hx'; by rewrite H2, H1|tauto]. Qed.

Lemma changed_over m m' : same_outside fdto sizeo m m' → changed m m'.
Proof using Hapo.
  clear Htmp Hapt Hap Hto H30. intros Hs. split; [intros x Hx _; apply Hs; lia|]. intros Hm x Hx. unfold apart in Hapo. rewrite Hs by lia. by apply Hm.
Qed.

Lemma base_changed m m' c t off used cu u offu usedo :
  changed m m' → over m' cu u offu usedo → base m c t off used → base m' c t off used.
Proof using Hap Hapt.
  clear Htmp Hapo Hto H30. intros [Hs _] Ho Hb. destruct (node_mem _ _ _ _ _ _ _ _ _ _ _ Ho) as [Hmb Hwb]. unfold apart in *.
  apply (node_at_kept _ _ _ _ _ _ m); [|done|done|done]. intros x Hx. apply Hs; lia.
Qed.

(** The literals of the code, outside both trees and the slot. *)
Definition apply_names (m : mem) : Prop := ∀ s, s ∈ apply_literals →
  name_arg fdt size m (rodata s) (chars s) ∧ apart (rodata s) (Z.of_nat (length (chars s)) + 1) fdto sizeo ∧
  Z.of_nat (length (chars s)) < fdto ∧ apart (rodata s) (Z.of_nat (length (chars s)) + 1) tmp 4.

Lemma apply_names_changed m m' : changed m m' → apply_names m → apply_names m'.
Proof using Type.
  clear Hap Hto H30 Htmp Hapt Hapo. intros [Hs _] Hn s Hin. destruct (Hn s Hin) as ((((Hb & Hnz & H0) & Hr) & Ha) & Hao & Hl & Hat). unfold apart in Hao, Hat.
  split_and!; try done. split; [|done]. split; [|done]. split_and!; [|done|rewrite Hs by lia; done].
  apply (bytes_at_ext m); [|done]. intros x Hx. apply Hs; lia.
Qed.

Lemma apply_name m s : apply_names m → s ∈ apply_literals → c_name m (rodata s) (chars s).
Proof using Type. intros Hn Hs. apply (Hn s Hs). Qed.
Lemma apply_name_apart m s : apply_names m → s ∈ apply_literals → apart (rodata s) (Z.of_nat (length (chars s)) + 1) tmp 4.
Proof using Type. intros Hn Hs. apply (Hn s Hs). Qed.
#[local] Arguments apply_name m s%_string_scope.
#[local] Arguments apply_name_apart m s%_string_scope.

Ltac is_literal := unfold apply_literals; repeat (apply list_elem_of_here || apply list_elem_of_further).

(** ** One node *)

(** A word in the slot. *)
Lemma slot_put m cu u offu usedo w :
  over m cu u offu usedo → mapped m tmp 4 →
  ∃ m', fdt32_put tmp w m = Ok (tt, m') ∧ changed m m' ∧ over m' cu u offu usedo ∧ data_arg fdto sizeo m' tmp (be32 w) ∧
    ∀ x, x < tmp ∨ tmp + 4 <= x → m' !! x = m !! x.
Proof using Htmp Hapo.
  clear Hap Hapt Hto H30. intros Ho Hm. destruct Htmp as (Ht0 & Ht4 & Ht). exists (map_bytes tmp (be32 w) m).
  assert (∀ x, x < tmp ∨ tmp + 4 <= x → map_bytes tmp (be32 w) m !! x = m !! x) as Hx.
  { intros x Hx. apply map_bytes_other. rewrite length_be32. lia. }
  destruct (node_mem _ _ _ _ _ _ _ _ _ _ _ Ho) as [Hmb Hwb]. unfold apart in *. split_and!; [by apply fdt32_put_map| | | |done].
  - split; [intros x _ Hx'; by apply Hx|]. intros _. by apply (same_cells_mapped m); [apply map_bytes_cells; rewrite length_be32|].
  - apply (node_at_kept _ _ _ _ _ _ m); [intros x Hx'; apply Hx; lia| | |done].
    + by apply map_bytes_bytes; [apply be32_u8|].
    + by apply map_bytes_word_backed.
  - split; [apply map_bytes_at|]. unfold apart. rewrite length_be32. split_and!; lia.
Qed.

Lemma overwrite_phandle_ok m cu un uprops usubs offu usedo s name w :
  over m cu (DTree un uprops usubs) offu usedo → c_name m s name → apart s (Z.of_nat (length name) + 1) tmp 4 →
  mapped m tmp 4 →
  ∃ m', overwrite_phandle tmp fdto offu s w m = Ok (0, m') ∧ changed m m' ∧
    over m' cu (DTree un (put_word_prop w uprops name) usubs) offu usedo.
Proof using Htmp Hapo.
  clear Hap Hapt Hto H30. intros Ho Hs Has Hm. unfold overwrite_phandle, put_word_prop. pose proof (getprop_cases _ _ _ _ _ _ _ _ _ _ _ _ _ _ _ Ho Hs) as Hg.
  destruct (tree_prop uprops name) as [v|] eqn:Ev.
  2: { rewrite (wbind_rd _ _ _ _ Hg). cbv iota beta. rewrite Z.eqb_refl. exists m. by split_and!; [|apply changed_refl|]. }
  destruct Hg as (l & r & El & Hn & Hg). rewrite (wbind_rd _ _ _ _ Hg). cbv iota beta. pose proof Ho as Ho'. rewrite El in Ho'.
  destruct (value_here _ _ _ _ _ _ _ _ _ _ _ _ _ _ _ _ Ho') as (_ & Hf & _).
  destruct (Z.eqb_spec (value_place fdto r0o rsvo offu un l) 0); [lia|].
  destruct (Z.eqb_spec (Z.of_nat (length v)) 4) as [E4|]; cbn [negb andb]; [|exists m; by split_and!; [|apply changed_refl|]].
  destruct (slot_put m cu _ offu usedo w Ho Hm) as (m1 & He1 & Hc1 & Ho1 & Hd & Hx).
  unfold fdt_setprop_inplace_u32. rewrite (wbind_ok _ _ _ _ _ He1). unfold apart in *.
  assert (c_name m1 s name) as Hs1.
  { destruct Hs as ((Hsb & Hnz & Hs0) & Hr). split; [|done]. split_and!; [|done|rewrite Hx by lia; done].
    apply (bytes_at_ext m); [|done]. intros x Hx'. apply Hx. lia. }
  destruct (setprop_inplace_ok _ _ _ _ _ _ m1 cu un uprops usubs offu usedo s name tmp (be32 w) Ho1 Hs1 Hd) as (rc & m' & He & Hs' & Hr).
  rewrite Ev, length_be32 in Hr. destruct (Nat.eqb_spec (length v) 4); [|lia]. destruct Hr as [-> Hat]. exists m'.
  split_and!; [exact He| |done]. eapply changed_trans; [exact Hc1|by apply changed_over].
Qed.

(** What becomes of the properties of a node when there is a conflict. *)
Lemma adjust_conflicting_ok m cu u offu usedo w :
  over m cu u offu usedo → apply_names m → mapped m tmp 4 →
  ∃ m', overlay_adjust_local_conflicting_phandle tmp fdto offu w m = Ok (0, m') ∧ changed m m' ∧
    over m' cu (put_phandles w u) offu usedo.
Proof using Htmp Hapo.
  intros Ho Hn Hm. destruct u as [un uprops usubs]. unfold overlay_adjust_local_conflicting_phandle, and_then.
  destruct (overwrite_phandle_ok m cu un uprops usubs offu usedo _ _ w Ho (apply_name m "phandle" Hn ltac:(is_literal))
    (apply_name_apart m "phandle" Hn ltac:(is_literal)) Hm) as (m1 & He1 & Hc1 & Ho1).
  rewrite (wbind_ok _ _ _ _ _ He1). cbn [Z.eqb negb]. pose proof (apply_names_changed _ _ Hc1 Hn) as Hn1.
  destruct (overwrite_phandle_ok m1 cu un _ usubs offu usedo _ _ w Ho1 (apply_name m1 "linux,phandle" Hn1 ltac:(is_literal))
    (apply_name_apart m1 "linux,phandle" Hn1 ltac:(is_literal)) (proj2 Hc1 Hm)) as (m2 & He2 & Hc2 & Ho2).
  rewrite (wbind_ok _ _ _ _ _ He2). exists m2. split_and!; [done|by eapply changed_trans|done].
Qed.

(** A path of one name that no child of the root has. *)
Lemma no_path m cu u offu usedo s name :
  over m cu u offu usedo → apply_names m → s ∈ apply_literals → head (chars s) = Some slash →
  components (chars s) = [name] → no_child (plug cu u) name →
  fdt_path_offset m fdto (rodata s) = Ok (- FDT_ERR_NOTFOUND).
Proof using Type.
  intros Ho Hn Hs Hsl Hc Hno. apply holds_node in Ho as [_ Ho]. apply holds_whole in Ho.
  rewrite (position_path _ _ _ _ _ _ _ _ _ _ _ Ho (apply_name m s Hn Hs) Hsl), Hc. cbn [descend].
  by rewrite no_child_from.
Qed.

#[local] Arguments no_path m cu u offu usedo s%_string_scope name.

(** The phandle of a node fits into a word. *)
Lemma word_range m c nm props subs off used name w :
  base m c (DTree nm props subs) off used → tree_word props name = Some w → is_u32 w.
Proof using Type.
  intros Hb. unfold tree_word. destruct (prop_cases props name) as [Hn|(l & v & r & -> & Hn)]; [by rewrite (tree_prop_none _ _ Hn)|].
  rewrite (tree_prop_some _ _ _ _ Hn). cbn [mbind option_bind]. destruct (Z.eqb_spec (Z.of_nat (length v)) 4); [|done]. intros [= <-].
  destruct (value_here _ _ _ _ _ _ _ _ _ _ _ _ _ _ _ _ Hb) as (_ & _ & _ & _ & _ & _ & Hu & _). by apply be_value_word.
Qed.

Lemma phandle_range m c t off used : base m c t off used → is_u32 (tree_phandle t).
Proof using Type.
  intros Hb. destruct t as [nm props subs]. unfold tree_phandle.
  destruct (tree_word props (chars "phandle")) eqn:E1; [by eapply word_range|]. destruct (tree_word props (chars "linux,phandle")) eqn:E2; [by eapply word_range|].
  by unfold is_u32.
Qed.

(** ** A node and all below it *)

(** One node. *)
Definition share_node (fdtnode fdtonode : Z) : W Z :=
  fdt_phandle ← rd (fun m => fdt_get_phandle m fdt fdtnode);
  fdto_phandle ← rd (fun m => fdt_get_phandle m fdto fdtonode);
  if negb (fdt_phandle =? 0) && negb (fdto_phandle =? 0) then
    and_then (overlay_adjust_local_conflicting_phandle tmp fdto fdtonode fdt_phandle)
      (overlay_update_local_conflicting_references fdto fdt_phandle fdto_phandle)
  else mret 0.

Lemma share_node_ok m c t off used o p cu u i usedo :
  base m c t off used → over m [] o 0 usedo → at_path p o = Some (cu, u) → last p = Some i → outside local_fixups o i = true →
  good_fixups o = true → apply_names m → mapped m tmp 4 →
  ∃ m', share_node off (node_place cu) m = Ok ((share_here t p o).1, m') ∧ changed m m' ∧ over m' [] (share_here t p o).2 0 usedo.
Proof using Htmp Hapo.
  intros Hb Ho Hp Hl Hout Hg Hn Hm. unfold share_node, share_here. rewrite Hp.
  destruct (holds_node _ _ _ _ _ _ _ _ _ _ _ Hb) as [Eoff Hh].
  pose proof (at_path_plug _ _ _ _ Hp) as Eo. assert (over m cu u (node_place cu) usedo) as Hu by (by eapply (base_holds fdto)).
  pose proof (apply_name m "phandle" Hn ltac:(is_literal)) as Hn1. pose proof (apply_name m "linux,phandle" Hn ltac:(is_literal)) as Hn2.
  pose proof (position_phandle _ _ _ _ _ _ _ _ _ Hh Hn1 Hn2) as Hpt. change (pos_place (c, t)) with (node_place c) in Hpt. rewrite <- Eoff in Hpt.
  rewrite (wbind_rd _ _ _ _ Hpt). assert (holds fdto sizeo totalo r0o cpuido rsvo m usedo (cu, u)) as Hhu by exact Hu.
  pose proof (position_phandle _ _ _ _ _ _ _ _ _ Hhu Hn1 Hn2) as Hpo. change (pos_place (cu, u)) with (node_place cu) in Hpo.
  rewrite (wbind_rd _ _ _ _ Hpo). cbn [snd]. set (w := tree_phandle t). set (wo := tree_phandle u).
  destruct (_ && _); [|exists m; by split_and!; [|apply changed_refl|]].
  destruct (adjust_conflicting_ok _ _ _ _ _ w Hu Hn Hm) as (m1 & He1 & Hc1 & Hu1).
  pose proof (holds_base _ _ _ _ _ _ _ _ _ _ _ Hu1) as Ho1. pose proof (apply_names_changed _ _ Hc1 Hn) as Hna.
  assert (good_fixups (plug cu (put_phandles w u)) = true) as Hg1.
  { apply (keeps_good o); [|done]. split; [|by eapply path_keeps_child; [| | |destruct u]]. rewrite <- Eo. apply alike_plug, put_phandles_alike. }
  pose proof (update_conflicting_references_ok _ _ _ _ _ _ m1 _ usedo w wo Ho1 (apply_name m1 "/__local_fixups__" Hna ltac:(is_literal)) Hg1
    (phandle_range _ _ _ _ _ Hb)) as Hr.
  destruct (fix_local _ _) as [rc o2]. destruct Hr as (m2 & He2 & Hs2 & Ho2). exists m2. unfold and_then.
  rewrite (wbind_ok _ _ _ _ _ He1). cbn [Z.eqb negb]. split_and!; [exact He2| |done].
  eapply changed_trans; [exact Hc1|by apply changed_over].
Qed.

Definition share_subnode (fuel : nat) (fdtnode fdtochild : Z) : W (option Z) :=
  '(name, _) ← rd (fun m => fdt_get_name m fdto fdtochild);
  fdtchild ← rd (fun m => fdt_subnode_offset m fdt fdtnode name);
  if fdtchild =? - FDT_ERR_NOTFOUND then mret None
  else
    ret ← overlay_prevent_phandle_overwrite_node tmp fuel fdt fdtchild fdto fdtochild;
    mret (return_if ret).

Lemma prevent_node_step fuel fdtnode fdtonode m :
  overlay_prevent_phandle_overwrite_node tmp (S fuel) fdt fdtnode fdto fdtonode m =
  and_then (share_node fdtnode fdtonode) (or_return (fdt_for_each_subnode fdto fdtonode (share_subnode fuel fdtnode)) (mret 0)) m.
Proof using Type.
  clear. unfold share_node, and_then. cbn [overlay_prevent_phandle_overwrite_node]. unfold mbind, W_bind, rd.
  destruct (fdt_get_phandle m fdt fdtnode) as [w| |]; [|done..]. cbn [mbind res_bind].
  destruct (fdt_get_phandle m fdto fdtonode) as [w'| |]; [|done..]. cbn [mbind res_bind]. done.
Qed.

Definition shares (u : dtree) : Prop := ∀ fuel m c t off used o p i cu uc usedo,
  ops_size (ops u) <= 4 * Z.of_nat fuel → base m c t off used → over m [] o 0 usedo →
  at_path p o = Some (cu, uc) → alike uc u → last p = Some i → outside local_fixups o i = true → good_fixups o = true →
  apply_names m → mapped m tmp 4 →
  ∃ m', overlay_prevent_phandle_overwrite_node tmp fuel fdt off fdto (node_place cu) m = Ok ((share_phandles u t p o).1, m') ∧
    changed m m' ∧ over m' [] (share_phandles u t p o).2 0 usedo.

Lemma share_subnode_ok fuel v m c t off used o p i j cv vc usedo :
  shares v → ops_size (ops v) <= 4 * Z.of_nat fuel → base m c t off used → over m [] o 0 usedo →
  at_path (j :: p) o = Some (cv, vc) → alike vc v → last (j :: p) = Some i → outside local_fixups o i = true → good_fixups o = true →
  apply_names m → mapped m tmp 4 →
  ∃ m', share_subnode fuel off (node_place cv) m = Ok (return_if (share_child t p j o v).1, m') ∧ changed m m' ∧
    over m' [] (share_child t p j o v).2 0 usedo.
Proof using Hap Hto H30.
  intros Hv Hf Hb Ho Hp Ha Hl Hout Hg Hn Hm. unfold share_subnode, share_child.
  assert (over m cv vc (node_place cv) usedo) as Hu by (eapply (base_holds fdto); [exact Ho|symmetry; by eapply at_path_plug]).
  rewrite <- (alike_root _ _ Ha). pose proof Hu as Hu'. destruct vc as [vn vprops vsubs] eqn:Ev. cbn [root_name].
  destruct (name_here _ _ _ _ _ _ _ _ _ _ _ _ _ Hu') as (s & Hgn & Hs & Hnz). rewrite (wbind_rd _ _ _ _ Hgn). cbv iota beta. rewrite <- Ev in *.
  pose proof (inside_name _ _ _ _ _ _ _ _ _ _ _ _ _ Hu Hs Hnz) as Hname.
  destruct (holds_node _ _ _ _ _ _ _ _ _ _ _ Hb) as [Eoff Hh].
  pose proof (position_subnode _ _ _ _ _ _ _ _ _ _ _ Hh Hname) as Hsub. change (pos_place (c, t)) with (node_place c) in Hsub.
  rewrite <- Eoff in Hsub. rewrite (wbind_rd _ _ _ _ Hsub). rewrite <- (tree_child_at c t vn).
  destruct (pos_child (c, t) vn) as [[ct w]|] eqn:Ec; cbn [fmap option_fmap option_map snd from_option].
  2: { rewrite Z.eqb_refl. exists m. by split_and!; [|apply changed_refl|]. }
  assert (holds fdt size total r0 cpuid rsv m used (ct, w)) as Hw by (eapply child_good; [apply positions_descend|exact Hh|exact Ec]).
  unfold pos_place. cbn [fst]. pose proof (ops_size_nonneg (ops_before ct)) as Hct. fold (node_place ct) in Hct.
  destruct (Z.eqb_spec (node_place ct) (- FDT_ERR_NOTFOUND)); [unfold FDT_ERR_NOTFOUND in *; lia|].
  destruct (Hv fuel m ct w (node_place ct) used o (j :: p) i cv vc usedo Hf Hw Ho Hp Ha Hl Hout Hg Hn Hm) as (m' & He & Hc & Ho').
  exists m'. rewrite (wbind_ok _ _ _ _ _ He). by split_and!.
Qed.

Lemma share_child_keeps t p i j o v :
  good_fixups o = true → last (j :: p) = Some i → outside local_fixups o i = true → keeps o (share_child t p j o v).2.
Proof using Type. intros Hg Hl Ho. unfold share_child. destruct (tree_child t (root_name v)) as [s|]; [|done]. by apply (share_keeps i). Qed.

Lemma share_children_ok fuel m c t off used o p i cu uc un uprops usubs usedo :
  Forall shares usubs → ops_size (flat_map ops usubs) <= 4 * Z.of_nat fuel →
  base m c t off used → over m [] o 0 usedo → at_path p o = Some (cu, uc) → alike uc (DTree un uprops usubs) →
  last p = Some i → outside local_fixups o i = true → good_fixups o = true → apply_names m → mapped m tmp 4 →
  ∃ m', fdt_for_each_subnode fdto (node_place cu) (share_subnode fuel off) m
      = Ok (return_if (fold_from (share_child t p) 0 o usubs).1, m') ∧ changed m m' ∧
    over m' [] (fold_from (share_child t p) 0 o usubs).2 0 usedo.
Proof using Hap Hto H30 Hapt.
  intros Hall Hf Hb Ho Hp Hac Hl Hout Hg Hn Hm.
  assert (∀ o' m', keeps o o' → over m' [] o' 0 usedo → ∃ cu' uprops' usubs', at_path p o' = Some (cu', DTree un uprops' usubs') ∧
    alike (DTree un uprops' usubs') (DTree un uprops usubs) ∧ node_place cu' = node_place cu ∧
    over m' cu' (DTree un uprops' usubs') (node_place cu) usedo) as Hfind.
  { intros o' m' [Ha _] Ho'. destruct (at_path_alike o o' p _ _ Ha Hp) as (cu' & [un' uprops' usubs'] & Hp' & Ha' & Epl).
    rewrite Hac in Ha'. pose proof (alike_root _ _ Ha') as Er. cbn [root_name] in Er. subst un'. exists cu', uprops', usubs'. split_and!; [done..|].
    rewrite <- Epl. eapply (base_holds fdto); [exact Ho'|symmetry; by eapply at_path_plug]. }
  destruct (fold_loop (share_child t p) (λ oi mi, keeps o oi ∧ changed m mi ∧ over mi [] oi 0 usedo)
    (sized fdto sizeo totalo r0o cpuido rsvo un uprops usubs (node_place cu) usedo) (fdt_for_each_subnode fdto (node_place cu) (share_subnode fuel off))
    (share_subnode fuel off) (λ l, node_place cu + sub_place un uprops l) o usubs m) as (m' & He & _ & Hc & Ho').
  - intros J Q HJ H0 Hbody. by apply (for_each_subnode_sized fdto sizeo totalo r0o cpuido rsvo J Q _ _ un uprops usubs _ usedo).
  - intros oi mi (Hk & _ & Hi). destruct (Hfind oi mi Hk Hi) as (cu' & uprops' & usubs' & _ & Ha & _ & Hat).
    exists cu', uprops', usubs'. split; [done|]. by apply (alike_sizes un un).
  - by split_and!; [|apply changed_refl|].
  - intros l v r oi mi El (Hk & Hci & Hi). destruct (Hfind oi mi Hk Hi) as (cu' & uprops' & usubs' & Hp' & Ha & Epl & Hat).
    destruct (alike_sizes _ _ _ _ _ _ Ha) as [Hps Hss]. injection Ha as Hbl Hsh. rewrite El, map_app in Hsh.
    apply map_eq_app in Hsh as (l' & r1 & -> & Hl' & Hr1). cbn [map] in Hr1. apply map_eq_cons in Hr1 as (v' & r' & -> & Hv' & Hr').
    pose proof (at_path_below _ _ _ _ _ _ _ _ Hp') as Hpv. assert (length l' = length l) as Ell by (by rewrite <- (length_map shape), Hl', length_map).
    rewrite Ell in Hpv. destruct (below_fuel fuel shares usubs l v r El Hall Hf) as [Hv Hfv].
    assert (node_place cu + sub_place un uprops l = node_place (Frame un uprops' l' r' :: cu')) as ->.
    { rewrite node_place_below, Epl. f_equal. symmetry. apply sub_sizes_place; [done|]. unfold sub_sizes.
      rewrite <- (map_ext _ _ shape_size l), <- (map_ext _ _ shape_size l'), <- !(map_map shape (λ t, ops_size (ops t))). by rewrite Hl'. }
    pose proof (keeps_good _ _ Hk Hg) as Hgi. pose proof (outside_keeps _ _ _ Hk Hout) as Houti.
    assert (last (length l :: p) = Some i) as Hli by (by destruct p).
    destruct (share_subnode_ok fuel v mi c t off used oi p i (length l) _ v' usedo Hv Hfv (base_changed _ _ _ _ _ _ _ _ _ _ Hci Hi Hb) Hi Hpv Hv' Hli
      Houti Hgi (apply_names_changed _ _ Hci Hn) (proj2 Hci Hm)) as (m' & He & Hc' & Ho').
    exists m'. split_and!; [done| |by eapply changed_trans|done]. etransitivity; [exact Hk|]. by apply (share_child_keeps t p i).
  - by exists m'.
Qed.

Lemma shares_all u : shares u.
Proof using Hap Hto H30 Htmp Hapt Hapo.
  induction u as [un uprops usubs IH] using dtree_ind'. intros fuel m c t off used o p i cu uc usedo Hf Hb Ho Hp Ha Hl Hout Hg Hn Hm.
  rewrite ops_size_node in Hf. pose proof (item_size_pos (IBegin un)).
  pose proof (ops_size_nonneg (map (prop_op (λ _, 0)) uprops)). pose proof (ops_size_nonneg (flat_map ops usubs)).
  destruct fuel as [|fuel]; [lia|]. rewrite prevent_node_step. cbn [share_phandles].
  destruct (share_node_ok m c t off used o p cu uc i usedo Hb Ho Hp Hl Hout Hg Hn Hm) as (m1 & He1 & Hc1 & Ho1).
  pose proof (share_here_keeps t p o i Hg Hl Hout) as Hk. destruct (share_here t p o) as [rc o1]. cbn [fst snd] in *.
  unfold and_then. rewrite (wbind_ok _ _ _ _ _ He1). destruct (Z.eqb_spec rc 0) as [-> |Hne]; cbn [negb]; [|by exists m1].
  destruct (at_path_alike o o1 p _ _ (proj1 Hk) Hp) as (cu1 & uc1 & Hp1 & Ha1 & Epl).
  destruct (share_children_ok fuel m1 c t off used o1 p i cu1 uc1 un uprops usubs usedo IH ltac:(lia) (base_changed _ _ _ _ _ _ _ _ _ _ Hc1 Ho1 Hb)
    Ho1 Hp1 ltac:(by rewrite Ha1) Hl (outside_keeps _ _ _ Hk Hout) (keeps_good _ _ Hk Hg) (apply_names_changed _ _ Hc1 Hn) (proj2 Hc1 Hm))
    as (m' & He & Hc & Ho'). fold (share_child t p). rewrite Epl in He.
  exists m'. split_and!; [|by eapply changed_trans|exact Ho']. unfold or_return. rewrite (wbind_ok _ _ _ _ _ He). unfold return_if.
  by destruct (Z.eqb_spec (fold_from (share_child t p) 0 o1 usubs).1 0) as [-> |].
Qed.

(** ** The fragments *)

Definition share_in_fragment (fragment : Z) : W (option Z) :=
  overlay ← rd (fun m => fdt_subnode_offset m fdto fragment (rodata "__overlay__"));
  if overlay =? - FDT_ERR_NOTFOUND then mret None
  else if overlay <? 0 then mret (Some overlay)
  else
    '(target, _) ← rd (fun m => fdt_overlay_target_offset m fdt fdto fragment);
    if true && (target =? - FDT_ERR_NOTFOUND) then mret None
    else if target <? 0 then mret (Some target)
    else
      ret ← with_fuel fdto (fun fuel => overlay_prevent_phandle_overwrite_node tmp fuel fdt target fdto overlay);
      mret (return_if ret).

Lemma apply_names_literals m : apply_names m → literals_apart fdt size m.
Proof using Type.
  clear Htmp. intros Hn s Hs. apply Hn. unfold merge_literals, apply_literals in *. revert Hs. rewrite !elem_of_cons, elem_of_nil. tauto.
Qed.

Lemma share_in_fragment_ok m i o cf frag usedo t used :
  base m [] t 0 used → over m [] o 0 usedo → at_path [i] o = Some (cf, frag) → good_fixups o = true →
  apply_names m → mapped m tmp 4 → path_ok frag →
  ∃ m', share_in_fragment (node_place cf) m = Ok (return_if (share_fragment t i o).1, m') ∧ changed m m' ∧
    over m' [] (share_fragment t i o).2 0 usedo.
Proof using Hap Hto H30 Htmp Hapt Hapo.
  intros Hb Ho Hp Hg Hn Hm Hpath. unfold share_in_fragment, share_fragment. rewrite Hp.
  assert (over m cf frag (node_place cf) usedo) as Hfrag by (eapply (base_holds fdto); [exact Ho|symmetry; by eapply at_path_plug]).
  assert (holds fdto sizeo totalo r0o cpuido rsvo m usedo (cf, frag)) as Hh by exact Hfrag.
  pose proof (position_subnode _ _ _ _ _ _ _ _ _ _ _ Hh (apply_name m "__overlay__" Hn ltac:(is_literal))) as Hsub.
  change (pos_place (cf, frag)) with (node_place cf) in Hsub. rewrite (wbind_rd _ _ _ _ Hsub). rewrite (pos_child_context cf frag).
  destruct (pos_child_shape frag (chars "__overlay__")) as [-> |(f & u & E & _)].
  { cbn [fmap option_fmap option_map from_option]. rewrite Z.eqb_refl. exists m. by split_and!; [|apply changed_refl|]. }
  pose proof (fragment_outside _ _ _ _ _ Hg Hp E) as Hout. pose proof (at_path_child _ _ _ _ _ _ _ Hp E) as Hpu. rewrite E.
  cbn [fmap option_fmap option_map from_option app]. unfold pos_place. cbn [fst].
  pose proof (ops_size_nonneg (ops_before (f :: cf))) as Hcv. fold (node_place (f :: cf)) in Hcv.
  destruct (Z.eqb_spec (node_place (f :: cf)) (- FDT_ERR_NOTFOUND)); [unfold FDT_ERR_NOTFOUND in *; lia|].
  destruct (Z.ltb_spec (node_place (f :: cf)) 0); [lia|].
  destruct (target_ok fdt size total r0 cpuid rsv fdto sizeo totalo r0o cpuido rsvo Hap H30 m cf frag usedo t used Hb Hh
    (apply_names_literals m Hn) Hpath) as (path & Htarget & _).
  rewrite (wbind_rd _ _ _ _ Htarget). cbv iota beta. cbn [andb]. destruct (overlay_target frag t) as [[c v]|err] eqn:Et.
  2: { exists m. pose proof (overlay_target_error _ _ _ Et). destruct (Z.eqb_spec err (- FDT_ERR_NOTFOUND)); [by split_and!; [|apply changed_refl|]|].
       destruct (Z.ltb_spec err 0); [|lia]. cbn [fst snd]. unfold return_if. destruct (Z.eqb_spec err 0); [lia|].
       by split_and!; [|apply changed_refl|]. }
  pose proof (ops_size_nonneg (ops_before c)) as Hcp. fold (node_place c) in Hcp. change (pos_place (c, v)) with (node_place c).
  destruct (Z.eqb_spec (node_place c) (- FDT_ERR_NOTFOUND)); [unfold FDT_ERR_NOTFOUND in *; lia|].
  destruct (Z.ltb_spec (node_place c) 0); [lia|].
  pose proof (base_holds fdt size total r0 cpuid rsv m t used c v Hb (overlay_target_plug _ _ _ _ Et)) as Hv.
  destruct (tree_fuel_node _ _ _ _ _ _ _ _ _ _ _ Ho) as (fuel & Hfuel & Hn0).
  assert (over m (f :: cf) u (node_place (f :: cf)) usedo) as Hu by (eapply (base_holds fdto); [exact Ho|symmetry; by eapply at_path_plug]).
  destruct (shares_all u (S fuel) m c v (node_place c) used o _ i (f :: cf) u usedo ltac:(destruct u; pose proof (node_at_total _ _ _ _ _ _ _ _ _ _ _ _ _ Hu); lia)
    Hv Ho Hpu ltac:(done) ltac:(done) Hout Hg Hn Hm) as (m' & He & Hc & Ho').
  exists m'. unfold with_fuel. rewrite (wbind_ok _ _ m (share_phandles u v [length (f_left f); i] o).1 m') by (by rewrite Hfuel).
  by split_and!.
Qed.

Lemma prevent_overwrite_ok m t used o usedo :
  base m [] t 0 used → over m [] o 0 usedo → good_fixups o = true →
  apply_names m → mapped m tmp 4 → Forall path_ok (node_children o) →
  ∃ m', overlay_prevent_phandle_overwrite tmp fdt fdto m = Ok ((share_fragments t o).1, m') ∧ changed m m' ∧
    over m' [] (share_fragments t o).2 0 usedo.
Proof using Hap Hto H30 Htmp Hapt Hapo.
  intros Hb Ho Hg Hn Hm Hpaths.
  change (overlay_prevent_phandle_overwrite tmp fdt fdto m) with (or_return (fdt_for_each_subnode fdto 0 share_in_fragment) (mret 0) m).
  destruct o as [un uprops usubs] eqn:Eo. rewrite <- Eo in *.
  destruct (fold_loop (λ i oi (_ : dtree), share_fragment t i oi) (λ oi mi, keeps o oi ∧ changed m mi ∧ over mi [] oi 0 usedo)
    (sized fdto sizeo totalo r0o cpuido rsvo un uprops usubs 0 usedo) (fdt_for_each_subnode fdto 0 share_in_fragment)
    share_in_fragment (λ l, 0 + sub_place un uprops l) o usubs m) as (m' & He & _ & Hc & Ho').
  - intros J Q HJ H0 Hbody. by apply (for_each_subnode_sized fdto sizeo totalo r0o cpuido rsvo J Q _ _ un uprops usubs _ usedo).
  - intros [un' props' subs'] mi ([Ha _] & _ & Hi). rewrite Eo in Ha. pose proof (alike_root _ _ Ha) as Er. cbn [root_name] in Er. subst un'.
    exists [], props', subs'. split; [done|]. by apply (alike_sizes un un).
  - by split_and!; [|apply changed_refl|].
  - intros l v r oi mi El (Hk & Hci & Hi).
    assert (∃ cf fr, at_path [length l] o = Some (cf, fr) ∧ node_place cf = sub_place un uprops l) as (cf & fr & Hp & Epl).
    { exists [Frame un uprops l r], v. split; [|by rewrite node_place_below]. apply at_path_below. by rewrite Eo, El. }
    destruct (at_path_alike o oi _ _ _ (proj1 Hk) Hp) as (cf' & fr' & Hp' & _ & Epl'). rewrite Z.add_0_l, <- Epl, <- Epl'.
    assert (path_ok fr') as Hpath.
    { pose proof (paths_ok_alike o oi (proj1 Hk) Hpaths) as Hall. rewrite Forall_forall in Hall. apply Hall.
      destruct oi as [? ? subs']. cbn [at_path mbind option_bind nth_child node_children] in *.
      destruct (subs' !! length l) as [x|] eqn:Ex; [|done]. injection Hp' as _ ->. by eapply list_elem_of_lookup_2. }
    destruct (share_in_fragment_ok mi (length l) oi cf' fr' usedo t used (base_changed _ _ _ _ _ _ _ _ _ _ Hci Hi Hb) Hi Hp'
      (keeps_good _ _ Hk Hg) (apply_names_changed _ _ Hci Hn) (proj2 Hci Hm) Hpath) as (m' & He & Hc' & Ho').
    exists m'. split_and!; [done| |by eapply changed_trans|done]. etransitivity; [exact Hk|]. by apply share_fragment_keeps, (keeps_good o).
  - exists m'. unfold share_fragments. replace (node_children o) with usubs by (by subst o). split_and!; [|done|done].
    unfold or_return. rewrite (wbind_ok _ _ _ _ _ He). unfold return_if.
    by destruct (Z.eqb_spec (fold_from (λ i o (_ : dtree), share_fragment t i o) 0 o usubs).1 0) as [-> |].
Qed.
End conflicts.

(* ------------------------------------------------------------------ *)
(** * Examples *)

(** The literals lie in a part of memory of their own. *)
Lemma sample_literal strings t u s cs :
  let l := pad4 (concat (map cstr overlay_literals)) in
  0x1000 <= s → take (length cs + 1) (drop (Z.to_nat (s - 0x1000)) l) = cs ++ [0] → Forall (λ c, c ≠ 0) cs → s < 0x2000 →
  (length cs < 256)%nat → c_name (two_trees strings t u) s cs.
Proof.
  cbv zeta. set (l := pad4 (concat (map cstr overlay_literals))). intros Hs Et Hnz Hs2 Hl.
  assert (bytes_at (two_trees strings t u) 0x1000 l) as Hb by apply map_bytes_at.
  rewrite <- (take_drop (Z.to_nat (s - 0x1000)) l), <- (take_drop (length cs + 1) (drop _ l)), Et in Hb.
  assert (0 < length (drop (Z.to_nat (s - 0x1000)) l))%nat as Hd.
  { apply (f_equal length) in Et. rewrite length_take, length_app in Et. cbn [length] in Et. lia. }
  rewrite length_drop in Hd. apply bytes_at_app in Hb as [_ Hb]. rewrite length_take_le in Hb by lia.
  replace (0x1000 + Z.of_nat (Z.to_nat (s - 0x1000))) with s in Hb by lia.
  apply bytes_at_app in Hb as [Hb _]. apply bytes_at_app in Hb as [Hb Hz]. apply bytes_at_cons in Hz as [Hz _].
  split; [by split_and!|lia].
Qed.

Lemma sample_apply_names strings t u :
  @apply_names overlay_platform 0x3000 base_addr 512 over_addr 512 (two_trees strings t u).
Proof.
  intros s. unfold apply_literals. rewrite !elem_of_cons, elem_of_nil.
  intros [->|[->|[->|[->|[->|[->|[->|[->|[->|[->|[->|[->|[]]]]]]]]]]]]];
    (split; [split; [apply sample_literal;
        [vm_compute; discriminate|vm_compute; reflexivity|repeat constructor; discriminate|reflexivity|cbn; lia]
      |split; [left; vm_compute; discriminate|by split]]|];
     split; [left; vm_compute; discriminate|split; [reflexivity|left; vm_compute; discriminate]]).
Qed.

Lemma sample_slot strings t u : mapped (two_trees strings t u) 0x3000 4.
Proof.
  unfold two_trees. intros x Hx. rewrite map_bytes_lookup. case_decide as Hd; [apply lookup_lt_is_Some; lia|].
  apply (map_bytes_mapped 0x3000 [0; 0; 0; 0]). exact Hx.
Qed.
