(* ===== verification/FdtFixups.v ===== *)
(** References of an overlay into the base, src/libfdt/fdt_overlay.c: what
    [overlay_fixup_phandles] makes of an overlay.  Each property below __fixups__ is
    named after a symbol of the base, and lists where in the overlay the phandle of that
    node belongs. *)
From S2P Require Import Prelude Machine Crt0 SampleTree Fdt FdtRo FdtCheck FdtTree FdtLookup FdtPath FdtWrite FdtSw FdtRw FdtImage FdtBuild FdtFinish FdtRead FdtEdit FdtNode FdtEncode FdtChildren FdtPack FdtTreeEdit FdtPositions FdtInplace FdtOverlay FdtParse FdtMerge FdtFragments FdtPhandles FdtRefs FdtConflicts.
From stdpp Require Import base list gmap.
From Stdlib Require Import ZArith Lia.
From Stdlib Require String.
#[local] Open Scope Z_scope.

(* ------------------------------------------------------------------ *)
(** * On trees *)

(** The strings in a value, each with its NUL; [None] for bytes without one, and for no
    bytes at all. *)
Fixpoint pieces (v : list Z) : list (option (list Z)) :=
  match v with
  | [] => [None]
  | b :: v =>
      if b =? 0 then Some [] :: match v with [] => [] | _ => pieces v end
      else match pieces v with Some s :: l => Some (b :: s) :: l | l => l end
  end.

(** The phandle [w] where one of the strings says: a node of the overlay, one of its
    properties, and an offset in it. *)
Definition fix_at (w : Z) (o : dtree) (path name : list Z) (n : Z) : Z * dtree :=
  match descend pos_child ([], o) (components path) with
  | None => (- FDT_ERR_BADOVERLAY, o)
  | Some (c, DTree nm props subs) =>
      match tree_prop props name with
      | None => (- FDT_ERR_NOTFOUND, o)
      | Some old =>
          if Z.of_nat (length old) <? n + 4 then (- FDT_ERR_NOSPACE, o)
          else (0, plug c (DTree nm (set_prop props name (overwrite old (Z.to_nat n) (be32 w))) subs))
      end
  end.
Definition fix_piece (w : Z) (o : dtree) (piece : option (list Z)) : Z * dtree :=
  match s ← piece; parse_string s with
  | None => (- FDT_ERR_BADOVERLAY, o)
  | Some (path, name, n) => fix_at w o path name n
  end.

(** The phandle of the node that a symbol of the base stands for, or an error. *)
Definition symbol_phandle (t : dtree) (label : list Z) : Z + Z :=
  match tree_child t (chars "__symbols__") with
  | None => inr (- FDT_ERR_BADOFFSET)
  | Some (DTree _ sprops _) =>
      match path ← tree_prop sprops label; descend pos_child ([], t) (components (c_string path)) with
      | Some (_, n) => if tree_phandle n =? 0 then inr (- FDT_ERR_NOTFOUND) else inl (tree_phandle n)
      | None => inr (- FDT_ERR_NOTFOUND)
      end
  end.

Definition fix_label (t o : dtree) (p : list Z * list Z) : Z * dtree :=
  match symbol_phandle t p.1 with
  | inr err => (err, o)
  | inl w => fold_until (fix_piece w) o (pieces p.2)
  end.

(** What [overlay_fixup_phandles] makes of the overlay [o]. *)
Definition fixups : list Z := chars "__fixups__".
Definition fix_external (t o : dtree) : Z * dtree :=
  match tree_child o fixups with None => (0, o) | Some (DTree _ fprops _) => fold_until (fix_label t) o fprops end.

(** ** Fixups that do not touch each other *)

(** A path does not lead into the subnode of the root that [name] finds. *)
Definition avoids (name : list Z) (o : dtree) (names : list (list Z)) : bool :=
  match names, tree_child o name with
  | n :: _, Some x => negb (name_matches n (root_name x))
  | _, _ => true
  end.

(** The path is absolute, and leads neither to the fixups nor to the local ones; the
    offset is none of the last four; the property does not name a target's path. *)
Definition place_ok (o : dtree) (path name : list Z) (n : Z) : bool :=
  bool_decide (head path = Some slash) && (n + 4 <? 2 ^ 32) && negb (bool_decide (name = chars "target-path")) &&
  avoids fixups o (components path) && avoids local_fixups o (components path).
Definition piece_ok (o : dtree) (piece : option (list Z)) : bool :=
  match s ← piece; parse_string s with Some (path, name, n) => place_ok o path name n | None => true end.

(** A symbol is an absolute path. *)
Definition symbol_ok (t : dtree) (label : list Z) : bool :=
  match tree_child t (chars "__symbols__") with
  | Some (DTree _ sprops _) =>
      match tree_prop sprops label with
      | Some path => bool_decide (0 ∈ path) && bool_decide (head path = Some slash)
      | None => true
      end
  | None => true
  end.
Definition good_external (t o : dtree) : bool :=
  match tree_child o fixups with
  | Some (DTree _ fprops _) => forallb (λ p, symbol_ok t p.1 && forallb (piece_ok o) (pieces p.2)) fprops
  | None => true
  end.

Lemma pieces_split v :
  pieces v = match split_at 0 v with
             | None => [None]
             | Some (s, rest) => Some s :: match rest with [] => [] | _ => pieces rest end
             end.
Proof.
  unfold split_at. induction v as [|b v IH]; [done|]. cbn [pieces span]. destruct (b =? 0); [done|]. cbn [negb].
  rewrite IH. destruct (span _ v) as [a [|x r]]; done.
Qed.

Lemma number_nonneg o n : number_of o = Some n → 0 <= n.
Proof.
  unfold number_of. destruct (span_spec is_digit (unsigned (span is_space o).2)) as (_ & Hd & _).
  destruct (span is_digit _) as [[|c d] [|x r]]; try done. cbn [fst] in Hd. intros [= <-]. unfold clip.
  assert (∀ l k, Forall (λ c, is_digit c = true) l → 0 <= k → 0 <= digits_value k l) as Hv.
  { unfold digits_value, is_digit. induction l as [|y l IH]; intros k Hl Hk; [done|]. apply Forall_cons in Hl as [Hy Hl].
    cbn [foldl]. apply IH; [done|lia]. }
  specialize (Hv (c :: d) 0 Hd ltac:(lia)). destruct (_ <? _); [done|]. destruct (_ =? _); [|done]. apply u32_range.
Qed.

Lemma parse_nonneg s path name n : parse_string s = Some (path, name, n) → 0 <= n.
Proof.
  unfold parse_string. destruct (split_at 58 s) as [[p r]|]; [|done]. cbn [mbind option_bind]. destruct (bool_decide (r = [])); [done|].
  destruct (split_at 58 r) as [[nm o]|]; [|done]. cbn [mbind option_bind]. destruct (bool_decide (nm = [])); [done|].
  destruct (number_of o) as [k|] eqn:E; [|done]. cbn [mbind option_bind]. intros [= _ _ <-]. by eapply number_nonneg.
Qed.

(** The parts of a string. *)
Lemma parse_string_split s path name n :
  parse_string s = Some (path, name, n) → ∃ l, s = path ++ 58 :: name ++ 58 :: l.
Proof.
  unfold parse_string. pose proof (split_at_spec 58 s) as H1. destruct (split_at 58 s) as [[p r]|]; [|done].
  destruct H1 as [-> _]. cbn [mbind option_bind]. destruct (bool_decide (r = [])); [done|].
  pose proof (split_at_spec 58 r) as H2. destruct (split_at 58 r) as [[nm l]|]; [|done]. destruct H2 as [-> _].
  cbn [mbind option_bind]. destruct (bool_decide (nm = [])); [done|]. destruct (number_of l); [|done].
  cbn [mbind option_bind]. intros [= -> -> _]. by exists l.
Qed.

(** ** Nodes found by a path *)

Lemma pos_child_path p o c u name c' u' :
  at_path p o = Some (c, u) → pos_child (c, u) name = Some (c', u') →
  ∃ f, pos_child ([], u) name = Some ([f], u') ∧ at_path (length (f_left f) :: p) o = Some (c', u').
Proof.
  rewrite (pos_child_context c u). intros Hp Hc. destruct (pos_child_shape u name) as [E|(f & w & E & _)]; rewrite E in Hc; [done|].
  injection Hc as <- <-. exists f. split; [done|]. by eapply at_path_child.
Qed.

Lemma descend_path names : ∀ p o c u q,
  at_path p o = Some (c, u) → descend pos_child (c, u) names = Some q → ∃ k, at_path (k ++ p) o = Some q.
Proof.
  induction names as [|n names IH]; intros p o c u q Hp; cbn [descend]; [intros [= <-]; by exists []|].
  destruct (pos_child (c, u) n) as [[c' u']|] eqn:E; [|done]. intros Hd. destruct (pos_child_path _ _ _ _ _ _ _ Hp E) as (f & _ & Hp').
  destruct (IH _ _ _ _ _ Hp' Hd) as (k & Hk). exists (k ++ [length (f_left f)]). by rewrite <- app_assoc.
Qed.

Lemma avoids_outside name o n names f v :
  avoids name o (n :: names) = true → pos_child ([], o) n = Some ([f], v) → outside name o (length (f_left f)) = true.
Proof.
  unfold avoids. intros Ha Hc. destruct (outside name o (length (f_left f))) eqn:Ho; [done|].
  rewrite (not_outside _ _ _ _ _ Ho (at_path_child [] o [] o n f v eq_refl Hc)) in Ha.
  destruct (pos_child_shape o n) as [E|(f' & v' & E & _ & Hv)]; rewrite E in Hc; [done|]. injection Hc as -> ->. by rewrite Hv in Ha.
Qed.

(** Another value for a property of a node that a path leads to. *)
Lemma set_at_child name o names c nm props props' subs :
  descend pos_child ([], o) names = Some (c, DTree nm props subs) → avoids name o names = true →
  tree_child (plug c (DTree nm props' subs)) name = tree_child o name.
Proof.
  destruct names as [|n names]; cbn [descend].
  - intros [= <- ->] _. cbn [plug foldl]. unfold tree_child. cbn [pos_child]. apply child_from_snd.
  - destruct (pos_child ([], o) n) as [[c1 v]|] eqn:E; [|done]. intros Hd Ha. destruct (pos_child_path [] o [] o n c1 v eq_refl E) as (f & Ef & Hp).
    destruct (descend_path _ _ _ _ _ _ Hp Hd) as (k & Hk).
    apply (path_keeps_child name (k ++ [length (f_left f)]) o (length (f_left f)) c (DTree nm props subs)); [done| | |done].
    + apply last_snoc.
    + by eapply avoids_outside.
Qed.

Lemma set_at_alike o names c nm props props' subs :
  descend pos_child ([], o) names = Some (c, DTree nm props subs) → blank props' = blank props →
  alike (plug c (DTree nm props' subs)) o.
Proof.
  intros Hd Hb. rewrite (descend_plug _ _ _ Hd). cbn [fst snd]. apply alike_plug. unfold alike. cbn [shape]. by rewrite Hb.
Qed.

(** What has been found in trees that are alike. *)
Definition keeps_fixups (o o' : dtree) : Prop := keeps o o' ∧ tree_child o' fixups = tree_child o fixups.

#[export] Instance keeps_fixups_preorder : PreOrder keeps_fixups.
Proof. split; unfold keeps_fixups; [done|]. intros o1 o2 o3 [H1 E1] [H2 E2]. split; [by etransitivity|congruence]. Qed.

Lemma place_ok_keeps o o' path name n : keeps_fixups o o' → place_ok o' path name n = place_ok o path name n.
Proof. unfold place_ok, avoids. intros [[_ E1] E2]. fold local_fixups in E1. by rewrite E1, E2. Qed.

Lemma piece_ok_keeps o o' piece : keeps_fixups o o' → piece_ok o' piece = piece_ok o piece.
Proof. intros Hk. unfold piece_ok. destruct (s ← piece; parse_string s) as [[[path name] n]|]; [by apply place_ok_keeps|done]. Qed.

Lemma fix_at_keeps w o path name n : 0 <= n → place_ok o path name n = true → keeps_fixups o (fix_at w o path name n).2.
Proof.
  intros Hn Hok. unfold place_ok in Hok. rewrite !andb_true_iff in Hok. destruct Hok as [[[[_ Hn4] Hne] Hfx] Hlf].
  apply negb_true_iff, bool_decide_eq_false_1 in Hne. unfold fix_at.
  destruct (descend pos_child ([], o) (components path)) as [[c [nm props subs]]|] eqn:Ed; [|done].
  destruct (tree_prop props name) as [old|] eqn:Ep; [|done]. destruct (Z.ltb_spec (Z.of_nat (length old)) (n + 4)); [done|]. cbn [snd].
  assert (blank (set_prop props name (overwrite old (Z.to_nat n) (be32 w))) = blank props) as Hb.
  { eapply blank_set; [exact Ep| |done]. rewrite length_overwrite; [done|]. rewrite length_be32. lia. }
  split; [split|]; [by eapply set_at_alike|by eapply set_at_child|by eapply set_at_child].
Qed.

Lemma fix_piece_keeps w o piece : piece_ok o piece = true → keeps_fixups o (fix_piece w o piece).2.
Proof.
  unfold piece_ok, fix_piece. destruct piece as [s|]; [|done]. cbn [mbind option_bind].
  destruct (parse_string s) as [[[path name] n]|] eqn:E; [|done]. apply fix_at_keeps. by eapply parse_nonneg.
Qed.

Lemma fix_label_keeps t o p : forallb (piece_ok o) (pieces p.2) = true → keeps_fixups o (fix_label t o p).2.
Proof.
  intros Hok. unfold fix_label. destruct (symbol_phandle t p.1) as [w|err]; [|done].
  apply (fold_from_keeps (keeps_fixups o)); [|done]. intros _ o' piece Hin Hk. etransitivity; [exact Hk|].
  apply fix_piece_keeps. rewrite (piece_ok_keeps _ _ _ Hk). rewrite forallb_forall in Hok. by apply Hok, list_elem_of_In.
Qed.

Lemma label_ok_keeps o o' v : keeps_fixups o o' → forallb (piece_ok o) v = true → forallb (piece_ok o') v = true.
Proof. intros Hk. rewrite !forallb_forall. intros Hok x Hx. rewrite (piece_ok_keeps _ _ _ Hk). by apply Hok. Qed.

Lemma fix_external_keeps t o : good_external t o = true → keeps_fixups o (fix_external t o).2.
Proof.
  unfold good_external, fix_external. destruct (tree_child o fixups) as [[fnm fprops fsubs]|]; [|done]. intros Hok.
  apply (fold_from_keeps (keeps_fixups o)); [|done]. intros _ o' p Hin Hk. etransitivity; [exact Hk|].
  rewrite forallb_forall in Hok. specialize (Hok p (proj1 (list_elem_of_In _ _) Hin)). apply andb_true_iff in Hok as [_ Hok].
  apply fix_label_keeps. by eapply label_ok_keeps.
Qed.

Lemma fold_from_shift {A B} (f : A → B → Z * A) l : ∀ i a, fold_from (λ _, f) i a l = fold_until f a l.
Proof.
  unfold fold_until. induction l as [|b l IH]; intros i a; [done|]. cbn [fold_from]. destruct (f a b) as [rc a'].
  destruct (rc =? 0); [|done]. by rewrite (IH (S i)), (IH 1%nat).
Qed.

Lemma fold_until_cons {A B} (f : A → B → Z * A) a b l :
  fold_until f a (b :: l) = if (f a b).1 =? 0 then fold_until f (f a b).2 l else f a b.
Proof.
  unfold fold_until at 1. cbn [fold_from]. destruct (f a b) as [rc a']. cbn [fst snd]. destruct (rc =? 0); [|done]. apply fold_from_shift.
Qed.

Lemma frame_place f f' : shape_frame f = shape_frame f' → node_place [f] = node_place [f'].
Proof.
  destruct f as [nm props l r], f' as [nm' props' l' r']. intros [= -> Hb Hl Hr]. rewrite !node_place_below. f_equal.
  apply sub_sizes_place.
  - by rewrite <- (blank_size props), Hb, blank_size.
  - unfold sub_sizes. rewrite <- (map_ext _ _ shape_size l), <- (map_ext _ _ shape_size l'), <- !(map_map shape (λ t, ops_size (ops t))).
    by rewrite Hl.
Qed.

(* ------------------------------------------------------------------ *)
(** * In memory *)

Section fixups.
Context `{Platform} (tmp : Z).
Context (fdt size total r0 cpuid : Z) (rsv : list (Z * Z)).
Context (fdto sizeo totalo r0o cpuido : Z) (rsvo : list (Z * Z)).
Context (Hap : apart fdto sizeo fdt size).
Context (Htmp : 0 < tmp ∧ tmp mod 4 = 0 ∧ tmp + 4 < 2 ^ 32) (Hapt : apart tmp 4 fdt size) (Hapo : apart tmp 4 fdto sizeo).

#[local] Abbreviation base := (node_at fdt size total r0 cpuid rsv).
#[local] Abbreviation over := (node_at fdto sizeo totalo r0o cpuido rsvo).
#[local] Abbreviation changed := (changed tmp fdto sizeo).
#[local] Abbreviation value_place := (value_place fdto r0o rsvo).

(** Where the fixups lie, they stay. *)
Lemma child_stays name o f x o' m usedo :
  pos_child ([], o) name = Some ([f], x) → alike o' o → tree_child o' name = tree_child o name → over m [] o' 0 usedo →
  stays fdto sizeo totalo r0o cpuido rsvo x (node_place [f]) usedo m.
Proof using Type.
  clear. intros Hc Ha Ht Ho. destruct (pos_child_alike o o' name f x) as (f' & x' & Hc' & _ & Hf); [by symmetry|done|].
  unfold tree_child in Ht. rewrite Hc, Hc' in Ht. injection Ht as ->. exists [f']. rewrite (frame_place _ _ Hf).
  destruct (pos_child_path [] o' [] o' name [f'] x eq_refl Hc') as (f2 & _ & Hp).
  eapply (base_holds fdto); [exact Ho|symmetry; by eapply at_path_plug].
Qed.

(** One place, for a path and a name inside the overlay. *)
Lemma one_phandle_ok m o usedo symbols_off path ps name ns n w :
  over m [] o 0 usedo → mapped m tmp 4 → 0 <= symbols_off → is_u32 w → 0 <= n → place_ok o ps ns n = true →
  bytes_at m path ps → 0 < path → path + Z.of_nat (length ps) < 2 ^ 32 → Z.of_nat (length ps) < 2 ^ 31 →
  bytes_at m name ns → fdto <= name → name + Z.of_nat (length ns) <= fdto + sizeo → Z.of_nat (length ns) < 2 ^ 31 →
  let '(rc, o') := fix_at w o ps ns n in
  ∃ m', overlay_fixup_one_phandle tmp fdto symbols_off path (Z.of_nat (length ps)) name (Z.of_nat (length ns)) (s32 n) w m = Ok (rc, m') ∧
    changed m m' ∧ over m' [] o' 0 usedo.
Proof using Htmp Hapo.
  clear Hap Hapt. intros Ho Hm Hsym Hw Hn Hok Hb Hp0 Hpt Hp31 Hnb Hn0 Hnt Hn31. unfold place_ok in Hok. rewrite !andb_true_iff in Hok.
  destruct Hok as [[[[Hslash Hn4] _] _] _]. apply bool_decide_eq_true_1 in Hslash. apply Z.ltb_lt in Hn4.
  destruct (holds_node _ _ _ _ _ _ _ _ _ _ _ Ho) as [_ Hh]. destruct (holds_readable _ _ _ _ _ _ _ _ _ Hh) as (Hr & Hv & _ & _ & Htop).
  assert (fdt_path_offset_namelen m fdto 3 path (Z.of_nat (length ps)) =
    Ok (from_option pos_place (- FDT_ERR_NOTFOUND) (descend pos_child ([], o) (components ps)))) as Hpath.
  { by apply (absolute_from m fdto Hr Hv pos_place pos_child (holds fdto sizeo totalo r0o cpuido rsvo m usedo)). }
  destruct (fix_at w o ps ns n) as [rc o'] eqn:Efix. unfold overlay_fixup_one_phandle, fix_at in *.
  destruct (Z.ltb_spec symbols_off 0); [lia|]. rewrite (s32_small (Z.of_nat (length ps))), (s32_small (Z.of_nat (length ns))) by (unfold is_s32; lia).
  rewrite (wbind_rd _ _ _ _ Hpath). destruct (descend pos_child ([], o) (components ps)) as [[c [nm props subs]]|] eqn:Ed; cbn [from_option].
  2: { injection Efix as <- <-. rewrite Z.eqb_refl. exists m. by split_and!; [|apply changed_refl|]. }
  unfold pos_place. cbn [fst]. pose proof (ops_size_nonneg (ops_before c)) as Hc. fold (node_place c) in Hc.
  destruct (Z.eqb_spec (node_place c) (- FDT_ERR_NOTFOUND)); [unfold FDT_ERR_NOTFOUND in *; lia|]. destruct (Z.ltb_spec (node_place c) 0); [lia|].
  pose proof (descend_plug _ _ _ Ed) as Eo. cbn [fst snd] in Eo.
  assert (over m c (DTree nm props subs) (node_place c) usedo) as Hat by (by eapply (base_holds fdto)).
  destruct (slot_put tmp fdto sizeo totalo r0o cpuido rsvo Htmp Hapo m c _ _ usedo w Hat Hm) as (m1 & He1 & Hc1 & Hat1 & Hd & Hx).
  rewrite (wbind_ok _ _ _ _ _ He1). rewrite u32_s32, (u32_small n) by (unfold is_u32; lia). unfold apart in Hapo.
  assert (bytes_at m1 name ns) as Hnb1 by (apply (bytes_at_ext m); [intros x Hx'; apply Hx; lia|done]).
  destruct (node_buffer _ _ _ _ _ _ _ _ _ _ _ Ho) as [Hbuf _]. pose proof (bf_addr _ _ _ Hbuf) as [Hf0 _].
  destruct (setprop_inplace_partial_ok _ _ _ _ _ _ m1 c nm props subs _ usedo name ns (Z.to_nat n) tmp (be32 w) Hat1 Hnb1 ltac:(lia) ltac:(lia) Hd)
    as (rc2 & m2 & He2 & Hs2 & Hr2); [rewrite length_be32; lia|]. rewrite length_be32 in He2, Hr2. rewrite Z2Nat.id in He2 by lia.
  destruct (tree_prop props ns) as [old|].
  2: { destruct Hr2 as [-> ->]. injection Efix as <- <-. exists m1. split_and!; [exact He2|done|]. rewrite Eo. by eapply holds_base. }
  destruct (Z.ltb_spec (Z.of_nat (length old)) (n + 4)), (Nat.ltb_spec (length old) (Z.to_nat n + 4)); try lia.
  - destruct Hr2 as [-> ->]. injection Efix as <- <-. exists m1. split_and!; [exact He2|done|]. rewrite Eo. by eapply holds_base.
  - destruct Hr2 as [-> Hat2]. injection Efix as <- <-. exists m2. split_and!; [exact He2| |by eapply holds_base].
    eapply changed_trans; [exact Hc1|by apply (changed_over tmp fdto sizeo Hapo)].
Qed.

(** ** One list of places *)

Definition fixup_step (symbols_off phandle : Z) : Z * Z → W (Z * Z + Z) := λ '(value, len),
  parts ← rd (parse_fixup value len);
  match parts with
  | inr err => mret (inr err)
  | inl fx =>
      ret ← overlay_fixup_one_phandle tmp fdto symbols_off (fx_path fx) (fx_path_len fx)
              (fx_name fx) (fx_name_len fx) (fx_poffset fx) phandle;
      mret (if negb (ret =? 0) then inr ret else if 0 <? fx_len fx then inl (fx_value fx, fx_len fx) else inr 0)
  end.

(** The value [v] lies at [d], whatever becomes of the overlay [o]. *)
Definition remains (o : dtree) (usedo d : Z) (v : list Z) : Prop := ∀ m o', keeps_fixups o o' → over m [] o' 0 usedo →
  bytes_at m d v ∧ fdto < d ∧ 0 < fdto ∧ d + Z.of_nat (length v) <= fdto + sizeo ∧
  d + Z.of_nat (length v) + 4 < 2 ^ 32 ∧ Z.of_nat (length v) < 2 ^ 30.

Lemma fixup_pieces_ok o usedo d v symbols_off w :
  remains o usedo d v → 0 <= symbols_off → is_u32 w →
  ∀ fuel pre sfx m oi, v = pre ++ sfx → (length sfx < fuel)%nat → keeps_fixups o oi → over m [] oi 0 usedo → mapped m tmp 4 →
  forallb (piece_ok o) (pieces sfx) = true →
  let '(rc, o') := fold_until (fix_piece w) oi (pieces sfx) in
  ∃ m', wloop fuel (fixup_step symbols_off w) (d + Z.of_nat (length pre), Z.of_nat (length sfx)) m = Ok (rc, m') ∧
    changed m m' ∧ over m' [] o' 0 usedo.
Proof using Htmp Hapo.
  clear Hap Hapt. intros Hrem Hsym Hw. induction fuel as [|fuel IH]; [lia|]. intros pre sfx m oi Ev Hf Hk Ho Hm Hok.
  destruct (Hrem m oi Hk Ho) as (Hb & Hd & Hf0 & Ht & Ht4 & H30). rewrite Ev in Hb. apply bytes_at_app in Hb as [_ Hb].
  rewrite Ev, length_app in *. rewrite wloop_step. cbn beta iota delta [fixup_step].
  rewrite (wbind_rd _ _ _ _ (parse_fixup_ok m _ _ Hb ltac:(lia) ltac:(lia) ltac:(lia))).
  rewrite pieces_split in Hok |- *. pose proof (split_at_spec 0 sfx) as Hs. destruct (split_at 0 sfx) as [[s rest]|].
  2: { cbn. exists m. by split_and!; [|apply changed_refl|]. }
  destruct Hs as [-> _]. rewrite fold_until_cons. cbn [forallb] in Hok. apply andb_true_iff in Hok as [Hok Hrest].
  pose proof (fix_piece_keeps w oi (Some s)) as Hk1. rewrite (piece_ok_keeps o oi _ Hk) in Hk1. specialize (Hk1 Hok).
  change (piece_ok o (Some s)) with (match parse_string s with Some (path, name, n) => place_ok o path name n | None => true end) in Hok.
  change (fix_piece w oi (Some s)) with (match parse_string s with Some (path, name, n) => fix_at w oi path name n | None => (- FDT_ERR_BADOVERLAY, oi) end) in *.
  rewrite length_app in *. cbn [length] in *.
  destruct (parse_string s) as [[[ps ns] n]|] eqn:Ep.
  2: { cbn. exists m. by split_and!; [|apply changed_refl|]. }
  apply bytes_at_app in Hb as [Hb _]. destruct (parse_string_split _ _ _ _ Ep) as (l & El). rewrite El in Hb.
  assert (length s = length ps + S (length ns + S (length l)))%nat as Els by (rewrite El, length_app; cbn [length]; rewrite length_app; done).
  apply bytes_at_app in Hb as [Hbp Hb]. apply bytes_at_cons in Hb as [_ Hb]. apply bytes_at_app in Hb as [Hbn _].
  pose proof (one_phandle_ok m oi usedo symbols_off _ ps _ ns n w Ho Hm Hsym Hw (parse_nonneg _ _ _ _ Ep)
    ltac:(by rewrite (place_ok_keeps o)) Hbp ltac:(lia) ltac:(lia) ltac:(lia) Hbn ltac:(lia) ltac:(lia) ltac:(lia)) as H1.
  destruct (fix_at w oi ps ns n) as [rc o1]. cbn [fst snd fx_path fx_path_len fx_name fx_name_len fx_poffset fx_value fx_len] in *.
  destruct H1 as (m1 & He1 & Hc1 & Ho1). rewrite (wbind_ok _ _ _ _ _ He1).
  destruct (Z.eqb_spec rc 0) as [-> |Hne]; cbn [negb]; [|by exists m1]. destruct rest as [|b rest]; [by exists m1|].
  destruct (Z.ltb_spec 0 (Z.of_nat (length (b :: rest)))); [|cbn [length] in *; lia].
  pose proof (IH (pre ++ s ++ [0]) (b :: rest) m1 o1) as Hgo. destruct (fold_until _ o1 _) as [rc2 o2].
  destruct Hgo as (m2 & He2 & Hc2 & Ho2).
  - by rewrite <- !app_assoc.
  - cbn [length] in *. lia.
  - by etransitivity.
  - done.
  - by apply Hc1.
  - done.
  - exists m2. split_and!; [|by eapply changed_trans|done]. rewrite length_app in He2. cbn [length] in He2. rewrite length_app in He2. cbn [length] in He2. rewrite <- He2. f_equal. f_equal. lia.
Qed.

(** ** A symbol of the base *)

Definition fixup_symbol (symbols_off label : Z) (k : Z → W Z) : W Z :=
  '(symbol_path, prop_len) ← rd (fun m => fdt_getprop m fdt symbols_off label);
  if symbol_path =? 0 then mret prop_len
  else
    symbol_off ← rd (fun m => fdt_path_offset m fdt symbol_path);
    if symbol_off <? 0 then mret symbol_off
    else
      phandle ← rd (fun m => fdt_get_phandle m fdt symbol_off);
      if phandle =? 0 then mret (- FDT_ERR_NOTFOUND) else k phandle.

Lemma fixup_phandle_step symbols_off property :
  overlay_fixup_phandle tmp fdt fdto symbols_off property =
  ('(value, len, label) ← rd (fun m => fdt_getprop_by_offset m fdto property true);
   if value =? 0 then mret (if len =? - FDT_ERR_NOTFOUND then - FDT_ERR_INTERNAL else len)
   else fixup_symbol symbols_off label (fun w => wloop (S (Z.to_nat len)) (fixup_step symbols_off w) (value, len))).
Proof using Type. done. Qed.

(** Properties of a node that there is not. *)
Lemma getprop_nowhere m c t off used label name o :
  base m c t off used → c_name m label name → o < 0 → fdt_getprop m fdt o label = Ok (0, - FDT_ERR_BADOFFSET).
Proof using Type.
  clear. intros Hb ((Hs & Hz & H0) & Hs0 & Hst & Hl) Ho. destruct (node_mem _ _ _ _ _ _ _ _ _ _ _ Hb) as [Hmb Hwb].
  destruct (tree_fuel_node _ _ _ _ _ _ _ _ _ _ _ Hb) as (n & Hn & _). unfold fdt_getprop.
  rewrite (strlen_ok m label name) by (done || lia). cbn [mbind res_bind].
  unfold fdt_getprop_namelen, fdt_get_property_namelen_, fdt_first_property_offset, fdt_check_node_offset_.
  destruct (Z.ltb_spec o 0); [|lia]. cbn [orb mbind res_bind Z.ltb]. rewrite Hn. done.
Qed.

Definition symbols_place (t : dtree) : Z := from_option pos_place (- FDT_ERR_NOTFOUND) (pos_child ([], t) (chars "__symbols__")).

Lemma fixup_symbol_ok m t used label name k :
  base m [] t 0 used → c_name m label name → c_name m (rodata "phandle") (chars "phandle") →
  c_name m (rodata "linux,phandle") (chars "linux,phandle") → symbol_ok t name = true →
  match symbol_phandle t name with
  | inr err => err < 0 ∧ fixup_symbol (symbols_place t) label k m = Ok (err, m)
  | inl w => 0 <= symbols_place t ∧ is_u32 w ∧ fixup_symbol (symbols_place t) label k m = k w m
  end.
Proof using Type.
  clear Htmp Hap Hapt Hapo. intros Hb Hs Hn1 Hn2. unfold symbol_ok, symbol_phandle, symbols_place, fixup_symbol, tree_child.
  destruct (holds_node _ _ _ _ _ _ _ _ _ _ _ Hb) as [_ Hh].
  destruct (pos_child_shape t (chars "__symbols__")) as [-> |(f & [snm sprops ssubs] & E & Ef & _)].
  { intros _. cbn [fmap option_fmap option_map from_option]. split; [done|].
    by rewrite (wbind_rd _ _ _ _ (getprop_nowhere _ _ _ _ _ _ _ (- FDT_ERR_NOTFOUND) Hb Hs ltac:(done))). }
  rewrite E. cbn [fmap option_fmap option_map from_option snd]. unfold pos_place at 1 2 3. cbn [fst].
  pose proof (ops_size_nonneg (ops_before [f])) as H0. fold (node_place [f]) in H0.
  assert (holds fdt size total r0 cpuid rsv m used ([f], DTree snm sprops ssubs)) as Hsym.
  { apply (base_holds fdt size total r0 cpuid rsv m t); [exact Hb|by symmetry]. }
  pose proof (position_prop _ _ _ _ _ _ _ _ _ _ _ _ _ _ Hsym Hs) as Hp.
  destruct (tree_prop sprops name) as [v|]; cbn [mbind option_bind].
  2: { intros _. split; [done|]. by rewrite (wbind_rd _ _ _ _ Hp). }
  intros [Hin%bool_decide_eq_true_1 Hslash%bool_decide_eq_true_1]%andb_true_iff. destruct Hp as (d & Hg & Hval).
  rewrite (wbind_rd _ _ _ _ Hg). cbv iota beta. pose proof Hval as (_ & Hd & _). destruct (Z.eqb_spec d 0); [lia|].
  pose proof (value_name _ _ _ _ _ _ _ _ _ _ _ Hsym Hval Hin) as Hname.
  rewrite (wbind_rd _ _ _ _ (position_path _ _ _ _ _ _ _ _ t d (c_string v) Hh Hname ltac:(by destruct v as [|b v]; [|injection Hslash as ->]))).
  destruct (descend pos_child ([], t) (components (c_string v))) as [[c u]|] eqn:Ed; cbn [from_option]; [|by split].
  change (pos_place (c, u)) with (node_place c). pose proof (ops_size_nonneg (ops_before c)) as Hc. fold (node_place c) in Hc.
  destruct (Z.ltb_spec (node_place c) 0); [lia|].
  assert (base m c u (node_place c) used) as Hu by (apply (base_holds _ _ _ _ _ _ _ t); [exact Hb|by apply descend_plug in Ed]).
  rewrite (wbind_rd _ _ _ _ (position_phandle _ _ _ _ _ _ _ _ (c, u) Hu Hn1 Hn2 : fdt_get_phandle m fdt (node_place c) = _)). cbn [snd].
  destruct (Z.eqb_spec (tree_phandle u) 0); [by split|]. split_and!; [done|by eapply phandle_range|done].
Qed.

(** ** All of them *)

#[local] Abbreviation apply_names := (apply_names tmp fdt size fdto sizeo).
#[local] Arguments apply_name H tmp fdt size fdto sizeo m s%_string_scope : rename.
Ltac is_literal := unfold apply_literals; repeat (apply list_elem_of_here || apply list_elem_of_further).

Lemma value_remains o f fnm l n v r fsubs usedo :
  pos_child ([], o) fixups = Some ([f], DTree fnm (l ++ (n, v) :: r) fsubs) →
  remains o usedo (value_place (node_place [f]) fnm l) v.
Proof using Type.
  clear. intros Hc m o' [[Ha _] Ht] Ho. destruct (child_stays fixups o f _ o' m usedo Hc Ha Ht Ho) as (cf & Hfx).
  destruct (value_here _ _ _ _ _ _ _ _ _ _ _ _ _ _ _ _ Hfx) as (Hb & Hf & Hd & Htop & Hs & _ & _ & H30). split_and!; (done || lia).
Qed.

Lemma fixup_phandle_ok m t used o oi usedo f fnm l n v r fsubs :
  base m [] t 0 used → over m [] oi 0 usedo → keeps_fixups o oi → mapped m tmp 4 → apply_names m →
  pos_child ([], o) fixups = Some ([f], DTree fnm (l ++ (n, v) :: r) fsubs) →
  symbol_ok t n = true → forallb (piece_ok o) (pieces v) = true →
  let '(rc, o') := fix_label t oi (n, v) in
  ∃ m', overlay_fixup_phandle tmp fdt fdto (symbols_place t) (node_place [f] + prop_place fnm l) m = Ok (rc, m') ∧
    changed m m' ∧ over m' [] o' 0 usedo.
Proof using Htmp Hapo.
  clear Hap Hapt. intros Hb Ho Hk Hm Hn Hc Hsym Hok. pose proof (value_remains _ _ _ _ _ _ _ _ usedo Hc) as Hrem.
  destruct (child_stays fixups o f _ oi m usedo Hc (proj1 (proj1 Hk)) (proj2 Hk) Ho) as (cf & Hfx).
  destruct (getprop_place _ _ _ _ _ _ _ _ _ _ _ _ _ Hfx l n v r eq_refl) as (s & Hgo & _ & Hs & Hnz).
  rewrite !Z.add_assoc in Hgo. fold (value_place (node_place [f]) fnm l) in Hgo. rewrite fixup_phandle_step, (wbind_rd _ _ _ _ Hgo). cbv iota beta.
  destruct (Hrem m oi Hk Ho) as (_ & Hd & Hf0 & _). destruct (Z.eqb_spec (value_place (node_place [f]) fnm l) 0); [lia|].
  pose proof (fixup_symbol_ok m t used s n (fun w => wloop (S (Z.to_nat (Z.of_nat (length v)))) (fixup_step (symbols_place t) w)
      (value_place (node_place [f]) fnm l, Z.of_nat (length v))) Hb
    (inside_name _ _ _ _ _ _ _ _ _ _ _ _ _ Hfx Hs Hnz) (apply_name _ _ _ _ _ m "phandle" Hn ltac:(is_literal))
    (apply_name _ _ _ _ _ m "linux,phandle" Hn ltac:(is_literal)) Hsym) as Hr.
  unfold fix_label. cbn [fst snd]. destruct (symbol_phandle t n) as [w|err].
  2: { destruct Hr as [_ Hr]. exists m. split_and!; [exact Hr|apply changed_refl|done]. }
  destruct Hr as (Hsp & Hw & Hr). rewrite Nat2Z.id in Hr.
  pose proof (fixup_pieces_ok o usedo _ v (symbols_place t) w Hrem Hsp Hw (S (length v)) [] v m oi eq_refl ltac:(lia) Hk Ho Hm Hok) as Hp.
  cbn [length Z.of_nat] in Hp. rewrite Z.add_0_r in Hp. destruct (fold_until (fix_piece w) oi (pieces v)) as [rc o'].
  destruct Hp as (m' & He & Hc' & Ho'). exists m'. split_and!; [|done|done]. rewrite Nat2Z.id, <- He. exact Hr.
Qed.

Definition fixup_label (symbols_off property : Z) : W (option Z) :=
  ret ← overlay_fixup_phandle tmp fdt fdto symbols_off property; mret (return_if ret).

Lemma fixup_phandles_ok m t used o usedo :
  base m [] t 0 used → over m [] o 0 usedo → apply_names m → mapped m tmp 4 → good_external t o = true →
  let '(rc, o') := fix_external t o in
  ∃ m', overlay_fixup_phandles tmp fdt fdto m = Ok (rc, m') ∧ changed m m' ∧ over m' [] o' 0 usedo.
Proof using Hap Hapt Htmp Hapo.
  intros Hb Ho Hn Hm Hgood. unfold overlay_fixup_phandles, fix_external, good_external, tree_child in *.
  destruct (holds_node _ _ _ _ _ _ _ _ _ _ _ Ho) as [_ Hho]. destruct (holds_node _ _ _ _ _ _ _ _ _ _ _ Hb) as [_ Hh].
  pose proof (position_path _ _ _ _ _ _ _ _ _ _ _ Hho (apply_name _ _ _ _ _ m "/__fixups__" Hn ltac:(is_literal)) eq_refl) as Hp.
  change (components (chars "/__fixups__")) with [fixups] in Hp. cbn [descend] in Hp.
  destruct (pos_child_shape o fixups) as [E|(f & [fnm fprops fsubs] & E & _)]; rewrite E in *; cbn [fmap option_fmap option_map mbind option_bind from_option snd] in *.
  { rewrite (wbind_rd _ _ _ _ Hp), Z.eqb_refl. exists m. by split_and!; [|apply changed_refl|]. }
  destruct (fold_until (fix_label t) o fprops) as [rc o'] eqn:Efold. rewrite (wbind_rd _ _ _ _ Hp). unfold pos_place. cbn [fst]. pose proof (ops_size_nonneg (ops_before [f])) as Hf0. fold (node_place [f]) in Hf0.
  destruct (Z.eqb_spec (node_place [f]) (- FDT_ERR_NOTFOUND)); [unfold FDT_ERR_NOTFOUND in *; lia|]. destruct (Z.ltb_spec (node_place [f]) 0); [lia|].
  pose proof (position_path _ _ _ _ _ _ _ _ _ _ _ Hh (apply_name _ _ _ _ _ m "/__symbols__" Hn ltac:(is_literal)) eq_refl) as Hps.
  change (components (chars "/__symbols__")) with [chars "__symbols__"] in Hps. cbn [descend mbind option_bind] in Hps.
  assert (fdt_path_offset m fdt (rodata "/__symbols__") = Ok (symbols_place t)) as Hsp.
  { rewrite Hps. unfold symbols_place. by destruct (pos_child ([], t) (chars "__symbols__")). }
  rewrite (wbind_rd _ _ _ _ Hsp). cbv beta.
  assert ((symbols_place t <? 0) && negb (symbols_place t =? - FDT_ERR_NOTFOUND) = false) as ->.
  { unfold symbols_place. destruct (pos_child ([], t) (chars "__symbols__")) as [q|]; [|done]. cbn [from_option].
    pose proof (ops_size_nonneg (ops_before q.1)) as Hq. fold (node_place q.1) in Hq. fold (pos_place q) in Hq. lia. }
  fold (fixup_label (symbols_place t)).
  destruct (fold_loop (λ _, fix_label t) (λ oi mi, keeps_fixups o oi ∧ changed m mi ∧ over mi [] oi 0 usedo)
    (stays fdto sizeo totalo r0o cpuido rsvo (DTree fnm fprops fsubs) (node_place [f]) usedo)
    (fdt_for_each_property_offset fdto (node_place [f]) (fixup_label (symbols_place t)))
    (fixup_label (symbols_place t)) (λ l, node_place [f] + prop_place fnm l) o fprops m) as (m' & He & _ & Hc & Ho').
  - intros J Q HJ HJ0 Hbody. apply (for_each_property_stays fdto sizeo totalo r0o cpuido rsvo J Q _ _ fnm fprops fsubs _ usedo);
      [by eapply (child_stays fixups o)|done|].
    intros l lab v r mi El _ HJi. destruct (Hbody l (lab, v) r mi El HJi) as (ret & m' & He & Hr). exists ret, m'. split; [done|].
    destruct ret; [done|]. split; [by eapply HJ|done].
  - intros oi mi ([[Ha _] Ht] & _ & Hi). by eapply (child_stays fixups o).
  - by split_and!; [|apply changed_refl|].
  - intros l [lab v] r oi mi El (Hk & Hci & Hi). subst fprops. rewrite forallb_app in Hgood. cbn [forallb fst snd] in Hgood.
    apply andb_true_iff in Hgood as [_ [[Hsym Hok]%andb_true_iff _]%andb_true_iff].
    pose proof (fixup_phandle_ok mi t used o oi usedo f fnm l lab v r fsubs (base_changed tmp fdt size total r0 cpuid rsv fdto sizeo totalo r0o cpuido rsvo
      Hap Hapt _ _ _ _ _ _ _ _ _ _ Hci Hi Hb) Hi Hk (proj2 Hci Hm) (apply_names_changed tmp fdt size fdto sizeo _ _ Hci Hn) E Hsym Hok) as Hr.
    pose proof (fix_label_keeps t oi (lab, v) (label_ok_keeps _ _ _ Hk Hok)) as Hk'. destruct (fix_label t oi (lab, v)) as [rc1 o1]. cbn [fst snd] in *.
    destruct Hr as (m' & He & Hc' & Ho'). exists m'. unfold fixup_label. rewrite (wbind_ok _ _ _ _ _ He).
    split_and!; [done|by etransitivity|by eapply changed_trans|done].
  - unfold fold_until in Efold. rewrite Efold in He, Ho'. cbn [fst snd] in *. exists m'. unfold or_return.
    rewrite (wbind_ok _ _ _ _ _ He). unfold return_if. by destruct (Z.eqb_spec rc 0) as [-> |].
Qed.

(** C13: [overlay_fixup_phandles] resolves the references of an overlay into the base.  For
    every property below __fixups__ it looks up the symbol of that name, and the phandle of
    the node of the base that it stands for, and stores it wherever in the overlay the
    strings of the property say: a path, a property's name and an offset in it.  It ends,
    and changes nothing else.  An error is that of the first string or symbol with a fault:
    no string, or no node of that path ([-FDT_ERR_BADOVERLAY]), no such property, symbol,
    node or phandle ([-FDT_ERR_NOTFOUND]), an offset beyond the end of the value
    ([-FDT_ERR_NOSPACE]), or no symbols at all ([-FDT_ERR_BADOFFSET]).  Assumed of every
    such string that parses: its path is absolute and does not lead into __fixups__ or
    __local_fixups__, its offset is below 2^32 - 4 (above, fdt_wip.c:25 wraps), and its
    property is not target-path; and of the symbols looked up, that they are NUL-terminated
    absolute paths. *)
Theorem overlay_fixup_phandles_spec m t used o usedo :
  base m [] t 0 used → over m [] o 0 usedo → apply_names m → mapped m tmp 4 → good_external t o = true →
  let '(rc, o') := fix_external t o in
  ∃ m', overlay_fixup_phandles tmp fdt fdto m = Ok (rc, m') ∧ changed m m' ∧ base m' [] t 0 used ∧
    over m' [] o' 0 usedo ∧ alike o' o.
Proof using Hap Hapt Htmp Hapo.
  intros Hb Ho Hn Hm Hgood. pose proof (fixup_phandles_ok m t used o usedo Hb Ho Hn Hm Hgood) as Hr.
  pose proof (fix_external_keeps t o Hgood) as [[Ha _] _]. destruct (fix_external t o) as [rc o'].
  destruct Hr as (m' & He & Hc & Ho'). exists m'. split_and!; [done|done| |done|done].
  by apply (base_changed tmp fdt size total r0 cpuid rsv fdto sizeo totalo r0o cpuido rsvo Hap Hapt m m' [] t 0 used [] o' 0 usedo).
Qed.
End fixups.

(* ------------------------------------------------------------------ *)
(** * Examples *)

#[local] Open Scope string_scope.

(** A base in which [ref] is a symbol for the node with the phandle 5. *)
Definition symbol_base : dtree :=
  DTree [] [] [DTree (chars "soc") [(chars "phandle", be32 5)] []; DTree (chars "__symbols__") [(chars "ref", cstr "/soc")] []].

(** An overlay with two references to it: the target of its fragment, and a word inside it;
    [v] and [w] are what stands there, [p] is the second place. *)
Definition reference_overlay (p : String.string) (v w : Z) : dtree :=
  DTree [] []
    [DTree (chars "fragment@0") [(chars "target", be32 v)]
       [DTree (chars "__overlay__") [] [DTree (chars "dev") [(chars "ref", be32 7 ++ be32 w)] []]];
     DTree (chars "__fixups__") [(chars "ref", cstr "/fragment@0:target:0" ++ cstr p)] []].
Definition second_place : String.string := "/fragment@0/__overlay__/dev:ref:4".

(** Where there is no such property, or no space behind the offset, the places before it
    have been written. *)
Example fixups_up_to_the_error :
  let absent := "/fragment@0/__overlay__/dev:reg:4" in
  let outside := "/fragment@0/__overlay__/dev:ref:5" in
  fix_external symbol_base (reference_overlay absent 0 0) = (- FDT_ERR_NOTFOUND, reference_overlay absent 5 0) ∧
  fix_external symbol_base (reference_overlay outside 0 0) = (- FDT_ERR_NOSPACE, reference_overlay outside 5 0).
Proof. vm_compute. by split. Qed.

(** A symbol that the base has not got, and a base without symbols. *)
Example no_symbol_to_fix :
  (fix_external (DTree [] [] [DTree (chars "__symbols__") [] []]) (reference_overlay second_place 0 0)).1 = - FDT_ERR_NOTFOUND ∧
  (fix_external (DTree [] [] []) (reference_overlay second_place 0 0)).1 = - FDT_ERR_BADOFFSET.
Proof. vm_compute. by split. Qed.
#[local] Close Scope string_scope.

Lemma overlay_fixup_phandles_spec_witness :
  ∃ m m' used, @overlay_fixup_phandles overlay_platform 0x3000 base_addr over_addr m = Ok (0, m') ∧
    node_at over_addr 512 512 40 0 [(0, 0)] m' [] (reference_overlay second_place 5 5) 0 used.
Proof.
  destruct (two_trees_at sample_strings symbol_base (reference_overlay second_place UINT_MAX 0)) as [Hb Ho]; [vm_compute; reflexivity..|].
  pose proof (@overlay_fixup_phandles_spec overlay_platform 0x3000 base_addr 512 512 40 0 [(0, 0)] over_addr 512 512 40 0 [(0, 0)]
    ltac:(right; vm_compute; discriminate) ltac:(vm_compute; repeat split) ltac:(left; vm_compute; discriminate)
    ltac:(left; vm_compute; discriminate) _ _ _ _ _ Hb Ho) as Hr.
  assert (fix_external symbol_base (reference_overlay second_place UINT_MAX 0) = (0, reference_overlay second_place 5 5)) as E
    by (vm_compute; reflexivity).
  rewrite E in Hr. destruct Hr as (m' & He & _ & _ & Ho' & _).
  - apply sample_apply_names.
  - apply sample_slot.
  - vm_compute. reflexivity.
  - eexists _, m', _. split; [exact He|exact Ho'].
Defined.
