(* ===== verification/FdtGetPath.v ===== *)
(** The path of a node: [fdt_get_path] of src/libfdt/fdt_ro.c collects it on a walk to the
    node, in a buffer that may lie inside the tree; [get_path_len] of
    src/libfdt/fdt_overlay.c counts its bytes on the way up. *)
From S2P Require Import Prelude Machine Crt0 SampleTree Fdt FdtRo FdtCheck FdtTree FdtLookup FdtPath FdtWrite FdtSw FdtRw FdtImage FdtBuild FdtFinish FdtRead FdtEdit FdtNode FdtEncode FdtChildren FdtPack FdtTreeEdit FdtPositions FdtInplace FdtOverlay FdtMerge FdtFragments FdtPhandles FdtRefs FdtConflicts.
From stdpp Require Import base list gmap.
From Stdlib Require Import ZArith Lia.
#[local] Open Scope Z_scope.

(* ------------------------------------------------------------------ *)
(** * Names and paths *)

(** The names on the way from the root to a position, that of the root first. *)
Definition names_above (c : list frame) : list (list Z) := rev (map f_name c).
Definition pos_names (p : position) : list (list Z) := names_above p.1 ++ [root_name p.2].

(** A slash behind every name, as [fdt_get_path] collects them; and a path. *)
Definition join (names : list (list Z)) : list Z := flat_map (λ n, n ++ [slash]) names.
Definition path_string (names : list (list Z)) : list Z :=
  match names with [] => [slash] | _ => flat_map (cons slash) names end.
Definition pos_path (p : position) : list Z := path_string (tail (pos_names p)).

(** A name that can stand between two slashes. *)
Definition good_name (n : list Z) : bool := negb (bool_decide (n = [])) && forallb (λ c, negb (c =? slash)) n.
(** All nodes below this one have such names. *)
Fixpoint well_named (t : dtree) : bool :=
  let 'DTree _ _ subs := t in forallb (λ u, good_name (root_name u) && well_named u) subs.

Lemma join_app l1 l2 : join (l1 ++ l2) = join l1 ++ join l2.
Proof. apply flat_map_app. Qed.

Lemma join_path n ns : join (n :: ns) = n ++ flat_map (cons slash) ns ++ [slash].
Proof.
  unfold join. revert n. induction ns as [|n' ns IH]; intros n; [cbn; by rewrite app_nil_r|].
  cbn [flat_map]. cbn [flat_map] in IH. rewrite IH. by rewrite <- !app_assoc.
Qed.

(** The path and its end, as [fdt_get_path] makes it out of the names. *)
Lemma path_of_join ns :
  path_string ns ++ [0] = match ns with [] => [slash; 0] | _ => removelast (join ([] :: ns)) ++ [0] end.
Proof.
  rewrite join_path. cbn [app]. destruct ns; [done|]. by rewrite removelast_last.
Qed.

Lemma pos_names_frame f c u : pos_names (f :: c, u) = pos_names (c, plug1 u f) ++ [root_name u].
Proof. reflexivity. Qed.

Lemma length_names_above c : length (names_above c) = length c.
Proof. unfold names_above. by rewrite length_rev, length_map. Qed.

Lemma length_pos_names p : length (pos_names p) = S (length p.1).
Proof. unfold pos_names. rewrite length_app, length_names_above. cbn. lia. Qed.

Lemma root_name_of c t : hd [] (pos_names (c, t)) = root_name (plug c t).
Proof.
  revert t. induction c as [|f c IH]; intros t; [done|]. change (plug (f :: c) t) with (plug c (plug1 t f)).
  rewrite <- IH, pos_names_frame. destruct (pos_names (c, plug1 t f)) eqn:E; [|done].
  apply (f_equal length) in E. by rewrite length_pos_names in E.
Qed.

(** The names above a position of a well-named tree. *)
Lemma well_named_plug1 f t : well_named (plug1 t f) = true → good_name (root_name t) = true ∧ well_named t = true.
Proof.
  unfold plug1. cbn [well_named]. rewrite forallb_app. cbn [forallb]. rewrite !andb_true_iff. tauto.
Qed.

Lemma well_named_below c t : well_named (plug c t) = true → well_named t = true.
Proof.
  revert t. induction c as [|f c IH]; intros t; [done|]. intros H%(IH (plug1 t f)). by apply well_named_plug1 in H as [? ?].
Qed.

Lemma well_named_names c t : well_named (plug c t) = true → Forall (λ n, good_name n = true) (tail (pos_names (c, t))).
Proof.
  revert t. induction c as [|f c IH]; intros t H; [by constructor|]. rewrite pos_names_frame.
  change (plug (f :: c) t) with (plug c (plug1 t f)) in H. pose proof (IH _ H) as Hc.
  destruct (pos_names (c, plug1 t f)) as [|n ns] eqn:E; [by apply (f_equal length) in E; rewrite length_pos_names in E|].
  cbn [app tail] in *. apply Forall_app. split; [done|]. apply Forall_singleton.
  apply well_named_below in H. by apply well_named_plug1 in H as [? ?].
Qed.

Lemma good_name_chars n : good_name n = true → n ≠ [] ∧ Forall (λ c, c ≠ slash) n.
Proof.
  unfold good_name. rewrite andb_true_iff, negb_true_iff, bool_decide_eq_false. intros [Hne Hs]. split; [done|].
  rewrite forallb_forall in Hs. apply Forall_forall. intros c Hc%list_elem_of_In%Hs.
  rewrite negb_true_iff in Hc. by apply Z.eqb_neq in Hc.
Qed.

(* ------------------------------------------------------------------ *)
(** * Trees up to their properties *)

(** All properties changed. *)
Fixpoint map_props (f : list (list Z * list Z) → list (list Z * list Z)) (t : dtree) : dtree :=
  let 'DTree nm props subs := t in DTree nm (f props) (map (map_props f) subs).
Definition map_frame (f : list (list Z * list Z) → list (list Z * list Z)) (fr : frame) : frame :=
  Frame (f_name fr) (f (f_props fr)) (map (map_props f) (f_left fr)) (map (map_props f) (f_right fr)).
Definition map_pos (f : list (list Z * list Z) → list (list Z * list Z)) (p : position) : position :=
  (map (map_frame f) p.1, map_props f p.2).

Lemma map_plug f c t : map_props f (plug c t) = plug (map (map_frame f) c) (map_props f t).
Proof.
  revert t. induction c as [|fr c IH]; intros t; [done|]. change (plug (fr :: c) t) with (plug c (plug1 t fr)).
  rewrite IH. cbn [map]. change (plug (map_frame f fr :: ?c') ?u) with (plug c' (plug1 u (map_frame f fr))).
  f_equal. unfold plug1. cbn [map_props map_frame f_name f_props f_left f_right]. by rewrite map_app.
Qed.

Lemma map_positions f t : ∀ c, positions (map (map_frame f) c) (map_props f t) = map (map_pos f) (positions c t).
Proof.
  induction t as [nm props subs IH] using dtree_ind'. intros c. cbn [positions map_props map]. f_equal.
  assert (∀ r l, subs = l ++ r →
    below_with positions (map (map_frame f) c) nm (f props) (map (map_props f) l) (map (map_props f) r) =
    map (map_pos f) (below_with positions c nm props l r)) as Hgo; [|by apply (Hgo subs [])].
  induction r as [|u r IHr]; intros l Es; [done|]. cbn [map below_with]. rewrite map_app. f_equal.
  - rewrite Forall_forall in IH. rewrite <- (IH u ltac:(rewrite Es; apply elem_of_app; right; left) (Frame nm props l r :: c)). done.
  - rewrite <- (IHr (l ++ [u])) by (by rewrite <- app_assoc). by rewrite map_app.
Qed.

Lemma map_names f p : pos_names (map_pos f p) = pos_names p.
Proof.
  destruct p as [c [nm props subs]]. unfold pos_names, names_above, map_pos. cbn [fst snd map_props root_name].
  by rewrite map_map.
Qed.

(** Only the sizes of the values left: enough for where everything lies. *)
Definition zero_values (props : list (list Z * list Z)) : list (list Z * list Z) :=
  map (λ p, (p.1, replicate (length p.2) 0)) props.
Definition skeleton : dtree → dtree := map_props zero_values.

Lemma zero_values_size props : props_size (zero_values props) = props_size props.
Proof.
  unfold props_size, zero_values. induction props as [|p props IH]; [done|]. cbn [map ops_size foldr op_size prop_op fst snd].
  rewrite !item_size_prop, length_replicate. unfold ops_size in IH. lia.
Qed.

Lemma skeleton_size t : ops_size (ops (skeleton t)) = ops_size (ops t).
Proof.
  induction t as [nm props subs IH] using dtree_ind'. unfold skeleton. cbn [map_props]. rewrite !ops_size_node.
  pose proof (zero_values_size props) as Hp. unfold props_size in Hp. rewrite Hp. do 2 f_equal.
  induction IH as [|t subs Ht _ IH]; [done|]. cbn [map flat_map]. rewrite !ops_size_app. unfold skeleton in Ht. lia.
Qed.

Lemma skeleton_sizes l : ops_size (flat_map ops (map (map_props zero_values) l)) = ops_size (flat_map ops l).
Proof.
  induction l as [|t l IH]; [done|]. cbn [map flat_map]. rewrite !ops_size_app, IH. pose proof (skeleton_size t) as Ht.
  unfold skeleton in Ht. by rewrite Ht.
Qed.

Lemma skeleton_place p : pos_place (map_pos zero_values p) = pos_place p.
Proof.
  destruct p as [c t]. unfold pos_place, map_pos. cbn [fst]. unfold node_place. induction c as [|f c IH]; [done|].
  cbn [map ops_before]. rewrite !ops_size_app, IH. unfold map_frame. cbn [f_name f_props f_left]. rewrite skeleton_sizes.
  unfold node_ops. cbn [ops_size foldr op_size]. pose proof (zero_values_size (f_props f)) as Hp. unfold props_size, ops_size in Hp.
  by rewrite Hp.
Qed.

(** The stops of a walk over the tree: where each node lies, and the names down to it. *)
Definition stop (p : position) : Z * list (list Z) := (pos_place p, pos_names p).
Definition stops (t : dtree) : list (Z * list (list Z)) := map stop (positions [] t).

Lemma stops_skeleton t : stops (skeleton t) = stops t.
Proof.
  unfold stops, skeleton. pose proof (map_positions zero_values t []) as E. cbn [map] in E. rewrite E, map_map. apply map_ext. intros p.
  unfold stop. by rewrite skeleton_place, map_names.
Qed.

(** ** The order of the stops *)

(** The next stop of a walk: the names of the last one, up to some depth, and one more. *)
Definition grows (ns ns' : list (list Z)) : Prop := ∃ k n, (1 <= k <= length ns)%nat ∧ ns' = take k ns ++ [n].
Definition steps (l : list (list (list Z))) : Prop := ∀ i x y, l !! i = Some x → l !! S i = Some y → grows x y.

Lemma steps_cons x l : match l with y :: _ => grows x y | [] => True end → steps l → steps (x :: l).
Proof. intros Hx Hl [|i] a b; cbn; [|apply Hl]. destruct l as [|y l]; [done|]. by intros [= <-] [= <-]. Qed.

Lemma steps_app l r :
  steps l → steps r → (∀ x y, x ∈ l → head r = Some y → grows x y) → steps (l ++ r).
Proof.
  intros Hl Hr Hb. induction l as [|x l IH]; [done|]. cbn [app]. apply steps_cons.
  - destruct l as [|y l]; cbn [app]; [|apply (Hl 0%nat); done]. destruct r as [|y r]; [done|]. apply Hb; [by left|done].
  - apply IH; [intros i; apply (Hl (S i))|]. intros y z Hy. apply Hb. by right.
Qed.

Lemma positions_head c t : head (positions c t) = Some (c, t).
Proof. by destruct t. Qed.

Lemma positions_below t : ∀ c p, p ∈ positions c t → ∃ l, pos_names p = pos_names (c, t) ++ l.
Proof.
  induction t as [nm props subs IH] using dtree_ind'. intros c p. cbn [positions]. rewrite elem_of_cons.
  intros [-> |Hp]; [exists []; by rewrite app_nil_r|].
  assert (∀ r l, subs = l ++ r → p ∈ below_with positions c nm props l r → ∃ l, pos_names p = pos_names (c, DTree nm props subs) ++ l) as Hgo.
  2: { by apply (Hgo subs []). }
  induction r as [|u r IHr]; intros l Es; [by intros ?%elem_of_nil|]. cbn [below_with]. rewrite elem_of_app. intros [Hin|Hin].
  - rewrite Forall_forall in IH. destruct (IH u ltac:(rewrite Es; apply elem_of_app; right; left) _ _ Hin) as [l' ->].
    exists (root_name u :: l'). rewrite pos_names_frame. change (plug1 u (Frame nm props l r)) with (DTree nm props (l ++ u :: r)).
    by rewrite <- app_assoc.
  - apply (IHr (l ++ [u])); [by rewrite <- app_assoc|done].
Qed.

Lemma positions_steps t : ∀ c, steps (map pos_names (positions c t)).
Proof.
  induction t as [nm props subs IH] using dtree_ind'. intros c. cbn [positions map].
  set (top := pos_names (c, DTree nm props subs)).
  assert (∀ x u l r, (∃ l', x = top ++ l') → subs = l ++ u :: r → grows x (pos_names (Frame nm props l r :: c, u))) as Hgrow.
  { intros x u l r [l' ->] Es. exists (length top), (root_name u). rewrite length_app, take_app_length. split; [unfold top; rewrite length_pos_names; lia|].
    rewrite pos_names_frame. unfold top. by rewrite Es. }
  assert (∀ r l, subs = l ++ r → steps (map pos_names (below_with positions c nm props l r)) ∧
    ∀ p, p ∈ below_with positions c nm props l r → ∃ l', pos_names p = top ++ l') as Hgo.
  { induction r as [|u r IHr]; intros l Es; [split; [by intros ? ? ?|by intros ? ?%elem_of_nil]|]. cbn [below_with].
    destruct (IHr (l ++ [u])) as [Hs Hb]; [by rewrite <- app_assoc|].
    assert (∀ p, p ∈ positions (Frame nm props l r :: c) u → ∃ l', pos_names p = top ++ l') as Hu.
    { intros p Hp. destruct (positions_below u _ _ Hp) as [l' ->]. rewrite pos_names_frame. exists (root_name u :: l').
      unfold top. rewrite Es. change (plug1 u (Frame nm props l r)) with (DTree nm props (l ++ u :: r)). by rewrite <- app_assoc. }
    split.
    - rewrite map_app. apply steps_app; [|exact Hs|].
      + rewrite Forall_forall in IH. apply IH. rewrite Es. apply elem_of_app. right. left.
      + intros x y [p [-> Hp]]%list_elem_of_fmap Hy. destruct r as [|v r]; [done|]. cbn [below_with] in Hy.
        rewrite map_app in Hy. pose proof (positions_head (Frame nm props (l ++ [u]) r :: c) v) as Hv.
        destruct (positions _ v) as [|q qs]; [done|]. injection Hv as ->. injection Hy as <-.
        apply Hgrow; [by apply Hu|by rewrite <- app_assoc].
    - intros p. rewrite elem_of_app. intros [Hp|Hp]; [by apply Hu|by apply Hb]. }
  destruct (Hgo subs [] eq_refl) as [Hs _]. apply steps_cons; [|done]. destruct subs as [|u r]; [done|]. cbn [below_with].
  rewrite map_app. pose proof (positions_head (Frame nm props [] r :: c) u) as Hu. destruct (positions _ u) as [|q qs]; [done|].
  injection Hu as ->. apply Hgrow; [|done]. exists []. by rewrite app_nil_r.
Qed.

Lemma root_name_map f t : root_name (map_props f t) = root_name t.
Proof. by destruct t. Qed.

Lemma well_named_map f t : well_named (map_props f t) = well_named t.
Proof.
  induction t as [nm props subs IH] using dtree_ind'. cbn [map_props well_named].
  induction IH as [|u subs Hu _ IH]; [done|]. cbn [map forallb]. rewrite IH, Hu. by destruct u.
Qed.

(** A position is one of those of its tree. *)
Lemma position_of_plug c t : (c, t) ∈ positions [] (plug c t).
Proof.
  assert (∀ t c' q, q ∈ positions c' t → ∀ f u, plug1 u f = q.2 → (f :: q.1, u) ∈ positions c' t) as Hstep.
  { clear. intros t. induction t as [nm props subs IH] using dtree_ind'. intros c' q Hq f u Hf. cbn [positions] in *.
    apply elem_of_cons. right. apply elem_of_cons in Hq as [-> |Hq].
    - cbn [fst snd] in *. destruct f as [fn fp fl fr]. unfold plug1 in Hf. cbn [f_name f_props f_left f_right] in Hf. injection Hf as -> -> <-.
      assert (∀ r l0 l1, l0 ++ l1 = fl → r = l1 ++ u :: fr →
        (Frame nm props fl fr :: c', u) ∈ below_with positions c' nm props l0 r) as Hgo; [|by apply (Hgo _ [] fl)].
      intros r l0 l1. revert r l0. induction l1 as [|v l1 IHl]; intros r l0 El ->; cbn [app below_with]; apply elem_of_app.
      + left. rewrite app_nil_r in El. subst l0. destruct u. cbn [positions]. by left.
      + right. apply IHl; [by rewrite <- El, <- app_assoc|done].
    - assert (∀ r l, subs = l ++ r → q ∈ below_with positions c' nm props l r → (f :: q.1, u) ∈ below_with positions c' nm props l r) as Hgo.
      2: { by apply (Hgo subs []). }
      induction r as [|v r IHr]; intros l Es; [by intros ?%elem_of_nil|]. cbn [below_with]. rewrite !elem_of_app. intros [Hin|Hin].
      + left. rewrite Forall_forall in IH. apply (IH v); [rewrite Es; apply elem_of_app; right; left|done|done].
      + right. apply (IHr (l ++ [v])); [by rewrite <- app_assoc|done]. }
  revert t. induction c as [|f c IH]; intros t; [destruct t; by left|].
  change (plug (f :: c) t) with (plug c (plug1 t f)). by apply (Hstep _ [] (c, plug1 t f) (IH _) f t).
Qed.

Lemma stop_of_plug c t : ∃ j, stops (plug c t) !! j = Some (node_place c, pos_names (c, t)).
Proof.
  destruct (list_elem_of_lookup_1 _ _ (position_of_plug c t)) as [j Hj]. exists j. unfold stops. by rewrite list_lookup_fmap, Hj.
Qed.

(* ------------------------------------------------------------------ *)
(** * The walk over the stops *)

Lemma walk_depths m fdt t : ∀ c e d, read_tree m fdt e = t →
  map snd (tree_nodes d e) = map (λ p : position, d + Z.of_nat (length p.1) - Z.of_nat (length c)) (positions c t).
Proof.
  induction t as [nm props subs IH] using dtree_ind'. intros c [o ps ss] d Et. cbn [read_tree] in Et. injection Et as _ _ Ess.
  cbn [tree_nodes positions map snd fst]. f_equal; [lia|].
  assert (∀ r l ds, subs = l ++ r → map (read_tree m fdt) ds = r →
    map snd (flat_map (tree_nodes (d + 1)) ds) =
    map (λ p : position, d + Z.of_nat (length p.1) - Z.of_nat (length c)) (below_with positions c nm props l r)) as Hgo; [|by apply (Hgo subs [])].
  induction r as [|u r IHr]; intros l ds Es Er; [by apply map_eq_nil in Er as ->|]. apply map_eq_cons in Er as (e & ds' & -> & Eu & Er).
  cbn [flat_map below_with]. rewrite !map_app, (IHr (l ++ [u]) ds') by (done || by rewrite <- app_assoc). f_equal.
  rewrite Forall_forall in IH. rewrite (IH u ltac:(rewrite Es; apply elem_of_app; right; left) (Frame nm props l r :: c) e (d + 1) Eu).
  apply map_ext. intros p. cbn [length]. lia.
Qed.

Section stops.
Context (fdt size total r0 cpuid : Z) (rsv : list (Z * Z)).
#[local] Abbreviation node_at := (node_at fdt size total r0 cpuid rsv).
#[local] Abbreviation holds := (holds fdt size total r0 cpuid rsv).

Definition stop_depth (ns : list (list Z)) : Z := Z.of_nat (length ns) - 1.

(** A stop of the walk as a node of the parse. *)
Lemma stops_nodes m t used : holds m used ([], t) →
  ∃ root, block_at m fdt 0 (Some root) ∧ readable_tree m fdt ∧ valid_tree m fdt ∧
    ∀ i o ns, stops t !! i = Some (o, ns) → ∃ e, tree_nodes 0 root !! i = Some (e, stop_depth ns) ∧ node_off e = o.
Proof using Type.
  intros Ht. destruct (tree_walk _ _ _ _ _ _ _ _ _ Ht) as (root & Hb & Hr & Hv & Hw). exists root. split_and!; [done..|].
  intros i o ns Hi. unfold stops in Hi. rewrite list_lookup_fmap in Hi. destruct (positions [] t !! i) as [p|] eqn:Ep; [|done].
  injection Hi as <- <-. destruct (Forall2_lookup_r _ _ _ _ _ Hw Ep) as ([e d] & He & Ho & _). exists e.
  assert (read_tree m fdt root = t) as Et.
  { pose proof (positions_head [] t) as Hp. destruct root as [ro rp rs], (positions [] t) as [|q qs]; [done|]. injection Hp as ->.
    inversion Hw as [|? ? ? ? [_ Hq] _]; subst. exact Hq. }
  pose proof (f_equal (λ l, l !! i) (walk_depths m fdt t [] root 0 Et)) as Hd. cbn beta in Hd.
  rewrite !list_lookup_fmap, He, Ep in Hd. cbn in Hd. injection Hd as ->. rewrite He. unfold stop_depth.
  rewrite length_pos_names. split; [|done]. do 2 f_equal. lia.
Qed.

Lemma next_stop m t used i o ns o' ns' :
  holds m used ([], t) → stops t !! i = Some (o, ns) → stops t !! S i = Some (o', ns') →
  fdt_next_node m fdt o (Some (stop_depth ns)) = Ok (o', Some (stop_depth ns')) ∧ o < o'.
Proof using Type.
  intros Ht Hi Hi'. destruct (stops_nodes _ _ _ Ht) as (root & Hb & Hr & Hv & Hall).
  destruct (Hall _ _ _ Hi) as (e & He & Eo). destruct (Hall _ _ _ Hi') as (e' & He' & Eo').
  pose proof (proj2 (next_node_at m fdt root i _ _ Hr Hv Hb He)) as Hn. rewrite He' in Hn. destruct Hn as [_ Hn].
  rewrite Eo, Eo' in Hn. split; [done|]. pose proof (names_blob m fdt Hr Hv) as Hbl.
  pose proof (at_node_sorted m fdt Hbl _ _ _ (at_nth_node m fdt root i _ _ Hbl Hb He)) as Hs.
  rewrite <- Eo, <- Eo'. rewrite Forall_forall in Hs. apply (Hs (e', stop_depth ns')).
  rewrite <- (Nat.add_0_r (S i)), <- lookup_drop in He'. by eapply list_elem_of_lookup_2.
Qed.

(** The stops lie further and further on. *)
Lemma stops_sorted m t used i j o ns o' ns' :
  holds m used ([], t) → stops t !! i = Some (o, ns) → stops t !! j = Some (o', ns') → (i < j)%nat → o + Z.of_nat (j - i) <= o'.
Proof using Type.
  intros Ht Hi. revert o' ns'. induction j as [|j IH]; intros o' ns' Hj Hlt; [lia|].
  destruct (lookup_lt_is_Some_2 (stops t) j) as [[oj nj] Ej]; [apply lookup_lt_Some in Hj; lia|].
  destruct (next_stop _ _ _ _ _ _ _ _ Ht Ej Hj) as [_ Hjj]. destruct (decide (i = j)) as [-> |Hne].
  - rewrite Hi in Ej. injection Ej as <- <-. lia.
  - specialize (IH _ _ Ej ltac:(lia)). lia.
Qed.

(** What the stop is. *)
Lemma stop_holds m t used i o ns :
  holds m used ([], t) → stops t !! i = Some (o, ns) →
  ∃ c nm props subs, node_at m c (DTree nm props subs) o used ∧ ns = names_above c ++ [nm] ∧ o = node_place c ∧ t = plug c (DTree nm props subs).
Proof using Type.
  intros Ht Hi. unfold stops in Hi. rewrite list_lookup_fmap in Hi. destruct (positions [] t !! i) as [[c [nm props subs]]|] eqn:Ep; [|done].
  injection Hi as <- <-. exists c, nm, props, subs.
  pose proof (positions_plug t [] _ (list_elem_of_lookup_2 _ _ _ Ep)) as Et. cbn [fst snd] in Et. change (plug [] t) with t in Et.
  rewrite <- Et in Ht. split_and!; [exact (proj1 (holds_whole _ _ _ _ _ _ _ _ c _) Ht)|done|done|done].
Qed.
End stops.

(* ------------------------------------------------------------------ *)
(** * Components in a buffer *)

(** The names that have been collected: as many as fit, from the first on. *)
Definition fitted (buflen : Z) (ns q : list (list Z)) : Prop :=
  ∃ rest, ns = q ++ rest ∧ Z.of_nat (length (join q)) <= buflen ∧
    match rest with [] => True | n :: _ => buflen < Z.of_nat (length (join (q ++ [n]))) end.

Lemma join_snoc q n : join (q ++ [n]) = join q ++ n ++ [slash].
Proof. rewrite join_app. unfold join at 2. cbn [flat_map]. by rewrite app_nil_r. Qed.

Lemma join_take d q : (length (join (take d q)) <= length (join q))%nat.
Proof. rewrite <- (take_drop d q) at 2. rewrite join_app, length_app. lia. Qed.

Lemma fitted_step buflen prev q d n :
  fitted buflen prev q → (d <= length prev)%nat →
  let q1 := take d q in
  fitted buflen (take d prev ++ [n])
    (if (d <=? length q1)%nat && (Z.of_nat (length (join (q1 ++ [n]))) <=? buflen) then q1 ++ [n] else q1).
Proof.
  intros (rest & -> & Hq & Hrest) Hd q1. pose proof (join_take d q) as Ht. fold q1 in Ht.
  assert (length q1 = d `min` length q)%nat as Hl by apply length_take.
  destruct (Nat.leb_spec d (length q1)).
  - rewrite take_app_le by lia. fold q1. cbn [andb]. destruct (Z.leb_spec (Z.of_nat (length (join (q1 ++ [n])))) buflen).
    + exists []. by rewrite app_nil_r.
    + exists [n]. split_and!; [done|lia|done].
  - cbn [andb]. rewrite take_app_ge by lia. assert (q1 = q) as -> by (unfold q1; apply take_ge; lia).
    exists (take (d - length q) rest ++ [n]). split_and!; [by rewrite app_assoc|done|].
    rewrite length_app in Hd. destruct rest as [|n0 rest]; [cbn in Hd; lia|]. destruct (d - length q)%nat eqn:E; [lia|]. exact Hrest.
Qed.

Lemma fitted_all buflen ns q :
  fitted buflen ns q → if Z.of_nat (length (join ns)) <=? buflen then q = ns else (length q < length ns)%nat.
Proof.
  intros (rest & -> & Hq & Hrest). destruct rest as [|n rest].
  - rewrite app_nil_r. by destruct (Z.leb_spec (Z.of_nat (length (join q))) buflen); [|lia].
  - replace (q ++ n :: rest) with ((q ++ [n]) ++ rest) by (by rewrite <- app_assoc).
    rewrite join_app, (length_app (join (q ++ [n]))). rewrite !length_app. cbn [length].
    destruct (Z.leb_spec (Z.of_nat (length (join (q ++ [n])) + length (join rest))) buflen); lia.
Qed.

Section components.
Context (m : mem) (buf : Z).

(** Back to the slash in front of the last component. *)
Lemma drop_component_ok q n :
  bytes_at m buf (join (q ++ [n])) → q ≠ [] → Forall (λ c, c ≠ slash) n →
  0 < buf → buf + Z.of_nat (length (join (q ++ [n]))) < 2 ^ 32 → Z.of_nat (length (join (q ++ [n]))) < 2 ^ 30 →
  drop_component buf (Z.of_nat (length (join (q ++ [n])))) m = Ok (Z.of_nat (length (join q))).
Proof using Type.
  rewrite join_snoc. intros Hb Hq Hn H0 Ht H30. rewrite !length_app in *. cbn [length] in *. unfold drop_component.
  assert (∀ k fuel, (k <= length n)%nat → (k < fuel)%nat →
    loop fuel (λ p, let p := s32 (p - 1) in c ← load8 m (u32 (buf + p - 1)); Ok (if c =? 47 then inr p else inl p))
      (Z.of_nat (length (join q)) + Z.of_nat k + 1) = Ok (Z.of_nat (length (join q)))) as Hgo.
  2: { replace (Z.of_nat (length (join q) + (length n + 1))) with (Z.of_nat (length (join q)) + Z.of_nat (length n) + 1) by lia. apply Hgo; lia. }
  assert (∃ q', join q = q' ++ [slash]) as [q' Eq].
  { destruct (exists_last Hq) as (q0 & x & ->). rewrite join_snoc. exists (join q0 ++ x). by rewrite <- app_assoc. }
  assert (length (join q) = S (length q')) as El by (rewrite Eq, length_app; cbn; lia).
  induction k as [|k IH]; intros [|fuel] Hk Hf; try lia; cbn [loop]; rewrite s32_small by (unfold is_s32; lia).
  - rewrite u32_small by (unfold is_u32; lia). replace (buf + (Z.of_nat (length (join q)) + Z.of_nat 0 + 1 - 1) - 1) with (buf + Z.of_nat (length q')) by lia.
    rewrite (load8_ok m _ slash). 2: { apply (Hb (length q')). rewrite Eq, <- app_assoc. apply list_lookup_middle. done. }
    cbn [mbind res_bind]. change (slash =? 47) with true. cbv iota. f_equal. lia.
  - rewrite u32_small by (unfold is_u32; lia).
    destruct (lookup_lt_is_Some_2 n k) as [c Hc]; [lia|].
    replace (buf + (Z.of_nat (length (join q)) + Z.of_nat (S k) + 1 - 1) - 1) with (buf + Z.of_nat (length (join q) + k)) by lia.
    rewrite (load8_ok m _ c). 2: { apply Hb. rewrite lookup_app_r by lia. rewrite Nat.add_comm, Nat.add_sub. by rewrite lookup_app_l by (by eapply lookup_lt_Some). }
    cbn [mbind res_bind]. rewrite Forall_lookup in Hn. pose proof (Hn _ _ Hc) as Hcs. change 47 with slash. destruct (Z.eqb_spec c slash); [done|].
    rewrite <- (IH fuel) by lia. f_equal. lia.
Qed.

(** All components but the first [d]. *)
Lemma pop_components_ok d q :
  bytes_at m buf (join q) → (1 <= d ∨ length q <= d)%nat → Forall (Forall (λ c, c ≠ slash)) q →
  0 < buf → buf + Z.of_nat (length (join q)) < 2 ^ 32 → Z.of_nat (length (join q)) < 2 ^ 30 →
  pop_components buf (Z.of_nat d) (Z.of_nat (length (join q))) (Z.of_nat (length q)) m =
  Ok (Z.of_nat (length (join (take d q))), Z.of_nat (length (take d q))).
Proof using Type.
  intros Hb Hd Hn H0 Ht H30. unfold pop_components.
  assert (∀ fuel, (length q - d < fuel)%nat →
    loop fuel (λ '(p, pdepth), if Z.of_nat d <? pdepth then p ← drop_component buf p m; Ok (inl (p, pdepth - 1)) else Ok (inr (p, pdepth)))
      (Z.of_nat (length (join q)), Z.of_nat (length q)) = Ok (Z.of_nat (length (join (take d q))), Z.of_nat (length (take d q)))) as Hgo;
    [|apply Hgo; lia].
  revert Hb Hd Hn Ht H30. induction q as [|n q IH] using rev_ind; intros Hb Hd Hn Ht H30 [|fuel] Hf; try lia; cbn [loop].
  { rewrite take_nil. cbn [length]. by destruct (Z.ltb_spec (Z.of_nat d) (Z.of_nat 0)); [lia|]. }
  rewrite length_app in *. cbn [length] in *.
  destruct (Z.ltb_spec (Z.of_nat d) (Z.of_nat (length q + 1))).
  - apply Forall_app in Hn as [Hnq [Hn _]%Forall_cons]. assert (q ≠ []) as Hq by (intros ->; cbn in *; lia).
    rewrite drop_component_ok by done. cbn [mbind res_bind]. rewrite join_snoc, !length_app in *. cbn [length] in *.
    apply bytes_at_app in Hb as [Hb _]. rewrite take_app_le by lia. rewrite <- (IH Hb ltac:(lia) Hnq ltac:(lia) ltac:(lia) fuel ltac:(lia)).
    do 2 f_equal. lia.
  - rewrite take_ge by (rewrite length_app; cbn; lia). by rewrite (length_app q).
Qed.
End components.

(* ------------------------------------------------------------------ *)
(** * [fdt_get_path] *)

(** A buffer that can be written in without harm to a tree of the shape [sk]; it may lie
    inside the tree. *)
Class PathBuffer (fdt size total r0 cpuid : Z) (rsv : list (Z * Z)) (used : Z) (sk : dtree) (buf buflen : Z) (inv : mem → Prop) : Prop := {
  pb_tree m : inv m → ∃ t, skeleton t = sk ∧ node_at fdt size total r0 cpuid rsv m [] t 0 used;
  pb_write m i bs : inv m → Forall is_u8 bs → 0 <= i → i + Z.of_nat (length bs) <= buflen →
    mapped m (buf + i) (Z.of_nat (length bs)) ∧ inv (map_bytes (buf + i) bs m);
  pb_range : 0 < buf ∧ buf + buflen < 2 ^ 32 ∧ buflen < 2 ^ 30 ∧ total <= 2 ^ 30;
}.

Lemma probe_node m f s tt r c rv cx t off used :
  node_at f s tt r c rv m cx t off used → fdt_ro_probe_ m f = Ok tt ∧ 0 <= tt.
Proof.
  intros (strings & xs & zs & ys & Him & _ & _ & _ & _ & _ & Hsz & _).
  split; [by eapply image_probe|]. pose proof (image_bounds _ _ _ _ _ _ _ _ _ Him Hsz). lia.
Qed.

Lemma store8_map m a v : mapped m a 1 → is_u8 v → wr (λ m, store8 m a v) m = Ok (tt, map_bytes a [v] m).
Proof. intros Hm Hv. unfold wr. rewrite store8_ok by (apply Hm; lia). cbn [mbind res_bind map_bytes]. by rewrite u8_small. Qed.

Section get_path.
Context (fdt size total r0 cpuid : Z) (rsv : list (Z * Z)) (used : Z) (sk : dtree) (buf buflen : Z) (inv : mem → Prop).
Context `{Hpb : !PathBuffer fdt size total r0 cpuid rsv used sk buf buflen inv}.
Context (Hnames : well_named sk = true) (Hroot : root_name sk = []).

#[local] Abbreviation tree_of := (pb_tree (PathBuffer := Hpb)).
#[local] Abbreviation range := (pb_range (PathBuffer := Hpb)).

Lemma stop_in m i o ns : inv m → stops sk !! i = Some (o, ns) →
  ∃ t, skeleton t = sk ∧ holds fdt size total r0 cpuid rsv m used ([], t) ∧ stops t !! i = Some (o, ns).
Proof using Hpb.
  intros Hi Hs. destruct (tree_of m Hi) as (t & Et & Hat). exists t. split_and!; [done| |by rewrite <- stops_skeleton, Et].
  by apply holds_node in Hat as [_ ?].
Qed.

(** The names down to a stop. *)
Lemma stop_names i o ns : stops sk !! i = Some (o, ns) → ∃ ns', ns = [] :: ns' ∧ Forall (Forall (λ c, c ≠ slash)) ns'.
Proof using Hnames Hroot.
  intros Hi. unfold stops in Hi. rewrite list_lookup_fmap in Hi. destruct (positions [] sk !! i) as [[c u]|] eqn:Ep; [|done].
  injection Hi as <- <-. pose proof (positions_plug sk [] _ (list_elem_of_lookup_2 _ _ _ Ep)) as Et. cbn [fst snd] in Et.
  change (plug [] sk) with sk in Et. rewrite <- Et in Hnames, Hroot. pose proof (well_named_names _ _ Hnames) as Hall.
  rewrite <- root_name_of in Hroot. destruct (pos_names (c, u)) as [|n ns] eqn:E; [by apply (f_equal length) in E; rewrite length_pos_names in E|].
  cbn [hd tail] in *. subst n. exists ns. split; [done|]. eapply Forall_impl; [exact Hall|]. intros n Hn. by apply good_name_chars.
Qed.

Lemma stop_name m i o ns : inv m → stops sk !! i = Some (o, ns) →
  ∃ ns0 n, ns = ns0 ++ [n] ∧ let s := fdt + image_struct r0 rsv + o + 4 in
    fdt_get_name m fdt o = Ok (s, Z.of_nat (length n)) ∧ bytes_at m s n ∧ Forall is_u8 n ∧ 0 < s ∧ s + Z.of_nat (length n) < 2 ^ 32 ∧ Z.of_nat (length n) < 2 ^ 30.
Proof using Hpb.
  intros Hi Hs. destruct (stop_in _ _ _ _ Hi Hs) as (t & _ & Ht & Hst).
  destruct (stop_holds _ _ _ _ _ _ _ _ _ _ _ _ Ht Hst) as (c & nm & props & subs & Hat & -> & _ & _). exists (names_above c), nm. split; [done|].
  destruct (name_place _ _ _ _ _ _ _ _ _ _ _ _ _ Hat) as (Hg & (Hb & Hd & Hdt) & Hnz). apply bytes_at_app in Hb as [Hb _].
  destruct (node_buffer _ _ _ _ _ _ _ _ _ _ _ Hat) as [[Hmb _ [? _] ? _] _]. rewrite length_app in Hdt. cbn [length] in Hdt.
  destruct (holds_readable _ _ _ _ _ _ _ _ _ Ht) as (_ & _ & _ & ? & ?). pose proof range. cbv zeta. split_and!; [done|done|by eapply bytes_at_u8|lia..].
Qed.

(** No name lies in the buffer: writing there would change it. *)
Lemma name_apart m i o ns ns0 n : inv m → stops sk !! i = Some (o, ns) → ns = ns0 ++ [n] →
  let s := fdt + image_struct r0 rsv + o + 4 in
  ∀ x, s <= x < s + Z.of_nat (length n) → ¬ (buf <= x < buf + buflen).
Proof using Hpb.
  intros Hi Hs -> s x Hx Hbx. destruct (stop_name _ _ _ _ Hi Hs) as (ns1 & n1 & E & _ & Hb & _). apply app_inj_tail in E as [<- <-].
  destruct (lookup_lt_is_Some_2 n (Z.to_nat (x - s))) as [c Hc]; [lia|]. pose (b := if c =? 1 then 2 else 1).
  destruct (pb_write (PathBuffer := Hpb) m (x - buf) [b] Hi) as [_ Hi']; [repeat constructor; unfold b, is_u8; destruct (c =? 1); lia|lia|cbn [length]; lia|].
  destruct (stop_name _ _ _ _ Hi' Hs) as (ns1 & n1 & E & _ & Hb' & _). apply app_inj_tail in E as [<- <-].
  apply Hb' in Hc. fold s in Hc. rewrite Z2Nat.id in Hc by lia. replace (s + (x - s)) with x in Hc by lia.
  replace (buf + (x - buf)) with x in Hc by lia. rewrite map_bytes_lookup, decide_True in Hc by (cbn; lia).
  rewrite Z.sub_diag in Hc. cbn in Hc. injection Hc as Hc. unfold b in Hc. destruct (Z.eqb_spec c 1); lia.
Qed.

(** What the buffer holds, and that nothing else has changed. *)
Definition collected (m0 m : mem) (q : list (list Z)) : Prop := inv m ∧ bytes_at m buf (join q) ∧ same_outside buf buflen m0 m.

Lemma push_component_ok m0 m i o ns0 n q :
  collected m0 m q → stops sk !! i = Some (o, ns0 ++ [n]) → (length q <= length ns0)%nat → Z.of_nat (length (join q)) <= buflen →
  let q' := if (length ns0 <=? length q)%nat && (Z.of_nat (length (join (q ++ [n]))) <=? buflen) then q ++ [n] else q in
  ∃ m', push_component fdt o buf buflen (Z.of_nat (length ns0)) (Z.of_nat (length (join q))) (Z.of_nat (length q)) m
      = Ok (inr (Z.of_nat (length (join q')), Z.of_nat (length q')), m') ∧ collected m0 m' q'.
Proof using Hpb.
  intros (Hi & Hb & Hs0) Hs Hl Hq q'. pose proof range as (Hb0 & Hbt & H30 & _). unfold push_component.
  destruct (stop_name _ _ _ _ Hi Hs) as (ns1 & n1 & E & Hg & Hnb & Hnu & Hp0 & Hpt). apply app_inj_tail in E as [<- <-].
  assert ((Z.of_nat (length ns0) <=? Z.of_nat (length q)) = (length ns0 <=? length q)%nat) as -> by (destruct (Nat.leb_spec (length ns0) (length q)); lia).
  unfold q'. destruct (length ns0 <=? length q)%nat; cbn [andb]; [|by exists m].
  rewrite (wbind_rd _ _ _ _ Hg). cbv iota beta. set (s := fdt + image_struct r0 rsv + o + 4) in *. destruct (Z.eqb_spec s 0); [lia|].
  rewrite join_snoc, !length_app. cbn [length].
  destruct (Z.leb_spec (Z.of_nat (length (join q) + (length n + 1))) buflen) as [Hfit|Hfit].
  - pose proof (name_apart _ _ _ _ ns0 n Hi Hs eq_refl) as Hapart. cbv zeta in Hapart. fold s in Hapart.
    destruct (pb_write (PathBuffer := Hpb) m (Z.of_nat (length (join q))) n Hi Hnu) as [Hm1 Hi1]; [lia|lia|].
    destruct (pb_write (PathBuffer := Hpb) _ (Z.of_nat (length (join q) + length n)) [slash] Hi1) as [Hm2 Hi2]; [by repeat constructor|lia|cbn [length]; lia|].
    rewrite s32_small by (unfold is_s32; lia). destruct (Z.leb_spec (Z.of_nat (length (join q)) + Z.of_nat (length n) + 1) buflen); [|lia].
    rewrite (u32_small (buf + Z.of_nat (length (join q)))), (u32_small (Z.of_nat (length n))) by (unfold is_u32; lia).
    assert (buf + Z.of_nat (length (join q)) + Z.of_nat (length n) <= s ∨ s + Z.of_nat (length n) <= buf + Z.of_nat (length (join q))) as Hdis.
    { destruct (Z.le_gt_cases (buf + Z.of_nat (length (join q)) + Z.of_nat (length n)) s) as [?|H1]; [by left|].
      destruct (Z.le_gt_cases (s + Z.of_nat (length n)) (buf + Z.of_nat (length (join q)))) as [?|H2]; [by right|]. exfalso.
      apply (Hapart (Z.max s (buf + Z.of_nat (length (join q))))); lia. }
    erewrite wbind_ok by (apply memcpy_map; [done|done|done|lia..]).
    rewrite (s32_small (Z.of_nat (length (join q)) + Z.of_nat (length n))), (u32_small (buf + (Z.of_nat (length (join q)) + Z.of_nat (length n)))) by (unfold is_s32, is_u32; lia).
    replace (buf + (Z.of_nat (length (join q)) + Z.of_nat (length n))) with (buf + Z.of_nat (length (join q) + length n)) by lia.
    erewrite wbind_ok by (apply store8_map; [exact Hm2|done]).
    rewrite s32_small by (unfold is_s32; lia). eexists. split.
    + unfold mret, W_ret. rewrite join_snoc, (length_app q), !length_app. cbn [length]. do 4 f_equal; lia.
    + unfold collected. rewrite join_snoc. split_and!; [exact Hi2| |].
      * rewrite app_assoc, !bytes_at_app, length_app. split_and!.
        -- apply bytes_at_other; [apply bytes_at_other; [done|lia]|cbn [length]; lia].
        -- apply bytes_at_other; [apply map_bytes_at|lia].
        -- apply map_bytes_at.
      * intros x Hx. rewrite !map_bytes_other by (cbn [length]; lia). by apply Hs0.
  - destruct (Z.leb_spec (s32 (Z.of_nat (length (join q)) + Z.of_nat (length n) + 1)) buflen) as [Hle|].
    + rewrite s32_small in Hle by (unfold is_s32; lia). lia.
    + by exists m.
Qed.

(** One round of the walk. *)
Definition path_round (nodeoffset : Z) : Z * Z * Z * Z → W (Z * Z * Z * Z + Z) :=
  fun '(offset, depth, p, pdepth) =>
    if (0 <=? offset) && (offset <=? nodeoffset) then
      '(p, pdepth) ← rd (pop_components buf depth p pdepth);
      r ← push_component fdt offset buf buflen depth p pdepth;
      match r with
      | inl err => mret (inr err)
      | inr (p, pdepth) =>
          if offset =? nodeoffset then
            if pdepth <? depth + 1 then mret (inr (- FDT_ERR_NOSPACE))
            else
              let p := if 1 <? p then p - 1 else p in
              wr (fun m => store8 m (u32 (buf + p)) 0);; mret (inr 0)
          else
            '(offset, depth') ← rd (fun m => fdt_next_node m fdt offset (Some depth));
            mret (inl (offset, default 0 depth', p, pdepth))
      end
    else
      mret (inr (if (offset =? - FDT_ERR_NOTFOUND) || (0 <=? offset) then - FDT_ERR_BADOFFSET
                 else if offset =? - FDT_ERR_BADOFFSET then - FDT_ERR_BADSTRUCTURE
                 else offset)).

(** The end of the walk: the path is there if all of it fits. *)
Definition path_result (m0 : mem) (ns : list (list Z)) (rc : Z) (m' : mem) : Prop :=
  rc = (if Z.of_nat (length (join ns)) <=? buflen then 0 else - FDT_ERR_NOSPACE) ∧ inv m' ∧ same_outside buf buflen m0 m' ∧
  (Z.of_nat (length (join ns)) <= buflen → bytes_at m' buf (path_string (tail ns) ++ [0])).

(** At the node itself. *)
Lemma path_last m0 m q ns o :
  2 <= buflen → (∃ i, stops sk !! i = Some (o, ns)) → collected m0 m q → fitted buflen ns q →
  ∃ rc m', (if Z.of_nat (length q) <? stop_depth ns + 1 then mret (inr (- FDT_ERR_NOSPACE))
    else let p := Z.of_nat (length (join q)) in let p := if 1 <? p then p - 1 else p in
         wr (fun m => store8 m (u32 (buf + p)) 0);; mret (inr 0) : W (Z * Z * Z * Z + Z)) m = Ok (inr rc, m') ∧ path_result m0 ns rc m'.
Proof using Hpb Hnames Hroot.
  intros H2 [i Hs] (Hi & Hb & Hs0) Hf. pose proof range as (Hb0 & Hbt & H30 & _). unfold path_result, stop_depth.
  apply fitted_all in Hf. destruct (Z.leb_spec (Z.of_nat (length (join ns))) buflen) as [Hfit|Hfit].
  2: { destruct (Z.ltb_spec (Z.of_nat (length q)) (Z.of_nat (length ns) - 1 + 1)); [|lia]. eexists _, m. split; [done|]. split_and!; [done..|lia]. }
  subst q. destruct (Z.ltb_spec (Z.of_nat (length ns)) (Z.of_nat (length ns) - 1 + 1)); [lia|].
  destruct (stop_names _ _ _ Hs) as (ns' & -> & _). cbn [tail]. rewrite path_of_join. cbv zeta.
  rewrite join_path in *. cbn [app] in *. rewrite length_app in *. cbn [length] in *. apply bytes_at_app in Hb as [Hb Hsl].
  assert (∀ p, 0 <= p → p + 1 <= buflen →
    ∃ m', (wr (λ m, store8 m (u32 (buf + p)) 0);; mret (inr 0) : W (Z * Z * Z * Z + Z)) m = Ok (inr 0, m') ∧
      inv m' ∧ m' = map_bytes (buf + p) [0] m ∧ same_outside buf buflen m0 m') as Hstore.
  { intros p Hp Hpl. destruct (pb_write (PathBuffer := Hpb) m p [0] Hi) as [Hm1 Hi1]; [by repeat constructor|lia|cbn [length]; lia|].
    rewrite u32_small by (unfold is_u32; lia). erewrite wbind_ok by (apply store8_map; [exact Hm1|done]). eexists. split_and!; [done|done|done|].
    intros x Hx. rewrite map_bytes_other by (cbn [length]; lia). by apply Hs0. }
  destruct ns' as [|n ns'].
  - cbn [flat_map length]. destruct (Hstore 1 ltac:(lia) ltac:(lia)) as (m' & He & Hi' & -> & Hs').
    eexists 0, _. split; [exact He|]. split_and!; [done|done|done|]. intros _. cbn [flat_map length] in Hsl. rewrite Z.add_0_r in Hsl.
    apply bytes_at_cons in Hsl as [Hsl _]. apply bytes_at_cons. split.
    + rewrite map_bytes_other by (cbn [length]; lia). done.
    + apply map_bytes_at.
  - set (w := flat_map (cons slash) (n :: ns')) in *. assert (1 <= Z.of_nat (length w)) as Hw by (unfold w; cbn; lia).
    destruct (Z.ltb_spec 1 (Z.of_nat (length w + 1))); [|lia].
    destruct (Hstore (Z.of_nat (length w + 1) - 1) ltac:(lia) ltac:(lia)) as (m' & He & Hi' & -> & Hs').
    eexists 0, _. split; [exact He|]. split_and!; [done|done|done|]. intros _. rewrite removelast_last. apply bytes_at_app. split.
    + apply bytes_at_other; [done|]. cbn [length]. lia.
    + replace (buf + Z.of_nat (length w)) with (buf + (Z.of_nat (length w + 1) - 1)) by lia. apply map_bytes_at.
Qed.

Definition slashless : list (list Z) → Prop := Forall (Forall (λ c, c ≠ slash)).

(** The names are adjusted to the next stop. *)
Lemma path_adjust m0 m prev q d n i o :
  stops sk !! i = Some (o, take d prev ++ [n]) → collected m0 m q → fitted buflen prev q → slashless prev →
  (d <= length prev)%nat → (1 <= d ∨ prev = [])%nat →
  ∃ m1 p1 k1 q', 0 <= o ∧
    pop_components buf (Z.of_nat d) (Z.of_nat (length (join q))) (Z.of_nat (length q)) m = Ok (p1, k1) ∧
    push_component fdt o buf buflen (Z.of_nat d) p1 k1 m = Ok (inr (Z.of_nat (length (join q')), Z.of_nat (length q')), m1) ∧
    collected m0 m1 q' ∧ fitted buflen (take d prev ++ [n]) q'.
Proof using Hpb.
  intros Hst Hc Hfit Hsl Hd Hd1. pose proof range as (Hb0 & Hbt & H30 & _). pose proof Hc as (Hi & Hb & Hs0).
  destruct (stop_in _ _ _ _ Hi Hst) as (t & _ & Ht & Hstt).
  destruct (stop_holds _ _ _ _ _ _ _ _ _ _ _ _ Ht Hstt) as (c & nm & props & subs & _ & _ & -> & _).
  pose proof (ops_size_nonneg (ops_before c)) as Ho0. fold (node_place c) in Ho0.
  pose proof Hfit as (rest & Eprev & Hq & _). pose proof (join_take d q) as Hjt.
  assert (slashless q) as Hslq by (unfold slashless in *; rewrite Eprev in Hsl; by apply Forall_app in Hsl as [? _]).
  assert (1 <= d ∨ length q <= d)%nat as Hdq.
  { destruct Hd1 as [Hd1| ->]; [by left|right]. apply (f_equal length) in Eprev. rewrite length_app in Eprev. cbn in Eprev. lia. }
  assert (length (take d prev) = d) as El by (rewrite length_take; lia).
  assert (collected m0 m (take d q)) as Hct.
  { split_and!; [done| |done]. rewrite <- (take_drop d q), join_app in Hb. by apply bytes_at_app in Hb as [? _]. }
  destruct (push_component_ok m0 m i (node_place c) (take d prev) n (take d q)) as (m1 & Hpush & Hc1); [done|done|rewrite El, length_take; lia|lia|].
  rewrite El in Hpush, Hc1. do 4 eexists. split_and!; [done| |exact Hpush|exact Hc1|by apply fitted_step].
  apply pop_components_ok; (done || lia).
Qed.

Lemma get_path_from m0 k : ∀ i fuel m prev q d n o oj nsj,
  2 <= buflen → stops sk !! i = Some (o, take d prev ++ [n]) → stops sk !! (i + k)%nat = Some (oj, nsj) → (k < fuel)%nat →
  collected m0 m q → fitted buflen prev q → slashless prev → (d <= length prev)%nat → (1 <= d ∨ prev = [])%nat →
  ∃ rc m', wloop fuel (path_round oj) (o, Z.of_nat d, Z.of_nat (length (join q)), Z.of_nat (length q)) m = Ok (rc, m') ∧ path_result m0 nsj rc m'.
Proof using Hpb Hnames Hroot.
  induction k as [|k IH]; intros i [|fuel] m prev q d n o oj nsj H2 Hst Hj Hf Hc Hfit Hsl Hd Hd1; [lia| |lia|];
    rewrite wloop_step; destruct (path_adjust _ _ _ _ _ _ _ _ Hst Hc Hfit Hsl Hd Hd1) as (m1 & p1 & k1 & q' & Ho & Hpop & Hpush & Hc1 & Hfit1).
  - rewrite Nat.add_0_r, Hst in Hj. injection Hj as <- <-.
    destruct (path_last m0 m1 q' (take d prev ++ [n]) o H2 (ex_intro _ i Hst) Hc1 Hfit1) as (rc & m' & He & Hr). exists rc, m'. split; [|exact Hr].
    unfold path_round. rewrite Z.leb_refl, Z.eqb_refl. destruct (Z.leb_spec 0 o); [|lia]. cbn [andb].
    rewrite (wbind_rd _ _ _ _ Hpop). cbv iota beta. rewrite (wbind_ok _ _ _ _ _ Hpush). cbv iota beta.
    replace (Z.of_nat d + 1) with (stop_depth (take d prev ++ [n]) + 1) by (unfold stop_depth; rewrite length_app, length_take; cbn; lia).
    cbv zeta in He. by rewrite He.
  - destruct (lookup_lt_is_Some_2 (stops sk) (S i)) as [[o2 ns2] E2]; [apply lookup_lt_Some in Hj; lia|].
    pose proof (proj1 Hc1) as Hi1. destruct (stop_in _ _ _ _ Hi1 Hst) as (t & Et & Ht & Hstt). rewrite <- Et, stops_skeleton in E2, Hj.
    destruct (next_stop _ _ _ _ _ _ _ _ _ _ _ _ _ _ Ht Hstt E2) as [Hnext Ho2].
    pose proof (stops_sorted _ _ _ _ _ _ _ _ _ i (i + S k) _ _ _ _ Ht Hstt Hj ltac:(lia)) as Hoj.
    assert (grows (take d prev ++ [n]) ns2) as (d2 & n2 & [Hd2 Hd2'] & ->).
    { pose proof (positions_steps t [] i (take d prev ++ [n]) ns2) as Hgr. unfold stops in Hstt, E2. rewrite list_lookup_fmap in Hstt, E2.
      rewrite !list_lookup_fmap in Hgr. destruct (positions [] t !! i) as [p|]; [|done]. destruct (positions [] t !! S i) as [p2|]; [|done].
      injection Hstt as _ Hp. injection E2 as _ Hp2. apply Hgr; [cbn; by rewrite Hp|cbn; by rewrite Hp2]. }
    rewrite <- stops_skeleton, Et in E2, Hj. rewrite Nat.add_succ_r, <- Nat.add_succ_l in Hj.
    assert (slashless (take d prev ++ [n])) as Hsl1.
    { destruct (stop_names _ _ _ Hst) as (ns' & -> & Hns). by constructor. }
    destruct (IH (S i) fuel m1 _ q' d2 n2 o2 oj nsj H2 E2 Hj ltac:(lia) Hc1 Hfit1 Hsl1 Hd2' (or_introl Hd2)) as (rc & m' & He & Hr).
    exists rc, m'. split; [|exact Hr]. rewrite <- He. unfold path_round at 1. destruct (Z.leb_spec 0 o), (Z.leb_spec o oj), (Z.eqb_spec o oj); try lia. cbn [andb].
    rewrite (wbind_rd _ _ _ _ Hpop). cbv iota beta. rewrite (wbind_ok _ _ _ _ _ Hpush). cbv iota beta.
    unfold stop_depth in Hnext. rewrite !length_app, !length_take in Hnext. cbn [length] in Hnext.
    replace (Z.of_nat (d `min` length prev + 1) - 1) with (Z.of_nat d) in Hnext by lia. rewrite (wbind_rd _ _ _ _ Hnext). cbv iota beta.
    unfold mret, W_ret. cbn [default]. unfold id. rewrite Nat.min_l by done.
    by replace (Z.of_nat (d2 + 1) - 1) with (Z.of_nat d2) by lia.
Qed.

(** [fdt_get_path] writes the path of a node into the buffer, or says that it is too short. *)
Lemma get_path_ok m i o ns :
  inv m → stops sk !! i = Some (o, ns) →
  ∃ rc m', fdt_get_path fdt o buf buflen m = Ok (rc, m') ∧
    if 2 <=? buflen then path_result m ns rc m' else rc = - FDT_ERR_NOSPACE ∧ m' = m.
Proof using Hpb Hnames Hroot.
  intros Hi Hs. destruct (stop_in _ _ _ _ Hi Hs) as (t & Et & Ht & Hstt).
  destruct (probe_node _ _ _ _ _ _ _ _ _ _ _ Ht) as [Hp Hp0]. unfold fdt_get_path. rewrite Hp. cbn [mbind res_bind].
  destruct (Z.ltb_spec total 0); [lia|]. destruct (Z.ltb_spec buflen 2), (Z.leb_spec 2 buflen); try lia; [by eexists _, m|].
  change (λ '(offset, depth, p, pdepth), _) with (path_round o).
  destruct (tree_fuel_node _ _ _ _ _ _ _ _ _ _ _ Ht) as (fuel & -> & Hfuel).
  destruct (stop_holds _ _ _ _ _ _ _ _ _ _ _ _ Ht Hstt) as (c & nm & props & subs & Hat & _ & Eo & _).
  pose proof (node_at_total _ _ _ _ _ _ _ _ _ _ _ _ _ Hat) as Htot. pose proof (ops_size_nonneg (ops (DTree nm props subs))).
  assert (stops sk !! 0%nat = Some (0, [] ++ [[]])) as Hst0.
  { rewrite <- Et, stops_skeleton. unfold stops. destruct t as [tn tp ts]. cbn [positions map lookup list_lookup]. unfold stop. f_equal. f_equal.
    unfold pos_names. cbn [fst snd names_above map rev root_name app]. rewrite <- Et in Hroot. cbn in Hroot. by rewrite Hroot. }
  assert ((i < S fuel)%nat) as Hif.
  { destruct i as [|i]; [lia|]. rewrite <- Et, stops_skeleton in Hst0.
    pose proof (stops_sorted _ _ _ _ _ _ _ _ _ 0 (S i) _ _ _ _ Ht Hst0 Hstt ltac:(lia)). lia. }
  apply (get_path_from m i 0 (S fuel) m [] [] 0 [] 0 o ns); [done..| |by constructor|done|by right].
  exists []. split_and!; [done|cbn; lia|done].
Qed.
End get_path.

(* ------------------------------------------------------------------ *)
(** * The length of a path *)

Section path_len.
Context (fdt size total r0 cpuid : Z) (rsv : list (Z * Z)) (m : mem) (used : Z).
#[local] Abbreviation holds := (holds fdt size total r0 cpuid rsv m used).

(** The parent of a position is what is around it. *)
Lemma position_parent f c u :
  holds (f :: c, u) → fdt_parent_offset m fdt (node_place (f :: c)) = Ok (node_place c).
Proof using Type.
  intros H. pose proof (proj2 (holds_whole _ _ _ _ _ _ _ _ (f :: c) u) H) as Hw.
  destruct (tree_walk _ _ _ _ _ _ _ _ _ Hw) as (root & Hb & Hr & Hv & Hall).
  assert ((c, plug1 u f) ∈ positions [] (plug (f :: c) u)) as Hin by apply (position_of_plug c (plug1 u f)).
  destruct (list_elem_of_lookup_1 _ _ Hin) as [i Hi]. destruct (Forall2_lookup_r _ _ _ _ _ Hall Hi) as ([e d] & He & Eo & Et). cbn [fst snd] in Eo, Et.
  apply list_elem_of_lookup_2 in He. destruct (at_tree_node m fdt root e d (names_blob m fdt Hr Hv) Hb He) as [l Hat].
  assert (holds (c, plug1 u f)) as Hc by (by apply (holds_whole _ _ _ _ _ _ _ _ c (plug1 u f))).
  destruct (stop_at _ _ _ _ _ _ _ _ _ _ _ _ _ _ _ Hc Hat Eo) as [_ Eoff]. rewrite node_offs_app in Eoff.
  apply map_eq_app in Eoff as (d1 & d2 & Esub & _ & E2). cbn [node_offs] in E2. apply map_eq_cons in E2 as (e' & d3 & -> & Eo' & _).
  assert (node_off e' = node_place (f :: c)) as <-.
  { rewrite Eo'. destruct f as [fn fp fl fr]. rewrite node_place_below. unfold sub_place. cbn [f_name f_props f_left flat_map]. change (ops_size []) with 0. lia. }
  unfold pos_place in Eo. cbn [fst] in Eo. rewrite <- Eo.
  apply (parent_ok m fdt Hr Hv root e d e' Hb); [|done|rewrite Esub; apply elem_of_app; right; left].
  pose proof (positions_head [] (plug (f :: c) u)) as Hp.
  destruct root as [ro rp rs], (positions [] (plug (f :: c) u)) as [|q qs]; [done|]. injection Hp as ->.
  by inversion Hall as [|? ? ? ? [Hq _] _].
Qed.

(** The bytes of the names on the way down, with a slash in front of each but the root's. *)
Definition names_len (p : position) : Z := Z.of_nat (length (flat_map (cons slash) (tail (pos_names p)))).

Lemma names_len_frame f c t : names_len (f :: c, t) = names_len (c, plug1 t f) + Z.of_nat (length (root_name t)) + 1.
Proof using Type.
  unfold names_len. rewrite pos_names_frame. destruct (pos_names (c, plug1 t f)) as [|n ns] eqn:E.
  { apply (f_equal length) in E. by rewrite length_pos_names in E. }
  cbn [app tail]. rewrite flat_map_app, length_app. cbn [flat_map]. rewrite app_nil_r. cbn [length]. lia.
Qed.

(** They are fewer than those of the nodes, and so are the nodes. *)
Lemma names_len_small c : ∀ t, names_len (c, t) <= node_place c + Z.of_nat (length (root_name t)) + 1 ∧ Z.of_nat (length c) <= node_place c.
Proof using Type.
  induction c as [|f c IH]; intros t; [change (names_len ([], t)) with 0; change (node_place []) with 0; cbn [length]; lia|]. rewrite names_len_frame. destruct f as [fn fp fl fr]. rewrite node_place_below.
  destruct (IH (plug1 t (Frame fn fp fl fr))) as [H1 H2]. change (root_name (plug1 _ _)) with fn in H1.
  pose proof (ops_size_nonneg (flat_map ops fl)). pose proof (ops_size_nonneg (map (prop_op (λ _, 0)) fp)) as H0.
  assert (sub_place fn fp fl = item_size (IBegin fn) + ops_size (map (prop_op (λ _, 0)) fp) + ops_size (flat_map ops fl)) as -> by done.
  rewrite item_size_begin. pose proof (align4_ge (Z.of_nat (length fn) + 1) ltac:(lia)). cbn [length]. lia.
Qed.

Lemma path_length p : Z.of_nat (length (pos_path p)) = if names_len p =? 0 then 1 else names_len p.
Proof using Type.
  unfold pos_path, path_string, names_len. destruct (tail (pos_names p)) as [|n ns]; [done|].
  by destruct (Z.eqb_spec (Z.of_nat (length (flat_map (cons slash) (n :: ns)))) 0).
Qed.

(** One round of the way up. *)
Definition up_round : Z * Z → res (Z * Z + Z) := fun '(nodeoffset, len) =>
  '(name, namelen) ← fdt_get_name m fdt nodeoffset;
  if name =? 0 then Ok (inr namelen)
  else if namelen =? 0 then Ok (inr (if len =? 0 then len + 1 else len))
  else
    nodeoffset ← fdt_parent_offset m fdt nodeoffset;
    if nodeoffset <? 0 then Ok (inr nodeoffset)
    else Ok (inl (nodeoffset, s32 (len + (namelen + 1)))).

Lemma position_name c t : holds (c, t) → ∃ s, 0 < s ∧ fdt_get_name m fdt (node_place c) = Ok (s, Z.of_nat (length (root_name t))).
Proof using Type.
  intros Hh. destruct t as [nm props subs]. destruct (name_place _ _ _ _ _ _ _ _ _ _ _ _ _ Hh) as (Hg & (_ & Hd & _) & _).
  destruct (node_buffer _ _ _ _ _ _ _ _ _ _ _ Hh) as [[_ _ [? _] _ _] _]. eexists. split; [|exact Hg]. lia.
Qed.

Lemma path_len_loop c : ∀ t fuel len,
  holds (c, t) → well_named (plug c t) = true → (length c < fuel)%nat → 0 <= len → len + names_len (c, t) < 2 ^ 31 →
  loop fuel up_round (node_place c, len) = Ok (if len + names_len (c, t) =? 0 then 1 else len + names_len (c, t)).
Proof using Type.
  induction c as [|f c IH]; intros t [|fuel] len Hh Hw Hf Hl Hsum; [cbn in Hf; lia| |cbn in Hf; lia|]; cbn [loop];
    destruct (position_name _ _ Hh) as (s & Hs & Hg); unfold up_round at 2; cbv beta iota; rewrite Hg; cbn [mbind res_bind]; (destruct (Z.eqb_spec s 0); [lia|]).
  - pose proof Hh as (_ & _ & _ & _ & _ & _ & _ & _ & _ & _ & _ & Hroot & _). change (root_name t = []) in Hroot. rewrite Hroot.
    change (names_len ([], t)) with 0. rewrite Z.add_0_r. cbn [length Z.of_nat Z.eqb mbind res_bind]. by destruct (Z.eqb_spec len 0) as [-> |].
  - pose proof (proj2 (holds_whole _ _ _ _ _ _ _ _ (f :: c) t) Hh) as Hup. change (plug (f :: c) t) with (plug c (plug1 t f)) in Hup, Hw.
    apply (holds_whole _ _ _ _ _ _ _ _ c (plug1 t f)) in Hup. pose proof (well_named_plug1 _ _ (well_named_below _ _ Hw)) as [Hgood _].
    apply good_name_chars in Hgood as [Hne _]. rewrite names_len_frame in *. assert (0 <= names_len (c, plug1 t f)) by (unfold names_len; lia).
    destruct (Z.eqb_spec (Z.of_nat (length (root_name t))) 0); [destruct (root_name t); cbn in *; (done || lia)|].
    rewrite (position_parent f c t Hh). cbn [mbind res_bind]. pose proof (ops_size_nonneg (ops_before c)) as Hc. fold (node_place c) in Hc.
    destruct (Z.ltb_spec (node_place c) 0); [lia|]. cbn [mbind res_bind]. rewrite s32_small by (unfold is_s32; lia). cbn [length] in Hf.
    rewrite (IH (plug1 t f)) by (done || lia). replace (len + (Z.of_nat (length (root_name t)) + 1) + names_len (c, plug1 t f)) with (len + (names_len (c, plug1 t f) + Z.of_nat (length (root_name t)) + 1)) by lia. done.
Qed.

Lemma get_path_len_ok p :
  holds p → well_named (plug p.1 p.2) = true →
  get_path_len m fdt (pos_place p) = Ok (Z.of_nat (length (pos_path p))) ∧ Z.of_nat (length (pos_path p)) < total.
Proof using Type.
  intros Hh Hw. destruct p as [c t]. cbn [fst snd] in *. rewrite path_length. destruct (names_len_small c t) as [Hsmall Hdepth].
  pose proof Hh as (_ & _ & _ & _ & _ & _ & _ & _ & _ & _ & Hsz & _). unfold INT_MAX in Hsz.
  destruct (tree_fuel_node _ _ _ _ _ _ _ _ _ _ _ Hh) as (n & En & Hn). destruct (probe_node _ _ _ _ _ _ _ _ _ _ _ Hh) as [Hprobe Hp0].
  assert (node_place c + Z.of_nat (length (root_name t)) + 5 < total) as Htot.
  { destruct t as [nm props subs]. pose proof (node_at_total _ _ _ _ _ _ _ _ _ _ _ _ _ Hh) as Ht. rewrite ops_size_node, item_size_begin in Ht.
    pose proof (align4_ge (Z.of_nat (length nm) + 1) ltac:(lia)). pose proof (ops_size_nonneg (map (prop_op (λ _, 0)) props)).
    pose proof (ops_size_nonneg (flat_map ops subs)). unfold pos_place in Ht. cbn [fst root_name] in *. lia. }
  assert (0 <= names_len (c, t)) by (unfold names_len; lia).
  split; [|destruct (Z.eqb_spec (names_len (c, t)) 0); lia].
  unfold get_path_len, FDT_RO_PROBE. rewrite Hprobe. cbn [mbind res_bind]. destruct (Z.ltb_spec total 0); [lia|]. rewrite En.
  change (λ '(nodeoffset, len), _) with up_round. change (pos_place (c, t)) with (node_place c).
  by rewrite (path_len_loop c t) by (done || lia).
Qed.
End path_len.

(* ------------------------------------------------------------------ *)
(** * A buffer of its own *)

Lemma write_cells m a bs : mem_bytes m → word_backed m → Forall is_u8 bs → mapped m a (Z.of_nat (length bs)) →
  mem_bytes (map_bytes a bs m) ∧ word_backed (map_bytes a bs m).
Proof.
  intros Hmb Hwb Hu Hm. split; [by apply map_bytes_bytes|]. eapply same_cells_words; [by apply map_bytes_cells|done].
Qed.

Section spec.
Context (fdt size total r0 cpuid : Z) (rsv : list (Z * Z)).
#[local] Abbreviation node_at := (node_at fdt size total r0 cpuid rsv).

Lemma outside_buffer t used buf buflen :
  apart buf buflen fdt size → 0 < buf → 0 <= buflen < 2 ^ 30 → buf + buflen < 2 ^ 32 → total <= 2 ^ 30 →
  PathBuffer fdt size total r0 cpuid rsv used (skeleton t) buf buflen (λ m, node_at m [] t 0 used ∧ mapped m buf buflen).
Proof using Type.
  intros Hap Hb0 Hl Hbt H30. split; [intros m [Hat _]; by exists t| |lia].
  intros m i bs [Hat Hm] Hu Hi Hil. assert (mapped m (buf + i) (Z.of_nat (length bs))) as Hm' by (intros x Hx; apply Hm; lia).
  destruct (node_buffer _ _ _ _ _ _ _ _ _ _ _ Hat) as [[Hmb Hwb _ _ _] _]. destruct (write_cells m (buf + i) bs Hmb Hwb Hu Hm') as [Hmb' Hwb'].
  split; [done|]. split.
  - unfold apart in Hap. apply (node_at_kept _ _ _ _ _ _ m); [|done|done|done]. intros x Hx. apply map_bytes_other. lia.
  - intros x Hx. rewrite map_bytes_lookup. case_decide as Hd; [|by apply Hm]. apply lookup_lt_is_Some. lia.
Qed.
Lemma get_path_outside m c t off used buf buflen :
  node_at m c t off used → well_named (plug c t) = true → total <= 2 ^ 30 →
  apart buf buflen fdt size → mapped m buf buflen → 0 < buf → 0 <= buflen < 2 ^ 30 → buf + buflen < 2 ^ 32 →
  ∃ rc m', fdt_get_path fdt off buf buflen m = Ok (rc, m') ∧ same_outside buf buflen m m' ∧
    let path := pos_path (c, t) in
    if Z.of_nat (length path) <? buflen then rc = 0 ∧ bytes_at m' buf (path ++ [0]) else rc = - FDT_ERR_NOSPACE.
Proof using Type.
  intros Hat Hw H30 Hap Hm Hb0 Hl Hbt. destruct (holds_node _ _ _ _ _ _ _ _ _ _ _ Hat) as [-> Hh].
  pose proof Hat as (_ & _ & _ & _ & _ & _ & _ & _ & _ & _ & _ & Hroot & _).
  pose proof (proj2 (holds_whole _ _ _ _ _ _ _ _ c t) Hh) as Hwhole. destruct (stop_of_plug c t) as [j Hj]. rewrite <- stops_skeleton in Hj.
  assert (well_named (skeleton (plug c t)) = true ∧ root_name (skeleton (plug c t)) = []) as [Hws Hrs].
  { unfold skeleton. by rewrite well_named_map, root_name_map. }
  destruct (get_path_ok fdt size total r0 cpuid rsv used _ buf buflen _ (Hpb := outside_buffer (plug c t) used buf buflen Hap Hb0 Hl Hbt H30)
    Hws Hrs m j _ _ (conj Hwhole Hm) Hj) as (rc & m' & He & Hr).
  exists rc, m'. split; [exact He|]. cbv zeta. rewrite path_length. unfold pos_path, names_len.
  destruct (stop_names _ Hws Hrs _ _ _ Hj) as (ns & En & _). rewrite En in Hr |- *. cbn [tail] in *.
  destruct (Z.leb_spec 2 buflen).
  - destruct Hr as (-> & _ & Hs & Hb). split; [done|]. rewrite join_path in *. cbn [app] in *. rewrite length_app in *. cbn [length] in *.
    destruct (Z.eqb_spec (Z.of_nat (length (flat_map (cons slash) ns))) 0);
      destruct (Z.leb_spec (Z.of_nat (length (flat_map (cons slash) ns) + 1)) buflen); try lia;
      match goal with |- context [?a <? ?b] => destruct (Z.ltb_spec a b) end; try lia; (done || by split; [|apply Hb]).
  - destruct Hr as [-> ->]. split; [done|].
    destruct (Z.eqb_spec (Z.of_nat (length (flat_map (cons slash) ns))) 0);
      match goal with |- context [?a <? ?b] => destruct (Z.ltb_spec a b) end; (done || lia).
Qed.

(** C19: [fdt_get_path], for a node of a tree whose names are not empty and have no slashes, and a
    buffer outside the tree: it writes the path of the node and a NUL into the buffer if
    they fit, and returns 0, otherwise [-FDT_ERR_NOSPACE]; nothing else is changed. *)
Theorem fdt_get_path_spec m c t off used buf buflen :
  node_at m c t off used → well_named (plug c t) = true → total <= 2 ^ 30 →
  apart buf buflen fdt size → mapped m buf buflen → 0 < buf → 0 <= buflen < 2 ^ 30 → buf + buflen < 2 ^ 32 →
  ∃ rc m', fdt_get_path fdt off buf buflen m = Ok (rc, m') ∧ same_outside buf buflen m m' ∧
    let path := pos_path (c, t) in
    if Z.of_nat (length path) <? buflen then rc = 0 ∧ bytes_at m' buf (path ++ [0]) else rc = - FDT_ERR_NOSPACE.
Proof using Type. apply get_path_outside. Qed.
End spec.

(* ------------------------------------------------------------------ *)
(** * A buffer in a property *)

(** The value of a property, while its path is written into it. *)
Section slot.
Context (fdt size total r0 cpuid : Z) (rsv : list (Z * Z)).
#[local] Abbreviation node_at := (node_at fdt size total r0 cpuid rsv).
Context (c : list frame) (nm : list Z) (l : list (list Z * list Z)) (name : list Z) (r : list (list Z * list Z)) (subs : list dtree).
Context (off used : Z) (n : nat).

Definition with_value (v : list Z) : dtree := DTree nm (l ++ (name, v) :: r) subs.
Definition some_value (m : mem) : Prop := ∃ v, length v = n ∧ node_at m c (with_value v) off used.

Lemma skeleton_value v v' : length v = length v' → skeleton (plug c (with_value v)) = skeleton (plug c (with_value v')).
Proof using Type.
  intros El. unfold skeleton. rewrite !map_plug. f_equal. unfold with_value. cbn [map_props]. f_equal.
  unfold zero_values. rewrite !map_app. cbn [map fst snd]. by rewrite El.
Qed.

Lemma slot_buffer buflen v0 :
  length v0 = n → Z.of_nat n < 2 ^ 30 → total <= 2 ^ 30 → 0 <= buflen <= Z.of_nat n → (∃ m, some_value m) →
  PathBuffer fdt size total r0 cpuid rsv used (skeleton (plug c (with_value v0))) (value_place fdt r0 rsv off nm l) buflen some_value.
Proof using Type.
  intros Hn0 Hn30 H30 Hbuf [m0 (v & Hv & Hat)]. split.
  - intros m (w & Hw & Hm). exists (plug c (with_value w)). split; [apply skeleton_value; congruence|]. by eapply holds_base.
  - intros m i bs (w & Hw & Hm) Hu Hi Hil. destruct (value_write _ _ _ _ _ _ _ _ _ _ _ _ _ _ _ _ (Z.to_nat i) bs Hm) as (Hm' & _ & Hmap); [lia|done|].
    rewrite Z2Nat.id in Hm', Hmap by done. split; [done|]. eexists. split; [|exact Hm']. rewrite length_overwrite by lia. done.
  - destruct (value_here _ _ _ _ _ _ _ _ _ _ _ _ _ _ _ _ Hat) as (_ & ? & ? & ? & _). lia.
Qed.
End slot.

(* ------------------------------------------------------------------ *)
(** * Example *)

(** The node soc of a base tree; the path goes where an overlay was. *)
Lemma fdt_get_path_spec_witness :
  ∃ m', fdt_get_path base_addr 8 over_addr 64 (two_trees sample_strings sample_base sample_fragments) = Ok (0, m') ∧
    bytes_at m' over_addr (chars "/soc" ++ [0]).
Proof.
  destruct (two_trees_at sample_strings sample_base sample_fragments) as [Hb Ho]; [vm_compute; reflexivity..|].
  destruct (node_buffer _ _ _ _ _ _ _ _ _ _ _ Ho) as [[_ _ _ _ Hm] _].
  pose proof (base_holds _ _ _ _ _ _ _ _ _ [Frame [] [] [] []] (DTree (chars "soc") [(chars "phandle", be32 5)] []) Hb eq_refl) as Hs.
  destruct (fdt_get_path_spec base_addr 512 512 40 0 [(0, 0)] _ _ _ _ _ over_addr 64 Hs) as (rc & m' & He & _ & Hr).
  - vm_compute. reflexivity.
  - vm_compute. discriminate.
  - right. vm_compute. discriminate.
  - intros x Hx. apply Hm. lia.
  - vm_compute. reflexivity.
  - vm_compute. split; [discriminate|reflexivity].
  - vm_compute. reflexivity.
  - cbv zeta in Hr. assert ((Z.of_nat (length (pos_path ([Frame [] [] [] []], DTree (chars "soc") [(chars "phandle", be32 5)] []))) <? 64) = true) as E by (vm_compute; reflexivity).
    rewrite E in Hr. destruct Hr as [-> Hp]. exists m'. split; [exact He|exact Hp].
Defined.
