(* ===== verification/FdtSymbols.v ===== *)
(** The symbols of an overlay, the last phase of src/libfdt/fdt_overlay.c: those that lead
    into a fragment become symbols of the base, with the path of the target in front. *)
From S2P Require Import Prelude Machine Crt0 SampleTree Fdt FdtRo FdtCheck FdtTree FdtLookup FdtPath FdtWrite FdtSw FdtRw FdtImage FdtBuild FdtFinish FdtRead FdtEdit FdtNode FdtEncode FdtChildren FdtPack FdtTreeEdit FdtPositions FdtInplace FdtOverlay FdtMerge FdtFragments FdtPhandles FdtRefs FdtConflicts FdtGetPath.
From stdpp Require Import base list gmap.
From Stdlib Require Import ZArith Lia.
From Stdlib Require String.
#[local] Open Scope Z_scope.

(* ------------------------------------------------------------------ *)
(** * On trees *)

(** The fragment that the path of a symbol names, and the path below its node __overlay__;
    [None] for a symbol that does not lead there; or the error. *)
Definition symbol_parts (v : list Z) : Z + option (list Z * list Z) :=
  match split_at 0 v with
  | Some (c :: path, []) =>
      if c =? slash then
        match split_at slash path with
        | Some (frag, rest) =>
            let tail := slash :: rest in
            if bool_decide (take 13 tail = chars "/__overlay__/") then inr (Some (frag, drop 13 tail))
            else if bool_decide (tail = chars "/__overlay__") then inr (Some (frag, []))
            else inr None
        | None => inr None
        end
      else inl (- FDT_ERR_BADVALUE)
  | _ => inl (- FDT_ERR_BADVALUE)
  end.

(** A path below another one. *)
Definition under (path rel : list Z) : list Z := (if (length path <=? 1)%nat then [] else path) ++ slash :: rel.

(** What a symbol of the overlay [o] is in the base [t]. *)
Definition symbol_value (o t : dtree) (v : list Z) : Z + option (list Z) :=
  match symbol_parts v with
  | inl err => inl err
  | inr None => inr None
  | inr (Some (frag, rel)) =>
      match tree_child o frag with
      | None => inl (- FDT_ERR_BADOVERLAY)
      | Some f =>
          match overlay_of f with
          | None => inl (- FDT_ERR_BADOVERLAY)
          | Some _ =>
              match overlay_target f t with
              | inr err => inl err
              | inl p => inr (Some (under (default (pos_path p) (target_string f)) rel ++ [0]))
              end
          end
      end
  end.

(** The symbols of a base: a property set, the node made if it is missing. *)
Definition symbols_name : list Z := chars "__symbols__".
Definition set_symbol (name val : list Z) (t : dtree) : dtree :=
  match pos_child ([], t) symbols_name with
  | Some (c, DTree nm props subs) => plug c (DTree nm (set_prop props name val) subs)
  | None => t
  end.
Definition with_symbols (t : dtree) : dtree :=
  match pos_child ([], t) symbols_name with
  | Some _ => t
  | None => let 'DTree nm props subs := t in DTree nm props (DTree symbols_name [] [] :: subs)
  end.

(** The base with the symbols one after the other, and 0, or how far it gets and the error. *)
Fixpoint add_symbols (o : dtree) (syms : list (list Z * list Z)) (t : dtree) : dtree * Z :=
  match syms with
  | [] => (t, 0)
  | (name, v) :: syms =>
      match symbol_value o t v with
      | inl err => (t, err)
      | inr None => add_symbols o syms t
      | inr (Some w) => add_symbols o syms (set_symbol name w t)
      end
  end.
Definition merge_symbols (o t : dtree) : dtree * Z :=
  match tree_child o symbols_name with
  | None => (t, 0)
  | Some (DTree _ syms _) => add_symbols o syms (with_symbols t)
  end.

(** The bytes that they may take. *)
Fixpoint add_symbols_cost (o : dtree) (syms : list (list Z * list Z)) (t : dtree) : Z :=
  match syms with
  | [] => 0
  | (name, v) :: syms =>
      match symbol_value o t v with
      | inl _ => 0
      | inr None => add_symbols_cost o syms t
      | inr (Some w) => growth name (Z.of_nat (length w)) + add_symbols_cost o syms (set_symbol name w t)
      end
  end.
Definition symbols_cost (o t : dtree) : Z :=
  match tree_child o symbols_name with
  | None => 0
  | Some (DTree _ syms _) =>
      (8 + align4 (Z.of_nat (length symbols_name) + 1)) + add_symbols_cost o syms (with_symbols t)
  end.

(** No symbol has the name of a phandle. *)
Definition phandle_name (n : list Z) : bool := bool_decide (n = chars "phandle") || bool_decide (n = chars "linux,phandle").
Definition symbols_named (o : dtree) : bool :=
  match tree_child o symbols_name with
  | None => true
  | Some (DTree _ syms _) => forallb (λ p, negb (phandle_name p.1)) syms
  end.

(** ** What setting symbols keeps *)

(** Only the phandles left: enough for finding a node by its phandle. *)
Definition only_phandles (props : list (list Z * list Z)) : list (list Z * list Z) :=
  filter (λ p, Is_true (phandle_name p.1)) props.

Lemma only_phandles_prop props name : phandle_name name = true → tree_prop (only_phandles props) name = tree_prop props name.
Proof.
  intros Hn. unfold tree_prop, only_phandles. do 2 f_equal. induction props as [|[n v] props IH]; [done|].
  rewrite !filter_cons. cbn [fst]. destruct (decide (Is_true (phandle_name n))) as [Hp|Hp].
  - rewrite filter_cons. cbn [fst]. by rewrite IH.
  - rewrite IH, decide_False; [done|]. intros ->. by rewrite Hn in Hp.
Qed.

Lemma only_phandles_phandle t : tree_phandle (map_props only_phandles t) = tree_phandle t.
Proof. destruct t as [nm props subs]. cbn [map_props tree_phandle]. unfold tree_word. by rewrite !only_phandles_prop. Qed.

Lemma only_phandles_set l name v v' r : phandle_name name = false → only_phandles (l ++ (name, v) :: r) = only_phandles (l ++ (name, v') :: r).
Proof. intros Hn. unfold only_phandles. rewrite !filter_app, !filter_cons. cbn [fst]. by rewrite !decide_False by (rewrite Hn; by intros []). Qed.

Lemma only_phandles_set_prop props name v : phandle_name name = false → only_phandles (set_prop props name v) = only_phandles props.
Proof.
  intros Hn. destruct (prop_cases props name) as [Hnone|(l & w & r & -> & Hl)].
  - unfold set_prop. rewrite replace_none by done. cbn [default]. unfold only_phandles. rewrite filter_cons. cbn [fst].
    by rewrite decide_False by (rewrite Hn; by intros []).
  - rewrite set_prop_some by done. by apply only_phandles_set.
Qed.

Lemma head_filter_map {A} (g : A → A) (P : A → Prop) `{!∀ x, Decision (P x)} l :
  (∀ x, P (g x) ↔ P x) → head (filter P (map g l)) = g <$> head (filter P l).
Proof.
  intros Hg. induction l as [|x l IH]; [done|]. cbn [map]. rewrite !filter_cons.
  destruct (decide (P (g x))) as [H1|H1], (decide (P x)) as [H2|H2]; rewrite Hg in H1; done.
Qed.

Lemma find_phandle_map t ph : find_phandle (map_props only_phandles t) ph = map_pos only_phandles <$> find_phandle t ph.
Proof.
  unfold find_phandle. pose proof (map_positions only_phandles t []) as E. cbn [map] in E. rewrite E. apply head_filter_map.
  intros p. unfold map_pos. cbn [snd]. by rewrite only_phandles_phandle.
Qed.

(** A target that has a phandle is found again, at the same path. *)
Lemma target_again f t t1 p :
  map_props only_phandles t1 = map_props only_phandles t → target_string f = None → overlay_target f t = inl p →
  ∃ p1, overlay_target f t1 = inl p1 ∧ pos_names p1 = pos_names p.
Proof.
  intros Ht Hs. destruct f as [nm props subs]. cbn [overlay_target target_string] in *. destruct (target_code props =? UINT_MAX); [done|].
  destruct (target_code props =? 0).
  { by destruct (tree_prop props (chars "target-path")). }
  pose proof (f_equal (λ t, find_phandle t (target_code props)) Ht) as Hf. cbn beta in Hf. rewrite !find_phandle_map in Hf.
  destruct (find_phandle t _) as [q|]; [|done]. destruct (find_phandle t1 _) as [q1|]; [|done]. intros [= <-].
  exists q1. split; [done|]. injection Hf as H1 H2.
  rewrite <- (map_names only_phandles q1), <- (map_names only_phandles q). unfold map_pos. by rewrite H1, H2.
Qed.

(** ** One symbol after the other *)

Lemma child_from_here name c nm props l u : ∀ l0 r,
  existsb (λ t, name_matches name (root_name t)) l = false → name_matches name (root_name u) = true →
  child_from name c nm props l0 (l ++ u :: r) = Some (Frame nm props (l0 ++ l) r :: c, u).
Proof.
  induction l as [|v l IH]; intros l0 r; cbn [existsb app child_from].
  - intros _ ->. by rewrite app_nil_r.
  - intros [-> Hl]%orb_false_iff Hu. by rewrite IH, <- app_assoc.
Qed.

(** The node of the symbols stays where it is. *)
Definition symbols_at (c : list frame) (nm : list Z) (props : list (list Z * list Z)) (subs : list dtree) (t : dtree) : Prop :=
  pos_child ([], t) symbols_name = Some (c, DTree nm props subs).

Lemma symbols_at_plug c nm props subs t : symbols_at c nm props subs t → t = plug c (DTree nm props subs).
Proof. intros Hp. by apply child_plug in Hp. Qed.

Lemma set_symbol_at c nm props subs t name w :
  symbols_at c nm props subs t →
  set_symbol name w t = plug c (DTree nm (set_prop props name w) subs) ∧
  symbols_at c nm (set_prop props name w) subs (set_symbol name w t).
Proof.
  intros Hp. unfold set_symbol. unfold symbols_at in *. rewrite Hp. split; [done|].
  destruct t as [tn tp ts]. cbn [pos_child] in Hp. pose proof (child_from_spec symbols_name [] tn tp [] ts) as Hs. rewrite Hp in Hs.
  destruct Hs as (r1 & u & r2 & -> & [= -> <-] & Hr & Hu). by apply (child_from_here symbols_name [] tn tp r1 (DTree nm (set_prop props name w) subs) []).
Qed.

Lemma with_symbols_at t : ∃ c nm props subs, symbols_at c nm props subs (with_symbols t).
Proof.
  unfold with_symbols, symbols_at. destruct (pos_child ([], t) symbols_name) as [[c [nm props subs]]|] eqn:E; [by exists c, nm, props, subs|].
  destruct t as [tn tp ts]. cbn [pos_child child_from]. change (name_matches symbols_name (root_name (DTree symbols_name [] []))) with true. by eexists _, _, _, _.
Qed.

Lemma well_named_set c nm props props' subs : well_named (plug c (DTree nm props' subs)) = well_named (plug c (DTree nm props subs)).
Proof. by rewrite <- (well_named_map (λ _, [])), <- (well_named_map (λ _, []) (plug c (DTree nm props subs))), !map_plug. Qed.

Lemma well_named_with t : well_named t = true → well_named (with_symbols t) = true.
Proof. unfold with_symbols. destruct (pos_child _ _); [done|]. by destruct t as [nm props subs]. Qed.

Lemma symbol_value_error o t v err : symbol_value o t v = inl err → err < 0.
Proof.
  unfold symbol_value, symbol_parts. destruct (split_at 0 v) as [[[|c path] [|z r]]|]; [by intros [= <-]..| |by intros [= <-]|by intros [= <-]].
  destruct (c =? slash); [|by intros [= <-]]. destruct (split_at slash path) as [[frag rest]|]; [|done]. cbv zeta.
  assert (∀ rel, match tree_child o frag with None => inl (- FDT_ERR_BADOVERLAY) | Some f => match overlay_of f with None => inl (- FDT_ERR_BADOVERLAY)
    | Some _ => match overlay_target f t with inr err => inl err | inl p => inr (Some (under (default (pos_path p) (target_string f)) rel ++ [0])) end end end
    = inl err → err < 0) as Hgo.
  { intros rel. destruct (tree_child o frag) as [f|]; [|by intros [= <-]]. destruct (overlay_of f); [|by intros [= <-]].
    destruct (overlay_target f t) eqn:Et; [done|]. intros [= <-]. by eapply overlay_target_error. }
  destruct (bool_decide _); [apply Hgo|]. destruct (bool_decide _); [apply Hgo|done].
Qed.

Lemma add_symbols_app o l r : ∀ t, (add_symbols o l t).2 = 0 →
  add_symbols o (l ++ r) t = add_symbols o r (add_symbols o l t).1 ∧
  add_symbols_cost o (l ++ r) t = add_symbols_cost o l t + add_symbols_cost o r (add_symbols o l t).1.
Proof.
  induction l as [|[name v] l IH]; intros t; [done|]. cbn [app add_symbols add_symbols_cost].
  destruct (symbol_value o t v) as [err|[w|]] eqn:E; [|intros [-> ->]%IH; split; [done|lia]|apply IH].
  apply symbol_value_error in E. cbn. lia.
Qed.

Lemma add_symbols_cost_nonneg o l : ∀ t, 0 <= add_symbols_cost o l t.
Proof.
  induction l as [|[name v] l IH]; intros t; [done|]. cbn [add_symbols_cost]. destruct (symbol_value o t v) as [err|[w|]]; [done| |apply IH].
  pose proof (growth_nonneg name (Z.of_nat (length w)) ltac:(lia)). pose proof (IH (set_symbol name w t)). lia.
Qed.

Lemma symbols_cost_nonneg o t : 0 <= symbols_cost o t.
Proof.
  unfold symbols_cost. destruct (tree_child o symbols_name) as [[nm syms subs]|]; [|done].
  pose proof (add_symbols_cost_nonneg o syms (with_symbols t)). pose proof (align4_ge (Z.of_nat (length symbols_name) + 1)). lia.
Qed.

(* ------------------------------------------------------------------ *)
(** * The parts of a path *)

#[local] Arguments rodata {_} s%_string_scope.

Section parts.
Context `{Platform} (m : mem) (Hmb : mem_bytes m) (Hwb : word_backed m).

Lemma strchr_ok s ch cs :
  cstr_at m s cs → ch ≠ 0 → 0 < s → s + Z.of_nat (length cs) + 1 < 2 ^ 32 →
  strchr s ch m = Ok (match split_at ch cs with Some (a, _) => s + Z.of_nat (length a) | None => 0 end).
Proof using Type.
  clear Hmb Hwb. intros Hc Hch Hs Ht. unfold strchr. assert (length cs < scan_fuel m)%nat as Hf.
  { pose proof (cstr_at_mapped _ _ _ Hc) as Hm. apply mapped_size in Hm; [|lia]. unfold scan_fuel. lia. }
  revert s Hc Hs Ht Hf. generalize (scan_fuel m). unfold split_at.
  induction cs as [|c cs IH]; intros [|fuel] s Hc Hs Ht Hf; try (cbn in Hf; lia); cbn [loop span length] in *.
  - apply cstr_at_nil in Hc. rewrite (load8_ok _ _ _ Hc). cbn [mbind res_bind]. by destruct (Z.eqb_spec 0 ch).
  - apply cstr_at_cons in Hc as (Hc & Hne & Hcs). rewrite (load8_ok _ _ _ Hc). cbn [mbind res_bind].
    destruct (Z.eqb_spec c ch); cbn [negb]; [f_equal; cbn; lia|]. destruct (Z.eqb_spec c 0); [done|].
    rewrite u32_small by (unfold is_u32; lia). cbn [mbind res_bind]. rewrite IH by (done || lia).
    destruct (span _ cs) as [a [|x r]]; [done|]. f_equal. cbn [length]. lia.
Qed.

(** A comparison with the literal, where the string is long enough. *)
Lemma memcmp_literal s v lit n :
  bytes_at m s v → c_name m (rodata lit) (chars lit) → length (chars lit) = n → (n <= length v)%nat →
  0 < s → s + Z.of_nat (length v) < 2 ^ 32 →
  ∃ r, memcmp s (rodata lit) (Z.of_nat n) m = Ok r ∧ (r =? 0) = bool_decide (take n v = chars lit).
Proof using Type.
  clear Hmb Hwb. intros Hv (Hl & Hl0 & Hlt & _) Hn Hnv Hs Ht. rewrite <- (take_drop n v) in Hv. apply bytes_at_app in Hv as [Hv _].
  destruct Hl as (Hlb & _). assert (length (take n v) = n) as El by (rewrite length_take; lia).
  destruct (memcmp_ok m s (rodata lit) (Z.of_nat n) (take n v) (chars lit)) as (r & Hr & Hiff & _); [done..|lia|lia|lia|lia|lia|lia|].
  exists r. split; [done|]. destruct (Z.eqb_spec r 0), (bool_decide_reflect (take n v = chars lit)); tauto.
Qed.
#[local] Arguments memcmp_literal s v lit%_string_scope n.

(** Where the node __overlay__ of a fragment is named, from the slash in front of it. *)
Definition overlay_rel (tail : list Z) : option (list Z) :=
  if bool_decide (take 13 tail = chars "/__overlay__/") then Some (drop 13 tail)
  else if bool_decide (tail = chars "/__overlay__") then Some [] else None.

Definition below_overlay (s e : Z) : res (option (Z * Z)) :=
  let len := 13 in
  below ← (if len <? e - s then c ← memcmp s (rodata "/__overlay__/") len m; Ok (c =? 0) else Ok false);
  if below : bool then Ok (Some (u32 (s + len), s32 (e - u32 (s + len) - 1)))
  else
    at_node ← (if e - s =? len then c ← memcmp s (rodata "/__overlay__") (len - 1) m; Ok (c =? 0) else Ok false);
    Ok (if at_node : bool then Some (rodata "", 0) else None).

Definition parts_of (name len : Z) (o : option (Z * Z)) : (Z * Z * Z * Z) + option Z :=
  match o with Some (rp, rl) => inl (name, len, rp, rl) | None => inr None end.

Context (Hlit1 : c_name m (rodata "/__overlay__/") (chars "/__overlay__/")).
Context (Hlit2 : c_name m (rodata "/__overlay__") (chars "/__overlay__")).

Lemma below_overlay_ok s tail :
  bytes_at m s tail → 0 < s → s + Z.of_nat (length tail) + 1 < 2 ^ 32 → Z.of_nat (length tail) < 2 ^ 30 →
  ∃ o, below_overlay s (s + Z.of_nat (length tail) + 1) = Ok o ∧
    match overlay_rel tail with
    | Some rel => ∃ rp, o = Some (rp, Z.of_nat (length rel)) ∧ (rel = [] ∧ rp = rodata "" ∨ bytes_at m rp rel ∧ s <= rp ∧ rp + Z.of_nat (length rel) = s + Z.of_nat (length tail))
    | None => o = None
    end.
Proof using Hlit1 Hlit2.
  clear Hmb Hwb. intros Hb Hs Ht Hl. unfold below_overlay, overlay_rel.
  replace (s + Z.of_nat (length tail) + 1 - s) with (Z.of_nat (length tail) + 1) by lia.
  destruct (Z.ltb_spec 13 (Z.of_nat (length tail) + 1)) as [H13|H13].
  - destruct (memcmp_literal s tail "/__overlay__/" 13%nat Hb Hlit1 eq_refl) as (r & Hr & Hz); [lia|lia|lia|].
    change (Z.of_nat 13) with 13 in Hr. rewrite Hr. cbn [mbind res_bind]. rewrite Hz.
    destruct (bool_decide (take 13 tail = chars "/__overlay__/")).
    + eexists. split; [done|]. rewrite u32_small by (unfold is_u32; lia). rewrite s32_small by (unfold is_s32; lia).
      exists (s + 13). rewrite length_drop. split; [do 2 f_equal; lia|]. right.
      rewrite <- (take_drop 13 tail) in Hb. apply bytes_at_app in Hb as [_ Hb]. rewrite length_take_le in Hb by lia. split_and!; [exact Hb|lia|lia].
    + destruct (Z.eqb_spec (Z.of_nat (length tail) + 1) 13); [lia|]. cbn [mbind res_bind].
      rewrite bool_decide_eq_false_2 by (intros ->; cbn in H13; lia). by exists None.
  - cbn [mbind res_bind]. rewrite bool_decide_eq_false_2.
    2: { intros E. apply (f_equal length) in E. rewrite length_take in E. change (length (chars "/__overlay__/")) with 13%nat in E. lia. }
    destruct (Z.eqb_spec (Z.of_nat (length tail) + 1) 13).
    + destruct (memcmp_literal s tail "/__overlay__" 12%nat Hb Hlit2 eq_refl) as (r & Hr & Hz); [lia|lia|lia|].
      change (Z.of_nat 12) with (13 - 1) in Hr. rewrite Hr. cbn [mbind res_bind]. rewrite Hz, take_ge by lia.
      clear Hz Hr. destruct (bool_decide (tail = _)); [|by exists None]. eexists. split; [done|]. exists (rodata ""). by split; [|left].
    + cbn [mbind res_bind]. rewrite bool_decide_eq_false_2; [by exists None|]. by intros ->.
Qed.

Lemma split_symbol_ok path v :
  bytes_at m path v → 0 < path → path + Z.of_nat (length v) < 2 ^ 32 → Z.of_nat (length v) < 2 ^ 30 →
  ∃ parts, split_symbol path (Z.of_nat (length v)) m = Ok parts ∧
    match symbol_parts v with
    | inl err => parts = inr (Some err)
    | inr None => parts = inr None
    | inr (Some (frag, rel)) =>
        ∃ rp, parts = inl (path + 1, Z.of_nat (length frag), rp, Z.of_nat (length rel)) ∧
          bytes_at m (path + 1) frag ∧ Z.of_nat (length frag) + Z.of_nat (length rel) + 2 <= Z.of_nat (length v) ∧
          (rel = [] ∧ rp = rodata "" ∨ bytes_at m rp rel ∧ path <= rp ∧ rp + Z.of_nat (length rel) <= path + Z.of_nat (length v))
    end.
Proof using Hlit1 Hlit2.
  clear Hmb Hwb. intros Hb Hp Ht Hl. unfold split_symbol, symbol_parts.
  destruct v as [|c0 v0] eqn:Ev; [by eexists|]. rewrite <- Ev in *. assert (0 < length v)%nat as Hv0 by (subst v; cbn; lia).
  destruct (Z.ltb_spec (Z.of_nat (length v)) 1); [lia|]. rewrite (u32_small (Z.of_nat (length v))) by (unfold is_u32; lia).
  rewrite (memchr_split m path 0 v Hb) by lia. pose proof (split_at_spec 0 v) as Hsp. cbn [mbind res_bind].
  rewrite (u32_small (path + _ - 1)) by (unfold is_u32; lia).
  destruct (split_at 0 v) as [[a r]|]; cbn [mbind res_bind].
  2: { destruct (Z.eqb_spec 0 (path + Z.of_nat (length v) - 1)); [lia|]. cbn [negb]. by eexists. }
  destruct Hsp as [Ea Ha]. assert (length v = length a + S (length r))%nat as El by (by rewrite Ea, length_app).
  destruct r as [|z r].
  2: { destruct (Z.eqb_spec (path + Z.of_nat (length a)) (path + Z.of_nat (length v) - 1)); [cbn in *; lia|]. cbn [negb]. eexists. split; [done|]. by destruct a. }
  cbn [length] in El. destruct (Z.eqb_spec (path + Z.of_nat (length a)) (path + Z.of_nat (length v) - 1)); [|lia]. cbn [negb].
  assert (load8 m path = Ok (match a with [] => 0 | c :: _ => c end)) as Hc.
  { apply load8_ok. replace path with (path + Z.of_nat 0) by lia. apply Hb. rewrite Ea. by destruct a. }
  rewrite Hc. cbn [mbind res_bind]. destruct a as [|c a]; [by eexists|]. change 47 with slash. destruct (c =? slash); cbn [negb]; [|by eexists].
  rewrite (u32_small (path + 1)) by (unfold is_u32; lia). rewrite (u32_small (path + Z.of_nat (length v))) by (unfold is_u32; lia). clear Hc. cbn [length] in El.
  rewrite Ea in Hb. cbn [app] in Hb. apply bytes_at_cons in Hb as [_ Hb]. apply Forall_cons in Ha as [_ Ha].
  pose proof Hb as Hb0. apply bytes_at_app in Hb as [Hba Hbz]. apply bytes_at_cons in Hbz as [Hbz _].
  rewrite (strchr_ok (path + 1) slash a) by (done || lia || by split_and!).
  pose proof (split_at_spec slash a) as Hsp. destruct (split_at slash a) as [[frag rest]|]; cbn [mbind res_bind]; [|by eexists].
  destruct Hsp as [Ef _]. destruct (Z.eqb_spec (path + 1 + Z.of_nat (length frag)) 0); [lia|].
  rewrite Ef in Hba. apply bytes_at_app in Hba as [Hfrag Htail].
  assert (length a = length frag + S (length rest))%nat as Ela by (by rewrite Ef, length_app).
  replace (path + 1 + Z.of_nat (length frag) - path - 1) with (Z.of_nat (length frag)) by lia.
  rewrite (s32_small (Z.of_nat (length frag))) by (unfold is_s32; lia).
  destruct (below_overlay_ok _ _ Htail) as (o & Ho & Hrel); [lia|cbn [length]; lia|cbn [length]; lia|].
  replace (path + 1 + Z.of_nat (length frag) + Z.of_nat (length (slash :: rest)) + 1) with (path + Z.of_nat (length v)) in Ho by (cbn [length]; lia).
  set (frag_s := path + 1 + Z.of_nat (length frag)) in *. set (pe := path + Z.of_nat (length v)) in *.
  match goal with |- ∃ parts, ?lhs = _ ∧ _ => assert (lhs = Ok (parts_of (path + 1) (Z.of_nat (length frag)) o)) as -> end.
  { revert Ho. unfold below_overlay. destruct (if 13 <? pe - frag_s then _ else _) as [below| |]; [|done..]. cbn [mbind res_bind].
    destruct below; [by intros [= <-]|]. destruct (if pe - frag_s =? 13 then _ else _) as [b| |]; [|done..]. cbn [mbind res_bind].
    intros [= <-]. by destruct b. }
  eexists. split; [done|]. unfold overlay_rel in Hrel. cbv zeta.
  assert (∀ rel : list Z, (∃ rp, o = Some (rp, Z.of_nat (length rel)) ∧ (rel = [] ∧ rp = rodata "" ∨ bytes_at m rp rel ∧ frag_s <= rp ∧ rp + Z.of_nat (length rel) = frag_s + Z.of_nat (length (slash :: rest)))) →
    ∃ rp, parts_of (path + 1) (Z.of_nat (length frag)) o = inl (path + 1, Z.of_nat (length frag), rp, Z.of_nat (length rel)) ∧
      bytes_at m (path + 1) frag ∧ Z.of_nat (length frag) + Z.of_nat (length rel) + 2 <= Z.of_nat (length v) ∧
      (rel = [] ∧ rp = rodata "" ∨ bytes_at m rp rel ∧ path <= rp ∧ rp + Z.of_nat (length rel) <= path + Z.of_nat (length v))) as Hgo.
  { intros rel (rp & -> & Hrp). exists rp. split_and!; [done|done| |].
    - destruct Hrp as [[-> _]|(_ & ? & ?)]; cbn [length] in *; unfold frag_s, pe in *; lia.
    - destruct Hrp as [?|(? & ? & ?)]; [by left|right]. cbn [length] in *. unfold frag_s, pe in *. split_and!; [done|lia|lia]. }
  destruct (bool_decide (take 13 _ = _)); [by apply Hgo|]. destruct (bool_decide (_ = chars "/__overlay__")); [by apply Hgo|by rewrite Hrel].
Qed.
End parts.

(* ------------------------------------------------------------------ *)
(** * Writing a symbol *)

Lemma bytes_at_inj m a bs bs' : bytes_at m a bs → bytes_at m a bs' → length bs = length bs' → bs = bs'.
Proof.
  intros Hb Hb' Hl. apply (list_eq_same_length _ _ (length bs)); [done|done|]. intros i x y _ Hx Hy.
  apply Hb in Hx. apply Hb' in Hy. congruence.
Qed.

(** The value of a property of the base, while it is written from its start. *)
Section write_symbol.
Context (fdt size total r0 cpuid : Z) (rsv : list (Z * Z)).
Context (c : list frame) (nm : list Z) (l : list (list Z * list Z)) (name : list Z) (r : list (list Z * list Z)) (subs : list dtree).
Context (off used : Z) (n : nat).
#[local] Abbreviation node_at := (node_at fdt size total r0 cpuid rsv).
#[local] Abbreviation slot := (some_value fdt size total r0 cpuid rsv c nm l name r subs off used n).
#[local] Abbreviation tree_with v := (plug c (with_value nm l name r subs v)).
#[local] Abbreviation addr := (value_place fdt r0 rsv off nm l).
#[local] Abbreviation data_arg := (data_arg fdt size).

Definition written (m0 m : mem) (bs : list Z) : Prop := slot m ∧ same_outside fdt size m0 m ∧ bytes_at m addr bs.

Lemma slot_bounds m : slot m → 0 < fdt < addr ∧ addr + Z.of_nat n <= fdt + total ∧ fdt + total + 4 < 2 ^ 32 ∧ total <= size.
Proof using Type. intros (v & <- & Hat). destruct (value_here _ _ _ _ _ _ _ _ _ _ _ _ _ _ _ _ Hat) as (_ & ? & ? & ? & ? & _). done. Qed.

Lemma written_more m0 m a bs :
  written m0 m a → Forall is_u8 bs → (length a + length bs <= n)%nat →
  mapped m (addr + Z.of_nat (length a)) (Z.of_nat (length bs)) ∧ written m0 (map_bytes (addr + Z.of_nat (length a)) bs m) (a ++ bs).
Proof using Type.
  intros ((v & Hn & Hat) & Hs & Hb) Hu Hl. destruct (value_write _ _ _ _ _ _ _ _ _ _ _ _ _ _ _ _ (length a) bs Hat ltac:(lia) Hu) as (Hat' & Hs' & Hm).
  split; [exact Hm|]. split_and!.
  - eexists. split; [|exact Hat']. rewrite length_overwrite; [done|lia].
  - intros x Hx. by rewrite Hs', Hs.
  - apply bytes_at_app. split; [|apply map_bytes_at]. apply bytes_at_other; [done|lia].
Qed.

Lemma written_all m0 m bs : written m0 m bs → length bs = n → same_outside fdt size m0 m ∧ node_at m c (with_value nm l name r subs bs) off used.
Proof using Type.
  intros ((v & Hn & Hat) & Hs & Hb) Hl. split; [done|]. destruct (value_here _ _ _ _ _ _ _ _ _ _ _ _ _ _ _ _ Hat) as (Hv & _).
  assert (v = bs) as -> by (eapply bytes_at_inj; (done || lia)). done.
Qed.

Lemma written_data m0 m bs v val : written m0 m bs → data_arg m0 v val → data_arg m v val.
Proof using Type. intros (_ & Hs & _). by apply data_arg_same. Qed.

Lemma slot_written m : slot m → written m m [].
Proof using Type. intros Hs. split_and!; [done|done|]. by intros i b. Qed.

Context (Hn30 : Z.of_nat n < 2 ^ 30) (H30 : total <= 2 ^ 30).

(** The path of the target, from the code or from the base. *)
Lemma write_path m v0 path target target_path :
  slot m → length v0 = n → (1 < length path)%nat → (length path + 1 <= n)%nat →
  (if target_path =? 0 then well_named (tree_with v0) = true ∧ root_name (tree_with v0) = [] ∧
     ∃ j ns, stops (tree_with v0) !! j = Some (target, ns) ∧ path = path_string (tail ns)
   else data_arg m target_path (path ++ [0])) →
  ∃ m', (if target_path =? 0 then
           ret ← fdt_get_path fdt target addr (s32 (Z.of_nat (length path) + 1));
           mret (if ret <? 0 then inr ret else inl (Z.of_nat (length path)))
         else memcpy addr target_path (u32 (Z.of_nat (length path) + 1));; mret (inl (Z.of_nat (length path))) : W (Z + Z)) m
    = Ok (inl (Z.of_nat (length path)), m') ∧ written m m' path.
Proof using Hn30 H30.
  intros Hs Hn0 Hp1 Hpn Hpath. destruct (slot_bounds m Hs) as (Hf & Hat & Htop & Hsz).
  rewrite s32_small by (unfold is_s32; lia). rewrite u32_small by (unfold is_u32; lia).
  destruct (target_path =? 0).
  - destruct Hpath as (Hw & Hroot & j & ns & Hj & Epath).
    assert (PathBuffer fdt size total r0 cpuid rsv used (skeleton (tree_with v0)) addr (Z.of_nat (length path) + 1) slot) as Hpb.
    { apply slot_buffer; (done || lia || by exists m). }
    rewrite <- stops_skeleton in Hj. unfold skeleton in Hpb, Hj. rewrite <- (well_named_map zero_values) in Hw. rewrite <- (root_name_map zero_values) in Hroot.
    destruct (get_path_ok fdt size total r0 cpuid rsv used _ addr _ _ (Hpb := Hpb) Hw Hroot m j target ns Hs Hj) as (rc & m' & He & Hr).
    destruct (Z.leb_spec 2 (Z.of_nat (length path) + 1)); [|lia]. destruct Hr as (-> & Hs' & Hout & Hb).
    destruct (stop_names _ Hw Hroot _ _ _ Hj) as (ns' & -> & _). cbn [tail] in *.
    assert (Z.of_nat (length (FdtGetPath.join ([] :: ns'))) = Z.of_nat (length path) + 1) as El.
    { rewrite join_path. cbn [app]. rewrite length_app. cbn [length]. rewrite Epath in Hp1 |- *. unfold path_string in *. destruct ns'; cbn in *; lia. }
    rewrite El in *. rewrite Z.leb_refl in He. exists m'. rewrite (wbind_ok _ _ _ _ _ He). split; [done|].
    split_and!; [exact Hs'| |].
    + intros x Hx. apply Hout. lia.
    + specialize (Hb ltac:(lia)). rewrite <- Epath in Hb. by apply bytes_at_app in Hb as [? _].
  - destruct Hpath as (Hb & Hap & H0 & Ht & _). rewrite length_app in Ht, Hap. cbn [length] in Ht, Hap. unfold apart in Hap.
    assert (Forall is_u8 (path ++ [0])) as Hu. { eapply bytes_at_u8; [|exact Hb]. destruct Hs as (v & _ & Hv). by apply node_mem in Hv as [? _]. }
    destruct (written_more m m [] (path ++ [0]) (slot_written m Hs) Hu) as [Hm Hw]; [rewrite length_app; cbn; lia|].
    cbn [length app] in Hm, Hw. rewrite Z.add_0_r in Hm, Hw.
    exists (map_bytes addr (path ++ [0]) m). replace (Z.of_nat (length path) + 1) with (Z.of_nat (length (path ++ [0]))) by (rewrite length_app; cbn; lia).
    erewrite wbind_ok by (apply memcpy_map; [exact Hb|exact Hm|exact Hu|lia|lia|rewrite length_app; cbn; lia|rewrite length_app; cbn; lia|rewrite length_app; cbn; lia]).
    split; [done|]. destruct Hw as (? & ? & Hb'). apply bytes_at_app in Hb' as [? _]. by split_and!.
Qed.

Lemma write_symbol_ok m v0 path target target_path rel rp :
  slot m → length v0 = n → path ≠ [] → length (under path rel ++ [0]) = n → data_arg m rp rel →
  ((1 < length path)%nat → if target_path =? 0 then well_named (tree_with v0) = true ∧ root_name (tree_with v0) = [] ∧
     ∃ j ns, stops (tree_with v0) !! j = Some (target, ns) ∧ path = path_string (tail ns)
   else data_arg m target_path (path ++ [0])) →
  ∃ m', write_symbol fdt target target_path (Z.of_nat (length path)) rp (Z.of_nat (length rel)) addr m = Ok (None, m') ∧
    same_outside fdt size m m' ∧ node_at m' c (with_value nm l name r subs (under path rel ++ [0])) off used.
Proof using Hn30 H30.
  intros Hs Hn0 Hne Hlen Hrel Hpath. destruct (slot_bounds m Hs) as (Hf & Hat & Htop & Hsz). unfold write_symbol.
  assert (Forall is_u8 rel) as Hu. { destruct Hrel as [Hb _]. eapply bytes_at_u8; [|exact Hb]. destruct Hs as (v & _ & Hv). by apply node_mem in Hv as [? _]. }
  set (pre := if (length path <=? 1)%nat then [] else path). unfold under in *. fold pre in Hlen |- *. rewrite !length_app in Hlen. cbn [length] in Hlen.
  assert (∃ m1, (if 1 <? Z.of_nat (length path) then
         if target_path =? 0 then
           ret ← fdt_get_path fdt target addr (s32 (Z.of_nat (length path) + 1));
           mret (if ret <? 0 then inr ret else inl (Z.of_nat (length path)))
         else memcpy addr target_path (u32 (Z.of_nat (length path) + 1));; mret (inl (Z.of_nat (length path)))
       else mret (inl (s32 (Z.of_nat (length path) - 1))) : W (Z + Z)) m = Ok (inl (Z.of_nat (length pre)), m1) ∧ written m m1 pre) as (m1 & He1 & Hw1).
  { unfold pre in *. destruct (Nat.leb_spec (length path) 1) as [H1|H1].
    - exists m. destruct path as [|x [|]]; [done| |cbn in H1; lia]. split; [done|by apply slot_written].
    - destruct (Z.ltb_spec 1 (Z.of_nat (length path))); [|lia]. apply (write_path m v0); (done || lia || by apply Hpath). }
  rewrite (wbind_ok _ _ _ _ _ He1). cbv iota beta.
  assert (∀ k, 0 <= k → k <= Z.of_nat n → u32 (addr + k) = addr + k) as Hk by (intros; apply u32_small; unfold is_u32; lia).
  destruct (written_more m m1 pre [slash] Hw1) as [Hm2 Hw2]; [by repeat constructor|cbn [length]; lia|].
  rewrite Hk by lia. rewrite (wbind_ok _ _ _ _ _ (store8_map _ _ 47 Hm2 ltac:(done))). change [47] with [slash].
  set (m2 := map_bytes _ [slash] m1) in *.
  destruct (written_more m m2 (pre ++ [slash]) rel Hw2 Hu) as [Hm3 Hw3]; [rewrite length_app; cbn [length]; lia|].
  pose proof (written_data _ _ _ _ _ Hw2 Hrel) as (Hb3 & Hap3 & H03 & Ht3 & _). unfold apart in Hap3.
  rewrite length_app in Hm3, Hw3. cbn [length] in Hm3, Hw3. rewrite Nat2Z.inj_add in Hm3, Hw3. change (Z.of_nat 1) with 1 in Hm3, Hw3. rewrite Z.add_assoc in Hm3, Hw3.
  rewrite <- (Z.add_assoc _ _ 1), Hk, Z.add_assoc by lia. rewrite (u32_small (Z.of_nat (length rel))) by (unfold is_u32; lia).
  erewrite wbind_ok by (apply memcpy_map; [exact Hb3|exact Hm3|exact Hu|lia..]). set (m3 := map_bytes _ rel m2) in *.
  destruct (written_more m m3 ((pre ++ [slash]) ++ rel) [0] Hw3) as [Hm4 Hw4]; [by repeat constructor|rewrite !length_app; cbn [length]; lia|].
  rewrite !length_app in Hm4, Hw4. cbn [length] in Hm4, Hw4. rewrite !Nat2Z.inj_add in Hm4, Hw4. change (Z.of_nat 1) with 1 in Hm4, Hw4. rewrite !Z.add_assoc in Hm4, Hw4.
  rewrite <- !(Z.add_assoc addr), Hk, !Z.add_assoc by lia. rewrite (wbind_ok _ _ _ _ _ (store8_map _ _ 0 Hm4 ltac:(done))).
  eexists. split; [done|]. rewrite <- !app_assoc in Hw4. rewrite <- app_assoc. apply (written_all _ _ _ Hw4).
  rewrite !length_app. cbn [length]. lia.
Qed.
End write_symbol.

(* ------------------------------------------------------------------ *)
(** * One symbol *)

Lemma target_string_ok f s : path_ok f → target_string f = Some s → s ≠ [] ∧ Forall (λ b, b ≠ 0) s.
Proof.
  destruct f as [nm props subs]. cbn [path_ok target_string]. destruct (target_code props =? 0); [|done].
  destruct (tree_prop props (chars "target-path")) as [v|]; [|done]. intros [H0 Hh] [= <-].
  destruct (c_string_in v H0) as (rest & _ & Hnz). split; [|done]. by destruct v as [|b v]; [|injection Hh as ->].
Qed.

Lemma length_under path rel :
  Z.of_nat (length (under path rel ++ [0])) =
    (if 1 <? Z.of_nat (length path) then Z.of_nat (length path) else 0) + Z.of_nat (length rel) + 2.
Proof.
  unfold under. rewrite !length_app. cbn [length]. destruct (Nat.leb_spec (length path) 1), (Z.ltb_spec 1 (Z.of_nat (length path))); cbn [length]; lia.
Qed.

Section symbols.
Context `{Platform} (fdt size total r0 cpuid : Z) (rsv : list (Z * Z)).
Context (fdto sizeo totalo r0o cpuido : Z) (rsvo : list (Z * Z)).
Context (Hap : apart fdto sizeo fdt size) (Hto : totalo <= fdt) (H29 : total <= 2 ^ 29) (H29o : totalo <= 2 ^ 29).

#[local] Abbreviation base := (node_at fdt size total r0 cpuid rsv).
#[local] Abbreviation over := (node_at fdto sizeo totalo r0o cpuido rsvo).
#[local] Abbreviation over_holds := (holds fdto sizeo totalo r0o cpuido rsvo).
#[local] Abbreviation same := (same_outside fdt size).
#[local] Abbreviation out_of_space := (out_of_space fdt size total r0 cpuid rsv).

(** The literals of the code, outside the base. *)
Definition names_apart (m : mem) : Prop := ∀ s, s ∈ apply_literals → name_arg fdt size m (rodata s) (chars s).

Lemma names_literals m : names_apart m → literals_apart fdt size m.
Proof using Type.
  intros Hn s Hs. apply Hn. unfold merge_literals, apply_literals in *. revert Hs. rewrite !elem_of_cons, elem_of_nil. tauto.
Qed.

Lemma literal_apart m s : names_apart m → s ∈ apply_literals → name_arg fdt size m (rodata s) (chars s).
Proof using Type. intros Hn. apply Hn. Qed.
#[local] Arguments literal_apart m s%_string_scope.

Lemma names_same m m' : same m m' → names_apart m → names_apart m'.
Proof using Type. intros Hs Hn s Hin. eapply name_arg_same, Hn, Hin. done. Qed.

(** From the target of its fragment on. *)
Definition place_symbol (root_sym name fragment rel_path rel_path_len : Z) : W (option Z) :=
  '(target, target_path) ← rd (fun m => fdt_overlay_target_offset m fdt fdto fragment);
  if target <? 0 then mret (Some target)
  else
    len ← rd (fun m => if target_path =? 0 then get_path_len m fdt target
                       else n ← strlen target_path m; Ok (s32 n));
    if (target_path =? 0) && (len <? 0) then mret (Some len)
    else
      '(ret, buf) ← fdt_setprop_placeholder fdt root_sym name
                      (s32 (len + (if 1 <? len then 1 else 0) + rel_path_len + 1));
      if ret <? 0 then mret (Some ret)
      else
        '(target, target_path) ←
          (if target_path =? 0 then rd (fun m => fdt_overlay_target_offset m fdt fdto fragment)
           else mret (target, target_path));
        if target <? 0 then mret (Some target)
        else write_symbol fdt target target_path len rel_path rel_path_len buf.

(** The target and the length of its path. *)
Lemma target_len_ok m t used cf f usedo p :
  base m [] t 0 used → over_holds m usedo (cf, f) → names_apart m → path_ok f → well_named t = true → overlay_target f t = inl p →
  ∃ path, fdt_overlay_target_offset m fdt fdto (node_place cf) = Ok (pos_place p, path) ∧
    (if path =? 0 then get_path_len m fdt (pos_place p) else n ← strlen path m; Ok (s32 n))
      = Ok (Z.of_nat (length (default (pos_path p) (target_string f)))) ∧
    Z.of_nat (length (default (pos_path p) (target_string f))) < 2 ^ 29 ∧ default (pos_path p) (target_string f) ≠ [] ∧
    match target_string f with Some s => path ≠ 0 ∧ data_arg fdt size m path (s ++ [0]) | None => path = 0 end.
Proof using Hap H29 H29o.
  intros Hb Ho Hn Hpath Hw Et.
  destruct (target_ok fdt size total r0 cpuid rsv fdto sizeo totalo r0o cpuido rsvo Hap ltac:(lia) m cf f usedo t used Hb Ho (names_literals m Hn) Hpath)
    as (path & Htarget & Hs). rewrite Et in Htarget, Hs. exists path. split; [exact Htarget|].
  destruct (target_string f) as [s|] eqn:Es; cbn [default]; unfold id.
  - destruct Hs as (Hbs & [H0 Hd] & Hdt). destruct (target_string_ok _ _ Hpath Es) as [Hne Hnz].
    destruct (over_bounds _ _ _ _ _ _ _ _ _ _ _ Ho) as (Htot & Hf0 & Hft). destruct (node_buffer _ _ _ _ _ _ _ _ _ _ _ Ho) as [[Hmb Hwb _ _ _] _].
    destruct (Z.eqb_spec path 0); [lia|]. split_and!; [|lia|done|done|].
    + pose proof Hbs as [Hb1 [Hb2 _]%bytes_at_cons]%bytes_at_app.
      rewrite (strlen_name m path s); [cbn [mbind res_bind]; by rewrite s32_small by (unfold is_s32; lia)| |done|done]. split_and!; [by split_and!|lia..].
    + unfold data_arg, apart in *. rewrite length_app. cbn [length]. split_and!; [done|lia..].
  - subst path. cbn [Z.eqb]. assert (t = plug p.1 p.2) as Eplug by (destruct p as [c u]; by apply overlay_target_plug in Et).
    assert (holds fdt size total r0 cpuid rsv m used p) as Hp.
    { destruct (holds_node _ _ _ _ _ _ _ _ _ _ _ Hb) as [_ Hh]. rewrite Eplug in Hh. destruct p as [c u]. exact (proj1 (holds_whole _ _ _ _ _ _ _ _ c u) Hh). }
    destruct (get_path_len_ok _ _ _ _ _ _ _ _ p Hp) as [Hl Hlt]; [by rewrite <- Eplug|].
    split_and!; [exact Hl|lia| |done]. intros E. apply (f_equal length) in E. pose proof (path_length p) as E'. rewrite E in E'. cbn in E'.
    destruct (Z.eqb_spec (names_len p) 0); [done|]. unfold names_len in *. lia.
Qed.

(** A placeholder for the value, by the name of the property. *)
Lemma room_for_value_ok m c nm props subs off used s name len :
  base m c (DTree nm props subs) off used → name_arg fdt size m s name → 0 <= len < 2 ^ 30 →
  ∃ rc addr m', fdt_setprop_placeholder fdt off s len m = Ok ((rc, addr), m') ∧ same m m' ∧
    if rc =? 0 then ∃ l g r used', Z.of_nat (length g) = len ∧ used' <= used + growth name len ∧
      (∀ val, l ++ (name, val) :: r = set_prop props name val) ∧ addr = value_place fdt r0 rsv off nm l ∧
      base m' c (DTree nm (l ++ (name, g) :: r) subs) off used'
    else rc = - FDT_ERR_NOSPACE ∧ out_of_space c off used (growth name len) rc m'.
Proof using Type.
  intros Hb Hs Hlen. unfold fdt_setprop_placeholder. rewrite (wbind_rd _ _ _ _ (strlen_arg _ _ _ _ _ _ _ _ _ _ _ _ _ Hb Hs)).
  pose proof Hs as (_ & _ & _ & Hl30). rewrite s32_small by (unfold is_s32; lia).
  destruct (prop_placeholder_ok _ _ _ _ _ _ m c nm props subs off used s name len Hb Hs Hlen) as (rc & addr & m' & He & Hs' & Hr).
  exists rc, addr, m'. split_and!; [exact He|done|]. destruct (rc =? 0).
  - destruct Hr as (l & g & r & used' & Hg & Hu & Hset & Hslot & _ & _ & Ha & _). by exists l, g, r, used'.
  - destruct Hr as (-> & Hlt & Hb'). split_and!; [done|]. split_and!; [done|done|]. by eexists _, _.
Qed.

Lemma place_symbol_ok m c snm props subs off used cf f usedo s name rel rp p :
  base m c (DTree snm props subs) off used → over_holds m usedo (cf, f) → names_apart m → path_ok f →
  well_named (plug c (DTree snm props subs)) = true → overlay_target f (plug c (DTree snm props subs)) = inl p →
  name_arg fdt size m s name → phandle_name name = false → data_arg fdt size m rp rel → Z.of_nat (length rel) < 2 ^ 29 - 2 →
  ∃ ret m', place_symbol off s (node_place cf) rp (Z.of_nat (length rel)) m = Ok (ret, m') ∧ same m m' ∧
    let w := under (default (pos_path p) (target_string f)) rel ++ [0] in
    let cost := growth name (Z.of_nat (length w)) in
    match ret with
    | None => ∃ used', used' <= used + cost ∧ base m' c (DTree snm (set_prop props name w) subs) off used'
    | Some rc => out_of_space c off used cost rc m'
    end.
Proof using Hap H29 H29o.
  intros Hb Ho Hn Hpath Hw Et Hs Hph Hrel Hrl. cbv zeta. pose proof (holds_base _ _ _ _ _ _ _ _ _ _ _ Hb) as Hb0. unfold place_symbol.
  destruct (target_len_ok _ _ _ _ _ _ p Hb0 Ho Hn Hpath Hw Et) as (path & Htarget & Hlen & Hl29 & Hne & Hcase).
  rewrite (wbind_rd _ _ _ _ Htarget). cbv iota beta.
  assert (∀ q : position, (pos_place q <? 0) = false) as Hpos. { intros [q u]. apply Z.ltb_ge. apply ops_size_nonneg. }
  rewrite Hpos, (wbind_rd _ _ _ _ Hlen). set (P := default (pos_path p) (target_string f)) in *. set (w := under P rel ++ [0]).
  destruct (Z.ltb_spec (Z.of_nat (length P)) 0); [lia|]. rewrite andb_false_r.
  assert (1 <= Z.of_nat (length P)) as HP by (destruct P; [done|cbn; lia]). pose proof (length_under P rel) as Hlw. fold w in Hlw.
  replace (s32 _) with (Z.of_nat (length w)) by (rewrite s32_small; [|unfold is_s32]; destruct (Z.ltb_spec 1 (Z.of_nat (length P))); lia).
  destruct (room_for_value_ok m c snm props subs off used s name (Z.of_nat (length w)) Hb Hs) as (rc & addr & m1 & He1 & Hs1 & Hr1); [destruct (_ <? _); lia|].
  rewrite (wbind_ok _ _ _ _ _ He1). cbv iota beta. destruct (Z.eqb_spec rc 0) as [-> |Hrc].
  2: { destruct Hr1 as [-> Hout]. exists (Some (- FDT_ERR_NOSPACE)), m1. by split_and!. }
  destruct Hr1 as (l & g & r & used' & Hg & Hu & Hset & -> & Hb1). cbn [Z.ltb Z.compare]. set (t1 := plug c (DTree snm (l ++ (name, g) :: r) subs)).
  pose proof (holds_base _ _ _ _ _ _ _ _ _ _ _ Hb1) as Hb1'. pose proof (over_same _ _ _ _ _ _ _ _ _ _ _ _ Hap _ _ _ _ _ _ _ _ _ _ Hb1 Hs1 Ho) as Ho1.
  assert (map_props only_phandles t1 = map_props only_phandles (plug c (DTree snm props subs))) as Honly.
  { unfold t1. rewrite !map_plug, Hset. cbn [map_props]. by rewrite only_phandles_set_prop. }
  assert (well_named t1 = true) as Hw1 by (by rewrite <- (well_named_map only_phandles), Honly, well_named_map).
  assert (∃ p1, (if path =? 0 then rd (λ m, fdt_overlay_target_offset m fdt fdto (node_place cf)) else mret (pos_place p, path)) m1
      = Ok ((pos_place p1, path), m1) ∧ ((1 < length P)%nat → if path =? 0 then well_named t1 = true ∧ root_name t1 = [] ∧
     ∃ j ns, stops t1 !! j = Some (pos_place p1, ns) ∧ P = path_string (tail ns) else data_arg fdt size m1 path (P ++ [0]))) as (p1 & He2 & HP1).
  { unfold P. destruct (target_string f) as [s0|] eqn:Es; cbn [default]; unfold id.
    - destruct Hcase as [Hp0 Hdata]. apply Z.eqb_neq in Hp0. rewrite Hp0. exists p. split; [done|]. intros _. by eapply data_arg_same.
    - subst path. cbn [Z.eqb]. destruct (target_again f _ t1 p Honly Es Et) as (p1 & Et1 & Hnames).
      destruct (target_len_ok _ _ _ _ _ _ p1 Hb1' Ho1 (names_same _ _ Hs1 Hn) Hpath Hw1 Et1) as (path1 & Htarget1 & _ & _ & _ & Hc1). rewrite Es in Hc1. subst path1.
      exists p1. split; [unfold rd; by rewrite Htarget1|]. intros _. split; [done|].
      split; [by destruct Hb1' as (? & ? & ? & ? & _ & _ & _ & _ & _ & _ & _ & ? & _)|].
      destruct p1 as [c1 u1]. destruct (stop_of_plug c1 u1) as [j Hj]. apply overlay_target_plug in Et1. rewrite <- Et1 in Hj.
      exists j, (pos_names (c1, u1)). split; [exact Hj|]. unfold pos_path. by rewrite Hnames. }
  rewrite (wbind_ok _ _ _ _ _ He2). cbv iota beta. rewrite Hpos.
  destruct (write_symbol_ok fdt size total r0 cpuid rsv c snm l name r subs off used' (length g) ltac:(destruct (_ <? _); lia) ltac:(lia)
    m1 g P (pos_place p1) path rel rp) as (m' & He3 & Hs3 & Hb3); [by exists g|done|done|fold w; lia|by eapply data_arg_same|exact HP1|].
  exists None, m'. rewrite He3. split_and!; [done|intros x Hx; by rewrite Hs3, Hs1|]. exists used'. split; [lia|].
  fold w in Hb3. rewrite <- Hset. exact Hb3.
Qed.

Ltac is_literal := unfold apply_literals; repeat (apply list_elem_of_here || apply list_elem_of_further).

Lemma update_symbol_ok m c nm props subs off used o usedo cs unm syms usubs offs l name v r :
  base m c (DTree nm props subs) off used → over m [] o 0 usedo → over m cs (DTree unm syms usubs) offs usedo → syms = l ++ (name, v) :: r →
  names_apart m → Forall path_ok (node_children o) → well_named (plug c (DTree nm props subs)) = true → phandle_name name = false →
  ∃ ret m', update_symbol fdt fdto off (offs + prop_place unm l) m = Ok (ret, m') ∧ same m m' ∧
    match symbol_value o (plug c (DTree nm props subs)) v with
    | inl err => ret = Some err ∧ m' = m
    | inr None => ret = None ∧ m' = m
    | inr (Some w) =>
        let cost := growth name (Z.of_nat (length w)) in
        match ret with
        | None => ∃ used', used' <= used + cost ∧ base m' c (DTree nm (set_prop props name w) subs) off used'
        | Some rc => out_of_space c off used cost rc m'
        end
    end.
Proof using Hap Hto H29 H29o.
  intros Hb Ho Hos El Hn Hpaths Hw Hph. unfold update_symbol, symbol_value.
  destruct (getprop_here _ _ _ _ _ _ _ _ _ _ _ _ _ Hos l name v r El) as (d & s & Hg & (Hbv & Hd & Hdt) & Hs & Hnz).
  rewrite (wbind_rd _ _ _ _ Hg). cbv iota beta. destruct (over_bounds _ _ _ _ _ _ _ _ _ _ _ Ho) as (Htot & Hf0 & Hft).
  destruct (Z.eqb_spec d 0); [lia|].
  destruct (split_symbol_ok m (proj1 (literal_apart m "/__overlay__/" Hn ltac:(is_literal))) (proj1 (literal_apart m "/__overlay__" Hn ltac:(is_literal))) d v Hbv) as (parts & Hparts & Hsp); [lia..|].
  rewrite (wbind_rd _ _ _ _ Hparts). destruct (symbol_parts v) as [err|[[frag rel]|]].
  { subst parts. by exists (Some err), m. }
  2: { subst parts. by exists None, m. }
  destruct Hsp as (rp & -> & Hfrag & Hlen & Hrel). destruct (holds_node _ _ _ _ _ _ _ _ _ _ _ Ho) as [_ Hho].
  pose proof (child_found m (place := pos_place) (child := pos_child) (good := over_holds m usedo) ([], o) (d + 1) frag Hho Hfrag ltac:(lia) ltac:(lia)) as Hfound.
  change (pos_place ([], o)) with 0 in Hfound. rewrite (wbind_rd _ _ _ _ Hfound). unfold tree_child.
  destruct (pos_child ([], o) frag) as [[cf f]|] eqn:Ecf; cbn [fmap option_fmap option_map snd from_option].
  2: { by exists (Some (- FDT_ERR_BADOVERLAY)), m. }
  assert (∀ q : position, (pos_place q <? 0) = false) as Hpos. { intros [q u]. apply Z.ltb_ge. apply ops_size_nonneg. }
  rewrite Hpos. assert (over_holds m usedo (cf, f)) as Hhf by (eapply child_good; [apply positions_descend|exact Hho|exact Ecf]).
  pose proof (position_subnode _ _ _ _ _ _ _ _ _ _ _ Hhf (proj1 (literal_apart m "__overlay__" Hn ltac:(is_literal)))) as Hsub. rewrite (wbind_rd _ _ _ _ Hsub).
  rewrite <- (overlay_of_child cf f). destruct (pos_child (cf, f) (chars "__overlay__")) as [q|]; cbn [fmap option_fmap option_map from_option].
  2: { by exists (Some (- FDT_ERR_BADOVERLAY)), m. }
  rewrite Hpos. change (pos_place (cf, f)) with (node_place cf).
  assert (path_ok f) as Hpath.
  { destruct o as [on op os]. cbn [node_children] in Hpaths. pose proof (child_from_spec frag [] on op [] os) as Hc. cbn [pos_child] in Ecf. rewrite Ecf in Hc.
    destruct Hc as (r1 & u & r2 & -> & [= _ ->] & _). by apply Forall_app in Hpaths as [_ [? _]%Forall_cons]. }
  match goal with |- ∃ ret m', ?prog m = _ ∧ _ => change (prog m) with (place_symbol off s (node_place cf) rp (Z.of_nat (length rel)) m) end.
  destruct (overlay_target f _) as [p|err] eqn:Et.
  - apply (place_symbol_ok m c nm props subs off used cf f usedo s name rel rp p); try done.
    + eapply over_name; [exact Hap|exact Hto|lia|exact Ho|exact Hs|exact Hnz].
    + unfold data_arg, apart in *. destruct Hrel as [[-> ->]|(Hbr & Hr1 & Hr2)].
      * destruct (literal_apart m "" Hn ltac:(is_literal)) as ((_ & H0 & H1 & _) & Hapn & _). cbn [length chars] in *. unfold apart in Hapn. split_and!; [by intros ? ?|lia..].
      * split_and!; [done|lia..].
    + lia.
  - unfold place_symbol. pose proof (holds_base _ _ _ _ _ _ _ _ _ _ _ Hb) as Hb0.
    destruct (target_ok fdt size total r0 cpuid rsv fdto sizeo totalo r0o cpuido rsvo Hap ltac:(lia) m cf f usedo _ used Hb0 Hhf (names_literals m Hn) Hpath)
      as (path & Htarget & _). rewrite Et in Htarget. rewrite (wbind_rd _ _ _ _ Htarget). cbv iota beta.
    pose proof (overlay_target_error _ _ _ Et). destruct (Z.ltb_spec err 0); [|lia]. by exists (Some err), m.
Qed.

(** ** All of them *)

Lemma out_of_space_root c off used cost rc m' : out_of_space c off used cost rc m' → out_of_space [] 0 used cost rc m'.
Proof using Type. intros (-> & Hlt & t & used' & Hb). split_and!; [done|done|]. apply holds_base in Hb. by eexists _, _. Qed.

Lemma update_symbols_ok m c nm props subs t used o usedo cs unm syms usubs offs :
  symbols_at c nm props subs t → base m [] t 0 used → over m [] o 0 usedo → over m cs (DTree unm syms usubs) offs usedo →
  names_apart m → Forall path_ok (node_children o) → well_named t = true → forallb (λ p, negb (phandle_name p.1)) syms = true →
  ∃ ret m', fdt_for_each_property_offset fdto offs (update_symbol fdt fdto (node_place c)) m = Ok (ret, m') ∧
    match ret with
    | None => same m m' ∧ (add_symbols o syms t).2 = 0 ∧
        ∃ used', used' <= used + add_symbols_cost o syms t ∧ base m' [] (add_symbols o syms t).1 0 used'
    | Some rc => same m m' ∧ merge_result fdt size total r0 cpuid rsv t used (add_symbols_cost o syms t) rc (add_symbols o syms t) m'
    end.
Proof using Hap Hto H29 H29o.
  intros Hat Hb Ho Hos Hn Hpaths Hw Hnames.
  destruct (for_each_property_ok fdto sizeo totalo r0o cpuido rsvo
    (λ l mi, same m mi ∧ (add_symbols o l t).2 = 0 ∧ well_named (add_symbols o l t).1 = true ∧ over mi [] o 0 usedo ∧
       (∃ propsi, symbols_at c nm propsi subs (add_symbols o l t).1) ∧
       ∃ used', used' <= used + add_symbols_cost o l t ∧ base mi [] (add_symbols o l t).1 0 used')
    (λ rc m', same m m' ∧ merge_result fdt size total r0 cpuid rsv t used (add_symbols_cost o syms t) rc (add_symbols o syms t) m')
    (update_symbol fdt fdto (node_place c)) m cs unm syms usubs offs usedo Hos) as (ret & m' & He & Hr).
  - split_and!; [done..|by exists props|]. exists used. split; [cbn; lia|done].
  - intros l name v r mi El Hosi (Hsi & Hi0 & Hwi & Hoi & [propsi Hati] & ui & Hui & Hbi).
    set (ti := (add_symbols o l t).1) in *. pose proof (symbols_at_plug _ _ _ _ _ Hati) as Eti.
    assert (negb (phandle_name name) = true) as Hph%negb_true_iff.
    { rewrite El, forallb_app in Hnames. cbn [forallb fst] in Hnames. by apply andb_true_iff in Hnames as [_ [? _]%andb_true_iff]. }
    destruct (update_symbol_ok mi c nm propsi subs (node_place c) ui o usedo cs unm syms usubs offs l name v r) as (ret & m' & He & Hs' & Hr);
      [by apply (base_holds _ _ _ _ _ _ _ ti)|done..|by eapply names_same|done|by rewrite <- Eti|done|]. rewrite <- Eti in Hr.
    exists ret, m'. split; [done|]. assert (same m m') as Hs2 by (intros x Hx; rewrite Hs', Hsi; done).
    destruct (add_symbols_app o l ((name, v) :: r) t Hi0) as [Eall Call]. rewrite <- El in Eall, Call. fold ti in Eall, Call.
    destruct (add_symbols_app o l [(name, v)] t Hi0) as [Esnoc Csnoc]. fold ti in Esnoc, Csnoc. cbn [add_symbols add_symbols_cost] in Eall, Call, Esnoc, Csnoc.
    destruct (symbol_value o ti v) as [err|[w|]] eqn:Ev.
    + destruct Hr as [-> ->]. split; [done|]. left. rewrite Eall, Call. split; [done|]. exists ui. split; [lia|done].
    + destruct (set_symbol_at _ _ _ _ _ name w Hati) as [Eset Hset]. pose proof (add_symbols_cost_nonneg o r (set_symbol name w ti)) as Hc. destruct ret as [rc|].
      * split; [done|]. eapply out_of_space_result; [|eapply out_of_space_root, Hr]. lia.
      * destruct Hr as (u' & Hu' & Hb'). rewrite Esnoc, Csnoc. cbn [fst snd]. pose proof (over_same _ _ _ _ _ _ _ _ _ _ _ _ Hap _ _ _ _ _ _ _ _ _ _ Hb' Hs' Hoi) as Ho'.
        split; [by eapply over_same|]. split_and!; [done|done| |done|by eexists|].
        -- rewrite Eset. by rewrite (well_named_set c nm propsi), <- Eti.
        -- exists u'. split; [lia|]. rewrite Eset. by eapply holds_base.
    + destruct Hr as [-> ->]. rewrite Esnoc, Csnoc. cbn [fst snd]. split; [done|]. split_and!; [done|done|done|done|by eexists|]. exists ui. split; [lia|done].
  - exists ret, m'. split; [done|]. destruct ret as [rc|]; [done|]. destruct Hr as (? & ? & _ & _ & _ & ?). by split_and!.
Qed.

(** The node of the symbols in the base, made if it is missing. *)
Lemma root_symbols_ok m t used :
  base m [] t 0 used → names_apart m →
  let cost := 8 + align4 (Z.of_nat (length symbols_name) + 1) in
  ∃ r m', (root_sym ← rd (fun m => fdt_subnode_offset m fdt 0 (rodata "__symbols__"));
           if root_sym =? - FDT_ERR_NOTFOUND then fdt_add_subnode fdt 0 (rodata "__symbols__") else mret root_sym) m = Ok (r, m') ∧ same m m' ∧
    if r <? 0 then r = - FDT_ERR_NOSPACE ∧ m' = m ∧ total < used + cost
    else ∃ c nm props subs used', symbols_at c nm props subs (with_symbols t) ∧ r = node_place c ∧
      used' <= used + cost ∧ base m' [] (with_symbols t) 0 used'.
Proof using Type.
  intros Hb Hn cost. destruct (holds_node _ _ _ _ _ _ _ _ _ _ _ Hb) as [_ Hh]. pose proof (literal_apart m "__symbols__" Hn ltac:(is_literal)) as Harg.
  pose proof (position_subnode _ _ _ _ _ _ _ _ _ _ _ Hh (proj1 Harg)) as Hsub. change (pos_place ([], t)) with 0 in Hsub.
  rewrite (wbind_rd _ _ _ _ Hsub). unfold with_symbols, symbols_at. change (chars "__symbols__") with symbols_name in *.
  assert (0 <= cost) as Hc by (unfold cost; pose proof (align4_ge (Z.of_nat (length symbols_name) + 1) ltac:(lia)); lia).
  destruct (pos_child ([], t) symbols_name) as [[c [nm props subs]]|] eqn:Ec; cbn [from_option].
  - unfold pos_place. cbn [fst]. pose proof (ops_size_nonneg (ops_before c)) as Hp. fold (node_place c) in Hp.
    destruct (Z.eqb_spec (node_place c) (- FDT_ERR_NOTFOUND)); [unfold FDT_ERR_NOTFOUND in *; lia|].
    exists (node_place c), m. split_and!; [done|done|]. destruct (Z.ltb_spec (node_place c) 0); [lia|]. exists c, nm, props, subs, used. by split_and!; [|done|lia|].
  - rewrite Z.eqb_refl. destruct t as [tn tp ts]. cbn [pos_child] in Ec. pose proof (child_from_spec symbols_name [] tn tp [] ts) as Hno. rewrite Ec in Hno.
    destruct (add_subnode_ok _ _ _ _ _ _ m [] tn tp ts 0 used _ _ Hb Harg) as (r & m' & He & Hs & Hr). change (chars "__symbols__") with symbols_name in *.
    rewrite Hno in Hr. cbv zeta in Hr. fold cost in Hr. exists r, m'. split_and!; [exact He|done|].
    destruct (Z.leb_spec (used + cost) total).
    + destruct Hr as [Hr0 Hb']. destruct (Z.ltb_spec r 0); [lia|]. destruct (holds_node _ _ _ _ _ _ _ _ _ _ _ Hb') as [-> _].
      eexists _, _, _, _, _. split_and!; [|done|done|by apply holds_base in Hb']. done.
    + destruct Hr as [-> ->]. by split_and!.
Qed.

(** Without symbols in the overlay there is nothing to do. *)
Lemma symbol_update_none m o usedo :
  over m [] o 0 usedo → names_apart m → tree_child o symbols_name = None → overlay_symbol_update fdt fdto m = Ok (0, m).
Proof using Type.
  intros Ho Hn Hno. unfold overlay_symbol_update. destruct (holds_node _ _ _ _ _ _ _ _ _ _ _ Ho) as [_ Hh].
  pose proof (position_subnode _ _ _ _ _ _ _ _ _ _ _ Hh (proj1 (literal_apart m "__symbols__" Hn ltac:(is_literal)))) as Hs.
  unfold tree_child, symbols_name in Hno. destruct (pos_child ([], o) (chars "__symbols__")); [done|]. by rewrite (wbind_rd _ _ _ _ Hs).
Qed.

Lemma symbol_update_ok m t used o usedo :
  base m [] t 0 used → over m [] o 0 usedo → names_apart m → Forall path_ok (node_children o) → well_named t = true → symbols_named o = true →
  ∃ rc m', overlay_symbol_update fdt fdto m = Ok (rc, m') ∧ same m m' ∧
    merge_result fdt size total r0 cpuid rsv t used (symbols_cost o t) rc (merge_symbols o t) m'.
Proof using Hap Hto H29 H29o.
  intros Hb Ho Hn Hpaths Hw Hnames. destruct (tree_child o symbols_name) as [[unm syms usubs]|] eqn:Esyms.
  2: { exists 0, m. unfold symbols_cost, merge_symbols. rewrite Esyms. split_and!; [by eapply symbol_update_none|done|].
       left. split; [done|]. exists used. split; [lia|done]. }
  unfold symbols_cost, merge_symbols, symbols_named in *. rewrite Esyms in *. unfold tree_child in Esyms.
  destruct (pos_child ([], o) symbols_name) as [[cs us]|] eqn:Ecs; [|done]. injection Esyms as ->.
  destruct (holds_node _ _ _ _ _ _ _ _ _ _ _ Ho) as [_ Hh].
  assert (over_holds m usedo (cs, DTree unm syms usubs)) as Hos by (eapply child_good; [apply positions_descend|exact Hh|exact Ecs]).
  pose proof (position_subnode _ _ _ _ _ _ _ _ _ _ _ Hh (proj1 (literal_apart m "__symbols__" Hn ltac:(is_literal)))) as Hsub.
  change (chars "__symbols__") with symbols_name in Hsub. rewrite Ecs in Hsub. unfold overlay_symbol_update. rewrite (wbind_rd _ _ _ _ Hsub).
  cbn [from_option]. unfold pos_place at 1. cbn [fst]. pose proof (ops_size_nonneg (ops_before cs)) as Hp. fold (node_place cs) in Hp.
  destruct (Z.ltb_spec (node_place cs) 0); [lia|]. destruct (root_symbols_ok m t used Hb Hn) as (r & m1 & He1 & Hs1 & Hr1). cbv zeta in Hr1.
  set (cost := 8 + _) in *. pose proof (add_symbols_cost_nonneg o syms (with_symbols t)) as Hc.
  assert (∀ k : Z → W Z, (root_sym ← rd (fun m => fdt_subnode_offset m fdt 0 (rodata "__symbols__"));
    root_sym ← (if root_sym =? - FDT_ERR_NOTFOUND then fdt_add_subnode fdt 0 (rodata "__symbols__") else mret root_sym); k root_sym) m = k r m1) as Hgo.
  { intros k. revert He1. unfold mbind, W_bind. destruct (rd _ m) as [[v m2]| |]; [|done..]. by intros ->. }
  rewrite Hgo. destruct (Z.ltb_spec r 0).
  - destruct Hr1 as (-> & -> & Hlt). exists (- FDT_ERR_NOSPACE), m. split_and!; [done|done|]. right. split_and!; [done|lia|by eexists _, _].
  - destruct Hr1 as (c & nm & props & subs & u1 & Hat & -> & Hu1 & Hb1). pose proof (over_same _ _ _ _ _ _ _ _ _ _ _ _ Hap _ _ _ _ _ _ _ _ _ _ Hb1 Hs1 Ho) as Ho1.
    pose proof (over_same _ _ _ _ _ _ _ _ _ _ _ _ Hap _ _ _ _ _ _ _ _ _ _ Hb1 Hs1 Hos) as Hos1.
    destruct (update_symbols_ok m1 c nm props subs _ u1 o usedo cs unm syms usubs _ Hat Hb1 Ho1 Hos1 (names_same _ _ Hs1 Hn) Hpaths (well_named_with _ Hw) Hnames)
      as (ret & m' & He & Hr). unfold or_return. change (pos_place (cs, DTree unm syms usubs)) with (node_place cs) in *. rewrite (wbind_ok _ _ _ _ _ He).
    assert (same m m') as Hs by (destruct ret; destruct Hr as [Hs2 _]; intros x Hx; by rewrite Hs2, Hs1).
    destruct ret as [rc|]; destruct Hr as [_ Hr].
    + exists rc, m'. split_and!; [done|done|]. destruct Hr as [[-> (u' & Hu' & Hb')]|(-> & Hlt & Ht)]; [left|right].
      * split; [done|]. exists u'. split; [lia|done].
      * split_and!; [done|lia|done].
    + destruct Hr as (Hz0 & u' & Hu' & Hb'). exists 0, m'. split_and!; [done|done|]. left. split; [done|]. exists u'. split; [lia|done].
Qed.

(** C14: [overlay_symbol_update] brings the symbols of an overlay into a base, one after the
    other: a symbol that leads into a fragment gets the path of that fragment's target in
    the base, as it is then, in front of its path below __overlay__; others are left out,
    and the first one that is not a path, or whose fragment or target is not there, ends
    the update with its error.  The node __symbols__ of the base is made if it is missing.
    Nothing outside the buffer of the base changes.  There is space if [symbols_cost] bytes
    are free; if there is none, [-FDT_ERR_NOSPACE] is returned, and the base is still a
    tree.  Assumed: every target-path of the overlay is NUL-terminated and absolute (an
    alias would be put in front as it stands); the names of the base are not empty and have
    no slashes; no symbol is called phandle or linux,phandle; and both trees have at most
    2^29 bytes. *)
Theorem overlay_symbol_update_spec m t used o usedo :
  base m [] t 0 used → over m [] o 0 usedo → names_apart m → Forall path_ok (node_children o) → well_named t = true → symbols_named o = true →
  ∃ rc m', overlay_symbol_update fdt fdto m = Ok (rc, m') ∧ same m m' ∧
    let '(t', err) := merge_symbols o t in
    let cost := symbols_cost o t in
    (rc = err ∧ ∃ used', used' <= used + cost ∧ base m' [] t' 0 used') ∨
    (rc = - FDT_ERR_NOSPACE ∧ total < used + cost ∧ ∃ t'' used', base m' [] t'' 0 used').
Proof using Hap Hto H29 H29o.
  intros Hb Ho Hn Hpaths Hw Hnames. destruct (symbol_update_ok m t used o usedo Hb Ho Hn Hpaths Hw Hnames) as (rc & m' & He & Hs & Hr).
  exists rc, m'. split_and!; [done|done|]. by destruct (merge_symbols o t).
Qed.
End symbols.

(* ------------------------------------------------------------------ *)
(** * Example *)

#[local] Open Scope string_scope.

(** Three symbols: one below a target that a path names, one that is the target with the
    phandle 5 itself, and one that leads nowhere. *)
Definition symbol_strings : list Z := sample_strings ++ cstr "dev" ++ cstr "soc" ++ cstr "none".
Definition sample_symbols : dtree :=
  DTree [] []
    [DTree (chars "fragment@0") [(chars "target-path", cstr "/soc")] [DTree (chars "__overlay__") [] []];
     DTree (chars "fragment@1") [(chars "target", be32 5)] [DTree (chars "__overlay__") [] []];
     DTree (chars "__symbols__")
       [(chars "dev", cstr "/fragment@0/__overlay__/bus/dev"); (chars "soc", cstr "/fragment@1/__overlay__"); (chars "none", cstr "/other")] []].
Definition sample_with_symbols : dtree :=
  DTree [] []
    [DTree (chars "__symbols__") [(chars "soc", cstr "/soc/"); (chars "dev", cstr "/soc/bus/dev")] [];
     DTree (chars "soc") [(chars "phandle", be32 5)] []].
#[local] Close Scope string_scope.

Lemma overlay_symbol_update_spec_witness :
  ∃ m', @overlay_symbol_update overlay_platform base_addr over_addr (two_trees symbol_strings sample_base sample_symbols) = Ok (0, m') ∧
    ∃ used, node_at base_addr 512 512 40 0 [(0, 0)] m' [] sample_with_symbols 0 used.
Proof.
  destruct (two_trees_at symbol_strings sample_base sample_symbols) as [Hb Ho]; [vm_compute; reflexivity..|].
  destruct (@overlay_symbol_update_spec overlay_platform base_addr 512 512 40 0 [(0, 0)] over_addr 512 512 40 0 [(0, 0)]
    ltac:(right; vm_compute; discriminate) ltac:(vm_compute; discriminate) ltac:(vm_compute; discriminate) ltac:(vm_compute; discriminate)
    _ _ _ _ _ Hb Ho) as (rc & m' & He & _ & Hr).
  - intros s Hs. by apply (sample_apply_names symbol_strings sample_base sample_symbols).
  - repeat constructor; vm_compute; tauto.
  - reflexivity.
  - reflexivity.
  - exists m'. revert Hr. assert (merge_symbols sample_symbols sample_base = (sample_with_symbols, 0)) as -> by (vm_compute; reflexivity). cbv zeta.
    intros [[-> (used & _ & Hat)]|(_ & Hlt & _)]; [|vm_compute in Hlt; discriminate]. split; [exact He|]. exists used. exact Hat.
Defined.
