(* ===== verification/FdtApply.v ===== *)
(** [fdt_overlay_apply] of src/libfdt/fdt_overlay.c from end to end: what it makes of a base
    and an overlay is one function on trees. *)
From S2P Require Import Prelude Machine Crt0 SampleTree Fdt FdtRo FdtCheck FdtTree FdtLookup FdtPath FdtWrite FdtSw FdtRw FdtImage FdtBuild FdtFinish FdtRead FdtEdit FdtNode FdtEncode FdtChildren FdtPack FdtTreeEdit FdtPositions FdtInplace FdtOverlay FdtMerge FdtFragments FdtPhandles FdtRefs FdtConflicts FdtFixups FdtGetPath FdtSymbols.
From stdpp Require Import base list gmap.
From Stdlib Require Import ZArith Lia.
From Stdlib Require String.
#[local] Open Scope Z_scope.

(* ------------------------------------------------------------------ *)
(** * On trees *)

(** The largest phandle of a tree. *)
Definition max_phandle (t : dtree) : Z := foldl Z.max 0 (map (λ p, tree_phandle p.2) (positions [] t)).

(** The overlay as it is merged: the phandles moved past those of the base, and the
    references with them; the references into the base resolved; then the phandles of the
    base where it has one, and so do the references; or an error. *)
Definition then_on {A} (r : Z * A) (f : A → Z * A) : Z * A := if r.1 =? 0 then f r.2 else r.
Definition move_phandles (u base : dtree) : Z * dtree :=
  let delta := max_phandle base in then_on (shift_phandles delta u) (fix_local (λ w, u32 (w + delta))).
Definition prepare (u base : dtree) : Z * dtree :=
  then_on (then_on (move_phandles u base) (fix_external base)) (share_fragments base).

(** The base with the fragments of the overlay and then its symbols, and 0, or how far it
    gets and the error; and the bytes that they may take. *)
Definition merge_overlay (o base : dtree) : dtree * Z :=
  let '(t, err) := merge_fragments (node_children o) base in if err =? 0 then merge_symbols o t else (t, err).
Definition overlay_cost (o base : dtree) : Z :=
  let '(t, err) := merge_fragments (node_children o) base in
  fragments_cost (node_children o) + (if err =? 0 then symbols_cost o t else 0).

(** The overlay has no symbols. *)
Definition plain (u : dtree) : Prop := no_child u symbols_name.

(** It has, and the paths in front of them can be written. *)
Definition nameable (u base : dtree) : Prop := well_named u = true ∧ well_named base = true ∧ symbols_named u = true.

(** Its references to itself and into the base can be fixed up. *)
Definition fixable (u base : dtree) : Prop :=
  good_fixups (shift_phandles (max_phandle base) u).2 = true ∧ good_external base (move_phandles u base).2 = true.

(** ** What preparing keeps *)

Lemma plain_alike u u' : alike u' u → plain u → plain u'.
Proof. intros Ha. unfold plain, no_child. by rewrite (alike_names _ _ Ha). Qed.

Lemma well_named_shape t : well_named (shape t) = well_named t.
Proof.
  induction t as [nm props subs IH] using dtree_ind'. cbn [shape well_named]. induction IH as [|u subs Hu _ IH]; [done|].
  cbn [map forallb]. rewrite IH, Hu. by destruct u.
Qed.

Lemma symbols_named_shape t : symbols_named (shape t) = symbols_named t.
Proof.
  destruct t as [nm props subs]. unfold symbols_named, tree_child. cbn [shape pos_child].
  assert (∀ l l', snd <$> child_from symbols_name [] nm (blank props) l (map shape subs) = shape <$> (snd <$> child_from symbols_name [] nm props l' subs)) as Hc.
  { induction subs as [|u subs IH]; intros l l'; [done|]. cbn [map child_from]. replace (root_name (shape u)) with (root_name u) by (by destruct u).
    destruct (name_matches _ _); [done|apply IH]. }
  rewrite (Hc [] []). destruct (snd <$> _) as [[un syms us]|]; [|done]. cbn [fmap option_fmap option_map shape]. unfold blank. induction syms as [|p syms IH]; [done|].
  cbn [map forallb fst]. by rewrite IH.
Qed.

Lemma nameable_alike u u' base : alike u' u → nameable u base → nameable u' base.
Proof.
  unfold nameable, alike. intros Ha. by rewrite <- (well_named_shape u'), <- (symbols_named_shape u'), Ha, well_named_shape, symbols_named_shape.
Qed.

(** ** What merging keeps *)

Definition all_named : list dtree → bool := forallb (λ u, good_name (root_name u) && well_named u).

Lemma merge_root u t : root_name (merge_node u t) = root_name t.
Proof. by destruct u, t. Qed.

Lemma well_named_merge u : well_named u = true → ∀ t, well_named t = true → well_named (merge_node u t) = true.
Proof.
  induction u as [un uprops usubs IH] using dtree_ind'. intros Hu [nm props subs] Ht. cbn [merge_node well_named] in *.
  change (all_named (foldl merge_sub subs usubs) = true). change (all_named usubs = true) in Hu. change (all_named subs = true) in Ht.
  revert subs Ht. induction IH as [|v usubs Hv _ IHs]; intros subs Ht; [done|]. cbn [foldl]. cbn [all_named forallb] in Hu.
  apply andb_true_iff in Hu as [[Hgv Hwv]%andb_true_iff Hu]. apply IHs; [done|]. clear IHs Hu. specialize (Hv Hwv). unfold merge_sub.
  pose proof (merge_into_split (merge_node v) (root_name v) subs) as Hs. destruct (existsb _ subs).
  - destruct Hs as (l & s & r & -> & _ & _ & ->). cbn [default]. unfold id, all_named in *. rewrite forallb_app in *. cbn [forallb] in *.
    rewrite !andb_true_iff in *. destruct Ht as (Hl & (Hgs & Hws) & Hr). rewrite merge_root. split_and!; [done|done|by apply Hv|done].
  - rewrite Hs. cbn [default]. unfold id, all_named. cbn [forallb]. rewrite merge_root. cbn [root_name]. rewrite Hgv, Hv by done. exact Ht.
Qed.

Lemma well_named_replace c : ∀ t t', root_name t' = root_name t → well_named t' = true → well_named (plug c t) = true → well_named (plug c t') = true.
Proof.
  induction c as [|f c IH]; intros t t' Hr Hw Ht; [done|]. change (plug (f :: c) ?x) with (plug c (plug1 x f)) in *. apply (IH (plug1 t f)); [done| |done].
  pose proof (well_named_below _ _ Ht) as H1. revert H1. unfold plug1. cbn [well_named]. rewrite !forallb_app. cbn [forallb]. rewrite Hr, !andb_true_iff. tauto.
Qed.

Lemma well_named_child t name u : well_named t = true → tree_child t name = Some u → well_named u = true.
Proof.
  destruct t as [nm props subs]. unfold tree_child. cbn [pos_child]. intros Hw. pose proof (child_from_spec name [] nm props [] subs) as Hs.
  destruct (child_from _ _ _ _ _ _) as [[c v]|]; [|done]. intros [= ->]. destruct Hs as (r1 & w & r2 & -> & [= _ ->] & _).
  cbn [well_named] in Hw. rewrite forallb_app in Hw. cbn [forallb] in Hw. rewrite !andb_true_iff in Hw. tauto.
Qed.

Lemma well_named_fragments frags : ∀ t, all_named frags = true → well_named t = true → well_named (merge_fragments frags t).1 = true.
Proof.
  induction frags as [|f frags IH]; intros t Hf Ht; [done|]. cbn [all_named forallb] in Hf. apply andb_true_iff in Hf as [[_ Hwf]%andb_true_iff Hf].
  cbn [merge_fragments]. destruct (overlay_of f) as [u|] eqn:Eu; [|by apply IH]. destruct (overlay_target f t) as [[c v]|err] eqn:Et; [|done].
  apply IH; [done|]. apply overlay_target_plug in Et. rewrite Et in Ht. apply (well_named_replace c v); [by rewrite merge_root| |done].
  apply well_named_merge; [by apply (well_named_child f (chars "__overlay__"))|by eapply well_named_below].
Qed.

Lemma shift_prop_blank delta props name : name ≠ chars "target-path" → blank (shift_prop delta props name).2 = blank props.
Proof.
  intros Hne. unfold shift_prop. destruct (tree_prop props name) as [v|] eqn:Ev; [|done].
  destruct (Z.eqb_spec (Z.of_nat (length v)) 4); cbn [negb]; [|done]. cbv zeta. destruct (_ || _); [done|].
  eapply blank_set; [exact Ev| |done]. rewrite length_be32. lia.
Qed.

Lemma shift_props_blank delta props : blank (shift_props delta props).2 = blank props.
Proof.
  unfold shift_props, or_absent. pose proof (shift_prop_blank delta props (chars "phandle") ltac:(done)) as H1.
  destruct (shift_prop delta props (chars "phandle")) as [rc1 ps1]. cbn [fst snd] in *. destruct (_ =? 0); [|done].
  by rewrite <- H1, <- (shift_prop_blank delta ps1 (chars "linux,phandle")).
Qed.

Lemma shift_alike delta t : alike (shift_phandles delta t).2 t.
Proof.
  unfold alike. induction t as [nm props subs IH] using dtree_ind'. cbn [shift_phandles]. pose proof (shift_props_blank delta props) as Hp.
  destruct (shift_props delta props) as [rc ps]. cbn [snd] in Hp. destruct (rc =? 0); [|cbn [snd shape]; by rewrite Hp].
  assert (map shape (map_until (shift_phandles delta) subs).2 = map shape subs) as Hs.
  2: { destruct (map_until _ subs) as [rc' subs']. cbn [snd shape] in *. by rewrite Hp, Hs. }
  induction IH as [|t subs Ht _ IHs]; [done|]. cbn [map_until]. destruct (shift_phandles delta t) as [rc1 t'].
  destruct (map_until _ subs) as [rc2 subs']. cbn [snd] in *. destruct (rc1 =? 0); cbn [snd map]; congruence.
Qed.

(* ------------------------------------------------------------------ *)
(** * In memory *)

(** [fdt_find_max_phandle] finds the largest phandle. *)
Lemma find_max_phandle_tree `{Platform} fdt size total r0 cpuid rsv m used t :
  c_name m (rodata "phandle") (chars "phandle") → c_name m (rodata "linux,phandle") (chars "linux,phandle") →
  holds fdt size total r0 cpuid rsv m used ([], t) → fdt_find_max_phandle m fdt = Ok (0, max_phandle t).
Proof.
  intros H1 H2 Ht. destruct (tree_walk _ _ _ _ _ _ _ _ _ Ht) as (root & Hb & Hr & Hv & Hw).
  rewrite (find_max_phandle_ok m fdt Hr Hv H1 H2 root Hb). repeat f_equal. unfold max_phandle. f_equal.
  assert (Forall (λ ed, ∃ l, at_node m fdt ed.1 ed.2 l) (tree_nodes 0 root)) as Hall.
  { apply Forall_forall. intros [e depth] Hin. exact (at_tree_node m fdt root e depth (names_blob m fdt Hr Hv) Hb Hin). }
  clear Hb. induction Hw as [|[e depth] p l1 l2 [_ Hp] _ IH]; [done|]. apply Forall_cons in Hall as [[l He] Hall].
  cbn [fmap list_fmap map fst snd] in *. rewrite (phandle_of_tree m fdt Hr Hv e depth l He), Hp. f_equal. by apply IH.
Qed.

(** Spoiling the magic of a tree. *)
Lemma spoil_ok m fdt size :
  buffer m fdt size → 40 <= size →
  let m' := map_bytes fdt (be32 UINT_MAX) m in
  fdt_set_magic fdt UINT_MAX m = Ok (tt, m') ∧ fdt_magic m' fdt = Ok UINT_MAX ∧ same_outside fdt 4 m m' ∧
  mem_bytes m' ∧ word_backed m'.
Proof.
  intros Hb Hs. cbv zeta. pose proof (set_header_map m fdt size 0 UINT_MAX Hb ltac:(lia) Hs) as He.
  rewrite Z.add_0_r in He. destruct Hb as [Hmb Hwb [H0 H8] Ht Hm]. assert (fdt mod 4 = 0) as H4 by (Z.div_mod_to_equations; lia).
  split_and!; [exact He| | |by apply map_bytes_bytes; [apply be32_u8|]|by apply map_bytes_word_backed].
  - unfold fdt_magic, fdt_get_header. rewrite Z.add_0_r, u32_small by (unfold is_u32; lia).
    apply (fdt32_ld_bytes _ _ UINT_MAX); [apply map_bytes_at|done|lia|lia].
  - intros x Hx. apply map_bytes_other. rewrite length_be32. lia.
Qed.

Section apply.
Context `{Platform} (tmp : Z).
(** The base, and an overlay in another buffer; the stack slot. *)
Context (fdt size total r0 cpuid : Z) (rsv : list (Z * Z)).
Context (fdto sizeo totalo r0o cpuido : Z) (rsvo : list (Z * Z)).
Context (Hap : apart fdto sizeo fdt size) (Hto : totalo <= fdt) (H30 : totalo <= 2 ^ 30).
Context (Htmp : 0 < tmp ∧ tmp mod 4 = 0 ∧ tmp + 4 < 2 ^ 32) (Hapt : apart tmp 4 fdt size) (Hapo : apart tmp 4 fdto sizeo).

#[local] Abbreviation base := (node_at fdt size total r0 cpuid rsv).
#[local] Abbreviation over := (node_at fdto sizeo totalo r0o cpuido rsvo).
#[local] Abbreviation changed := (changed tmp fdto sizeo).
#[local] Abbreviation apply_names := (apply_names tmp fdt size fdto sizeo).

(** The end: the overlay is used up, and a base that is not as it should be is spoilt. *)
Definition finish (ret : Z) : W Z :=
  if ret =? 0 then fdt_set_magic fdto UINT_MAX;; mret 0
  else fdt_set_magic fdto UINT_MAX;; fdt_set_magic fdt UINT_MAX;; mret ret.

Lemma finish_apply_ok m t used u usedo ret :
  base m [] t 0 used → over m [] u 0 usedo →
  ∃ m', finish ret m = Ok (ret, m') ∧ fdt_magic m' fdto = Ok UINT_MAX ∧
    (∀ x, (x < fdt ∨ fdt + size <= x) → (x < fdto ∨ fdto + sizeo <= x) → m' !! x = m !! x) ∧
    if ret =? 0 then base m' [] t 0 used else fdt_magic m' fdt = Ok UINT_MAX.
Proof using Hap.
  clear Htmp Hapt Hapo Hto H30. intros Hb Ho. destruct (node_buffer _ _ _ _ _ _ _ _ _ _ _ Ho) as [Hbo Hso].
  destruct (node_buffer _ _ _ _ _ _ _ _ _ _ _ Hb) as [Hbb Hsb]. unfold finish, apart in *.
  destruct (spoil_ok m fdto sizeo Hbo Hso) as (He1 & Hm1 & Hs1 & Hmb1 & Hwb1). set (m1 := map_bytes fdto (be32 UINT_MAX) m) in *.
  assert (base m1 [] t 0 used) as Hb1.
  { apply (node_at_kept _ _ _ _ _ _ m); [intros x Hx; apply Hs1; lia|done..]. }
  destruct (ret =? 0) eqn:E.
  - apply Z.eqb_eq in E as ->. exists m1. split_and!; [by rewrite (wbind_ok _ _ _ _ _ He1)|done| |done].
    intros x Hx Hx'. apply Hs1. lia.
  - destruct (node_buffer _ _ _ _ _ _ _ _ _ _ _ Hb1) as [Hbb1 _].
    destruct (spoil_ok m1 fdt size Hbb1 Hsb) as (He2 & Hm2 & Hs2 & Hmb2 & Hwb2). eexists. split_and!.
    + rewrite (wbind_ok _ _ _ _ _ He1). by rewrite (wbind_ok _ _ _ _ _ He2).
    + destruct Hbo as [_ _ [H0 _] Ht _]. unfold fdt_magic, fdt_get_header. rewrite Z.add_0_r, u32_small by (unfold is_u32; lia).
      apply (fdt32_ld_bytes _ _ UINT_MAX); [|done|lia|lia]. eapply bytes_at_outside; [exact Hs2|apply map_bytes_at|]. rewrite length_be32. lia.
    + intros x Hx Hx'. rewrite Hs2, Hs1 by lia. done.
    + done.
Qed.

(** ** The steps *)

Lemma and_then_ok step rest m rc m' :
  step m = Ok (rc, m') → and_then step rest m = if rc =? 0 then rest m' else Ok (rc, m').
Proof using Type. intros He. unfold and_then. rewrite (wbind_ok _ _ _ _ _ He). by destruct (rc =? 0). Qed.

Lemma over_phandle_names m : apply_names m → phandle_names fdto sizeo m.
Proof using Type.
  clear Htmp. intros Hn s Hs. assert (s ∈ apply_literals) as Hin.
  { unfold phandle_literals, apply_literals in *. revert Hs. rewrite !elem_of_cons, elem_of_nil. tauto. }
  destruct (Hn s Hin) as ((Hc & _ & _ & Hl) & Ha & Hf & _). by split_and!.
Qed.

#[local] Arguments no_path H tmp fdt size fdto sizeo totalo r0o cpuido rsvo m cu u offu usedo s%_string_scope name : rename.
#[local] Arguments apply_name H tmp fdt size fdto sizeo m s%_string_scope : rename.
Ltac is_literal := unfold apply_literals; repeat (apply list_elem_of_here || apply list_elem_of_further).

Lemma apply_names_apart m : apply_names m → names_apart fdt size m.
Proof using Type. intros Hn s Hs. apply (Hn s Hs). Qed.

(** The last step does nothing without symbols, and needs room for paths with them. *)
Definition symbols_fine (u t : dtree) : Prop := plain u ∨ nameable u t ∧ total <= 2 ^ 29 ∧ totalo <= 2 ^ 29.

Lemma symbols_ok m t used o usedo :
  base m [] t 0 used → over m [] o 0 usedo → apply_names m → Forall path_ok (node_children o) → symbols_fine o t →
  ∃ rc m', overlay_symbol_update fdt fdto m = Ok (rc, m') ∧ same_outside fdt size m m' ∧
    merge_result fdt size total r0 cpuid rsv t used (symbols_cost o t) rc (merge_symbols o t) m'.
Proof using Hap Hto.
  clear Htmp H30. intros Hb Ho Hn%apply_names_apart Hpaths [Hplain|[(_ & Hw & Hs) [H29 H29o]]].
  - assert (tree_child o symbols_name = None) as Hno by (unfold tree_child; by rewrite (no_child_from o [] _ Hplain)).
    exists 0, m. unfold symbols_cost, merge_symbols. rewrite Hno. split_and!; [by eapply symbol_update_none|done|].
    left. split; [done|]. exists used. split; [lia|done].
  - eapply symbol_update_ok; done.
Qed.

(** Everything but the two trees and the slot is as it was. *)
Definition untouched (m m' : mem) : Prop :=
  ∀ x, (x < fdt ∨ fdt + size <= x) → (x < fdto ∨ fdto + sizeo <= x) → (x < tmp ∨ tmp + 4 <= x) → m' !! x = m !! x.

Lemma untouched_changed m m' : changed m m' → untouched m m'.
Proof using Type. intros [Hs _] x _ Hx Hx'. by apply Hs. Qed.

(** What the steps leave. *)
Definition applied (t u : dtree) (used rc : Z) (m' : mem) : Prop :=
  let '(err, o) := prepare u t in
  if err =? 0 then merge_result fdt size total r0 cpuid rsv t used (overlay_cost o t) rc (merge_overlay o t) m'
  else rc = err ∧ base m' [] t 0 used.

(** The steps on the overlay. *)
Lemma prepare_ok m t used u usedo (rest : W Z) :
  base m [] t 0 used → over m [] u 0 usedo → fixable u t → apply_names m → mapped m tmp 4 → Forall path_ok (node_children u) →
  ∃ m', let '(err, o) := prepare u t in let delta := max_phandle t in
    and_then (overlay_adjust_local_phandles fdto delta) (and_then (overlay_update_local_references fdto delta)
      (and_then (overlay_fixup_phandles tmp fdt fdto) (and_then (overlay_prevent_phandle_overwrite tmp fdt fdto) rest))) m
      = (if err =? 0 then rest m' else Ok (err, m')) ∧
    changed m m' ∧ over m' [] o 0 usedo ∧ alike o u.
Proof using Hap Hto H30 Htmp Hapt Hapo.
  intros Hb Ho [Hgood Hext] Hn Hm Hpaths. unfold prepare, move_phandles in *. set (delta := max_phandle t) in *.
  destruct (adjust_local_phandles_ok fdto sizeo totalo r0o cpuido rsvo m u usedo delta Ho (over_phandle_names m Hn)) as (m1 & He1 & Hs1 & Ho1).
  pose proof (changed_over tmp fdto sizeo Hapo _ _ Hs1) as Hc1. pose proof (shift_alike delta u) as Ha1.
  rewrite (and_then_ok _ _ _ _ _ He1). destruct (shift_phandles delta u) as [rc1 u1]. unfold then_on at 3. unfold then_on in Hext. cbn [fst snd] in *.
  destruct (Z.eqb_spec rc1 0) as [-> |Hne1]; unfold then_on; cbn [fst snd].
  2: { apply Z.eqb_neq in Hne1. exists m1. by repeat (cbn [fst snd]; rewrite Hne1). }
  pose proof (apply_names_changed tmp fdt size fdto sizeo _ _ Hc1 Hn) as Hn1.
  pose proof (update_local_references_ok _ _ _ _ _ _ m1 u1 usedo delta Ho1 (apply_name _ _ _ _ _ m1 "/__local_fixups__" Hn1 ltac:(is_literal)) Hgood) as H2.
  pose proof (fix_local_keeps (λ w, u32 (w + delta)) u1 Hgood) as Hk2. destruct (fix_local _ u1) as [rc2 u2]. cbn [fst snd] in *.
  destruct H2 as (m2 & He2 & Hs2 & Ho2). pose proof (changed_trans tmp fdto sizeo _ _ _ Hc1 (changed_over tmp fdto sizeo Hapo _ _ Hs2)) as Hc2.
  assert (alike u2 u) as Ha2 by (etransitivity; [apply Hk2|done]).
  rewrite (and_then_ok _ _ _ _ _ He2). destruct (Z.eqb_spec rc2 0) as [-> |Hne2].
  2: { apply Z.eqb_neq in Hne2. exists m2. by repeat (cbn [fst snd]; rewrite Hne2). }
  pose proof (apply_names_changed tmp fdt size fdto sizeo _ _ Hc2 Hn) as Hn2.
  pose proof (base_changed tmp fdt size total r0 cpuid rsv fdto sizeo totalo r0o cpuido rsvo Hap Hapt _ _ _ _ _ _ _ _ _ _ Hc2 Ho2 Hb) as Hb2.
  pose proof (fixup_phandles_ok tmp fdt size total r0 cpuid rsv fdto sizeo totalo r0o cpuido rsvo Hap Htmp Hapt Hapo m2 t used u2 usedo Hb2 Ho2 Hn2
    (proj2 Hc2 Hm) Hext) as H3.
  pose proof (fix_external_keeps t u2 Hext) as [Hk3 _]. destruct (fix_external t u2) as [rc3 u3]. cbn [fst snd] in *.
  destruct H3 as (m3 & He3 & Hc23 & Ho3). pose proof (changed_trans tmp fdto sizeo _ _ _ Hc2 Hc23) as Hc3.
  assert (alike u3 u) as Ha3 by (etransitivity; [apply Hk3|done]).
  rewrite (and_then_ok _ _ _ _ _ He3). destruct (Z.eqb_spec rc3 0) as [-> |Hne3].
  2: { apply Z.eqb_neq in Hne3. exists m3. by repeat (cbn [fst snd]; rewrite Hne3). }
  pose proof (apply_names_changed tmp fdt size fdto sizeo _ _ Hc3 Hn) as Hn3. pose proof (keeps_good _ _ Hk3 (keeps_good _ _ Hk2 Hgood)) as Hg3.
  pose proof (base_changed tmp fdt size total r0 cpuid rsv fdto sizeo totalo r0o cpuido rsvo Hap Hapt _ _ _ _ _ _ _ _ _ _ Hc3 Ho3 Hb) as Hb3.
  destruct (prevent_overwrite_ok tmp fdt size total r0 cpuid rsv fdto sizeo totalo r0o cpuido rsvo Hap Hto H30 Htmp Hapt Hapo
    m3 t used u3 usedo Hb3 Ho3 Hg3 Hn3 (proj2 Hc3 Hm) (paths_ok_alike _ _ Ha3 Hpaths)) as (m4 & He4 & Hc4 & Ho4).
  pose proof (share_fragments_keeps t u3 Hg3) as Hk4. destruct (share_fragments t u3) as [rc4 u4]. cbn [fst snd] in *.
  rewrite (and_then_ok _ _ _ _ _ He4). exists m4. split_and!; [done|by eapply changed_trans|done|etransitivity; [apply Hk4|done]].
Qed.

Lemma symbols_fine_merged u o t :
  alike o u → symbols_fine u t → symbols_fine o (merge_fragments (node_children o) t).1.
Proof using Type.
  clear Htmp. intros Ha [Hp|[Hna Hsz]]; [left; by eapply plain_alike|right]. split; [|done]. destruct (nameable_alike _ _ _ Ha Hna) as (Hwo & Hwt & Hs).
  split_and!; [done| |done]. apply well_named_fragments; [|done]. by destruct o.
Qed.

(** The merge and the symbols. *)
Lemma merge_ok m t used o usedo :
  base m [] t 0 used → over m [] o 0 usedo → apply_names m → Forall path_ok (node_children o) →
  symbols_fine o (merge_fragments (node_children o) t).1 →
  ∃ rc m', and_then (overlay_merge fdt fdto) (overlay_symbol_update fdt fdto) m = Ok (rc, m') ∧ same_outside fdt size m m' ∧
    merge_result fdt size total r0 cpuid rsv t used (overlay_cost o t) rc (merge_overlay o t) m'.
Proof using Hap Hto H30.
  intros Hb Ho Hn Hpaths Hfine. destruct o as [un uprops frags] eqn:Eo. cbn [node_children] in *.
  destruct (overlay_merge_ok fdt size total r0 cpuid rsv fdto sizeo totalo r0o cpuido rsvo Hap Hto H30 m t used un uprops frags usedo
    Hb Ho (apply_names_literals _ _ _ _ _ _ Hn) Hpaths) as (rc & m1 & He & Hs & Hr). rewrite <- Eo in *.
  rewrite (and_then_ok _ _ _ _ _ He). unfold overlay_cost, merge_overlay. replace (node_children o) with frags by (by rewrite Eo).
  destruct (merge_fragments frags t) as [t1 err] eqn:Em. cbn [fst] in Hfine.
  assert (0 <= if err =? 0 then symbols_cost o t1 else 0) as Hcost by (destruct (_ =? _); [apply symbols_cost_nonneg|done]).
  destruct Hr as [[-> (u1 & Hu1 & Hb1)]|(-> & Hlt & Hbad)].
  2: { exists (- FDT_ERR_NOSPACE), m1. split_and!; [done|done|]. right. split_and!; [done|lia|done]. }
  cbn [fst snd] in *. destruct (Z.eqb_spec err 0) as [-> |].
  2: { exists err, m1. split_and!; [done|done|]. left. split; [done|]. exists u1. split; [lia|done]. }
  pose proof (over_same fdt size total r0 cpuid rsv fdto sizeo totalo r0o cpuido rsvo Hap _ _ _ _ _ _ _ _ _ _ Hb1 Hs Ho) as Ho1.
  assert (apply_names m1) as Hn1.
  { intros s Hin. destruct (Hn s Hin) as (Hna & Hao & Hl & Hat). split_and!; [|done|done|done]. by eapply name_arg_same. }
  destruct (symbols_ok m1 t1 u1 o usedo Hb1 Ho1 Hn1) as (rc & m' & He' & Hs' & Hr'); [by rewrite Eo|done|].
  exists rc, m'. split_and!; [done|intros x Hx; by rewrite Hs', Hs|]. destruct Hr' as [[-> (u' & Hu' & Hb')]|(-> & Hlt & Hbad)]; [left|right].
  - split; [done|]. exists u'. split; [lia|done].
  - split_and!; [done|lia|done].
Qed.

Lemma steps_ok m t used u usedo :
  base m [] t 0 used → over m [] u 0 usedo → fixable u t → symbols_fine u t → apply_names m → mapped m tmp 4 → Forall path_ok (node_children u) →
  ∃ rc m' u', overlay_steps tmp fdt fdto m = Ok (rc, m') ∧ untouched m m' ∧ over m' [] u' 0 usedo ∧ applied t u used rc m'.
Proof using Hap Hto H30 Htmp Hapt Hapo.
  intros Hb Ho Hgood Hfine Hn Hm Hpaths. unfold overlay_steps, applied. destruct (holds_node _ _ _ _ _ _ _ _ _ _ _ Hb) as [_ Hh].
  pose proof (find_max_phandle_tree _ _ _ _ _ _ _ _ _ (apply_name _ _ _ _ _ m "phandle" Hn ltac:(is_literal))
    (apply_name _ _ _ _ _ m "linux,phandle" Hn ltac:(is_literal)) Hh) as Hmax.
  rewrite (wbind_rd _ _ _ _ Hmax). cbv iota beta. cbn [Z.eqb negb].
  destruct (prepare_ok m t used u usedo (and_then (overlay_merge fdt fdto) (overlay_symbol_update fdt fdto)) Hb Ho Hgood Hn Hm Hpaths) as (m1 & Hr).
  destruct (prepare u t) as [err o]. destruct Hr as (-> & Hc1 & Ho1 & Ha).
  pose proof (base_changed tmp fdt size total r0 cpuid rsv fdto sizeo totalo r0o cpuido rsvo Hap Hapt _ _ _ _ _ _ _ _ _ _ Hc1 Ho1 Hb) as Hb1.
  destruct (Z.eqb_spec err 0) as [-> |].
  2: { exists err, m1, o. split_and!; [done|by apply untouched_changed|done|done|done]. }
  pose proof (apply_names_changed tmp fdt size fdto sizeo _ _ Hc1 Hn) as Hn1. pose proof (paths_ok_alike _ _ Ha Hpaths) as Hpaths1.
  destruct (merge_ok m1 t used o usedo Hb1 Ho1 Hn1 Hpaths1 (symbols_fine_merged _ _ _ Ha Hfine)) as (rc & m2 & He2 & Hs2 & Hr).
  assert (∃ c' t' used', base m2 c' t' 0 used') as (c' & t' & used' & Hb2).
  { destruct Hr as [[_ (used' & _ & Hb2)]|(_ & _ & t' & used' & Hb2)]; by eexists _, _, _. }
  exists rc, m2, o. split_and!; [done| | |done].
  - intros x Hx Hx' Hx''. rewrite Hs2 by lia. by apply (untouched_changed _ _ Hc1).
  - exact (over_same fdt size total r0 cpuid rsv fdto sizeo totalo r0o cpuido rsvo Hap _ _ _ _ _ _ _ _ _ _ Hb2 Hs2 Ho1).
Qed.

(** C9: [fdt_overlay_apply], end to end.  The phandles of the overlay and its references to
    them move past the largest phandle of the base; references into the base get the
    phandles its symbols lead to; a node to be merged into one with a phandle takes that
    phandle; then the fragments are merged, and the symbols added.  Only the trees and a
    stack slot change.  The result is 0 and the base is the merged tree; or the base is
    marked broken, with the failing step's error, or [-FDT_ERR_NOSPACE] if less than
    [overlay_cost] bytes are free.  Assumed: local references lie inside their properties,
    none in __local_fixups__; paths in the fixups and in symbols used for them are
    absolute, the former not into the two fixup nodes, their offsets below 2^32 - 4; no
    reference is in a target-path, each of which is absolute and NUL-terminated; the
    overlay is at most 2^30 bytes, and if it has symbols both trees are at most 2^29, names
    have no slashes and are not empty, no symbol is called like a phandle. *)
Theorem fdt_overlay_apply_spec m t used u usedo :
  base m [] t 0 used → over m [] u 0 usedo → fixable u t → symbols_fine u t → apply_names m → mapped m tmp 4 → Forall path_ok (node_children u) →
  ∃ rc m', fdt_overlay_apply tmp fdt fdto m = Ok (rc, m') ∧ untouched m m' ∧ fdt_magic m' fdto = Ok UINT_MAX ∧
    let '(err, o) := prepare u t in
    let '(t', err') := merge_overlay o t in
    let cost := overlay_cost o t in
    if rc =? 0 then err = 0 ∧ err' = 0 ∧ ∃ used', used' <= used + cost ∧ base m' [] t' 0 used'
    else fdt_magic m' fdt = Ok UINT_MAX ∧
      if err =? 0 then rc = err' ∨ (rc = - FDT_ERR_NOSPACE ∧ total < used + cost) else rc = err.
Proof using Hap Hto H30 Htmp Hapt Hapo.
  intros Hb Ho Hgood Hfine Hn Hm Hpaths. unfold fdt_overlay_apply.
  destruct (probe_node _ _ _ _ _ _ _ _ _ _ _ Hb) as [Hp Hp0]. destruct (probe_node _ _ _ _ _ _ _ _ _ _ _ Ho) as [Hpo Hpo0].
  rewrite (wbind_rd _ _ _ _ Hp). destruct (Z.ltb_spec total 0); [lia|].
  rewrite (wbind_rd _ _ _ _ Hpo). destruct (Z.ltb_spec totalo 0); [lia|].
  destruct (steps_ok m t used u usedo Hb Ho Hgood Hfine Hn Hm Hpaths) as (rc & m1 & u' & He & Hu & Ho1 & Hr).
  rewrite (wbind_ok _ _ _ _ _ He). unfold applied in Hr. destruct (prepare u t) as [err o]. set (cost := overlay_cost o t) in *. cbv zeta.
  destruct (merge_overlay o t) as [t' err'].
  assert (∃ t1 used1, base m1 [] t1 0 used1 ∧ (rc = 0 → err = 0 ∧ err' = 0 ∧ t1 = t' ∧ used1 <= used + cost) ∧
    (rc ≠ 0 → if err =? 0 then rc = err' ∨ (rc = - FDT_ERR_NOSPACE ∧ total < used + cost) else rc = err)) as (t1 & used1 & Hb1 & Hz & Herr).
  { destruct (Z.eqb_spec err 0) as [-> |Hne].
    - destruct Hr as [[-> (used1 & Hle & Hb1)]|(-> & Hlt & t1 & used1 & Hb1)].
      + exists t', used1. by split_and!; [|intros Hrc|left].
      + exists t1, used1. by split_and!; [|intros ?|right].
    - destruct Hr as [-> Hb1]. exists t, used. by split_and!; [|intros ?|]. }
  destruct (finish_apply_ok m1 t1 used1 u' usedo rc Hb1 Ho1) as (m' & Hf & Hmagic & Hs & Hend).
  exists rc, m'. split_and!; [exact Hf| |done|].
  - intros x Hx Hx' Hx''. rewrite Hs, Hu; done.
  - destruct (Z.eqb_spec rc 0) as [-> |Hne].
    + destruct (Hz eq_refl) as (-> & -> & -> & Hle). split_and!; [done|done|]. by exists used1.
    + split; [done|]. by apply Herr.
Qed.
End apply.

(* ------------------------------------------------------------------ *)
(** * Example *)

#[local] Open Scope string_scope.

(** For a base with the symbol [ref] for the phandle 5, an overlay whose target is that
    symbol; it gives the target the phandle 1, and brings a node with the phandle 2 and a
    symbol for it.  The three references are to the target, once as the overlay's own node
    and once as the symbol, and to the new node. *)
Definition sample_source : dtree :=
  DTree [] []
    [DTree (chars "fragment@0") [(chars "target", be32 UINT_MAX)]
       [DTree (chars "__overlay__") [(chars "ref", be32 1 ++ be32 UINT_MAX); (chars "phandle", be32 1)]
          [DTree (chars "dev") [(chars "ref", be32 2); (chars "phandle", be32 2)] []]];
     DTree (chars "__fixups__") [(chars "ref", cstr "/fragment@0:target:0" ++ cstr "/fragment@0/__overlay__:ref:4")] [];
     DTree (chars "__local_fixups__") []
       [DTree (chars "fragment@0") [] [DTree (chars "__overlay__") [(chars "ref", be32 0)] [DTree (chars "dev") [(chars "ref", be32 0)] []]]];
     DTree (chars "__symbols__") [(chars "dev", cstr "/fragment@0/__overlay__/dev")] []].

(** The phandle of the base stays; the new one is 5 + 2; the references follow; the symbol
    has the path of the target in front. *)
Definition sample_applied : dtree :=
  DTree [] []
    [DTree (chars "soc") [(chars "ref", be32 5 ++ be32 5); (chars "phandle", be32 5)]
       [DTree (chars "dev") [(chars "phandle", be32 7); (chars "ref", be32 7)] []];
     DTree (chars "__symbols__") [(chars "dev", cstr "/soc/dev"); (chars "ref", cstr "/soc")] []].
#[local] Close Scope string_scope.

Lemma fdt_overlay_apply_spec_witness :
  ∃ m', @fdt_overlay_apply overlay_platform 0x3000 base_addr over_addr (two_trees symbol_strings symbol_base sample_source)
      = Ok (0, m') ∧
    ∃ used, node_at base_addr 512 512 40 0 [(0, 0)] m' [] sample_applied 0 used.
Proof.
  destruct (two_trees_at symbol_strings symbol_base sample_source) as [Hb Ho]; [vm_compute; reflexivity..|].
  destruct (@fdt_overlay_apply_spec overlay_platform 0x3000 base_addr 512 512 40 0 [(0, 0)] over_addr 512 512 40 0 [(0, 0)]
    ltac:(right; vm_compute; discriminate) ltac:(vm_compute; discriminate) ltac:(vm_compute; discriminate)
    ltac:(vm_compute; repeat split) ltac:(left; vm_compute; discriminate) ltac:(left; vm_compute; discriminate)
    _ _ _ _ _ Hb Ho) as (rc & m' & He & _ & _ & Hr).
  - split; vm_compute; reflexivity.
  - right. split; [split; [|split]; vm_compute; reflexivity|split; vm_compute; discriminate].
  - apply sample_apply_names.
  - apply sample_slot.
  - repeat constructor.
  - exists m'. revert Hr. assert (prepare sample_source symbol_base = (0, (prepare sample_source symbol_base).2)) as -> by (vm_compute; reflexivity).
    assert (merge_overlay (prepare sample_source symbol_base).2 symbol_base = (sample_applied, 0)) as Em by (vm_compute; reflexivity).
    cbv zeta. rewrite Em. destruct (Z.eqb_spec rc 0) as [-> |Hne].
    + intros (_ & _ & used & _ & Hat). split; [exact He|]. exists used. exact Hat.
    + intros [_ [Hz|[_ Hlt]]]; exfalso; [by apply Hne|]. vm_compute in Hlt. discriminate.
Defined.
