(* ===== verification/Devices.v ===== *)
(** The users of the device tree: src/init_devices.c ([parse_reg] and the check of
    the tree), the device-tree side of src/mem/memory.c ([detect_memory]),
    src/riscv/clint/clint.c, [init_uart] of src/drivers/uart.c, and
    src/drivers/power.c. *)
From S2P Require Import Prelude Machine Registers Printf Console Crt0 SampleTree Memory Fdt FdtRo FdtCheck FdtTree FdtLookup.
From stdpp Require Import base list gmap.
From Stdlib Require Import ZArith Lia.
From Stdlib Require String.
#[local] Open Scope Z_scope.

(** [enum parsing_error]. *)
Definition SUCCESS : Z := 0.
Definition NO_SUCH_FIELD : Z := 1.
Definition OUT_OF_SLOTS : Z := 2.
Definition ORIG_VAL_TOO_BIG : Z := 3.
Definition CALL_AGAIN : Z := 4.

(** The loop of [fetch_lowest_], with [n] cells before the last one. *)
Fixpoint fetch_from (n : nat) (m : mem) (cell_ptr : Z) : res Z :=
  match n with
  | O => fdt32_ld_ m cell_ptr
  | S n' =>
      c ← load32 m cell_ptr;
      if negb (c =? 0) then Ok UINT_MAX else fetch_from n' m (u32 (cell_ptr + 4))
  end.

(** With one cell (or none) the word is returned as it is, not byte-swapped. *)
Definition fetch_lowest_ (m : mem) (cell_ptr cells_count : Z) : res Z :=
  if u32 (cells_count * 4) <=? 4 then load32 m cell_ptr
  else fetch_from (Z.to_nat (cells_count - 1)) m cell_ptr.

Section parse.
Context `{Platform} (m : mem).

(** [parse_reg]: the result code and what was stored in the two buffers. *)
Definition parse_reg (tree node : Z) : res (Z * option Z * option Z) :=
  '(reg, len) ← fdt_getprop m tree node (rodata "reg");
  if len <? 0 then Ok (len, None, None)
  else
    parent ← fdt_parent_offset m tree node;
    if parent <? 0 then Ok (parent, None, None)
    else
      address_cells ← fdt_address_cells m tree parent;
      if address_cells <? 0 then Ok (address_cells, None, None)
      else
        start ← fetch_lowest_ m reg address_cells;
        let reg := u32 (reg + 4 * address_cells) in
        size_cells ← fdt_size_cells m tree parent;
        if size_cells <? 0 then Ok (size_cells, Some start, None)
        else
          size ← fetch_lowest_ m reg size_cells;
          Ok (if u32 (4 * (address_cells + size_cells)) <? u32 len then CALL_AGAIN else SUCCESS,
              Some start, Some size).
End parse.

Section with_platform.
Context `{Platform}.

Definition check_device_tree (devtree : Z) : K bool :=
  when (devtree =? 0) (KERNEL_PANIC "Device tree was not passed." []);;
  devicetree_passed ← reading (fun m => fdt_check_header m devtree);
  when (negb (devicetree_passed =? 0))
    (KERNEL_PANIC (String.append "[FATAL] No device tree was passed: %s " NL)
       [VStr (cstr (fdt_strerror devicetree_passed))]);;
  invalid_fdt ← reading (fun m => totalsize ← fdt_totalsize m devtree;
                                  fdt_check_full m devtree totalsize);
  when (negb (invalid_fdt =? 0))
    (KERNEL_PANIC (String.append "[FATAL] Device tree turned out to be invalid: %s" NL)
       [VStr (cstr (fdt_strerror invalid_fdt))]);;
  printf_ (String.append "[OK] Device tree verified" NL) [];;
  mret true.

(* ------------------------------------------------------------------ *)
(** * Detecting memory *)

(** Stores into [ram_regions[i]]. *)
Definition store_region (i : Z) (start size : option Z) : K unit :=
  modify (fun s =>
    let l := ram_regions s in
    set_regions
      (alter (fun r => RamDescriptor (default (physicaddr r) start) (default (space_size r) size))
         (Z.to_nat i) l)
      (ram_regions_index s) s).

Definition extract_ram_region_info (device_tree node_offset : Z) : K Z :=
  index ← gets ram_regions_index;
  if MAX_MEM_REGIONS <=? index then mret (-1)
  else
    modify (fun s => set_regions (ram_regions s) (index + 1) s);;
    '(res, start, size) ← reading (fun m => parse_reg m device_tree node_offset);
    store_region index start size;;
    buf ← region_entry index;
    DEBUG_ASSERT (negb (space_size buf =? 0)) "buf->space_size != 0"
      "src/mem/memory.c" "extract_ram_region_info" 41;;
    mret (s32 res).

(** The next node with [device_type = "memory"]; the length counts the NUL. *)
Definition next_memory_node (tree startoffset : Z) : K Z :=
  reading (fun m =>
    fdt_node_offset_by_prop_value m tree startoffset (rodata "device_type") (rodata "memory") 7).

(** The loop of [detect_memory]; [true] when it ran to the end. *)
Fixpoint detect_from (n : nat) (tree mem_node_offset : Z) : K bool :=
  match n with
  | O => fun _ => OutOfFuel
  | S n' =>
      if 0 <=? mem_node_offset then
        r ← extract_ram_region_info tree mem_node_offset;
        if r =? -1 then mret false
        else next ← next_memory_node tree mem_node_offset; detect_from n' tree next
      else mret true
  end.

(** Every round moves to a later node, so the tree bounds their number. *)
Definition detect_memory (tree : Z) : K Z :=
  mem_node_offset ← next_memory_node tree (-1);
  m ← gets k_mem;
  fin ← detect_from (tree_fuel m tree) tree mem_node_offset;
  if negb fin then mret (-1)
  else log_detected_memory;; mret 0.

(* ------------------------------------------------------------------ *)
(** * CLINT *)

Definition CLINT_MTIMECMP_OFFSET : Z := 0x4000.
Definition CLINT_MTIME_OFFSET : Z := 0xBFF8.

Definition discover_clint (tree : Z) : K Z :=
  clint_node ← reading (fun m => fdt_node_offset_by_compatible m tree (-1) (rodata "riscv,clint0"));
  if 0 <? clint_node then
    '(res, start, _) ← reading (fun m => parse_reg m tree clint_node);
    modify (fun s => set_clint_addr (default (clint_addr s) start) s);;
    if negb (res =? 0) then mret (-2)
    else
      a ← gets clint_addr;
      printf_ (String.append "[OK] CLINT base address = %p" NL) [VWord a];;
      mret 0
  else mret (-1).

Definition clint_get_time : K Z := a ← gets clint_addr; mret (u32 (a + CLINT_MTIME_OFFSET)).

(** [&mtimecmp_base[mhartid]]: the entries are 8 bytes wide. *)
Definition clint_get_mtimecmp : K Z :=
  a ← gets clint_addr;
  hart ← READ_CSR mhartid;
  mret (u32 (a + CLINT_MTIMECMP_OFFSET + 8 * hart)).

Definition clint_init_timer : K riscv_timer :=
  t ← clint_get_time; c ← clint_get_mtimecmp; mret (RiscvTimer t c).

(* ------------------------------------------------------------------ *)
(** * UART and power *)

(** The result of [parse_reg] is ignored; it stores through a pointer to the base
    address. *)
Definition init_uart (fdt : Z) : K Z :=
  uart_node ← reading (fun m => fdt_node_offset_by_compatible m fdt (-1) (rodata "ns16550a"));
  if uart_node <? 0 then mret uart_node
  else
    '(_, start, size) ← reading (fun m => parse_reg m fdt uart_node);
    modify (fun s => set_uart_base (default (uart_base s) start) s);;
    a ← gets uart_base;
    printf_ (String.append "[OK] Found UART: starts at 0x%x, size = %i" NL)
      [VWord a; VWord (default 0 size)];;
    mret 0.
End with_platform.

Definition syscon_base : Z := 0x100000.
Definition SYSCON_SHUTDOWN : Z := 0x5555.
Definition SYSCON_REBOOT : Z := 0x7777.

Definition syscon_shutdown (exit_code : Z) : K unit :=
  mmio_write32 syscon_base (Z.lor (u32 (Z.shiftl exit_code 16)) SYSCON_SHUTDOWN).
Definition syscon_reboot : K unit := mmio_write32 syscon_base SYSCON_REBOOT.

Definition init_power_controller (device_tree : Z) : K unit :=
  modify (set_power (Some syscon_shutdown_fn) (Some syscon_reboot_fn)).

(** Calls through the pointers [shutdown] and [reboot]; a null pointer faults. *)
Definition shutdown (exit_code : Z) : K unit :=
  f ← gets shutdown_ptr;
  match f with
  | Some syscon_shutdown_fn => syscon_shutdown exit_code
  | Some syscon_reboot_fn => syscon_reboot
  | None => fault
  end.
Definition reboot : K unit :=
  f ← gets reboot_ptr;
  match f with
  | Some syscon_shutdown_fn => syscon_shutdown 0
  | Some syscon_reboot_fn => syscon_reboot
  | None => fault
  end.

(** A message that ends in a string can be printed. *)
Lemma simple_with_string fmt e :
  (∀ p, simple_format (cstr fmt) [VStr p] = existsb (Z.eqb 0) p && true) →
  simple_format (cstr fmt) [VStr (cstr e)] = true.
Proof. intros Hf. by rewrite Hf, simple_string. Qed.

(* ------------------------------------------------------------------ *)
(** * Quietness *)

Section quiet.
Context `{Platform}.

Lemma quiet_extract tree node : quiet (extract_ram_region_info tree node).
Proof. unfold extract_ram_region_info, store_region. quiet. Qed.
#[local] Hint Resolve quiet_extract : quiet.

Lemma quiet_next_memory tree node : quiet (next_memory_node tree node).
Proof. unfold next_memory_node. quiet. Qed.
#[local] Hint Resolve quiet_next_memory : quiet.

Lemma quiet_detect_from n tree node : quiet (detect_from n tree node).
Proof. revert node. induction n as [|n IH]; intros node; cbn [detect_from]; [by intros s|quiet]. Qed.
#[local] Hint Resolve quiet_detect_from : quiet.

Lemma quiet_detect tree : quiet (detect_memory tree).
Proof. unfold detect_memory. quiet. Qed.
#[local] Hint Resolve quiet_detect : quiet.

Lemma quiet_clint tree : quiet (discover_clint tree).
Proof. unfold discover_clint. quiet. Qed.
#[local] Hint Resolve quiet_clint : quiet.

Lemma quiet_check_device_tree tree : quiet (check_device_tree tree).
Proof.
  unfold check_device_tree. quiet; by apply quiet_panic, simple_with_string.
Qed.
#[local] Hint Resolve quiet_check_device_tree : quiet.

Lemma quiet_init_power tree : quiet (init_power_controller tree).
Proof. unfold init_power_controller. quiet. Qed.
#[local] Hint Resolve quiet_init_power : quiet.

End quiet.
#[export] Hint Resolve quiet_extract quiet_next_memory quiet_detect_from quiet_detect quiet_clint quiet_check_device_tree quiet_init_power : quiet.

(* ------------------------------------------------------------------ *)
(** * Values of several cells *)

(** The number that big-endian cells spell. *)
Fixpoint cells_value (cells : list Z) : Z :=
  match cells with
  | [] => 0
  | c :: cs => c * 2 ^ (32 * Z.of_nat (length cs)) + cells_value cs
  end.

(** The cells lie in memory from [p] on. *)
Definition cells_at (m : mem) (p : Z) (cells : list Z) : Prop :=
  ∀ i c, cells !! i = Some c → fdt32_ld_ m (p + 4 * Z.of_nat i) = Ok c.

Lemma cells_value_bounds cells :
  Forall is_u32 cells → 0 <= cells_value cells < 2 ^ (32 * Z.of_nat (length cells)).
Proof.
  induction 1 as [|c cs Hc Hcs IH]; [simpl; lia|]. cbn [cells_value length].
  replace (32 * Z.of_nat (S (length cs))) with (32 + 32 * Z.of_nat (length cs)) by lia.
  rewrite Z.pow_add_r by lia. unfold is_u32 in Hc. nia.
Qed.

Lemma fetch_from_ok m cells p :
  mem_bytes m → cells_at m p cells → cells ≠ [] → 0 <= p → p + 4 * Z.of_nat (length cells) <= 2 ^ 32 →
  fetch_from (length cells - 1) m p =
    Ok (if cells_value cells <? 2 ^ 32 then cells_value cells else UINT_MAX).
Proof.
  intros Hb. revert p. induction cells as [|c cells IH]; intros p Hc Hne Hp Ht; [done|].
  pose proof (Hc 0%nat c eq_refl) as H0. rewrite Z.add_0_r in H0.
  assert (Forall is_u32 (c :: cells)) as Hall.
  { apply Forall_lookup. intros i x Hx. apply Hc in Hx.
    destruct (fdt32_ld__inv _ _ _ Hb Hx) as (w & _ & _ & ->). apply fdt32_to_cpu_u32. }
  apply Forall_cons in Hall as [Hcu Hall]. unfold is_u32 in Hcu.
  destruct cells as [|c' cs].
  - change (fetch_from (length [c] - 1) m p) with (fdt32_ld_ m p).
    change (cells_value [c]) with (c * 1 + 0). rewrite H0, Z.mul_1_r, Z.add_0_r.
    by destruct (Z.ltb_spec c (2 ^ 32)); [|lia].
  - destruct (fdt32_ld__inv _ _ _ Hb H0) as (w & Hw & Hwu & Hcw).
    cbn [length Nat.sub fetch_from]. rewrite Hw. cbn [mbind res_bind].
    pose proof (cells_value_bounds _ Hall) as Hv.
    change (cells_value (c :: c' :: cs)) with
      (c * 2 ^ (32 * Z.of_nat (length (c' :: cs))) + cells_value (c' :: cs)).
    destruct (Z.eqb_spec w 0) as [->|Hnz]; cbn [negb].
    + change (fdt32_to_cpu 0) with 0 in Hcw. subst c. rewrite Z.mul_0_l, Z.add_0_l.
      cbn [length] in Ht. rewrite u32_small by (unfold is_u32; lia).
      rewrite <- (IH (p + 4)); [cbn [length]; f_equal; lia| |done|lia|cbn [length]; lia].
      intros i x Hx. replace (p + 4 + 4 * Z.of_nat i) with (p + 4 * Z.of_nat (S i)) by lia.
      by apply Hc.
    + assert (c ≠ 0) by (intros ->; by apply Hnz, fdt32_to_cpu_zero).
      assert (2 ^ 32 <= 2 ^ (32 * Z.of_nat (length (c' :: cs)))).
      { apply Z.pow_le_mono_r; [lia|]. cbn [length]. lia. }
      destruct (Z.ltb_spec (c * 2 ^ (32 * Z.of_nat (length (c' :: cs))) + cells_value (c' :: cs))
        (2 ^ 32)); [nia|done].
Qed.

(* ------------------------------------------------------------------ *)
(** * Properties of [parse_reg]'s fetches *)

(** A field of at least two cells is read as the big-endian number it spells;
    a number that does not fit a register gives all ones. *)
Theorem fetch_lowest_wide m p cells :
  mem_bytes m → cells_at m p cells → 2 <= Z.of_nat (length cells) →
  0 <= p → p + 4 * Z.of_nat (length cells) <= 2 ^ 32 - 4 →
  fetch_lowest_ m p (Z.of_nat (length cells)) =
    Ok (if cells_value cells <? 2 ^ 32 then cells_value cells else UINT_MAX).
Proof.
  intros Hb Hc H2 Hp Ht. unfold fetch_lowest_. rewrite u32_small by (unfold is_u32; lia).
  destruct (Z.leb_spec (Z.of_nat (length cells) * 4) 4); [lia|].
  replace (Z.to_nat (Z.of_nat (length cells) - 1)) with (length cells - 1)%nat by lia.
  apply fetch_from_ok; [done..| |done|lia]. by intros ->.
Qed.

Lemma fetch_lowest_wide_witness :
  fetch_lowest_ sample_tree_mem (tree_addr + 148) 2 = Ok 0x80000000.
Proof.
  apply (fetch_lowest_wide sample_tree_mem (tree_addr + 148) [0; 0x80000000]);
    [apply sample_tree_bytes| |discriminate|discriminate|discriminate].
  intros [|[|i]] c Hi; injection Hi as <- || discriminate Hi; vm_compute; reflexivity.
Defined.

(** A field of a single cell is returned without the byte swap: a tree with
    [#address-cells = <1>] gives every address with its bytes reversed. *)
Theorem fetch_lowest_one_cell m p c :
  mem_bytes m → fdt32_ld_ m p = Ok c →
  fetch_lowest_ m p 1 = Ok (fdt32_to_cpu c).
Proof.
  intros Hb Hc. destruct (fdt32_ld__inv _ _ _ Hb Hc) as (w & Hw & Hu & ->).
  unfold fetch_lowest_. change (u32 (1 * 4) <=? 4) with true. cbv iota.
  by rewrite fdt32_to_cpu_involutive.
Qed.

Lemma fetch_lowest_one_cell_witness :
  fetch_lowest_ sample_tree_mem (tree_addr + 152) 1 = Ok 0x80 ∧ fdt32_to_cpu 0x80000000 = 0x80.
Proof.
  split; [|vm_compute; reflexivity].
  apply (fetch_lowest_one_cell sample_tree_mem (tree_addr + 152) 0x80000000);
    [apply sample_tree_bytes|vm_compute; reflexivity].
Defined.

(* ------------------------------------------------------------------ *)
(** * Properties of the checks and the table *)

(** A panic whose message ends in a string. *)
Lemma panic_string {A} fmt e s :
  (∀ p, simple_format (cstr fmt) [VStr p] = existsb (Z.eqb 0) p && true) →
  ∃ s', @KERNEL_PANIC A fmt [VStr (cstr e)] s = Halted s' ∧ Z.testbit (k_csr s' mstatus) 3 = false.
Proof. intros Hf. by apply panic_simple, simple_with_string. Qed.
Arguments panic_string {A} fmt%_string_scope e s.

Lemma check_device_tree_ok tree s :
  (tree = 0 →
   ∃ s', check_device_tree tree s = Halted s' ∧ Z.testbit (k_csr s' mstatus) 3 = false) ∧
  (checkable (k_mem s) tree →
   (valid_tree (k_mem s) tree → ∃ t, check_device_tree tree s = Ret true (extend t s)) ∧
   (¬ valid_tree (k_mem s) tree →
    ∃ s', check_device_tree tree s = Halted s' ∧ Z.testbit (k_csr s' mstatus) 3 = false)).
Proof.
  split.
  - intros ->. unfold check_device_tree.
    destruct (panic_simple (A := unit) "Device tree was not passed." [] s eq_refl) as (s' & E & Hb).
    rewrite (bind_ends _ _ _ s') by done. by exists s'.
  - intros Hc. pose proof Hc as (Hb & Hw & Hf & Hm & Ht & _). unfold check_device_tree.
    destruct (Z.eqb_spec tree 0); [lia|]. rewrite (bind_ret _ _ s tt s) by done.
    destruct (check_header_ok (k_mem s) tree Hb Hf Hm Ht) as (e & He & _ & Hiff).
    rewrite (bind_ret _ _ s e s) by (unfold reading; by rewrite He).
    destruct (Z.eqb_spec e 0) as [->|Hne]; cbn [negb].
    2: { split; [intros [Hok _]; tauto|]. intros _.
         destruct (panic_string (A := unit) (String.append "[FATAL] No device tree was passed: %s " NL)
           (fdt_strerror e) s ltac:(reflexivity)) as (s' & E & Hbit).
         rewrite (bind_ends _ _ _ s') by done. by exists s'. }
    rewrite (bind_ret _ _ s tt s) by done.
    destruct (check_any_ok (k_mem s) tree (hdr (k_mem s) tree 4) Hc)
      as (r & Hr & Hriff).
    rewrite (bind_ret _ _ s r s).
    2: { unfold reading, fdt_totalsize.
         rewrite (proj1 (hdr_ok (k_mem s) tree 4 Hb Hf Hm Ht ltac:(lia))).
         cbn [mbind res_bind]. by rewrite Hr. }
    assert (r = 0 ↔ valid_tree (k_mem s) tree) as Hval.
    { rewrite Hriff. unfold valid_tree. split; [tauto|]. intros (? & ? & ?). split_and!; done || lia. }
    destruct (Z.eqb_spec r 0) as [->|Hne]; cbn [negb].
    + split; [|tauto]. intros _. rewrite (bind_ret _ _ s tt s) by done.
      destruct (printf_simple (String.append "[OK] Device tree verified" NL) [] s eq_refl)
        as (k & t & E).
      rewrite (bind_ret _ _ _ _ _ E). by exists t.
    + split; [tauto|]. intros _.
      destruct (panic_string (A := unit) (String.append "[FATAL] Device tree turned out to be invalid: %s" NL)
        (fdt_strerror r) s ltac:(reflexivity)) as (s' & E & Hbit).
      rewrite (bind_ends _ _ _ s') by done. by exists s'.
Qed.

(** C6: [check_device_tree] tells good trees from bad ones.  It parks the hart, with
    interrupts masked, on a null pointer.  Let 40 bytes be in memory at the pointer and, if
    they make a header that [fdt_check_header] accepts, the whole of the tree that it
    claims, with version 16 or later.  Then it returns if the tree is well formed; it parks
    the hart, with interrupts masked, if the header is bad in any way (an unknown version
    included), the reservation map endless or a tag badly nested; and it never reads outside
    the tree. *)
Theorem check_device_tree_spec tree s :
  (tree = 0 →
   ∃ s', check_device_tree tree s = Halted s' ∧ Z.testbit (k_csr s' mstatus) 3 = false) ∧
  (checkable (k_mem s) tree →
   (valid_tree (k_mem s) tree → ∃ t, check_device_tree tree s = Ret true (extend t s)) ∧
   (¬ valid_tree (k_mem s) tree →
    ∃ s', check_device_tree tree s = Halted s' ∧ Z.testbit (k_csr s' mstatus) 3 = false)).
Proof. apply check_device_tree_ok. Qed.

Lemma check_device_tree_spec_witness :
  (∃ s', check_device_tree 0 (boot_state sample_tree_mem) = Halted s') ∧
  (valid_tree sample_tree_mem tree_addr →
   ∃ t, check_device_tree tree_addr (boot_state sample_tree_mem) =
     Ret true (extend t (boot_state sample_tree_mem))).
Proof.
  split.
  - destruct (check_device_tree_spec 0 (boot_state sample_tree_mem)) as [H _].
    destruct (H eq_refl) as (s' & E & _). exists s'. exact E.
  - destruct (check_device_tree_spec tree_addr (boot_state sample_tree_mem)) as [_ H].
    exact (proj1 (H (readable_checkable _ _ sample_readable))).
Defined.

(* ------------------------------------------------------------------ *)
(** * The table of regions *)

(** A computation that relates the state it starts in to the one it ends in, if it
    returns or parks the hart. *)
Definition keeps (R : kstate → kstate → Prop) {A} (k : K A) : Prop := ∀ s,
  match k s with Ret _ s' | Halted s' => R s s' | _ => True end.

Lemma keeps_bind (R : kstate → kstate → Prop) `{!Transitive R} {A B} (k : K A) (f : A → K B) :
  keeps R k → (∀ a, keeps R (f a)) → keeps R (k ≫= f).
Proof.
  intros Hk Hf s. specialize (Hk s). unfold mbind, K_bind.
  destruct (k s) as [a s1|s1|s1|s1|s1|]; [|done..]. specialize (Hf a s1).
  destruct (f a s1); try done; by etrans.
Qed.

(** The table has its 16 entries, the index is within it and never goes back, and
    the entries registered earlier keep their values; memory is not touched. *)
Definition table_ok (s : kstate) : Prop :=
  Z.of_nat (length (ram_regions s)) = MAX_MEM_REGIONS ∧ 0 <= ram_regions_index s <= MAX_MEM_REGIONS.
Definition table_grows (s s' : kstate) : Prop :=
  table_ok s → table_ok s' ∧ ram_regions_index s <= ram_regions_index s' ∧
    take (Z.to_nat (ram_regions_index s)) (ram_regions s') =
      take (Z.to_nat (ram_regions_index s)) (ram_regions s) ∧
    k_mem s' = k_mem s.

#[export] Instance table_grows_trans : Transitive table_grows.
Proof.
  intros s1 s2 s3 H12 H23 H1. destruct (H12 H1) as (H2 & Hi & Ht & Hm).
  destruct (H23 H2) as (H3 & Hi' & Ht' & Hm'). split_and!; [done|lia| |congruence].
  rewrite <- Ht. destruct H1 as [_ [? _]].
  rewrite <- (Nat.min_l (Z.to_nat (ram_regions_index s1)) (Z.to_nat (ram_regions_index s2))) by lia.
  by rewrite <- !take_take, Ht'.
Qed.

Lemma table_grows_same s s' :
  ram_regions s' = ram_regions s → ram_regions_index s' = ram_regions_index s →
  k_mem s' = k_mem s → table_grows s s'.
Proof.
  intros E1 E2 E3 H. unfold table_ok in *. rewrite E1, E2, E3.
  split; [exact H|]. split; [lia|by split].
Qed.

Lemma keeps_same {A} (k : K A) :
  (∀ s, match k s with
        | Ret _ s' | Halted s' => ram_regions s' = ram_regions s ∧
            ram_regions_index s' = ram_regions_index s ∧ k_mem s' = k_mem s
        | _ => True end) →
  keeps table_grows k.
Proof. intros H s. specialize (H s). destruct (k s); try done; destruct H as (? & ? & ?); by apply table_grows_same. Qed.

Lemma keeps_reading {A} (f : mem → res A) : keeps table_grows (reading f).
Proof. apply keeps_same. intros s. unfold reading, lift. by destruct (f (k_mem s)). Qed.

Lemma keeps_printf fmt va : simple_format (cstr fmt) va = true → keeps table_grows (printf_ fmt va).
Proof.
  intros Hf. apply keeps_same. intros s. destruct (printf_simple fmt va s Hf) as (n & t & ->).
  by destruct s.
Qed.

Lemma keeps_assert `{Platform} condition text file function line :
  assert_formats text file function line →
  keeps table_grows (DEBUG_ASSERT condition text file function line).
Proof.
  intros [cs Hcs]. apply keeps_same. intros s.
  destruct (decide (ndebug = true ∨ condition = true)) as [Hc|Hc].
  - by rewrite debug_assert_holds.
  - destruct condition; [by destruct Hc; right|]. destruct (ndebug) eqn:Hn; [by destruct Hc; left|].
    destruct (debug_assert_fails text file function line s cs Hn Hcs) as [t ->]. by destruct s.
Qed.

Section table.
Context `{Platform}.

Lemma store_region_grows s start size :
  table_ok s → ram_regions_index s < MAX_MEM_REGIONS →
  let i := ram_regions_index s in
  let s1 := set_regions (ram_regions s) (i + 1) s in
  ∃ s2, store_region i start size s1 = Ret tt s2 ∧ table_grows s s2.
Proof.
  intros [Hl Hi] Hlt. cbv zeta. eexists. split; [done|]. intros _.
  destruct s as [m c mo pc tr ti el tc rr ri bm ca pt sp rp ub]. unfold table_ok.
  cbn -[Z.of_nat take MAX_MEM_REGIONS] in *. rewrite length_alter.
  split; [lia|]. split; [lia|]. split; [|done]. rewrite take_alter, decide_False by lia. done.
Qed.

Lemma extract_keeps tree node : keeps table_grows (extract_ram_region_info tree node).
Proof.
  intros s. unfold extract_ram_region_info. rewrite bind_gets.
  destruct (Z.leb_spec MAX_MEM_REGIONS (ram_regions_index s)) as [|Hlt]; [by apply table_grows_same|].
  rewrite bind_modify.
  set (s1 := set_regions (ram_regions s) (ram_regions_index s + 1) s).
  assert (k_mem s1 = k_mem s) as Hkm by (by destruct s).
  destruct (parse_reg (k_mem s) tree node) as [[[res start] size]| |] eqn:E.
  2, 3: unfold mbind, K_bind, reading; by rewrite Hkm, E.
  rewrite (bind_ret _ _ _ (res, start, size) s1) by (unfold reading; by rewrite Hkm, E).
  destruct (decide (table_ok s)) as [Hok|Hno]; [|by repeat case_match].
  destruct (store_region_grows s start size Hok Hlt) as (s2 & E2 & Hg).
  rewrite (bind_ret _ _ _ _ _ E2).
  match goal with |- match ?k s2 with _ => _ end => assert (keeps table_grows k) as Hk end.
  { apply keeps_bind; [apply _| |intros r; apply keeps_bind; [apply _| |done]].
    - apply keeps_same. intros s'. unfold region_entry. by destruct (_ !! _).
    - apply keeps_assert. eexists. vm_compute. reflexivity. }
  specialize (Hk s2). case_match; try done; by etrans.
Qed.

Lemma detect_from_keeps n tree node : keeps table_grows (detect_from n tree node).
Proof.
  revert node. induction n as [|n IH]; intros node; cbn [detect_from]; [done|].
  destruct (0 <=? node); [|by intros s; apply table_grows_same].
  apply keeps_bind; [apply _|apply extract_keeps|]. intros r.
  destruct (r =? -1); [by intros s; apply table_grows_same|].
  apply keeps_bind; [apply _|apply keeps_reading|done].
Qed.

Lemma log_regions_keeps n i : keeps table_grows (log_regions n i).
Proof.
  revert i. induction n as [|n IH]; intros i; cbn [log_regions]; [by intros s; apply table_grows_same|].
  apply keeps_bind; [apply _|apply keeps_same; intros s; unfold region_entry; by destruct (_ !! _)|].
  intros r. apply keeps_bind; [apply _|by apply keeps_printf|done].
Qed.

Lemma log_keeps : keeps table_grows log_detected_memory.
Proof.
  unfold log_detected_memory. destruct ndebug; [by intros s; apply table_grows_same|].
  repeat (apply keeps_bind; [apply _| |intros ?]);
    (by apply keeps_printf) || apply log_regions_keeps || (by intros s; apply table_grows_same).
Qed.

Lemma detect_keeps tree : keeps table_grows (detect_memory tree).
Proof.
  unfold detect_memory. apply keeps_bind; [apply _|apply keeps_reading|]. intros node.
  apply keeps_bind; [apply _|by intros s; apply table_grows_same|]. intros m.
  apply keeps_bind; [apply _|apply detect_from_keeps|]. intros fin.
  destruct (negb fin); [by intros s; apply table_grows_same|].
  apply keeps_bind; [apply _|apply log_keeps|]. intros _. by intros s; apply table_grows_same.
Qed.

Lemma detect_result tree s r s' : detect_memory tree s = Ret r s' → r = 0 ∨ r = -1.
Proof.
  unfold detect_memory. intros E. apply bind_inv in E as (node & s1 & _ & E).
  rewrite bind_gets in E. apply bind_inv in E as (fin & s2 & _ & E).
  destruct (negb fin); [injection E; lia|].
  apply bind_inv in E as (u & s3 & _ & E). injection E. lia.
Qed.

(** Whatever the tree, [detect_memory] never writes outside its table of 16
    regions: the index stays within it, regions registered before keep their place
    and value, memory is untouched, and the result is 0 or -1. With the table full,
    a further memory node makes it give up with -1 and change nothing. *)
Theorem detect_memory_table tree s :
  table_ok s →
  match detect_memory tree s with
  | Ret r s' => (r = 0 ∨ r = -1) ∧ table_ok s' ∧ ram_regions_index s <= ram_regions_index s' ∧
      take (Z.to_nat (ram_regions_index s)) (ram_regions s') =
        take (Z.to_nat (ram_regions_index s)) (ram_regions s) ∧ k_mem s' = k_mem s
  | Halted s' => table_ok s'
  | Faulted _ | OutOfFuel => True
  | Entered _ | Unreachable _ => False
  end ∧
  (∀ node, ram_regions_index s = MAX_MEM_REGIONS → next_memory_node tree (-1) s = Ret node s →
     0 <= node → detect_memory tree s = Ret (-1) s).
Proof.
  intros Hs. split.
  - pose proof (detect_keeps tree s) as Hk. pose proof (quiet_detect tree s) as Hq.
    pose proof (detect_result tree s) as Hr.
    destruct (detect_memory tree s) as [r s'|s'|s'|s'|s'|]; try done.
    + destruct (Hk Hs) as (? & ? & ? & ?). split_and!; try done. by apply (Hr r s').
    + apply Hk. done.
  - intros node Hi Hn Hge. unfold detect_memory. rewrite (bind_ret _ _ _ _ _ Hn), bind_gets.
    assert (∀ f, (detect_from (tree_fuel (k_mem s) tree) tree node ≫= f) s = f false s) as ->.
    { intros f. rewrite (bind_ret _ _ s false s); [done|]. unfold tree_fuel.
      assert (∀ n, detect_from (S n) tree node s = Ret false s) as Hd.
      { intros n. cbn [detect_from]. destruct (Z.leb_spec 0 node); [|lia].
        rewrite (bind_ret _ _ s (-1) s); [done|].
        unfold extract_ram_region_info. rewrite bind_gets, Hi. done. }
      destruct (fdt_totalsize (k_mem s) tree); apply Hd. }
    done.
Qed.
End table.

(** The sample tree, with an empty table: one region is registered. *)
Lemma detect_memory_table_witness :
  let s := boot_state sample_tree_mem in
  ∃ s', @detect_memory qemu_literals tree_addr s = Ret 0 s' ∧ table_ok s' ∧
    regions s' = [RamDescriptor 0x80000000 0x800000].
Proof.
  cbv zeta. set (s := boot_state sample_tree_mem).
  set (s' := final s (@detect_memory qemu_literals tree_addr s)).
  assert (@detect_memory qemu_literals tree_addr s = Ret 0 s') as E by (vm_compute; reflexivity).
  destruct (@detect_memory_table qemu_literals tree_addr s) as [H _];
    [split; [reflexivity|split; discriminate]|].
  rewrite E in H. exists s'. split; [exact E|]. split; [apply H|vm_compute; reflexivity].
Defined.
