(* ===== verification/DetectMemory.v ===== *)
(** What the kernel makes of a device tree: [parse_reg] of src/init_devices.c and
    [detect_memory] of src/mem/memory.c, stated against the tree of [FdtTree] through
    the lookups of [FdtLookup]. *)
From S2P Require Import Prelude Machine Printf Console Crt0 SampleTree Memory Fdt FdtRo FdtCheck FdtTree FdtLookup Devices.
From stdpp Require Import base list gmap.
From Stdlib Require Import ZArith Lia.
From Stdlib Require String.
#[local] Open Scope Z_scope.

(** The string literals that the drivers look up are in memory. *)
Definition literals_at `{Platform} (m : mem) : Prop :=
  c_name m (rodata "reg") (chars "reg") ∧
  c_name m (rodata "#address-cells") (chars "#address-cells") ∧
  c_name m (rodata "#size-cells") (chars "#size-cells") ∧
  c_name m (rodata "device_type") (chars "device_type") ∧
  bytes_at m (rodata "memory") (cstr "memory") ∧ 0 < rodata "memory" ∧ rodata "memory" + 7 < 2 ^ 32.

(** The subnodes of a node are nodes, one level down. *)
Lemma subnode_in root d0 t d c :
  (t, d) ∈ tree_nodes d0 root → c ∈ node_subs t → (c, d + 1) ∈ tree_nodes d0 root.
Proof.
  intros Ht Hc. destruct (preorder_segment _ _ _ _ Ht) as (l1 & l2 & ->).
  apply elem_of_app. right. apply elem_of_app. left.
  destruct t as [off props subs]. cbn [tree_nodes node_subs] in *. right.
  apply list_elem_of_split in Hc as (s1 & s2 & ->). rewrite flat_map_app. cbn [flat_map].
  apply elem_of_app. right. apply elem_of_app. left. destruct c. left.
Qed.

(* ------------------------------------------------------------------ *)
(** * Cells *)

Section cells.
Context (m : mem) (fdt : Z).

(** The [i]-th cell of a property, and [n] cells from there on. *)
Definition prop_cell (p i : Z) : Z :=
  match fdt32_ld_ m (prop_value m fdt p + 4 * i) with Ok v => v | _ => 0 end.
Definition prop_cells (p i : Z) (n : nat) : list Z :=
  (λ k, prop_cell p (i + Z.of_nat k)) <$> seq 0 n.

(** The number that [n] cells spell: all ones if it does not fit a register; a lone
    cell has its bytes reversed. *)
Definition prop_number (p i n : Z) : Z :=
  if n <=? 1 then fdt32_to_cpu (prop_cell p i)
  else
    let v := cells_value (prop_cells p i (Z.to_nat n)) in
    if v <? 2 ^ 32 then v else UINT_MAX.

(** The property [name] as a count of cells, or an error. *)
Definition cell_count (t : dnode) (name : list Z) : Z :=
  match find_prop m fdt (node_props t) name with
  | None => - FDT_ERR_NOTFOUND
  | Some p =>
      if prop_len m fdt p =? 4 then
        if FDT_MAX_NCELLS <? prop_cell p 0 then - FDT_ERR_BADNCELLS else prop_cell p 0
      else - FDT_ERR_BADNCELLS
  end.
Definition address_count (t : dnode) : Z :=
  let v := cell_count t (chars "#address-cells") in
  if v =? 0 then - FDT_ERR_BADNCELLS else if v =? - FDT_ERR_NOTFOUND then 2 else v.
Definition size_count (t : dnode) : Z :=
  let v := cell_count t (chars "#size-cells") in
  if v =? - FDT_ERR_NOTFOUND then 1 else v.

(** What [parse_reg] reports for a subnode [c] of [t]. *)
Definition reg_of (t c : dnode) : Z * option Z * option Z :=
  match find_prop m fdt (node_props c) (chars "reg") with
  | None => (- FDT_ERR_NOTFOUND, None, None)
  | Some p =>
      let a := address_count t in let z := size_count t in
      if a <? 0 then (a, None, None)
      else if z <? 0 then (z, Some (prop_number p 0 a), None)
      else
        (if 4 * (a + z) <? prop_len m fdt p then CALL_AGAIN else SUCCESS,
         Some (prop_number p 0 a), Some (prop_number p a z))
  end.

(** The property holds one address and one size. *)
Definition reg_fits (t c : dnode) : Prop :=
  ∀ p, find_prop m fdt (node_props c) (chars "reg") = Some p →
    4 * (address_count t + Z.max 1 (size_count t)) <= prop_len m fdt p.

Lemma cell_count_bounds t name : cell_count t name <= FDT_MAX_NCELLS.
Proof.
  unfold cell_count, FDT_ERR_NOTFOUND, FDT_ERR_BADNCELLS, FDT_MAX_NCELLS.
  destruct (find_prop _ _ _ _); [|lia]. destruct (_ =? 4); [|lia]. by destruct (Z.ltb_spec 4 (prop_cell z 0)).
Qed.

Section in_tree.
Context (Hr : readable_tree m fdt) (Hval : valid_tree m fdt).

Lemma prop_cell_ok p rest i :
  prop_before m fdt p rest → 0 <= i → 4 * (i + 1) <= prop_len m fdt p →
  fdt32_ld_ m (prop_value m fdt p + 4 * i) = Ok (prop_cell p i) ∧ is_u32 (prop_cell p i) ∧
  0 < prop_value m fdt p + 4 * i ∧ prop_value m fdt p + 4 * i + 4 <= fdt + hdr m fdt 4.
Proof using Hr Hval.
  intros Hp Hi Hle. pose proof (names_blob m fdt Hr Hval) as Hbl.
  pose proof Hr as (Hb & _ & Hf & _ & _ & Hmap & Htt & _).
  destruct (prop_found m fdt Hbl Htt p rest Hp) as (_ & _ & Hs & Htot & _).
  destruct Hp as ((Hp0 & Hp4 & _) & _), (bl_addr _ _ Hbl) as [_ Ha], (bl_struct _ _ Hbl) as [Hs4 _].
  destruct (fdt32_ld__ok m (prop_value m fdt p + 4 * i) Hb) as (v & Hv & Hu).
  - unfold prop_value. apply Z.mod_divide in Ha, Hs4, Hp4; [|done..].
    destruct Ha as [x ->], Hs4 as [y ->], Hp4 as [z ->].
    replace (x * 8 + y * 4 + z * 4 + 12 + 4 * i) with ((2 * x + y + z + 3 + i) * 4) by lia.
    apply Z.mod_mul. done.
  - intros x Hx. apply Hmap. unfold prop_value in Hx. lia.
  - unfold prop_cell. rewrite Hv. split_and!; [done|done|..]; unfold prop_value; lia.
Qed.

Lemma prop_cells_at p rest i n :
  prop_before m fdt p rest → 0 <= i → 4 * (i + Z.of_nat n) <= prop_len m fdt p →
  cells_at m (prop_value m fdt p + 4 * i) (prop_cells p i n).
Proof using Hr Hval.
  intros Hp Hi Hle k c Hk. unfold prop_cells in Hk.
  apply list_lookup_fmap_Some in Hk as (x & -> & Hx).
  apply lookup_seq in Hx as [-> Hlt]. cbn [Nat.add].
  rewrite <- Z.add_assoc, <- Z.mul_add_distr_l. eapply prop_cell_ok; [done|lia..].
Qed.

(** [fetch_lowest_] on the cells of a property. *)
Lemma fetch_prop p rest i n :
  prop_before m fdt p rest → 0 <= i → 0 <= n <= FDT_MAX_NCELLS →
  4 * (i + Z.max 1 n) <= prop_len m fdt p →
  fetch_lowest_ m (prop_value m fdt p + 4 * i) n = Ok (prop_number p i n).
Proof using Hr Hval.
  unfold FDT_MAX_NCELLS. intros Hp Hi Hn Hle. pose proof Hr as (Hb & _ & Hf & _ & _ & _ & Htt & _).
  unfold fetch_lowest_, prop_number. rewrite u32_small by (unfold is_u32; lia).
  destruct (Z.leb_spec (n * 4) 4), (Z.leb_spec n 1); try lia.
  - destruct (prop_cell_ok p rest i Hp Hi) as (Hc & _ & _ & _); [lia|].
    destruct (fdt32_ld__inv _ _ _ Hb Hc) as (w & Hw & Hu & ->). rewrite Hw. f_equal.
    by rewrite fdt32_to_cpu_involutive.
  - set (k := Z.to_nat n). pose proof (prop_cells_at p rest i k Hp Hi ltac:(lia)) as Hc.
    destruct (prop_cell_ok p rest i Hp Hi ltac:(lia)) as (_ & _ & Hge & _).
    destruct (prop_cell_ok p rest (i + n - 1) Hp ltac:(lia) ltac:(lia)) as (_ & _ & _ & Hend).
    assert (length (prop_cells p i k) = k) as Hlen by (unfold prop_cells; by rewrite length_fmap, length_seq).
    replace (Z.to_nat (n - 1)) with (length (prop_cells p i k) - 1)%nat by lia.
    apply fetch_from_ok; [done..| |lia|lia]. intros E. rewrite E in Hlen. cbn in Hlen. lia.
Qed.

Lemma getprop_at t d l s name :
  at_node m fdt t d l → c_name m s name →
  fdt_getprop m fdt (node_off t) s =
  Ok (match find_prop m fdt (node_props t) name with
      | Some p => (prop_value m fdt p, prop_len m fdt p)
      | None => (0, - FDT_ERR_NOTFOUND)
      end).
Proof using Hr Hval.
  intros. pose proof (names_blob m fdt Hr Hval). pose proof Hr as (_ & ? & _ & _ & _ & _ & ? & ?).
  by eapply getprop_ok.
Qed.

Lemma fdt_cells_ok t d l s name :
  at_node m fdt t d l → c_name m s name → fdt_cells m fdt (node_off t) s = Ok (cell_count t name).
Proof using Hr Hval.
  intros Ht Hs. unfold fdt_cells, cell_count. rewrite (getprop_at t d l s name) by done.
  destruct (find_prop _ _ _ _) as [p|] eqn:Ep; cbn [mbind res_bind]; [|done].
  destruct (found_before m fdt Hr Hval _ _ _ _ _ Ht Ep) as [rest Hp].
  pose proof (names_blob m fdt Hr Hval) as Hbl. pose proof Hr as (_ & _ & Hf & _ & _ & _ & Htt & _).
  destruct (prop_found m fdt Hbl Htt p rest Hp) as (_ & _ & Hs0 & _ & _).
  assert (prop_value m fdt p ≠ 0) by (destruct Hp as ((? & _) & _); unfold prop_value; lia).
  destruct (Z.eqb_spec (prop_value m fdt p) 0); [done|].
  destruct (Z.eqb_spec (prop_len m fdt p) 4); cbn [negb]; [|done].
  destruct (prop_cell_ok p rest 0 Hp) as (Hc & Hu & _); [lia..|].
  rewrite Z.add_0_r in Hc. rewrite Hc. cbn [mbind res_bind]. unfold is_u32, FDT_MAX_NCELLS in *.
  destruct (Z.ltb_spec 4 (prop_cell p 0)); [done|]. rewrite s32_small by (unfold is_s32; lia). done.
Qed.

(** [parse_reg] on a subnode, as the tree has it. *)
Lemma parse_reg_ok `{Platform} root t d c :
  literals_at m → block_at m fdt 0 (Some root) → node_off root = 0 →
  (t, d) ∈ tree_nodes 0 root → c ∈ node_subs t → reg_fits t c →
  parse_reg m fdt (node_off c) = Ok (reg_of t c).
Proof using Hr Hval.
  intros (Hreg & Hac & Hsc & _) Hb H0 Ht Hc Hfit. pose proof (names_blob m fdt Hr Hval) as Hbl.
  destruct (at_tree_node m fdt root t d Hbl Hb Ht) as [l Hat].
  destruct (at_tree_node m fdt root c (d + 1) Hbl Hb (subnode_in _ _ _ _ _ Ht Hc)) as [l' Hat'].
  unfold parse_reg, reg_of. rewrite (getprop_at c _ l' _ _ Hat' Hreg).
  destruct (find_prop m fdt (node_props c) (chars "reg")) as [p|] eqn:Ep; cbn [mbind res_bind]; [|done].
  specialize (Hfit p Ep). destruct (found_before m fdt Hr Hval _ _ _ _ _ Hat' Ep) as [rest Hp].
  pose proof Hr as (_ & _ & Hf & _ & _ & _ & Htt & _).
  destruct (prop_found m fdt Hbl Htt p rest Hp) as (_ & Hl0 & Hs0 & Hle & _).
  destruct (Z.ltb_spec (prop_len m fdt p) 0); [lia|].
  rewrite (proj1 (parent_ok m fdt Hr Hval root t d c Hb H0 Ht Hc)). cbn [mbind res_bind].
  assert (0 <= node_off t) by (destruct (at_node_tag m fdt Hr Hval _ _ _ Hat) as ((? & _) & _); lia).
  destruct (Z.ltb_spec (node_off t) 0); [lia|]. unfold fdt_address_cells, fdt_size_cells.
  rewrite (fdt_cells_ok t d l _ _ Hat Hac), (fdt_cells_ok t d l _ _ Hat Hsc). cbn [mbind res_bind].
  fold (address_count t) (size_count t).
  pose proof (cell_count_bounds t (chars "#address-cells")) as Ha.
  pose proof (cell_count_bounds t (chars "#size-cells")) as Hz. unfold FDT_MAX_NCELLS in Ha, Hz.
  assert (address_count t <= 4 ∧ size_count t <= 4) as [Ha' Hz'].
  { unfold address_count, size_count, FDT_ERR_BADNCELLS. repeat case_match; lia. }
  clear Ha Hz. destruct (Z.ltb_spec (address_count t) 0); [done|].
  replace (prop_value m fdt p) with (prop_value m fdt p + 4 * 0) at 1 by lia.
  rewrite (fetch_prop p rest 0) by (done || unfold FDT_MAX_NCELLS in *; lia). cbn [mbind res_bind].
  destruct (Z.ltb_spec (size_count t) 0); [done|].
  pose proof Hp as ((? & _) & _).
  assert (is_u32 (prop_value m fdt p + 4 * address_count t)) as Hu
    by (unfold prop_value, is_u32 in *; lia).
  rewrite (u32_small _ Hu), (fetch_prop p rest) by (done || unfold FDT_MAX_NCELLS in *; lia).
  cbn [mbind res_bind]. rewrite !u32_small by (unfold is_u32 in *; lia). done.
Qed.
End in_tree.
End cells.

(* ------------------------------------------------------------------ *)
(** * The loop over the memory nodes *)

Lemma filter_next {A} (f : A → bool) (l : list A) c ts :
  filter f l = c :: ts → ∃ j, l !! j = Some c ∧ filter f (drop (S j) l) = ts.
Proof.
  induction l as [|a l IH]; [done|]. rewrite filter_cons. destruct (decide (f a)).
  - intros [= -> <-]. by exists 0%nat.
  - intros (j & Hj & Hts)%IH. by exists (S j).
Qed.

Lemma alter_const {A} (r : A) (i : nat) (l : list A) : alter (λ _, r) i l = <[i := r]> l.
Proof. revert i. induction l as [|a l IH]; intros [|i]; [done..|]. cbn. by f_equal; apply IH. Qed.

(** [rs] stored from the index [i] on. *)
Definition stored_regions (i : Z) (rs l : list ram_descriptor) : list ram_descriptor :=
  take (Z.to_nat i) l ++ rs ++ drop (Z.to_nat i + length rs) l.

Lemma stored_cons i r rs l :
  0 <= i → i < Z.of_nat (length l) →
  stored_regions (i + 1) rs (<[Z.to_nat i := r]> l) = stored_regions i (r :: rs) l.
Proof.
  intros Hi Hl. unfold stored_regions. rewrite Z2Nat.inj_add, Nat.add_1_r by lia.
  rewrite (take_S_r _ _ r) by (apply list_lookup_insert_eq; lia).
  rewrite take_insert_ge by lia. rewrite drop_insert_lt by lia.
  rewrite <- app_assoc. cbn [app length]. do 3 f_equal. rewrite Nat.add_succ_r. done.
Qed.

Lemma stored_nil i l : stored_regions i [] l = l.
Proof. unfold stored_regions. cbn [length app]. rewrite Nat.add_0_r. apply take_drop. Qed.

Section detect.
Context `{Platform} (tree : Z) (root : dnode).

(** The nodes with [device_type = "memory"], in the order of the structure block. *)
Definition is_memory (m : mem) : dnode → bool := has_value m tree (chars "device_type") (cstr "memory").
Definition memory_nodes (m : mem) : list dnode := filter (is_memory m) (fst <$> tree_nodes 0 root).

(** What [parse_reg] stores for a memory node is a region with some memory in it. *)
Definition describes (m : mem) (t : dnode) (r : ram_descriptor) : Prop :=
  ∃ res, parse_reg m tree (node_off t) = Ok (res, Some (physicaddr r), Some (space_size r)) ∧
    space_size r ≠ 0.

Lemma describes_result m t r : describes m t r →
  ∃ res, parse_reg m tree (node_off t) = Ok (res, Some (physicaddr r), Some (space_size r)) ∧
    (res = SUCCESS ∨ res = CALL_AGAIN).
Proof.
  intros (res & He & _). exists res. split; [done|]. unfold parse_reg in He.
  destruct (fdt_getprop _ _ _ _) as [[reg len]| |]; cbn [mbind res_bind] in He; [|done..].
  destruct (len <? 0); [done|].
  destruct (fdt_parent_offset _ _ _) as [parent| |]; cbn [mbind res_bind] in He; [|done..].
  destruct (parent <? 0); [done|].
  destruct (fdt_address_cells _ _ _) as [a| |]; cbn [mbind res_bind] in He; [|done..].
  destruct (a <? 0); [done|].
  destruct (fetch_lowest_ m reg a); cbn [mbind res_bind] in He; [|done..].
  destruct (fdt_size_cells _ _ _) as [z| |]; cbn [mbind res_bind] in He; [|done..].
  destruct (z <? 0); [done|].
  destruct (fetch_lowest_ m _ z); cbn [mbind res_bind] in He; [|done..].
  injection He as <- _ _. destruct (_ <? _); [by right|by left].
Qed.

(** One registration, with room in the table. *)
Lemma extract_ok s t r :
  table_ok s → ram_regions_index s < MAX_MEM_REGIONS → describes (k_mem s) t r →
  ∃ res, extract_ram_region_info tree (node_off t) s =
    Ret res (set_regions (<[Z.to_nat (ram_regions_index s) := r]> (ram_regions s)) (ram_regions_index s + 1) s) ∧
    res ≠ -1.
Proof.
  intros [Hlen Hi] Hlt Hd. destruct (describes_result _ _ _ Hd) as (res & He & Hres).
  destruct Hd as (_ & _ & Hnz). unfold extract_ram_region_info. rewrite bind_gets.
  destruct (Z.leb_spec MAX_MEM_REGIONS (ram_regions_index s)); [lia|]. rewrite bind_modify.
  set (s1 := set_regions (ram_regions s) (ram_regions_index s + 1) s).
  assert (k_mem s1 = k_mem s) as Hkm by (by destruct s).
  rewrite (bind_ret _ _ _ (res, Some (physicaddr r), Some (space_size r)) s1)
    by (unfold reading; by rewrite Hkm, He).
  set (s2 := set_regions (<[Z.to_nat (ram_regions_index s) := r]> (ram_regions s)) (ram_regions_index s + 1) s).
  assert (Z.to_nat (ram_regions_index s) < length (ram_regions s))%nat as Hin by lia.
  rewrite (bind_ret _ _ _ tt s2).
  2: { unfold store_region, modify. f_equal. unfold s1, s2. destruct s, r. cbn in *. f_equal.
       apply alter_const. }
  rewrite (bind_ret _ _ _ r s2).
  2: { unfold region_entry, s2. destruct s. cbn in *. by rewrite list_lookup_insert_eq. }
  rewrite (bind_ret _ _ _ tt s2).
  2: { apply debug_assert_holds. right. by destruct (Z.eqb_spec (space_size r) 0). }
  exists (s32 res). split; [done|]. by destruct Hres as [-> | ->].
Qed.

Section in_memory.
Context (m : mem) (Hr : readable_tree m tree) (Hval : valid_tree m tree).
Context (Hb : block_at m tree 0 (Some root)) (Hlit : literals_at m).

(** [node] is the first of the memory nodes [ts], and they are all that are left. *)
Definition next_is (node : Z) (ts : list dnode) : Prop :=
  match ts with
  | [] => node = - FDT_ERR_NOTFOUND
  | t :: ts' => ∃ i d, tree_nodes 0 root !! i = Some (t, d) ∧ node = node_off t ∧
      filter (is_memory m) (fst <$> drop (S i) (tree_nodes 0 root)) = ts'
  end.

Lemma next_memory_ok s start l ts :
  k_mem s = m → comes_to m tree start l → filter (is_memory m) (fst <$> l) = ts →
  next_memory_node tree start s = Ret (match ts with c :: _ => node_off c | [] => - FDT_ERR_NOTFOUND end) s.
Proof using Hr Hval Hlit.
  intros Hm Hl <-. destruct Hlit as (_ & _ & _ & Hdt & Hmem & Hm0 & Hmt).
  unfold next_memory_node, reading, lift. rewrite Hm.
  change 7 with (Z.of_nat (length (cstr "memory"))).
  rewrite (node_offset_by_prop_value_ok m tree Hr Hval start l _ _ _ _ Hl Hdt Hmem Hm0 Hmt). done.
Qed.

Lemma filter_position i c ts :
  filter (is_memory m) (fst <$> drop i (tree_nodes 0 root)) = c :: ts →
  ∃ j d, (i <= j)%nat ∧ tree_nodes 0 root !! j = Some (c, d) ∧
    filter (is_memory m) (fst <$> drop (S j) (tree_nodes 0 root)) = ts.
Proof.
  intros (k & Hk & Hts)%filter_next. rewrite list_lookup_fmap, lookup_drop in Hk.
  destruct (tree_nodes 0 root !! (i + k)%nat) as [[c' d]|] eqn:E; [|done]. injection Hk as ->.
  exists (i + k)%nat, d. split; [lia|]. split; [done|].
  rewrite <- Hts, <- fmap_drop, drop_drop. do 3 f_equal. lia.
Qed.

Lemma next_is_later i c ts t d :
  tree_nodes 0 root !! i = Some (t, d) →
  filter (is_memory m) (fst <$> drop (S i) (tree_nodes 0 root)) = c :: ts →
  next_is (node_off c) (c :: ts) ∧ node_off t < node_off c.
Proof using Hr Hval Hb.
  intros Hi (j & e & Hij & Hj & Hts)%filter_position. split; [by exists j, e|].
  pose proof (names_blob m tree Hr Hval) as Hbl.
  pose proof (at_node_sorted m tree Hbl _ _ _ (at_nth_node m tree root i t d Hbl Hb Hi)) as Hsort.
  rewrite Forall_forall in Hsort. apply (Hsort (c, e)).
  apply list_elem_of_lookup_2 with (j - S i)%nat. rewrite lookup_drop. rewrite <- Hj. f_equal. lia.
Qed.

(** The loop on the memory nodes [ts], of which [rs] are the regions. *)
Lemma detect_from_ok ts rs : Forall2 (describes m) ts rs → ∀ (n : nat) s node,
  k_mem s = m → table_ok s → next_is node ts →
  (match ts with [] => 0 | t :: _ => Z.to_nat (hdr m tree 4 - node_off t) end < n)%nat →
  let i := ram_regions_index s in
  let room := Z.to_nat (MAX_MEM_REGIONS - i) in
  detect_from n tree node s =
    Ret (bool_decide (length rs <= room)%nat)
      (set_regions (stored_regions i (take room rs) (ram_regions s)) (i + Z.of_nat (length (take room rs))) s).
Proof using Hr Hval Hb Hlit.
  induction 1 as [|t r ts rs Htr _ IH]; intros [|n] s node Hm Hok Hnext Hn; try lia; cbv zeta;
    cbn [detect_from next_is] in *.
  { subst node. cbn [Z.leb]. rewrite take_nil, stored_nil. cbn [length]. rewrite Z.add_0_r.
    rewrite bool_decide_eq_true_2 by lia. by destruct s. }
  destruct Hnext as (i & d & Hi & -> & Hts). pose proof (names_blob m tree Hr Hval) as Hbl.
  pose proof (at_nth_node m tree root i t d Hbl Hb Hi) as Hat.
  destruct (at_node_tag m tree Hr Hval _ _ _ Hat) as ((? & _) & Hlt & _).
  destruct (Z.leb_spec 0 (node_off t)); [|lia].
  destruct (Z.leb_spec MAX_MEM_REGIONS (ram_regions_index s)) as [Hfull|Hroom].
  { destruct Hok as [_ Hix]. assert (ram_regions_index s = MAX_MEM_REGIONS) as Hfl by lia.
    rewrite (bind_ret _ _ s (-1) s).
    2: { unfold extract_ram_region_info. rewrite bind_gets, Hfl. done. }
    rewrite Hfl. cbn [Z.sub Z.to_nat Z.eqb]. rewrite Z.sub_diag. cbn [Z.to_nat take length].
    rewrite stored_nil, Z.add_0_r, bool_decide_eq_false_2 by lia. destruct s; cbn in *. by subst. }
  destruct (extract_ok s t r Hok Hroom) as (res & He & Hres); [by rewrite Hm|].
  rewrite (bind_ret _ _ _ _ _ He). destruct (Z.eqb_spec res (-1)); [done|].
  set (s1 := set_regions _ _ s). assert (k_mem s1 = m) as Hm1 by (by destruct s).
  rewrite (bind_ret _ _ _ _ _ (next_memory_ok s1 _ _ ts Hm1 (comes_to_rest m tree Hr Hval _ _ _ Hat) Hts)).
  destruct Hok as [Hlen Hix].
  assert (table_ok s1) as Hok1.
  { unfold table_ok, s1. destruct s. cbn -[Z.of_nat MAX_MEM_REGIONS] in *. rewrite length_insert. lia. }
  rewrite (IH n s1 _ Hm1 Hok1); [|by destruct ts; [|eapply next_is_later]|].
  2: { destruct ts as [|c ts']; [lia|]. destruct (next_is_later i c ts' t d Hi Hts) as [_ ?]. lia. }
  assert (ram_regions_index s1 = ram_regions_index s + 1 ∧
    ram_regions s1 = <[Z.to_nat (ram_regions_index s) := r]> (ram_regions s)) as [-> ->] by (by destruct s).
  replace (Z.to_nat (MAX_MEM_REGIONS - ram_regions_index s))
    with (S (Z.to_nat (MAX_MEM_REGIONS - (ram_regions_index s + 1)))) by lia.
  cbn [take length]. rewrite stored_cons by lia. rewrite Nat2Z.inj_succ.
  f_equal; [repeat case_bool_decide; lia|]. unfold s1. destruct s. cbn. f_equal. lia.
Qed.
End in_memory.
End detect.
(* ------------------------------------------------------------------ *)
(** * The log *)

Section log.
Context `{Platform}.

Lemma log_regions_ok n i s :
  0 <= i → i + Z.of_nat n <= Z.of_nat (length (ram_regions s)) →
  ∃ t, log_regions n i s = Ret tt (extend t s).
Proof.
  revert i s. induction n as [|n IH]; intros i s Hi Hn; cbn [log_regions].
  { exists []. by rewrite extend_nil. }
  destruct (lookup_lt_is_Some_2 (ram_regions s) (Z.to_nat i)) as [r Hr]; [lia|].
  rewrite (bind_ret _ _ s r s) by (unfold region_entry; by rewrite Hr).
  destruct (printf_simple (String.append "RAM region %i: address range [0x%x, 0x%x], size = %i B" NL)
    [VWord i; VWord (physicaddr r); VWord (u32 (physicaddr r + space_size r)); VWord (space_size r)] s)
    as (k & t & E); [vm_compute; reflexivity|].
  rewrite (bind_ret _ _ _ _ _ E). destruct (IH (i + 1) (extend t s)) as [t' ->].
  - lia.
  - destruct s. cbn in *. lia.
  - exists (t' ++ t). by rewrite extend_extend.
Qed.

Lemma log_detected_ok s : table_ok s → ∃ t, log_detected_memory s = Ret tt (extend t s).
Proof.
  intros [Hlen Hi]. unfold log_detected_memory. destruct ndebug; [exists []; by rewrite extend_nil|].
  destruct (printf_simple (String.append "===========================" NL) [] s eq_refl) as (k1 & t1 & E1).
  rewrite (bind_ret _ _ _ _ _ E1).
  destruct (printf_simple (String.append "detected RAM:" NL) [] (extend t1 s) eq_refl) as (k2 & t2 & E2).
  rewrite (bind_ret _ _ _ _ _ E2), bind_gets, extend_extend.
  destruct (log_regions_ok (Z.to_nat (ram_regions_index (extend (t2 ++ t1) s))) 0 (extend (t2 ++ t1) s))
    as [t3 E3]; [lia|destruct s; cbn in *; lia|].
  rewrite (bind_ret _ _ _ _ _ E3), extend_extend.
  destruct (printf_simple (String.append "===========================" NL) []
    (extend (t3 ++ t2 ++ t1) s) eq_refl) as (k4 & t4 & E4).
  rewrite (bind_ret _ _ _ _ _ E4), extend_extend. by eexists.
Qed.
End log.

(* ------------------------------------------------------------------ *)
(** * Properties *)

(** [parse_reg] on a subnode reports what the tree says: the first address and the
    first size of its ["reg"], as numbers of as many cells as the parent's
    ["#address-cells"] and ["#size-cells"] fix (2 and 1 without them), [CALL_AGAIN]
    when more follows, and the error for a missing ["reg"] or a bad count. *)
Theorem parse_reg_spec `{Platform} m tree root t d c :
  readable_tree m tree → valid_tree m tree → block_at m tree 0 (Some root) → node_off root = 0 →
  literals_at m → (t, d) ∈ tree_nodes 0 root → c ∈ node_subs t → reg_fits m tree t c →
  parse_reg m tree (node_off c) = Ok (reg_of m tree t c).
Proof. intros. by eapply parse_reg_ok. Qed.

Lemma detect_memory_ok `{Platform} tree root s rs :
  readable_tree (k_mem s) tree → valid_tree (k_mem s) tree →
  block_at (k_mem s) tree 0 (Some root) → literals_at (k_mem s) → table_ok s →
  Forall2 (describes tree (k_mem s)) (memory_nodes tree root (k_mem s)) rs →
  let i := ram_regions_index s in
  if decide (i + Z.of_nat (length rs) <= MAX_MEM_REGIONS)
  then ∃ t, detect_memory tree s =
    Ret 0 (extend t (set_regions (stored_regions i rs (ram_regions s)) (i + Z.of_nat (length rs)) s))
  else detect_memory tree s =
    Ret (-1) (set_regions
      (stored_regions i (take (Z.to_nat (MAX_MEM_REGIONS - i)) rs) (ram_regions s)) MAX_MEM_REGIONS s).
Proof.
  intros Hr Hval Hb Hlit Hok Hrs. cbv zeta. pose proof (names_blob _ _ Hr Hval) as Hbl.
  pose proof (comes_to_all _ _ Hr Hval _ Hb) as Hall. cbn [from_option] in Hall.
  unfold detect_memory.
  rewrite (bind_ret _ _ _ _ _ (next_memory_ok tree (k_mem s) Hr Hval Hlit s (-1) _ _ eq_refl Hall eq_refl)).
  rewrite bind_gets, tree_fuel_eq by done. fold (memory_nodes tree root (k_mem s)).
  change (filter _ _) with (memory_nodes tree root (k_mem s)).
  assert (∀ c ts, memory_nodes tree root (k_mem s) = c :: ts →
    next_is tree root (k_mem s) (node_off c) (c :: ts) ∧ 0 <= node_off c) as Hfirst.
  { intros c ts E. destruct (filter_position tree root (k_mem s) 0 c ts E) as (j & d & _ & Hj & Hts).
    split; [by exists j, d|]. pose proof (at_nth_node _ _ _ _ _ _ Hbl Hb Hj) as Hat.
    by destruct (at_node_tag _ _ Hr Hval _ _ _ Hat) as ((? & _) & _). }
  erewrite bind_ret.
  2: { eapply (detect_from_ok tree root (k_mem s) Hr Hval Hb Hlit _ _ Hrs); [done|done|..];
       destruct (memory_nodes tree root (k_mem s)) as [|c ts] eqn:E; [done|by apply Hfirst|lia|].
       destruct (Hfirst c ts eq_refl). lia. }
  destruct Hok as [Hlen Hi]. case_decide as Hroom.
  - rewrite bool_decide_eq_true_2 by lia. cbn [negb]. rewrite take_ge by lia.
    set (s' := set_regions _ _ s). destruct (log_detected_ok s') as [t Ht].
    { unfold table_ok, s', stored_regions. destruct s. cbn -[Z.of_nat MAX_MEM_REGIONS] in *.
      rewrite !length_app, length_take, length_drop. lia. }
    rewrite (bind_ret _ _ _ _ _ Ht). by exists t.
  - rewrite bool_decide_eq_false_2 by lia. cbn [negb]. rewrite length_take. unfold mret, K_ret.
    do 2 f_equal. lia.
Qed.

(** C5: On a well-formed tree of version 16 or later in which [parse_reg] finds an address and a
    non-zero size for every node with [device_type = "memory"] (it may ask to be called
    again), [detect_memory] registers exactly these nodes, in the order of the tree, behind
    the regions that are there already; with more of them than the table has room for it
    fills the table and returns -1.  Of other memory nodes it says nothing: one without
    "reg", for instance, takes up an entry that is left as it was, and the code stops there,
    with -1 or in its assertion (src/src/mem/memory.c:18 and 41). *)
Theorem detect_memory_spec `{Platform} tree root s rs :
  readable_tree (k_mem s) tree → valid_tree (k_mem s) tree →
  block_at (k_mem s) tree 0 (Some root) → literals_at (k_mem s) → table_ok s →
  Forall2 (describes tree (k_mem s)) (memory_nodes tree root (k_mem s)) rs →
  let i := ram_regions_index s in
  if decide (i + Z.of_nat (length rs) <= MAX_MEM_REGIONS)
  then ∃ t, detect_memory tree s =
    Ret 0 (extend t (set_regions (stored_regions i rs (ram_regions s)) (i + Z.of_nat (length rs)) s))
  else detect_memory tree s =
    Ret (-1) (set_regions
      (stored_regions i (take (Z.to_nat (MAX_MEM_REGIONS - i)) rs) (ram_regions s)) MAX_MEM_REGIONS s).
Proof. apply detect_memory_ok. Qed.

(* ------------------------------------------------------------------ *)
(** * The sample tree *)

Lemma sample_literals : @literals_at qemu_literals sample_tree_mem.
Proof.
  unfold literals_at. split_and!; try (apply memory_string; vm_compute; reflexivity);
    [apply memory_bytes; vm_compute; reflexivity|vm_compute; reflexivity..].
Qed.

Lemma parse_reg_spec_witness :
  @parse_reg qemu_literals sample_tree_mem tree_addr 40 = Ok (SUCCESS, Some 0x80000000, Some 0x800000).
Proof.
  refine (eq_trans (@parse_reg_spec qemu_literals sample_tree_mem tree_addr sample_root sample_root 0
    sample_memory sample_readable sample_valid sample_block eq_refl sample_literals _ _ _) _).
  - left.
  - left.
  - intros p Hp. assert (p = 80) as -> by (vm_compute in Hp; congruence). vm_compute. discriminate.
  - vm_compute. reflexivity.
Defined.

Lemma detect_memory_spec_witness :
  let s := boot_state sample_tree_mem in
  ∃ t, @detect_memory qemu_literals tree_addr s =
    Ret 0 (extend t (set_regions (stored_regions 0 [RamDescriptor 0x80000000 0x800000] (ram_regions s)) 1 s)).
Proof.
  pose proof (@detect_memory_spec qemu_literals tree_addr sample_root (boot_state sample_tree_mem)
    [RamDescriptor 0x80000000 0x800000] sample_readable sample_valid sample_block sample_literals) as Hd.
  apply Hd; clear Hd.
  - split; [reflexivity|split; discriminate].
  - assert (memory_nodes tree_addr sample_root sample_tree_mem = [sample_memory]) as E
      by (vm_compute; reflexivity).
    change (k_mem (boot_state sample_tree_mem)) with sample_tree_mem. rewrite E. constructor; [|constructor]. exists SUCCESS. split; [vm_compute; reflexivity|discriminate].
Defined.
