(* ===== verification/FindDevices.v ===== *)
(** Devices found by what they are compatible with: [fdt_node_offset_by_compatible] of
    src/libfdt/fdt_ro.c, and the drivers that use it, [discover_clint] of
    src/riscv/clint/clint.c and [init_uart] of src/drivers/uart.c. *)
From S2P Require Import Prelude Machine Printf Console Crt0 SampleTree Memory Fdt FdtRo FdtCheck FdtTree FdtLookup Devices DetectMemory.
From stdpp Require Import base list gmap.
From Stdlib Require Import ZArith Lia.
From Stdlib Require String.
#[local] Open Scope Z_scope.

(* ------------------------------------------------------------------ *)
(** * Lists of strings *)

(** The strings of a value, each of which ends in a NUL. *)
Fixpoint strings_of (v : list Z) : list (list Z) :=
  match v with
  | [] => []
  | b :: v => if b =? 0 then [] :: strings_of v else match strings_of v with s :: l => (b :: s) :: l | [] => [] end
  end.
Definition is_list (v : list Z) : bool := match last v with Some c => c =? 0 | None => true end.

Lemma strings_of_cons s rest : Forall (λ c, c ≠ 0) s → strings_of (s ++ 0 :: rest) = s :: strings_of rest.
Proof.
  induction 1 as [|c s Hc _ IH]; [done|]. cbn [app strings_of]. destruct (Z.eqb_spec c 0); [done|]. by rewrite IH.
Qed.

Lemma list_split v : v ≠ [] → is_list v = true → ∃ s rest, v = s ++ 0 :: rest ∧ Forall (λ c, c ≠ 0) s ∧ is_list rest = true.
Proof.
  intros Hne Hl. induction v as [|b v IH]; [done|]. unfold is_list in *. destruct (decide (b = 0)) as [->|Hb].
  - exists [], v. split_and!; [done|done|]. destruct v; [done|exact Hl].
  - destruct v as [|c v]; [cbn in Hl; lia|]. destruct (IH ltac:(done) Hl) as (s & rest & -> & Hs & Hr).
    exists (b :: s), rest. split_and!; [done|by constructor|done].
Qed.

Lemma strings_shorter s v : s ∈ strings_of v → (length s < length v)%nat.
Proof.
  revert s. induction v as [|b v IH]; cbn [strings_of]; intros s; [by intros ?%elem_of_nil|]. destruct (b =? 0).
  - intros [->|Hs]%elem_of_cons; cbn [length]; [lia|]. specialize (IH _ Hs). lia.
  - destruct (strings_of v) as [|s' l]; [by intros ?%elem_of_nil|]. intros [->|Hs]%elem_of_cons; cbn [length].
    + specialize (IH s' ltac:(by left)). lia.
    + specialize (IH s ltac:(by right)). lia.
Qed.

(** [memcmp] on ranges that differ in front reads no further. *)
Lemma memcmp_differs m s1 s2 n b1 b2 :
  bytes_at m s1 b1 → bytes_at m s2 b2 → length b1 = length b2 → Z.of_nat (length b1) <= n → b1 ≠ b2 →
  0 <= s1 → 0 <= s2 → s1 + n < 2 ^ 32 → s2 + n < 2 ^ 32 → ∃ r, memcmp s1 s2 n m = Ok r ∧ r ≠ 0.
Proof.
  intros H1 H2 Hl Hn Hne Hp1 Hp2 Ht1 Ht2. exists (s32 (s1 - s2)). split.
  - unfold memcmp. assert (length b1 <= Z.to_nat n)%nat as Hk by lia. assert (s1 + Z.of_nat (Z.to_nat n) < 2 ^ 32) as Hx1 by lia.
    assert (s2 + Z.of_nat (Z.to_nat n) < 2 ^ 32) as Hx2 by lia. clear Hn Ht1 Ht2. revert Hk Hx1 Hx2. generalize (Z.to_nat n). clear n. intros n.
    revert s1 s2 b2 n H1 H2 Hl Hne Hp1 Hp2. induction b1 as [|c1 b1 IH]; intros s1 s2 [|c2 b2] [|n] H1 H2 Hl Hne Hp1 Hp2 Hk Hx1 Hx2; try done; cbn [length] in *; [lia|].
    apply bytes_at_cons in H1 as [Hc1 H1]. apply bytes_at_cons in H2 as [Hc2 H2].
    cbn [memcmp_from]. rewrite (load8_ok _ _ _ Hc1), (load8_ok _ _ _ Hc2). cbn [mbind res_bind].
    rewrite !u32_small by (unfold is_u32; lia). replace (s1 + 1 - (s2 + 1)) with (s1 - s2) by lia.
    destruct (Z.eqb_spec c1 c2) as [->|]; cbn [negb]; [|done].
    rewrite (IH (s1 + 1) (s2 + 1) b2 n) by (done || lia || congruence). do 2 f_equal. lia.
  - destruct (decide (s1 = s2)) as [->|Hs]; [|apply s32_nonzero; lia].
    destruct Hne. apply list_eq_same_length with (length b1); [lia|lia|]. intros i x y _ Hx%H1 Hy%H2. congruence.
Qed.

(** Where a string list begins with [x], comparing it with [name] and a NUL. *)
Lemma memcmp_first m p s x rest name n :
  bytes_at m p (x ++ 0 :: rest) → bytes_at m s (name ++ [0]) → Forall (λ c, c ≠ 0) x → Forall (λ c, c ≠ 0) name →
  n = Z.of_nat (length name) + 1 → 0 <= p → 0 <= s → p + n < 2 ^ 32 → s + n < 2 ^ 32 →
  ∃ r, memcmp s p n m = Ok r ∧ (r = 0 ↔ x = name).
Proof.
  intros Hx Hn Hx0 Hn0 -> Hp Hs Hpt Hst. set (k := S (length x `min` length name)).
  assert (bytes_at m p (take k (x ++ 0 :: rest))) as Hx'.
  { rewrite <- (take_drop k (x ++ 0 :: rest)) in Hx. by apply bytes_at_app in Hx as [Hx _]. }
  assert (bytes_at m s (take k (name ++ [0]))) as Hn'.
  { rewrite <- (take_drop k (name ++ [0])) in Hn. by apply bytes_at_app in Hn as [Hn _]. }
  assert (length (take k (x ++ 0 :: rest)) = k) as Lx by (rewrite length_take, length_app; cbn [length]; lia).
  assert (length (take k (name ++ [0])) = k) as Ln by (rewrite length_take, length_app; cbn [length]; lia).
  destruct (decide (x = name)) as [->|Hne].
  - assert (k = S (length name)) as Ek by (unfold k; lia).
    destruct (memcmp_ok m s p (Z.of_nat (length name) + 1) (name ++ [0]) (name ++ [0])) as (r & Hr & Hiff & _);
      [done| |rewrite ?length_app; cbn [length]; lia..|].
    { rewrite Ek in Hx'. rewrite (cons_middle 0), app_assoc, take_app_le, take_ge in Hx' by (rewrite length_app; cbn [length]; lia). done. }
    exists r. split; [done|]. by rewrite Hiff.
  - destruct (memcmp_differs m s p (Z.of_nat (length name) + 1) _ _ Hn' Hx') as (r & Hr & Hnz); [congruence|lia| |lia..|].
    2: { exists r. by split. }
    intros E. destruct (decide (length x = length name)) as [El|El].
    + apply Hne. assert (k = S (length x)) as Ek by (unfold k; lia). rewrite Ek in E.
      apply (f_equal (take (length x))) in E. rewrite !take_take, !Nat.min_l in E by lia.
      rewrite take_app_le, take_app_le, (take_ge name), (take_ge x) in E by lia. done.
    + apply (f_equal (λ l, l !! (length x `min` length name)%nat)) in E. rewrite !lookup_take_lt in E by (unfold k; lia).
      destruct (decide (length x < length name)%nat).
      * rewrite Nat.min_l in E by lia. rewrite (list_lookup_middle x) in E by done.
        rewrite lookup_app_l in E by lia. rewrite Forall_lookup in Hn0. by apply (Hn0 _ _ E).
      * rewrite Nat.min_r in E by lia. rewrite (list_lookup_middle name) in E by done. symmetry in E.
        rewrite lookup_app_l in E by lia. rewrite Forall_lookup in Hx0. by apply (Hx0 _ _ E).
Qed.

Section contains.
Context (m : mem) (Hmb : mem_bytes m) (Hwb : word_backed m).

(** [fdt_stringlist_contains] on a list of strings. *)
Lemma stringlist_contains_ok p v s name :
  bytes_at m p v → 0 < p → p + Z.of_nat (length v) + 1 < 2 ^ 32 → is_list v = true →
  c_name m s name → name ≠ [] →
  fdt_stringlist_contains m p (Z.of_nat (length v)) s = Ok (bool_decide (name ∈ strings_of v)).
Proof using Hmb Hwb.
  intros Hb Hp Ht Hl Hs Hne. pose proof Hs as ((Hsb & Hnz & Hs0) & Hsp & Hst & Hs31).
  unfold fdt_stringlist_contains. rewrite (strlen_ok m s name) by (done || lia). cbn [mbind res_bind].
  rewrite s32_small by (unfold is_s32; lia). rewrite Nat2Z.id.
  assert (0 < length name)%nat as Hn0 by (destruct name; [done|cbn; lia]).
  assert (∀ fuel p v, (length v < fuel)%nat → bytes_at m p v → 0 < p → p + Z.of_nat (length v) + 1 < 2 ^ 32 → is_list v = true →
    loop fuel (λ '(strlist, listlen),
      if Z.of_nat (length name) <=? listlen then
        c ← memcmp s strlist (Z.of_nat (length name) + 1) m;
        if c =? 0 then Ok (inr true)
        else
          p ← memchr strlist 0 listlen m;
          if p =? 0 then Ok (inr false) else Ok (inl (u32 (p + 1), listlen - ((p - strlist) + 1)))
      else Ok (inr false)) (p, Z.of_nat (length v)) = Ok (bool_decide (name ∈ strings_of v))) as Hgo.
  2: { apply Hgo; (done || lia). }
  clear p v Hb Hp Ht Hl. induction fuel as [|fuel IH]; intros p v Hf Hb Hp Ht Hl; [lia|]. cbn [loop].
  destruct (Z.leb_spec (Z.of_nat (length name)) (Z.of_nat (length v))) as [Hle|Hlt]; cbn [mbind res_bind].
  2: { rewrite bool_decide_eq_false_2; [done|]. intros Hin%strings_shorter. lia. }
  destruct (list_split v) as (x & rest & -> & Hx & Hrest); [by intros ->; cbn in Hle; lia|done|].
  rewrite strings_of_cons by done. rewrite length_app in *. cbn [length] in *.
  assert (bytes_at m s (name ++ [0])) as Hsn.
  { apply bytes_at_app. split; [done|]. apply bytes_at_cons. by split; [|intros ? ?]. }
  destruct (memcmp_first m p s x rest name (Z.of_nat (length name) + 1) Hb Hsn Hx Hnz) as (r & -> & Hr); [lia..|]. cbn [mbind res_bind].
  destruct (Z.eqb_spec r 0) as [Ez|Enz].
  { rewrite bool_decide_eq_true_2; [done|]. apply Hr in Ez as ->. by left. }
  assert (length (x ++ 0%Z :: rest) = length x + S (length rest))%nat as El by (by rewrite length_app).
  rewrite <- El. rewrite (memchr_split m p 0 (x ++ 0 :: rest) Hb) by lia.
  rewrite split_at_app by done.
  cbn [mbind res_bind]. destruct (Z.eqb_spec (p + Z.of_nat (length x)) 0); [lia|].
  rewrite El. rewrite u32_small by (unfold is_u32; lia). apply bytes_at_app in Hb as [_ Hb]. apply bytes_at_cons in Hb as [_ Hb].
  replace (Z.of_nat (length x + S (length rest)) - (p + Z.of_nat (length x) - p + 1)) with (Z.of_nat (length rest)) by lia.
  cbn [mbind res_bind]. rewrite IH by (done || lia). f_equal. apply bool_decide_ext. rewrite elem_of_cons. split; [by right|].
  intros [->|?]; [|done]. destruct Enz. by apply Hr.
Qed.
End contains.

(* ------------------------------------------------------------------ *)
(** * Nodes that are compatible with a driver *)

Section compatible.
Context `{Platform} (m : mem) (tree : Z) (root : dnode).

Definition compatible_with (name : list Z) (t : dnode) : bool :=
  match find_prop m tree (node_props t) (chars "compatible") with
  | Some p => bool_decide (name ∈ strings_of (prop_bytes m tree p))
  | None => false
  end.
Definition compatible_nodes (name : list Z) : list dnode := filter (compatible_with name) (fst <$> tree_nodes 0 root).

(** Every "compatible" of the tree is a list of strings. *)
Definition lists_strings (t : dnode) : bool :=
  match find_prop m tree (node_props t) (chars "compatible") with
  | Some p => is_list (prop_bytes m tree p)
  | None => true
  end.

Context (Hr : readable_tree m tree) (Hval : valid_tree m tree) (Hb : block_at m tree 0 (Some root)).
Context (Hc : c_name m (rodata "compatible") (chars "compatible")).
Context (Hlists : forallb lists_strings (fst <$> tree_nodes 0 root) = true).

Lemma node_offset_by_compatible_ok s name :
  c_name m s name → name ≠ [] →
  fdt_node_offset_by_compatible m tree (-1) s = Ok (first_off (compatible_with name) (fst <$> tree_nodes 0 root)).
Proof using Hr Hval Hb Hc Hlists.
  intros Hs Hne. unfold fdt_node_offset_by_compatible, FDT_RO_PROBE. rewrite (valid_probe m tree Hr Hval).
  pose proof (names_blob m tree Hr Hval) as Hbl. destruct (header_eq m tree Hbl 4 ltac:(lia)) as [_ Hu]. unfold is_u32 in Hu. cbn [mbind res_bind].
  destruct (Z.ltb_spec (hdr m tree 4) 0); [lia|]. apply (search_nodes_ok m tree Hr Hval).
  - apply (comes_to_all m tree Hr Hval (Some root) Hb).
  - intros u e l Hin Hat. unfold fdt_node_check_compatible. rewrite (getprop_at m tree Hr Hval u e l _ _ Hat Hc).
    unfold compatible_with. rewrite forallb_forall in Hlists.
    pose proof (Hlists u ltac:(apply list_elem_of_In, list_elem_of_fmap; by exists (u, e))) as Hl. unfold lists_strings in Hl.
    destruct (find_prop m tree (node_props u) (chars "compatible")) as [p|] eqn:Ep; cbn [mbind res_bind]; [|done].
    destruct (found_value m tree Hr Hval _ _ _ _ _ Hat Ep) as (Hbs & Hlen & Hp0 & Hle).
    destruct (Z.eqb_spec (prop_value m tree p) 0); [lia|]. pose proof Hr as (Hmb & Hwb & _ & _ & _ & _ & Htop & _).
    rewrite <- Hlen, (stringlist_contains_ok m Hmb Hwb _ _ s name) by (done || lia). cbn [mbind res_bind].
    by destruct (bool_decide (name ∈ strings_of (prop_bytes m tree p))).
Qed.

(** Offsets of nodes are not negative. *)
Lemma first_compatible name :
  first_off (compatible_with name) (fst <$> tree_nodes 0 root) =
  match compatible_nodes name with c :: _ => node_off c | [] => - FDT_ERR_NOTFOUND end ∧
  Forall (λ c, 0 <= node_off c) (compatible_nodes name).
Proof using Hr Hval Hb.
  split; [done|]. apply Forall_forall. intros c [_ Hin]%list_elem_of_filter. apply list_elem_of_fmap in Hin as ([u e] & -> & Hin).
  destruct (at_tree_node m tree root u e (names_blob m tree Hr Hval) Hb Hin) as [l Hat].
  destruct (at_node_tag m tree Hr Hval _ _ _ Hat) as ((? & _) & _). done.
Qed.

(** [discover_clint] takes the registers of the first node that is compatible, unless it is
    the root. *)
Lemma discover_clint_ok s res start size :
  k_mem s = m → c_name m (rodata "riscv,clint0") (chars "riscv,clint0") →
  match compatible_nodes (chars "riscv,clint0") with
  | c :: _ => node_off c ≠ 0 → parse_reg m tree (node_off c) = Ok (res, start, size) →
      let s' := set_clint_addr (default (clint_addr s) start) s in
      if res =? 0 then ∃ t, discover_clint tree s = Ret 0 (extend t s') else discover_clint tree s = Ret (-2) s'
  | [] => discover_clint tree s = Ret (-1) s
  end.
Proof using Hr Hval Hb Hc Hlists.
  intros Hm Hs. unfold discover_clint. destruct (first_compatible (chars "riscv,clint0")) as [Ef Hpos].
  rewrite (bind_ret _ _ s (match compatible_nodes (chars "riscv,clint0") with c :: _ => node_off c | [] => - FDT_ERR_NOTFOUND end) s).
  2: { unfold reading. by rewrite Hm, (node_offset_by_compatible_ok _ _ Hs), Ef by done. }
  destruct (compatible_nodes (chars "riscv,clint0")) as [|c l]; [done|]. apply Forall_cons in Hpos as [Hpos _]. intros Hne Hp. cbv zeta.
  destruct (Z.ltb_spec 0 (node_off c)); [|lia]. rewrite (bind_ret _ _ s (res, start, size) s) by (unfold reading; by rewrite Hm, Hp).
  rewrite bind_modify. destruct (res =? 0); cbn [negb]; [|done]. rewrite bind_gets.
  step_printf. by eexists.
Qed.

(** It takes a node at offset 0 for none. *)
Lemma discover_clint_root s c l :
  k_mem s = m → c_name m (rodata "riscv,clint0") (chars "riscv,clint0") →
  compatible_nodes (chars "riscv,clint0") = c :: l → node_off c = 0 → discover_clint tree s = Ret (-1) s.
Proof using Hr Hval Hb Hc Hlists.
  intros Hm Hs Hcl H0. unfold discover_clint. destruct (first_compatible (chars "riscv,clint0")) as [Ef _]. rewrite Hcl, H0 in Ef.
  rewrite (bind_ret _ _ s 0 s); [done|]. unfold reading. by rewrite Hm, (node_offset_by_compatible_ok _ _ Hs), Ef by done.
Qed.

(** [init_uart] takes those of the first compatible node, whatever [parse_reg] says of it. *)
Lemma init_uart_ok s res start size :
  k_mem s = m → c_name m (rodata "ns16550a") (chars "ns16550a") →
  match compatible_nodes (chars "ns16550a") with
  | c :: _ => parse_reg m tree (node_off c) = Ok (res, start, size) →
      ∃ t, init_uart tree s = Ret 0 (extend t (set_uart_base (default (uart_base s) start) s))
  | [] => init_uart tree s = Ret (- FDT_ERR_NOTFOUND) s
  end.
Proof using Hr Hval Hb Hc Hlists.
  intros Hm Hs. unfold init_uart. destruct (first_compatible (chars "ns16550a")) as [Ef Hpos].
  rewrite (bind_ret _ _ s (match compatible_nodes (chars "ns16550a") with c :: _ => node_off c | [] => - FDT_ERR_NOTFOUND end) s).
  2: { unfold reading. by rewrite Hm, (node_offset_by_compatible_ok _ _ Hs), Ef by done. }
  destruct (compatible_nodes (chars "ns16550a")) as [|c l]; [done|]. apply Forall_cons in Hpos as [Hpos _]. intros Hp.
  destruct (Z.ltb_spec (node_off c) 0); [lia|]. rewrite (bind_ret _ _ s (res, start, size) s) by (unfold reading; by rewrite Hm, Hp).
  rewrite bind_modify, bind_gets. step_printf. by eexists.
Qed.
End compatible.
