(* ===== verification/Interrupts.v ===== *)
(** Traps and privilege: the trap handlers and the interrupt set-up
    (src/riscv/interrupts/interrupts.c), the causes and sources
    (src/riscv/interrupts/exception_codes.h, interrupt_sources.h) and the switch to
    supervisor mode (src/riscv/switch_to_supervisor.c).  The effects of [mret], of
    a trap and of the PMP entries that the code programs are those of the
    privileged architecture. *)
From S2P Require Import Prelude Machine Registers Printf Console SampleTree Fdt Devices.
From stdpp Require Import base list gmap.
From Stdlib Require Import ZArith Lia.
From Stdlib Require String.
#[local] Open Scope Z_scope.

(* ------------------------------------------------------------------ *)
(** * Causes and sources *)

Definition MCAUSE_INTERRUPT_BIT : Z := u32 (Z.shiftl 1 31).

Inductive exception_code : Type :=
| MCAUSE_MISALIGNED_INSRTUCTION | MCAUSE_INSTRUCTION_ACCESS_FAULT
| MCAUSE_ILLEGAL_INSTRUCTION | MCAUSE_BREAKPOINT | MCAUSE_MISALIGNED_LOAD
| MCAUSE_LOAD_ACCESS_FAULT | MCAUSE_MISALIGNED_STORE | MCAUSE_STORE_ACCESS_FAULT
| MCAUSE_ECALL_FROM_USER | MCAUSE_ECALL_FROM_SUPERVISOR | MCAUSE_ECALL_FROM_MACHINE
| MCAUSE_INSTRUCTION_PAGE_FAULT | MCAUSE_LOAD_PAGE_FAULT | MCAUSE_STORE_PAGE_FAULT
| MCAUSE_DOUBLE_TRAP | MCAUSE_SOFTWARE_CHECK | MCAUSE_HARDWARE_ERROR
| MCAUSE_SUPERVISOR_SOFTWARE_INTR | MCAUSE_MACHINE_SOFTWARE_INTR
| MCAUSE_SUPERVISOR_TIMER_INTR | MCAUSE_MACHINE_TIMER_INTR
| MCAUSE_SUPERVISOR_EXTERNAL | MCAUSE_MACHINE_EXTERNAL | MCAUSE_COUNTER_OVERFLOW.

#[export] Instance exception_code_eq_dec : EqDecision exception_code.
Proof. solve_decision. Defined.

Definition mcause_value (e : exception_code) : Z :=
  match e with
  | MCAUSE_MISALIGNED_INSRTUCTION => 0
  | MCAUSE_INSTRUCTION_ACCESS_FAULT => 1
  | MCAUSE_ILLEGAL_INSTRUCTION => 2
  | MCAUSE_BREAKPOINT => 3
  | MCAUSE_MISALIGNED_LOAD => 4
  | MCAUSE_LOAD_ACCESS_FAULT => 5
  | MCAUSE_MISALIGNED_STORE => 6
  | MCAUSE_STORE_ACCESS_FAULT => 7
  | MCAUSE_ECALL_FROM_USER => 8
  | MCAUSE_ECALL_FROM_SUPERVISOR => 9
  | MCAUSE_ECALL_FROM_MACHINE => 11
  | MCAUSE_INSTRUCTION_PAGE_FAULT => 12
  | MCAUSE_LOAD_PAGE_FAULT => 13
  | MCAUSE_STORE_PAGE_FAULT => 15
  | MCAUSE_DOUBLE_TRAP => 16
  | MCAUSE_SOFTWARE_CHECK => 18
  | MCAUSE_HARDWARE_ERROR => 19
  | MCAUSE_SUPERVISOR_SOFTWARE_INTR => Z.lor MCAUSE_INTERRUPT_BIT 1
  | MCAUSE_MACHINE_SOFTWARE_INTR => Z.lor MCAUSE_INTERRUPT_BIT 3
  | MCAUSE_SUPERVISOR_TIMER_INTR => Z.lor MCAUSE_INTERRUPT_BIT 5
  | MCAUSE_MACHINE_TIMER_INTR => Z.lor MCAUSE_INTERRUPT_BIT 7
  | MCAUSE_SUPERVISOR_EXTERNAL => Z.lor MCAUSE_INTERRUPT_BIT 9
  | MCAUSE_MACHINE_EXTERNAL => Z.lor MCAUSE_INTERRUPT_BIT 11
  | MCAUSE_COUNTER_OVERFLOW => Z.lor MCAUSE_INTERRUPT_BIT 13
  end.

Definition is_interrupt (e : exception_code) : bool := Z.testbit (mcause_value e) 31.

Inductive riscv_interrupt_sources : Type :=
| INTSRC_MACHINE_SOFTWARE | INTSRC_MACHINE_TIMER | INTSRC_MACHINE_EXTERNAL
| INTSRC_SUPERVISOR_SOFTWARE | INTSRC_SUPERVISOR_TIMER | INTSRC_SUPERVISOR_EXTERNAL
| INTSRC_LOCAL_COUNTER_OVERFLOW.

Definition intsrc_value (i : riscv_interrupt_sources) : Z :=
  match i with
  | INTSRC_MACHINE_SOFTWARE => Z.shiftl 1 3
  | INTSRC_MACHINE_TIMER => Z.shiftl 1 7
  | INTSRC_MACHINE_EXTERNAL => Z.shiftl 1 11
  | INTSRC_SUPERVISOR_SOFTWARE => Z.shiftl 1 1
  | INTSRC_SUPERVISOR_TIMER => Z.shiftl 1 5
  | INTSRC_SUPERVISOR_EXTERNAL => Z.shiftl 1 9
  | INTSRC_LOCAL_COUNTER_OVERFLOW => Z.shiftl 1 13
  end.

(** [RISCV_ALL_INTR_SOURCES_ON], which names one source twice. *)
Definition RISCV_ALL_INTR_SOURCES_ON : Z :=
  foldr Z.lor 0 (map intsrc_value
    [INTSRC_MACHINE_EXTERNAL; INTSRC_MACHINE_TIMER; INTSRC_MACHINE_SOFTWARE;
     INTSRC_SUPERVISOR_EXTERNAL; INTSRC_SUPERVISOR_SOFTWARE; INTSRC_SUPERVISOR_SOFTWARE;
     INTSRC_SUPERVISOR_TIMER]).

(* ------------------------------------------------------------------ *)
(** * The privileged architecture *)

Definition set_csr (r : csr) (v : Z) (s : kstate) : kstate :=
  set_csrs (fun r' => if decide (r' = r) then v else k_csr s r') s.

Definition privilege_of (code : Z) : option riscv_privileges :=
  if code =? 0 then Some RISCV_PRIV_LVL_USER
  else if code =? 1 then Some RISCV_PRIV_LVL_SUPERVISOR
  else if code =? 3 then Some RISCV_PRIV_LVL_MACHINE
  else None.

#[local] Open Scope string_scope.

(** The change of mstatus by [mret] into mode [p]. *)
Definition mret_mstatus (p : riscv_privileges) (raw : Z) : Z :=
  let raw := put_field mstatus_32 "machine_interrupt_enable"
               (get_field mstatus_32 "machine_prev_interrupt_enable" raw) raw in
  let raw := put_field mstatus_32 "machine_prev_interrupt_enable" 1 raw in
  let raw := put_field mstatus_32 "machine_prev_privilege" 0 raw in
  if decide (p = RISCV_PRIV_LVL_MACHINE) then raw
  else put_field mstatus_32 "modify_privilege" 0 raw.

(** [mret]: to the mode in MPP and the address in mepc (whose bit 0 reads zero). *)
Definition mret_instr : K unit := fun s =>
  let raw := k_csr s mstatus in
  match privilege_of (get_field mstatus_32 "machine_prev_privilege" raw) with
  | Some p => Entered (set_mode_pc p (Z.ldiff (k_csr s mepc) 1)
                        (set_csr mstatus (mret_mstatus p raw) s))
  | None => Faulted s
  end.

(** The bits of mstatus that sstatus shows. *)
Definition SSTATUS_MASK : Z := 0x800DE762.

(** An exception while the hart runs in [k_mode s]: to supervisor mode when it is
    not in machine mode and medeleg has the bit of the cause. *)
Definition take_exception (cause tval : Z) (s : kstate) : kstate :=
  let raw := k_csr s mstatus in
  if bool_decide (k_mode s ≠ RISCV_PRIV_LVL_MACHINE) && Z.testbit (k_csr s medeleg) cause then
    let raw := put_field mstatus_32 "supervisor_prev_interrupt_enable"
                 (get_field mstatus_32 "supervisor_interrupt_enable" raw) raw in
    let raw := put_field mstatus_32 "supervisor_interrupt_enable" 0 raw in
    let raw := put_field mstatus_32 "supervisor_prev_privilege" (privilege_code (k_mode s)) raw in
    set_mode_pc RISCV_PRIV_LVL_SUPERVISOR (Z.ldiff (k_csr s stvec) 3)
      (set_csr scause cause (set_csr sepc (k_pc s) (set_csr stval tval
        (set_csr sstatus (Z.land raw SSTATUS_MASK) (set_csr mstatus raw s)))))
  else
    let raw := put_field mstatus_32 "machine_prev_interrupt_enable"
                 (get_field mstatus_32 "machine_interrupt_enable" raw) raw in
    let raw := put_field mstatus_32 "machine_interrupt_enable" 0 raw in
    let raw := put_field mstatus_32 "machine_prev_privilege" (privilege_code (k_mode s)) raw in
    set_mode_pc RISCV_PRIV_LVL_MACHINE (Z.ldiff (k_csr s mtvec) 3)
      (set_csr mcause cause (set_csr mepc (k_pc s) (set_csr mtval tval (set_csr mstatus raw s)))).

#[local] Close Scope string_scope.

(** [unimp], which no implementation decodes. *)
Definition unimp : K unit := fun s =>
  Entered (take_exception (mcause_value MCAUSE_ILLEGAL_INSTRUCTION) 0 s).

(** PMP entry 0 in top-of-range mode (A = 1): it covers the addresses below
    [pmpaddr0 * 4]; its low bits grant reading, writing and execution. *)
Definition pmp0_grants (cfg addr0 a : Z) : bool :=
  (bits cfg 3 2 =? 1) && (a <? Z.shiftl addr0 2) && (bits cfg 0 3 =? 7).

(* ------------------------------------------------------------------ *)
(** * Handlers *)

Definition str_nl (s : String.string) : String.string := String.append s NL.
Arguments str_nl s%_string_scope.

Section with_platform.
Context `{Platform}.

Definition m_mode_handle : K unit :=
  cause ← READ_CSR mcause; epc ← READ_CSR mepc; tval ← READ_CSR mtval;
  status ← READ_CSR mstatus; satp_ ← READ_CSR satp;
  printf_ (String.append NL (str_nl "========== TRAP ==========")) [];;
  printf_ (str_nl "mcause = 0x%x") [VWord cause];;
  printf_ (str_nl "mepc   = 0x%x") [VWord epc];;
  printf_ (str_nl "mtval  = 0x%x") [VWord tval];;
  printf_ (str_nl "mstatus= 0x%x") [VWord status];;
  printf_ (str_nl "satp   = 0x%x") [VWord satp_];;
  vec ← READ_CSR mtvec;
  printf_ (str_nl "mtvec  = 0x%x") [VWord vec];;
  printf_ (str_nl "==========================") [];;
  if ndebug then halt else shutdown 1.

Definition s_mode_handle : K unit :=
  cause ← READ_CSR scause; epc ← READ_CSR sepc; tval ← READ_CSR stval;
  status ← READ_CSR sstatus; satp_ ← READ_CSR satp;
  printf_ (String.append NL (str_nl "========== SUPERVISOR MODE TRAP ==========")) [];;
  printf_ (str_nl "scause = 0x%x") [VWord cause];;
  printf_ (str_nl "sepc   = 0x%x") [VWord epc];;
  printf_ (str_nl "stval  = 0x%x") [VWord tval];;
  printf_ (str_nl "sstatus= 0x%x") [VWord status];;
  printf_ (str_nl "satp   = 0x%x") [VWord satp_];;
  vec ← READ_CSR stvec;
  printf_ (str_nl "stvec  = 0x%x") [VWord vec];;
  printf_ (str_nl "============================================") [];;
  (if ndebug then halt else shutdown 1);;
  unreachable.

(** The writes of mtvec and stvec are commented out in the source. *)
Definition setup_interrupt_handler : K unit :=
  WRITE_CSR mideleg 0;;
  WRITE_CSR medeleg 0;;
  DEBUG_ASSERT (m_mode_handle_addr mod 4 =? 0) "(uintptr_t)&m_mode_handle % 4 == 0"
    "src/riscv/interrupts/interrupts.c" "setup_interrupt_handler" 82;;
  WRITE_CSR mie 0;;
  WRITE_CSR mip 0;;
  printf_ (str_nl "[OK] Enabled all interrupts") [];;
  mret tt.

Definition init_interrupt_controller (device_tree : Z) : K unit :=
  r ← discover_clint device_tree;
  if r =? 0 then
    t ← clint_init_timer;
    modify (set_timer t);;
    printf_ (str_nl "[OK] Discovered CLINT") [];;
    printf_ (str_nl "[INFO] mtimecmp at %p, mtime at %p") [VWord (mtimecmp t); VWord (mtime t)];;
    mret tt
  else if r =? -2 then KERNEL_PANIC "CLINT node is present but not valid" []
  else if r =? -1 then KERNEL_PANIC "No CLINT node in Device Tree found" []
  else mret tt.

Definition riscv_switch_to_supervisor (jump_addr : Z) : K unit :=
  raw ← READ_CSR mstatus;
  let raw := put_field mstatus_32 "machine_prev_privilege"
               (privilege_code RISCV_PRIV_LVL_SUPERVISOR) raw in
  let raw := put_field mstatus_32 "machine_prev_interrupt_enable" 0 raw in
  let raw := put_field mstatus_32 "machine_interrupt_enable" 0 raw in
  WRITE_CSR pmpaddr0 UINT_MAX;;
  WRITE_CSR pmpaddr1 UINT_MAX;;
  WRITE_CSR pmpcfg0 0x0f;;
  WRITE_CSR satp 0;;
  modify (add_event SfenceVma);;
  WRITE_CSR stvec s_mode_handle_addr;;
  WRITE_CSR mstatus raw;;
  WRITE_CSR mepc jump_addr;;
  WRITE_CSR medeleg RISCV_ALL_INTR_SOURCES_ON;;
  WRITE_CSR mideleg RISCV_ALL_INTR_SOURCES_ON;;
  mret_instr;;
  unreachable.
End with_platform.

Arguments str_nl s%_string_scope.

(* ------------------------------------------------------------------ *)
(** * Lemmas *)

Section csr_fields.
Context (r : csr) (v : Z) (s : kstate).
Lemma k_csr_set_csr r' : k_csr (set_csr r v s) r' = if decide (r' = r) then v else k_csr s r'.
Proof. by destruct s. Qed.
Lemma k_csr_set_mode_pc p a : k_csr (set_mode_pc p a s) = k_csr s.
Proof. by destruct s. Qed.
Lemma k_mode_set_mode_pc p a : k_mode (set_mode_pc p a s) = p.
Proof. by destruct s. Qed.
Lemma k_pc_set_mode_pc p a : k_pc (set_mode_pc p a s) = a.
Proof. by destruct s. Qed.
End csr_fields.
#[export] Hint Rewrite k_csr_set_csr k_csr_set_mode_pc k_mode_set_mode_pc k_pc_set_mode_pc : kernel.

(** Everything of a state but the registers and the trace. *)
Definition same_but_csrs (s s' : kstate) : Prop :=
  ∃ c t, s' = set_csrs c (extend t s).

Lemma bind_write_csr {B} r v (f : unit → K B) s :
  (WRITE_CSR r v ≫= f) s = f tt (add_event (CsrWrite r (u32 v)) (set_csr r (u32 v) s)).
Proof. done. Qed.

(** The power-off store of [shutdown(1)]. *)
Lemma shutdown_on s :
  shutdown_ptr s = Some syscon_shutdown_fn →
  shutdown 1 s = Ret tt (extend [Mmio32 0x100000 0x15555] s).
Proof.
  intros Hp. unfold shutdown. rewrite bind_gets, Hp.
  unfold syscon_shutdown, mmio_write32, modify. by rewrite add_event_extend.
Qed.

(* ------------------------------------------------------------------ *)
(** * Quietness *)

Section quiet.
Context `{Platform}.

Lemma quiet_init_interrupt_controller tree : quiet (init_interrupt_controller tree).
Proof. unfold init_interrupt_controller, clint_init_timer, clint_get_time, clint_get_mtimecmp. quiet. Qed.
#[local] Hint Resolve quiet_init_interrupt_controller : quiet.

End quiet.
#[export] Hint Resolve quiet_init_interrupt_controller : quiet.

(* ------------------------------------------------------------------ *)
(** * Properties *)

(** Masking and unmasking interrupts changes bit 3 of mstatus (MIE) and nothing
    else in the registers, except that unmasking also drops the pending bits of mip;
    mode, memory and statics stay as they are. *)
Theorem interrupt_masking (s : kstate) :
  is_u32 (k_csr s mstatus) →
  (∃ c t, disable_interrupts s = Ret tt (set_csrs c (extend t s)) ∧
     (∀ r, r ≠ mstatus → c r = k_csr s r) ∧
     ∀ i, 0 <= i → Z.testbit (c mstatus) i = negb (i =? 3) && Z.testbit (k_csr s mstatus) i) ∧
  (∃ c t, enable_interrupts s = Ret tt (set_csrs c (extend t s)) ∧
     c mip = 0 ∧ (∀ r, r ≠ mstatus → r ≠ mip → c r = k_csr s r) ∧
     ∀ i, 0 <= i → Z.testbit (c mstatus) i = (i =? 3) || Z.testbit (k_csr s mstatus) i).
Proof.
  intros Hr. split.
  - eexists _, [_]. split; [by destruct s|]. cbv beta. split; [intros r Hne; by rewrite decide_False|].
    intros i Hi. rewrite decide_True, u32_small by auto with kernel.
    by apply machine_interrupt_enable_bit.
  - eexists _, [_; _]. split; [by destruct s|]. cbv beta. split_and!.
    + rewrite decide_False by done. by destruct s.
    + intros r ??. rewrite decide_False by done. destruct s. simpl. by rewrite decide_False.
    + intros i Hi. rewrite decide_True, u32_small by auto with kernel.
      rewrite (put_field_testbit _ _ _ _ 3 1) by auto with kernel.
      destruct (Z.eqb_spec i 3) as [->|]; [done|].
      destruct (Z.leb_spec 3 i), (Z.ltb_spec i (3 + 1)); simpl; lia || done.
Qed.

Lemma interrupt_masking_witness :
  ∃ c t, disable_interrupts (set_csr mstatus 0x1888 (boot_state ∅)) =
           Ret tt (set_csrs c (extend t (set_csr mstatus 0x1888 (boot_state ∅)))) ∧
    Z.testbit (c mstatus) 3 = false ∧ Z.testbit (c mstatus) 7 = true.
Proof.
  destruct (interrupt_masking (set_csr mstatus 0x1888 (boot_state ∅))) as [(c & t & E & _ & Hb) _];
    [vm_compute; intuition congruence|].
  exists c, t. rewrite !Hb by lia. split; [exact E|split; reflexivity].
Defined.

Section handlers.
Context `{Platform}.

(** The machine-mode handler only reports: with the power controller set up, a
    debug build powers the machine off with exit code 1 as its last store; a
    release build parks the hart; before the controller is set up a debug build
    calls a null pointer. No register, memory cell or static changes but MIE. *)
Theorem m_mode_handle_spec s :
  ∃ t,
    (ndebug = false → shutdown_ptr s = Some syscon_shutdown_fn →
       m_mode_handle s = Ret tt (extend (Mmio32 0x100000 0x15555 :: t) s)) ∧
    (ndebug = false → shutdown_ptr s = None → m_mode_handle s = Faulted (extend t s)) ∧
    (ndebug = true → m_mode_handle s = Halted (mask_interrupts (extend t s))).
Proof.
  unfold m_mode_handle, READ_CSR. rewrite !bind_gets. do 6 step_printf.
  rewrite bind_gets. do 2 step_printf. rewrite !extend_extend.
  eexists. split_and!; intros ->.
  - intros Hp. by rewrite shutdown_on, extend_extend by (by rewrite shutdown_ptr_extend).
  - unfold shutdown. rewrite bind_gets, shutdown_ptr_extend. by intros ->.
  - by rewrite halt_eq.
Qed.

(** The supervisor-mode handler reports and powers the machine off; if that
    store returned, control would reach [__builtin_unreachable]. *)
Theorem s_mode_handle_spec s :
  ∃ t,
    (ndebug = false → shutdown_ptr s = Some syscon_shutdown_fn →
       s_mode_handle s = Unreachable (extend (Mmio32 0x100000 0x15555 :: t) s)) ∧
    (ndebug = true → s_mode_handle s = Halted (mask_interrupts (extend t s))).
Proof.
  unfold s_mode_handle, READ_CSR. rewrite !bind_gets. do 6 step_printf.
  rewrite bind_gets. do 2 step_printf. rewrite !extend_extend.
  eexists. split; intros ->.
  - intros Hp.
    rewrite (bind_ret _ _ _ _ _ (shutdown_on (extend _ s) ltac:(by rewrite shutdown_ptr_extend))).
    by rewrite extend_extend.
  - done.
Qed.
End handlers.

Lemma m_mode_handle_spec_witness :
  ∃ t, @m_mode_handle qemu_virt (set_power (Some syscon_shutdown_fn) None (boot_state ∅)) =
    Ret tt (extend (Mmio32 0x100000 0x15555 :: t)
              (set_power (Some syscon_shutdown_fn) None (boot_state ∅))).
Proof.
  destruct (@m_mode_handle_spec qemu_virt (set_power (Some syscon_shutdown_fn) None (boot_state ∅)))
    as (t & H & _).
  exists t. exact (H eq_refl eq_refl).
Defined.

Lemma s_mode_handle_spec_witness :
  ∃ t, @s_mode_handle qemu_virt (set_power (Some syscon_shutdown_fn) None (boot_state ∅)) =
    Unreachable (extend (Mmio32 0x100000 0x15555 :: t)
              (set_power (Some syscon_shutdown_fn) None (boot_state ∅))).
Proof.
  destruct (@s_mode_handle_spec qemu_virt (set_power (Some syscon_shutdown_fn) None (boot_state ∅)))
    as (t & H & _).
  exists t. exact (H eq_refl eq_refl).
Defined.

Section setup.
Context `{Platform}.

Lemma setup_mode s s' : setup_interrupt_handler s = Halted s' → k_mode s' = k_mode s.
Proof.
  unfold setup_interrupt_handler. rewrite !bind_write_csr. intros E.
  match type of E with (_ ≫= ?f) ?s1 = _ =>
    assert (k_mode s1 = k_mode s) as <- by (by destruct s);
    assert (∀ a s2, f a s2 ≠ Halted s') as Hf end.
  { intros a s2. rewrite !bind_write_csr. step_printf. done. }
  match type of E with (?k ≫= _) ?s1 = _ =>
    assert (quiet k) as Hq by (apply quiet_assert; eexists; vm_compute; reflexivity);
    specialize (Hq s1); unfold mbind, K_bind in E; destruct (k s1) as [a s2|s2|s2|s2|s2|] end; try done.
  injection E as ->. apply Hq.
Qed.

Lemma setup_interrupt_handler_ok s :
  (ndebug = true ∨ m_mode_handle_addr mod 4 = 0 →
   ∃ c t, setup_interrupt_handler s = Ret tt (set_csrs c (extend t s)) ∧
     (∀ r, r ∈ [mideleg; medeleg; mie; mip] → c r = 0) ∧
     (∀ r, r ∉ [mideleg; medeleg; mie; mip] → c r = k_csr s r)) ∧
  (ndebug = false → m_mode_handle_addr mod 4 ≠ 0 →
   ∃ s', setup_interrupt_handler s = Halted s' ∧ Z.testbit (k_csr s' mstatus) 3 = false).
Proof.
  split.
  - intros Ha. unfold setup_interrupt_handler.
    rewrite !bind_write_csr.
    assert (ndebug = true ∨ (m_mode_handle_addr mod 4 =? 0) = true) as Hc
      by (destruct Ha as [?| ->]; auto).
    rewrite (bind_ret _ _ _ tt _ (debug_assert_holds _ _ _ _ _ _ Hc)).
    rewrite !bind_write_csr.
    step_printf. destruct s. eexists _, (t ++ [_; _; _; _]).
    split; [simpl; by rewrite <- app_assoc|].
    split; intros r Hr; cbn -[decide].
    + repeat (apply elem_of_cons in Hr as [->|Hr]; [done|]). by apply elem_of_nil in Hr.
    + rewrite !not_elem_of_cons in Hr. destruct Hr as (? & ? & ? & ? & _).
      by rewrite !decide_False by done.
  - intros Hd Ha. unfold setup_interrupt_handler.
    rewrite !bind_write_csr.
    destruct (Z.eqb_spec (m_mode_handle_addr mod 4) 0); [done|].
    match goal with |- context [(DEBUG_ASSERT _ ?a ?b ?c ?d ≫= _) ?s'] =>
      destruct (debug_assert_fails a b c d s' _ Hd ltac:(vm_compute; reflexivity)) as [t Ht] end.
    rewrite (bind_ends _ _ _ _ Ht). eexists. split; [done|].
    apply mask_interrupts_bit.
Qed.
(** The interrupt set-up leaves every interrupt source disabled and nothing
    delegated (whatever its message says), and keeps mtvec, stvec and mstatus as
    they were: no handler is installed. In a debug build a handler that is not
    word-aligned parks the hart instead. *)
Theorem setup_interrupt_handler_spec s :
  (ndebug = true ∨ m_mode_handle_addr mod 4 = 0 →
   ∃ c t, setup_interrupt_handler s = Ret tt (set_csrs c (extend t s)) ∧
     (∀ r, r ∈ [mideleg; medeleg; mie; mip] → c r = 0) ∧
     (∀ r, r ∉ [mideleg; medeleg; mie; mip] → c r = k_csr s r)) ∧
  (ndebug = false → m_mode_handle_addr mod 4 ≠ 0 →
   ∃ s', setup_interrupt_handler s = Halted s' ∧ Z.testbit (k_csr s' mstatus) 3 = false).
Proof. apply setup_interrupt_handler_ok. Qed.
End setup.

Lemma setup_interrupt_handler_spec_witness :
  ∃ c t, @setup_interrupt_handler qemu_virt (boot_state ∅) =
    Ret tt (set_csrs c (extend t (boot_state ∅))) ∧ c mie = 0.
Proof.
  destruct (@setup_interrupt_handler_spec qemu_virt (boot_state ∅)) as [H _].
  destruct (H (or_intror eq_refl)) as (c & t & E & Hz & _).
  exists c, t. split; [exact E|]. apply Hz. do 2 right. left.
Defined.

Lemma ldiff_mult4 x : x mod 4 = 0 → Z.ldiff x 3 = x.
Proof.
  intros Hx. change 3 with (Z.ones 2). rewrite Z.ldiff_ones_r by lia.
  rewrite Z.shiftr_div_pow2, Z.shiftl_mul_pow2 by lia.
  change (2 ^ 2) with 4. Z.div_mod_to_equations; lia.
Qed.

(** The static variables of the kernel. *)
Definition statics (s : kstate) :=
  (ram_regions s, ram_regions_index s, physical_bitmap_ s, clint_addr s, present_timer s, shutdown_ptr s, reboot_ptr s, uart_base s).

(** The registers after [riscv_switch_to_supervisor]. *)
Definition supervisor_entry `{Platform} (jump_addr : Z) (s s' : kstate) : Prop :=
  k_mode s' = RISCV_PRIV_LVL_SUPERVISOR ∧ k_pc s' = jump_addr ∧
  k_mem s' = k_mem s ∧ statics s' = statics s ∧
  (* interrupts: masked in both modes as the mode before had them *)
  get_field mstatus_32 "machine_interrupt_enable" (k_csr s' mstatus) = 0 ∧
  get_field mstatus_32 "supervisor_interrupt_enable" (k_csr s' mstatus) =
    get_field mstatus_32 "supervisor_interrupt_enable" (k_csr s mstatus) ∧
  get_field mstatus_32 "machine_prev_privilege" (k_csr s' mstatus) = 0 ∧
  k_csr s' satp = 0 ∧ k_csr s' stvec = s_mode_handle_addr ∧
  (∀ a, is_u32 a → pmp0_grants (k_csr s' pmpcfg0) (k_csr s' pmpaddr0) a = true) ∧
  k_csr s' medeleg = RISCV_ALL_INTR_SOURCES_ON ∧
  k_csr s' mideleg = RISCV_ALL_INTR_SOURCES_ON ∧
  k_csr s' mtvec = k_csr s mtvec ∧ k_csr s' mie = k_csr s mie.

(** The word that the switch writes to mstatus. *)
Definition switch_mstatus (raw : Z) : Z :=
  put_field mstatus_32 "machine_interrupt_enable" 0
    (put_field mstatus_32 "machine_prev_interrupt_enable" 0
      (put_field mstatus_32 "machine_prev_privilege" 1 raw)).

Definition mstatus_get_put name name' v raw lo w :=
  get_put_field mstatus_32 name name' v raw lo w mstatus_32_wf.

(** Reads of mstatus fields after writes of mstatus fields. *)
Ltac mstatus_fields :=
  repeat (erewrite mstatus_get_put; [|reflexivity|lia]; cbn [String.eqb Ascii.eqb Bool.eqb andb]).

Lemma switch_mstatus_fields raw :
  get_field mstatus_32 "machine_prev_privilege" (switch_mstatus raw) = 1 ∧
  get_field mstatus_32 "machine_prev_interrupt_enable" (switch_mstatus raw) = 0 ∧
  get_field mstatus_32 "supervisor_interrupt_enable" (switch_mstatus raw) =
    get_field mstatus_32 "supervisor_interrupt_enable" raw.
Proof. unfold switch_mstatus. split_and!; by mstatus_fields. Qed.

Lemma mret_switch_mstatus raw :
  let raw' := mret_mstatus RISCV_PRIV_LVL_SUPERVISOR (switch_mstatus raw) in
  get_field mstatus_32 "machine_interrupt_enable" raw' = 0 ∧
  get_field mstatus_32 "supervisor_interrupt_enable" raw' =
    get_field mstatus_32 "supervisor_interrupt_enable" raw ∧
  get_field mstatus_32 "machine_prev_privilege" raw' = 0.
Proof.
  destruct (switch_mstatus_fields raw) as (_ & Hi & Hs). cbv zeta.
  unfold mret_mstatus. rewrite Hi. rewrite decide_False by done.
  split_and!; mstatus_fields; done.
Qed.

Lemma riscv_switch_to_supervisor_ok `{Platform} jump_addr s :
  is_u32 (k_csr s mstatus) → is_u32 jump_addr → Z.even jump_addr = true →
  is_u32 s_mode_handle_addr →
  ∃ s', riscv_switch_to_supervisor jump_addr s = Entered s' ∧ supervisor_entry jump_addr s s'.
Proof.
  intros Hm Hj He Ha. unfold riscv_switch_to_supervisor, READ_CSR.
  rewrite bind_gets. cbv zeta. rewrite !bind_write_csr, bind_modify, !bind_write_csr.
  destruct s as [m c mo pc tr ti el tc rr ri bm ca pt sp rp ub].
  cbn [k_csr set_csr set_csrs add_event] in *.
  change (privilege_code RISCV_PRIV_LVL_SUPERVISOR) with 1. fold (switch_mstatus (c mstatus)).
  assert (is_u32 (switch_mstatus (c mstatus))) as Hu by (unfold switch_mstatus; auto with kernel).
  rewrite (u32_small (switch_mstatus _)), (u32_small jump_addr), (u32_small s_mode_handle_addr)
    by done.
  destruct (switch_mstatus_fields (c mstatus)) as (Hp & _).
  destruct (mret_switch_mstatus (c mstatus)) as (H1 & H2 & H3).
  match goal with |- context [(mret_instr ≫= _) ?s] => set (s1 := s) end.
  eexists. split.
  - unfold mret_instr, mbind, K_bind.
    change (k_csr s1 mstatus) with (switch_mstatus (c mstatus)). rewrite Hp. reflexivity.
  - unfold supervisor_entry. split_and!; try done.
    + apply ldiff_even; done.
    + intros a Hb. unfold is_u32 in Hb.
      match goal with |- ?g = true => change g with ((1 =? 1) && (a <? 4 * (2 ^ 32 - 1)) && (7 =? 7)) end.
      destruct (Z.ltb_spec a (4 * (2 ^ 32 - 1))); [done|lia].
Qed.

(** C35: The switch to supervisor mode always leaves machine mode: the hart runs at
    the given address in supervisor mode with machine interrupts masked, paging
    off, all of memory granted by the PMP, the supervisor trap vector pointing at
    [s_mode_handle], and memory and static variables as they were; mtvec and mie are
    not touched. *)
Theorem riscv_switch_to_supervisor_spec `{Platform} jump_addr s :
  is_u32 (k_csr s mstatus) → is_u32 jump_addr → Z.even jump_addr = true →
  is_u32 s_mode_handle_addr →
  ∃ s', riscv_switch_to_supervisor jump_addr s = Entered s' ∧ supervisor_entry jump_addr s s'.
Proof. apply riscv_switch_to_supervisor_ok. Qed.

Lemma riscv_switch_to_supervisor_spec_witness :
  ∃ s', @riscv_switch_to_supervisor qemu_virt 0x80000600 (boot_state ∅) = Entered s' ∧
    k_mode s' = RISCV_PRIV_LVL_SUPERVISOR ∧ k_pc s' = 0x80000600.
Proof.
  destruct (@riscv_switch_to_supervisor_spec qemu_virt 0x80000600 (boot_state ∅)) as (s' & E & Hm & Hp & _);
    [unfold is_u32; simpl; lia|unfold is_u32; lia|reflexivity|unfold is_u32; simpl; lia|].
  exists s'. split_and!; assumption.
Defined.

(** C4: Where an exception goes that is raised in supervisor mode right after the switch, for a
    jump address that is even and an [s_mode_handle] on a word boundary.  medeleg is loaded
    with a mask of interrupt sources, so of the synchronous causes (a call from machine mode
    apart) only 1, 3, 5, 7 and 9 reach [s_mode_handle]; all others, illegal instructions
    among them, go to machine mode, at the address in an mtvec that the kernel never
    writes. *)
Theorem exceptions_after_switch `{Platform} jump_addr s e tval :
  is_u32 (k_csr s mstatus) → is_u32 jump_addr → Z.even jump_addr = true →
  is_u32 s_mode_handle_addr → s_mode_handle_addr mod 4 = 0 →
  is_interrupt e = false → e ≠ MCAUSE_ECALL_FROM_MACHINE →
  ∃ s', riscv_switch_to_supervisor jump_addr s = Entered s' ∧
    let t := take_exception (mcause_value e) tval s' in
    if decide (e ∈ [MCAUSE_INSTRUCTION_ACCESS_FAULT; MCAUSE_BREAKPOINT; MCAUSE_LOAD_ACCESS_FAULT;
                    MCAUSE_STORE_ACCESS_FAULT; MCAUSE_ECALL_FROM_SUPERVISOR])
    then k_mode t = RISCV_PRIV_LVL_SUPERVISOR ∧ k_pc t = s_mode_handle_addr ∧
         k_csr t scause = mcause_value e ∧ k_csr t sepc = jump_addr ∧ k_csr t stval = tval
    else k_mode t = RISCV_PRIV_LVL_MACHINE ∧ k_pc t = Z.ldiff (k_csr s mtvec) 3 ∧
         k_csr t mcause = mcause_value e ∧ k_csr t mepc = jump_addr ∧ k_csr t mtval = tval.
Proof.
  intros Hm Hj He Ha H4 Hi Hne.
  destruct (riscv_switch_to_supervisor_ok jump_addr s Hm Hj He Ha) as (s' & E & Hs').
  exists s'. split; [done|]. cbv zeta.
  destruct Hs' as (Hmode & Hpc & _ & _ & _ & _ & _ & _ & Hst & _ & Hmd & _ & Hmt & _).
  rewrite <- Hpc, <- Hmt. rewrite <- (ldiff_mult4 _ H4), <- Hst.
  unfold take_exception. rewrite Hmode, Hmd. rewrite bool_decide_true by done.
  destruct s' as [].
  destruct e; try (discriminate Hi || congruence); split_and!; reflexivity.
Qed.

Lemma exceptions_after_switch_witness :
  ∃ s', @riscv_switch_to_supervisor qemu_virt 0x80000600 (boot_state ∅) = Entered s' ∧
    let t := take_exception (mcause_value MCAUSE_ILLEGAL_INSTRUCTION) 0 s' in
    k_mode t = RISCV_PRIV_LVL_MACHINE ∧ k_pc t = 0.
Proof.
  destruct (@exceptions_after_switch qemu_virt 0x80000600 (boot_state ∅) MCAUSE_ILLEGAL_INSTRUCTION 0)
    as (s' & E & H);
    [unfold is_u32; simpl; lia|unfold is_u32; lia|reflexivity|unfold is_u32; simpl; lia|
     reflexivity|reflexivity|discriminate|].
  exists s'. split; [exact E|]. split; apply H.
Defined.

(* ------------------------------------------------------------------ *)
(** * The interrupt controller *)

Section controller.
Context `{Platform}.

Lemma discover_clint_result tree s r s' :
  discover_clint tree s = Ret r s' → r = 0 ∨ r = -1 ∨ r = -2.
Proof.
  unfold discover_clint. intros E.
  apply bind_inv in E as (node & s1 & _ & E). destruct (0 <? node).
  - apply bind_inv in E as ([[res start] ?] & s2 & _ & E). rewrite bind_modify in E.
    destruct (negb (res =? 0)); [injection E; lia|].
    rewrite bind_gets in E. apply bind_inv in E as (n & s3 & _ & E). injection E. lia.
  - injection E. lia.
Qed.

(** The interrupt controller is initialised or the kernel stops: when the CLINT
    is found, [present_timer] points at its mtime and at the mtimecmp entry of this
    hart; in every other case the hart is parked with interrupts masked. *)
Theorem init_interrupt_controller_spec tree s r s1 :
  discover_clint tree s = Ret r s1 →
  (r = 0 ∧ ∃ t, init_interrupt_controller tree s =
     Ret tt (extend t (set_timer
       (RiscvTimer (u32 (clint_addr s1 + 0xBFF8))
          (u32 (clint_addr s1 + 0x4000 + 8 * k_csr s1 mhartid))) s1))) ∨
  (r ≠ 0 ∧ ∃ s', init_interrupt_controller tree s = Halted s' ∧
     Z.testbit (k_csr s' mstatus) 3 = false).
Proof.
  intros E. unfold init_interrupt_controller. rewrite (bind_ret _ _ _ _ _ E).
  destruct (discover_clint_result _ _ _ _ E) as [->|[->| ->]].
  - left. split; [done|]. change (0 =? 0) with true. cbv iota.
    rewrite (bind_ret _ _ s1 (RiscvTimer (u32 (clint_addr s1 + 0xBFF8))
          (u32 (clint_addr s1 + 0x4000 + 8 * k_csr s1 mhartid))) s1) by (by destruct s1).
    rewrite bind_modify. do 2 step_printf. rewrite extend_extend. by eexists.
  - right. split; [done|].
    destruct (panic_halts (A := unit) "No CLINT node in Device Tree found" [] s1 _
      ltac:(vm_compute; reflexivity)) as [t Ht].
    eexists. split; [exact Ht|]. apply mask_interrupts_bit.
  - right. split; [done|].
    destruct (panic_halts (A := unit) "CLINT node is present but not valid" [] s1 _
      ltac:(vm_compute; reflexivity)) as [t Ht].
    eexists. split; [exact Ht|]. apply mask_interrupts_bit.
Qed.
End controller.

Lemma init_interrupt_controller_spec_witness :
  let s := boot_state (tree_mem sample_tree) in
  ∃ s1 t, @discover_clint qemu_literals tree_addr s = Ret 0 s1 ∧ clint_addr s1 = 0x2000000 ∧
    @init_interrupt_controller qemu_literals tree_addr s =
      Ret tt (extend t (set_timer (RiscvTimer 0x200BFF8 0x2004000) s1)).
Proof.
  set (s := boot_state (tree_mem sample_tree)).
  set (s1 := final s (@discover_clint qemu_literals tree_addr s)).
  assert (@discover_clint qemu_literals tree_addr s = Ret 0 s1) as E by (vm_compute; reflexivity).
  destruct (@init_interrupt_controller_spec qemu_literals tree_addr s 0 s1 E) as [[_ [t Ht]]|[Hr _]];
    [|congruence].
  exists s1, t. split; [exact E|]. split; [vm_compute; reflexivity|].
  assert (RiscvTimer (u32 (clint_addr s1 + 0xBFF8)) (u32 (clint_addr s1 + 0x4000 + 8 * k_csr s1 mhartid))
          = RiscvTimer 0x200BFF8 0x2004000) as <- by (vm_compute; reflexivity).
  exact Ht.
Defined.
