(* ===== verification/Timer.v ===== *)
(** src/riscv/timer.c: [timer_sleep] on the two halves of the CLINT's 64-bit
    registers.  The real-time counter keeps running: it advances before each read
    by the amounts listed in [k_elapse]. *)
From S2P Require Import Prelude Machine Console.
From stdpp Require Import base list gmap.
From Stdlib Require Import ZArith Lia.
#[local] Open Scope Z_scope.

Section with_platform.
Context `{Platform}.

(** Where the board has the counter and the comparator of this hart. *)
Definition hw_mtime : Z := hw_clint + 0xBFF8.
Definition hw_mtimecmp (s : kstate) : Z := hw_clint + 0x4000 + 8 * k_csr s mhartid.
Definition is_clint (a : Z) : bool := (hw_clint <=? a) && (a <? hw_clint + 0xC000).

(** A volatile word load: from a half of the counter, or from memory. *)
Definition volatile_load32 (a : Z) : K Z := fun s =>
  if is_clint a then
    let t := u64 (k_time s + hd 0 (k_elapse s)) in
    let s := set_clock t (tl (k_elapse s)) s in
    if a =? hw_mtime then Ret (u32 t) s
    else if a =? hw_mtime + 4 then Ret (Z.shiftr t 32) s
    else Ret 0 s
  else reading (fun m => load32 m a) s.

(** A volatile word store: to a half of this hart's comparator, or to memory. *)
Definition volatile_store32 (a v : Z) : K unit := fun s =>
  if is_clint a then
    let s := add_event (Mmio32 a (u32 v)) s in
    if a =? hw_mtimecmp s then Ret tt (set_timecmp (2 ^ 32 * Z.shiftr (k_timecmp s) 32 + u32 v) s)
    else if a =? hw_mtimecmp s + 4 then Ret tt (set_timecmp (2 ^ 32 * u32 v + u32 (k_timecmp s)) s)
    else Ret tt s
  else writing (fun m => m ← store32 m a v; Ok (tt, m)) s.

(** The timer interrupt of this hart is pending. *)
Definition timer_pending (s : kstate) : bool := k_timecmp s <=? k_time s.

Definition timer_sleep (cycles : Z) : K unit :=
  t ← gets present_timer;
  lower_mtime ← volatile_load32 (mtime t);
  higher_mtime ← volatile_load32 (u32 (mtime t + 4));
  let new_mtimecmp_lo := u32 (lower_mtime + cycles) in
  let higher_mtime := if new_mtimecmp_lo <? lower_mtime then u32 (higher_mtime + 1)
                      else higher_mtime in
  volatile_store32 (mtimecmp t) new_mtimecmp_lo;;
  volatile_store32 (u32 (mtimecmp t + 4)) higher_mtime.
End with_platform.

(* ------------------------------------------------------------------ *)
(** * Lemmas *)

(** Adding to a 64-bit value by halves with the carry passed by hand. *)
Lemma add_by_halves lo hi c :
  is_u32 lo → is_u32 hi → is_u32 c →
  2 ^ 32 * (if u32 (lo + c) <? lo then u32 (hi + 1) else hi) + u32 (lo + c) =
  u64 (lo + c + 2 ^ 32 * hi).
Proof.
  unfold is_u32. intros. unfold u64, wrap.
  destruct (u32_wrap_once (lo + c)) as [[? ->]|[? ->]]; [lia|..].
  - destruct (Z.ltb_spec (lo + c) lo); [lia|]. rewrite Z.mod_small; lia.
  - destruct (Z.ltb_spec (lo + c - 2 ^ 32) lo); [|lia].
    destruct (u32_wrap_once (hi + 1)) as [[? ->]|[? ->]]; [lia|..].
    + rewrite Z.mod_small; lia.
    + replace (lo + c + 2 ^ 32 * hi) with (lo + c - 2 ^ 32 + 1 * 2 ^ 64) by lia.
      rewrite Z_mod_plus_full, Z.mod_small; lia.
Qed.

Lemma u64_range x : 0 <= u64 x < 2 ^ 64.
Proof. unfold u64, wrap. apply Z.mod_pos_bound. lia. Qed.

Lemma shiftr_u64 x : is_u32 (Z.shiftr (u64 x) 32).
Proof.
  pose proof (u64_range x). rewrite Z.shiftr_div_pow2 by lia. unfold is_u32.
  Z.div_mod_to_equations; lia.
Qed.

Lemma u64_halves x : u64 x = u32 (u64 x) + 2 ^ 32 * Z.shiftr (u64 x) 32.
Proof.
  rewrite Z.shiftr_div_pow2 by lia. unfold u32, wrap.
  pose proof (Z.div_mod (u64 x) (2 ^ 32)). lia.
Qed.

Lemma low_half x v : is_u32 v → u32 (2 ^ 32 * x + v) = v.
Proof.
  unfold is_u32. intros. unfold u32, wrap.
  rewrite Z.add_comm, Z.mul_comm, Z_mod_plus_full. by apply Z.mod_small.
Qed.

Section timer.
Context `{Platform}.

(** The timer is the CLINT of the board, within the address space. *)
Definition timer_ready (s : kstate) : Prop :=
  0 <= hw_clint ∧ hw_clint + 0xC000 <= 2 ^ 32 ∧ 0 <= k_csr s mhartid < 4095 ∧
  present_timer s = RiscvTimer hw_mtime (hw_mtimecmp s).

(** The counter at the first and at the second read. *)
Definition first_read (s : kstate) : Z := u64 (k_time s + hd 0 (k_elapse s)).
Definition second_read (s : kstate) : Z := u64 (first_read s + hd 0 (tl (k_elapse s))).

Lemma is_clint_in a : hw_clint <= a < hw_clint + 0xC000 → is_clint a = true.
Proof. intros. unfold is_clint. rewrite (proj2 (Z.leb_le _ _)), (proj2 (Z.ltb_lt _ _)) by lia. done. Qed.

(** The four accesses of [timer_sleep]. *)
Section accesses.
Context (s : kstate) (v : Z).
Let t := u64 (k_time s + hd 0 (k_elapse s)).

Lemma load_mtime_low : volatile_load32 hw_mtime s = Ret (u32 t) (set_clock t (tl (k_elapse s)) s).
Proof.
  unfold volatile_load32. rewrite is_clint_in by (unfold hw_mtime; lia). by rewrite Z.eqb_refl.
Qed.

Lemma load_mtime_high :
  volatile_load32 (hw_mtime + 4) s = Ret (Z.shiftr t 32) (set_clock t (tl (k_elapse s)) s).
Proof.
  unfold volatile_load32. rewrite is_clint_in by (unfold hw_mtime; lia).
  destruct (Z.eqb_spec (hw_mtime + 4) hw_mtime); [lia|]. by rewrite Z.eqb_refl.
Qed.

Lemma store_mtimecmp_low :
  0 <= k_csr s mhartid < 4095 →
  volatile_store32 (hw_mtimecmp s) v s =
    Ret tt (set_timecmp (2 ^ 32 * Z.shiftr (k_timecmp s) 32 + u32 v)
             (add_event (Mmio32 (hw_mtimecmp s) (u32 v)) s)).
Proof.
  intros Hh. unfold volatile_store32. rewrite is_clint_in by (unfold hw_mtimecmp; lia).
  destruct s. cbn -[u32]. by rewrite Z.eqb_refl.
Qed.

Lemma store_mtimecmp_high :
  0 <= k_csr s mhartid < 4095 →
  volatile_store32 (hw_mtimecmp s + 4) v s =
    Ret tt (set_timecmp (2 ^ 32 * u32 v + u32 (k_timecmp s))
             (add_event (Mmio32 (hw_mtimecmp s + 4) (u32 v)) s)).
Proof.
  intros Hh. unfold volatile_store32. rewrite is_clint_in by (unfold hw_mtimecmp; lia).
  destruct s as [m c]. unfold hw_mtimecmp. cbn -[u32].
  destruct (Z.eqb_spec (hw_clint + 16384 + 8 * c mhartid + 4) (hw_clint + 16384 + 8 * c mhartid)); [lia|].
  by rewrite Z.eqb_refl.
Qed.
End accesses.

Lemma timer_sleep_deadline cycles s :
  timer_ready s → is_u32 cycles →
  ∃ s', timer_sleep cycles s = Ret tt s' ∧
    k_timecmp s' = u64 (u32 (first_read s) + cycles + 2 ^ 32 * Z.shiftr (second_read s) 32) ∧
    k_time s' = second_read s ∧ k_mem s' = k_mem s ∧
    k_trace s' = Mmio32 (hw_mtimecmp s + 4) (Z.shiftr (k_timecmp s') 32) :: Mmio32 (hw_mtimecmp s) (u32 (k_timecmp s')) :: k_trace s.
Proof.
  intros (H0 & H1 & Hh & Ht) Hc. unfold timer_sleep. rewrite bind_gets, Ht. cbn [mtime mtimecmp].
  rewrite !u32_small with (x := hw_mtime + 4) by (unfold hw_mtime, is_u32; lia).
  rewrite !u32_small with (x := hw_mtimecmp s + 4) by (unfold hw_mtimecmp, is_u32; lia).
  rewrite (bind_ret _ _ _ _ _ (load_mtime_low s)). fold (first_read s).
  set (s1 := set_clock (first_read s) (tl (k_elapse s)) s).
  rewrite (bind_ret _ _ _ _ _ (load_mtime_high s1)).
  replace (u64 (k_time s1 + hd 0 (k_elapse s1))) with (second_read s) by (by destruct s).
  set (s2 := set_clock (second_read s) (tl (k_elapse s1)) s1).
  replace (hw_mtimecmp s) with (hw_mtimecmp s2) by (by destruct s).
  assert (0 <= k_csr s2 mhartid < 4095) as Hh2 by (by destruct s).
  rewrite (bind_ret _ _ _ _ _ (store_mtimecmp_low s2 _ Hh2)).
  set (new_lo := u32 (u32 (first_read s) + cycles)).
  set (s3 := set_timecmp _ _).
  replace (hw_mtimecmp s2) with (hw_mtimecmp s3) by (by destruct s).
  rewrite store_mtimecmp_high by (by destruct s).
  set (hi := Z.shiftr _ 32). assert (is_u32 hi) as Hhi by apply shiftr_u64.
  set (new_hi := if new_lo <? u32 (first_read s) then u32 (hi + 1) else hi).
  assert (is_u32 new_hi) as Hnh by (unfold new_hi; case_match; [apply u32_range|done]).
  eexists. split; [reflexivity|].
  assert (∀ s4, k_timecmp s4 = 2 ^ 32 * new_hi + new_lo →
    k_timecmp s4 = u64 (u32 (first_read s) + cycles + 2 ^ 32 * hi) ∧
    Z.shiftr (k_timecmp s4) 32 = new_hi ∧ u32 (k_timecmp s4) = new_lo) as Hd.
  { intros s4 ->. split; [unfold new_lo, new_hi; rewrite <- add_by_halves by (auto with kernel); done|].
    pose proof (u32_range (u32 (first_read s) + cycles)) as Hlo. fold new_lo in Hlo. split; [|by apply low_half].
    rewrite Z.shiftr_div_pow2 by lia. unfold is_u32 in Hlo. Z.div_mod_to_equations; lia. }
  set (s4 := set_timecmp _ _). destruct (Hd s4) as (Hd1 & Hd2 & Hd3).
  - unfold s4, s3. destruct s. cbn -[u32 second_read Z.shiftr new_lo Z.mul Z.add new_hi].
    rewrite (u32_small new_lo), (u32_small new_hi) by (done || apply u32_range). by rewrite low_half by apply u32_range.
  - rewrite Hd2, Hd3. split_and!; [done|by destruct s..|]. rewrite <- (u32_small new_lo), <- (u32_small new_hi) by (done || apply u32_range). by destruct s.
Qed.
(* ------------------------------------------------------------------ *)
(** * Properties *)

(** C40: [timer_sleep], for an argument in cycles of the counter (timer.h:9 calls it
    milliseconds, but nothing converts it).  When the low half of the counter does not
    wrap between the two reads, it sets the comparator to the time of the first read plus
    that number, carry included, by storing first its low and then its high half.  When
    both are stored the timer interrupt is pending exactly if that many cycles have passed
    since the first read.  Between the two stores the comparator has its old high and its
    new low half, and the interrupt may be pending early. *)
Theorem timer_sleep_spec cycles s :
  timer_ready s → is_u32 cycles → first_read s + cycles < 2 ^ 64 →
  Z.shiftr (second_read s) 32 = Z.shiftr (first_read s) 32 →
  ∃ s', timer_sleep cycles s = Ret tt s' ∧
    k_timecmp s' = first_read s + cycles ∧ k_mem s' = k_mem s ∧
    k_trace s' = Mmio32 (hw_mtimecmp s + 4) (Z.shiftr (first_read s + cycles) 32) ::
      Mmio32 (hw_mtimecmp s) (u32 (first_read s + cycles)) :: k_trace s ∧
    (timer_pending s' = true ↔ first_read s + cycles <= second_read s).
Proof.
  intros Ht Hc Hlt Hhi. destruct (timer_sleep_deadline cycles s Ht Hc) as (s' & E & Hcmp & Htm & Hmem & Htr).
  exists s'. rewrite Hhi in Hcmp.
  assert (k_timecmp s' = first_read s + cycles) as Hv.
  { rewrite Hcmp. pose proof (u64_halves (k_time s + hd 0 (k_elapse s))) as Hu. fold (first_read s) in Hu.
    pose proof (u64_range (k_time s + hd 0 (k_elapse s))) as Hr. fold (first_read s) in Hr.
    unfold is_u32 in Hc. unfold u64 at 1, wrap. rewrite Z.mod_small; lia. }
  rewrite <- Hv at 2 3. split_and!; [done..|]. unfold timer_pending. rewrite Hv, Htm. apply Z.leb_le.
Qed.

(** The two reads are not one: if the low half of the counter wraps between
    them, the comparator ends up [2^32] cycles later than asked for. *)
Theorem timer_sleep_torn_read cycles s :
  timer_ready s → is_u32 cycles → first_read s + cycles + 2 ^ 32 < 2 ^ 64 →
  Z.shiftr (second_read s) 32 = Z.shiftr (first_read s) 32 + 1 →
  ∃ s', timer_sleep cycles s = Ret tt s' ∧
    k_timecmp s' = first_read s + cycles + 2 ^ 32 ∧ k_time s' = second_read s.
Proof.
  intros Ht Hc Hlt Hhi. destruct (timer_sleep_deadline cycles s Ht Hc) as (s' & E & Hcmp & Htm & Hmem & Htr).
  exists s'. split_and!; [done| |done]. rewrite Hcmp, Hhi.
  pose proof (u64_halves (k_time s + hd 0 (k_elapse s))) as Hu. fold (first_read s) in Hu.
  pose proof (u64_range (k_time s + hd 0 (k_elapse s))) as Hr. fold (first_read s) in Hr.
  unfold is_u32 in Hc. unfold u64 at 1, wrap. rewrite Z.mod_small; lia.
Qed.
End timer.

(** The timer of hart 0 as the boot sets it, at time [t]. *)
Definition timer_state (t : Z) (elapse : list Z) : kstate :=
  set_clock t elapse (set_timer (RiscvTimer 0x200BFF8 0x2004000) (boot_state ∅)).

Lemma timer_sleep_spec_witness :
  ∃ s', @timer_sleep qemu_virt 1000 (timer_state 0x1fffffff0 [3; 5]) = Ret tt s' ∧
    k_timecmp s' = 0x1fffffff3 + 1000.
Proof.
  destruct (@timer_sleep_spec qemu_virt 1000 (timer_state 0x1fffffff0 [3; 5])) as (s' & E & Hc & _);
    [|unfold is_u32; lia|vm_compute; reflexivity|vm_compute; reflexivity|].
  { split; [discriminate|]. split; [discriminate|]. split; [vm_compute; intuition congruence|reflexivity]. }
  exists s'. split; [exact E|exact Hc].
Defined.

Lemma timer_sleep_torn_read_witness :
  ∃ s', @timer_sleep qemu_virt 1000 (timer_state 0x1fffffff0 [3; 50]) = Ret tt s' ∧
    k_timecmp s' = 0x1fffffff3 + 1000 + 2 ^ 32.
Proof.
  destruct (@timer_sleep_torn_read qemu_virt 1000 (timer_state 0x1fffffff0 [3; 50])) as (s' & E & Hc & _);
    [|unfold is_u32; lia|vm_compute; reflexivity|vm_compute; reflexivity|].
  { split; [discriminate|]. split; [discriminate|]. split; [vm_compute; intuition congruence|reflexivity]. }
  exists s'. split; [exact E|exact Hc].
Defined.
