(* ===== verification/ContextSwitch.v ===== *)
(** src/riscv/context_switch: the saved context of a kernel thread (context.h) and
    the assembly routine that switches between two of them (switch_context.asm). *)
From S2P Require Import Prelude Machine.
From stdpp Require Import base list gmap.
From Stdlib Require Import ZArith Lia.
#[local] Open Scope Z_scope.

(** The integer registers the routine names. *)
Inductive reg : Type :=
| ra | sp | s0 | s1 | s2 | s3 | s4 | s5 | s6 | s7 | s8 | s9 | s10 | s11 | a0 | a1.

#[export] Instance reg_eq_dec : EqDecision reg.
Proof. solve_decision. Defined.

(** [struct per_process_kern_context]: its members in order, one word each. *)
Definition per_process_kern_context : list reg :=
  [ra; sp; s0; s1; s2; s3; s4; s5; s6; s7; s8; s9; s10; s11].

Definition context_size : Z := 4 * Z.of_nat (length per_process_kern_context).

Definition regfile : Type := reg → Z.
Definition set_reg (r : reg) (v : Z) (f : regfile) : regfile :=
  fun r' => if decide (r' = r) then v else f r'.

(** The macros, instruction by instruction: the register and its offset. *)
Definition ctx_slots : list (reg * Z) :=
  [(ra, 0); (sp, 4); (s0, 8); (s1, 12); (s2, 16); (s3, 20); (s4, 24); (s5, 28);
   (s6, 32); (s7, 36); (s8, 40); (s9, 44); (s10, 48); (s11, 52)].

Fixpoint save_slots (slots : list (reg * Z)) (base : reg) (f : regfile) (m : mem) : res mem :=
  match slots with
  | [] => Ok m
  | (r, off) :: slots' => m ← store32 m (u32 (f base + off)) (f r); save_slots slots' base f m
  end.

Fixpoint load_slots (slots : list (reg * Z)) (base : reg) (f : regfile) (m : mem) : res regfile :=
  match slots with
  | [] => Ok f
  | (r, off) :: slots' =>
      v ← load32 m (u32 (f base + off)); load_slots slots' base (set_reg r v f) m
  end.

Definition ctx_save (base : reg) (f : regfile) (m : mem) : res mem := save_slots ctx_slots base f m.
Definition ctx_load (base : reg) (f : regfile) (m : mem) : res regfile :=
  load_slots ctx_slots base f m.

(** [switch_context(prev, next)]: the registers and memory afterwards, and the
    address where [ret] continues. *)
Definition switch_context (f : regfile) (m : mem) : res (regfile * mem * Z) :=
  m ← ctx_save a0 f m;
  f ← ctx_load a1 f m;
  Ok (f, m, f ra).

(** The values of the saved registers as memory has them at [p]. *)
Definition stored_context (m : mem) (p : Z) (f : regfile) : Prop :=
  ∀ i r, per_process_kern_context !! i = Some r → load32 m (p + 4 * Z.of_nat i) = Ok (f r).

(** A context structure in memory. *)
Definition context_at (m : mem) (p : Z) : Prop :=
  0 <= p ∧ p + context_size <= 2 ^ 32 ∧ p mod 4 = 0 ∧ mapped m p context_size.

Definition u32_regs (f : regfile) : Prop := ∀ r, is_u32 (f r).

(* ------------------------------------------------------------------ *)
(** * Lemmas *)

(** The offsets of the assembly are those of the structure's members. *)
Lemma ctx_slots_layout :
  ctx_slots = imap (fun i r => (r, 4 * Z.of_nat i)) per_process_kern_context.
Proof. reflexivity. Qed.

Lemma ctx_slots_nodup : NoDup per_process_kern_context.
Proof. by apply (bool_decide_unpack _). Qed.

(** Slots inside a context: word-aligned offsets, no two of them the same. *)
Definition slots_ok (slots : list (reg * Z)) : Prop :=
  Forall (fun so => 0 <= so.2 ∧ so.2 + 4 <= context_size ∧ so.2 mod 4 = 0) slots ∧
  NoDup (map snd slots).

Lemma ctx_slots_ok : slots_ok ctx_slots.
Proof.
  split; [|by apply (bool_decide_unpack _)].
  repeat (apply Forall_cons; split; [vm_compute; intuition congruence|]). apply Forall_nil_2.
Qed.

Lemma aligned_apart (p a b : Z) : a mod 4 = 0 → b mod 4 = 0 → a ≠ b → p + a + 4 <= p + b ∨ p + b + 4 <= p + a.
Proof. intros. Z.div_mod_to_equations; lia. Qed.

Lemma slot_address p m off :
  context_at m p → 0 <= off → off + 4 <= context_size → off mod 4 = 0 →
  u32 (p + off) = p + off ∧ (p + off) mod 4 = 0 ∧ mapped m (p + off) 4.
Proof.
  intros (? & ? & Hp & Hm) ?? Ho. split_and!.
  - apply u32_small. unfold is_u32. lia.
  - rewrite Z.add_mod, Hp, Ho by lia. done.
  - intros x Hx. apply Hm. lia.
Qed.

Lemma context_at_mono m m' p :
  (∀ b k, mapped m b k → mapped m' b k) → context_at m p → context_at m' p.
Proof. intros H (? & ? & ? & Hm). split_and!; auto. Qed.

Lemma save_slots_spec slots base f m :
  slots_ok slots → context_at m (f base) → u32_regs f →
  ∃ m', save_slots slots base f m = Ok m' ∧
    same_outside (f base) context_size m m' ∧
    (∀ b k, mapped m b k → mapped m' b k) ∧
    (∀ r off, (r, off) ∈ slots → load32 m' (f base + off) = Ok (f r)) ∧
    (∀ off, off mod 4 = 0 → off ∉ map snd slots →
       load32 m' (f base + off) = load32 m (f base + off)).
Proof.
  intros [Hs Hnd] Hc Hf. revert m Hc. induction slots as [|[r off] slots IH]; intros m Hc.
  { exists m. split_and!; [done|auto with kernel|done|by intros ? ? ?%elem_of_nil|done]. }
  apply Forall_cons in Hs as [(Ho & Ho4 & Hal) Hs]. cbn [map snd] in *.
  apply NoDup_cons in Hnd as [Hnin Hnd].
  destruct (slot_address _ _ off Hc Ho Ho4 Hal) as (Ha & Ham & Hmp).
  destruct (store32_full m (f base + off) (f r) Ham Hmp (Hf r)) as (m1 & E1 & S1 & L1 & M1).
  destruct (IH Hs Hnd m1 (context_at_mono _ _ _ M1 Hc)) as (m' & E & S & M & L & U).
  exists m'. cbn [save_slots]. rewrite Ha, E1. split_and!.
  - exact E.
  - eapply same_outside_trans; [|exact S]. apply (same_outside_weaken _ _ _ _ _ _ S1); lia.
  - auto.
  - intros r' off' [[= -> ->]|Hin]%elem_of_cons; [by rewrite U|by apply L].
  - intros off' Hal' [Hne Hnin']%not_elem_of_cons. rewrite U by done.
    apply (load32_same_outside _ _ _ _ _ S1). by apply aligned_apart.
Qed.

Lemma load_slots_spec slots base f g m :
  (∀ r off, (r, off) ∈ slots → load32 m (u32 (f base + off)) = Ok (g r)) →
  base ∉ map fst slots →
  ∃ f', load_slots slots base f m = Ok f' ∧
    ∀ r, f' r = if decide (r ∈ map fst slots) then g r else f r.
Proof.
  revert f. induction slots as [|[r off] slots IH]; intros f Hl Hb.
  { exists f. split; [done|]. intros r. by rewrite decide_False by apply not_elem_of_nil. }
  cbn [map fst] in *. apply not_elem_of_cons in Hb as [Hne Hb].
  cbn [load_slots]. rewrite (Hl r off) by apply list_elem_of_here. cbn [mbind res_bind].
  destruct (IH (set_reg r (g r) f)) as (f' & E & Hf').
  - intros r' off' Hin. unfold set_reg. rewrite decide_False by done.
    apply Hl. by apply list_elem_of_further.
  - done.
  - exists f'. split; [done|]. intros r'. rewrite Hf'. unfold set_reg.
    destruct (decide (r' = r)) as [->|Hne'].
    + rewrite (decide_True (P := r ∈ r :: map fst slots)) by apply list_elem_of_here.
      by destruct (decide (r ∈ map fst slots)).
    + destruct (decide (r' ∈ map fst slots)) as [Hin|Hnin].
      * by rewrite decide_True by (by apply list_elem_of_further).
      * rewrite decide_False; [done|]. by apply not_elem_of_cons.
Qed.

(** A slot is the word of a member. *)
Lemma slots_of_context r off :
  (r, off) ∈ ctx_slots →
  ∃ i, per_process_kern_context !! i = Some r ∧ off = 4 * Z.of_nat i ∧ off + 4 <= context_size.
Proof.
  rewrite ctx_slots_layout, list_elem_of_lookup. intros [i Hi].
  rewrite list_lookup_imap in Hi. destruct (per_process_kern_context !! i) as [r'|] eqn:E; [|done].
  simpl in Hi. injection Hi as -> <-. exists i. split_and!; [done..|].
  apply lookup_lt_Some in E. unfold context_size. lia.
Qed.

(** A stored context is backed by memory. *)
Lemma slot_cells m p f x : stored_context m p f → p <= x < p + context_size → is_Some (m !! x).
Proof.
  intros Hs Hx. change context_size with 56 in Hx.
  destruct (lookup_lt_is_Some_2 per_process_kern_context (Z.to_nat ((x - p) / 4))) as [r Hr].
  { change (length per_process_kern_context) with 14%nat. Z.div_mod_to_equations; lia. }
  destruct (load32_mapped _ _ _ (Hs _ _ Hr)) as [_ Hm]. apply Hm.
  Z.div_mod_to_equations; lia.
Qed.

Lemma switch_context_ok f m g :
  context_at m (f a0) → context_at m (f a1) → u32_regs f →
  f a0 + context_size <= f a1 ∨ f a1 + context_size <= f a0 →
  stored_context m (f a1) g →
  ∃ f' m', switch_context f m = Ok (f', m', g ra) ∧
    (∀ r, r ∈ per_process_kern_context → f' r = g r) ∧ f' a0 = f a0 ∧ f' a1 = f a1 ∧
    stored_context m' (f a0) f ∧ same_outside (f a0) context_size m m'.
Proof.
  intros Hp Hn Hf Hd Hg. unfold switch_context, ctx_save, ctx_load.
  destruct (save_slots_spec ctx_slots a0 f m ctx_slots_ok Hp Hf) as (m' & E & S & M & L & _).
  rewrite E. cbn [mbind res_bind].
  destruct (load_slots_spec ctx_slots a1 f g m') as (f' & E' & Hf').
  - intros r off Hin.
    destruct (slots_of_context r off Hin) as (i & Hi & -> & Hlt).
    destruct (slot_address _ _ (4 * Z.of_nat i) Hn) as (-> & _ & _);
      [lia|lia|by rewrite Z.mul_comm, Z_mod_mult|].
    rewrite (load32_same_outside m m' _ _ _ S) by lia. by apply Hg.
  - by apply (bool_decide_unpack _).
  - rewrite E'. cbn [mbind res_bind]. exists f', m'.
    assert (∀ r, r ∈ per_process_kern_context → f' r = g r) as Hall.
    { intros r Hr. rewrite Hf'. by rewrite decide_True. }
    split_and!; [by rewrite Hall by (apply (bool_decide_unpack _); done)|done|..].
    + by rewrite Hf'.
    + by rewrite Hf'.
    + intros i r Hr. apply L. rewrite ctx_slots_layout.
      apply list_elem_of_lookup. exists i. by rewrite list_lookup_imap, Hr.
    + done.
Qed.

(** [switch_context(prev, next)] leaves the callee-saved registers of the caller
    in [*prev], writes nothing else, and continues with the registers of [*next] at
    the return address saved there. *)
Theorem switch_context_spec f m g :
  context_at m (f a0) → context_at m (f a1) → u32_regs f →
  f a0 + context_size <= f a1 ∨ f a1 + context_size <= f a0 →
  stored_context m (f a1) g →
  ∃ f' m', switch_context f m = Ok (f', m', g ra) ∧
    (∀ r, r ∈ per_process_kern_context → f' r = g r) ∧ f' a0 = f a0 ∧ f' a1 = f a1 ∧
    stored_context m' (f a0) f ∧ same_outside (f a0) context_size m m'.
Proof. apply switch_context_ok. Qed.

(** C39: Switching away and back resumes the thread: whatever ran in between, if it
    left the saved context alone and switches back to it, then all callee-saved
    registers and the return address are those of the first call. *)
Theorem switch_context_roundtrip f m g f2 m1 m2 f1 pc1 :
  context_at m (f a0) → context_at m (f a1) → u32_regs f → u32_regs f2 →
  f a0 + context_size <= f a1 ∨ f a1 + context_size <= f a0 →
  stored_context m (f a1) g →
  switch_context f m = Ok (f1, m1, pc1) →
  (* the other thread *)
  (∀ x, f a0 <= x < f a0 + context_size → m2 !! x = m1 !! x) →
  f2 a1 = f a0 → context_at m2 (f2 a0) →
  f2 a0 + context_size <= f2 a1 ∨ f2 a1 + context_size <= f2 a0 →
  ∃ f3 m3, switch_context f2 m2 = Ok (f3, m3, f ra) ∧
    ∀ r, r ∈ per_process_kern_context → f3 r = f r.
Proof.
  intros Hp Hn Hf Hf2 Hd Hg E Hm2 Ha1 Hp2 Hd2.
  destruct (switch_context_ok f m g Hp Hn Hf Hd Hg) as (f' & m' & E' & _ & _ & _ & Hs & Hso).
  rewrite E in E'. injection E' as <- <- _.
  assert (mapped m1 (f a0) context_size) as Hmap.
  { intros x Hx. destruct (slot_cells m1 (f a0) f x Hs Hx) as [v Hv]. by exists v. }
  assert (context_at m2 (f2 a1)) as Hn2.
  { rewrite Ha1. destruct Hp as (? & ? & ? & _). split_and!; [done..|].
    intros x Hx. rewrite Hm2 by done. by apply Hmap. }
  destruct (switch_context_ok f2 m2 f Hp2 Hn2 Hf2 Hd2) as (f3 & m3 & E3 & H3 & _).
  - intros i r Hi. rewrite Ha1.
    rewrite (load32_ext m1); [by apply Hs|].
    intros x Hx. apply Hm2. apply lookup_lt_Some in Hi. unfold context_size. lia.
  - by exists f3, m3.
Qed.

(** Two contexts at 0x100 and 0x200, the second one all sevens. *)
Definition two_contexts : mem :=
  map_bytes 0x100 (replicate 56 0) (map_bytes 0x200 (concat (replicate 14 [7; 0; 0; 0])) ∅).
Definition caller (prev next : Z) : regfile :=
  fun r => match r with a0 => prev | a1 => next | ra => 0x80001000 | sp => 0x80008000 | _ => 3 end.

Lemma mapped_seqZ (m : mem) a n :
  forallb (fun x => match m !! x with Some _ => true | None => false end) (seqZ a n) = true →
  mapped m a n.
Proof.
  rewrite forallb_forall. intros H x Hx. specialize (H x).
  destruct (m !! x); [by eexists|]. discriminate H.
  apply list_elem_of_In, elem_of_seqZ. lia.
Qed.

Lemma stored_sevens : stored_context two_contexts 0x200 (fun _ => 7).
Proof.
  intros i r Hi. apply lookup_lt_Some in Hi.
  do 14 (destruct i as [|i]; [vm_compute; reflexivity|]). simpl in Hi. lia.
Qed.

Lemma caller_u32 p n : is_u32 p → is_u32 n → u32_regs (caller p n).
Proof. intros ?? []; unfold is_u32 in *; simpl; lia. Qed.

Lemma switch_context_spec_witness :
  ∃ f' m', switch_context (caller 0x100 0x200) two_contexts = Ok (f', m', 7) ∧ f' sp = 7.
Proof.
  destruct (switch_context_spec (caller 0x100 0x200) two_contexts (fun _ => 7)) as (f' & m' & E & H & _).
  - split_and!; [discriminate|discriminate|reflexivity|apply mapped_seqZ; vm_compute; reflexivity].
  - split_and!; [discriminate|discriminate|reflexivity|apply mapped_seqZ; vm_compute; reflexivity].
  - apply caller_u32; unfold is_u32; lia.
  - left. discriminate.
  - exact stored_sevens.
  - exists f', m'. split; [exact E|]. apply H. right. left.
Defined.

(** What the first switch leaves behind. *)
Definition switched : regfile * mem * Z :=
  match switch_context (caller 0x100 0x200) two_contexts with
  | Ok r => r
  | _ => (caller 0 0, ∅, 0)
  end.

Lemma switch_context_roundtrip_witness :
  ∃ f3 m3, switch_context (caller 0x200 0x100) (switched.1.2) = Ok (f3, m3, 0x80001000) ∧
    f3 sp = 0x80008000.
Proof.
  destruct (switch_context_roundtrip (caller 0x100 0x200) two_contexts (fun _ => 7)
    (caller 0x200 0x100) switched.1.2 switched.1.2 switched.1.1 switched.2) as (f3 & m3 & E & H).
  - split_and!; [discriminate|discriminate|reflexivity|apply mapped_seqZ; vm_compute; reflexivity].
  - split_and!; [discriminate|discriminate|reflexivity|apply mapped_seqZ; vm_compute; reflexivity].
  - apply caller_u32; unfold is_u32; lia.
  - apply caller_u32; unfold is_u32; lia.
  - left. discriminate.
  - exact stored_sevens.
  - vm_compute. reflexivity.
  - intros x _. reflexivity.
  - reflexivity.
  - split_and!; [discriminate|discriminate|reflexivity|apply mapped_seqZ; vm_compute; reflexivity].
  - right. discriminate.
  - exists f3, m3. split; [exact E|]. apply H. right. left.
Defined.
