(* ===== verification/KMain.v ===== *)
(** The boot of the kernel: src/boot/kmain.c, and the check of the ISA extensions
    (src/riscv/extension_check.c). *)
From S2P Require Import Prelude Machine Registers Printf Console SampleTree Memory PhysAlloc Fdt Devices Interrupts.
From stdpp Require Import base list gmap.
From Stdlib Require Import ZArith Lia.
From Stdlib Require String.
#[local] Open Scope Z_scope.

Inductive riscv_extensions : Type :=
| RISCV_EXT_ATOMIC | RISCV_EXT_BIT_MANIPULATION | RISCV_EXT_COMPRESSED | RISCV_EXT_DOUBLE
| RISCV_EXT_LESS_REGS | RISCV_EXT_FLOAT | RISCV_EXT_MUL_DIV | RISCV_EXT_QUAD
| RISCV_EXT_SUPERVISOR_MODE | RISCV_EXT_USER_MODE | RISCV_EXT_VECTOR | RISCV_EXT_NON_STANDARD.

Definition extension_value (e : riscv_extensions) : Z :=
  match e with
  | RISCV_EXT_ATOMIC => Z.shiftl 1 0
  | RISCV_EXT_BIT_MANIPULATION => Z.shiftl 1 1
  | RISCV_EXT_COMPRESSED => Z.shiftl 1 2
  | RISCV_EXT_DOUBLE => Z.shiftl 1 3
  | RISCV_EXT_LESS_REGS => Z.shiftl 1 4
  | RISCV_EXT_FLOAT => Z.shiftl 1 5
  | RISCV_EXT_MUL_DIV => Z.shiftl 1 12
  | RISCV_EXT_QUAD => Z.shiftl 1 16
  | RISCV_EXT_SUPERVISOR_MODE => Z.shiftl 1 18
  | RISCV_EXT_USER_MODE => Z.shiftl 1 20
  | RISCV_EXT_VECTOR => Z.shiftl 1 21
  | RISCV_EXT_NON_STANDARD => Z.shiftl 1 23
  end.

Definition is_extension_implemented (ext : riscv_extensions) : K bool :=
  isa ← READ_CSR misa; mret (negb (Z.land isa (extension_value ext) =? 0)).

Definition ensure_extensions_present (requested_extensions : Z) : K unit :=
  isa ← READ_CSR misa;
  when (negb (Z.land isa requested_extensions =? requested_extensions))
    (KERNEL_PANIC "a required extension is not implemented" []);;
  printf_ (str_nl "[OK] All needed extensions present") [];;
  mret tt.

(** The build has no [__riscv__zbb]. *)
Definition RISCV_OPTIONAL_ZBB : Z := 0.
Definition NECESSARY_RISCV_EXTENSIONS : Z :=
  Z.lor (Z.lor (Z.lor RISCV_OPTIONAL_ZBB (extension_value RISCV_EXT_USER_MODE))
    (extension_value RISCV_EXT_MUL_DIV)) (extension_value RISCV_EXT_SUPERVISOR_MODE).

Section with_platform.
Context `{Platform}.

(** [test]: a message and an instruction that raises an illegal-instruction
    exception. *)
Definition test : K unit :=
  printf_ (str_nl "HELLO FROM SUPERVISOR MODE!!!") [];;
  unimp;;
  unreachable.

Definition kmain (hart_id device_tree : Z) : K unit :=
  if hart_id =? 0 then
    disable_interrupts;;
    printf_ (str_nl "++++++++++++++++++++++++++++") [];;
    ensure_extensions_present NECESSARY_RISCV_EXTENSIONS;;
    setup_interrupt_handler;;
    printf_ (str_nl "[OK] Booting on on hardware thread %i") [VWord hart_id];;
    check_device_tree device_tree;;
    init_interrupt_controller device_tree;;
    detect_memory device_tree;;
    init_phys_allocator;;
    init_power_controller device_tree;;
    riscv_switch_to_supervisor test_addr;;
    printf_ (str_nl "[FINISHED] Nothing to do left: shutting down now") [];;
    shutdown 0
  else halt.
End with_platform.

(* ------------------------------------------------------------------ *)
(** * Quietness *)

Section quiet.
Context `{Platform}.

Lemma quiet_ensure req : quiet (ensure_extensions_present req).
Proof. unfold ensure_extensions_present. quiet. Qed.
#[local] Hint Resolve quiet_ensure : quiet.

End quiet.
#[export] Hint Resolve quiet_ensure : quiet.

Lemma ensure_cases req s :
  (Z.land (k_csr s misa) req = req ∧ ∃ t, ensure_extensions_present req s = Ret tt (extend t s)) ∨
  (Z.land (k_csr s misa) req ≠ req ∧
   ∃ s', ensure_extensions_present req s = Halted s' ∧ Z.testbit (k_csr s' mstatus) 3 = false).
Proof.
  unfold ensure_extensions_present, READ_CSR. rewrite bind_gets.
  destruct (Z.eqb_spec (Z.land (k_csr s misa) req) req) as [E|E]; [left|right]; (split; [done|]).
  - rewrite (bind_ret _ _ s tt s) by done. step_printf. by eexists.
  - destruct (panic_halts (A := unit) "a required extension is not implemented" [] s _
      ltac:(vm_compute; reflexivity)) as [t Ht].
    rewrite (bind_ends _ _ _ _ Ht). eexists. split; [done|apply mask_interrupts_bit].
Qed.

(* ------------------------------------------------------------------ *)
(** * Properties *)

(** The extension check returns exactly when misa has every requested bit;
    otherwise the hart is parked with interrupts masked. [is_extension_implemented]
    tells whether its bit is set. *)
Theorem ensure_extensions_present_spec req s :
  is_u32 req →
  ((∀ i, 0 <= i → Z.testbit req i = true → Z.testbit (k_csr s misa) i = true) →
   ∃ t, ensure_extensions_present req s = Ret tt (extend t s)) ∧
  ((∃ i, 0 <= i ∧ Z.testbit req i = true ∧ Z.testbit (k_csr s misa) i = false) →
   ∃ s', ensure_extensions_present req s = Halted s' ∧ Z.testbit (k_csr s' mstatus) 3 = false) ∧
  (∀ e, is_extension_implemented e s =
        Ret (negb (Z.land (k_csr s misa) (extension_value e) =? 0)) s).
Proof.
  intros Hr. split_and!; [| |done].
  - intros Hall. assert (Z.land (k_csr s misa) req = req) as E.
    { apply Z.bits_inj'. intros i Hi. rewrite Z.land_spec.
      destruct (Z.testbit req i) eqn:E; [by rewrite Hall|by rewrite andb_false_r]. }
    destruct (ensure_cases req s) as [[_ H']|[Hne _]]; done.
  - intros (i & Hi & H1 & H0). destruct (ensure_cases req s) as [[E _]|[_ H']]; [|done].
    rewrite <- E, Z.land_spec, H0 in H1. done.
Qed.

Lemma ensure_extensions_present_spec_witness :
  ∃ s', ensure_extensions_present NECESSARY_RISCV_EXTENSIONS (boot_state ∅) = Halted s' ∧
    Z.testbit (k_csr s' mstatus) 3 = false.
Proof.
  destruct (ensure_extensions_present_spec NECESSARY_RISCV_EXTENSIONS (boot_state ∅)) as (_ & H & _);
    [vm_compute; intuition congruence|].
  apply H. exists 20. split; [discriminate|]. split; reflexivity.
Defined.

Section boot.
Context `{Platform}.

(** Harts other than hart 0 stop at once: interrupts masked, nothing printed,
    no memory or static touched. *)
Theorem kmain_other_harts hart_id tree s :
  hart_id ≠ 0 → kmain hart_id tree s = Halted (mask_interrupts s).
Proof. intros Hh. unfold kmain. destruct (Z.eqb_spec hart_id 0); [done|apply halt_eq]. Qed.

(** What holds when the boot has handed over to supervisor mode. *)
Definition booted (s s' : kstate) : Prop :=
  k_mode s' = RISCV_PRIV_LVL_SUPERVISOR ∧ k_pc s' = test_addr ∧
  get_field mstatus_32 "machine_interrupt_enable" (k_csr s' mstatus) = 0 ∧
  k_csr s' satp = 0 ∧ k_csr s' stvec = s_mode_handle_addr ∧
  k_csr s' mtvec = k_csr s mtvec ∧ k_csr s' mie = 0 ∧
  k_csr s' medeleg = RISCV_ALL_INTR_SOURCES_ON ∧
  Z.land (k_csr s misa) NECESSARY_RISCV_EXTENSIONS = NECESSARY_RISCV_EXTENSIONS.

Lemma disable_ok s :
  is_u32 (k_csr s mstatus) →
  ∃ c t, disable_interrupts s = Ret tt (set_csrs c (extend t s)) ∧
    (∀ r, r ≠ mstatus → c r = k_csr s r) ∧ is_u32 (c mstatus).
Proof.
  intros Hr. eexists _, [_]. split; [by destruct s|]. cbv beta. split.
  - intros r Hne. by rewrite decide_False.
  - rewrite decide_True by done. apply u32_range.
Qed.

Lemma setup_cases s :
  (∃ c t, setup_interrupt_handler s = Ret tt (set_csrs c (extend t s)) ∧
     (∀ r, r ∈ [mideleg; medeleg; mie; mip] → c r = 0) ∧
     (∀ r, r ∉ [mideleg; medeleg; mie; mip] → c r = k_csr s r)) ∨
  (∃ s', setup_interrupt_handler s = Halted s' ∧ Z.testbit (k_csr s' mstatus) 3 = false ∧
     k_mode s' = k_mode s).
Proof.
  destruct (setup_interrupt_handler_ok s) as [H1 H2].
  destruct (decide (ndebug = true ∨ m_mode_handle_addr mod 4 = 0)) as [Hd|Hd]; [by left; apply H1|].
  right. destruct H2 as (s' & E & Hb).
  - by destruct ndebug; [destruct Hd; left|].
  - intros Ha. apply Hd. by right.
  - exists s'. split_and!; [done..|]. revert E. apply setup_mode.
Qed.

(** The outcomes of the boot started in [s], if its loops end. *)
Definition partial_outcome (s : kstate) (o : outcome unit) : Prop :=
  match o with
  | Ret _ _ | Unreachable _ => False
  | Halted s' => Z.testbit (k_csr s' mstatus) 3 = false ∧ k_mode s' = RISCV_PRIV_LVL_MACHINE
  | Entered s' => booted s s'
  | Faulted _ | OutOfFuel => True
  end.

Lemma quiet_then {A} (k : K A) (f : A → K unit) s s1 :
  quiet k → k_mode s1 = RISCV_PRIV_LVL_MACHINE →
  (∀ a s2, k_csr s2 = k_csr s1 → k_mode s2 = RISCV_PRIV_LVL_MACHINE → partial_outcome s (f a s2)) →
  partial_outcome s ((k ≫= f) s1).
Proof.
  intros Hk Hm Hf. specialize (Hk s1). unfold mbind, K_bind.
  destruct (k s1) as [a s2|s2|s2|s2|s2|]; simpl; try done.
  - destruct Hk as [Hc Hm2]. apply Hf; [done|by rewrite Hm2].
  - by rewrite Hm in Hk.
Qed.

Definition boot_tail : K unit :=
  riscv_switch_to_supervisor test_addr;;
  printf_ (str_nl "[FINISHED] Nothing to do left: shutting down now") [];;
  shutdown 0.

Hypothesis Hta : is_u32 test_addr ∧ Z.even test_addr = true ∧ is_u32 s_mode_handle_addr.

Lemma boot_tail_outcome s s1 :
  is_u32 (k_csr s1 mstatus) → k_csr s1 mtvec = k_csr s mtvec → k_csr s1 mie = 0 →
  Z.land (k_csr s misa) NECESSARY_RISCV_EXTENSIONS = NECESSARY_RISCV_EXTENSIONS →
  partial_outcome s (boot_tail s1).
Proof using Hta.
  intros Hs Hv Hi Hx. destruct Hta as (Ht & He & Hh). unfold boot_tail.
  destruct (riscv_switch_to_supervisor_ok test_addr s1 Hs Ht He Hh) as (s' & E & Hs').
  unfold mbind, K_bind. rewrite E. simpl.
  destruct Hs' as (? & ? & ? & ? & ? & ? & ? & ? & ? & ? & ? & ? & ? & ?).
  unfold booted. split_and!; congruence.
Qed.

Lemma kmain_ok tree s :
  is_u32 (k_csr s mstatus) → k_mode s = RISCV_PRIV_LVL_MACHINE →
  partial_outcome s (kmain 0 tree s).
Proof using Hta.
  intros Hs Hm. unfold kmain. change (0 =? 0) with true. cbv iota.
  (* disable_interrupts *)
  destruct (disable_ok s Hs) as (c & t & E & Hc & Hu). rewrite (bind_ret _ _ _ _ _ E).
  apply quiet_then; [quiet|by destruct s|]. intros _ s2 Hc2 Hm2.
  (* ensure_extensions_present *)
  assert (∀ r, r ≠ mstatus → k_csr s2 r = k_csr s r) as Hc2'.
  { intros r Hr. rewrite Hc2, <- (Hc r Hr). by destruct s. }
  assert (is_u32 (k_csr s2 mstatus)) as Hu2 by (rewrite Hc2; by destruct s).
  clear Hc2. destruct (ensure_cases NECESSARY_RISCV_EXTENSIONS s2) as [[Hx [t2 E2]]|[_ (s' & E2 & Hh)]].
  2: { rewrite (bind_ends _ _ _ _ E2). split; [done|].
       pose proof (quiet_ensure NECESSARY_RISCV_EXTENSIONS s2) as Hq. rewrite E2 in Hq.
       destruct Hq as [_ ->]. done. }
  rewrite (bind_ret _ _ _ _ _ E2). rewrite (Hc2' misa) in Hx by done.
  (* setup_interrupt_handler *)
  set (s3 := extend t2 s2).
  assert (∀ r, r ≠ mstatus → k_csr s3 r = k_csr s r) as Hc3 by (by unfold s3; rewrite k_csr_extend).
  assert (is_u32 (k_csr s3 mstatus)) as Hu3 by (by unfold s3; rewrite k_csr_extend).
  assert (k_mode s3 = RISCV_PRIV_LVL_MACHINE) as Hm3 by (by unfold s3; rewrite k_mode_extend).
  clearbody s3. clear E2 Hm2 Hu2 Hc2'.
  destruct (setup_cases s3) as [(c4 & t4 & E4 & Hz & Ho)|(s' & E4 & Hh & Hmm)].
  2: { rewrite (bind_ends _ _ _ _ E4). split; [done|]. congruence. }
  rewrite (bind_ret _ _ _ _ _ E4).
  set (s4 := set_csrs c4 (extend t4 s3)).
  assert (k_csr s4 = c4) as Hc4 by (by destruct s3).
  assert (k_mode s4 = RISCV_PRIV_LVL_MACHINE) as Hm4 by (by destruct s3).
  clearbody s4.
  (* the quiet part *)
  apply quiet_then; [quiet|done|]. intros _ s5 Hc5 Hm5.
  apply quiet_then; [apply quiet_check_device_tree|done|]. intros _ s6 Hc6 Hm6.
  apply quiet_then; [apply quiet_init_interrupt_controller|done|]. intros _ s7 Hc7 Hm7.
  apply quiet_then; [apply quiet_detect|done|]. intros _ s8 Hc8 Hm8.
  apply quiet_then; [apply quiet_init_phys_allocator|done|]. intros _ s9 Hc9 Hm9.
  apply quiet_then; [apply quiet_init_power|done|]. intros _ s10 Hc10 Hm10.
  assert (k_csr s10 = c4) as Hcs by congruence.
  apply boot_tail_outcome; rewrite ?Hcs; [..|done].
  - rewrite Ho by (by apply (bool_decide_unpack _)). done.
  - rewrite Ho by (by apply (bool_decide_unpack _)). by apply Hc3.
  - apply Hz. by apply (bool_decide_unpack _).
Qed.

End boot.

(** A board with the sample tree in memory, room for the page bitmap after the
    kernel, and the QEMU core's misa. *)
Definition sample_board : kstate :=
  set_csr misa 0x141105 (boot_state (map_zeros 0x80006000 256 (tree_mem sample_tree))).

Lemma kmain_other_harts_witness :
  @kmain qemu_literals 1 tree_addr sample_board = Halted (mask_interrupts sample_board).
Proof. apply (@kmain_other_harts qemu_literals). discriminate. Defined.

(** That board after the boot. *)
Definition booted_board : kstate :=
  final sample_board (@kmain qemu_literals 0 tree_addr sample_board).

Lemma entered_final {A} d (o : outcome A) :
  match o with Entered _ => true | _ => false end = true → o = Entered (final d o).
Proof. by destruct o. Qed.

(** The boot gets through: on that board it hands over to [test] in supervisor
    mode, with the one region of 8 MiB of the tree registered, the timer of hart 0
    at the CLINT's registers, the 6 pages of the kernel and the page of the bitmap
    marked as used and the page after them free, and the power controller set. *)
Theorem kmain_boots_sample :
  ∃ s', @kmain qemu_literals 0 tree_addr sample_board = Entered s' ∧
    k_pc s' = @test_addr qemu_literals ∧ k_mode s' = RISCV_PRIV_LVL_SUPERVISOR ∧
    regions s' = [RamDescriptor 0x80000000 0x800000] ∧
    present_timer s' = RiscvTimer 0x200BFF8 0x2004000 ∧
    shutdown_ptr s' = Some syscon_shutdown_fn ∧
    slots_size (physical_bitmap_ s') = 64 ∧ slots_ptr (physical_bitmap_ s') = 0x80006000 ∧
    map (fun i => Bitmap.bitmap_is_used (physical_bitmap_ s') i (k_mem s')) (seqZ 0 8) =
      [Ok true; Ok true; Ok true; Ok true; Ok true; Ok true; Ok true; Ok false].
Proof.
  exists booted_board. split; [apply entered_final; vm_compute; reflexivity|].
  match goal with |- ?P => enough (bool_decide P = true) as Hb by (by apply bool_decide_eq_true in Hb) end.
  vm_compute. reflexivity.
Qed.

(** The end of the story: [test] then executes an undefined instruction, which
    goes to machine mode at the reset value of mtvec, not to [s_mode_handle]: no
    handler reports it and the machine is not powered off. *)
Theorem test_traps_to_unset_vector :
  ∃ t, test booted_board = Entered t ∧ k_mode t = RISCV_PRIV_LVL_MACHINE ∧
    k_pc t = k_csr sample_board mtvec ∧ k_pc t ≠ @s_mode_handle_addr qemu_literals ∧
    k_csr t mcause = mcause_value MCAUSE_ILLEGAL_INSTRUCTION.
Proof.
  exists (final sample_board (test booted_board)).
  split; [apply entered_final; vm_compute; reflexivity|].
  match goal with |- ?P => enough (bool_decide P = true) as Hb by (by apply bool_decide_eq_true in Hb) end.
  vm_compute. reflexivity.
Qed.
