(* ===== verification/Boot.v ===== *)
(** The boot from end to end: on a board that brings what the kernel needs, and whose
    device tree says so, [kmain] gets through, and this is the state it leaves. *)
From S2P Require Import Prelude Machine Registers Printf Console Crt0 SampleTree Memory PhysAlloc Fdt FdtCheck FdtTree FdtLookup Devices DetectMemory FindDevices Interrupts KMain.
From stdpp Require Import base list gmap.
From Stdlib Require Import ZArith Lia.
From Stdlib Require String.
#[local] Open Scope Z_scope.

Section boot.
Context `{Platform}.

(** A board: the required extensions, a good device tree, in it a CLINT at [clint] and one
    region of RAM, and in this region space for the bitmap of its pages. *)
Record board (tree : Z) (root : dnode) (clint base size : Z) (s : kstate) : Prop := {
  bo_mode : k_mode s = RISCV_PRIV_LVL_MACHINE ∧ is_u32 (k_csr s mstatus);
  bo_isa : Z.land (k_csr s misa) NECESSARY_RISCV_EXTENSIONS = NECESSARY_RISCV_EXTENSIONS;
  bo_readable : readable_tree (k_mem s) tree;
  bo_valid : valid_tree (k_mem s) tree;
  bo_root : block_at (k_mem s) tree 0 (Some root);
  bo_literals : literals_at (k_mem s) ∧ c_name (k_mem s) (rodata "compatible") (chars "compatible") ∧
    c_name (k_mem s) (rodata "riscv,clint0") (chars "riscv,clint0");
  bo_lists : forallb (lists_strings (k_mem s) tree) (fst <$> tree_nodes 0 root) = true;
  bo_clint : ∃ c l size, compatible_nodes (k_mem s) tree root (chars "riscv,clint0") = c :: l ∧ node_off c ≠ 0 ∧
    parse_reg (k_mem s) tree (node_off c) = Ok (SUCCESS, Some clint, size);
  bo_memory : Forall2 (describes tree (k_mem s)) (memory_nodes tree root (k_mem s)) [RamDescriptor base size];
  bo_table : table_ok s ∧ ram_regions_index s = 0 ∧ regions_ok s;
  bo_pages : 0 < base ∧ base mod 4096 = 0 ∧ 0 < size ∧ size mod 4096 = 0 ∧ base + size < 2 ^ 32;
  bo_kernel : base <= kernel_physical_start < kernel_physical_end ∧ kernel_physical_end <= base + size ∧
    kernel_physical_start mod 4096 = 0 ∧ kernel_physical_end mod 4096 = 0;
  bo_room : 4096 <= size - (kernel_physical_end - kernel_physical_start) < 2 ^ 31;
  bo_place : bitmap_place base size ≠ 0 ∧ mapped (k_mem s) (bitmap_place base size) (4 * bitmap_words size);
}.

(** The platform: where the handlers and the first code in supervisor mode lie. *)
Definition linked : Prop :=
  is_u32 test_addr ∧ Z.even test_addr = true ∧ is_u32 s_mode_handle_addr ∧ (ndebug = true ∨ m_mode_handle_addr mod 4 = 0).

(** What the boot has found and set up. *)
Record set_up (clint base size : Z) (s s' : kstate) : Prop := {
  su_regions : regions s' = [RamDescriptor base size];
  su_clint : clint_addr s' = clint;
  su_timer : present_timer s' = RiscvTimer (u32 (clint + CLINT_MTIME_OFFSET)) (u32 (clint + CLINT_MTIMECMP_OFFSET + 8 * k_csr s mhartid));
  su_power : shutdown_ptr s' = Some syscon_shutdown_fn ∧ reboot_ptr s' = Some syscon_reboot_fn;
  su_pages : pmm_ok base size s';
  su_used : ∀ k, 0 <= k < size / 4096 → page_used s' k = reserved base size k;
  su_bitmap : size <= 2 ^ 27 → ∀ a, bitmap_place base size <= a < bitmap_place base size + 4 * bitmap_words size →
    page_used s' ((a - base) / 4096) = true;
  su_memory : same_outside (bitmap_place base size) (4 * bitmap_words size) (k_mem s) (k_mem s');
}.

(** ** Up to the device tree *)

Definition probe_devices (tree : Z) : K unit :=
  check_device_tree tree;;
  init_interrupt_controller tree;;
  detect_memory tree;;
  init_phys_allocator;;
  init_power_controller tree;;
  boot_tail.

(** Nothing but registers has changed. *)
Record started (s s1 : kstate) : Prop := {
  st_mem : k_mem s1 = k_mem s;
  st_statics : statics s1 = statics s;
  st_mode : k_mode s1 = RISCV_PRIV_LVL_MACHINE;
  st_mie : k_csr s1 mie = 0;
  st_mstatus : is_u32 (k_csr s1 mstatus);
  st_csr : ∀ r, r ∉ [mstatus; mideleg; medeleg; mie; mip] → k_csr s1 r = k_csr s r;
}.

Lemma kmain_starts tree s :
  linked → k_mode s = RISCV_PRIV_LVL_MACHINE → is_u32 (k_csr s mstatus) →
  Z.land (k_csr s misa) NECESSARY_RISCV_EXTENSIONS = NECESSARY_RISCV_EXTENSIONS →
  ∃ s1, kmain 0 tree s = probe_devices tree s1 ∧ started s s1.
Proof.
  intros (_ & _ & _ & Hv) Hm Hs Hx. unfold kmain. change (0 =? 0) with true. cbv iota.
  destruct (disable_ok s Hs) as (c & t & E & Hc & Hu). rewrite (bind_ret _ _ _ _ _ E). step_printf.
  match goal with |- context [(ensure_extensions_present _ ≫= _) ?x] => set (s2 := x) end.
  assert (k_csr s2 = c ∧ k_mem s2 = k_mem s ∧ statics s2 = statics s ∧ k_mode s2 = k_mode s) as (Hc2 & Hm2 & Hs2 & Hp2) by (by destruct s).
  clearbody s2. destruct (ensure_cases NECESSARY_RISCV_EXTENSIONS s2) as [[_ [t2 E2]]|[Hne _]].
  2: { destruct Hne. rewrite Hc2, Hc by done. done. }
  rewrite (bind_ret _ _ _ _ _ E2). destruct (setup_interrupt_handler_ok (extend t2 s2)) as [H3 _]. destruct (H3 Hv) as (c3 & t3 & E3 & Hz & Ho).
  rewrite (bind_ret _ _ _ _ _ E3). step_printf. rewrite k_csr_extend, Hc2 in Ho. eexists. split; [reflexivity|].
  assert (∀ x, k_csr (extend x (set_csrs c3 (extend t3 (extend t2 s2)))) = c3) as Ec by (intros; by destruct s2).
  split.
  - by destruct s2.
  - by destruct s2.
  - by destruct s2; rewrite <- Hm, <- Hp2.
  - rewrite Ec. apply Hz. by apply (bool_decide_unpack _).
  - rewrite Ec, Ho by (by apply (bool_decide_unpack _)). done.
  - intros r Hr. rewrite Ec. rewrite !not_elem_of_cons in Hr. rewrite Ho, Hc by (rewrite ?not_elem_of_cons; tauto). done.
Qed.

(** ** The devices *)

(** The state when memory has been found. *)
Definition found (clint base size : Z) (s s1 : kstate) : kstate :=
  set_regions (stored_regions 0 [RamDescriptor base size] (ram_regions s)) 1
    (set_timer (RiscvTimer (u32 (clint + CLINT_MTIME_OFFSET)) (u32 (clint + CLINT_MTIMECMP_OFFSET + 8 * k_csr s mhartid)))
      (set_clint_addr clint s1)).

Lemma devices_found tree root clint base size s s1 :
  board tree root clint base size s → started s s1 →
  ∃ t, probe_devices tree s1 =
    (init_phys_allocator;; init_power_controller tree;; boot_tail) (extend t (found clint base size s s1)).
Proof.
  intros [_ _ Hr Hv Hb (Hlit & Hcomp & Hclint) Hlists (c & l & sz & Hc & Hc0 & Hreg) Hmem (Htab & Hidx & _) _ _ _ _] [Em Est Hmode _ _ Hcsr].
  unfold probe_devices.
  destruct (check_device_tree_ok tree s1) as [_ Hchk]. rewrite Em in Hchk. destruct (proj1 (Hchk (readable_checkable _ _ Hr)) Hv) as [t1 E1].
  rewrite (bind_ret _ _ _ _ _ E1).
  pose proof (discover_clint_ok (k_mem s) tree root Hr Hv Hb Hcomp Hlists (extend t1 s1) SUCCESS (Some clint) sz) as Hd.
  rewrite k_mem_extend, Em, Hc in Hd. destruct (Hd eq_refl Hclint Hc0 Hreg) as [t2 E2]. cbn [default from_option id] in E2.
  destruct (init_interrupt_controller_spec _ _ _ _ E2) as [[_ [t3 E3]]|[Hne _]]; [|by destruct Hne].
  rewrite (bind_ret _ _ _ _ _ E3).
  match goal with |- context [(detect_memory tree ≫= _) ?x] => set (s4 := x) end.
  assert (ram_regions_index s4 = ram_regions_index s ∧ ram_regions s4 = ram_regions s ∧ k_mem s4 = k_mem s) as (Ei & Er & Em4).
  { unfold s4. destruct s1, s. cbn in *. by injection Est as ????????; subst. }
  pose proof (detect_memory_ok tree root s4 [RamDescriptor base size]) as Hdet. rewrite Em4, Ei, Hidx, Er in Hdet.
  specialize (Hdet Hr Hv Hb Hlit). unfold table_ok in Hdet, Htab. rewrite Er, Ei in Hdet. specialize (Hdet Htab Hmem). cbv zeta in Hdet.
  rewrite decide_True in Hdet by (cbn; unfold MAX_MEM_REGIONS; lia). destruct Hdet as [t5 E5]. rewrite (bind_ret _ _ _ _ _ E5).
  exists (t5 ++ t3 ++ t2 ++ t1). f_equal. unfold found, s4. rewrite <- (Hcsr mhartid) by (by apply (bool_decide_unpack _)).
  destruct s1. cbn. by rewrite <- !app_assoc.
Qed.

Lemma board_ready tree root clint base size s s1 t :
  board tree root clint base size s → started s s1 → init_ready base size (extend t (found clint base size s s1)).
Proof.
  intros [_ _ Hr _ _ _ _ _ _ (Htab & Hidx & Hok) Hpages Hker Hroom Hplace] [Em Est _ _ _ _].
  assert (regions (extend t (found clint base size s s1)) = [RamDescriptor base size]) as Er by (by destruct s1).
  split; [split| | | | |].
  - done.
  - destruct Htab as [Hlen _], Hok as [_ Hok]. unfold regions_ok.
    assert (ram_regions (extend t (found clint base size s s1)) = stored_regions 0 [RamDescriptor base size] (ram_regions s)) as -> by (by destruct s1).
    assert (ram_regions_index (extend t (found clint base size s s1)) = 1) as -> by (by destruct s1). unfold stored_regions. change (Z.to_nat 0) with 0%nat. rewrite take_0. cbn [app length Nat.add]. split.
    + lia.
    + constructor; [unfold is_u32; cbn; lia|]. by apply Forall_drop.
  - tauto.
  - tauto.
  - done.
  - done.
  - tauto.
  - destruct s1. cbn in *. subst. tauto.
  - destruct s1. cbn in *. subst. apply Hr.
Qed.

(** ** The whole *)

Lemma boot_ok tree root clint base size s :
  linked → board tree root clint base size s →
  ∃ s', kmain 0 tree s = Entered s' ∧ booted s s' ∧ set_up clint base size s s'.
Proof.
  intros Hl Hb. pose proof Hb as [[Hm Hms] Hx _ _ _ _ _ _ _ _ _ _ _ _].
  destruct (kmain_starts tree s Hl Hm Hms Hx) as (s1 & -> & Hst).
  destruct (devices_found _ _ _ _ _ _ _ Hb Hst) as [t ->]. pose proof (board_ready _ _ _ _ _ _ _ t Hb Hst) as Hi.
  set (s2 := extend t (found clint base size s s1)) in *.
  destruct (init_phys_ok base size s2 Hi) as (bm & m & t3 & E3 & Hok & _ & _ & Hsame & Hused). rewrite (bind_ret _ _ _ _ _ E3).
  set (s3 := extend t3 (set_mem m (set_bitmap bm s2))) in *. unfold init_power_controller. rewrite bind_modify.
  set (s4 := set_power _ _ s3).
  assert (∀ r, k_csr s4 r = k_csr s1 r) as Hcsr by (by destruct s1).
  destruct Hl as (Ht & He & Hh & _). destruct Hst as [Em Est Hmode Hmie Hmst Hcs].
  destruct (riscv_switch_to_supervisor_ok test_addr s4) as (s' & E & Hs'); [by rewrite Hcsr|done..|].
  exists s'. unfold boot_tail. unfold mbind at 1, K_bind at 1. rewrite E.
  destruct Hs' as (? & ? & Hmem & Hstat & ? & ? & ? & ? & ? & ? & ? & ? & Hmtvec & Hmie').
  split; [done|]. split.
  - unfold booted. rewrite Hcsr in Hmtvec, Hmie'. split_and!; try congruence. rewrite Hmtvec. apply Hcs. by apply (bool_decide_unpack _).
  - injection Hstat as Hrr Hri Hbm Hca Htm Hsp Hrp _.
    assert (k_mem s4 = m) as Em4 by (by destruct s1).
    assert (pmm_ok base size s') as Hok'.
    { destruct Hok as [Hsr Hbok Hcap]. split.
      - apply (single_region_frame base size s3); [rewrite Hrr; by destruct s1|rewrite Hri; by destruct s1|done].
      - rewrite Hbm, Hmem. by destruct s1.
      - rewrite Hbm. by destruct s1. }
    assert (∀ k, 0 <= k < size / 4096 → page_used s' k = reserved base size k) as Hu'.
    { intros k Hk. unfold page_used. rewrite Hbm, Hmem, Em4, <- (Hused k Hk). by destruct s1. }
    split.
    + apply (sr_regions _ _ _ (po_region _ _ _ Hok')).
    + rewrite Hca. by destruct s1.
    + rewrite Htm. by destruct s1.
    + rewrite Hsp, Hrp. by destruct s1.
    + done.
    + exact Hu'.
    + intros Hsz a Ha. destruct (bitmap_reserved _ _ _ a Hi Hsz Ha) as [Hk Hr]. by rewrite Hu'.
    + rewrite Hmem, Em4. assert (k_mem s2 = k_mem s) as <- by (rewrite <- Em; by destruct s1). done.
Qed.

(** ** Where it stops *)

(** What the kernel cannot do without. *)
Inductive refused (tree : Z) (root : dnode) (s : kstate) : Prop :=
| refused_isa : Z.land (k_csr s misa) NECESSARY_RISCV_EXTENSIONS ≠ NECESSARY_RISCV_EXTENSIONS → refused tree root s
| refused_null : tree = 0 → refused tree root s
| refused_tree : checkable (k_mem s) tree → ¬ valid_tree (k_mem s) tree → refused tree root s
| refused_clint : readable_tree (k_mem s) tree → valid_tree (k_mem s) tree → block_at (k_mem s) tree 0 (Some root) →
    c_name (k_mem s) (rodata "compatible") (chars "compatible") →
    c_name (k_mem s) (rodata "riscv,clint0") (chars "riscv,clint0") →
    forallb (lists_strings (k_mem s) tree) (fst <$> tree_nodes 0 root) = true →
    (compatible_nodes (k_mem s) tree root (chars "riscv,clint0") = [] ∨
     ∃ c l, compatible_nodes (k_mem s) tree root (chars "riscv,clint0") = c :: l ∧
       (node_off c = 0 ∨
        ∃ res start size, parse_reg (k_mem s) tree (node_off c) = Ok (res, start, size) ∧ res ≠ SUCCESS)) →
    refused tree root s.

(** The hart is parked with interrupts masked. *)
Definition parked (o : outcome unit) : Prop := ∃ s', o = Halted s' ∧ Z.testbit (k_csr s' mstatus) 3 = false.

Lemma without_extensions tree s :
  is_u32 (k_csr s mstatus) → Z.land (k_csr s misa) NECESSARY_RISCV_EXTENSIONS ≠ NECESSARY_RISCV_EXTENSIONS → parked (kmain 0 tree s).
Proof.
  intros Hs Hx. unfold kmain. change (0 =? 0) with true. cbv iota.
  destruct (disable_ok s Hs) as (c & t & E & Hc & Hu). rewrite (bind_ret _ _ _ _ _ E). step_printf.
  match goal with |- context [(ensure_extensions_present _ ≫= _) ?x] => set (s2 := x) end.
  assert (k_csr s2 = c) as Hc2 by (by destruct s). clearbody s2.
  destruct (ensure_cases NECESSARY_RISCV_EXTENSIONS s2) as [[Ex _]|[_ (s' & E2 & Hh)]].
  - destruct Hx. rewrite Hc2, Hc in Ex by done. done.
  - rewrite (bind_ends _ _ _ _ E2). by exists s'.
Qed.

Lemma devices_missing tree root s s1 :
  refused tree root s → Z.land (k_csr s misa) NECESSARY_RISCV_EXTENSIONS = NECESSARY_RISCV_EXTENSIONS → started s s1 →
  parked (probe_devices tree s1).
Proof.
  intros Hr Hx [Em _ _ _ _ _]. unfold probe_devices. destruct (check_device_tree_ok tree s1) as [Hnull Hchk]. rewrite Em in Hchk.
  destruct Hr as [?|Hn|Hr Hv|Hr Hv Hb Hcomp Hclint Hlists Hc]; [done| | |].
  - destruct (Hnull Hn) as (s' & E & Hh). rewrite (bind_ends _ _ _ _ E). by exists s'.
  - destruct (proj2 (Hchk Hr) Hv) as (s' & E & Hh). rewrite (bind_ends _ _ _ _ E). by exists s'.
  - destruct (proj1 (Hchk (readable_checkable _ _ Hr)) Hv) as [t1 E1]. rewrite (bind_ret _ _ _ _ _ E1).
    assert (∃ r s2, discover_clint tree (extend t1 s1) = Ret r s2 ∧ r ≠ 0) as (r & s2 & E2 & Hne).
    { destruct Hc as [Hc|(c & l & Hc & Hreg)].
      - pose proof (discover_clint_ok (k_mem s) tree root Hr Hv Hb Hcomp Hlists (extend t1 s1) 0 None None) as Hd.
        rewrite k_mem_extend, Em, Hc in Hd. by exists (-1), (extend t1 s1); split; [apply Hd|].
      - destruct (decide (node_off c = 0)) as [Hc0|Hc0].
        { pose proof (discover_clint_root (k_mem s) tree root Hr Hv Hb Hcomp Hlists (extend t1 s1) c l) as Hd.
          rewrite k_mem_extend, Em in Hd. by exists (-1), (extend t1 s1); split; [apply Hd|]. }
        destruct Hreg as [?|(res & start & size & Hreg & Hres)]; [done|].
        pose proof (discover_clint_ok (k_mem s) tree root Hr Hv Hb Hcomp Hlists (extend t1 s1) res start size) as Hd.
        rewrite k_mem_extend, Em, Hc in Hd. specialize (Hd eq_refl Hclint Hc0 Hreg). cbv zeta in Hd. apply Z.eqb_neq in Hres. unfold SUCCESS in Hres.
        rewrite Hres in Hd. by do 2 eexists. }
    destruct (init_interrupt_controller_spec _ _ _ _ E2) as [[? _]|[_ (s' & E3 & Hh)]]; [done|].
    rewrite (bind_ends _ _ _ _ E3). by exists s'.
Qed.

Lemma stops_ok tree root s :
  linked → k_mode s = RISCV_PRIV_LVL_MACHINE → is_u32 (k_csr s mstatus) → refused tree root s → parked (kmain 0 tree s).
Proof.
  intros Hl Hm Hs Hr. destruct (decide (Z.land (k_csr s misa) NECESSARY_RISCV_EXTENSIONS = NECESSARY_RISCV_EXTENSIONS)) as [Hx|Hx].
  - destruct (kmain_starts tree s Hl Hm Hs Hx) as (s1 & -> & Hst). by eapply devices_missing.
  - by apply without_extensions.
Qed.

(** C2: Where the boot stops.  Hart 0 is parked with interrupts masked where a required
    extension is missing; where the tree is a null pointer; where it is not well formed,
    if 40 bytes are in memory there and, should they make a good header, the whole of the
    tree, with version 16 or later; and on a well-formed tree of version 16 or later in
    which every property "compatible" is a list of strings, where no node is compatible
    with the CLINT, or the first such node is the one at offset 0, or [parse_reg] finds
    anything but exactly one address and size in it. *)
Theorem kmain_stops tree root s :
  linked → k_mode s = RISCV_PRIV_LVL_MACHINE → is_u32 (k_csr s mstatus) → refused tree root s → parked (kmain 0 tree s).
Proof. apply stops_ok. Qed.

(** C1: On a [board] that brings what the kernel needs, the boot gets through.  Such a board
    has the required extensions and a well-formed device tree of version 16 or later in
    which every "compatible" is a list of strings, the first node compatible with the CLINT
    has one region and not offset 0, and the memory nodes describe one page-aligned region
    of RAM below 4 GiB, with the kernel image in it, space for the page bitmap, and at
    least a page and less than 2 GiB free.  Then hart 0 ends at [test] in supervisor mode,
    with interrupts off and traps set up; the kernel has registered the region, taken the
    timer from that CLINT and installed the power controller.  Its page allocator is ready,
    with exactly the [reserved] pages in use: the kernel image and those it counts for the
    bitmap, which up to 128 MiB of RAM are all of the bitmap's, but too few beyond.  Nothing
    in memory but the bitmap has changed. *)
Theorem kmain_boots tree root clint base size s :
  linked → board tree root clint base size s →
  ∃ s', kmain 0 tree s = Entered s' ∧ booted s s' ∧ set_up clint base size s s'.
Proof. apply boot_ok. Qed.
End boot.

(* ------------------------------------------------------------------ *)
(** * The sample board *)

#[local] Abbreviation board_mem := (k_mem sample_board).

Lemma board_bytes : mem_bytes board_mem.
Proof. apply map_zeros_bytes, sample_tree_bytes. Qed.

Lemma board_words : word_backed board_mem.
Proof.
  change board_mem with (map_zeros 0x80006000 256 (tree_mem sample_tree)). intros a Ha. rewrite map_zeros_lookup in Ha. case_decide as Hd.
  - intros x Hx. rewrite map_zeros_lookup, decide_True by (Z.div_mod_to_equations; lia). done.
  - pose proof (sample_tree_words a Ha) as Hm. intros x Hx. rewrite map_zeros_lookup. case_decide; [done|]. by apply Hm.
Qed.

Lemma board_mapped n : n <= 400 → mapped board_mem tree_addr n.
Proof.
  intros Hn x Hx. change board_mem with (map_zeros 0x80006000 256 (tree_mem sample_tree)). rewrite map_zeros_lookup.
  case_decide; [done|]. by apply (sample_tree_mapped n).
Qed.

Lemma board_readable : readable_tree board_mem tree_addr.
Proof.
  split; [apply board_bytes|]. split; [apply board_words|]. split; [reflexivity|]. split; [apply board_mapped; lia|]. split; [discriminate|].
  assert (hdr board_mem tree_addr 4 = 398) as -> by (vm_compute; reflexivity).
  split; [apply board_mapped; lia|]. split; [reflexivity|]. vm_compute. discriminate.
Qed.

Lemma board_valid : valid_tree board_mem tree_addr.
Proof.
  destruct board_readable as (Hb & Hw & Hf & Hm & Ht & Hmt & Htt & Hv).
  destruct (check_full_ok _ _ 398 Hb Hw Hf Hm Ht Hmt Htt Hv) as (r & He & Hr).
  assert (fdt_check_full board_mem tree_addr 398 = Ok 0) as E by (vm_compute; reflexivity).
  rewrite E in He. injection He as <-. destruct (proj1 Hr eq_refl) as (? & _ & ? & ?). by split_and!.
Qed.

Lemma sample_is_board :
  @board qemu_literals tree_addr sample_root 0x2000000 0x80000000 0x800000 sample_board.
Proof.
  split; try apply board_readable; try apply board_valid.
  - split; [reflexivity|split; vm_compute; congruence].
  - vm_compute. reflexivity.
  - apply (parse_root_ok _ _ 100). vm_compute. reflexivity.
  - unfold literals_at. split_and!; try (apply memory_string; vm_compute; reflexivity); try (apply memory_bytes; vm_compute; reflexivity); vm_compute; reflexivity.
  - vm_compute. reflexivity.
  - exists sample_clint, [], (Some 0x10000). vm_compute. by split_and!.
  - assert (memory_nodes tree_addr sample_root board_mem = [sample_memory]) as -> by (vm_compute; reflexivity).
    constructor; [|constructor]. exists SUCCESS. split; [vm_compute; reflexivity|discriminate].
  - split; [split; [reflexivity|split; discriminate]|]. split; [reflexivity|]. split; [split; discriminate|].
    repeat (apply Forall_cons; split; [vm_compute; repeat split; discriminate|]). by apply Forall_nil.
  - split_and!; (reflexivity || lia).
  - split_and!; (reflexivity || discriminate || (vm_compute; congruence)).
  - split; [vm_compute; discriminate|reflexivity].
  - split; [vm_compute; discriminate|]. assert (@bitmap_place qemu_literals 0x80000000 0x800000 = 0x80006000) as -> by (vm_compute; reflexivity).
    apply map_zeros_mapped.
Qed.

Lemma kmain_boots_witness :
  ∃ s', @kmain qemu_literals 0 tree_addr sample_board = Entered s' ∧
    regions s' = [RamDescriptor 0x80000000 0x800000] ∧ present_timer s' = RiscvTimer 0x200BFF8 0x2004000 ∧
    page_used s' 6 = true ∧ page_used s' 7 = false.
Proof.
  destruct (@kmain_boots qemu_literals tree_addr sample_root 0x2000000 0x80000000 0x800000 sample_board) as (s' & He & _ & Hs).
  - split_and!; [split; vm_compute; congruence|reflexivity|split; vm_compute; congruence|right; reflexivity].
  - exact sample_is_board.
  - exists s'. destruct Hs as [Hr _ Ht _ _ Hu _ _]. rewrite Ht, !Hu by (split; [lia|vm_compute; reflexivity]).
    split_and!; [exact He|exact Hr|vm_compute; reflexivity..].
Defined.

(** The same board without a tree. *)
Lemma kmain_stops_witness : parked (@kmain qemu_literals 0 0 sample_board).
Proof.
  apply (@kmain_stops qemu_literals 0 sample_root); [|reflexivity|split; vm_compute; congruence|by apply refused_null].
  split_and!; [split; vm_compute; congruence|reflexivity|split; vm_compute; congruence|right; reflexivity].
Defined.
