(* ===== verification/BootEnds.v ===== *)
(** The boot comes to an end: every loop on the way of [kmain] does, whatever a device tree
    of version 16 or later says, so that its outcomes are those of [boot_outcome]. *)
From S2P Require Import Prelude Machine Registers Printf MathUtils Console Crt0 Bitmap SampleTree Memory PhysAlloc Fdt FdtRo FdtCheck FdtTree FdtLookup Devices DetectMemory FindDevices Interrupts KMain Boot.
From stdpp Require Import base list gmap.
From Stdlib Require Import ZArith Lia.
From Stdlib Require String.
#[local] Open Scope Z_scope.

(* ------------------------------------------------------------------ *)
(** * Code that ends *)

(** [ending r P]: no loop of [r] runs out of fuel, and if no access faults, the value
    satisfies [P]. *)
Definition ending {A} (r : res A) (P : A → Prop) : Prop :=
  match r with Ok a => P a | Fault => True | NoFuel => False end.

Lemma ending_bind {A B} (r : res A) (f : A → res B) (P : A → Prop) (Q : B → Prop) :
  ending r P → (∀ a, P a → ending (f a) Q) → ending (r ≫= f) Q.
Proof. destruct r; cbn; naive_solver. Qed.

Lemma ending_mono {A} (r : res A) (P Q : A → Prop) : ending r P → (∀ a, P a → Q a) → ending r Q.
Proof. destruct r; cbn; naive_solver. Qed.

(** The rule of [loop_yields] for bodies that may fault. *)
Lemma loop_ending {S A} (Inv : S → Prop) (mu : S → nat) (Q : A → Prop) body fuel s :
  (∀ s, Inv s →
    ending (body s) (λ r, match r with inl s' => Inv s' ∧ (mu s' < mu s)%nat | inr a => Q a end)) →
  Inv s → (mu s < fuel)%nat → ending (loop fuel body s) Q.
Proof.
  intros Hbody. revert s. induction fuel as [|fuel IH]; intros s HI Hf; [lia|].
  cbn [loop]. eapply ending_bind; [by apply Hbody|].
  intros [s'|a] Hr; cbn in Hr; [|done]. destruct Hr as [HI' Hm]. apply IH; [done|lia].
Qed.

(** The memory is the given one, if one is given. *)
Definition at_mem (om : option mem) (s : kstate) : Prop :=
  match om with Some m => k_mem s = m | None => True end.

(** [lasts om k Q]: started in memory [om], no loop of [k] runs out of fuel; where it
    returns it leaves the memory so, with a value that satisfies [Q]. *)
Definition lasts {A} (om : option mem) (k : K A) (Q : A → Prop) : Prop := ∀ s, at_mem om s →
  match k s with
  | Ret a s' => at_mem om s' ∧ Q a
  | OutOfFuel => False
  | _ => True
  end.

Section lasts.
Context (om : option mem).

Lemma lasts_ret {A} (a : A) : lasts om (mret a) (λ _, True).
Proof. by intros s Hs. Qed.
Lemma lasts_gets {A} (f : kstate → A) : lasts om (gets f) (λ _, True).
Proof. by intros s Hs. Qed.
Lemma lasts_fault {A} : lasts om (@fault A) (λ _, True).
Proof. by intros s Hs. Qed.
Lemma lasts_unreachable {A} : lasts om (@unreachable A) (λ _, True).
Proof. by intros s Hs. Qed.

Lemma lasts_bind {A B} (k : K A) (f : A → K B) (P : A → Prop) (Q : B → Prop) :
  lasts om k P → (∀ a, P a → lasts om (f a) Q) → lasts om (k ≫= f) Q.
Proof.
  intros Hk Hf s Hs. specialize (Hk s Hs). unfold mbind, K_bind.
  destruct (k s) as [a s1|s1|s1|s1|s1|]; [|done..]. destruct Hk as [Hs1 Ha]. by apply (Hf a Ha s1).
Qed.

Lemma lasts_any {A} (k : K A) (P : A → Prop) : lasts om k P → lasts om k (λ _, True).
Proof. intros Hk s Hs. specialize (Hk s Hs). destruct (k s); tauto. Qed.

Lemma lasts_modify f : (∀ s, k_mem (f s) = k_mem s) → lasts om (modify f) (λ _, True).
Proof. intros Hf s Hs. split; [|done]. unfold at_mem in *. by destruct om; [rewrite Hf|]. Qed.

Lemma lasts_lift {A} (r : res A) : ending r (λ _, True) → lasts om (lift r) (λ _, True).
Proof. intros Hr s Hs. by destruct r. Qed.

Lemma lasts_when (b : bool) k : lasts om k (λ _, True) → lasts om (when b k) (λ _, True).
Proof. intros Hk. unfold when. destruct b; [done|apply lasts_ret]. Qed.

Lemma at_mem_extend t s : at_mem om s → at_mem om (extend t s).
Proof. unfold at_mem. by destruct om; [rewrite k_mem_extend|]. Qed.

Lemma lasts_vprintf fmt va cs : format_chars fmt va = Ok cs → lasts om (vprintf_ fmt va) (λ _, True).
Proof. intros Hf s Hs. destruct (vprintf_ok fmt va cs s Hf) as [n ->]. split; [by apply at_mem_extend|done]. Qed.

Lemma lasts_simple fmt va : simple_format (cstr fmt) va = true → lasts om (printf_ fmt va) (λ _, True).
Proof. intros [cs Hcs]%simple_format_ok. by apply (lasts_vprintf _ _ cs). Qed.

Lemma lasts_halt {A} : lasts om (@halt A) (λ _, True).
Proof. intros s Hs. by rewrite halt_eq. Qed.

Lemma lasts_panic {A} fmt va : simple_format (cstr fmt) va = true → lasts om (@KERNEL_PANIC A fmt va) (λ _, True).
Proof. intros [cs Hcs]%simple_format_ok s Hs. by destruct (panic_halts (A := A) fmt va s cs Hcs) as [t ->]. Qed.

Lemma lasts_assert `{Platform} condition text file function line :
  assert_formats text file function line → lasts om (DEBUG_ASSERT condition text file function line) (λ _, True).
Proof.
  intros [cs Hcs]. unfold DEBUG_ASSERT. destruct ndebug; [apply lasts_ret|]. destruct condition; [apply lasts_ret|].
  eapply lasts_bind; [by apply lasts_simple|intros _ _].
  eapply lasts_bind; [by apply (lasts_vprintf _ _ cs)|intros _ _]. apply lasts_halt.
Qed.
End lasts.

Lemma lasts_reading {A} m (f : mem → res A) (P : A → Prop) : ending (f m) P → lasts (Some m) (reading f) P.
Proof. intros Hf s <-. unfold reading, lift. by destruct (f (k_mem s)). Qed.
Lemma lasts_writing {A} (f : mem → res (A * mem)) : (∀ m, ending (f m) (λ _, True)) → lasts None (writing f) (λ _, True).
Proof. intros Hf s _. specialize (Hf (k_mem s)). unfold writing. by destruct (f (k_mem s)) as [[a m]| |]. Qed.

(** Proves [lasts] of composed code, from the lemmas above and the hints. *)
Create HintDb lasts.
Ltac lasts_step :=
  match goal with
  | |- lasts _ (mret _) _ => apply lasts_ret
  | |- lasts _ (gets _) _ => apply lasts_gets
  | |- lasts _ (READ_CSR _) _ => apply lasts_gets
  | |- lasts _ fault _ => apply lasts_fault
  | |- lasts _ unreachable _ => apply lasts_unreachable
  | |- lasts _ halt _ => apply lasts_halt
  | |- lasts _ (modify _) _ => apply lasts_modify; solve [by intros []]
  | |- lasts _ (when _ _) _ => apply lasts_when
  | |- lasts _ (printf_ _ _) _ => apply lasts_simple; reflexivity
  | |- lasts _ (KERNEL_PANIC _ _) _ => apply lasts_panic; reflexivity
  | |- lasts _ (DEBUG_ASSERT _ _ _ _ _) _ => apply lasts_assert; eexists; vm_compute; reflexivity
  | |- lasts _ (if ?b then _ else _) _ => destruct b
  | |- lasts _ (let '(_, _) := ?p in _) _ => destruct p
  | |- lasts _ (match ?p with (_, _) => _ end) _ => destruct p
  | |- lasts _ _ _ => solve [eauto with lasts]
  | |- lasts _ (_ ≫= _) _ => eapply lasts_bind; [|intros ? ?]
  end.
Ltac lasts := repeat (cbv zeta; lasts_step).

(* ------------------------------------------------------------------ *)
(** * Looking for compatible nodes *)

Lemma memcmp_ending s1 s2 n m : ending (memcmp s1 s2 n m) (λ _, True).
Proof.
  unfold memcmp. generalize (Z.to_nat n). clear n. intros n. revert s1 s2.
  induction n as [|n IH]; intros s1 s2; cbn [memcmp_from]; [done|]. unfold load8.
  destruct (m !! s1), (m !! s2); cbn [res_of_option mbind res_bind]; try done. by destruct (negb _).
Qed.

(** What [memchr] finds lies in the range. *)
Lemma memchr_ending p ch n m :
  0 <= p → p + n < 2 ^ 32 → ending (memchr p ch n m) (λ q, q = 0 ∨ p <= q < p + n).
Proof.
  intros Hp Ht. unfold memchr.
  assert (∀ k p, 0 <= p → p + Z.of_nat k < 2 ^ 32 → ending (memchr_from k p ch m) (λ q, q = 0 ∨ p <= q < p + Z.of_nat k)) as Hgo.
  { clear p n Hp Ht. induction k as [|k IH]; intros p Hp Ht; cbn [memchr_from]; [by left|]. unfold load8.
    destruct (m !! p) as [c|]; cbn [res_of_option mbind res_bind]; [|done]. destruct (c =? ch); [right; lia|].
    rewrite u32_small by (unfold is_u32; lia). eapply ending_mono; [apply IH; lia|]. intros q ?; cbv beta in *; lia. }
  destruct (Z.le_gt_cases 0 n).
  - eapply ending_mono; [apply Hgo; lia|]. intros q; cbv beta. rewrite Z2Nat.id by lia. done.
  - rewrite Z2Nat.nonpos by lia. by left.
Qed.

(** The nodes of a tree, which may have none at all. *)
Definition nodes_of (o : option dnode) : list (dnode * Z) := from_option (tree_nodes 0) [] o.

Section tree.
Context `{Platform} (m : mem) (tree : Z) (top : option dnode).
Context (Hr : readable_tree m tree) (Hval : valid_tree m tree) (Hb : block_at m tree 0 top).
Context (Hlit : literals_at m) (Hcomp : c_name m (rodata "compatible") (chars "compatible")).

(** [fdt_stringlist_contains] on any bytes: what is left gets shorter. *)
Lemma stringlist_ending p len s name :
  0 < p → 0 <= len → p + len < 2 ^ 32 → c_name m s name → ending (fdt_stringlist_contains m p len s) (λ _, True).
Proof using Hr.
  intros Hp Hl Ht ((Hs & Hnz & Hs0) & Hsp & Hst & Hs31). pose proof Hr as (Hmb & Hwb & _).
  unfold fdt_stringlist_contains. rewrite (strlen_ok m s name) by (done || lia). cbn [mbind res_bind].
  rewrite s32_small by (unfold is_s32; lia).
  apply (loop_ending (λ '(p, len), 0 < p ∧ 0 <= len ∧ p + len < 2 ^ 32) (λ '(_, len), Z.to_nat len)); [|done|cbn; lia].
  intros [q l] (Hq & Hl' & Htq). destruct (Z.of_nat (length name) <=? l); [|done].
  eapply ending_bind; [apply memcmp_ending|]. intros c _. cbn beta. destruct (c =? 0); [done|].
  eapply ending_bind; [apply memchr_ending; lia|]. intros r Hr'; cbn in Hr'. destruct (Z.eqb_spec r 0); [done|].
  destruct Hr' as [|Hr']; [done|]. rewrite u32_small by (unfold is_u32; lia). cbn. lia.
Qed.

(** The search ends, at a node if it does not fail. *)
Lemma search_ending test start l :
  comes_to m tree start l →
  (∀ u e l', (u, e) ∈ l → at_node m tree u e l' →
     ending (test (node_off u)) (λ r, ∀ o, r = Some o → o < 0 ∨ o = node_off u)) →
  ending (search_nodes m tree start test) (λ o, o < 0 ∨ ∃ u e, (u, e) ∈ l ∧ o = node_off u).
Proof using Hr Hval.
  intros Hl Htest. pose proof (names_blob m tree Hr Hval) as Hbl. unfold search_nodes.
  assert (∃ o, fdt_next_node m tree start None = Ok (o, None) ∧
    (o < 0 ∨ ∃ u e l', o = node_off u ∧ l = (u, e) :: l' ∧ at_node m tree u e l')) as (o & -> & Ho).
  { destruct l as [|[u e] l']; cbn in Hl; [by eexists; split; [|left]|]. destruct Hl. eexists. split; [done|]. right. by exists u, e, l'. }
  cbn [mbind res_bind]. rewrite tree_fuel_eq by done.
  apply (loop_ending
    (λ o, o < 0 ∨ ∃ q u e l', l = q ++ (u, e) :: l' ∧ o = node_off u ∧ at_node m tree u e l')
    (λ o, if o <? 0 then 0%nat else S (Z.to_nat (hdr m tree 4 - o)))).
  - intros x Hx. destruct (Z.leb_spec 0 x) as [Hx0|Hx0]; [|by left].
    destruct Hx as [?|(q & u & e & l' & El & -> & Hu')]; [lia|].
    assert ((u, e) ∈ l) as Hin by (rewrite El; apply elem_of_app; right; left).
    eapply ending_bind; [by apply (Htest u e l')|]. intros [o'|] Ho'; cbn in Ho'.
    { destruct (Ho' o' eq_refl) as [?| ->]; [by left|right; by exists u, e]. }
    destruct (at_node_tag m tree Hr Hval _ _ _ Hu') as (_ & Hlt & _).
    pose proof (comes_to_rest m tree Hr Hval _ _ _ Hu') as Hn. destruct l' as [|[v e'] l'']; cbn in Hn.
    + rewrite Hn. cbn [mbind res_bind ending]. split; [by left|].
      destruct (Z.ltb_spec (node_off u) 0); [lia|]. apply Nat.lt_0_succ.
    + destruct Hn as [Hn Hv]. rewrite Hn. cbn [mbind res_bind ending].
      split; [right; exists (q ++ [(u, e)]), v, e', l''; by rewrite <- app_assoc|].
      destruct (at_node_next m tree Hbl _ _ _ _ _ Hu') as [_ Hlt'].
      destruct (Z.ltb_spec (node_off v) 0), (Z.ltb_spec (node_off u) 0); lia.
  - destruct Ho as [?|(u & e & l' & -> & -> & Hu')]; [by left|]. right. by exists [], u, e, l'.
  - destruct Ho as [?|(u & e & l' & -> & -> & Hu')].
    + destruct (Z.ltb_spec o 0); lia.
    + destruct (at_node_tag m tree Hr Hval _ _ _ Hu') as ((? & _) & _). destruct (Z.ltb_spec (node_off u) 0); lia.
Qed.

Lemma compatible_ending s name :
  c_name m s name →
  ending (fdt_node_offset_by_compatible m tree (-1) s) (λ r, r < 0 ∨ ∃ u e, (u, e) ∈ nodes_of top ∧ r = node_off u).
Proof using Hr Hval Hb Hcomp.
  intros Hs. unfold fdt_node_offset_by_compatible, FDT_RO_PROBE. rewrite (valid_probe m tree Hr Hval). cbn [mbind res_bind].
  pose proof (names_blob m tree Hr Hval) as Hbl. destruct (header_eq m tree Hbl 4 ltac:(lia)) as [_ Hu]. unfold is_u32 in Hu.
  destruct (Z.ltb_spec (hdr m tree 4) 0); [lia|].
  apply (search_ending _ _ _ (comes_to_all m tree Hr Hval top Hb)).
  intros u e l _ Hat. unfold fdt_node_check_compatible. rewrite (getprop_at m tree Hr Hval u e l _ _ Hat Hcomp).
  destruct (find_prop m tree (node_props u) (chars "compatible")) as [p|] eqn:Ep; cbn [mbind res_bind].
  2: { by intros r [=]. }
  destruct (found_value m tree Hr Hval _ _ _ _ _ Hat Ep) as (_ & Hlen & Hp0 & Hle).
  destruct (Z.eqb_spec (prop_value m tree p) 0); [lia|]. pose proof Hr as (_ & _ & _ & _ & _ & _ & Htop & _).
  pose proof (stringlist_ending (prop_value m tree p) (prop_len m tree p) s name ltac:(lia) ltac:(lia) ltac:(lia) Hs) as He.
  destruct (fdt_stringlist_contains _ _ _ _) as [b| |]; [|done..]. cbn [mbind res_bind ending].
  intros r Ho. destruct b; cbn in Ho; [|done]. injection Ho as <-. by right.
Qed.
End tree.

(* ------------------------------------------------------------------ *)
(** * Reading the registers of a node *)

(** Every node but the root is a subnode. *)
Lemma node_parent root d0 c d :
  (c, d) ∈ tree_nodes d0 root → c = root ∨ ∃ t e, (t, e) ∈ tree_nodes d0 root ∧ c ∈ node_subs t.
Proof.
  revert d0. induction root as [off props subs IH] using dnode_all_ind. intros d0 Hin. cbn [tree_nodes] in Hin.
  apply elem_of_cons in Hin as [[= -> ->]|Hin]; [by left|]. right.
  apply list_elem_of_In, in_flat_map in Hin as (s & Hs%list_elem_of_In & Hin%list_elem_of_In).
  rewrite Forall_forall in IH. destruct (IH s Hs _ Hin) as [->|(t & e & Ht & Hc)].
  - exists (Node off props subs), d0. split; [left|done].
  - exists t, e. split; [|done]. cbn [tree_nodes]. right. apply list_elem_of_In, in_flat_map. exists s. by split; apply list_elem_of_In.
Qed.

Lemma fetch_ending m p n : ending (fetch_lowest_ m p n) (λ _, True).
Proof.
  assert (∀ a, ending (load32 m a) (λ _, True)) as Hld.
  { intros a. unfold load32, load8. destruct (a mod 4 =? 0); [|done].
    by destruct (m !! a), (m !! (a + 1)), (m !! (a + 2)), (m !! (a + 3)). }
  unfold fetch_lowest_. destruct (_ <=? _); [apply Hld|]. generalize (Z.to_nat (n - 1)). intros k. revert p.
  induction k as [|k IH]; intros p; cbn [fetch_from].
  - unfold fdt32_ld_. eapply ending_bind; [apply Hld|]. done.
  - eapply ending_bind; [apply Hld|]. intros c _. by destruct (negb _).
Qed.

Section probe.
Context `{Platform} (m : mem) (tree : Z) (top : option dnode).
Context (Hr : readable_tree m tree) (Hval : valid_tree m tree) (Hb : block_at m tree 0 top).
Context (Hlit : literals_at m) (Hcomp : c_name m (rodata "compatible") (chars "compatible")).
Context (Hclint : c_name m (rodata "riscv,clint0") (chars "riscv,clint0")).

Lemma node_of c d : (c, d) ∈ nodes_of top → ∃ root, top = Some root ∧ (c, d) ∈ tree_nodes 0 root.
Proof using Type. clear Hb. destruct top as [root|]; [by exists root|by intros ?%elem_of_nil]. Qed.

(** What [fdt_parent_offset] gives for a node: an error, or another node. *)
Lemma parent_cases root c d :
  top = Some root → (c, d) ∈ tree_nodes 0 root →
  ∃ r, fdt_parent_offset m tree (node_off c) = Ok r ∧
    (r < 0 ∨ ∃ t e l, at_node m tree t e l ∧ r = node_off t).
Proof using Hr Hval Hb.
  intros Eo Hin. pose proof Hb as Hroot. rewrite Eo in Hroot. destruct (decide (node_off root = 0)) as [H0|Hne].
  - destruct (node_parent root 0 c d Hin) as [->|(t & e & Ht & Hc)].
    + rewrite H0. eexists. split; [by eapply (parent_root m tree Hr Hval)|]. by left.
    + exists (node_off t). split; [by eapply (parent_ok m tree Hr Hval)|]. right.
      destruct (at_tree_node m tree root t e (names_blob m tree Hr Hval) Hroot Ht) as [l Hat]. by exists t, e, l.
  - eexists. split; [eapply (parent_misplaced m tree Hr Hval); [done..|by eapply (tree_nodes_after m tree Hr Hval)]|]. by left.
Qed.

Lemma parse_reg_ending c d : (c, d) ∈ nodes_of top → ending (parse_reg m tree (node_off c)) (λ _, True).
Proof using Hr Hval Hb Hlit.
  intros Hin. destruct Hlit as (Hreg & Hac & Hsc & _). destruct (node_of c d Hin) as (root & Eo & Hin').
  pose proof Hb as Hroot. rewrite Eo in Hroot.
  destruct (at_tree_node m tree root c d (names_blob m tree Hr Hval) Hroot Hin') as [l Hat].
  unfold parse_reg. rewrite (getprop_at m tree Hr Hval c d l _ _ Hat Hreg). cbn [mbind res_bind].
  destruct (find_prop _ _ _ _) as [p|]; [|done]. destruct (_ <? 0); [done|].
  destruct (parent_cases root c d Eo Hin') as (r & -> & Hp). cbn [mbind res_bind].
  destruct (Z.ltb_spec r 0); [done|]. destruct Hp as [?|(t & e & l' & Ht & ->)]; [lia|].
  unfold fdt_address_cells, fdt_size_cells. rewrite (fdt_cells_ok m tree Hr Hval t e l' _ _ Ht Hac), (fdt_cells_ok m tree Hr Hval t e l' _ _ Ht Hsc).
  cbn [mbind res_bind]. destruct (_ <? 0); [done|]. eapply ending_bind; [apply fetch_ending|]. intros start _. cbv zeta.
  destruct (_ <? 0); [done|]. by eapply ending_bind; [apply fetch_ending|].
Qed.

(* ------------------------------------------------------------------ *)
(** * The steps of the boot that read the tree *)

Lemma lasts_region om i : lasts om (region_entry i) (λ _, True).
Proof using Type. intros s Hs. unfold region_entry. by destruct (ram_regions s !! _). Qed.
#[local] Hint Resolve lasts_region : lasts.

Lemma lasts_init_controller : lasts (Some m) (init_interrupt_controller tree) (λ _, True).
Proof using Hr Hval Hb Hlit Hcomp Hclint.
  unfold init_interrupt_controller. eapply lasts_bind with (P := λ _, True).
  - unfold discover_clint. eapply lasts_bind; [apply lasts_reading, (compatible_ending m tree top Hr Hval Hb Hcomp _ _ Hclint)|].
    intros r Ho. destruct (Z.ltb_spec 0 r); [|lasts]. destruct Ho as [?|(u & e & Hin & ->)]; [lia|].
    eapply lasts_bind; [by eapply lasts_reading, parse_reg_ending|]. intros [[res start] size] _. lasts.
  - intros r _. unfold clint_init_timer, clint_get_time, clint_get_mtimecmp. lasts.
Qed.

Lemma lasts_extract c d : (c, d) ∈ nodes_of top → lasts (Some m) (extract_ram_region_info tree (node_off c)) (λ _, True).
Proof using Hr Hval Hb Hlit.
  intros Hin. unfold extract_ram_region_info, store_region. eapply lasts_bind; [apply lasts_gets|]. intros i _.
  destruct (_ <=? _); [lasts|]. eapply lasts_bind; [lasts|]. intros _ _.
  eapply lasts_bind; [by eapply lasts_reading, parse_reg_ending|]. intros [[res start] size] _. lasts.
Qed.

(** The loop of [detect_memory] gets on through the tree. *)
Lemma lasts_next start l :
  comes_to m tree start l → lasts (Some m) (next_memory_node tree start) (λ r, r < 0 ∨ ∃ ue, ue ∈ l ∧ r = node_off ue.1).
Proof using Hr Hval Hlit.
  intros Hl. destruct Hlit as (_ & _ & _ & Hdt & Hmem & Hm0 & Hmt).
  unfold next_memory_node. apply lasts_reading. change 7 with (Z.of_nat (length (cstr "memory"))).
  rewrite (node_offset_by_prop_value_ok m tree Hr Hval start l _ _ _ _ Hl Hdt Hmem Hm0 Hmt). cbn [ending]. unfold first_off.
  destruct (filter _ _) as [|c cs] eqn:E; [by left|]. right.
  assert (c ∈ filter (has_value m tree (chars "device_type") (cstr "memory")) (fst <$> l)) as Hc by (rewrite E; left).
  apply list_elem_of_filter in Hc as [_ Hc]. apply list_elem_of_fmap in Hc as (ue & -> & Hin). by exists ue.
Qed.

Lemma lasts_detect_from n r :
  (r < 0 ∨ ∃ ue, ue ∈ nodes_of top ∧ r = node_off ue.1) →
  ((if (r <? 0)%Z then 0 else S (Z.to_nat (hdr m tree 4 - r))) < n)%nat →
  lasts (Some m) (detect_from n tree r) (λ _, True).
Proof using Hr Hval Hb Hlit.
  pose proof (names_blob m tree Hr Hval) as Hbl. revert r. induction n as [|n IH]; intros r Hnode Hn; [lia|]. cbn [detect_from].
  destruct (Z.leb_spec 0 r) as [Hpos|?]; [|lasts]. destruct Hnode as [?|([c d] & Hin & ->)]; [lia|]. cbn [fst] in *.
  eapply lasts_bind; [by eapply lasts_extract|]. intros res _. destruct (res =? -1); [lasts|].
  destruct (node_of c d Hin) as (root & Eo & Hin'). pose proof Hb as Hroot. rewrite Eo in Hroot.
  destruct (list_elem_of_lookup_1 _ _ Hin') as [i Hi]. pose proof (at_nth_node m tree root i c d Hbl Hroot Hi) as Hat.
  eapply lasts_bind; [eapply lasts_next, (comes_to_rest m tree Hr Hval), Hat|]. intros r' Hr'. cbv beta in Hr'.
  destruct (at_node_tag m tree Hr Hval _ _ _ Hat) as (_ & Hlt & _). destruct (Z.ltb_spec (node_off c) 0); [lia|].
  apply IH.
  - destruct Hr' as [?|(ue & Hue & ->)]; [by left|]. right. exists ue. split; [|done]. rewrite Eo. unfold nodes_of. cbn [from_option].
    rewrite <- (take_drop (S i) (tree_nodes 0 root)). apply elem_of_app. by right.
  - destruct (Z.ltb_spec r' 0); [lia|]. destruct Hr' as [?|(ue & Hue & ->)]; [lia|].
    pose proof (at_node_sorted m tree Hbl _ _ _ Hat) as Hs. rewrite Forall_forall in Hs. specialize (Hs _ Hue). cbv beta in Hs. lia.
Qed.

Lemma lasts_log om : lasts om log_detected_memory (λ _, True).
Proof using Type.
  assert (∀ n i, lasts om (log_regions n i) (λ _, True)) as Hlog by (induction n as [|n IH]; intros i; cbn [log_regions]; lasts).
  unfold log_detected_memory. lasts.
Qed.
#[local] Hint Resolve lasts_log : lasts.

Lemma lasts_detect : lasts (Some m) (detect_memory tree) (λ _, True).
Proof using Hr Hval Hb Hlit.
  pose proof (names_blob m tree Hr Hval) as Hbl. unfold detect_memory.
  eapply lasts_bind; [apply lasts_next, (comes_to_all m tree Hr Hval top Hb)|]. intros r Hnode. cbv beta in Hnode.
  intros s Hs. rewrite bind_gets. cbn [at_mem] in Hs. rewrite Hs, tree_fuel_eq by done. revert s Hs.
  change (lasts (Some m) (fin ← detect_from (S (S (Z.to_nat (hdr m tree 4)))) tree r;
    if negb fin then mret (-1) else log_detected_memory;; mret 0) (λ _, True)).
  eapply lasts_bind; [apply lasts_detect_from; [done|]|intros fin _; lasts].
  destruct (Z.ltb_spec r 0); lia.
Qed.
End probe.

(* ------------------------------------------------------------------ *)
(** * The steps that write memory *)

Section allocator.
Context `{Platform}.
#[local] Hint Resolve lasts_region : lasts.

Lemma load32_ending m a : ending (load32 m a) (λ _, True).
Proof using Type.
  unfold load32, load8. destruct (a mod 4 =? 0); [|done].
  by destruct (m !! a), (m !! (a + 1)), (m !! (a + 2)), (m !! (a + 3)).
Qed.
Lemma store32_ending m a v : ending (store32 m a v) (λ _, True).
Proof using Type.
  assert (∀ m a v, ending (store8 m a v) (λ _, True)) as H8 by (intros m' a' v'; unfold store8; by destruct (m' !! a')).
  unfold store32. destruct (a mod 4 =? 0); [|done]. do 3 (eapply ending_bind; [apply H8|intros ? _]). apply H8.
Qed.

Lemma memset_ending p num n m : ending (word_aligned_memset p num n m) (λ _, True).
Proof using Type.
  unfold word_aligned_memset. generalize (Z.to_nat n). intros k. revert p m. induction k as [|k IH]; intros p m; cbn [word_memset_from]; [done|].
  eapply ending_bind; [apply store32_ending|]. intros m' _. apply IH.
Qed.

Lemma mark_ending bm first n m : ending (bitmap_mark_as_used bm first n m) (λ _, True).
Proof using Type.
  unfold bitmap_mark_as_used. generalize (Z.to_nat (u32 (first + n) - first)). intros k. revert first m.
  induction k as [|k IH]; intros i m; cbn [mark_from]; [done|]. eapply ending_bind with (P := λ _, True).
  - unfold _enable_bit. destruct (_ <? _); [|done]. eapply ending_bind; [apply load32_ending|intros ? _].
    by eapply ending_bind; [apply store32_ending|].
  - intros [b m'] _. apply IH.
Qed.

Lemma lasts_get_region om i : lasts om (pmm_get_region i) (λ _, True).
Proof using Type. unfold pmm_get_region. lasts. Qed.
Lemma lasts_total om : lasts om get_total_mem (λ _, True).
Proof using Type.
  assert (∀ n i c, lasts om (total_mem_from n i c) (λ _, True)) as Ht by (induction n as [|n IH]; intros i c; cbn [total_mem_from]; lasts).
  unfold get_total_mem. lasts.
Qed.
#[local] Hint Resolve lasts_get_region lasts_total : lasts.

Lemma lasts_borrow a n : lasts None (pmm_borrow_pages a n) (λ _, True).
Proof using Type.
  assert (∀ k i p c, lasts None (ppn_from k i p c) (λ _, True)) as Hp by (induction k as [|k IH]; intros i p c; cbn [ppn_from]; lasts).
  unfold pmm_borrow_pages, physic_addr_to_ppn, total_memory_regions. lasts. apply lasts_writing. intros m.
  by eapply ending_bind; [apply mark_ending|].
Qed.
Lemma lasts_place n i b : lasts None (place_bitmap_from n i b) (λ _, True).
Proof using Type. revert i. induction n as [|n IH]; intros i; cbn [place_bitmap_from]; lasts. Qed.
Lemma lasts_bitmap_init map slots size : lasts None (bitmap_init map slots size) (λ _, True).
Proof using Type.
  unfold bitmap_init. lasts. apply lasts_writing. intros m. by eapply ending_bind; [apply memset_ending|].
Qed.
#[local] Hint Resolve lasts_borrow lasts_place lasts_bitmap_init : lasts.

Lemma lasts_init_phys : lasts None init_phys_allocator (λ _, True).
Proof using Type.
  unfold init_phys_allocator, total_memory_regions. lasts. apply lasts_lift. unfold udiv_and_ceil. by destruct (_ =? 0).
Qed.

Lemma lasts_mret_instr om : lasts om mret_instr (λ _, True).
Proof using Type. intros s Hs. unfold mret_instr. by destruct (privilege_of _). Qed.
#[local] Hint Resolve lasts_mret_instr : lasts.

Lemma lasts_tail : lasts None boot_tail (λ _, True).
Proof using Type.
  unfold boot_tail, riscv_switch_to_supervisor, WRITE_CSR, shutdown, syscon_shutdown, syscon_reboot, mmio_write32. lasts.
  case_match; [case_match|]; lasts.
Qed.
End allocator.
#[export] Hint Resolve lasts_init_phys lasts_tail : lasts.

(* ------------------------------------------------------------------ *)
(** * The outcomes of the boot *)

Section outcomes.
Context `{Platform}.

(** The literals that the kernel looks names up by. *)
Definition kernel_names (m : mem) : Prop :=
  literals_at m ∧ c_name m (rodata "compatible") (chars "compatible") ∧
  c_name m (rodata "riscv,clint0") (chars "riscv,clint0").

Lemma then_ends {A B} om (k : K A) (f : A → K B) s :
  lasts om k (λ _, True) → at_mem om s → (∀ a s', at_mem om s' → f a s' ≠ OutOfFuel) → (k ≫= f) s ≠ OutOfFuel.
Proof using Type.
  intros Hk Hs Hf. specialize (Hk s Hs). unfold mbind, K_bind. destruct (k s) as [a s1|s1|s1|s1|s1|]; try done.
  by apply Hf, Hk.
Qed.

Lemma lasts_ends {A} (k : K A) s : lasts None k (λ _, True) → k s ≠ OutOfFuel.
Proof using Type. intros Hk. specialize (Hk s I). by destruct (k s). Qed.

(** The check decides whether a tree is valid. *)
Lemma valid_decided m tree : checkable m tree → valid_tree m tree ∨ ¬ valid_tree m tree.
Proof using Type.
  intros Hc. destruct (check_any_ok m tree (hdr m tree 4) Hc) as (r & _ & Hr).
  assert (r = 0 ↔ valid_tree m tree) as <-; [|lia]. rewrite Hr. unfold valid_tree. split; [tauto|]. intros (? & ? & ?). by split_and!; [|lia|..].
Qed.

Lemma probe_ends tree s :
  tree = 0 ∨ checkable (k_mem s) tree → kernel_names (k_mem s) → probe_devices tree s ≠ OutOfFuel.
Proof using Type.
  intros Ht (Hlit & Hcomp & Hclint). unfold probe_devices. destruct (check_device_tree_ok tree s) as [Hnull Hchk].
  assert (∀ s' (k : bool → K unit), check_device_tree tree s = Halted s' → (check_device_tree tree ≫= k) s ≠ OutOfFuel) as Hhalt.
  { intros s' k E. by rewrite (bind_ends _ _ _ _ E). }
  destruct Ht as [Hn|Hc]; [destruct (Hnull Hn) as (s' & E & _); by eapply Hhalt|].
  destruct (Hchk Hc) as [Hok Hbad]. destruct (valid_decided _ _ Hc) as [Hv|Hv].
  2: { destruct (Hbad Hv) as (s' & E & _). by eapply Hhalt. }
  destruct (Hok Hv) as [t E]. rewrite (bind_ret _ _ _ _ _ E). clear Hok Hbad Hnull Hchk Hhalt E.
  pose proof (checkable_readable _ _ Hc (proj1 Hv)) as Hr.
  destruct (proj1 (well_nested_block _ _) (proj2 (proj2 Hv))) as [top Hb].
  apply (then_ends (Some (k_mem s))); [by apply (lasts_init_controller _ _ top)|by destruct s|]. intros _ s1 Hs1.
  apply (then_ends (Some (k_mem s))); [by apply (lasts_detect _ _ top)|done|]. intros _ s2 _.
  apply lasts_ends. unfold init_power_controller. lasts.
Qed.

Lemma kmain_ends tree s :
  tree = 0 ∨ checkable (k_mem s) tree → kernel_names (k_mem s) → kmain 0 tree s ≠ OutOfFuel.
Proof using Type.
  intros Ht Hn. unfold kmain. change (0 =? 0) with true. cbv iota.
  assert (at_mem (Some (k_mem s)) s) as Hs by done. revert Hs. generalize s at 2 3. intros s0 Hs.
  unfold disable_interrupts, ensure_extensions_present, setup_interrupt_handler, WRITE_CSR.
  do 5 (apply (then_ends (Some (k_mem s))); [lasts|done|]; clear s0 Hs; intros _ s0 Hs).
  cbn [at_mem] in Hs. apply probe_ends; by rewrite Hs.
Qed.

(** What may come of the boot started in [s]. *)
Definition boot_outcome (s : kstate) (o : outcome unit) : Prop :=
  match o with
  | Ret _ _ | Unreachable _ | OutOfFuel => False
  | Halted s' => Z.testbit (k_csr s' mstatus) 3 = false ∧ k_mode s' = RISCV_PRIV_LVL_MACHINE
  | Entered s' => booted s s'
  | Faulted _ => True
  end.

Lemma outcomes_ok tree s :
  is_u32 test_addr ∧ Z.even test_addr = true ∧ is_u32 s_mode_handle_addr →
  is_u32 (k_csr s mstatus) → k_mode s = RISCV_PRIV_LVL_MACHINE →
  tree = 0 ∨ checkable (k_mem s) tree → kernel_names (k_mem s) → boot_outcome s (kmain 0 tree s).
Proof using Type.
  intros Hta Hs Hm Ht Hn. pose proof (kmain_ends tree s Ht Hn) as He. pose proof (kmain_ok Hta tree s Hs Hm) as Ho.
  by destruct (kmain 0 tree s).
Qed.

(** C3: The boot of hart 0, started in machine mode with the kernel's string literals in
    memory, always comes to an end, never returns to its caller and never runs into
    unreachable code, for a null pointer and for every device tree of version 16
    or later, well-formed or not: 40 bytes are in memory at the pointer and, if they make a
    good header, the whole of the tree that it claims (an older version may send the node
    names to [strrchr], which does not return).  Unless an access to memory faults on the
    way, hart 0 ends in supervisor mode in [test] with interrupts off and all required
    extensions present, or it is parked in machine mode with interrupts masked. *)
Theorem kmain_outcomes tree s :
  is_u32 test_addr ∧ Z.even test_addr = true ∧ is_u32 s_mode_handle_addr →
  is_u32 (k_csr s mstatus) → k_mode s = RISCV_PRIV_LVL_MACHINE →
  tree = 0 ∨ checkable (k_mem s) tree → kernel_names (k_mem s) → boot_outcome s (kmain 0 tree s).
Proof using Type. apply outcomes_ok. Qed.
End outcomes.

Lemma kmain_outcomes_witness :
  @boot_outcome qemu_literals sample_board (@kmain qemu_literals 0 tree_addr sample_board).
Proof.
  destruct sample_is_board as [[Hm Hs] _ Hr _ _ Hl _ _ _ _ _ _ _ _].
  apply (@kmain_outcomes qemu_literals); [split; [|split]| | | |].
  - split; vm_compute; congruence.
  - reflexivity.
  - split; vm_compute; congruence.
  - exact Hs.
  - exact Hm.
  - right. by apply readable_checkable.
  - exact Hl.
Defined.
